(* ===== verification/_CoqProject ===== *)
-Q . S2P
Prelude.v
Errno.v
HalConst.v
Addr.v
Pte.v
FrameAlloc.v
PageTable.v
RangeMap.v
SegTree.v
RingBuffer.v
Pipe.v
FdTable.v
StrongArc.v
Vma.v
PageFault.v
FaultProofs.v
UserVm.v
UserVmProofs.v
ForkProofs.v
Slab.v
SlabCore.v
SlabProofs.v
SlabClaims.v
SpinLock.v
Shm.v
MmCalls.v
UnmapProofs.v
ProtectProofs.v
MmClaims.v
Signal.v
UserMem.v
Time.v
TimerProofs.v
Futex.v
FutexProofs.v
Task.v
TaskProofs.v
TaskClaims.v
PageCache.v
PageCacheProofs.v
FileClaims.v
Path.v
Vfs.v
VfsProofs.v
FsCalls.v
FsClaims.v
PipeFs.v
Disk.v
Wait.v
NetAddr.v
Net.v
NetProofs.v
NetCalls.v
NetClaims.v
Io.v
IoProofs.v
