(* ===== verification/Prelude.v ===== *)
(** * Verification of the Chronix kernel

    Chronix is a Rust kernel for RISC-V and LoongArch.  This library models its
    memory management, its processes with their signals, futexes and timers, its
    file system with the system calls on it, its pipes and its network layer, as
    Rocq functions translated from the sources, and proves what they promise each
    other.  Paths below are relative to src/.

    ** The parts and the files

    - [Prelude] (this file): machine words, Rust results and panics, generic
      lemmas and tactics.
    - [Errno]: error numbers (os/src/syscall/sys_error.rs).

    Memory:
    - [HalConst]: the trait of architecture constants (hal/src/component/constant).
    - [Addr]: addresses and page numbers (hal/src/component/addr).
    - [Pte]: page-table entries of both architectures (hal/src/component/pagetable).
    - [FrameAlloc]: the bitmap frame allocator and the tracker that frees on drop
      (os/src/mm/allocator/frame_allocator.rs, hal/src/component/common.rs).
    - [PageTable]: walk, map, unmap, translation (hal/src/component/pagetable).
    - [StrongArc]: the reference-counted pointer (hal/src/util/smart_point.rs).
    - [Vma]: a memory area as a value (os/src/mm/vm/mod.rs, uvm.rs).
    - [PageFault], [FaultProofs]: an area against memory: page faults,
      copy-on-write, population (os/src/mm/vm/uvm.rs, os/src/fs/page,
      os/src/ipc/sysv/shm.rs).
    - [UserVm], [UserVmProofs], [ForkProofs]: the address space: mmap, unmap,
      heap, fork (os/src/mm/vm/uvm.rs, os/src/mm/vm/kvm).
    - [Slab], [SlabCore], [SlabProofs], [SlabClaims]: the slab allocator, on words of
      memory (os/src/mm/allocator/slab_allocator.rs).
    - [Shm]: System V shared memory (os/src/ipc/sysv/shm.rs).
    - [MmCalls], [UnmapProofs], [ProtectProofs], [MmClaims]: mmap, munmap, mprotect,
      mremap and brk (os/src/syscall/mm.rs).
    - [UserMem]: the interface of user memory for the system calls (os/src/mm/user.rs).

    Containers and locks:
    - [RangeMap], [SegTree]: the two containers of utils/.
    - [RingBuffer]: the byte queue (os/src/utils/ring_buffer.rs).
    - [SpinLock]: the spin locks (os/src/sync/mutex).

    Processes:
    - [Signal]: sets, actions and queues of signals (os/src/signal).
    - [Time], [TimerProofs]: clocks, timers and the calls on them (os/src/timer,
      os/src/syscall/time.rs).
    - [Futex], [FutexProofs]: futexes (os/src/syscall/futex.rs).
    - [Task], [TaskProofs], [TaskClaims]: identifiers, tasks, thread and process
      groups, clone, exit, exec, wait, the calls on signals (os/src/task,
      os/src/syscall/process.rs, os/src/syscall/signal.rs).

    Files:
    - [FdTable]: file descriptors (os/src/task/fs.rs).
    - [Pipe], [PipeFs]: the first pipes and those that pipe2 makes now
      (os/src/fs/pipe.rs, os/src/fs/pipefs.rs).
    - [Disk]: a block device as a file of bytes (os/src/fs/ext4/disk.rs,
      os/src/fs/fat32/disk.rs, os/src/drivers/block).
    - [PageCache], [PageCacheProofs], [FileClaims]: the page cache and the files of
      tmpfs and ext4 (os/src/fs/page, os/src/fs/tmpfs, os/src/fs/ext4).
    - [Path], [Vfs], [VfsProofs]: paths, dentries, inodes, lookups and the tree at boot
      (os/src/utils/path.rs, os/src/fs/vfs).
    - [FsCalls], [FsClaims]: the system calls on files (os/src/syscall/fs.rs).
    - [Io], [IoProofs]: ppoll, pselect6 and the futures they wait with
      (os/src/syscall/io.rs, os/src/utils/async_utils.rs).

    Network:
    - [Wait]: the monad of the calls that may wait, with rules for its calls.
    - [NetAddr]: socket addresses (os/src/net/addr.rs).
    - [Net], [NetProofs]: the socket set, the listen table, TCP and UDP sockets
      (os/src/net).
    - [NetCalls], [NetClaims]: the system calls on sockets (os/src/syscall/net.rs).

    A page fault runs through most of the first group: the address space
    ([UserVm]) finds the area in its range map ([RangeMap]), the area
    ([PageFault]) takes a frame ([FrameAlloc]), counts it ([StrongArc]) and enters
    it in the page table ([PageTable]), whose words are entries ([Pte]) of the
    architecture.  A read of a file runs through the third: the call ([FsCalls])
    finds the open file by its descriptor ([FdTable]), the file its inode through
    the dentry ([Vfs]), the inode the page in its cache ([PageCache]), and the ext4
    library the sectors through the cursor ([Disk]).

    ** How the code is translated

    A [usize] is a [Z]; arithmetic that can leave the word is written with the
    wrapping operations of this file, as in a release build.  A panic is the
    value [Panic] of [outcome]; a [Result] is [result].  Traits are classes, and
    what an implementation promises is a second class of laws, proved for each
    implementation, so that the page-table walk is verified once for two entry
    formats, and everything above it once for any frame allocator that meets the
    laws.  Operations on memory run in a state-and-panic monad over [Machine]:
    physical memory, the allocator, the heap of counted frames and the page
    caches.  System calls run in a monad of state, panic and error ([call] in
    [Vfs]; [wcall] in [Wait], whose calls may also be waiting).  Objects that the
    code shares by reference (tasks, dentries, inodes, open files, sockets) have
    numbers, and who holds them decides when they are dropped.

    Code that interleaves is a step relation whose steps are the atomic accesses
    ([StrongArc], [SpinLock]), the locked sections ([Pipe], [PipeFs], [Futex]) or
    the calls up to their suspensions and from there on ([Time], [Task], [Net], [Io]).

    Third-party code is a parameter with its documented behaviour: the bitmap
    crate ([BitAllocLaws]), the global allocator ([GlobalAllocLaws]), the
    contents of files ([FileStore]), the ext4 library ([Ext4Lib]), the virtio
    library ([VirtIOBlk]) and the network library ([SmolTcp]).  Witnesses
    instantiate them with concrete functions.

    ** What is proved

    - Page tables: the walk refines a partial map from pages to entries; [map] is
      insertion, [unmap] deletion, translation is lookup; a new table is empty
      whatever its frame held.  The statements are about a region of root indexes
      without superpages, so they hold of the user half of a RISC-V table whose
      upper half is the kernel's.
    - Entries: fields read back as stored, setters change one thing.
    - Frames and objects: no frame, slab object, task identifier or library socket
      has two owners over any run of the operations.
    - Counted frames: over every interleaving the payload is freed once and not
      used after.
    - Faults: each kind of fault installs the right frame with the right
      permissions and contents; copy-on-write gives a private copy exactly when
      the frame is shared.
    - Address space: mmap finds the lowest gap, munmap and mprotect refine their
      abstract effect on pages and leave every other page with what backs it, fork
      shares every page copy-on-write.
    - Containers and locks: range map, range set, ring buffer and descriptor table
      refine their abstract counterparts; the mutex excludes and makes progress.
    - Processes: a wait reaps the child it finds and gives its status; signals of a
      kind arrive in order and SIGKILL certainly; no futex wake-up is lost and none
      is invented; expired timers fire, and a sleeper is woken.
    - Files: the page cache is transparent, pipes deliver bytes in order and leave
      nobody asleep behind a closed end, the dentry cache stays coherent under every
      call, a lookup finds what the tree holds, a disk is a file of bytes, and
      pselect6 tells exactly which files are ready.
    - Network: every socket has a live library socket of its own, whatever the
      order of calls and packets, and the calls that can panic are named.

    Some theorems state what the code does where that is not what it means to do.
    Among them: [rw_mutex_not_exclusive], [waitpid_misses_exit],
    [fd_limit_overrun], [pread_position], [munmap_unaligned_hangs],
    [tmp_append_lost], [find_wrong_key], [rename_over_panics], [creat_loses_data],
    [zombie_takes_signal], [pipefs_lost_reader], [half_close_deaf],
    [accept_reset_panics], [early_shutdown_panics], [udp_bind_wrong_file],
    [recvmsg_loses], [net_locks_deadlock], [ppoll_leaves_mask],
    [select_1025_panics] and [late_deadline_panics].

    ** Fuel

    Recursion that is not structural carries fuel, and such functions are proved
    not to run out where they end in the source: the segment tree halves its
    range, so the length of the range is enough; the loops of the address space
    advance by at least one page or one area per round, so the number of pages, or
    of areas, is enough; a transfer through the page cache or the disk moves at
    least a byte per round, so the length of the buffer is enough; a path has no
    more names than characters.  A loop that waits for another task or a packet has
    no such bound: out of fuel it is still waiting, and what is proved of it holds
    for every fuel.

    ** Not modelled

    Trap entry, context switch and registers (assembly); the executor and the
    scheduler; the device tree, interrupts and the drivers but for block
    transfers; console and terminal; the third-party crates behind ext4, FAT, ELF
    and the network; files that have constant or generated contents (most of
    /dev and /proc); loading a program.  TLB flushes and fences have no effect in
    the model, and a lock is taken for the whole of the step that takes it, so that
    steps are atomic. *)

From Stdlib Require Export ZArith Lia.
From stdpp Require Export prelude gmap list sorting.

Declare Scope word_scope.
Delimit Scope word_scope with word.
#[local] Open Scope Z_scope.

(** ** Rust results and panics *)

(** [Result<A, E>]. *)
Inductive result (A E : Type) : Type :=
| Ok (a : A)
| Err (e : E).
Arguments Ok {A E} a.
Arguments Err {A E} e.

(** The outcome of code that may panic ([unwrap], [assert!], slice bounds). *)
Inductive outcome (A : Type) : Type :=
| Ret (a : A)
| Panic.
Arguments Ret {A} a.
Arguments Panic {A}.

Definition obind {A B} (m : outcome A) (k : A -> outcome B) : outcome B :=
  match m with
  | Ret a => k a
  | Panic => Panic
  end.

Definition unwrap {A} (o : option A) : outcome A :=
  match o with
  | Some a => Ret a
  | None => Panic
  end.

Definition guard_panic {A} (b : bool) (k : outcome A) : outcome A :=
  if b then k else Panic.

Notation "'let!' x ':=' m 'in' k" := (obind m (fun x => k))
  (at level 10, x pattern, m at level 100, k at level 200).
Notation "'assert!' b 'in' k" := (guard_panic b k)
  (at level 10, b at level 100, k at level 200).

(** ** Machine words: [usize] as [Z] in [0, 2^64) *)

Definition usize_bits : Z := 64.
Definition usize_max : Z := 2 ^ 64 - 1.

(** The release profile wraps on overflow. *)
Definition wrap (z : Z) : Z := z mod 2 ^ 64.

Definition is_usize (z : Z) : Prop := 0 <= z < 2 ^ 64.

Definition wadd (a b : Z) : Z := wrap (a + b).
Definition wsub (a b : Z) : Z := wrap (a - b).
Definition wmul (a b : Z) : Z := wrap (a * b).
Definition wshl (a n : Z) : Z := wrap (Z.shiftl a n).
Definition wnot (a : Z) : Z := usize_max - a.

Infix "⊞" := wadd (at level 50, left associativity) : word_scope.
Infix "⊟" := wsub (at level 50, left associativity) : word_scope.
Infix "⊠" := wmul (at level 40, left associativity) : word_scope.
Infix "⋘" := wshl (at level 35, no associativity) : word_scope.

Section Words.

Lemma wrap_bounds z : is_usize (wrap z).
Proof. unfold is_usize, wrap. apply Z.mod_pos_bound. lia. Qed.

Lemma wrap_small z : is_usize z -> wrap z = z.
Proof. unfold is_usize, wrap. intros. by apply Z.mod_small. Qed.

Lemma wadd_small a b : is_usize (a + b) -> wadd a b = a + b.
Proof. apply wrap_small. Qed.

Lemma wsub_small a b : is_usize (a - b) -> wsub a b = a - b.
Proof. apply wrap_small. Qed.

Lemma wmul_small a b : is_usize (a * b) -> wmul a b = a * b.
Proof. apply wrap_small. Qed.

Lemma wadd_assoc a b c : wadd a (wadd b c) = wadd (wadd a b) c.
Proof.
  unfold wadd, wrap. rewrite Zplus_mod_idemp_r, Zplus_mod_idemp_l. f_equal. lia.
Qed.

(** Arithmetic up to wrap-around: equal modulo 2^64 and in range. *)
Lemma wrap_eq a b : (a - b) mod 2 ^ 64 = 0 -> is_usize b -> wrap a = b.
Proof.
  intros E Hb. unfold wrap. replace a with (b + (a - b)) by lia.
  rewrite <- Zplus_mod_idemp_r, E, Z.add_0_r. by apply Z.mod_small.
Qed.

Lemma usize_nonneg z : is_usize z -> 0 <= z.
Proof. unfold is_usize. lia. Qed.

(** *** Bit-level characterisations *)

Lemma testbit_above x n i : 0 <= x < 2 ^ n -> n <= i -> Z.testbit x i = false.
Proof.
  intros Hx Hi. destruct (decide (i < 0)) as [|Hi0].
  { apply Z.testbit_neg_r. lia. }
  destruct (decide (x = 0)) as [->|]; [apply Z.bits_0|].
  apply Z.bits_above_log2; [lia|].
  apply Z.log2_lt_pow2; [lia|].
  apply Z.lt_le_trans with (2 ^ n); [lia|]. apply Z.pow_le_mono_r; lia.
Qed.

Lemma below_pow2_of_testbit x n :
  0 <= n -> 0 <= x -> (forall i, n <= i -> Z.testbit x i = false) -> x < 2 ^ n.
Proof.
  intros Hn Hx Hb. destruct (decide (x < 2 ^ n)) as [|Hge]; [done|].
  assert (0 < x) by (pose proof (Z.pow_pos_nonneg 2 n); lia).
  specialize (Hb (Z.log2 x)). rewrite Z.bit_log2 in Hb by lia.
  discriminate Hb. apply Z.log2_le_pow2; lia.
Qed.

Lemma wrap_testbit z i :
  0 <= i -> Z.testbit (wrap z) i = (i <? 64) && Z.testbit z i.
Proof.
  intros Hi. unfold wrap. destruct (Z.ltb_spec i 64).
  - by rewrite Z.mod_pow2_bits_low.
  - by rewrite Z.mod_pow2_bits_high by lia.
Qed.

Lemma wnot_lxor a : is_usize a -> wnot a = Z.lxor a (Z.ones 64).
Proof.
  intros Ha. unfold wnot, usize_max. rewrite <- Z.ldiff_ones_l_low.
  - rewrite <- Z.sub_nocarry_ldiff; [rewrite Z.ones_equiv; lia|].
    apply Z.bits_inj'. intros i Hi. rewrite Z.ldiff_spec, Z.bits_0.
    destruct (decide (i < 64)).
    + rewrite Z.ones_spec_low by lia. apply andb_false_r.
    + by rewrite (testbit_above a 64) by (unfold is_usize in Ha; lia).
  - apply Ha.
  - destruct (decide (a = 0)) as [->|]; [done|].
    apply Z.log2_lt_pow2; unfold is_usize in Ha; lia.
Qed.

Lemma wnot_testbit a i :
  is_usize a -> 0 <= i -> Z.testbit (wnot a) i = (i <? 64) && negb (Z.testbit a i).
Proof.
  intros Ha Hi. rewrite wnot_lxor, Z.lxor_spec by done.
  destruct (Z.ltb_spec i 64).
  - rewrite Z.ones_spec_low by lia. by destruct (Z.testbit a i).
  - rewrite Z.ones_spec_high, (testbit_above a 64) by (unfold is_usize in Ha; lia).
    done.
Qed.

Lemma land_ones_mod x n : 0 <= n -> Z.land x (2 ^ n - 1) = x mod 2 ^ n.
Proof.
  intros. rewrite <- Z.land_ones by done. by rewrite Z.ones_equiv, Z.sub_1_r.
Qed.

(** Rounding down by masking with the complement of [2^n - 1]. *)
Lemma land_wnot_round x n :
  is_usize x -> 0 <= n < 64 -> Z.land x (wnot (2 ^ n - 1)) = x - x mod 2 ^ n.
Proof.
  intros Hx Hn.
  assert (Hm : is_usize (2 ^ n - 1)).
  { unfold is_usize. pose proof (Z.pow_pos_nonneg 2 n).
    pose proof (Z.pow_le_mono_r 2 n 64). lia. }
  transitivity (Z.shiftl (Z.shiftr x n) n).
  - apply Z.bits_inj'. intros i Hi.
    rewrite Z.land_spec, wnot_testbit, Z.shiftl_spec by done.
    replace (2 ^ n - 1) with (Z.ones n) by (rewrite Z.ones_equiv; lia).
    destruct (decide (i < n)).
    + rewrite Z.ones_spec_low, (Z.testbit_neg_r _ (i - n)) by lia.
      by rewrite !andb_false_r.
    + rewrite Z.ones_spec_high, Z.shiftr_spec by lia.
      replace (i - n + n) with i by lia.
      destruct (Z.ltb_spec i 64); [by rewrite andb_true_r|].
      by rewrite (testbit_above x 64) by (unfold is_usize in Hx; lia).
  - rewrite Z.shiftl_mul_pow2, Z.shiftr_div_pow2 by lia.
    pose proof (Z.div_mod x (2 ^ n)). pose proof (Z.pow_pos_nonneg 2 n). lia.
Qed.

Lemma land_usize a b : is_usize a -> is_usize (Z.land a b).
Proof.
  unfold is_usize. intros Ha. split; [apply Z.land_nonneg; lia|].
  apply below_pow2_of_testbit; [lia|apply Z.land_nonneg; lia|].
  intros i Hi. by rewrite Z.land_spec, (testbit_above a 64) by lia.
Qed.

Lemma lor_usize a b : is_usize a -> is_usize b -> is_usize (Z.lor a b).
Proof.
  unfold is_usize. intros Ha Hb. split; [apply Z.lor_nonneg; lia|].
  apply below_pow2_of_testbit; [lia|apply Z.lor_nonneg; lia|].
  intros i Hi. by rewrite Z.lor_spec, !(testbit_above _ 64) by lia.
Qed.

Lemma wnot_usize a : is_usize a -> is_usize (wnot a).
Proof. unfold is_usize, wnot, usize_max. lia. Qed.

Lemma pow2_usize n : 0 <= n < 64 -> is_usize (2 ^ n).
Proof.
  intros. unfold is_usize. split; [apply Z.pow_nonneg; lia|].
  apply Z.pow_lt_mono_r; lia.
Qed.

Lemma lor_disjoint a b : Z.land a b = 0 -> Z.lor a b = a + b.
Proof. pose proof (Z.add_lor_land a b). lia. Qed.

(** Setting every bit from [n] up to 63 keeps the low [n] bits. *)
Lemma lor_high_bits a n :
  is_usize a -> 0 <= n < 64 ->
  Z.lor a (wnot (2 ^ n - 1)) = a mod 2 ^ n + (2 ^ 64 - 2 ^ n).
Proof.
  intros Ha Hn.
  assert (Hm : is_usize (2 ^ n - 1)).
  { pose proof (pow2_usize n Hn). pose proof (Z.pow_pos_nonneg 2 n). unfold is_usize in *. lia. }
  transitivity (Z.lor (a mod 2 ^ n) (wnot (2 ^ n - 1))).
  - apply Z.bits_inj'. intros i Hi. rewrite !Z.lor_spec, wnot_testbit by done.
    replace (2 ^ n - 1) with (Z.ones n) by (rewrite Z.ones_equiv; lia).
    destruct (decide (i < n)); [by rewrite Z.mod_pow2_bits_low by lia|].
    rewrite Z.ones_spec_high, Z.mod_pow2_bits_high by lia.
    destruct (Z.ltb_spec i 64); [by rewrite !orb_true_r|].
    by rewrite (testbit_above a 64) by (unfold is_usize in Ha; lia).
  - rewrite lor_disjoint; [unfold wnot, usize_max; lia|].
    apply Z.bits_inj'. intros i Hi. rewrite Z.land_spec, Z.bits_0, wnot_testbit by done.
    replace (2 ^ n - 1) with (Z.ones n) by (rewrite Z.ones_equiv; lia).
    destruct (decide (i < n)).
    + rewrite Z.ones_spec_low by lia. by rewrite !andb_false_r.
    + by rewrite Z.mod_pow2_bits_high by lia.
Qed.

(** A one-bit mask: the shape of every single-flag [contains]. *)
Lemma land_pow2 a n : 0 <= n -> Z.land a (2 ^ n) = if Z.testbit a n then 2 ^ n else 0.
Proof.
  intros Hn. apply Z.bits_inj'. intros i Hi.
  rewrite Z.land_spec, Z.pow2_bits_eqb by done.
  destruct (Z.eqb_spec n i) as [<-|Hne].
  - destruct (Z.testbit a n); [by rewrite Z.pow2_bits_true|by rewrite Z.bits_0].
  - rewrite andb_false_r. destruct (Z.testbit a n); [|by rewrite Z.bits_0].
    by rewrite Z.pow2_bits_false by lia.
Qed.

End Words.

(** ** The [bitflags] crate: a flag set is its bits *)

Definition contains (a f : Z) : bool := Z.land a f =? f.
Definition intersects (a f : Z) : bool := negb (Z.land a f =? 0).
Definition bf_insert (a f : Z) : Z := Z.lor a f.
Definition bf_remove (a f : Z) : Z := Z.ldiff a f.

Section Bitflags.

Lemma contains_pow2 a n : 0 <= n -> contains a (2 ^ n) = Z.testbit a n.
Proof.
  intros Hn. unfold contains. rewrite land_pow2 by done.
  pose proof (Z.pow_pos_nonneg 2 n).
  destruct (Z.testbit a n); [apply Z.eqb_refl|apply Z.eqb_neq; lia].
Qed.

Lemma contains_spec a f :
  contains a f = true <-> forall i, 0 <= i -> Z.testbit f i = true -> Z.testbit a i = true.
Proof.
  unfold contains. rewrite Z.eqb_eq. split.
  - intros E i Hi Hf. rewrite <- E, Z.land_spec in Hf. by apply andb_prop in Hf as [? _].
  - intros Hall. apply Z.bits_inj'. intros i Hi. rewrite Z.land_spec.
    specialize (Hall i Hi). destruct (Z.testbit f i); [|apply andb_false_r].
    by rewrite Hall.
Qed.

Lemma contains_insert_same a f : contains (bf_insert a f) f = true.
Proof.
  apply contains_spec. intros i _ Hf. unfold bf_insert.
  by rewrite Z.lor_spec, Hf, orb_true_r.
Qed.

End Bitflags.

(** ** [BTreeMap] *)

(** Iteration: the entries in key order. *)
Definition key_le {X} (e1 e2 : Z * X) : Prop := e1.1 <= e2.1.

#[export] Instance key_le_dec {X} (e1 e2 : Z * X) : Decision (key_le e1 e2).
Proof. unfold key_le. apply _. Defined.

Definition bt_iter {X} (m : gmap Z X) : list (Z * X) := merge_sort key_le (map_to_list m).

Section BTreeMap.
Context {X : Type}.
Implicit Types m : gmap Z X.

Lemma bt_iter_perm m : bt_iter m ≡ₚ map_to_list m.
Proof. apply merge_sort_Permutation. Qed.

Lemma elem_of_bt_iter m k x : (k, x) ∈ bt_iter m <-> m !! k = Some x.
Proof. by rewrite bt_iter_perm, elem_of_map_to_list. Qed.

Lemma bt_iter_nodup m : NoDup (bt_iter m).*1.
Proof. rewrite bt_iter_perm. apply NoDup_fst_map_to_list. Qed.

Lemma bt_iter_keys m v : v ∈ (bt_iter m).*1 <-> is_Some (m !! v).
Proof.
  rewrite list_elem_of_fmap. split.
  - intros ([k x] & -> & Hin). apply elem_of_bt_iter in Hin. by exists x.
  - intros [x Hx]. exists (v, x). split; [done|]. by apply elem_of_bt_iter.
Qed.

Lemma bt_iter_sorted m : StronglySorted key_le (bt_iter m).
Proof.
  apply StronglySorted_merge_sort.
  - intros ??? H1 H2. unfold key_le in *. lia.
  - intros ??. unfold key_le. lia.
Qed.

(** Entries with a smaller key come before. *)
Lemma bt_iter_before m l1 k x l2 k' x' :
  bt_iter m = l1 ++ (k, x) :: l2 -> m !! k' = Some x' -> k' < k -> (k', x') ∈ l1.
Proof.
  intros E Hk Hlt. apply elem_of_bt_iter in Hk. pose proof (bt_iter_sorted m) as Hs. rewrite E in Hk, Hs.
  apply elem_of_app in Hk as [Hk|Hk]; [done|]. exfalso.
  apply StronglySorted_app_1_r in Hs. inversion Hs as [|?? _ Hf]; subst. apply elem_of_cons in Hk as [[= -> ->]|Hk]; [lia|].
  rewrite Forall_forall in Hf. specialize (Hf _ Hk). unfold key_le in Hf. cbn in Hf. lia.
Qed.

(** The first entry in key order that satisfies a test. *)
Lemma bt_find m f :
  match List.find f (bt_iter m) with
  | Some (k, x) => m !! k = Some x /\ f (k, x) = true /\ forall k' x', m !! k' = Some x' -> k' < k -> f (k', x') = false
  | None => forall k x, m !! k = Some x -> f (k, x) = false
  end.
Proof.
  assert (H : forall l, match List.find f l with
    | Some e => exists l1 l2, l = l1 ++ e :: l2 /\ f e = true /\ forall e', e' ∈ l1 -> f e' = false
    | None => forall e, e ∈ l -> f e = false end).
  { induction l as [|e l IH]; cbn [List.find]; [intros e H; by apply elem_of_nil in H|].
    destruct (f e) eqn:Ef; [by exists [], l; split; [|split; [|intros ? H%elem_of_nil]]|].
    destruct (List.find f l) as [e'|].
    - destruct IH as (l1 & l2 & -> & He & Hl). exists (e :: l1), l2. split; [done|]. split; [done|].
      intros e1 [->|He1]%elem_of_cons; auto.
    - intros e1 [->|He1]%elem_of_cons; auto. }
  specialize (H (bt_iter m)). destruct (List.find f (bt_iter m)) as [[k x]|].
  - destruct H as (l1 & l2 & E & Hf & Hl). split; [apply elem_of_bt_iter; rewrite E; apply elem_of_app; right; left|].
    split; [done|]. intros k' x' Hk Hlt. apply Hl. by apply (bt_iter_before m l1 k x l2).
  - intros k x Hk. apply H. by apply elem_of_bt_iter.
Qed.

End BTreeMap.

(** ** Automation *)

(** Rewriting base for bit tests; side conditions are linear. *)
Create Rewrite HintDb zbit.
#[export] Hint Rewrite Z.lor_spec Z.land_spec Z.ldiff_spec Z.lxor_spec Z.bits_0 : zbit.
#[export] Hint Rewrite Z.shiftl_spec Z.shiftr_spec Z.pow2_bits_eqb using lia : zbit.
#[export] Hint Rewrite wrap_testbit using lia : zbit.

(** Decide the integer comparisons left by the bit rewriting. *)
Ltac zcmp :=
  repeat match goal with
    | |- context [Z.eqb ?a ?b] => destruct (Z.eqb_spec a b); try lia
    | |- context [Z.ltb ?a ?b] => destruct (Z.ltb_spec a b); try lia
    | |- context [Z.leb ?a ?b] => destruct (Z.leb_spec a b); try lia
    end.

(** Boolean tautologies over bit tests. *)
Ltac zbool :=
  repeat match goal with
    | |- context [Z.testbit ?a ?i] => destruct (Z.testbit a i) eqn:?
    end; simpl; try reflexivity; try congruence.

(** Split the conditions of a [match]/[if] in the goal. *)
Ltac case_if :=
  match goal with
  | |- context [if ?b then _ else _] => destruct b eqn:?
  end.

(** Turn boolean hypotheses and goals into propositions. *)
Ltac bool_to_prop :=
  repeat match goal with
    | H : (_ && _) = true |- _ => apply andb_prop in H as [? ?]
    | H : (_ || _) = false |- _ => apply orb_false_elim in H as [? ?]
    | H : negb _ = true |- _ => apply negb_true_iff in H
    | H : negb _ = false |- _ => apply negb_false_iff in H
    | H : Z.eqb _ _ = true |- _ => apply Z.eqb_eq in H
    | H : Z.eqb _ _ = false |- _ => apply Z.eqb_neq in H
    | H : Z.ltb _ _ = true |- _ => apply Z.ltb_lt in H
    | H : Z.ltb _ _ = false |- _ => apply Z.ltb_ge in H
    | H : Z.leb _ _ = true |- _ => apply Z.leb_le in H
    | H : Z.leb _ _ = false |- _ => apply Z.leb_gt in H
    end.

(** Linear arithmetic with division and modulo by positive constants. *)
Ltac div_lia := Z.to_euclidean_division_equations; lia.
