(* ===== verification/Errno.v ===== *)
(** The kernel's error numbers (os/src/syscall/sys_error.rs). *)

From S2P Require Import Prelude.

#[local] Open Scope Z_scope.

Inductive SysError :=
| EPERM | ENOENT | ESRCH | EINTR | EIO | ENXIO | E2BIG | ENOEXEC | EBADF | ECHILD | EAGAIN
| ENOMEM | EACCES | EFAULT | ENOTBLK | EBUSY | EEXIST | EXDEV | ENODEV | ENOTDIR | EISDIR
| EINVAL | ENFILE | EMFILE | ENOTTY | ETXTBSY | EFBIG | ENOSPC | ESPIPE | EROFS | EMLINK
| EPIPE | EDOM | ERANGE | EDEADLK | ENAMETOOLONG | ENOLCK | ENOSYS | ENOTEMPTY | ELOOP | ETIME
| ENOTSOCK | EOPNOTSUPP | EADDRINUSE | EADDRNOTAVAIL | ECONNRESET | EISCONN | ENOTCONN
| ETIMEOUT | ECONNREFUSED | EINPROGRESS | EOWNERDIED.

#[export] Instance SysError_eq_dec : EqDecision SysError.
Proof. solve_decision. Defined.

(** [code]: the enum's discriminant. *)
Definition SysError_code (e : SysError) : Z :=
  match e with
  | EPERM => 1 | ENOENT => 2 | ESRCH => 3 | EINTR => 4 | EIO => 5 | ENXIO => 6 | E2BIG => 7
  | ENOEXEC => 8 | EBADF => 9 | ECHILD => 10 | EAGAIN => 11 | ENOMEM => 12 | EACCES => 13
  | EFAULT => 14 | ENOTBLK => 15 | EBUSY => 16 | EEXIST => 17 | EXDEV => 18 | ENODEV => 19
  | ENOTDIR => 20 | EISDIR => 21 | EINVAL => 22 | ENFILE => 23 | EMFILE => 24 | ENOTTY => 25
  | ETXTBSY => 26 | EFBIG => 27 | ENOSPC => 28 | ESPIPE => 29 | EROFS => 30 | EMLINK => 31
  | EPIPE => 32 | EDOM => 33 | ERANGE => 34 | EDEADLK => 35 | ENAMETOOLONG => 36
  | ENOLCK => 37 | ENOSYS => 38 | ENOTEMPTY => 39 | ELOOP => 40 | ETIME => 62 | ENOTSOCK => 88
  | EOPNOTSUPP => 95 | EADDRINUSE => 98 | EADDRNOTAVAIL => 99 | ECONNRESET => 104
  | EISCONN => 106 | ENOTCONN => 107 | ETIMEOUT => 110 | ECONNREFUSED => 111
  | EINPROGRESS => 115 | EOWNERDIED => 130
  end.

Definition SysError_all : list SysError :=
  [ EPERM; ENOENT; ESRCH; EINTR; EIO; ENXIO; E2BIG; ENOEXEC; EBADF; ECHILD; EAGAIN; ENOMEM;
  EACCES; EFAULT; ENOTBLK; EBUSY; EEXIST; EXDEV; ENODEV; ENOTDIR; EISDIR; EINVAL; ENFILE;
  EMFILE; ENOTTY; ETXTBSY; EFBIG; ENOSPC; ESPIPE; EROFS; EMLINK; EPIPE; EDOM; ERANGE; EDEADLK;
  ENAMETOOLONG; ENOLCK; ENOSYS; ENOTEMPTY; ELOOP; ETIME; ENOTSOCK; EOPNOTSUPP; EADDRINUSE;
  EADDRNOTAVAIL; ECONNRESET; EISCONN; ENOTCONN; ETIMEOUT; ECONNREFUSED; EINPROGRESS;
  EOWNERDIED ].

(** [from_repr] looks the discriminant up; [from_i32] panics on an unknown one. *)
Definition SysError_from_i32 (e : Z) : outcome SysError :=
  unwrap (head (List.filter (fun x => SysError_code x =? e) SysError_all)).

(** Every error survives the trip through its number, so no two share one. *)
Lemma errno_roundtrip e : SysError_from_i32 (SysError_code e) = Ret e.
Proof. by destruct e. Qed.

Lemma errno_positive e : 0 < SysError_code e <= 130.
Proof. by destruct e. Qed.
