(* ===== verification/HalConst.v ===== *)
(** The trait [ConstantsHal] (hal/src/component/constant/mod.rs) as a type class,
    its two implementations, and the layout facts the rest of the kernel
    relies on as a second class, [ConstantsLaws], discharged for both. *)

From S2P Require Import Prelude.

#[local] Open Scope Z_scope.

(** [core::ops::Range<usize>]. *)
Record Range := mkRange { r_start : Z; r_end : Z }.

#[export] Instance Range_eq_dec : EqDecision Range.
Proof. solve_decision. Defined.

(** [Range::is_empty] is [!(start < end)]. *)
Definition range_is_empty (r : Range) : bool := negb (r_start r <? r_end r).

Definition in_range (x : Z) (r : Range) : Prop := r_start r <= x < r_end r.

(** The associated constants every architecture gives. *)
Class ConstantsHal := {
  KERNEL_ENTRY_PA : Z;
  KERNEL_ADDR_SPACE : Range;
  USER_ADDR_SPACE : Range;
  PA_WIDTH : Z;
  VA_WIDTH : Z;
  PAGE_SIZE : Z;
  PAGE_SIZE_BITS : Z;
  PTE_WIDTH : Z;
  PG_LEVEL : nat;
  MEMORY_END : Z;
  SIGRET_TRAMPOLINE_SIZE : Z;
  SIGRET_TRAMPOLINE_TOP : Z;
  KERNEL_STACK_SIZE : Z;
  KERNEL_STACK_TOP : Z;
  KERNEL_VM_SIZE : Z;
  KERNEL_VM_TOP : Z;
  KERNEL_VM_BOTTOM : Z;
  USER_STACK_SIZE : Z;
  USER_STACK_TOP : Z;
  USER_FILE_SIZE : Z;
  USER_FILE_END : Z;
  USER_SHARE_SIZE : Z;
  USER_SHARE_END : Z;
  DL_INTERP_OFFSET : Z;
}.

(** The constants the trait gives by default. *)
Definition MAX_PROCESSORS : Z := 4.
Definition USER_FILE_PER_PAGES : Z := 8.

Section Defaults.
Context `{ConstantsHal}.

Definition PTES_PER_PAGE : Z := PAGE_SIZE / Z.shiftr PTE_WIDTH 3.
Definition PPN_WIDTH : Z := PA_WIDTH - PAGE_SIZE_BITS.
Definition VPN_WIDTH : Z := VA_WIDTH - PAGE_SIZE_BITS.
Definition SIGRET_TRAMPOLINE_BOTTOM : Z := SIGRET_TRAMPOLINE_TOP - SIGRET_TRAMPOLINE_SIZE.
Definition KERNEL_STACK_BOTTOM : Z := KERNEL_STACK_TOP - KERNEL_STACK_SIZE * MAX_PROCESSORS.
Definition USER_STACK_BOTTOM : Z := USER_STACK_TOP - USER_STACK_SIZE.
Definition USER_FILE_BEG : Z := USER_FILE_END - USER_FILE_SIZE.
Definition USER_SHARE_BEG : Z := USER_SHARE_END - USER_SHARE_SIZE.

End Defaults.

(** hal/src/component/constant/riscv64.rs *)
Definition riscv64 : ConstantsHal :=
  let page := 4096 in
  let kernel := mkRange 0xffffffc000000000 0xffffffffffffffff in
  let user := mkRange 0x0 0x4000000000 in
  let kstack_size := 16 * 4096 in
  let kstack_top := r_end kernel - page + 1 in
  let kstack_bottom := kstack_top - kstack_size * MAX_PROCESSORS in
  let kvm_size := 0x200000000 in
  let kvm_top := r_end kernel - 0x80000000 + 1 in
  let ustack_size := 4096 * 4096 in
  let ustack_top := r_end user - page in
  let ufile_end := (ustack_top - ustack_size) - page in
  let ufile_size := 0x200000000 in
  {| KERNEL_ENTRY_PA := 0x80200000;
     KERNEL_ADDR_SPACE := kernel;
     USER_ADDR_SPACE := user;
     VA_WIDTH := 39;
     PA_WIDTH := 56;
     PAGE_SIZE := page;
     PAGE_SIZE_BITS := 12;
     PG_LEVEL := 3;
     PTE_WIDTH := 64;
     MEMORY_END := 0xc0000000;
     SIGRET_TRAMPOLINE_SIZE := page;
     SIGRET_TRAMPOLINE_TOP := kstack_bottom - page;
     KERNEL_STACK_SIZE := kstack_size;
     KERNEL_STACK_TOP := kstack_top;
     KERNEL_VM_SIZE := kvm_size;
     KERNEL_VM_TOP := kvm_top;
     KERNEL_VM_BOTTOM := kvm_top - kvm_size;
     USER_STACK_SIZE := ustack_size;
     USER_STACK_TOP := ustack_top;
     USER_FILE_END := ufile_end;
     USER_FILE_SIZE := ufile_size;
     USER_SHARE_END := (ufile_end - ufile_size) - page;
     USER_SHARE_SIZE := 0x200000000;
     DL_INTERP_OFFSET := 0x2000000000 |}.

(** hal/src/component/constant/loongarch64.rs *)
Definition loongarch64 : ConstantsHal :=
  let page := 4096 in
  let kernel := mkRange 0x9000000000000000 0x9001000000000000 in
  let user := mkRange 0x0 0x800000000000 in
  let kvm_size := 0x200000000 in
  let kvm_top := 0x0000ffffffffffff in
  let ustack_size := 4096 * 4096 in
  let ustack_top := r_end user - page in
  let ufile_end := ustack_top - ustack_size in
  let ufile_size := 0x200000000 in
  {| KERNEL_ENTRY_PA := 0x80000000;
     KERNEL_ADDR_SPACE := kernel;
     USER_ADDR_SPACE := user;
     PA_WIDTH := 48;
     VA_WIDTH := 48;
     PAGE_SIZE := page;
     PAGE_SIZE_BITS := 12;
     PG_LEVEL := 4;
     PTE_WIDTH := 64;
     MEMORY_END := 0x90000000B0000000;
     SIGRET_TRAMPOLINE_SIZE := page;
     SIGRET_TRAMPOLINE_TOP := 0x0000fffffffff000;
     KERNEL_STACK_SIZE := 16 * 4096;
     KERNEL_STACK_TOP := r_end kernel;
     KERNEL_VM_SIZE := kvm_size;
     KERNEL_VM_TOP := kvm_top;
     KERNEL_VM_BOTTOM := kvm_top - kvm_size + 1;
     USER_STACK_SIZE := ustack_size;
     USER_STACK_TOP := ustack_top;
     USER_FILE_END := ufile_end;
     USER_FILE_SIZE := ufile_size;
     USER_SHARE_END := ufile_end - ufile_size;
     USER_SHARE_SIZE := 0x200000000;
     DL_INTERP_OFFSET := 0x2000000000 |}.

(** What the address and page-table code relies on. *)
Class ConstantsLaws (C : ConstantsHal) : Prop := {
  page_size_bits : PAGE_SIZE_BITS = 12;
  page_size_pow : PAGE_SIZE = 2 ^ PAGE_SIZE_BITS;
  va_width_bounds : PAGE_SIZE_BITS < VA_WIDTH < 64;
  pa_width_bounds : PAGE_SIZE_BITS < PA_WIDTH < 64;
  pg_level_vpn : 9 * Z.of_nat PG_LEVEL = VPN_WIDTH;
  user_space_low : r_start USER_ADDR_SPACE = 0;
  user_space_half : r_end USER_ADDR_SPACE = 2 ^ (VA_WIDTH - 1);
}.

#[export] Instance riscv64_laws : ConstantsLaws riscv64.
Proof. by constructor. Qed.

#[export] Instance loongarch64_laws : ConstantsLaws loongarch64.
Proof. by constructor. Qed.

(** The user half of the address space as the kernel carves it up, from the
    interpreter window up to the stack. *)
Definition user_windows `{ConstantsHal} : list Range :=
  [ mkRange USER_SHARE_BEG USER_SHARE_END;
    mkRange USER_FILE_BEG USER_FILE_END;
    mkRange USER_STACK_BOTTOM USER_STACK_TOP ].

Definition page_aligned `{ConstantsHal} (a : Z) : Prop := a mod PAGE_SIZE = 0.

Fixpoint ascending (lo : Z) (rs : list Range) (hi : Z) : Prop :=
  match rs with
  | [] => lo <= hi
  | r :: rs => lo <= r_start r /\ r_start r < r_end r /\ ascending (r_end r) rs hi
  end.

Definition layout_ok (C : ConstantsHal) : Prop :=
  ascending (@DL_INTERP_OFFSET C) (@user_windows C) (r_end (@USER_ADDR_SPACE C)) /\
  Forall (fun r => @page_aligned C (r_start r) /\ @page_aligned C (r_end r)) (@user_windows C) /\
  r_end (@USER_ADDR_SPACE C) <= r_start (@KERNEL_ADDR_SPACE C) /\ 0 <= @DL_INTERP_OFFSET C.

Lemma user_layout : layout_ok riscv64 /\ layout_ok loongarch64.
Proof.
  split; (split; [|split]); repeat constructor; by vm_compute.
Qed.
