(* ===== verification/Addr.v ===== *)
(** Address and page-number newtypes (hal/src/component/addr).  [PhysAddr],
    [PhysPageNum], [VirtAddr] and [VirtPageNum] are transparent wrappers around
    [usize]; the model uses the wrapped [Z] and keeps the wrapper in the name of
    each operation.  The per-architecture modules of the source differ only in
    the literal 3 for [PG_LEVEL], so one section over [ConstantsHal] covers both. *)

From S2P Require Import Prelude HalConst.

#[local] Open Scope Z_scope.

Section Addr.
Context `{CH : ConstantsHal}.

(** *** Conversions from [usize] *)

Definition PhysAddr_from (value : Z) : Z := Z.land value ((wshl 1 PA_WIDTH) - 1).
Definition PhysPageNum_from (value : Z) : Z := Z.land value ((wshl 1 PPN_WIDTH) - 1).
Definition VirtPageNum_from (value : Z) : Z := Z.land value ((wshl 1 VPN_WIDTH) - 1).

(** Sign extension from bit [VA_WIDTH - 1]. *)
Definition VirtAddr_from (value : Z) : Z :=
  if Z.land value (wshl 1 (VA_WIDTH - 1)) =? 0
  then Z.land value (wshl 1 VA_WIDTH - 1)
  else Z.lor value (wnot (wshl 1 VA_WIDTH - 1)).

(** *** The arithmetic [ImplFor!] gives each newtype *)

Definition PhysAddr_add (a rhs : Z) : Z := PhysAddr_from (wadd a rhs).
Definition PhysAddr_sub (a rhs : Z) : Z := PhysAddr_from (wsub a rhs).
Definition PhysPageNum_add (a rhs : Z) : Z := PhysPageNum_from (wadd a rhs).
Definition PhysPageNum_sub (a rhs : Z) : Z := PhysPageNum_from (wsub a rhs).
Definition VirtAddr_add (a rhs : Z) : Z := VirtAddr_from (wadd a rhs).
Definition VirtAddr_sub (a rhs : Z) : Z := VirtAddr_from (wsub a rhs).
Definition VirtPageNum_add (a rhs : Z) : Z := VirtPageNum_from (wadd a rhs).
Definition VirtPageNum_sub (a rhs : Z) : Z := VirtPageNum_from (wsub a rhs).

(** [Step]: iteration over a range of page numbers uses the raw [usize]. *)
Definition forward_checked (a count : Z) : option Z :=
  if a + count <=? usize_max then Some (a + count) else None.
Definition backward_checked (a count : Z) : option Z :=
  if 0 <=? a - count then Some (a - count) else None.

(** *** Pages and offsets *)

Definition VirtAddr_page_offset (a : Z) : Z := Z.land a (wshl 1 PAGE_SIZE_BITS - 1).

Definition VirtAddr_floor (a : Z) : Z :=
  Z.land (Z.shiftr a PAGE_SIZE_BITS) (wshl 1 VPN_WIDTH - 1).

Definition VirtAddr_ceil (a : Z) : Z :=
  if a =? 0 then 0
  else Z.land (Z.shiftr (wadd (wsub a 1) PAGE_SIZE) PAGE_SIZE_BITS) (wshl 1 VPN_WIDTH - 1).

Definition PhysAddr_floor (a : Z) : Z :=
  Z.land (Z.shiftr a PAGE_SIZE_BITS) (wshl 1 PPN_WIDTH - 1).

Definition PhysAddr_ceil (a : Z) : Z :=
  if a =? 0 then 0
  else Z.land (Z.shiftr (wadd (wsub a 1) PAGE_SIZE) PAGE_SIZE_BITS) (wshl 1 PPN_WIDTH - 1).

Definition VirtPageNum_start_addr (vpn : Z) : Z := VirtAddr_from (wshl vpn PAGE_SIZE_BITS).
Definition VirtPageNum_end_addr (vpn : Z) : Z := wadd (VirtPageNum_start_addr vpn) PAGE_SIZE.
Definition PhysPageNum_start_addr (ppn : Z) : Z := wshl ppn PAGE_SIZE_BITS.
Definition PhysPageNum_end_addr (ppn : Z) : Z := wadd (PhysPageNum_start_addr ppn) PAGE_SIZE.

(** [PhysAddr::get_ptr]: the kernel's direct map. *)
Definition PhysAddr_get_ptr (a : Z) : Z := wadd a (r_start KERNEL_ADDR_SPACE).

(** [VirtPageNum::indexes]: nine bits per level, root first.  The loop fills
    [idx[i]] for [i] from [PG_LEVEL - 1] down to 0. *)
Fixpoint indexes_loop (levels : nat) (vpn : Z) (tail : list Z) : list Z :=
  match levels with
  | O => tail
  | S l => indexes_loop l (Z.shiftr vpn 9) (Z.land vpn 511 :: tail)
  end.

Definition VirtPageNum_indexes (vpn : Z) : list Z := indexes_loop PG_LEVEL vpn [].

End Addr.

(** Reading the indexes back as one page number. *)
Definition of_indexes (idxs : list Z) : Z := fold_left (fun acc i => acc * 512 + i) idxs 0.

(** ** Facts *)

Section AddrFacts.
Context `{CH : ConstantsHal} `{CL : !ConstantsLaws CH}.

(** Canonical addresses: the low half, or the sign-extended high half. *)
Definition canonical (a : Z) : Prop :=
  0 <= a < 2 ^ (VA_WIDTH - 1) \/ 2 ^ 64 - 2 ^ (VA_WIDTH - 1) <= a < 2 ^ 64.

Definition is_vpn (v : Z) : Prop := 0 <= v < 2 ^ VPN_WIDTH.

Lemma wshl_one n : 0 <= n < 64 -> wshl 1 n = 2 ^ n.
Proof.
  intros Hn. unfold wshl. rewrite Z.shiftl_1_l. apply wrap_small. by apply pow2_usize.
Qed.

Lemma mask_mod x n : 0 <= n < 64 -> Z.land x (wshl 1 n - 1) = x mod 2 ^ n.
Proof. intros. rewrite wshl_one by done. apply land_ones_mod. lia. Qed.

Lemma va_width_range : 12 < VA_WIDTH < 64.
Proof. pose proof va_width_bounds. rewrite page_size_bits in *. lia. Qed.

Lemma vpn_width_range : 0 < VPN_WIDTH < 64.
Proof. pose proof va_width_range. unfold VPN_WIDTH. rewrite page_size_bits. lia. Qed.

Lemma va_width_split : 2 ^ VA_WIDTH = 2 * 2 ^ (VA_WIDTH - 1).
Proof.
  pose proof va_width_range. rewrite <- Z.pow_succ_r by lia. f_equal. lia.
Qed.

Lemma vpn_width_split : 2 ^ VA_WIDTH = 2 ^ VPN_WIDTH * 4096.
Proof.
  pose proof va_width_range. unfold VPN_WIDTH. rewrite page_size_bits.
  change 4096 with (2 ^ 12). rewrite <- Z.pow_add_r by lia. f_equal. lia.
Qed.

Lemma va_width_le_64 : 2 ^ VA_WIDTH <= 2 ^ 63.
Proof. pose proof va_width_range. apply Z.pow_le_mono_r; lia. Qed.

Lemma page_size_val : PAGE_SIZE = 4096.
Proof. by rewrite page_size_pow, page_size_bits. Qed.

Lemma page_offset_mod a : VirtAddr_page_offset a = a mod 4096.
Proof. unfold VirtAddr_page_offset. rewrite page_size_bits. by apply mask_mod. Qed.

Lemma floor_div a : VirtAddr_floor a = (a / 4096) mod 2 ^ VPN_WIDTH.
Proof.
  pose proof vpn_width_range. unfold VirtAddr_floor.
  rewrite mask_mod, page_size_bits, Z.shiftr_div_pow2 by lia. done.
Qed.

Lemma floor_is_vpn a : is_vpn (VirtAddr_floor a).
Proof.
  rewrite floor_div. apply Z.mod_pos_bound. apply Z.pow_pos_nonneg; [lia|].
  pose proof vpn_width_range; lia.
Qed.

(** Bit [VA_WIDTH - 1] decides which half of the space [a mod 2^VA_WIDTH] is in. *)
Lemma sign_bit_half a :
  0 <= a ->
  Z.testbit a (VA_WIDTH - 1) = (2 ^ (VA_WIDTH - 1) <=? a mod 2 ^ VA_WIDTH).
Proof.
  intros Ha. pose proof va_width_range. pose proof va_width_split as Hs.
  set (h := 2 ^ (VA_WIDTH - 1)) in *.
  assert (0 < h) by (apply Z.pow_pos_nonneg; lia).
  rewrite <- (Z.mod_pow2_bits_low a VA_WIDTH) by lia.
  set (m := a mod 2 ^ VA_WIDTH).
  assert (0 <= m < 2 * h) by (rewrite <- Hs; apply Z.mod_pos_bound; lia).
  rewrite <- (Z.add_0_l (VA_WIDTH - 1)), <- Z.shiftr_spec, Z.shiftr_div_pow2 by lia.
  fold h. destruct (Z.leb_spec h m).
  - replace (m / h) with 1; [done|]. apply Z.div_unique with (m - h); lia.
  - by rewrite Z.div_small by lia.
Qed.

(** What the sign extension computes. *)
Lemma VirtAddr_from_val a :
  is_usize a ->
  VirtAddr_from a =
    let m := a mod 2 ^ VA_WIDTH in
    if m <? 2 ^ (VA_WIDTH - 1) then m else m + (2 ^ 64 - 2 ^ VA_WIDTH).
Proof.
  intros Ha. pose proof va_width_range as Hw. pose proof va_width_split as Hs.
  unfold VirtAddr_from. rewrite !(wshl_one (VA_WIDTH - 1)), land_pow2 by lia.
  rewrite sign_bit_half by apply Ha. cbv zeta.
  assert (0 < 2 ^ (VA_WIDTH - 1)) by (apply Z.pow_pos_nonneg; lia).
  destruct (Z.leb_spec (2 ^ (VA_WIDTH - 1)) (a mod 2 ^ VA_WIDTH)) as [Hh|Hh];
    destruct (Z.ltb_spec (a mod 2 ^ VA_WIDTH) (2 ^ (VA_WIDTH - 1))); try lia.
  - destruct (Z.eqb_spec (2 ^ (VA_WIDTH - 1)) 0); [lia|].
    rewrite wshl_one by lia. apply lor_high_bits; [done|lia].
  - rewrite Z.eqb_refl, mask_mod by lia. done.
Qed.

Lemma VirtAddr_from_canonical a : is_usize a -> canonical (VirtAddr_from a).
Proof.
  intros Ha. rewrite VirtAddr_from_val by done. cbv zeta. unfold canonical.
  pose proof va_width_split. pose proof va_width_le_64.
  assert (0 <= a mod 2 ^ VA_WIDTH < 2 ^ VA_WIDTH)
    by (apply Z.mod_pos_bound, Z.pow_pos_nonneg; pose proof va_width_range; lia).
  destruct (Z.ltb_spec (a mod 2 ^ VA_WIDTH) (2 ^ (VA_WIDTH - 1))); [left|right]; lia.
Qed.

Lemma canonical_usize a : canonical a -> is_usize a.
Proof.
  unfold canonical, is_usize. pose proof va_width_split. pose proof va_width_le_64.
  pose proof (Z.pow_pos_nonneg 2 (VA_WIDTH - 1)). pose proof va_width_range. lia.
Qed.

(** The residue of a canonical address modulo the width. *)
Lemma canonical_mod a :
  canonical a ->
  a mod 2 ^ VA_WIDTH = if a <? 2 ^ (VA_WIDTH - 1) then a else a - (2 ^ 64 - 2 ^ VA_WIDTH).
Proof.
  intros Ha. pose proof va_width_range. pose proof va_width_split. pose proof va_width_le_64.
  assert (0 < 2 ^ (VA_WIDTH - 1)) by (apply Z.pow_pos_nonneg; lia).
  destruct (Z.ltb_spec a (2 ^ (VA_WIDTH - 1))), Ha; try lia.
  - apply Z.mod_small. lia.
  - symmetry. apply Z.mod_unique with (2 ^ (64 - VA_WIDTH) - 1); [lia|].
    assert (E : 2 ^ 64 = 2 ^ VA_WIDTH * 2 ^ (64 - VA_WIDTH))
      by (rewrite <- Z.pow_add_r by lia; f_equal; lia).
    rewrite E. ring.
Qed.

Lemma VirtAddr_from_id a : canonical a -> VirtAddr_from a = a.
Proof.
  intros Ha. rewrite VirtAddr_from_val by by apply canonical_usize. cbv zeta.
  rewrite canonical_mod by done. pose proof va_width_split. pose proof va_width_le_64.
  pose proof (Z.pow_pos_nonneg 2 (VA_WIDTH - 1)). pose proof va_width_range.
  destruct (Z.ltb_spec a (2 ^ (VA_WIDTH - 1))), Ha; zcmp; lia.
Qed.

Lemma VirtAddr_from_mod a : is_usize a -> VirtAddr_from a mod 2 ^ VA_WIDTH = a mod 2 ^ VA_WIDTH.
Proof.
  intros Ha. rewrite canonical_mod, VirtAddr_from_val by (done || by apply VirtAddr_from_canonical).
  cbv zeta. pose proof va_width_split. pose proof va_width_le_64. pose proof va_width_range.
  assert (0 <= a mod 2 ^ VA_WIDTH < 2 ^ VA_WIDTH) by (apply Z.mod_pos_bound, Z.pow_pos_nonneg; lia).
  zcmp.
Qed.

Lemma start_addr_val v :
  is_vpn v ->
  VirtPageNum_start_addr v =
    if v * 4096 <? 2 ^ (VA_WIDTH - 1) then v * 4096 else v * 4096 + (2 ^ 64 - 2 ^ VA_WIDTH).
Proof.
  intros Hv. unfold is_vpn in Hv. unfold VirtPageNum_start_addr.
  pose proof vpn_width_split. pose proof va_width_le_64.
  rewrite page_size_bits. unfold wshl. rewrite Z.shiftl_mul_pow2 by lia.
  change (2 ^ 12) with 4096.
  rewrite wrap_small by (unfold is_usize; lia).
  rewrite VirtAddr_from_val by (unfold is_usize; lia). cbv zeta.
  by rewrite Z.mod_small by lia.
Qed.

Lemma start_addr_canonical v : is_vpn v -> canonical (VirtPageNum_start_addr v).
Proof.
  intros Hv. unfold VirtPageNum_start_addr. apply VirtAddr_from_canonical.
  apply wrap_bounds.
Qed.

(** 2^64 - 2^VA_WIDTH is a whole number of pages and of address spaces. *)
Lemma high_half_pages : exists k, 2 ^ 64 - 2 ^ VA_WIDTH = 4096 * (2 ^ VPN_WIDTH * k).
Proof.
  pose proof va_width_range. exists (2 ^ (64 - VA_WIDTH) - 1).
  assert (E : 2 ^ 64 = 2 ^ VA_WIDTH * 2 ^ (64 - VA_WIDTH))
    by (rewrite <- Z.pow_add_r by lia; f_equal; lia).
  rewrite E, vpn_width_split. ring.
Qed.

Lemma floor_start_addr v : is_vpn v -> VirtAddr_floor (VirtPageNum_start_addr v) = v.
Proof.
  intros Hv. rewrite start_addr_val by done. rewrite floor_div.
  assert (0 < 2 ^ VPN_WIDTH) by (apply Z.pow_pos_nonneg; pose proof vpn_width_range; lia).
  case_if.
  - rewrite Z.div_mul by lia. by apply Z.mod_small.
  - destruct high_half_pages as [k ->].
    replace (v * 4096 + 4096 * (2 ^ VPN_WIDTH * k)) with ((v + k * 2 ^ VPN_WIDTH) * 4096) by ring.
    rewrite Z.div_mul by lia. rewrite Z.mod_add by lia. by apply Z.mod_small.
Qed.

Lemma floor_offset_split a :
  canonical a -> VirtPageNum_start_addr (VirtAddr_floor a) + VirtAddr_page_offset a = a.
Proof.
  intros Ha. pose proof (floor_is_vpn a) as Hv.
  rewrite start_addr_val, page_offset_mod by done.
  pose proof va_width_range as Hw. pose proof vpn_width_range.
  assert (E : VirtAddr_floor a * 4096 + a mod 4096 = a mod 2 ^ VA_WIDTH).
  { rewrite floor_div, vpn_width_split, (Z.mul_comm (2 ^ VPN_WIDTH)).
    rewrite Z.rem_mul_r by (pose proof (Z.pow_pos_nonneg 2 VPN_WIDTH); lia). lia. }
  rewrite canonical_mod in E by done.
  pose proof va_width_split as Hs. pose proof vpn_width_split as Hs'.
  assert (Hh : 2 ^ (VA_WIDTH - 1) = 4096 * 2 ^ (VA_WIDTH - 13)).
  { change 4096 with (2 ^ 12). rewrite <- Z.pow_add_r by lia. f_equal. lia. }
  pose proof (Z.mod_pos_bound a 4096).
  assert (0 < 2 ^ (VA_WIDTH - 13)) by (apply Z.pow_pos_nonneg; lia).
  destruct (Z.ltb_spec a (2 ^ (VA_WIDTH - 1)));
    destruct (Z.ltb_spec (VirtAddr_floor a * 4096) (2 ^ (VA_WIDTH - 1)));
    unfold canonical in Ha; lia.
Qed.

(** On the user half, [ceil] is division rounded up and [floor] rounded down. *)
Lemma floor_user a : 0 <= a <= 2 ^ (VA_WIDTH - 1) -> VirtAddr_floor a = a / 4096.
Proof.
  intros Ha. rewrite floor_div. apply Z.mod_small.
  pose proof va_width_split. pose proof vpn_width_split.
  pose proof (Z.pow_pos_nonneg 2 (VA_WIDTH - 1)). pose proof va_width_range. div_lia.
Qed.

Lemma ceil_user a : 0 <= a <= 2 ^ (VA_WIDTH - 1) -> VirtAddr_ceil a = (a + 4095) / 4096.
Proof.
  intros Ha. unfold VirtAddr_ceil. destruct (Z.eqb_spec a 0) as [->|]; [done|].
  pose proof va_width_split. pose proof vpn_width_split. pose proof va_width_le_64.
  pose proof va_width_range. pose proof vpn_width_range.
  assert (2 ^ 12 <= 2 ^ (VA_WIDTH - 1)) by (apply Z.pow_le_mono_r; lia).
  rewrite mask_mod, page_size_val, page_size_bits, Z.shiftr_div_pow2 by lia.
  rewrite wsub_small, wadd_small by (unfold is_usize; lia).
  replace (a - 1 + 4096) with (a + 4095) by lia.
  apply Z.mod_small. change (2 ^ 12) with 4096 in *. div_lia.
Qed.

(** *** Table indexes *)

Lemma indexes_loop_spec n v tail :
  0 <= v < 512 ^ Z.of_nat n ->
  exists idxs, indexes_loop n v tail = idxs ++ tail /\ length idxs = n /\
    Forall (fun i => 0 <= i < 512) idxs /\ of_indexes idxs = v.
Proof.
  revert v tail. induction n as [|n IH]; intros v tail Hv; cbn [indexes_loop].
  - exists []. repeat split; [constructor|]. cbn in Hv |- *. lia.
  - rewrite Nat2Z.inj_succ, Z.pow_succ_r in Hv by lia.
    rewrite Z.shiftr_div_pow2 by lia. change (2 ^ 9) with 512.
    change 511 with (2 ^ 9 - 1). rewrite land_ones_mod by lia. change (2 ^ 9) with 512.
    destruct (IH (v / 512) (v mod 512 :: tail)) as (idxs & -> & Hlen & Hall & Hof).
    { split; [apply Z.div_pos; lia|]. apply Z.div_lt_upper_bound; lia. }
    exists (idxs ++ [v mod 512]). rewrite <- app_assoc, length_app. cbn [length app].
    repeat split; [lia| |].
    + apply Forall_app. split; [done|]. constructor; [|constructor].
      apply Z.mod_pos_bound. lia.
    + unfold of_indexes in *. rewrite fold_left_app, Hof. cbn. div_lia.
Qed.

Lemma vpn_width_512 : 2 ^ VPN_WIDTH = 512 ^ Z.of_nat PG_LEVEL.
Proof. rewrite <- pg_level_vpn, Z.pow_mul_r by lia. done. Qed.

Lemma indexes_spec v :
  is_vpn v ->
  length (VirtPageNum_indexes v) = PG_LEVEL /\
  Forall (fun i => 0 <= i < 512) (VirtPageNum_indexes v) /\
  of_indexes (VirtPageNum_indexes v) = v.
Proof.
  unfold is_vpn. rewrite vpn_width_512. intros Hv. unfold VirtPageNum_indexes.
  destruct (indexes_loop_spec PG_LEVEL v [] Hv) as (idxs & -> & ? & ? & ?).
  by rewrite app_nil_r.
Qed.

Lemma indexes_inj v w :
  is_vpn v -> is_vpn w -> VirtPageNum_indexes v = VirtPageNum_indexes w -> v = w.
Proof.
  intros Hv Hw E. destruct (indexes_spec v Hv) as (_ & _ & <-).
  destruct (indexes_spec w Hw) as (_ & _ & <-). by rewrite E.
Qed.

(** [VirtAddr::from] sign-extends: the result is canonical, agrees with the
    value on the low [VA_WIDTH] bits, and a second conversion changes nothing.
    A canonical address is exactly its page's start address plus its offset in
    the page, and the page number survives the trip through its start address. *)
Theorem virt_addr_page_split a :
  is_usize a ->
  let va := VirtAddr_from a in
  canonical va /\ va mod 2 ^ VA_WIDTH = a mod 2 ^ VA_WIDTH /\ VirtAddr_from va = va /\
  VirtPageNum_start_addr (VirtAddr_floor va) + VirtAddr_page_offset va = va /\
  VirtAddr_floor (VirtPageNum_start_addr (VirtAddr_floor va)) = VirtAddr_floor va.
Proof.
  intros Ha va. assert (Hc : canonical va) by by apply VirtAddr_from_canonical.
  split; [done|]. split; [by apply VirtAddr_from_mod|].
  split; [by apply VirtAddr_from_id|]. split; [by apply floor_offset_split|].
  apply floor_start_addr, floor_is_vpn.
Qed.

(** [VirtPageNum::indexes] cuts a page number into [PG_LEVEL] table indexes,
    each below 512, from which the page number is recovered; so two pages never
    share the same walk. *)
Theorem vpn_indexes_bijective v :
  is_vpn v ->
  length (VirtPageNum_indexes v) = PG_LEVEL /\
  Forall (fun i => 0 <= i < 512) (VirtPageNum_indexes v) /\
  of_indexes (VirtPageNum_indexes v) = v /\
  forall w, is_vpn w -> VirtPageNum_indexes w = VirtPageNum_indexes v -> w = v.
Proof.
  intros Hv. destruct (indexes_spec v Hv) as (? & ? & ?).
  repeat split; try done. intros. by apply indexes_inj.
Qed.

End AddrFacts.

Lemma virt_addr_page_split_witness :
  VirtAddr_from (CH := riscv64) 0x7fffff1234 = 0xffffffffffff1234 /\
  VirtPageNum_start_addr (CH := riscv64) (VirtAddr_floor (CH := riscv64) 0xffffffffffff1234) +
    VirtAddr_page_offset (CH := riscv64) 0xffffffffffff1234 = 0xffffffffffff1234.
Proof.
  split; [by vm_compute|].
  apply (virt_addr_page_split (CH := riscv64) 0x7fffff1234). by vm_compute.
Defined.

Lemma vpn_indexes_bijective_witness :
  VirtPageNum_indexes (CH := riscv64) 0x5123456 = [324; 282; 86] /\
  of_indexes (VirtPageNum_indexes (CH := riscv64) 0x5123456) = 0x5123456.
Proof.
  split; [by vm_compute|].
  destruct (vpn_indexes_bijective (CH := riscv64) 0x5123456) as (_ & _ & E & _);
    [by vm_compute|exact E].
Defined.
