(* ===== verification/Pte.v ===== *)
(** Page-table entries (hal/src/component/pagetable).  The trait
    [PageTableEntryHal] is a type class over the entry's [bits]; its contract is
    the class [PteLaws], which says that every operation is an update of an
    abstract view (frame, permissions, valid, dirty and copy-on-write flags).
    Both architectures implement it. *)

From S2P Require Import Prelude HalConst.

#[local] Open Scope Z_scope.

(** ** [MapPerm] and the trait *)

Definition MapPerm_R : Z := 2 ^ 0.
Definition MapPerm_W : Z := 2 ^ 1.
Definition MapPerm_X : Z := 2 ^ 2.
Definition MapPerm_U : Z := 2 ^ 3.

Definition is_perm (f : Z) : Prop := 0 <= f < 16.

Class PageTableEntryHal := {
  pte_new : Z -> Z -> Z;
  pte_flags : Z -> outcome Z;
  pte_set_flags : Z -> Z -> Z;
  pte_ppn : Z -> Z;
  pte_set_ppn : Z -> Z -> Z;
  pte_is_valid : Z -> outcome bool;
  pte_set_valid : Z -> bool -> Z;
  pte_is_cow : Z -> outcome bool;
  pte_set_cow : Z -> bool -> Z;
  pte_is_dirty : Z -> outcome bool;
  pte_set_dirty : Z -> bool -> Z;
  pte_is_leaf : Z -> outcome bool;
}.

(** The provided methods of the trait. *)
Section Provided.
Context `{PageTableEntryHal}.

Definition pte_has (m p : Z) : outcome bool := let! f := pte_flags p in Ret (contains f m).
Definition pte_put (m p : Z) (val : bool) : outcome Z :=
  let! f := pte_flags p in
  Ret (pte_set_flags p (if val then bf_insert f m else bf_remove f m)).

Definition pte_is_user := pte_has MapPerm_U.
Definition pte_set_user := pte_put MapPerm_U.
Definition pte_is_readable := pte_has MapPerm_R.
Definition pte_set_readable := pte_put MapPerm_R.
Definition pte_is_writable := pte_has MapPerm_W.
Definition pte_set_writable := pte_put MapPerm_W.
Definition pte_is_executable := pte_has MapPerm_X.
Definition pte_set_executable := pte_put MapPerm_X.

End Provided.

(** ** RISC-V Sv39 entries *)

Definition rv_PTE_V : Z := 2 ^ 0.
Definition rv_PTE_R : Z := 2 ^ 1.
Definition rv_PTE_W : Z := 2 ^ 2.
Definition rv_PTE_X : Z := 2 ^ 3.
Definition rv_PTE_U : Z := 2 ^ 4.
Definition rv_PTE_G : Z := 2 ^ 5.
Definition rv_PTE_A : Z := 2 ^ 6.
Definition rv_PTE_D : Z := 2 ^ 7.
Definition rv_PTE_C : Z := 2 ^ 8.

(** [PTEFlags::all()], for [from_bits]. *)
Definition rv_PTE_ALL : Z := 0x1FF.

Definition rv_PPN_MASK : Z := 0x003FFFFFFFFFFC00.
Definition rv_PTE_FLAGS_MASK : Z := 0x3FF.
Definition rv_FLAGS_MASK : Z :=
  Z.lor (Z.lor (Z.lor rv_PTE_U rv_PTE_R) rv_PTE_W) rv_PTE_X.

(** [from_bits] fails on a bit no flag names. *)
Definition from_bits (all b : Z) : option Z :=
  if Z.ldiff b all =? 0 then Some b else None.

Definition rv_pteflags (p : Z) : outcome Z :=
  unwrap (from_bits rv_PTE_ALL (Z.land p rv_PTE_FLAGS_MASK)).

Definition rv_PTEFlags_from (perm : Z) : Z :=
  let ret := 0 in
  let ret := if contains perm MapPerm_U then bf_insert ret rv_PTE_U else ret in
  let ret := if contains perm MapPerm_R then bf_insert ret rv_PTE_R else ret in
  let ret := if contains perm MapPerm_W then bf_insert ret rv_PTE_W else ret in
  if contains perm MapPerm_X then bf_insert ret rv_PTE_X else ret.

Definition rv_new (ppn perm : Z) : Z := Z.lor (wshl ppn 10) (rv_PTEFlags_from perm).

Definition rv_flags (p : Z) : outcome Z :=
  let! pte := rv_pteflags p in
  let ret := 0 in
  let ret := if contains pte rv_PTE_U then bf_insert ret MapPerm_U else ret in
  let ret := if contains pte rv_PTE_R then bf_insert ret MapPerm_R else ret in
  let ret := if contains pte rv_PTE_W then bf_insert ret MapPerm_W else ret in
  Ret (if contains pte rv_PTE_X then bf_insert ret MapPerm_X else ret).

Definition rv_set_flags (p perm : Z) : Z :=
  let pte := rv_PTEFlags_from perm in
  let bits := Z.land p (wnot rv_FLAGS_MASK) in
  Z.lor bits (Z.land pte rv_FLAGS_MASK).

Definition rv_ppn (p : Z) : Z :=
  Z.land (Z.shiftr p 10) (wshl 1 (@PPN_WIDTH riscv64) - 1).

Definition rv_set_ppn (p ppn : Z) : Z :=
  let bits := Z.land p (wnot rv_PPN_MASK) in
  Z.lor bits (Z.land (wshl ppn 10) rv_PPN_MASK).

Definition rv_is_leaf (p : Z) : outcome bool :=
  let! f := rv_pteflags p in
  Ret (contains f rv_PTE_V &&
       (contains f rv_PTE_R || contains f rv_PTE_W || contains f rv_PTE_X)).

Definition rv_is_dirty (p : Z) : outcome bool :=
  let! f := rv_pteflags p in Ret (contains f rv_PTE_D).
Definition rv_set_dirty (p : Z) (val : bool) : Z :=
  if val then Z.lor p rv_PTE_D else Z.land p (wnot rv_PTE_D).

Definition rv_is_valid (p : Z) : outcome bool :=
  let! f := rv_pteflags p in Ret (contains f rv_PTE_V).
Definition rv_set_valid (p : Z) (val : bool) : Z :=
  if val then Z.lor p rv_PTE_V else Z.land p (wnot rv_PTE_V).

Definition rv_is_cow (p : Z) : outcome bool :=
  let! f := rv_pteflags p in Ret (contains f rv_PTE_C).
Definition rv_set_cow (p : Z) (val : bool) : Z :=
  if val then Z.lor p rv_PTE_C else Z.land p (wnot rv_PTE_C).

Definition rv_pte : PageTableEntryHal := {|
  pte_new := rv_new; pte_flags := rv_flags; pte_set_flags := rv_set_flags;
  pte_ppn := rv_ppn; pte_set_ppn := rv_set_ppn;
  pte_is_valid := rv_is_valid; pte_set_valid := rv_set_valid;
  pte_is_cow := rv_is_cow; pte_set_cow := rv_set_cow;
  pte_is_dirty := rv_is_dirty; pte_set_dirty := rv_set_dirty;
  pte_is_leaf := rv_is_leaf |}.

(** ** LoongArch entries *)

Definition la_PTE_V : Z := 2 ^ 0.
Definition la_PTE_D : Z := 2 ^ 1.
Definition la_PTE_PLV_L : Z := 2 ^ 2.
Definition la_PTE_PLV_H : Z := 2 ^ 3.
Definition la_PTE_MAT_L : Z := 2 ^ 4.
Definition la_PTE_MAT_H : Z := 2 ^ 5.
Definition la_PTE_GH : Z := 2 ^ 6.
Definition la_PTE_P : Z := 2 ^ 7.
Definition la_PTE_W : Z := 2 ^ 8.
Definition la_PTE_C : Z := 2 ^ 9.
Definition la_PTE_NR : Z := 2 ^ 61.
Definition la_PTE_NX : Z := 2 ^ 62.
Definition la_PTE_RPLV : Z := 2 ^ 63.
Definition la_PTE_ALL : Z := 0xE0000000000003FF.

Definition la_FLAGS_MASK : Z :=
  Z.lor (Z.lor (Z.lor (Z.lor la_PTE_PLV_L la_PTE_PLV_H) la_PTE_W) la_PTE_NX) la_PTE_NR.
Definition la_PTE_FLAGS_MASK : Z := 0xE000000000000FFF.
Definition la_PPN_MASK : Z := 0x1FFFFFFFFFFFF000.

Definition la_pteflags (p : Z) : outcome Z :=
  unwrap (from_bits la_PTE_ALL (Z.land p la_PTE_FLAGS_MASK)).

Definition la_PTEFlags_from (perm : Z) : Z :=
  let ret := 0 in
  let ret := if contains perm MapPerm_U then bf_insert ret (Z.lor la_PTE_PLV_L la_PTE_PLV_H) else ret in
  let ret := if negb (contains perm MapPerm_R) then bf_insert ret la_PTE_NR else ret in
  let ret := if contains perm MapPerm_W then bf_insert ret la_PTE_W else ret in
  if negb (contains perm MapPerm_X) then bf_insert ret la_PTE_NX else ret.

Definition la_new (ppn perm : Z) : Z :=
  Z.lor (wshl ppn (@PAGE_SIZE_BITS loongarch64)) (la_PTEFlags_from perm).

Definition la_flags (p : Z) : outcome Z :=
  let! pte := la_pteflags p in
  let ret := 0 in
  let ret := if contains pte la_PTE_PLV_H && contains pte la_PTE_PLV_L
             then bf_insert ret MapPerm_U else ret in
  let ret := if negb (contains pte la_PTE_NR) then bf_insert ret MapPerm_R else ret in
  let ret := if contains pte la_PTE_W then bf_insert ret MapPerm_W else ret in
  Ret (if negb (contains pte la_PTE_NX) then bf_insert ret MapPerm_X else ret).

Definition la_set_flags (p perm : Z) : Z :=
  let pte := la_PTEFlags_from perm in
  let bits := Z.land p (wnot la_FLAGS_MASK) in
  Z.lor bits (Z.land pte la_FLAGS_MASK).

Definition la_ppn (p : Z) : Z := Z.shiftr (Z.land p la_PPN_MASK) 12.

Definition la_set_ppn (p ppn : Z) : Z :=
  let bits := Z.land p (wnot la_PPN_MASK) in
  Z.lor bits (Z.land (wshl ppn 12) la_PPN_MASK).

Definition la_is_dirty (p : Z) : outcome bool :=
  let! f := la_pteflags p in Ret (contains f la_PTE_D).
Definition la_set_dirty (p : Z) (val : bool) : Z :=
  if val then Z.lor p la_PTE_D else Z.land p (wnot la_PTE_D).

Definition la_is_valid (p : Z) : outcome bool :=
  let! f := la_pteflags p in Ret (contains f la_PTE_V).
Definition la_set_valid (p : Z) (val : bool) : Z :=
  if val then Z.lor p la_PTE_V else Z.land p (wnot la_PTE_V).

Definition la_is_cow (p : Z) : outcome bool :=
  let! f := la_pteflags p in Ret (contains f la_PTE_C).
Definition la_set_cow (p : Z) (val : bool) : Z :=
  if val then Z.lor p la_PTE_C else Z.land p (wnot la_PTE_C).

Definition la_is_leaf (_ : Z) : outcome bool := Ret false.

Definition la_pte : PageTableEntryHal := {|
  pte_new := la_new; pte_flags := la_flags; pte_set_flags := la_set_flags;
  pte_ppn := la_ppn; pte_set_ppn := la_set_ppn;
  pte_is_valid := la_is_valid; pte_set_valid := la_set_valid;
  pte_is_cow := la_is_cow; pte_set_cow := la_set_cow;
  pte_is_dirty := la_is_dirty; pte_set_dirty := la_set_dirty;
  pte_is_leaf := la_is_leaf |}.

(** ** The contract *)

(** What an entry means, independently of the encoding. *)
Record pte_view := mkView {
  v_ppn : Z;
  v_perm : Z;
  v_valid : bool;
  v_dirty : bool;
  v_cow : bool;
}.

Definition is_ppn (C : ConstantsHal) (n : Z) : Prop := 0 <= n < 2 ^ PPN_WIDTH.

Class PteLaws (C : ConstantsHal) (P : PageTableEntryHal) := {
  pte_wf : Z -> Prop;
  pte_view_of : Z -> pte_view;
  pte_flags_view p : pte_wf p -> pte_flags p = Ret (v_perm (pte_view_of p));
  pte_perm_view p : pte_wf p -> is_perm (v_perm (pte_view_of p));
  pte_ppn_view p : pte_wf p -> pte_ppn p = v_ppn (pte_view_of p);
  pte_valid_view p : pte_wf p -> pte_is_valid p = Ret (v_valid (pte_view_of p));
  pte_dirty_view p : pte_wf p -> pte_is_dirty p = Ret (v_dirty (pte_view_of p));
  pte_cow_view p : pte_wf p -> pte_is_cow p = Ret (v_cow (pte_view_of p));
  pte_new_view n f : is_ppn C n -> is_perm f ->
    pte_wf (pte_new n f) /\ pte_view_of (pte_new n f) = mkView n f false false false;
  pte_set_flags_view p f : pte_wf p -> is_perm f ->
    pte_wf (pte_set_flags p f) /\
    pte_view_of (pte_set_flags p f) =
      (let v := pte_view_of p in mkView (v_ppn v) f (v_valid v) (v_dirty v) (v_cow v));
  pte_set_ppn_view p n : pte_wf p -> is_ppn C n ->
    pte_wf (pte_set_ppn p n) /\
    pte_view_of (pte_set_ppn p n) =
      (let v := pte_view_of p in mkView n (v_perm v) (v_valid v) (v_dirty v) (v_cow v));
  pte_set_valid_view p b : pte_wf p ->
    pte_wf (pte_set_valid p b) /\
    pte_view_of (pte_set_valid p b) =
      (let v := pte_view_of p in mkView (v_ppn v) (v_perm v) b (v_dirty v) (v_cow v));
  pte_set_dirty_view p b : pte_wf p ->
    pte_wf (pte_set_dirty p b) /\
    pte_view_of (pte_set_dirty p b) =
      (let v := pte_view_of p in mkView (v_ppn v) (v_perm v) (v_valid v) b (v_cow v));
  pte_set_cow_view p b : pte_wf p ->
    pte_wf (pte_set_cow p b) /\
    pte_view_of (pte_set_cow p b) =
      (let v := pte_view_of p in mkView (v_ppn v) (v_perm v) (v_valid v) (v_dirty v) b);
}.

(** ** Bit-level tools for the two instances *)

Definition perm_of (r w x u : bool) : Z :=
  Z.b2z r + 2 * Z.b2z w + 4 * Z.b2z x + 8 * Z.b2z u.

Lemma perm_of_is_perm r w x u : is_perm (perm_of r w x u).
Proof. unfold is_perm. by destruct r, w, x, u. Qed.

Lemma perm_of_zero r w x u : perm_of r w x u = 0 -> r = false /\ w = false /\ x = false /\ u = false.
Proof. by destruct r, w, x, u. Qed.

Lemma perm_exists f : is_perm f -> exists r w x u, f = perm_of r w x u.
Proof.
  intros Hf.
  exists (Z.testbit f 0), (Z.testbit f 1), (Z.testbit f 2), (Z.testbit f 3).
  unfold is_perm in Hf.
  assert (Hc : f = 0 \/ f = 1 \/ f = 2 \/ f = 3 \/ f = 4 \/ f = 5 \/ f = 6 \/ f = 7 \/
               f = 8 \/ f = 9 \/ f = 10 \/ f = 11 \/ f = 12 \/ f = 13 \/ f = 14 \/ f = 15) by lia.
  by repeat destruct Hc as [->|Hc]; subst.
Qed.

Lemma flag_bit p m k :
  0 <= k -> contains (Z.land p m) (2 ^ k) = Z.testbit p k && Z.testbit m k.
Proof. intros. by rewrite contains_pow2, Z.land_spec. Qed.

(** Evaluate the bit tests of closed masks. *)
Ltac cbit :=
  autorewrite with zbit;
  repeat match goal with
    | |- context [Z.testbit ?c ?k] =>
        let b := eval vm_compute in (Z.testbit c k) in
        match b with
        | true => change (Z.testbit c k) with true
        | false => change (Z.testbit c k) with false
        end
    end;
  rewrite ?andb_true_r, ?andb_false_r, ?orb_false_r, ?orb_true_r.

(** Case analysis on a permission set. *)
Ltac perm_cases f Hf :=
  destruct (perm_exists f Hf) as ([] & [] & [] & [] & ->).

Lemma land_usize_r a b : is_usize b -> is_usize (Z.land a b).
Proof. rewrite Z.land_comm. apply land_usize. Qed.

Create HintDb usize discriminated.
#[export] Hint Resolve land_usize lor_usize wnot_usize wrap_bounds : usize.
#[export] Hint Extern 1 (is_usize ?c) => (vm_compute; split; discriminate) : usize.

(** A field of [n] bits at offset [k] is unchanged when the bits are. *)
Lemma field_ext p q k n :
  0 <= k -> 0 <= n ->
  (forall i, k <= i < k + n -> Z.testbit p i = Z.testbit q i) ->
  (p / 2 ^ k) mod 2 ^ n = (q / 2 ^ k) mod 2 ^ n.
Proof.
  intros Hk Hn E. apply Z.bits_inj'. intros i Hi.
  destruct (decide (i < n)).
  - rewrite !Z.mod_pow2_bits_low, <- !Z.shiftr_div_pow2, !Z.shiftr_spec by lia.
    apply E. lia.
  - by rewrite !Z.mod_pow2_bits_high by lia.
Qed.

(** Reading a field out of a word whose field bits are those of [v << k]. *)
Lemma field_read p v k n :
  0 <= k -> 0 <= n -> 0 <= v < 2 ^ n ->
  (forall i, k <= i < k + n -> Z.testbit p i = Z.testbit v (i - k)) ->
  (p / 2 ^ k) mod 2 ^ n = v.
Proof.
  intros Hk Hn Hv E. rewrite (field_ext p (Z.shiftl v k) k n) by
    (try lia; intros i Hi; rewrite Z.shiftl_spec by lia; by apply E).
  rewrite Z.shiftl_mul_pow2, Z.div_mul by (try apply Z.pow_nonzero; lia).
  by apply Z.mod_small.
Qed.

(** Bits of a mask that are all below or all above a field. *)
Lemma testbit_pow2_ne k i : 0 <= i -> i <> k -> Z.testbit (2 ^ k) i = false.
Proof.
  intros. destruct (decide (0 <= k)).
  - apply Z.pow2_bits_false. lia.
  - rewrite Z.pow_neg_r by lia. apply Z.bits_0.
Qed.

(** [bits & !MASK | v & MASK], the store both architectures use, replaces
    exactly the bits of the mask. *)
Lemma masked_store_bits p m v i :
  is_usize p -> is_usize m -> 0 <= i ->
  Z.testbit (Z.lor (Z.land p (wnot m)) (Z.land v m)) i =
    if Z.testbit m i then Z.testbit v i else Z.testbit p i.
Proof.
  intros Hp Hm Hi. rewrite Z.lor_spec, !Z.land_spec, wnot_testbit by done.
  destruct (Z.testbit m i).
  - by rewrite !andb_false_r, andb_true_r.
  - rewrite andb_false_r, orb_false_r. destruct (Z.ltb_spec i 64); [by rewrite andb_true_r|].
    by rewrite (testbit_above p 64) by (unfold is_usize in Hp; lia).
Qed.

Lemma masked_store_usize p m v :
  is_usize p -> is_usize m -> is_usize (Z.lor (Z.land p (wnot m)) (Z.land v m)).
Proof. intros. apply lor_usize; [by apply land_usize|by apply land_usize_r]. Qed.

(** ** RISC-V meets the contract *)

Section Riscv.

(** Bit 9 is the one bit the kernel never sets; [pteflags] panics on it. *)
Definition rv_wf (p : Z) : Prop := is_usize p /\ Z.testbit p 9 = false.

Definition rv_view (p : Z) : pte_view :=
  mkView (rv_ppn p)
    (perm_of (Z.testbit p 1) (Z.testbit p 2) (Z.testbit p 3) (Z.testbit p 4))
    (Z.testbit p 0) (Z.testbit p 7) (Z.testbit p 8).

Lemma rv_ppn_field p : rv_ppn p = (p / 2 ^ 10) mod 2 ^ 44.
Proof.
  unfold rv_ppn. change (wshl 1 (@PPN_WIDTH riscv64) - 1) with (2 ^ 44 - 1).
  by rewrite land_ones_mod, Z.shiftr_div_pow2.
Qed.

Lemma rv_pteflags_wf p : rv_wf p -> rv_pteflags p = Ret (Z.land p rv_PTE_FLAGS_MASK).
Proof.
  intros [_ H9]. unfold rv_pteflags, from_bits.
  assert (E : Z.ldiff (Z.land p rv_PTE_FLAGS_MASK) rv_PTE_ALL = 0).
  { replace (Z.ldiff _ _) with (Z.land p (2 ^ 9)).
    - by rewrite land_pow2, H9.
    - rewrite Z.ldiff_land, <- Z.land_assoc. by f_equal. }
  by rewrite E.
Qed.

Lemma rv_flag p k :
  rv_wf p -> 0 <= k <= 8 -> contains (Z.land p rv_PTE_FLAGS_MASK) (2 ^ k) = Z.testbit p k.
Proof.
  intros _ Hk. rewrite flag_bit by lia. unfold rv_PTE_FLAGS_MASK.
  change 0x3FF with (Z.ones 10). rewrite Z.ones_spec_low by lia. apply andb_true_r.
Qed.

Lemma rv_flags_val p :
  rv_wf p ->
  rv_flags p = Ret (perm_of (Z.testbit p 1) (Z.testbit p 2) (Z.testbit p 3) (Z.testbit p 4)).
Proof.
  intros Hp. unfold rv_flags. rewrite rv_pteflags_wf by done. cbn [obind].
  unfold rv_PTE_U, rv_PTE_R, rv_PTE_W, rv_PTE_X. rewrite !rv_flag by (done || lia).
  by destruct (Z.testbit p 1), (Z.testbit p 2), (Z.testbit p 3), (Z.testbit p 4).
Qed.

Lemma rv_is_leaf_val p :
  rv_wf p ->
  rv_is_leaf p = Ret (Z.testbit p 0 && (Z.testbit p 1 || Z.testbit p 2 || Z.testbit p 3)).
Proof.
  intros Hp. unfold rv_is_leaf. rewrite rv_pteflags_wf by done. cbn [obind].
  unfold rv_PTE_V, rv_PTE_R, rv_PTE_W, rv_PTE_X. by rewrite !rv_flag by (done || lia).
Qed.

(** Clearing or setting one flag bit changes that bit and no other. *)
Lemma set_bit_testbit p k (b : bool) i :
  is_usize p -> 0 <= k < 64 -> 0 <= i ->
  Z.testbit (if b then Z.lor p (2 ^ k) else Z.land p (wnot (2 ^ k))) i =
    if i =? k then b else Z.testbit p i.
Proof.
  intros Hp Hk Hi. destruct b.
  - rewrite Z.lor_spec, Z.pow2_bits_eqb by lia. zcmp; subst; zbool.
  - rewrite Z.land_spec, wnot_testbit, Z.pow2_bits_eqb by (try apply pow2_usize; lia).
    rewrite (Z.eqb_sym k i). destruct (Z.eqb_spec i k); [by rewrite !andb_false_r|].
    destruct (Z.ltb_spec i 64); [by rewrite andb_true_r|].
    by rewrite (testbit_above p 64) by (unfold is_usize in Hp; lia).
Qed.

Lemma set_bit_usize p k (b : bool) :
  is_usize p -> 0 <= k < 64 -> is_usize (if b then Z.lor p (2 ^ k) else Z.land p (wnot (2 ^ k))).
Proof.
  intros. destruct b; [apply lor_usize; [done|by apply pow2_usize]|by apply land_usize].
Qed.

Lemma rv_set_bit p k (b : bool) :
  rv_wf p -> 0 <= k <= 8 ->
  let q := if b then Z.lor p (2 ^ k) else Z.land p (wnot (2 ^ k)) in
  rv_wf q /\ rv_ppn q = rv_ppn p /\
  (forall i, 0 <= i -> Z.testbit q i = if i =? k then b else Z.testbit p i).
Proof.
  intros [Hu H9] Hk q.
  assert (Hb : forall i, 0 <= i -> Z.testbit q i = if i =? k then b else Z.testbit p i)
    by (intros; apply set_bit_testbit; (done || lia)).
  split; [|split; [|done]].
  - split; [apply set_bit_usize; (done || lia)|]. rewrite Hb by lia. by zcmp.
  - rewrite !rv_ppn_field. apply field_ext; try lia. intros i Hi.
    rewrite Hb by lia. by zcmp.
Qed.

Lemma rv_set_bit_view p k (b : bool) :
  rv_wf p -> 0 <= k <= 8 ->
  let q := if b then Z.lor p (2 ^ k) else Z.land p (wnot (2 ^ k)) in
  let at_ i := if i =? k then b else Z.testbit p i in
  rv_wf q /\
  rv_view q = mkView (rv_ppn p) (perm_of (at_ 1) (at_ 2) (at_ 3) (at_ 4)) (at_ 0) (at_ 7) (at_ 8).
Proof.
  intros Hp Hk q. destruct (rv_set_bit p k b Hp Hk) as (Hw & Hpp & Hb).
  split; [done|]. unfold rv_view. unfold q. by rewrite Hpp, !Hb by lia.
Qed.

Lemma rv_flags_mask_low i : 5 <= i -> Z.testbit rv_FLAGS_MASK i = false.
Proof. intros. apply (testbit_above _ 5); [by vm_compute|done]. Qed.

Lemma rv_from_low perm i : is_perm perm -> 5 <= i -> Z.testbit (rv_PTEFlags_from perm) i = false.
Proof.
  intros Hf Hi. apply (testbit_above _ 5); [|done]. perm_cases perm Hf; by vm_compute.
Qed.

Lemma rv_ppn_mask_bits i : 0 <= i -> Z.testbit rv_PPN_MASK i = (10 <=? i) && (i <? 54).
Proof.
  intros Hi. change rv_PPN_MASK with (Z.shiftl (Z.ones 44) 10).
  rewrite Z.shiftl_spec by done. destruct (decide (i < 10)).
  { rewrite Z.testbit_neg_r by lia. by zcmp. }
  destruct (decide (i < 54)).
  - rewrite Z.ones_spec_low by lia. by zcmp.
  - rewrite Z.ones_spec_high by lia. by zcmp.
Qed.

(** Every bit of a freshly made entry. *)
Lemma rv_new_bits n f i :
  is_ppn riscv64 n -> is_perm f -> 0 <= i ->
  Z.testbit (rv_new n f) i =
    if i <? 10 then Z.testbit (rv_PTEFlags_from f) i else Z.testbit n (i - 10).
Proof.
  intros Hn Hf Hi. change (is_ppn riscv64 n) with (0 <= n < 2 ^ 44) in Hn.
  unfold rv_new, wshl. autorewrite with zbit.
  destruct (Z.ltb_spec i 10).
  - by rewrite (Z.testbit_neg_r n), andb_false_r by lia.
  - rewrite rv_from_low, orb_false_r by (done || lia).
    destruct (Z.ltb_spec i 64); [done|].
    by rewrite (testbit_above n 44) by lia.
Qed.

Lemma rv_new_usize n f : is_ppn riscv64 n -> is_perm f -> is_usize (rv_new n f).
Proof.
  intros Hn Hf. unfold rv_new, wshl. apply lor_usize; [apply wrap_bounds|].
  perm_cases f Hf; by vm_compute.
Qed.

Lemma rv_set_flags_bits p f i :
  is_usize p -> is_perm f -> 0 <= i ->
  Z.testbit (rv_set_flags p f) i =
    if Z.testbit rv_FLAGS_MASK i then Z.testbit (rv_PTEFlags_from f) i else Z.testbit p i.
Proof. intros. by apply masked_store_bits. Qed.

Lemma rv_set_ppn_bits p n i :
  is_usize p -> is_ppn riscv64 n -> 0 <= i ->
  Z.testbit (rv_set_ppn p n) i =
    if (10 <=? i) && (i <? 54) then Z.testbit n (i - 10) else Z.testbit p i.
Proof.
  intros Hp Hn Hi. unfold rv_set_ppn. cbv zeta.
  rewrite masked_store_bits, rv_ppn_mask_bits by (done || by vm_compute).
  unfold wshl. autorewrite with zbit. case_if; [|done]. bool_to_prop. by zcmp.
Qed.

#[export] Instance rv_laws : PteLaws riscv64 rv_pte.
Proof.
  refine {| pte_wf := rv_wf; pte_view_of := rv_view |};
    cbn [pte_new pte_flags pte_set_flags pte_ppn pte_set_ppn pte_is_valid pte_set_valid
         pte_is_cow pte_set_cow pte_is_dirty pte_set_dirty rv_pte].
  - intros p Hp. by apply rv_flags_val.
  - intros p Hp. apply perm_of_is_perm.
  - done.
  - intros p Hp. unfold rv_is_valid. rewrite rv_pteflags_wf by done. cbn [obind].
    f_equal. by apply (rv_flag p 0).
  - intros p Hp. unfold rv_is_dirty. rewrite rv_pteflags_wf by done. cbn [obind].
    f_equal. by apply (rv_flag p 7).
  - intros p Hp. unfold rv_is_cow. rewrite rv_pteflags_wf by done. cbn [obind].
    f_equal. by apply (rv_flag p 8).
  - intros n f Hn Hf.
    assert (Hb := fun i => rv_new_bits n f i Hn Hf).
    split; [split; [by apply rv_new_usize|]|].
    + rewrite Hb by lia. perm_cases f Hf; reflexivity.
    + unfold rv_view. rewrite rv_ppn_field, (field_read _ n 10 44), !Hb by
        (try lia; try done; intros i Hi; rewrite Hb by lia; by zcmp).
      perm_cases f Hf; reflexivity.
  - intros p f [Hu H9] Hf.
    assert (Hb := fun i => rv_set_flags_bits p f i Hu Hf).
    split; [split|].
    + apply masked_store_usize; [done|by vm_compute].
    + by rewrite Hb, H9 by lia.
    + unfold rv_view. rewrite !rv_ppn_field, (field_ext _ p 10 44), !Hb by
        (try lia; intros i Hi; rewrite Hb by lia; by rewrite rv_flags_mask_low by lia).
      perm_cases f Hf; reflexivity.
  - intros p n [Hu H9] Hn.
    assert (Hb := fun i => rv_set_ppn_bits p n i Hu Hn).
    split; [split|].
    + apply masked_store_usize; [done|by vm_compute].
    + by rewrite Hb by lia.
    + unfold rv_view. rewrite rv_ppn_field, (field_read _ n 10 44), !Hb by
        (try lia; try done; intros i Hi; rewrite Hb by lia; by zcmp). done.
  - intros p b Hp. apply (rv_set_bit_view p 0 b Hp). lia.
  - intros p b Hp. apply (rv_set_bit_view p 7 b Hp). lia.
  - intros p b Hp. apply (rv_set_bit_view p 8 b Hp). lia.
Defined.

End Riscv.

(** ** LoongArch meets the contract *)

Section Loongarch.

(** Bits 10 and 11 are inside [PTE_FLAGS_MASK] but name no flag. *)
Definition la_wf (p : Z) : Prop :=
  is_usize p /\ Z.testbit p 10 = false /\ Z.testbit p 11 = false.

Definition la_view (p : Z) : pte_view :=
  mkView (la_ppn p)
    (perm_of (negb (Z.testbit p 61)) (Z.testbit p 8) (negb (Z.testbit p 62))
       (Z.testbit p 3 && Z.testbit p 2))
    (Z.testbit p 0) (Z.testbit p 1) (Z.testbit p 9).

Lemma la_ppn_mask_bits i : 0 <= i -> Z.testbit la_PPN_MASK i = (12 <=? i) && (i <? 61).
Proof.
  intros Hi. change la_PPN_MASK with (Z.shiftl (Z.ones 49) 12).
  rewrite Z.shiftl_spec by done. destruct (decide (i < 12)).
  { rewrite Z.testbit_neg_r by lia. by zcmp. }
  destruct (decide (i < 61)).
  - rewrite Z.ones_spec_low by lia. by zcmp.
  - rewrite Z.ones_spec_high by lia. by zcmp.
Qed.

Lemma la_ppn_field p : la_ppn p = (p / 2 ^ 12) mod 2 ^ 49.
Proof.
  unfold la_ppn. rewrite Z.shiftr_land, Z.shiftr_div_pow2 by lia.
  change (Z.shiftr la_PPN_MASK 12) with (2 ^ 49 - 1). by rewrite land_ones_mod.
Qed.

Lemma la_pteflags_wf p : la_wf p -> la_pteflags p = Ret (Z.land p la_PTE_FLAGS_MASK).
Proof.
  intros (_ & H10 & H11). unfold la_pteflags, from_bits.
  assert (E : Z.ldiff (Z.land p la_PTE_FLAGS_MASK) la_PTE_ALL = 0).
  { replace (Z.ldiff _ _) with (Z.lor (Z.land p (2 ^ 10)) (Z.land p (2 ^ 11))).
    - by rewrite !land_pow2, H10, H11.
    - rewrite Z.ldiff_land, <- Z.land_assoc, <- Z.land_lor_distr_r. by f_equal. }
  by rewrite E.
Qed.

Lemma la_flags_val p : la_wf p -> la_flags p = Ret (v_perm (la_view p)).
Proof.
  intros Hp. unfold la_flags. rewrite la_pteflags_wf by done. cbn [obind].
  unfold la_PTE_PLV_H, la_PTE_PLV_L, la_PTE_NR, la_PTE_W, la_PTE_NX, la_view.
  rewrite !flag_bit by lia. cbit. cbn [v_perm].
  by destruct (Z.testbit p 2), (Z.testbit p 3), (Z.testbit p 8), (Z.testbit p 61), (Z.testbit p 62).
Qed.

Lemma la_set_bit_view p k (b : bool) :
  la_wf p -> 0 <= k <= 9 ->
  let q := if b then Z.lor p (2 ^ k) else Z.land p (wnot (2 ^ k)) in
  let at_ i := if i =? k then b else Z.testbit p i in
  la_wf q /\
  la_view q = mkView (la_ppn p)
    (perm_of (negb (at_ 61)) (at_ 8) (negb (at_ 62)) (at_ 3 && at_ 2)) (at_ 0) (at_ 1) (at_ 9).
Proof.
  intros (Hu & H10 & H11) Hk q at_.
  assert (Hb : forall i, 0 <= i -> Z.testbit q i = at_ i)
    by (intros; apply set_bit_testbit; (done || lia)).
  split; [split; [apply set_bit_usize; (done || lia)|]|].
  - rewrite !Hb by lia. unfold at_. by zcmp.
  - unfold la_view. rewrite !Hb, !la_ppn_field, (field_ext q p 12 49) by
      (try lia; intros i Hi; rewrite Hb by lia; unfold at_; by zcmp). done.
Qed.

(** The flag word of a permission set touches only the mask. *)
Lemma la_from_mask f i :
  is_perm f -> 0 <= i -> Z.testbit la_FLAGS_MASK i = false -> Z.testbit (la_PTEFlags_from f) i = false.
Proof.
  intros Hf Hi Hm. rewrite <- (Z.bits_0 i).
  replace 0 with (Z.ldiff (la_PTEFlags_from f) la_FLAGS_MASK) by (perm_cases f Hf; by vm_compute).
  by rewrite Z.ldiff_spec, Hm, andb_true_r.
Qed.

Lemma la_flags_mask_mid i : 9 <= i < 61 -> Z.testbit la_FLAGS_MASK i = false.
Proof.
  intros. change la_FLAGS_MASK with (Z.lor (Z.shiftl 3 61) 0x10C).
  rewrite Z.lor_spec, Z.shiftl_spec, (Z.testbit_neg_r 3), (testbit_above _ 9 i) by
    (first [by vm_compute | lia]). done.
Qed.

Lemma la_new_bits n f i :
  is_ppn loongarch64 n -> is_perm f -> 0 <= i ->
  Z.testbit (la_new n f) i =
    if (12 <=? i) && (i <? 61) then Z.testbit n (i - 12) else Z.testbit (la_PTEFlags_from f) i.
Proof.
  intros Hn Hf Hi. change (is_ppn loongarch64 n) with (0 <= n < 2 ^ 36) in Hn.
  unfold la_new, wshl. change (@PAGE_SIZE_BITS loongarch64) with 12. autorewrite with zbit.
  destruct (Z.leb_spec 12 i), (Z.ltb_spec i 61); cbn [andb].
  - rewrite la_from_mask by (done || lia || apply la_flags_mask_mid; lia). zcmp.
    by rewrite orb_false_r.
  - rewrite (testbit_above n 36), andb_false_r by lia. done.
  - by rewrite (Z.testbit_neg_r n), andb_false_r by lia.
  - lia.
Qed.

Lemma la_set_flags_bits p f i :
  is_usize p -> is_perm f -> 0 <= i ->
  Z.testbit (la_set_flags p f) i =
    if Z.testbit la_FLAGS_MASK i then Z.testbit (la_PTEFlags_from f) i else Z.testbit p i.
Proof. intros. by apply masked_store_bits. Qed.

Lemma la_set_ppn_bits p n i :
  is_usize p -> is_ppn loongarch64 n -> 0 <= i ->
  Z.testbit (la_set_ppn p n) i =
    if (12 <=? i) && (i <? 61) then Z.testbit n (i - 12) else Z.testbit p i.
Proof.
  intros Hp Hn Hi. unfold la_set_ppn. cbv zeta.
  rewrite masked_store_bits, la_ppn_mask_bits by (done || by vm_compute).
  unfold wshl. autorewrite with zbit. case_if; [|done]. bool_to_prop. by zcmp.
Qed.

#[export] Instance la_laws : PteLaws loongarch64 la_pte.
Proof.
  refine {| pte_wf := la_wf; pte_view_of := la_view |};
    cbn [pte_new pte_flags pte_set_flags pte_ppn pte_set_ppn pte_is_valid pte_set_valid
         pte_is_cow pte_set_cow pte_is_dirty pte_set_dirty la_pte].
  - apply la_flags_val.
  - intros p Hp. apply perm_of_is_perm.
  - done.
  - intros p Hp. unfold la_is_valid, la_PTE_V. rewrite la_pteflags_wf by done. cbn [obind].
    rewrite flag_bit by lia. by cbit.
  - intros p Hp. unfold la_is_dirty, la_PTE_D. rewrite la_pteflags_wf by done. cbn [obind].
    rewrite flag_bit by lia. by cbit.
  - intros p Hp. unfold la_is_cow, la_PTE_C. rewrite la_pteflags_wf by done. cbn [obind].
    rewrite flag_bit by lia. by cbit.
  - intros n f Hn Hf.
    assert (Hb := fun i => la_new_bits n f i Hn Hf).
    split; [split|].
    + unfold la_new, wshl. apply lor_usize; [apply wrap_bounds|].
      perm_cases f Hf; by vm_compute.
    + rewrite !Hb by lia. perm_cases f Hf; by split.
    + change (is_ppn loongarch64 n) with (0 <= n < 2 ^ 36) in Hn.
      unfold la_view. rewrite la_ppn_field, (field_read _ n 12 49), !Hb by
        (try lia; try done; intros i Hi; rewrite Hb by lia; by zcmp).
      perm_cases f Hf; reflexivity.
  - intros p f (Hu & H10 & H11) Hf.
    assert (Hb := fun i => la_set_flags_bits p f i Hu Hf).
    split; [split|].
    + apply masked_store_usize; [done|by vm_compute].
    + by rewrite !Hb, H10, H11 by lia.
    + unfold la_view. rewrite !la_ppn_field, (field_ext _ p 12 49), !Hb by
        (try lia; intros i Hi; rewrite Hb by lia; by rewrite la_flags_mask_mid by lia).
      perm_cases f Hf; reflexivity.
  - intros p n (Hu & H10 & H11) Hn.
    assert (Hb := fun i => la_set_ppn_bits p n i Hu Hn).
    change (is_ppn loongarch64 n) with (0 <= n < 2 ^ 36) in Hn.
    split; [split|].
    + apply masked_store_usize; [done|by vm_compute].
    + by rewrite !Hb by lia.
    + unfold la_view. rewrite la_ppn_field, (field_read _ n 12 49), !Hb by
        (try lia; try done; intros i Hi; rewrite Hb by lia; by zcmp). done.
  - intros p b Hp. apply (la_set_bit_view p 0 b Hp). lia.
  - intros p b Hp. apply (la_set_bit_view p 1 b Hp). lia.
  - intros p b Hp. apply (la_set_bit_view p 9 b Hp). lia.
Defined.

End Loongarch.

(** ** What the page-table code gets from the contract *)

Section Contract.
Context {C : ConstantsHal} {P : PageTableEntryHal} {L : PteLaws C P}.

Lemma is_perm_bits f : is_perm f <-> 0 <= f /\ forall i, 4 <= i -> Z.testbit f i = false.
Proof.
  unfold is_perm. split.
  - intros Hf. split; [lia|]. intros. apply (testbit_above _ 4); lia.
  - intros [Hf Hb]. split; [done|]. by apply (below_pow2_of_testbit f 4).
Qed.

Lemma perm_put f k (b : bool) :
  is_perm f -> 0 <= k < 4 ->
  let g := if b then bf_insert f (2 ^ k) else bf_remove f (2 ^ k) in
  is_perm g /\ forall i, 0 <= i -> contains g (2 ^ i) = if i =? k then b else contains f (2 ^ i).
Proof.
  intros Hp Hk g. apply is_perm_bits in Hp as [Hf Hb]. rewrite is_perm_bits.
  assert (Hg : forall i, 0 <= i -> Z.testbit g i = if i =? k then b else Z.testbit f i).
  { intros i Hi. unfold g, bf_insert, bf_remove. rewrite (Z.eqb_sym i k).
    destruct b; autorewrite with zbit; destruct (Z.eqb_spec k i);
      rewrite ?orb_true_r, ?orb_false_r, ?andb_false_r, ?andb_true_r; done. }
  split; [split|].
  - unfold g, bf_insert, bf_remove. destruct b.
    + apply Z.lor_nonneg. pose proof (Z.pow_nonneg 2 k). lia.
    + apply Z.ldiff_nonneg. lia.
  - intros i Hi. rewrite Hg by lia. zcmp. by apply Hb.
  - intros i Hi. by rewrite !contains_pow2, Hg by done.
Qed.


(** The provided setters ([set_readable], [set_writable], [set_executable],
    [set_user]) change one permission of an entry and leave its frame, its other
    permissions and its valid, dirty and copy-on-write flags alone. *)
Theorem pte_put_frame p k b :
  pte_wf p -> 0 <= k < 4 ->
  exists q, pte_put (2 ^ k) p b = Ret q /\ pte_wf q /\
    (forall i, 0 <= i -> pte_has (2 ^ i) q = if i =? k then Ret b else pte_has (2 ^ i) p) /\
    pte_ppn q = pte_ppn p /\ pte_is_valid q = pte_is_valid p /\
    pte_is_dirty q = pte_is_dirty p /\ pte_is_cow q = pte_is_cow p.
Proof.
  intros Hp Hk. pose proof (pte_perm_view p Hp) as Hf.
  destruct (perm_put _ k b Hf Hk) as [Hg Hb].
  destruct (pte_set_flags_view p _ Hp Hg) as [Wq Vq].
  eexists. unfold pte_put. rewrite (pte_flags_view p Hp). cbn [obind]. split; [done|].
  split; [done|]. split.
  - intros i Hi. unfold pte_has. rewrite !pte_flags_view by done. cbn [obind].
    rewrite Vq. cbn [v_perm]. rewrite Hb by done. by destruct (i =? k).
  - by rewrite !pte_ppn_view, !pte_valid_view, !pte_dirty_view, !pte_cow_view, Vq by done.
Qed.

End Contract.


Lemma pte_put_frame_witness :
  exists q, @pte_set_writable rv_pte 0x200800D7 false = Ret q /\ q = 0x200800D3.
Proof.
  destruct (pte_put_frame (L := rv_laws) 0x200800D7 1 false) as (q & E & _);
    [by vm_compute|lia|].
  exists q. split; [exact E|]. vm_compute in E. by inversion E.
Defined.
