(* ===== verification/FrameAlloc.v ===== *)
(** Physical frames: the allocator interface of the HAL
    (hal/src/interface/allocator.rs), the frame tracker that frees on drop
    (hal/src/component/common.rs), and the kernel's bitmap allocator
    (os/src/mm/allocator/frame_allocator.rs, mod.rs).  The third-party bitmap
    crate is a parameter with its documented behaviour. *)

From S2P Require Import Prelude HalConst Addr.

#[local] Open Scope Z_scope.

(** ** Power-of-two helpers of os/src/mm/allocator/mod.rs *)

Definition next_power_of_two (x : Z) : Z :=
  if x =? 0 then 1
  else
    let x := wsub x 1 in
    let x := Z.lor x (Z.shiftr x 1) in
    let x := Z.lor x (Z.shiftr x 2) in
    let x := Z.lor x (Z.shiftr x 4) in
    let x := Z.lor x (Z.shiftr x 8) in
    let x := Z.lor x (Z.shiftr x 16) in
    let x := Z.lor x (Z.shiftr x 32) in
    wadd x 1.

(** [usize::leading_zeros]. *)
Definition leading_zeros (x : Z) : Z := if x =? 0 then 64 else 63 - Z.log2 x.

Definition log2 (x : Z) : Z := wsub (Z.shiftl 8 3 - 1) (leading_zeros x).

(** ** The HAL interface *)

Class FrameAllocatorHal (S : Type) := {
  fa_alloc_with_align : S -> Z -> Z -> option (Range * S);
  fa_dealloc : S -> Range -> outcome S;
}.

Section Hal.
Context {S : Type} `{!FrameAllocatorHal S}.

Definition fa_alloc (s : S) (cnt : Z) : option (Range * S) := fa_alloc_with_align s cnt 0.

(** A tracker is the range it owns; its allocator handle is a unit struct. *)
Definition FrameTracker_new_in (range_ppn : Range) : Range := range_ppn.

(** [leak] hands the range out and forgets the tracker, so nothing is freed. *)
Definition FrameTracker_leak (t : Range) : Range := t.

Definition FrameTracker_drop (s : S) (t : Range) : outcome S := fa_dealloc s t.

Definition alloc_tracker (s : S) (cnt : Z) : option (Range * S) :=
  match fa_alloc_with_align s cnt 0 with
  | Some (range_ppn, s') => Some (FrameTracker_new_in range_ppn, s')
  | None => None
  end.

End Hal.

(** The frames of a range. *)
Definition frames_of (r : Range) : gset Z := list_to_set (seqZ (r_start r) (r_end r - r_start r)).

(** What the page-table and memory code relies on: a set of free frames that an
    allocation shrinks by exactly the range it returns. *)
Class FrameAllocatorLaws (C : ConstantsHal) (S : Type) `{FrameAllocatorHal S} := {
  fa_wf : S -> Prop;
  fa_free : S -> gset Z;
  fa_managed : S -> gset Z;
  fa_alloc_law s cnt al r s' :
    fa_wf s -> 0 <= cnt -> 0 <= al -> fa_alloc_with_align s cnt al = Some (r, s') ->
    fa_wf s' /\ 0 < cnt /\ r_end r = r_start r + cnt /\ frames_of r ⊆ fa_free s /\
    fa_free s' = fa_free s ∖ frames_of r /\ fa_managed s' = fa_managed s;
  fa_alloc_one s :
    fa_wf s -> fa_free s <> ∅ -> exists r s', fa_alloc_with_align s 1 0 = Some (r, s');
  fa_dealloc_law s r :
    fa_wf s -> frames_of r ⊆ fa_managed s -> frames_of r ## fa_free s ->
    exists s', fa_dealloc s r = Ret s' /\ fa_wf s' /\ fa_free s' = fa_free s ∪ frames_of r /\
      fa_managed s' = fa_managed s;
  fa_free_managed s : fa_wf s -> fa_free s ⊆ fa_managed s;
  fa_managed_ppn s f : fa_wf s -> f ∈ fa_managed s -> 0 < f < 2 ^ PPN_WIDTH;
}.

(** ** The [bitmap_allocator] crate *)

Class BitAlloc := {
  ba : Type;
  ba_default : ba;
  ba_insert : ba -> Range -> ba;
  ba_alloc_contiguous : ba -> option Z -> Z -> Z -> option (Z * ba);
  ba_dealloc_contiguous : ba -> Z -> Z -> bool * ba;
}.

(** Its documented behaviour: a set of free bits below the capacity; an
    allocation takes free bits only, and a deallocation reports whether all of
    its bits were taken. *)
Definition BITALLOC16M_CAP : Z := 2 ^ 24.

Class BitAllocLaws (B : BitAlloc) := {
  ba_free : ba -> gset Z;
  ba_default_free : ba_free ba_default = ∅;
  ba_insert_free b r :
    0 <= r_start r -> r_end r <= BITALLOC16M_CAP ->
    ba_free (ba_insert b r) = ba_free b ∪ frames_of r;
  ba_alloc_some b n al k b' :
    0 < n -> ba_alloc_contiguous b None n al = Some (k, b') ->
    let r := mkRange k (k + n) in
    (2 ^ al | k) /\ frames_of r ⊆ ba_free b /\ ba_free b' = ba_free b ∖ frames_of r;
  ba_alloc_none b n al :
    0 < n -> ba_alloc_contiguous b None n al = None ->
    forall k, (2 ^ al | k) -> ~ frames_of (mkRange k (k + n)) ⊆ ba_free b;
  ba_dealloc_taken b k n :
    0 <= k -> 0 < n -> k + n <= BITALLOC16M_CAP ->
    frames_of (mkRange k (k + n)) ## ba_free b ->
    exists b', ba_dealloc_contiguous b k n = (true, b') /\
      ba_free b' = ba_free b ∪ frames_of (mkRange k (k + n));
  ba_dealloc_free b k n :
    0 <= k -> 0 < n -> k + n <= BITALLOC16M_CAP ->
    ~ frames_of (mkRange k (k + n)) ## ba_free b ->
    (ba_dealloc_contiguous b k n).1 = false;
}.

(** ** [BitMapFrameAllocator] *)

Section BitMap.
Context {C : ConstantsHal} {B : BitAlloc}.

Record BitMapFrameAllocator := mkBM {
  bm_range : Range;
  bm_align_log2 : Z;
  bm_inner : ba;
  bm_last : Z;
}.

Definition bm_DEFAULT : BitMapFrameAllocator := mkBM (mkRange 0 0) 8 ba_default 0.

Definition bm_init (s : BitMapFrameAllocator) (range_pa : Range) : BitMapFrameAllocator :=
  let start := PhysAddr_floor (r_start range_pa) in
  let aligned_start := Z.land start (wnot (wshl 1 (bm_align_log2 s) - 1)) in
  let aligned := mkRange (PhysPageNum_from aligned_start) (PhysAddr_floor (r_end range_pa)) in
  let beg := wsub start (r_start aligned) in
  let end_ := wsub (r_end aligned) (r_start aligned) in
  mkBM aligned (bm_align_log2 s) (ba_insert (bm_inner s) (mkRange beg end_)) (wsub end_ beg).

Definition bm_alloc_contiguous (s : BitMapFrameAllocator) (size align_log2 : Z) :
    option (Range * BitMapFrameAllocator) :=
  match ba_alloc_contiguous (bm_inner s) None size align_log2 with
  | None => None
  | Some (start, inner) =>
      let last := wsub (bm_last s) size in
      let start := wadd start (r_start (bm_range s)) in
      Some (mkRange start (wadd start size), mkBM (bm_range s) (bm_align_log2 s) inner last)
  end.

(** [Range::count]. *)
Definition range_count (r : Range) : Z := Z.max 0 (r_end r - r_start r).

Definition bm_dealloc_contiguous (s : BitMapFrameAllocator) (range_ppn : Range) :
    outcome BitMapFrameAllocator :=
  let size := range_count range_ppn in
  if size =? 0 then Ret s
  else
    let start := wsub (r_start range_ppn) (r_start (bm_range s)) in
    let '(ok, inner) := ba_dealloc_contiguous (bm_inner s) start size in
    assert! ok in
    Ret (mkBM (bm_range s) (bm_align_log2 s) inner (wadd (bm_last s) size)).

Definition FrameAllocator_alloc_with_align (s : BitMapFrameAllocator) (cnt align_log2 : Z) :
    option (Range * BitMapFrameAllocator) :=
  if cnt =? 0 then None else bm_alloc_contiguous s cnt align_log2.

Definition FrameAllocator_dealloc (s : BitMapFrameAllocator) (range_ppn : Range) :
    outcome BitMapFrameAllocator := bm_dealloc_contiguous s range_ppn.

#[export] Instance FrameAllocator_hal : FrameAllocatorHal BitMapFrameAllocator := {|
  fa_alloc_with_align := FrameAllocator_alloc_with_align;
  fa_dealloc := FrameAllocator_dealloc |}.

(** [core::alloc::Layout]. *)
Record Layout := mkLayout { l_size : Z; l_align : Z }.

Definition pages_of (n : Z) : Z := wadd (wsub n 1) PAGE_SIZE / PAGE_SIZE.

(** [Allocator::allocate]: the returned pointer is into the direct map. *)
Definition FrameAllocator_allocate (s : BitMapFrameAllocator) (layout : Layout) :
    option (Z * BitMapFrameAllocator) :=
  let pg_cnt := pages_of (l_size layout) in
  let pg_align := pages_of (l_align layout) in
  match FrameAllocator_alloc_with_align s pg_cnt (log2 pg_align) with
  | None => None
  | Some (frame, s') => Some (PhysAddr_get_ptr (PhysPageNum_start_addr (r_start frame)), s')
  end.

Definition FrameAllocator_deallocate (s : BitMapFrameAllocator) (ptr : Z) (layout : Layout) :
    outcome BitMapFrameAllocator :=
  let pg_cnt := pages_of (l_size layout) in
  let start_ppn := PhysAddr_floor (Z.land ptr (wnot (r_start KERNEL_ADDR_SPACE))) in
  FrameAllocator_dealloc s (mkRange start_ppn (PhysPageNum_add start_ppn pg_cnt)).

Definition init_frame_allocator (ekernel : Z) : BitMapFrameAllocator :=
  bm_init bm_DEFAULT
    (mkRange (PhysAddr_from (Z.land ekernel (wnot (r_start KERNEL_ADDR_SPACE))))
       (PhysAddr_from MEMORY_END)).

Definition frames_alloc (s : BitMapFrameAllocator) (size : Z) :
    option (Range * BitMapFrameAllocator) :=
  match fa_alloc s size with
  | Some (ppn, s') => Some (FrameTracker_new_in ppn, s')
  | None => None
  end.

Definition frames_dealloc (s : BitMapFrameAllocator) (range_ppn : Range) :
    outcome BitMapFrameAllocator :=
  if 0 <? range_count range_ppn then FrameAllocator_dealloc s range_ppn else Ret s.

End BitMap.

(** ** [next_power_of_two] *)

Section Pow2.

(** [smeared l n y]: the top [n] bits of a number of [l + 1] bits are set. *)
Definition smeared (l n y : Z) : Prop :=
  (forall i, l < i -> Z.testbit y i = false) /\
  (forall i, 0 <= i -> l - n < i <= l -> Z.testbit y i = true).

Lemma smear_step l n m y :
  0 <= n -> m = 2 * n -> smeared l n y -> smeared l m (Z.lor y (Z.shiftr y n)).
Proof.
  intros Hn -> [Hhi Hlo]. split.
  - intros i Hi. destruct (decide (0 <= i)); [|by apply Z.testbit_neg_r; lia].
    by rewrite Z.lor_spec, Z.shiftr_spec, !Hhi by lia.
  - intros i Hi0 Hi. rewrite Z.lor_spec, Z.shiftr_spec by done.
    destruct (decide (l - n < i)); [by rewrite Hlo by lia|].
    by rewrite (Hlo (i + n)), orb_true_r by lia.
Qed.

Lemma smeared_start y : 0 < y -> smeared (Z.log2 y) 1 y.
Proof.
  intros Hy. split.
  - intros i Hi. apply Z.bits_above_log2; lia.
  - intros i _ Hi. replace i with (Z.log2 y) by lia. by apply Z.bit_log2.
Qed.

Lemma smeared_all l n y : 0 <= l < n -> smeared l n y -> y = 2 ^ (l + 1) - 1.
Proof.
  intros Hl [Hhi Hlo]. rewrite Z.sub_1_r, <- Z.ones_equiv. apply Z.bits_inj'. intros i Hi.
  destruct (decide (i <= l)).
  - by rewrite Hlo, Z.ones_spec_low by lia.
  - by rewrite Hhi, Z.ones_spec_high by lia.
Qed.

Lemma next_power_of_two_val x :
  1 <= x <= 2 ^ 63 -> next_power_of_two x = 2 ^ Z.log2_up x.
Proof.
  intros Hx. unfold next_power_of_two. destruct (Z.eqb_spec x 0); [lia|].
  rewrite wsub_small by (unfold is_usize; lia).
  destruct (decide (x = 1)) as [->|Hx1]; [by vm_compute|].
  assert (Hl : 0 <= Z.log2 (x - 1) < 64).
  { split; [apply Z.log2_nonneg|]. apply Z.log2_lt_pow2; lia. }
  assert (S0 : smeared (Z.log2 (x - 1)) 1 (x - 1)) by (apply smeared_start; lia).
  apply (smear_step _ 1 2) in S0; [|done..]. apply (smear_step _ 2 4) in S0; [|done..].
  apply (smear_step _ 4 8) in S0; [|done..]. apply (smear_step _ 8 16) in S0; [|done..].
  apply (smear_step _ 16 32) in S0; [|done..]. apply (smear_step _ 32 64) in S0; [|done..].
  apply smeared_all in S0; [|done]. cbv zeta. rewrite S0.
  replace (Z.log2 (x - 1) + 1) with (Z.log2_up x)
    by (rewrite Z.log2_up_eqn, <- Z.sub_1_r by lia; lia).
  assert (2 ^ Z.log2_up x <= 2 ^ 63).
  { apply Z.pow_le_mono_r; [lia|]. apply Z.log2_up_le_pow2; lia. }
  rewrite wadd_small; [lia|]. pose proof (Z.pow_pos_nonneg 2 (Z.log2_up x)).
  pose proof (Z.log2_up_nonneg x). unfold is_usize. lia.
Qed.

(** [next_power_of_two] returns a power of two that is at least its argument
    and less than twice it, and no smaller power of two would do; an argument
    of 0 gives 1. *)
Theorem next_power_of_two_least x :
  0 <= x <= 2 ^ 63 ->
  exists k, 0 <= k /\ next_power_of_two x = 2 ^ k /\ x <= 2 ^ k /\
    forall j, 0 <= j -> x <= 2 ^ j -> 2 ^ k <= 2 ^ j.
Proof.
  intros Hx. destruct (decide (x = 0)) as [->|].
  { exists 0. repeat split; try done. intros j Hj _. apply Z.pow_le_mono_r; lia. }
  exists (Z.log2_up x). pose proof (Z.log2_up_nonneg x).
  rewrite next_power_of_two_val by lia. repeat split; [done| |].
  - destruct (decide (x = 1)) as [->|]; [done|]. apply Z.log2_up_spec. lia.
  - intros j Hj Hxj. apply Z.pow_le_mono_r; [lia|]. apply Z.log2_up_le_pow2; lia.
Qed.

Lemma log2_pow2 k : 0 <= k < 64 -> log2 (2 ^ k) = k.
Proof.
  intros Hk. unfold log2, leading_zeros.
  destruct (Z.eqb_spec (2 ^ k) 0); [pose proof (Z.pow_pos_nonneg 2 k); lia|].
  rewrite Z.log2_pow2 by lia. change (Z.shiftl 8 3 - 1) with 63.
  rewrite wsub_small; unfold is_usize; lia.
Qed.

End Pow2.

Lemma next_power_of_two_least_witness : next_power_of_two 4097 = 8192 /\ 4097 <= 8192.
Proof.
  destruct (next_power_of_two_least 4097) as (k & _ & E & H & _); [lia|].
  split; [by vm_compute|]. assert (E' : next_power_of_two 4097 = 8192) by by vm_compute. lia.
Defined.

(** ** Frame sets *)

Section FrameSets.

Lemma elem_of_frames f r : f ∈ frames_of r <-> r_start r <= f < r_end r.
Proof. unfold frames_of. rewrite elem_of_list_to_set, elem_of_seqZ. lia. Qed.

Lemma size_frames r : r_start r <= r_end r -> Z.of_nat (size (frames_of r)) = r_end r - r_start r.
Proof.
  intros Hr. unfold frames_of. rewrite size_list_to_set by apply NoDup_seqZ.
  rewrite length_seqZ. lia.
Qed.

Lemma frames_empty r : r_end r <= r_start r -> frames_of r = ∅.
Proof.
  intros Hr. apply set_eq. intros f. rewrite elem_of_frames, elem_of_empty. lia.
Qed.

(** Frames at an offset, as the bitmap numbers them. *)
Definition shift_set (k : Z) (X : gset Z) : gset Z := set_map (Z.add k) X.

Lemma elem_of_shift f k X : f ∈ shift_set k X <-> f - k ∈ X.
Proof.
  unfold shift_set. rewrite elem_of_map. split.
  - intros (y & -> & Hy). by replace (k + y - k) with y by lia.
  - intros H. exists (f - k). split; [lia|done].
Qed.

Lemma shift_frames k a b : shift_set k (frames_of (mkRange a b)) = frames_of (mkRange (k + a) (k + b)).
Proof.
  apply set_eq. intros f. rewrite elem_of_shift, !elem_of_frames. cbn. lia.
Qed.

Lemma shift_difference k X Y : shift_set k (X ∖ Y) = shift_set k X ∖ shift_set k Y.
Proof. apply set_eq. intros f. rewrite elem_of_difference, !elem_of_shift. set_solver. Qed.

Lemma shift_union k X Y : shift_set k (X ∪ Y) = shift_set k X ∪ shift_set k Y.
Proof. apply set_eq. intros f. rewrite elem_of_union, !elem_of_shift. set_solver. Qed.

Lemma size_shift k X : size (shift_set k X) = size X.
Proof.
  unfold shift_set, set_map. rewrite size_list_to_set, length_fmap; [done|].
  apply NoDup_fmap_2; [intros x y; lia|apply NoDup_elements].
Qed.

Lemma shift_subseteq k X Y : X ⊆ Y -> shift_set k X ⊆ shift_set k Y.
Proof. intros H f. rewrite !elem_of_shift. apply H. Qed.

End FrameSets.

(** ** The bitmap allocator meets the interface *)

Section BitMapFacts.
Context {C : ConstantsHal} {CL : ConstantsLaws C} {B : BitAlloc} {BL : BitAllocLaws B}.

Definition bm_pages (s : BitMapFrameAllocator) : Z := r_end (bm_range s) - r_start (bm_range s).

Record bm_wf (s : BitMapFrameAllocator) : Prop := {
  wf_start : 0 < r_start (bm_range s) <= r_end (bm_range s);
  wf_end : r_end (bm_range s) < 2 ^ PPN_WIDTH;
  wf_cap : bm_pages s <= BITALLOC16M_CAP;
  wf_align : bm_align_log2 s = 8 /\ (2 ^ 8 | r_start (bm_range s));
  wf_free : ba_free (bm_inner s) ⊆ frames_of (mkRange 0 (bm_pages s));
  wf_last : bm_last s = Z.of_nat (size (ba_free (bm_inner s)));
}.

Definition bm_free (s : BitMapFrameAllocator) : gset Z :=
  shift_set (r_start (bm_range s)) (ba_free (bm_inner s)).

Lemma ppn_width_range : 0 < PPN_WIDTH < 64.
Proof. pose proof pa_width_bounds. unfold PPN_WIDTH. rewrite page_size_bits in *. lia. Qed.

Lemma ppn_usize f : 0 <= f < 2 ^ PPN_WIDTH -> is_usize f.
Proof.
  intros. unfold is_usize. pose proof ppn_width_range.
  pose proof (Z.pow_le_mono_r 2 PPN_WIDTH 64). lia.
Qed.

Lemma size_bm_free s : size (bm_free s) = size (ba_free (bm_inner s)).
Proof. apply size_shift. Qed.

(** Taking a set of bits keeps the invariant; the counter is exact. *)
Lemma bm_take_wf s b' X :
  bm_wf s -> X ⊆ ba_free (bm_inner s) -> ba_free b' = ba_free (bm_inner s) ∖ X ->
  bm_wf (mkBM (bm_range s) (bm_align_log2 s) b' (wsub (bm_last s) (Z.of_nat (size X)))).
Proof.
  intros Hs HX Hb. destruct Hs. constructor; cbn; try done.
  - rewrite Hb. set_solver.
  - assert (Hle : (size X <= size (ba_free (bm_inner s)))%nat) by by apply subseteq_size.
    assert (Hcap : (size (ba_free (bm_inner s)) <= size (frames_of (mkRange 0 (bm_pages s))))%nat)
      by by apply subseteq_size.
    assert (Hsz := size_frames (mkRange 0 (bm_pages s))). cbn in Hsz. unfold bm_pages in *.
    unfold BITALLOC16M_CAP in *.
    rewrite Hb, size_difference, wf_last0, wsub_small by (done || unfold is_usize; lia). lia.
Qed.

Lemma bm_give_wf s b' X :
  bm_wf s -> X ## ba_free (bm_inner s) -> X ⊆ frames_of (mkRange 0 (bm_pages s)) ->
  ba_free b' = ba_free (bm_inner s) ∪ X ->
  bm_wf (mkBM (bm_range s) (bm_align_log2 s) b' (wadd (bm_last s) (Z.of_nat (size X)))).
Proof.
  intros Hs HX Hsub Hb. destruct Hs.
  assert (Hall : ba_free b' ⊆ frames_of (mkRange 0 (bm_pages s))) by (rewrite Hb; set_solver).
  constructor; cbn; try done.
  assert (Hcap := subseteq_size _ _ Hall).
  assert (Hsz := size_frames (mkRange 0 (bm_pages s))). cbn in Hsz. unfold bm_pages in *.
  unfold BITALLOC16M_CAP in *.
  assert (E : size (ba_free b') = (size (ba_free (bm_inner s)) + size X)%nat)
    by (rewrite Hb; apply size_union; set_solver).
  rewrite E, wf_last0, wadd_small by (unfold is_usize; lia). lia.
Qed.

Lemma bm_alloc_spec s n al r s' :
  bm_wf s -> 0 < n -> bm_alloc_contiguous s n al = Some (r, s') ->
  bm_wf s' /\ bm_range s' = bm_range s /\ r_end r = r_start r + n /\
  frames_of r ⊆ bm_free s /\ bm_free s' = bm_free s ∖ frames_of r /\
  (2 ^ al | r_start r - r_start (bm_range s)).
Proof.
  intros Hs Hn. unfold bm_alloc_contiguous.
  destruct (ba_alloc_contiguous _ _ _ _) as [[k b']|] eqn:E; [|done]. intros [= <- <-].
  destruct (ba_alloc_some _ _ _ _ _ Hn E) as (Hal & Hsub & Hfree).
  pose proof (size_frames (mkRange k (k + n))) as Hsz. cbn in Hsz.
  assert (Hk : 0 <= k /\ k + n <= bm_pages s).
  { pose proof (wf_free s Hs) as Hf.
    assert (H0 : k ∈ frames_of (mkRange k (k + n))) by (rewrite elem_of_frames; cbn; lia).
    assert (H1 : k + n - 1 ∈ frames_of (mkRange k (k + n))) by (rewrite elem_of_frames; cbn; lia).
    apply Hsub, Hf, elem_of_frames in H0, H1. cbn in *. lia. }
  pose proof (wf_start s Hs). pose proof (wf_end s Hs).
  assert (is_usize (k + r_start (bm_range s) + n)) by (apply ppn_usize; unfold bm_pages in *; lia).
  rewrite !wadd_small by (rewrite ?wadd_small; unfold is_usize in *; lia). cbn.
  replace n with (Z.of_nat (size (frames_of (mkRange k (k + n))))) at 1 by lia.
  split; [by apply bm_take_wf|]. split; [done|]. split; [done|].
  replace (mkRange (k + _) (k + _ + n)) with
    (mkRange (r_start (bm_range s) + k) (r_start (bm_range s) + (k + n))) by (f_equal; lia).
  rewrite <- shift_frames. unfold bm_free. cbn. rewrite Hfree, shift_difference.
  split; [by apply shift_subseteq|]. split; [done|].
  by replace (k + r_start (bm_range s) - r_start (bm_range s)) with k by lia.
Qed.

Lemma bm_dealloc_spec s r :
  bm_wf s -> frames_of r ⊆ frames_of (bm_range s) -> frames_of r ## bm_free s ->
  exists s', bm_dealloc_contiguous s r = Ret s' /\ bm_wf s' /\ bm_range s' = bm_range s /\
    bm_free s' = bm_free s ∪ frames_of r.
Proof.
  intros Hs Hsub Hdis. unfold bm_dealloc_contiguous, range_count.
  destruct (Z.eqb_spec (Z.max 0 (r_end r - r_start r)) 0) as [|Hne].
  { exists s. by rewrite (frames_empty r), union_empty_r_L by lia. }
  assert (Hin : r_start (bm_range s) <= r_start r /\ r_end r <= r_end (bm_range s)).
  { assert (H0 : r_start r ∈ frames_of r) by (rewrite elem_of_frames; lia).
    assert (H1 : r_end r - 1 ∈ frames_of r) by (rewrite elem_of_frames; lia).
    apply Hsub, elem_of_frames in H0, H1. lia. }
  pose proof (wf_start s Hs). pose proof (wf_end s Hs). pose proof (wf_cap s Hs).
  assert (is_usize (r_end (bm_range s))) by (apply ppn_usize; lia).
  rewrite Z.max_r, wsub_small by (unfold is_usize in *; lia).
  set (k := r_start r - r_start (bm_range s)). set (n := r_end r - r_start r).
  assert (Er : frames_of r = shift_set (r_start (bm_range s)) (frames_of (mkRange k (k + n)))).
  { rewrite shift_frames. f_equal. destruct r as [rs re]. unfold k, n. cbn. f_equal; lia. }
  assert (Hd : frames_of (mkRange k (k + n)) ## ba_free (bm_inner s)).
  { intros x Hx Hy. apply (Hdis (r_start (bm_range s) + x)).
    - rewrite Er, elem_of_shift. by replace (_ + x - _) with x by lia.
    - unfold bm_free. rewrite elem_of_shift. by replace (_ + x - _) with x by lia. }
  unfold bm_pages in *.
  destruct (ba_dealloc_taken (bm_inner s) k n) as (b' & Ed & Hf'); [unfold k, n; lia..|done|].
  rewrite Ed. cbn [guard_panic]. eexists. split; [done|].
  pose proof (size_frames (mkRange k (k + n))) as Hsz. cbn in Hsz.
  replace n with (Z.of_nat (size (frames_of (mkRange k (k + n))))) at 1 by (unfold n in *; lia).
  split; [apply bm_give_wf; try done|].
  - intros x. rewrite !elem_of_frames. unfold bm_pages. cbn. unfold k, n. lia.
  - split; [done|]. unfold bm_free. cbn. by rewrite Hf', shift_union, <- Er.
Qed.

#[export] Instance FrameAllocator_laws : FrameAllocatorLaws C BitMapFrameAllocator.
Proof.
  refine {| fa_wf := bm_wf; fa_free := bm_free; fa_managed s := frames_of (bm_range s) |}; cbn.
  - intros s cnt al r s' Hs Hc Ha. unfold FrameAllocator_alloc_with_align.
    destruct (Z.eqb_spec cnt 0); [done|]. intros E.
    destruct (bm_alloc_spec s cnt al r s' Hs ltac:(lia) E) as (? & Er & ? & ? & ? & _).
    rewrite Er. split_and!; try done. lia.
  - intros s Hs Hne. unfold FrameAllocator_alloc_with_align, bm_alloc_contiguous. cbn.
    destruct (ba_alloc_contiguous (bm_inner s) None 1 0) as [[k b]|] eqn:E; [by do 2 eexists|].
    destruct Hne. apply set_eq. intros x. split; [|set_solver]. unfold bm_free.
    rewrite elem_of_shift. intros Hx. exfalso.
    apply (ba_alloc_none (bm_inner s) 1 0) with (x - r_start (bm_range s));
      [lia|done|by apply Z.divide_1_l|].
    intros y. rewrite elem_of_frames. cbn. intros Hy.
    by replace y with (x - r_start (bm_range s)) by lia.
  - intros s r Hs Hm Hd. destruct (bm_dealloc_spec s r Hs Hm Hd) as (s' & ? & ? & Er & ?).
    exists s'. by rewrite Er.
  - intros s Hs f. unfold bm_free. rewrite elem_of_shift, elem_of_frames. intros Hf.
    apply (wf_free s Hs), elem_of_frames in Hf. unfold bm_pages in Hf. cbn in Hf. lia.
  - intros s f Hs. rewrite elem_of_frames. pose proof (wf_start s Hs). pose proof (wf_end s Hs). lia.
Defined.

Lemma phys_floor_range a : 0 <= PhysAddr_floor a < 2 ^ PPN_WIDTH.
Proof.
  pose proof ppn_width_range. unfold PhysAddr_floor. rewrite mask_mod by lia.
  apply Z.mod_pos_bound, Z.pow_pos_nonneg; lia.
Qed.

Lemma bm_init_spec range_pa :
  let st := PhysAddr_floor (r_start range_pa) in
  let en := PhysAddr_floor (r_end range_pa) in
  256 <= st <= en -> en - (st - st mod 256) <= BITALLOC16M_CAP ->
  let s := bm_init bm_DEFAULT range_pa in
  bm_wf s /\ bm_range s = mkRange (st - st mod 256) en /\ bm_free s = frames_of (mkRange st en).
Proof.
  intros st en Hst Hcap s.
  pose proof (phys_floor_range (r_start range_pa)) as H1. fold st in H1.
  pose proof (phys_floor_range (r_end range_pa)) as H2. fold en in H2.
  assert (Hm : 0 <= st mod 256 < 256) by (apply Z.mod_pos_bound; lia).
  assert (Hle : st mod 256 <= st) by (apply Z.mod_le; lia).
  assert (Ua : is_usize st /\ is_usize en) by (split; by apply ppn_usize). destruct Ua as [Us Ue].
  assert (Es : s = mkBM (mkRange (st - st mod 256) en) 8
      (ba_insert ba_default (mkRange (st mod 256) (en - (st - st mod 256)))) (en - st)).
  { unfold s, bm_init. cbn [bm_align_log2 bm_DEFAULT bm_inner bm_last]. fold st en.
    change (wshl 1 8 - 1) with (2 ^ 8 - 1). rewrite land_wnot_round by (done || lia).
    change (2 ^ 8) with 256. cbn [r_start r_end].
    assert (Ep : PhysPageNum_from (st - st mod 256) = st - st mod 256).
    { unfold PhysPageNum_from. pose proof ppn_width_range. rewrite mask_mod by lia.
      apply Z.mod_small. lia. }
    rewrite Ep. unfold is_usize in *.
    rewrite (wsub_small st), (wsub_small en), wsub_small by (unfold is_usize; lia).
    f_equal; [do 2 f_equal; lia|lia]. }
  assert (Hf : ba_free (bm_inner s) = frames_of (mkRange (st mod 256) (en - (st - st mod 256)))).
  { rewrite Es. cbn. rewrite ba_insert_free, ba_default_free by (cbn; lia). set_solver. }
  split; [constructor|split].
  - rewrite Es. cbn. pose proof (Z.div_mod st 256). lia.
  - rewrite Es. cbn. lia.
  - rewrite Es. unfold bm_pages. cbn. lia.
  - rewrite Es. cbn. split; [done|]. exists (st / 256). pose proof (Z.div_mod st 256). lia.
  - rewrite Hf. intros x. rewrite Es. unfold bm_pages. cbn. rewrite !elem_of_frames. cbn. lia.
  - rewrite Hf, size_frames by (cbn; lia). rewrite Es. cbn. lia.
  - by rewrite Es.
  - unfold bm_free. rewrite Hf, shift_frames. rewrite Es. cbn. f_equal. f_equal; lia.
Qed.

End BitMapFacts.

(** ** Trackers over time *)

Section Trackers.
Context {C : ConstantsHal} {S : Type} {F : FrameAllocatorHal S} {L : FrameAllocatorLaws C S}.

(** Owners allocate and drop trackers in any order. *)
Inductive tracker_step : S * list Range -> S * list Range -> Prop :=
| step_alloc s live cnt t s' :
    0 <= cnt -> alloc_tracker s cnt = Some (t, s') ->
    tracker_step (s, live) (s', t :: live)
| step_drop s l1 t l2 s' :
    FrameTracker_drop s t = Ret s' -> tracker_step (s, l1 ++ t :: l2) (s', l1 ++ l2).

Inductive tracker_reach (s0 : S) : S * list Range -> Prop :=
| reach_init : tracker_reach s0 (s0, [])
| reach_step st st' : tracker_reach s0 st -> tracker_step st st' -> tracker_reach s0 st'.

Definition live_frames (live : list Range) : gset Z := ⋃ (frames_of <$> live).

(** Live trackers own disjoint ranges, none of them free, and together with the
    free frames they account for every frame the allocator started with. *)
Fixpoint disjoint_ranges (live : list Range) : Prop :=
  match live with
  | [] => True
  | t :: l => frames_of t ## live_frames l /\ disjoint_ranges l
  end.

Record tracker_inv (s0 : S) (st : S * list Range) : Prop := {
  ti_wf : fa_wf st.1;
  ti_managed : fa_managed st.1 = fa_managed s0;
  ti_disjoint : disjoint_ranges st.2;
  ti_not_free : live_frames st.2 ## fa_free st.1;
  ti_total : fa_free st.1 ∪ live_frames st.2 = fa_free s0;
}.

Lemma live_frames_app l1 l2 : live_frames (l1 ++ l2) = live_frames l1 ∪ live_frames l2.
Proof. unfold live_frames. by rewrite fmap_app, union_list_app_L. Qed.

Lemma live_frames_cons t l : live_frames (t :: l) = frames_of t ∪ live_frames l.
Proof. done. Qed.

Lemma live_frames_mid l1 t l2 :
  live_frames (l1 ++ t :: l2) = frames_of t ∪ live_frames (l1 ++ l2).
Proof.
  rewrite !live_frames_app, live_frames_cons. set_solver.
Qed.

Lemma disjoint_ranges_mid l1 t l2 :
  disjoint_ranges (l1 ++ t :: l2) -> frames_of t ## live_frames (l1 ++ l2) /\ disjoint_ranges (l1 ++ l2).
Proof.
  induction l1 as [|u l1 IH]; cbn; [done|]. intros [Hu Hd]. destruct (IH Hd) as [Ht Hd'].
  rewrite live_frames_mid in Hu. set_solver.
Qed.

Lemma tracker_drop_ok s0 s l1 t l2 :
  fa_wf s0 -> tracker_inv s0 (s, l1 ++ t :: l2) ->
  exists s', FrameTracker_drop s t = Ret s' /\ tracker_inv s0 (s', l1 ++ l2).
Proof.
  intros H0 [Hw Hm Hd Hn Ht]. cbn [fst snd] in *. apply disjoint_ranges_mid in Hd as [Hdt Hd].
  rewrite live_frames_mid in Hn, Ht.
  pose proof (fa_free_managed s0 H0).
  destruct (fa_dealloc_law s t Hw) as (s' & E & Hw' & Hf & Hm'); [rewrite Hm; set_solver|set_solver|].
  exists s'. split; [done|]. constructor; cbn [fst snd]; try done.
  - by rewrite Hm'.
  - rewrite Hf. set_solver.
  - rewrite Hf, <- Ht. set_solver.
Qed.

Lemma tracker_reach_inv s0 st : fa_wf s0 -> tracker_reach s0 st -> tracker_inv s0 st.
Proof.
  intros H0. induction 1 as [|st st' Hr IH Hs].
  { constructor; cbn; try done; unfold live_frames; set_solver. }
  destruct Hs as [s live cnt t s' Hc E|s l1 t l2 s' E].
  - destruct IH as [Hw Hm Hd Hn Ht]. cbn [fst snd] in *. unfold alloc_tracker in E.
    destruct (fa_alloc_with_align s cnt 0) as [[r s1]|] eqn:Ea; [|done].
    injection E as <- <-. unfold FrameTracker_new_in.
    destruct (fa_alloc_law s cnt 0 r s1 Hw Hc (Z.le_refl 0) Ea) as (Hw' & _ & _ & Hsub & Hf & Hm').
    constructor; cbn [fst snd]; [done|by rewrite Hm'|split; [set_solver|done]|..].
    + rewrite live_frames_cons, Hf. set_solver.
    + rewrite live_frames_cons, Hf, <- Ht. apply set_eq. intros x.
      destruct (decide (x ∈ frames_of r)); set_solver.
  - destruct (tracker_drop_ok s0 s l1 t l2 H0 IH) as (s1 & E1 & Hi).
    rewrite E in E1. by injection E1 as <-.
Qed.

End Trackers.

(** ** A bitmap that satisfies the crate's contract, for concrete runs *)

Section SetAlloc.

Definition set_fits (b : gset Z) (n al k : Z) : bool :=
  bool_decide (frames_of (mkRange k (k + n)) ⊆ b) && (k mod 2 ^ al =? 0).

Definition set_alloc : BitAlloc := {|
  ba := gset Z;
  ba_default := ∅;
  ba_insert b r := b ∪ frames_of r;
  ba_alloc_contiguous b _ n al :=
    match list_find (fun k => set_fits b n al k) (elements b) with
    | Some (_, k) => Some (k, b ∖ frames_of (mkRange k (k + n)))
    | None => None
    end;
  ba_dealloc_contiguous b k n :=
    let X := frames_of (mkRange k (k + n)) in
    if bool_decide (X ## b) then (true, b ∪ X) else (false, b) |}.

#[export] Instance set_alloc_laws : BitAllocLaws set_alloc.
Proof.
  refine {| ba_free := (fun b => b) : @ba set_alloc -> gset Z |}; cbn.
  - done.
  - done.
  - intros b n al k b' Hn. destruct (list_find _ _) as [[i k']|] eqn:E; [|done].
    intros [= <- <-]. apply list_find_Some in E as (_ & Hf & _).
    apply Is_true_true_1, andb_true_iff in Hf as [Hs Hd]. apply bool_decide_eq_true_1 in Hs.
    split; [|done]. apply Z.eqb_eq in Hd. destruct (decide (0 <= al)).
    + apply Z.mod_divide; [apply Z.pow_nonzero; lia|done].
    + rewrite Z.pow_neg_r, Z.mod_0_r in * by lia. subst. by exists 0.
  - intros b n al Hn. destruct (list_find _ _) as [[i k']|] eqn:E; [done|]. intros _ k Hd Hk.
    apply list_find_None in E. rewrite Forall_forall in E. apply (E k).
    + apply elem_of_elements, Hk, elem_of_frames. cbn. lia.
    + unfold set_fits. rewrite bool_decide_true by done. cbn.
      destruct Hd as [c ->]. by rewrite Z_mod_mult.
  - intros b k n _ _ _ Hd. rewrite bool_decide_true by done. by eexists.
  - intros b k n _ _ _ Hd. by rewrite bool_decide_false by done.
Defined.

End SetAlloc.

(** ** Claims *)

Section Claims.
Context {C : ConstantsHal} {CL : ConstantsLaws C} {B : BitAlloc} {BL : BitAllocLaws B}.

(** C6: starting from [init_frame_allocator], in any interleaving of tracker
    allocations and drops: live trackers own pairwise disjoint frames, no live
    frame is free, free and live frames together are exactly the pages from the
    end of the kernel to [MEMORY_END], the counter [last] is the number of free
    frames, and dropping any live tracker frees it without tripping the
    [assert!] in [dealloc_contiguous]. *)
Theorem frames_never_shared ekernel s live :
  let pa := PhysAddr_from (Z.land ekernel (wnot (r_start KERNEL_ADDR_SPACE))) in
  let st := PhysAddr_floor pa in
  let en := PhysAddr_floor (PhysAddr_from MEMORY_END) in
  256 <= st <= en -> en - (st - st mod 256) <= BITALLOC16M_CAP ->
  tracker_reach (init_frame_allocator ekernel) (s, live) ->
  disjoint_ranges live /\ live_frames live ## bm_free s /\
  bm_free s ∪ live_frames live = frames_of (mkRange st en) /\
  bm_last s = Z.of_nat (size (bm_free s)) /\
  forall l1 t l2, live = l1 ++ t :: l2 ->
    exists s', FrameTracker_drop s t = Ret s' /\ bm_free s' = bm_free s ∪ frames_of t.
Proof.
  intros pa st en Hst Hcap Hr.
  destruct (bm_init_spec (mkRange pa (PhysAddr_from MEMORY_END)) Hst Hcap) as (Hw & _ & Hf).
  pose proof (tracker_reach_inv (init_frame_allocator ekernel) (s, live) Hw Hr) as Hi.
  pose proof Hi as [Hws Hm Hd Hn Ht]. cbn [fst snd] in *.
  split; [done|]. split; [done|]. split; [by etransitivity; [apply Ht|]|]. split.
  - by rewrite (wf_last s Hws), size_bm_free.
  - intros l1 t l2 ->.
    apply disjoint_ranges_mid in Hd as [Hdt Hd]. rewrite live_frames_mid in Hn, Ht.
    pose proof (fa_free_managed _ Hw) as Hfm. cbn in Hfm.
    assert (Hlive : frames_of t ⊆ bm_free (init_frame_allocator ekernel)) by set_solver.
    destruct (bm_dealloc_spec s t Hws) as (s' & E & _ & _ & E').
    + cbn in Hm. rewrite Hm. by transitivity (bm_free (init_frame_allocator ekernel)).
    + clear - Hn. set_solver.
    + by exists s'.
Qed.

(** An allocation of [cnt] frames returns exactly [cnt] consecutive frames,
    all free before and no other frame taken, aligned to [2^align_log2] pages
    when the alignment is one the allocator supports; a request for no frames
    is refused. *)
Theorem frame_alloc_exact s cnt al :
  bm_wf s -> 0 <= cnt -> 0 <= al <= bm_align_log2 s ->
  match FrameAllocator_alloc_with_align s cnt al with
  | None => True
  | Some (r, s') =>
      0 < cnt /\ r_end r = r_start r + cnt /\ (2 ^ al | r_start r) /\
      frames_of r ⊆ bm_free s /\ bm_free s' = bm_free s ∖ frames_of r /\
      bm_last s' = bm_last s - cnt /\ bm_wf s'
  end.
Proof.
  intros Hs Hc Hal. unfold FrameAllocator_alloc_with_align.
  destruct (Z.eqb_spec cnt 0); [done|].
  destruct (bm_alloc_contiguous s cnt al) as [[r s']|] eqn:E; [|done].
  destruct (bm_alloc_spec s cnt al r s' Hs ltac:(lia) E) as (Hw' & Hr & Hlen & Hsub & Hf & Hdiv).
  split_and!; try done; [lia| |].
  - destruct (wf_align s Hs) as [Ha Hd]. rewrite Ha in Hal.
    replace (r_start r) with (r_start r - r_start (bm_range s) + r_start (bm_range s)) by lia.
    apply Z.divide_add_r; [done|]. apply Z.divide_trans with (2 ^ 8); [|done].
    exists (2 ^ (8 - al)). rewrite <- Z.pow_add_r by lia. f_equal. lia.
  - pose proof (size_frames r ltac:(lia)) as Hsz.
    rewrite (wf_last s Hs), (wf_last s' Hw').
    rewrite <- !size_bm_free, Hf, size_difference by done. apply subseteq_size in Hsub. lia.
Qed.

End Claims.

(** A run on the concrete bitmap: two frames of memory above the kernel. *)
Definition tiny : BitMapFrameAllocator (B := set_alloc) :=
  init_frame_allocator (C := riscv64) 0xffffffc0bfffe000.

(** The observable part of an allocation. *)
Definition observe (o : option (Range * BitMapFrameAllocator (B := set_alloc))) : option (Range * Z) :=
  match o with Some (r, s) => Some (r, bm_last s) | None => None end.

Lemma tiny_alloc cnt al r n :
  observe (FrameAllocator_alloc_with_align tiny cnt al) = Some (r, n) ->
  exists s, FrameAllocator_alloc_with_align tiny cnt al = Some (r, s) /\ bm_last s = n.
Proof.
  destruct (FrameAllocator_alloc_with_align tiny cnt al) as [[r' s]|]; [|done].
  cbn. intros [= <- <-]. by exists s.
Qed.

Lemma frames_never_shared_witness :
  exists s t, tracker_reach tiny (s, [t]) /\ t = mkRange 0xbffff 0xc0000 /\ bm_last s = 1 /\
    disjoint_ranges [t].
Proof.
  destruct (tiny_alloc 1 0 (mkRange 0xbffff 0xc0000) 1) as (s & E & Hl); [by vm_compute|].
  assert (Hr : tracker_reach tiny (s, [mkRange 0xbffff 0xc0000])).
  { eapply reach_step; [apply reach_init|]. apply step_alloc with 1; [lia|].
    unfold alloc_tracker. cbn [fa_alloc_with_align FrameAllocator_hal]. by rewrite E. }
  exists s, (mkRange 0xbffff 0xc0000). split; [done|].
  destruct (frames_never_shared (C := riscv64) 0xffffffc0bfffe000 s [mkRange 0xbffff 0xc0000])
    as (Hd & _); [by vm_compute|by vm_compute|exact Hr|].
  exact (conj eq_refl (conj Hl Hd)).
Defined.

Lemma frame_alloc_exact_witness :
  bm_wf (C := riscv64) tiny /\
  exists s', FrameAllocator_alloc_with_align tiny 2 1 = Some (mkRange 0xbfffe 0xc0000, s') /\
    (2 | 0xbfffe) /\ bm_last s' = bm_last tiny - 2.
Proof.
  assert (Hw : bm_wf (C := riscv64) tiny).
  { apply (bm_init_spec (C := riscv64)); by vm_compute. }
  split; [done|].
  destruct (tiny_alloc 2 1 (mkRange 0xbfffe 0xc0000) 0) as (s & E & _); [by vm_compute|].
  exists s. split; [done|].
  pose proof (frame_alloc_exact (C := riscv64) tiny 2 1 Hw) as H.
  change (bm_align_log2 tiny) with 8 in H. rewrite E in H.
  destruct H as (_ & _ & Hd & _ & _ & Hl & _); [lia..|]. exact (conj Hd Hl).
Defined.
