(* ===== verification/PageTable.v ===== *)
(** Page tables (hal/src/component/pagetable/riscv64.rs and loongarch64.rs):
    the multi-level walk over physical memory, creation of intermediate tables
    from the frame allocator, map, unmap and translation.  The two
    architectures run the same walk and differ in how an entry is seen to be
    absent, how a directory entry is made and what [map] adds to a leaf; those
    differences are the class [WalkHal].  Physical memory is seen as pages of
    512 entries. *)

From S2P Require Import Prelude HalConst Addr Pte FrameAlloc.

#[local] Open Scope Z_scope.

(** ** [PageLevel] *)

Inductive rv_PageLevel := rv_Huge | rv_Big | rv_Small.

Definition rv_page_count (l : rv_PageLevel) : Z :=
  match l with rv_Huge => 512 * 512 | rv_Big => 512 | rv_Small => 1 end.
Definition rv_lower (l : rv_PageLevel) : rv_PageLevel :=
  match l with rv_Huge => rv_Big | rv_Big => rv_Small | rv_Small => rv_Small end.
Definition rv_higher (l : rv_PageLevel) : rv_PageLevel :=
  match l with rv_Huge => rv_Huge | rv_Big => rv_Huge | rv_Small => rv_Big end.
Definition rv_lowest (l : rv_PageLevel) : bool :=
  match l with rv_Small => true | _ => false end.
Definition rv_highest (l : rv_PageLevel) : bool :=
  match l with rv_Huge => true | _ => false end.
Definition rv_from_count (count : Z) : option rv_PageLevel :=
  if count =? 0x1 then Some rv_Small
  else if count =? 0x200 then Some rv_Big
  else if count =? 0x40000 then Some rv_Huge
  else None.
Definition rv_PageLevel_from (value : nat) : outcome rv_PageLevel :=
  match value with
  | 0%nat => Ret rv_Huge | 1%nat => Ret rv_Big | 2%nat => Ret rv_Small | _ => Panic
  end.

Inductive la_PageLevel := la_Huge | la_Big | la_Middle | la_Small.

Definition la_page_count (l : la_PageLevel) : Z :=
  match l with
  | la_Huge => 512 * 512 * 512 | la_Big => 512 * 512 | la_Middle => 512 | la_Small => 1
  end.
Definition la_lower (l : la_PageLevel) : la_PageLevel :=
  match l with
  | la_Huge => la_Big | la_Big => la_Middle | la_Middle => la_Small | la_Small => la_Small
  end.
Definition la_higher (l : la_PageLevel) : la_PageLevel :=
  match l with
  | la_Huge => la_Huge | la_Big => la_Huge | la_Middle => la_Big | la_Small => la_Middle
  end.
Definition la_lowest (l : la_PageLevel) : bool :=
  match l with la_Small => true | _ => false end.
Definition la_highest (l : la_PageLevel) : bool :=
  match l with la_Huge => true | _ => false end.
Definition la_from_count (count : Z) : option la_PageLevel :=
  if count =? 0x1 then Some la_Small
  else if count =? 0x200 then Some la_Middle
  else if count =? 0x40000 then Some la_Big
  else if count =? 0x8000000 then Some la_Huge
  else None.
Definition la_PageLevel_from (value : nat) : outcome la_PageLevel :=
  match value with
  | 0%nat => Ret la_Huge | 1%nat => Ret la_Big | 2%nat => Ret la_Middle | 3%nat => Ret la_Small
  | _ => Panic
  end.

#[export] Instance rv_PageLevel_eq_dec : EqDecision rv_PageLevel.
Proof. solve_decision. Defined.
#[export] Instance la_PageLevel_eq_dec : EqDecision la_PageLevel.
Proof. solve_decision. Defined.

(** The levels of either architecture. *)
Class PageLevelHal := {
  PageLevel : Type;
  PageLevel_eq_dec :: EqDecision PageLevel;
  page_count : PageLevel -> Z;
  lowest : PageLevel -> bool;
  PageLevel_from : nat -> outcome PageLevel;
}.

Definition rv_level : PageLevelHal :=
  {| page_count := rv_page_count; lowest := rv_lowest; PageLevel_from := rv_PageLevel_from |}.
Definition la_level : PageLevelHal :=
  {| page_count := la_page_count; lowest := la_lowest; PageLevel_from := la_PageLevel_from |}.

(** [VpnPageRangeIter::next]: the remaining range and the item it yields. *)
Definition VpnPageRangeIter_next `{ConstantsHal} (small_count : Z) (r : Range) : option (Z * Range) :=
  if range_is_empty r then None
  else Some (r_start r, mkRange (VirtPageNum_add (r_start r) small_count) (r_end r)).

(** A [for] loop over the iterator, with fuel. *)
Fixpoint VpnPageRangeIter_collect `{ConstantsHal} (small_count : Z) (fuel : nat) (r : Range) : list Z :=
  match fuel with
  | O => []
  | S fuel =>
      match VpnPageRangeIter_next small_count r with
      | None => []
      | Some (vpn, r') => vpn :: VpnPageRangeIter_collect small_count fuel r'
      end
  end.

(** ** Memory and the walk *)

(** Entry [i] of the page [ppn]. *)
Definition pmem : Type := Z -> Z -> Z.

Definition mem_set (m : pmem) (ppn i v : Z) : pmem :=
  fun p j => if (p =? ppn) && (j =? i) then v else m p j.

(** [get_slice_mut::<u8>().fill(0)] on the frames of a range. *)
Definition mem_zero (m : pmem) (r : Range) : pmem :=
  fun p j => if (r_start r <=? p) && (p <? r_end r) then 0 else m p j.

Class WalkHal := {
  (** the entry does not lead anywhere *)
  walk_absent : Z -> outcome bool;
  (** the walk stops at this entry before the last level *)
  walk_leaf : Z -> outcome bool;
  (** the guard at the start of [find_pte_create] *)
  walk_level_ok : bool -> bool;
  (** the entry for a fresh table *)
  walk_dir_entry : Z -> Z;
  (** what [map] does to the entry it made *)
  walk_seal : Z -> Z;
}.

Definition rv_walk : WalkHal := {|
  walk_absent p := let! v := rv_is_valid p in Ret (negb v);
  walk_leaf := rv_is_leaf;
  walk_level_ok _ := true;
  walk_dir_entry f := rv_set_valid (rv_new f 0) true;
  walk_seal p := p |}.

(** Directory entries carry no flag bits here, so absence is [bits == 0]. *)
Definition la_walk : WalkHal := {|
  walk_absent p := Ret (p =? 0);
  walk_leaf _ := Ret false;
  walk_level_ok low := low;
  walk_dir_entry f := wshl f (@PAGE_SIZE_BITS loongarch64);
  walk_seal p := Z.lor p la_PTE_MAT_L |}.

Record PageTable := mkPT {
  root_ppn : Z;
  pt_frames : list Range;
}.

Section Operations.
Context {C : ConstantsHal} {P : PageTableEntryHal} {W : WalkHal} {V : PageLevelHal}.
Context {A : Type} {F : FrameAllocatorHal A}.

(** A pointer to an entry is its table and its index. *)
Fixpoint find_pte_loop (m : pmem) (i : nat) (idxs : list Z) (ppn : Z) :
    outcome (option (Z * Z * nat)) :=
  match idxs with
  | [] => Ret None
  | idx :: rest =>
      let pte := m ppn idx in
      let! absent := walk_absent pte in
      if absent then Ret None
      else
        let! leaf := walk_leaf pte in
        if leaf || (i =? PG_LEVEL - 1)%nat then Ret (Some (ppn, idx, i))
        else find_pte_loop m (S i) rest (pte_ppn pte)
  end.

Definition find_pte (m : pmem) (pt : PageTable) (vpn : Z) : outcome (option (Z * Z * nat)) :=
  find_pte_loop m 0 (VirtPageNum_indexes vpn) (root_ppn pt).

Fixpoint find_pte_create_loop (m : pmem) (a : A) (frames : list Range) (i : nat)
    (idxs : list Z) (ppn : Z) (level : PageLevel) :
    outcome (option (Z * Z) * (pmem * A * list Range)) :=
  match idxs with
  | [] => Ret (None, (m, a, frames))
  | idx :: rest =>
      let! l := PageLevel_from i in
      if decide (l = level) then Ret (Some (ppn, idx), (m, a, frames))
      else
        let! absent := walk_absent (m ppn idx) in
        if absent then
          let! fa := unwrap (alloc_tracker a 1) in
          let '(frame, a) := fa in
          let m := mem_zero m frame in
          let m := mem_set m ppn idx (walk_dir_entry (r_start frame)) in
          find_pte_create_loop m a (frames ++ [frame]) (S i) rest (pte_ppn (m ppn idx)) level
        else find_pte_create_loop m a frames (S i) rest (pte_ppn (m ppn idx)) level
  end.

Definition find_pte_create (m : pmem) (a : A) (pt : PageTable) (vpn : Z) (level : PageLevel) :
    outcome (option (Z * Z) * (pmem * A * PageTable)) :=
  assert! walk_level_ok (lowest level) in
  let! res := find_pte_create_loop m a (pt_frames pt) 0 (VirtPageNum_indexes vpn)
                (root_ppn pt) level in
  let '(r, (m, a, frames)) := res in
  Ret (r, (m, a, mkPT (root_ppn pt) frames)).

Definition pt_new_in (m : pmem) (a : A) : outcome (PageTable * (pmem * A)) :=
  let! fa := unwrap (alloc_tracker a 1) in
  let '(frame, a) := fa in
  Ret (mkPT (r_start frame) [frame], (mem_zero m frame, a)).

(** The entry [map] writes. *)
Definition leaf_entry (ppn perm : Z) : Z := walk_seal (pte_set_valid (pte_new ppn perm) true).

Definition pt_map (m : pmem) (a : A) (pt : PageTable) (vpn ppn perm : Z) (level : PageLevel) :
    outcome (result (Z * Z) unit * (pmem * A * PageTable)) :=
  let! res := find_pte_create m a pt vpn level in
  let '(r, (m, a, pt)) := res in
  match r with
  | Some (t, i) => Ret (Ok (t, i), (mem_set m t i (leaf_entry ppn perm), a, pt))
  | None => Ret (Err tt, (m, a, pt))
  end.

Definition pt_unmap (m : pmem) (pt : PageTable) (vpn : Z) : outcome (result Z unit * pmem) :=
  let! r := find_pte m pt vpn in
  match r with
  | Some (t, i, _) => Ret (Ok (m t i), mem_set m t i 0)
  | None => Ret (Err tt, m)
  end.

Definition pt_translate_vpn (m : pmem) (pt : PageTable) (vpn : Z) : outcome (option Z) :=
  let! r := find_pte m pt vpn in
  match r with
  | None => Ret None
  | Some (t, i, level) =>
      let! v := pte_is_valid (m t i) in
      if negb v then Ret None
      else
        let! level := PageLevel_from level in
        Ret (Some (wadd (pte_ppn (m t i)) (vpn mod page_count level)))
  end.

Definition pt_translate_va (m : pmem) (pt : PageTable) (va : Z) : outcome (option Z) :=
  let! r := find_pte m pt (VirtAddr_floor va) in
  match r with
  | None => Ret None
  | Some (t, i, level) =>
      let! v := pte_is_valid (m t i) in
      if negb v then Ret None
      else
        let! level := PageLevel_from level in
        let offset := va mod (page_count level * PAGE_SIZE) in
        Ret (Some (wadd (PhysPageNum_start_addr (pte_ppn (m t i))) offset))
  end.

(** [Vec::clear] drops the trackers in order. *)
Fixpoint drop_frames (a : A) (fs : list Range) : outcome A :=
  match fs with
  | [] => Ret a
  | t :: fs => let! a := FrameTracker_drop a t in drop_frames a fs
  end.

(** [Vec::swap_remove(0)]. *)
Definition swap_remove0 (fs : list Range) : outcome (Range * list Range) :=
  match fs with
  | [] => Panic
  | [t] => Ret (t, [])
  | t :: rest => Ret (t, default t (last rest) :: removelast rest)
  end.

Definition pt_clear (a : A) (pt : PageTable) : outcome (PageTable * A) :=
  let! r := swap_remove0 (pt_frames pt) in
  let '(root, rest) := r in
  let! a := drop_frames a rest in
  Ret (mkPT (root_ppn pt) [root], a).

(** [enabled] against the translation register(s) of the hart. *)
Definition rv_from_token (token : Z) : PageTable :=
  mkPT (Z.land token (wshl 1 (@PPN_WIDTH riscv64) - 1)) [].
Definition rv_get_token (pt : PageTable) : Z := Z.lor (wshl 8 60) (root_ppn pt).
Definition rv_enabled (satp : Z) (pt : PageTable) : bool := rv_get_token pt =? satp.

Definition la_from_token (token : Z) : PageTable :=
  mkPT (Z.shiftr token (@PAGE_SIZE_BITS loongarch64)) [].
Definition la_get_token (pt : PageTable) : Z :=
  Z.land (@PhysPageNum_start_addr loongarch64 (root_ppn pt))
    (wnot (r_start (@KERNEL_ADDR_SPACE loongarch64))).
Definition la_enabled (pgdl pgdh : Z) (pt : PageTable) : bool :=
  (la_get_token pt =? pgdl) || (la_get_token pt =? pgdh).

End Operations.

(** The two instances of the trait [PageTableHal]. *)
Definition rv_find_pte := @find_pte riscv64 rv_pte rv_walk.
Definition rv_find_pte_create {A} {F : FrameAllocatorHal A} :=
  @find_pte_create riscv64 rv_pte rv_walk rv_level A F.
Definition rv_map {A} {F : FrameAllocatorHal A} := @pt_map riscv64 rv_pte rv_walk rv_level A F.
Definition rv_unmap := @pt_unmap riscv64 rv_pte rv_walk.
Definition rv_translate_vpn := @pt_translate_vpn riscv64 rv_pte rv_walk rv_level.
Definition rv_translate_va := @pt_translate_va riscv64 rv_pte rv_walk rv_level.

Definition la_find_pte := @find_pte loongarch64 la_pte la_walk.
Definition la_find_pte_create {A} {F : FrameAllocatorHal A} :=
  @find_pte_create loongarch64 la_pte la_walk la_level A F.
Definition la_map {A} {F : FrameAllocatorHal A} := @pt_map loongarch64 la_pte la_walk la_level A F.
Definition la_unmap := @pt_unmap loongarch64 la_pte la_walk.
Definition la_translate_vpn := @pt_translate_vpn loongarch64 la_pte la_walk la_level.
Definition la_translate_va := @pt_translate_va loongarch64 la_pte la_walk la_level.

(** ** What the walk needs of an architecture *)

Class WalkLaws (C : ConstantsHal) (P : PageTableEntryHal) (L : PteLaws C P) (W : WalkHal)
    (V : PageLevelHal) := {
  wl_total p : pte_wf p -> exists b c, walk_absent p = Ret b /\ walk_leaf p = Ret c;
  wl_zero : pte_wf 0 /\ walk_absent 0 = Ret true;
  wl_dir f : 0 < f < 2 ^ PPN_WIDTH ->
    let e := walk_dir_entry f in
    pte_wf e /\ walk_absent e = Ret false /\ walk_leaf e = Ret false /\ pte_ppn e = f;
  wl_leaf n f : is_ppn C n -> is_perm f ->
    let e := leaf_entry n f in
    pte_wf e /\ walk_absent e = Ret false /\ pte_view_of e = mkView n f true false false;
  wl_valid p : pte_wf p -> v_valid (pte_view_of p) = true -> walk_absent p = Ret false;
  wl_level i : (i < PG_LEVEL)%nat ->
    exists l, PageLevel_from i = Ret l /\ (lowest l = true <-> i = (PG_LEVEL - 1)%nat);
  wl_lowest_inj l l' : lowest l = true -> lowest l' = true -> l = l';
  wl_lowest_ok : walk_level_ok true = true;
  wl_lowest_count l : lowest l = true -> page_count l = 1;
  wl_levels : (0 < PG_LEVEL)%nat;
}.

#[export] Instance rv_walk_laws : WalkLaws riscv64 rv_pte rv_laws rv_walk rv_level.
Proof.
  constructor.
  - intros p Hp. cbn. unfold rv_is_valid, rv_is_leaf. rewrite rv_pteflags_wf by exact Hp.
    cbn. by do 2 eexists.
  - by vm_compute.
  - intros f Hf. cbn [walk_dir_entry walk_absent walk_leaf rv_walk].
    destruct (pte_new_view (PteLaws := rv_laws) f 0) as [W0 V0]; [cbn in *; unfold is_ppn; lia|done|].
    destruct (pte_set_valid_view (PteLaws := rv_laws) _ true W0) as [W1 V1].
    pose proof (pte_valid_view (PteLaws := rv_laws) _ W1) as Ev.
    pose proof (pte_ppn_view (PteLaws := rv_laws) _ W1) as Ep.
    rewrite V1, V0 in Ev, Ep.
    cbn [pte_is_valid pte_ppn pte_set_valid pte_new rv_pte v_valid v_ppn] in Ev, Ep.
    rewrite Ev. cbn [obind negb].
    split; [exact W1|]. split; [done|]. split; [|exact Ep].
    apply (f_equal v_perm) in V1. rewrite V0 in V1.
    apply perm_of_zero in V1 as (E1 & E2 & E3 & _).
    rewrite rv_is_leaf_val by exact W1. cbn [pte_set_valid pte_new rv_pte] in *.
    by rewrite E1, E2, E3, andb_false_r.
  - intros n f Hn Hf. unfold leaf_entry. cbn [walk_seal walk_absent rv_walk].
    destruct (pte_new_view (PteLaws := rv_laws) n f Hn Hf) as [W0 V0].
    destruct (pte_set_valid_view (PteLaws := rv_laws) _ true W0) as [W1 V1].
    pose proof (pte_valid_view (PteLaws := rv_laws) _ W1) as Ev.
    rewrite V1, V0 in Ev. split; [exact W1|]. split; [|by rewrite V1, V0].
    cbn [pte_is_valid pte_set_valid pte_new rv_pte v_valid] in *. by rewrite Ev.
  - intros p Hp Hv. cbn [walk_absent rv_walk].
    pose proof (pte_valid_view (PteLaws := rv_laws) p Hp) as E. rewrite Hv in E.
    cbn [pte_is_valid rv_pte] in E. by rewrite E.
  - intros [|[|[|i]]] Hi; cbn in *; [by eexists..|lia].
  - by intros [] [].
  - done.
  - by intros [].
  - cbn. lia.
Qed.

#[export] Instance la_walk_laws : WalkLaws loongarch64 la_pte la_laws la_walk la_level.
Proof.
  constructor.
  - intros p Hp. cbn. by do 2 eexists.
  - by vm_compute.
  - intros f Hf. cbn [walk_dir_entry walk_absent walk_leaf la_walk pte_wf la_laws pte_ppn la_pte].
    change (2 ^ @PPN_WIDTH loongarch64) with (2 ^ 36) in Hf.
    change (@PAGE_SIZE_BITS loongarch64) with 12.
    assert (E : wshl f 12 = f * 2 ^ 12).
    { unfold wshl. rewrite Z.shiftl_mul_pow2 by lia. apply wrap_small. unfold is_usize. lia. }
    assert (Hb : forall i, 0 <= i < 12 -> Z.testbit (wshl f 12) i = false)
      by (intros i Hi; rewrite E; apply Z.mul_pow2_bits_low; lia).
    split; [split; [apply wrap_bounds|split; apply Hb; lia]|].
    split; [f_equal; apply Z.eqb_neq; lia|]. split; [done|].
    rewrite la_ppn_field, E, Z.div_mul by lia. apply Z.mod_small. lia.
  - intros n f Hn Hf. unfold leaf_entry. cbn [walk_seal walk_absent la_walk].
    destruct (pte_new_view (PteLaws := la_laws) n f Hn Hf) as [W0 V0].
    destruct (pte_set_valid_view (PteLaws := la_laws) _ true W0) as [W1 V1].
    set (e := pte_set_valid _ true) in *.
    destruct (la_set_bit_view e 4 true W1) as [W2 V2]; [lia|]. cbn in W2, V2.
    split; [exact W2|]. split.
    + f_equal. apply Z.eqb_neq. intros E0.
      assert (Ht : Z.testbit (Z.lor e la_PTE_MAT_L) 4 = true)
        by (rewrite Z.lor_spec; change (Z.testbit la_PTE_MAT_L 4) with true; apply orb_true_r).
      by rewrite E0 in Ht.
    + etransitivity; [exact V2|]. etransitivity; [|rewrite V0 in V1; exact V1]. done.
  - intros p Hp Hv. cbn [walk_absent la_walk]. f_equal. apply Z.eqb_neq. intros ->. by vm_compute in Hv.
  - intros [|[|[|[|i]]]] Hi; cbn in *; [by eexists..|lia].
  - by intros [] [].
  - done.
  - by intros [].
  - cbn. lia.
Qed.

(** ** The tree of tables *)

(** Where a table has no superpages, as a set of root indexes: the user half on
    RISC-V, whose upper half holds the kernel's entries and its superpages; all
    of it on LoongArch. *)
Class Region := region : Z -> Prop.

Definition user_region : Region := fun i => 0 <= i < 256.
Definition whole_region : Region := fun _ => True.

Section Tree.
Context {C : ConstantsHal} {CL : ConstantsLaws C} {P : PageTableEntryHal} {L : PteLaws C P}.
Context {W : WalkHal} {V : PageLevelHal} {WL : WalkLaws C P L W V}.
Context {A : Type} {F : FrameAllocatorHal A} {FL : FrameAllocatorLaws C A}.
Context {R : Region}.

(** The next table below an entry. *)
Definition child (m : pmem) (t i : Z) : option Z :=
  match walk_absent (m t i), walk_leaf (m t i) with
  | Ret false, Ret false => Some (pte_ppn (m t i))
  | _, _ => None
  end.

(** The table reached from [root] along a path of indexes. *)
Fixpoint walk (m : pmem) (t : Z) (p : list Z) : option Z :=
  match p with
  | [] => Some t
  | i :: p => match child m t i with Some t' => walk m t' p | None => None end
  end.

(** Paths that end at a table. *)
Definition node (p : list Z) : Prop := (length p <= PG_LEVEL - 1)%nat.

(** The abstract page table: the present last-level entry at a full path. *)
Definition slot (m : pmem) (root : Z) (p : list Z) (j : Z) : option Z :=
  match walk m root p with
  | Some t => match walk_absent (m t j) with Ret false => Some (m t j) | _ => None end
  | None => None
  end.

Record pt_inv (m : pmem) (a : A) (root : Z) : Prop := {
  pti_alloc : fa_wf a;
  pti_table p t : node p -> walk m root p = Some t -> t ∉ fa_free a;
  pti_tree p q t : node p -> node q -> walk m root p = Some t -> walk m root q = Some t -> p = q;
  pti_entry p t i : node p -> walk m root p = Some t -> pte_wf (m t i);
  pti_no_super p t i : region (hd i p) -> (length p < PG_LEVEL - 1)%nat -> walk m root p = Some t ->
    walk_absent (m t i) = Ret false -> walk_leaf (m t i) = Ret false;
}.

Lemma walk_app m t p q :
  walk m t (p ++ q) = match walk m t p with Some t' => walk m t' q | None => None end.
Proof.
  revert t. induction p as [|i p IH]; intros t; cbn; [done|].
  by destruct (child m t i).
Qed.

Lemma walk_snoc m t p i :
  walk m t (p ++ [i]) = match walk m t p with Some t' => child m t' i | None => None end.
Proof. rewrite walk_app. destruct (walk m t p); [|done]. cbn. by destruct (child m z i). Qed.

Lemma node_init p i : node (p ++ [i]) -> node p.
Proof. unfold node. rewrite length_app. cbn. lia. Qed.

Lemma child_zero m t i : m t i = 0 -> child m t i = None.
Proof. intros E. unfold child. rewrite E. destruct wl_zero as [_ ->]. done. Qed.

Lemma child_eq m m' t i : m' t i = m t i -> child m' t i = child m t i.
Proof. intros E. unfold child. by rewrite E. Qed.

Lemma mem_set_same m t i v : mem_set m t i v t i = v.
Proof. unfold mem_set. by rewrite !Z.eqb_refl. Qed.

Lemma mem_set_other m t i v t' i' : (t', i') <> (t, i) -> mem_set m t i v t' i' = m t' i'.
Proof.
  intros Hne. unfold mem_set. destruct (Z.eqb_spec t' t), (Z.eqb_spec i' i); try done.
  by subst.
Qed.

(** Adding a fresh zeroed table [f] under the absent entry [(t, i)] at path [p]
    adds one path to the tree and changes nothing else. *)
Definition grow (m : pmem) (t i f : Z) : pmem :=
  mem_set (mem_zero m (mkRange f (f + 1))) t i (walk_dir_entry f).

Lemma mem_zero_one m f t i :
  mem_zero m (mkRange f (f + 1)) t i = if t =? f then 0 else m t i.
Proof.
  unfold mem_zero. cbn.
  destruct (Z.leb_spec f t), (Z.ltb_spec t (f + 1)), (Z.eqb_spec t f); cbn; try lia; done.
Qed.

Lemma grow_at m t i f t' i' :
  t <> f -> grow m t i f t' i' =
    if decide ((t', i') = (t, i)) then walk_dir_entry f else if t' =? f then 0 else m t' i'.
Proof.
  intros Hne. unfold grow. destruct (decide _) as [[= -> ->]|Hd].
  - apply mem_set_same.
  - rewrite mem_set_other by done. apply mem_zero_one.
Qed.

Context (m : pmem) (a : A) (root : Z) (Hinv : pt_inv m a root).

Section Grow.
Context (p : list Z) (i t f : Z).
Hypothesis Hp : (length p < PG_LEVEL - 1)%nat.
Hypothesis Ht : walk m root p = Some t.
Hypothesis Habs : walk_absent (m t i) = Ret true.
Hypothesis Hf : f ∈ fa_free a.

Lemma grow_fresh : t <> f.
Proof.
  intros ->. apply (pti_table m a root Hinv p f); [unfold node; lia|done..].
Qed.

Lemma grow_frame_ppn : 0 < f < 2 ^ PPN_WIDTH.
Proof.
  pose proof (pti_alloc _ _ _ Hinv) as Hw. apply (fa_managed_ppn a f Hw).
  by apply (fa_free_managed a Hw).
Qed.

Lemma grow_walk q :
  node q ->
  walk (grow m t i f) root q = if decide (q = p ++ [i]) then Some f else walk m root q.
Proof.
  pose proof grow_fresh as Hne. pose proof (wl_dir f grow_frame_ppn) as (_ & Ha & Hl & Hpp).
  induction q as [|j q IH] using rev_ind; intros Hq.
  { destruct (decide _) as [E|_]; [by destruct p|done]. }
  pose proof (node_init q j Hq) as Hq'. specialize (IH Hq'). rewrite !walk_snoc, IH.
  destruct (decide (q = p ++ [i])) as [->|Hqne].
  - rewrite decide_False by (intros E; apply (f_equal length) in E; rewrite !length_app in E; cbn in E; lia).
    rewrite walk_snoc, Ht. unfold child at 2. rewrite Habs. apply child_zero.
    rewrite grow_at by done. rewrite decide_False by (intros [= E _]; done). by rewrite Z.eqb_refl.
  - destruct (walk m root q) as [t'|] eqn:Eq.
    2:{ rewrite decide_False; [done|]. intros E. apply app_inj_tail in E as [-> ->]. congruence. }
    assert (t' <> f) by (intros ->; by apply (pti_table m a root Hinv q f)).
    destruct (decide ((t', j) = (t, i))) as [[= -> ->]|Hd].
    + rewrite (pti_tree m a root Hinv q p t) by (try done; unfold node; lia).
      rewrite decide_True by done. unfold child. rewrite grow_at, decide_True by done.
      by rewrite Ha, Hl, Hpp.
    + rewrite decide_False by (intros E; apply app_inj_tail in E as [-> ->]; congruence).
      apply child_eq. rewrite grow_at, decide_False by done. by zcmp.
Qed.

Lemma grow_entry q t' j :
  node q -> walk m root q = Some t' -> (q, j) <> (p, i) -> grow m t i f t' j = m t' j.
Proof.
  intros Hq Ew Hd. rewrite grow_at by apply grow_fresh.
  rewrite decide_False; [destruct (Z.eqb_spec t' f) as [->|]; [|done]|].
  - by destruct (pti_table m a root Hinv q f Hq Ew).
  - intros [= -> ->]. apply Hd. f_equal. apply (pti_tree m a root Hinv q p t); try done.
    unfold node. lia.
Qed.

Lemma grow_new_entry j : grow m t i f f j = 0.
Proof.
  rewrite grow_at by apply grow_fresh. rewrite decide_False, Z.eqb_refl; [done|].
  intros [= E _]. by apply grow_fresh.
Qed.

Lemma grow_slot q j : length q = (PG_LEVEL - 1)%nat -> slot (grow m t i f) root q j = slot m root q j.
Proof.
  intros Hq. assert (node q) by (unfold node; lia). unfold slot. rewrite grow_walk by done.
  destruct (decide (q = p ++ [i])) as [->|Hne].
  - rewrite grow_new_entry, walk_snoc, Ht. unfold child. rewrite Habs.
    by destruct wl_zero as [_ ->].
  - destruct (walk m root q) as [t'|] eqn:Ew; [|done].
    rewrite grow_entry with q t' j; [done..|]. intros [= -> _]. lia.
Qed.

Lemma grow_inv a' : fa_wf a' -> fa_free a' = fa_free a ∖ {[f]} -> pt_inv (grow m t i f) a' root.
Proof.
  intros Hw Hfree.
  pose proof (wl_dir f grow_frame_ppn) as (Hd & Ha & Hl & Hpp).
  assert (Hold : forall q, node q -> walk m root q = Some f -> False).
  { intros q Hq E. by apply (pti_table m a root Hinv q f). }
  assert (Hpn : node p) by (unfold node; lia).
  constructor; [done|..].
  - intros q t' Hq E. rewrite grow_walk in E by done. rewrite Hfree.
    destruct (decide _); [injection E as <-; set_solver|].
    pose proof (pti_table m a root Hinv q t' Hq E). set_solver.
  - intros q1 q2 t' Hq1 Hq2 E1 E2. rewrite grow_walk in E1, E2 by done.
    destruct (decide (q1 = _)) as [->|], (decide (q2 = _)) as [->|]; try done.
    + injection E1 as <-. by destruct (Hold q2 Hq2 E2).
    + injection E2 as <-. by destruct (Hold q1 Hq1 E1).
    + by apply (pti_tree m a root Hinv q1 q2 t').
  - intros q t' j Hq E. rewrite grow_walk in E by done. destruct (decide _).
    + injection E as <-. rewrite grow_new_entry. apply wl_zero.
    + destruct (decide ((q, j) = (p, i))) as [[= -> ->]|Hd'].
      * rewrite Ht in E. injection E as <-. by rewrite grow_at, decide_True by (done || apply grow_fresh).
      * rewrite grow_entry with q t' j by done. by apply (pti_entry m a root Hinv q).
  - intros q t' j Hreg Hq E. assert (node q) by (unfold node; lia). rewrite grow_walk in E by done.
    destruct (decide _).
    + injection E as <-. rewrite grow_new_entry. by destruct wl_zero as [_ ->].
    + destruct (decide ((q, j) = (p, i))) as [[= -> ->]|Hd'].
      * rewrite Ht in E. injection E as <-. by rewrite grow_at, decide_True by (done || apply grow_fresh).
      * rewrite grow_entry with q t' j by done. by apply (pti_no_super m a root Hinv q).
Qed.

End Grow.

(** Writing the last-level entry [(t, j)] at path [q] leaves the tree alone. *)
Section Store.
Context (q : list Z) (j t e : Z).
Hypothesis Hq : length q = (PG_LEVEL - 1)%nat.
Hypothesis Ht : walk m root q = Some t.
Hypothesis He : pte_wf e.

Lemma store_other p t' i :
  node p -> walk m root p = Some t' -> (p, i) <> (q, j) -> mem_set m t j e t' i = m t' i.
Proof.
  intros Hp Ew Hd. apply mem_set_other. intros [= -> ->]. apply Hd. f_equal.
  apply (pti_tree m a root Hinv p q t); try done. unfold node. lia.
Qed.

Lemma store_walk p : node p -> walk (mem_set m t j e) root p = walk m root p.
Proof.
  induction p as [|i p IH] using rev_ind; intros Hp; [done|].
  pose proof (node_init p i Hp) as Hp'. rewrite !walk_snoc, (IH Hp').
  destruct (walk m root p) as [t'|] eqn:Ew; [|done]. apply child_eq.
  apply store_other with p; try done. intros [= -> _]. unfold node in Hp.
  rewrite length_app in Hp. cbn in Hp. lia.
Qed.

Lemma store_slot p i :
  length p = (PG_LEVEL - 1)%nat ->
  slot (mem_set m t j e) root p i =
    if decide ((p, i) = (q, j))
    then match walk_absent e with Ret false => Some e | _ => None end
    else slot m root p i.
Proof.
  intros Hp. assert (node p) by (unfold node; lia). unfold slot. rewrite store_walk by done.
  destruct (decide _) as [[= -> ->]|Hd].
  - by rewrite Ht, mem_set_same.
  - destruct (walk m root p) as [t'|] eqn:Ew; [|done]. by rewrite store_other with p t' i.
Qed.

Lemma store_inv : pt_inv (mem_set m t j e) a root.
Proof.
  constructor.
  - apply Hinv.
  - intros p t' Hp E. rewrite store_walk in E by done. by apply (pti_table m a root Hinv p).
  - intros p p' t' Hp Hp' E E'. rewrite store_walk in E, E' by done.
    by apply (pti_tree m a root Hinv p p' t').
  - intros p t' i Hp E. rewrite store_walk in E by done.
    destruct (decide ((p, i) = (q, j))) as [[= -> ->]|Hd].
    + rewrite Ht in E. injection E as <-. by rewrite mem_set_same.
    + rewrite store_other with p t' i by done. by apply (pti_entry m a root Hinv p).
  - intros p t' i Hreg Hp E. assert (node p) by (unfold node; lia). rewrite store_walk in E by done.
    rewrite store_other with p t' i; [by apply (pti_no_super m a root Hinv p)|done..|].
    intros [= -> _]. lia.
Qed.

End Store.

(** The lookup loop reads the slot. *)
Lemma find_pte_loop_spec r j p t :
  region (hd j (p ++ r)) -> walk m root p = Some t -> (length p + length r + 1 = PG_LEVEL)%nat ->
  find_pte_loop m (length p) (r ++ [j]) t =
    Ret (match walk m root (p ++ r) with
         | Some t' =>
             match walk_absent (m t' j) with
             | Ret false => Some (t', j, (PG_LEVEL - 1)%nat)
             | _ => None
             end
         | None => None
         end).
Proof.
  revert p t. induction r as [|i r IH]; intros p t Hreg Ht Hlen; cbn [app find_pte_loop].
  - rewrite app_nil_r, Ht. cbn in Hlen.
    destruct (wl_total (m t j)) as (b & c & Eb & Ec).
    { apply (pti_entry m a root Hinv p); [unfold node; lia|done]. }
    rewrite Eb. cbn [obind]. destruct b; [done|]. rewrite Ec. cbn [obind].
    assert (E : (length p =? PG_LEVEL - 1)%nat = true) by (apply Nat.eqb_eq; lia).
    rewrite E, orb_true_r. repeat f_equal. lia.
  - cbn in Hlen. assert (Hp : (length p < PG_LEVEL - 1)%nat) by lia.
    assert (Hri : region (hd i p)) by by destruct p.
    destruct (wl_total (m t i)) as (b & c & Eb & Ec).
    { apply (pti_entry m a root Hinv p); [unfold node; lia|done]. }
    rewrite Eb. cbn [obind]. rewrite walk_app, Ht. cbn [walk]. unfold child. rewrite Eb.
    destruct b; [done|]. rewrite (pti_no_super m a root Hinv p t i) by done. cbn [obind orb].
    assert (E : (length p =? PG_LEVEL - 1)%nat = false) by (apply Nat.eqb_neq; lia).
    rewrite E. specialize (IH (p ++ [i]) (pte_ppn (m t i))).
    replace (length (p ++ [i])) with (S (length p)) in IH by (rewrite length_app; cbn; lia).
    rewrite IH.
    + rewrite <- app_assoc. cbn [app]. rewrite walk_app, Ht. cbn [walk]. unfold child.
      by rewrite Eb, (pti_no_super m a root Hinv p t i).
    + by rewrite <- app_assoc.
    + rewrite walk_snoc, Ht. unfold child. by rewrite Eb, (pti_no_super m a root Hinv p t i).
    + lia.
Qed.

End Tree.

(** ** Creation of the path to a page *)

Section Create.
Context {C : ConstantsHal} {CL : ConstantsLaws C} {P : PageTableEntryHal} {L : PteLaws C P}.
Context {W : WalkHal} {V : PageLevelHal} {WL : WalkLaws C P L W V}.
Context {A : Type} {F : FrameAllocatorHal A} {FL : FrameAllocatorLaws C A}.
Context {R : Region}.

(** One frame out of a non-empty allocator. *)
Lemma alloc_tracker_one a :
  fa_wf a -> fa_free a <> ∅ ->
  exists f a', alloc_tracker a 1 = Some (mkRange f (f + 1), a') /\ f ∈ fa_free a /\ fa_wf a' /\
    fa_free a' = fa_free a ∖ {[f]} /\ fa_managed a' = fa_managed a.
Proof.
  intros Hw Hne. destruct (fa_alloc_one a Hw Hne) as (r & a' & E).
  destruct (fa_alloc_law a 1 0 r a' Hw ltac:(lia) ltac:(lia) E) as (Hw' & _ & Hl & Hs & Hf & Hm).
  destruct r as [f en]. cbn in Hl. subst en.
  assert (Efr : frames_of (mkRange f (f + 1)) = {[f]}).
  { apply set_eq. intros x. rewrite elem_of_frames, elem_of_singleton. cbn. lia. }
  rewrite Efr in *. exists f, a'. unfold alloc_tracker. rewrite E.
  split; [done|]. split; [set_solver|done].
Qed.

(** What a creating walk along [path] guarantees: the tree stays a tree and only
    grows, every new table is a tracked frame that was free, memory changes only
    in tables on the path and in such frames, and no page mapping changes. *)
Record extends (path : list Z) (m m' : pmem) (a a' : A) (root : Z) (fs fs' : list Range) : Prop := {
  ext_inv : pt_inv m' a' root;
  ext_slot q j : length q = (PG_LEVEL - 1)%nat -> slot m' root q j = slot m root q j;
  ext_tracked q t : node q -> walk m' root q = Some t ->
    walk m root q = Some t \/ mkRange t (t + 1) ∈ fs' /\ t ∈ fa_free a /\ t ∉ fa_free a';
  ext_frames : exists new, fs' = fs ++ new;
  ext_mem u k : m' u k = m u k \/ u ∈ fa_free a /\ u ∉ fa_free a' \/
    exists q, q `prefix_of` path /\ node q /\ walk m root q = Some u;
  ext_mono q t : node q -> walk m root q = Some t -> walk m' root q = Some t;
  ext_free : fa_free a' ⊆ fa_free a /\ fa_managed a' = fa_managed a;
}.

Lemma extends_refl path m a root fs : pt_inv m a root -> extends path m m a a root fs fs.
Proof.
  constructor; try done; [by left| |by left]. exists []. by rewrite app_nil_r.
Qed.

Lemma extends_trans path m1 m2 m3 a1 a2 a3 root f1 f2 f3 :
  extends path m1 m2 a1 a2 root f1 f2 -> extends path m2 m3 a2 a3 root f2 f3 ->
  extends path m1 m3 a1 a3 root f1 f3.
Proof.
  intros [I1 S1 T1 [n1 ->] M1 O1 [F1 G1]] [I2 S2 T2 [n2 ->] M2 O2 [F2 G2]]. constructor; [done|..].
  - intros. by rewrite S2, S1.
  - intros q t Hq E. destruct (T2 q t Hq E) as [E2|(H1 & H2 & H3)].
    + destruct (T1 q t Hq E2) as [|(H1 & H2 & H3)]; [by left|right]. split; [set_solver|]. set_solver.
    + right. set_solver.
  - exists (n1 ++ n2). by rewrite app_assoc.
  - intros u k. destruct (M2 u k) as [->|[[H1 H2]|(q & Hp & Hq & E)]].
    + destruct (M1 u k) as [->|[[H1 H2]|H]]; [by left| |by right; right]. right. left. set_solver.
    + right. left. set_solver.
    + right. destruct (T1 q u Hq E) as [E1|(_ & H1 & H2)]; [right; by exists q|left; set_solver].
  - intros q t Hq E. apply O2, O1; done.
  - split; [set_solver|congruence].
Qed.

Lemma find_pte_create_loop_spec level root j r p t m a fs :
  lowest level = true -> region (hd j (p ++ r)) -> pt_inv m a root -> walk m root p = Some t ->
  (length p + length r + 1 = PG_LEVEL)%nat -> walk m t r <> None \/ (length r <= size (fa_free a))%nat ->
  exists t' m' a' fs',
    find_pte_create_loop m a fs (length p) (r ++ [j]) t level =
      Ret (Some (t', j), (m', a', fs')) /\
    extends (p ++ r) m m' a a' root fs fs' /\ walk m' root (p ++ r) = Some t' /\
    (size (fa_free a) <= size (fa_free a') + length r)%nat /\ (walk m t r <> None -> a' = a).
Proof.
  intros Hlow. revert p t m a fs.
  induction r as [|i r IH]; intros p t m a fs Hreg Hinv Ht Hlen Hfree; cbn [app find_pte_create_loop].
  - cbn in Hlen. destruct (wl_level (length p) ltac:(lia)) as (l & -> & Hl). cbn [obind].
    assert (Hl' : lowest l = true) by (apply Hl; lia).
    rewrite (wl_lowest_inj l level) by done. rewrite decide_True by done.
    exists t, m, a, fs. rewrite app_nil_r. split; [done|].
    split; [by apply extends_refl|]. split; [done|]. split; [lia|done].
  - cbn in Hlen. assert (Hp : (length p < PG_LEVEL - 1)%nat) by lia.
    destruct (wl_level (length p) ltac:(lia)) as (l & -> & Hl). cbn [obind].
    rewrite decide_False by (intros ->; apply Hl in Hlow; lia).
    assert (Hri : region (hd i p)) by by destruct p.
    assert (Hri' : region (hd j ((p ++ [i]) ++ r))) by by rewrite <- app_assoc.
    destruct (wl_total (m t i)) as (b & c & Eb & Ec).
    { apply (pti_entry m a root Hinv p); [unfold node; lia|done]. }
    rewrite Eb. cbn [obind].
    assert (Elen : length (p ++ [i]) = S (length p)) by (rewrite length_app; cbn; lia).
    destruct b.
    + assert (Hnone : walk m t (i :: r) = None) by (cbn; unfold child; by rewrite Eb).
      destruct Hfree as [Hfree|Hfree]; [done|]. cbn [length] in Hfree.
      destruct (alloc_tracker_one a) as (f & a' & Ea & Hf & Hw' & Hfr & Hmg); [apply Hinv| |].
      { intros E. rewrite E, size_empty in Hfree. lia. }
      rewrite Ea. cbn [unwrap obind r_start]. fold (grow m t i f).
      pose proof (grow_inv m a root Hinv p i t f Hp Ht Eb Hf a' Hw' Hfr) as Hinv'.
      pose proof (grow_walk m a root Hinv p i t f Hp Ht Eb Hf) as Hwalk.
      assert (Hnode : node (p ++ [i])) by (unfold node; lia).
      pose proof (grow_fresh m a root Hinv p i t f Hp Ht Eb Hf) as Hne.
      assert (Ent : pte_ppn (grow m t i f t i) = f).
      { rewrite grow_at, decide_True by done. apply wl_dir. by apply (grow_frame_ppn m a root Hinv f Hf). }
      rewrite Ent.
      destruct (IH (p ++ [i]) f (grow m t i f) a' (fs ++ [mkRange f (f + 1)]))
        as (t' & m' & a'' & fs' & E & Hext & Hw'' & Hsz & _); [done|done| |lia| |].
      { by rewrite Hwalk, decide_True. }
      { right. rewrite Hfr, size_difference, size_singleton by set_solver. lia. }
      rewrite Elen in E. exists t', m', a'', fs'. split; [done|].
      rewrite <- app_assoc in Hw'', Hext. split; [|split; [done|split; [|done]]].
      2:{ rewrite Hfr, size_difference, size_singleton in Hsz by set_solver. cbn. lia. }
      eapply extends_trans; [|exact Hext]. constructor; [done|..].
      * intros q k Hq. by apply (grow_slot m a root Hinv p i t f Hp Ht Eb Hf).
      * intros q u Hq E'. rewrite Hwalk in E' by done. destruct (decide _); [|by left].
        injection E' as <-. right. set_solver.
      * by eexists.
      * intros u k. rewrite grow_at by done. destruct (decide _) as [[= -> ->]|].
        { right. right. exists p. split; [by apply prefix_app_r|]. split; [unfold node; lia|done]. }
        destruct (Z.eqb_spec u f) as [->|]; [right; left; set_solver|by left].
      * intros q u Hq Eq. rewrite Hwalk by done. destruct (decide _) as [->|]; [|done].
        rewrite walk_snoc, Ht in Eq. unfold child in Eq. by rewrite Eb in Eq.
      * split; [set_solver|done].
    + assert (Hch : child m t i = Some (pte_ppn (m t i))).
      { unfold child. by rewrite Eb, (pti_no_super m a root Hinv p t i). }
      cbn [walk]. cbn [length walk] in Hfree. rewrite Hch in Hfree |- *.
      destruct (IH (p ++ [i]) (pte_ppn (m t i)) m a fs) as (t' & m' & a' & fs' & E & Hext & Hw' & Hsz & Heq);
        [done|done| |lia|destruct Hfree; [by left|right; lia]|].
      { by rewrite walk_snoc, Ht, Hch. }
      rewrite Elen in E. exists t', m', a', fs'. rewrite <- app_assoc in Hw', Hext.
      split; [done|]. split; [done|]. split; [done|]. split; [cbn; lia|done].
Qed.

End Create.

(** ** The page table as a map from page numbers to entries *)

Section Refinement.
Context {C : ConstantsHal} {CL : ConstantsLaws C} {P : PageTableEntryHal} {L : PteLaws C P}.
Context {W : WalkHal} {V : PageLevelHal} {WL : WalkLaws C P L W V}.
Context {A : Type} {F : FrameAllocatorHal A} {FL : FrameAllocatorLaws C A}.
Context {R : Region}.

(** The pages of the region. *)
Definition reg_vpn (v : Z) : Prop := is_vpn v /\ region (hd 0 (VirtPageNum_indexes v)).

(** Directory path and last index of a page. *)
Definition dir_path (vpn : Z) : list Z := removelast (VirtPageNum_indexes vpn).
Definition last_index (vpn : Z) : Z := List.last (VirtPageNum_indexes vpn) 0.

(** The abstract map: the entry a page resolves to. *)
Definition pt_lookup (m : pmem) (pt : PageTable) (vpn : Z) : option Z :=
  slot m (root_ppn pt) (dir_path vpn) (last_index vpn).

Lemma indexes_split vpn :
  reg_vpn vpn ->
  VirtPageNum_indexes vpn = dir_path vpn ++ [last_index vpn] /\
  length (dir_path vpn) = (PG_LEVEL - 1)%nat.
Proof.
  intros [Hv _]. destruct (indexes_spec vpn Hv) as (Hl & _ & _). pose proof wl_levels.
  assert (E : VirtPageNum_indexes vpn = dir_path vpn ++ [last_index vpn]).
  { apply app_removelast_last. intros E. rewrite E in Hl. cbn in Hl. lia. }
  split; [done|]. rewrite E, length_app in Hl. cbn in Hl. lia.
Qed.

Lemma reg_path vpn : reg_vpn vpn -> region (hd (last_index vpn) (dir_path vpn)).
Proof.
  intros Hv. destruct (indexes_split vpn Hv) as [E _]. destruct Hv as [_ Hr]. rewrite E in Hr.
  by destruct (dir_path vpn).
Qed.

Lemma path_inj v w :
  reg_vpn v -> reg_vpn w -> (dir_path v, last_index v) = (dir_path w, last_index w) -> v = w.
Proof.
  intros Hv Hw [= E1 E2]. apply indexes_inj; [apply Hv|apply Hw|].
  rewrite (proj1 (indexes_split v Hv)), (proj1 (indexes_split w Hw)). by rewrite E1, E2.
Qed.

Lemma find_pte_lookup m a pt vpn :
  pt_inv m a (root_ppn pt) -> reg_vpn vpn ->
  (exists t, find_pte m pt vpn = Ret (Some (t, last_index vpn, (PG_LEVEL - 1)%nat)) /\
     walk m (root_ppn pt) (dir_path vpn) = Some t /\ pt_lookup m pt vpn = Some (m t (last_index vpn))) \/
  (find_pte m pt vpn = Ret None /\ pt_lookup m pt vpn = None).
Proof.
  intros Hinv Hv. destruct (indexes_split vpn Hv) as [E Hl]. pose proof wl_levels.
  unfold find_pte, pt_lookup, slot. rewrite E.
  pose proof (find_pte_loop_spec m a (root_ppn pt) Hinv (dir_path vpn) (last_index vpn) []
    (root_ppn pt) (reg_path vpn Hv) eq_refl) as Hs.
  cbn [length app] in Hs. rewrite Hs by lia. destruct (walk m _ (dir_path vpn)) as [t|]; [|by right].
  destruct (walk_absent (m t _)) as [[]|]; [by right|left|by right]. by exists t.
Qed.

Lemma lookup_wf m a pt vpn e :
  pt_inv m a (root_ppn pt) -> reg_vpn vpn -> pt_lookup m pt vpn = Some e -> pte_wf e.
Proof.
  intros Hinv Hv. destruct (find_pte_lookup m a pt vpn Hinv Hv) as [(t & _ & Hw & ->)|[_ ->]]; [|done].
  intros [= <-]. apply (pti_entry m a _ Hinv (dir_path vpn)); [|done].
  destruct (indexes_split vpn Hv). unfold node. lia.
Qed.

Lemma store_lookup m a pt vpn t e v :
  pt_inv m a (root_ppn pt) -> reg_vpn vpn -> reg_vpn v -> pte_wf e ->
  walk m (root_ppn pt) (dir_path vpn) = Some t ->
  pt_lookup (mem_set m t (last_index vpn) e) pt v =
    if v =? vpn then match walk_absent e with Ret false => Some e | _ => None end
    else pt_lookup m pt v.
Proof.
  intros Hinv Hvpn Hv He Hw. destruct (indexes_split vpn Hvpn) as [_ Hl].
  destruct (indexes_split v Hv) as [_ Hlv].
  unfold pt_lookup. rewrite (store_slot m a (root_ppn pt) Hinv (dir_path vpn)) by done.
  destruct (decide _) as [E|Hne].
  - apply path_inj in E; try done. by rewrite E, Z.eqb_refl.
  - destruct (Z.eqb_spec v vpn) as [->|]; [done|done].
Qed.

Lemma leaf_lowest m a pt vpn e :
  pt_inv m a (root_ppn pt) -> reg_vpn vpn -> pt_lookup m pt vpn = Some e ->
  v_valid (pte_view_of e) = true ->
  pt_translate_vpn m pt vpn = Ret (Some (wadd (v_ppn (pte_view_of e)) 0)) /\
  forall va, VirtAddr_floor va = vpn ->
    pt_translate_va m pt va =
      Ret (Some (wadd (PhysPageNum_start_addr (v_ppn (pte_view_of e))) (va mod PAGE_SIZE))).
Proof.
  intros Hinv Hv El Hval. pose proof (lookup_wf m a pt vpn e Hinv Hv El) as He.
  destruct (find_pte_lookup m a pt vpn Hinv Hv) as [(t & Ef & _ & El')|[_ El']]; [|congruence].
  rewrite El in El'. injection El' as ->.
  destruct (wl_level (PG_LEVEL - 1)) as (l & El' & Hl); [pose proof wl_levels; lia|].
  assert (Hc : page_count l = 1) by (apply wl_lowest_count; by apply Hl).
  split.
  - unfold pt_translate_vpn. rewrite Ef. cbn [obind]. rewrite pte_valid_view, Hval by done.
    cbn [obind negb]. rewrite El'. cbn [obind]. by rewrite Hc, Z.mod_1_r, pte_ppn_view.
  - intros va <-. unfold pt_translate_va. rewrite Ef. cbn [obind].
    rewrite pte_valid_view, Hval by done. cbn [obind negb]. rewrite El'. cbn [obind].
    by rewrite Hc, Z.mul_1_l, pte_ppn_view.
Qed.

Lemma pt_new_in_spec m a :
  fa_wf a -> fa_free a <> ∅ ->
  exists f m' a', pt_new_in m a = Ret (mkPT f [mkRange f (f + 1)], (m', a')) /\ pt_inv m' a' f /\
    (f ∈ fa_free a /\ fa_free a' = fa_free a ∖ {[f]}) /\
    (forall v, pt_lookup m' (mkPT f [mkRange f (f + 1)]) v = None) /\
    (forall q u, walk m' f q = Some u -> u = f) /\ (forall u k, u <> f -> m' u k = m u k).
Proof.
  intros Hw Hne. destruct (alloc_tracker_one a Hw Hne) as (f & a' & E & Hf & Hw' & Hfr & _).
  unfold pt_new_in. rewrite E. cbn [unwrap obind r_start]. do 3 eexists. split; [done|].
  set (m' := mem_zero m (mkRange f (f + 1))).
  assert (Hz : forall i, m' f i = 0) by (intros i; unfold m'; by rewrite mem_zero_one, Z.eqb_refl).
  assert (Hwalk : forall p t, walk m' f p = Some t -> p = [] /\ t = f).
  { intros [|i p] t; cbn; [by intros [= <-]|]. by rewrite (child_zero m' f i). }
  assert (Hinv : pt_inv m' a' f).
  { constructor; [done|..].
    - intros p t _ Ew. apply Hwalk in Ew as [-> ->]. rewrite Hfr. set_solver.
    - intros p q t _ _ E1 E2. apply Hwalk in E1 as [-> _], E2 as [-> _]. done.
    - intros p t i _ Ew. apply Hwalk in Ew as [-> ->]. rewrite Hz. apply wl_zero.
    - intros p t i _ _ Ew. apply Hwalk in Ew as [-> ->]. rewrite Hz.
      by destruct wl_zero as [_ ->]. }
  split; [done|]. split; [done|]. split; [|split].
  - intros v. unfold pt_lookup, slot. cbn [root_ppn].
    destruct (walk m' f (dir_path v)) eqn:Ew; [|done].
    apply Hwalk in Ew as [_ ->]. rewrite Hz. by destruct wl_zero as [_ ->].
  - intros q u Ew. by apply Hwalk in Ew as [_ ->].
  - intros u k Hu. unfold m'. rewrite mem_zero_one. by zcmp.
Qed.

(** What [map] does to memory and the allocator besides the mapping. *)
Record pt_grows (path : list Z) (m m' : pmem) (a a' : A) (pt pt' : PageTable) : Prop := {
  pg_root : root_ppn pt' = root_ppn pt;
  pg_inv : pt_inv m' a' (root_ppn pt');
  pg_tracked q u : node q -> walk m' (root_ppn pt) q = Some u ->
    walk m (root_ppn pt) q = Some u \/
    mkRange u (u + 1) ∈ pt_frames pt' /\ u ∈ fa_free a /\ u ∉ fa_free a';
  pg_mem u k : m' u k = m u k \/ u ∈ fa_free a /\ u ∉ fa_free a' \/
    exists q, q `prefix_of` path /\ node q /\ walk m (root_ppn pt) q = Some u;
  pg_mono q u : node q -> walk m (root_ppn pt) q = Some u -> walk m' (root_ppn pt) q = Some u;
  pg_free : fa_free a' ⊆ fa_free a /\ fa_managed a' = fa_managed a;
  pg_size : (size (fa_free a) <= size (fa_free a') + (PG_LEVEL - 1))%nat;
}.

Lemma pt_map_spec m a pt vpn ppn perm level :
  pt_inv m a (root_ppn pt) -> reg_vpn vpn -> is_ppn C ppn -> is_perm perm ->
  lowest level = true ->
  walk m (root_ppn pt) (dir_path vpn) <> None \/ (PG_LEVEL - 1 <= size (fa_free a))%nat ->
  exists t m' a' pt',
    pt_map m a pt vpn ppn perm level = Ret (Ok (t, last_index vpn), (m', a', pt')) /\
    pt_grows (dir_path vpn) m m' a a' pt pt' /\ (walk m (root_ppn pt) (dir_path vpn) <> None -> a' = a) /\
    walk m' (root_ppn pt) (dir_path vpn) = Some t /\
    m' t (last_index vpn) = leaf_entry ppn perm /\
    (forall v, reg_vpn v -> pt_lookup m' pt' v =
       if v =? vpn then Some (leaf_entry ppn perm) else pt_lookup m pt v).
Proof.
  intros Hinv Hvpn Hppn Hperm Hlow Hfree. pose proof wl_levels.
  destruct (indexes_split vpn Hvpn) as [E Hl].
  destruct (find_pte_create_loop_spec level (root_ppn pt) (last_index vpn) (dir_path vpn) []
    (root_ppn pt) m a (pt_frames pt)) as (t & m' & a' & fs' & Ec & Hext & Hw & Hsz & Heq);
    [done|by apply reg_path|done..|cbn; lia|destruct Hfree; [by left|right; lia]|].
  pose proof Hext as [Hinv' Hslot Htr _ Hmem Hmono [Hfr Hmg]].
  cbn [length app] in Ec, Hw, Hmem. destruct (wl_leaf ppn perm Hppn Hperm) as (He & Hab & Hv).
  set (e := leaf_entry ppn perm) in *. assert (Hnode : node (dir_path vpn)) by (unfold node; lia).
  exists t, (mem_set m' t (last_index vpn) e), a', (mkPT (root_ppn pt) fs').
  assert (Hwk : forall q, node q -> walk (mem_set m' t (last_index vpn) e) (root_ppn pt) q =
    walk m' (root_ppn pt) q) by (intros; by apply (store_walk m' a' _ Hinv' (dir_path vpn))).
  split; [|split; [|split; [exact Heq|split; [|split]]]].
  - unfold pt_map, find_pte_create. rewrite Hlow, wl_lowest_ok, E. cbn [guard_panic].
    rewrite Ec. done.
  - constructor; cbn [root_ppn pt_frames]; try done; [by apply (store_inv m' a' _ Hinv' (dir_path vpn))| | | |lia].
    + intros q u Hq. rewrite Hwk by done. by apply Htr.
    + intros u k. destruct (decide ((u, k) = (t, last_index vpn))) as [[= -> ->]|Hne].
      * right. destruct (Htr _ _ Hnode Hw) as [Ew|(_ & ? & ?)]; [right|by left].
        by exists (dir_path vpn).
      * rewrite mem_set_other by done. apply Hmem.
    + intros q u Hq Eq. rewrite Hwk by done. by apply Hmono.
  - by rewrite Hwk.
  - apply mem_set_same.
  - intros v Hv'. rewrite (store_lookup m' a') by done. rewrite Hab. unfold pt_lookup.
    cbn [root_ppn]. by rewrite Hslot by apply (indexes_split v Hv').
Qed.

(** ** Framing: what leaves a page table alone *)

Definition table_of (m : pmem) (root u : Z) : Prop := exists q, node q /\ walk m root q = Some u.

Lemma walk_frame m m' root :
  (forall u k, table_of m root u -> m' u k = m u k) ->
  forall q, node q -> walk m' root q = walk m root q.
Proof.
  intros Hm q. induction q as [|i q IH] using rev_ind; intros Hq; [done|].
  pose proof (node_init q i Hq) as Hq'. rewrite !walk_snoc, (IH Hq').
  destruct (walk m root q) as [t|] eqn:Ew; [|done]. apply child_eq, Hm. by exists q.
Qed.

(** A change outside the tables keeps the invariant and every mapping. *)
Lemma pt_frame m m' a a' root :
  pt_inv m a root -> fa_wf a' -> (forall u, table_of m root u -> u ∉ fa_free a') ->
  (forall u k, table_of m root u -> m' u k = m u k) ->
  pt_inv m' a' root /\ (forall u, table_of m' root u <-> table_of m root u).
Proof.
  intros Hinv Hw Hfr Hm. pose proof (walk_frame m m' root Hm) as Hwk. split.
  - constructor; [done|..].
    + intros q t Hq E. rewrite Hwk in E by done. apply Hfr. by exists q.
    + intros q1 q2 t H1 H2 E1 E2. rewrite Hwk in E1, E2 by done.
      by apply (pti_tree m a root Hinv q1 q2 t).
    + intros q t i Hq E. rewrite Hwk in E by done. rewrite Hm by by exists q.
      by apply (pti_entry m a root Hinv q).
    + intros q t i Hreg Hq E. assert (node q) by (unfold node; lia). rewrite Hwk in E by done.
      rewrite Hm by by exists q. by apply (pti_no_super m a root Hinv q).
  - intros u. split; intros (q & Hq & E); exists q; (split; [done|]).
    + by rewrite <- Hwk.
    + by rewrite Hwk.
Qed.

Lemma lookup_frame m m' pt v :
  reg_vpn v -> (forall u k, table_of m (root_ppn pt) u -> m' u k = m u k) ->
  pt_lookup m' pt v = pt_lookup m pt v.
Proof.
  intros Hv Hm. unfold pt_lookup, slot. destruct (indexes_split v Hv) as [_ Hl].
  assert (Hn : node (dir_path v)) by (unfold node; lia).
  rewrite (walk_frame m m' _ Hm) by done. destruct (walk m _ (dir_path v)) as [t|] eqn:E; [|done].
  by rewrite Hm by by exists (dir_path v).
Qed.

(** Updating the entry of a mapped page in place. *)
Lemma pt_store_spec m a pt vpn t e :
  pt_inv m a (root_ppn pt) -> reg_vpn vpn -> walk m (root_ppn pt) (dir_path vpn) = Some t ->
  pte_wf e -> v_valid (pte_view_of e) = true ->
  let m' := mem_set m t (last_index vpn) e in
  pt_inv m' a (root_ppn pt) /\
  (forall q, node q -> walk m' (root_ppn pt) q = walk m (root_ppn pt) q) /\
  (forall v, reg_vpn v -> pt_lookup m' pt v = if v =? vpn then Some e else pt_lookup m pt v).
Proof.
  intros Hinv Hv Ht He Hval m'. destruct (indexes_split vpn Hv) as [_ Hl]. split_and!.
  - by apply (store_inv m a _ Hinv (dir_path vpn)).
  - intros q Hq. by apply (store_walk m a _ Hinv (dir_path vpn)).
  - intros v Hv'. unfold m'. rewrite (store_lookup m a) by done. by rewrite wl_valid.
Qed.

(** [unmap], with what it changes in memory. *)
Lemma pt_unmap_spec m a pt vpn :
  pt_inv m a (root_ppn pt) -> reg_vpn vpn ->
  exists r m', pt_unmap m pt vpn = Ret (r, m') /\
    r = match pt_lookup m pt vpn with Some e => Ok e | None => Err tt end /\
    pt_inv m' a (root_ppn pt) /\
    (forall v, reg_vpn v -> pt_lookup m' pt v = if v =? vpn then None else pt_lookup m pt v) /\
    (forall q, node q -> walk m' (root_ppn pt) q = walk m (root_ppn pt) q) /\
    (forall u k, m' u k = m u k \/ walk m (root_ppn pt) (dir_path vpn) = Some u).
Proof.
  intros Hinv Hvpn. destruct wl_zero as [Hz Ha]. unfold pt_unmap.
  destruct (indexes_split vpn Hvpn) as [_ Hlen].
  destruct (find_pte_lookup m a pt vpn Hinv Hvpn) as [(t & -> & Hw & Hl)|[Ef Hl]]; rewrite Hl.
  - cbn [obind]. do 2 eexists. split; [done|]. split; [done|]. split_and!.
    + by apply (store_inv m a (root_ppn pt) Hinv (dir_path vpn)).
    + intros v Hv. rewrite (store_lookup m a) by done. by rewrite Ha.
    + intros q Hq. by apply (store_walk m a _ Hinv (dir_path vpn)).
    + intros u k. destruct (decide ((u, k) = (t, last_index vpn))) as [[= -> ->]|]; [by right|].
      left. by apply mem_set_other.
  - rewrite Ef. cbn [obind]. do 2 eexists. split_and!; try done; [|by left].
    intros v Hv. destruct (Z.eqb_spec v vpn) as [->|]; done.
Qed.

End Refinement.

Section PageTableClaims.
Context {C : ConstantsHal} {CL : ConstantsLaws C} {P : PageTableEntryHal} {L : PteLaws C P}.
Context {W : WalkHal} {V : PageLevelHal} {WL : WalkLaws C P L W V}.
Context {A : Type} {F : FrameAllocatorHal A} {FL : FrameAllocatorLaws C A}.
Context {R : Region}.

(** C1: [map] of a small page refines insertion into the abstract map.  On a
    well-formed table, and with a free frame for each directory level unless the
    page's tables exist already (then it takes none), it succeeds, the page resolves to the new entry and translates to the given
    frame, every other page resolves as before, the tables still form a tree of
    frames the allocator does not consider free, and every table it created is
    tracked for release. *)
Theorem pt_map_refines m a pt vpn ppn perm level :
  pt_inv m a (root_ppn pt) -> reg_vpn vpn -> is_ppn C ppn -> is_perm perm ->
  lowest level = true ->
  walk m (root_ppn pt) (dir_path vpn) <> None \/ (PG_LEVEL - 1 <= size (fa_free a))%nat ->
  exists t m' a' pt',
    pt_map m a pt vpn ppn perm level = Ret (Ok (t, last_index vpn), (m', a', pt')) /\
    root_ppn pt' = root_ppn pt /\ pt_inv m' a' (root_ppn pt') /\
    (walk m (root_ppn pt) (dir_path vpn) <> None -> a' = a) /\
    (forall v, reg_vpn v -> pt_lookup m' pt' v =
       if v =? vpn then Some (leaf_entry ppn perm) else pt_lookup m pt v) /\
    pt_translate_vpn m' pt' vpn = Ret (Some ppn) /\
    (forall q u, node q -> walk m' (root_ppn pt) q = Some u ->
       walk m (root_ppn pt) q = Some u \/ mkRange u (u + 1) ∈ pt_frames pt').
Proof.
  intros Hinv Hvpn Hppn Hperm Hlow Hfree.
  destruct (pt_map_spec m a pt vpn ppn perm level Hinv Hvpn Hppn Hperm Hlow Hfree)
    as (t & m' & a' & pt' & E & [Hroot Hinv' Htr _ _ _ _] & Heq & _ & _ & Hlook).
  destruct (wl_leaf ppn perm Hppn Hperm) as (_ & _ & Hv).
  exists t, m', a', pt'. split_and!; try done.
  - destruct (leaf_lowest m' a' pt' vpn (leaf_entry ppn perm)) as [-> _]; try done.
    + by rewrite Hlook, Z.eqb_refl.
    + by rewrite Hv.
    + rewrite Hv. cbn [v_ppn]. rewrite wadd_small; [by rewrite Z.add_0_r|].
      rewrite Z.add_0_r. by apply ppn_usize.
  - intros q u Hq Eq. destruct (Htr q u Hq Eq) as [|(? & _)]; [by left|by right].
Qed.

(** C2: [unmap] refines deletion: it returns the entry the page resolved to and
    the page then resolves to nothing, or, for a page that is not mapped,
    reports the error and changes nothing.  No other page is affected and it
    never panics. *)
Theorem pt_unmap_refines m a pt vpn :
  pt_inv m a (root_ppn pt) -> reg_vpn vpn ->
  exists r m', pt_unmap m pt vpn = Ret (r, m') /\
    r = match pt_lookup m pt vpn with Some e => Ok e | None => Err tt end /\
    pt_inv m' a (root_ppn pt) /\ pt_translate_vpn m' pt vpn = Ret None /\
    forall v, reg_vpn v -> pt_lookup m' pt v = if v =? vpn then None else pt_lookup m pt v.
Proof.
  intros Hinv Hvpn.
  destruct (pt_unmap_spec m a pt vpn Hinv Hvpn) as (r & m' & E & Er & Hinv' & Hlook & _).
  exists r, m'. split_and!; try done. unfold pt_translate_vpn.
  destruct (find_pte_lookup m' a pt vpn Hinv' Hvpn) as [(t & _ & _ & E')|[-> _]]; [|done].
  by rewrite Hlook, Z.eqb_refl in E'.
Qed.

(** Address translation agrees with the map and keeps the page offset: an
    address of a page mapped by a valid entry goes to the entry's frame at the
    same offset, an address of an unmapped page to nothing. *)
Theorem pt_translate_va_spec m a pt va :
  pt_inv m a (root_ppn pt) -> canonical va -> reg_vpn (VirtAddr_floor va) ->
  (forall e, pt_lookup m pt (VirtAddr_floor va) = Some e -> v_valid (pte_view_of e) = true ->
     is_ppn C (v_ppn (pte_view_of e)) ->
     pt_translate_va m pt va =
       Ret (Some (v_ppn (pte_view_of e) * 4096 + VirtAddr_page_offset va))) /\
  (pt_lookup m pt (VirtAddr_floor va) = None -> pt_translate_va m pt va = Ret None).
Proof.
  intros Hinv Hva Hv. split.
  - intros e El Hval Hn. destruct (leaf_lowest m a pt _ e Hinv Hv El Hval) as [_ Ht].
    rewrite Ht by done. rewrite page_offset_mod, page_size_val. do 2 f_equal.
    unfold PhysPageNum_start_addr, wshl. rewrite page_size_bits, Z.shiftl_mul_pow2 by lia.
    change (2 ^ 12) with 4096. unfold is_ppn in Hn. pose proof pa_width_bounds.
    rewrite page_size_bits in *.
    assert (2 ^ PPN_WIDTH * 4096 <= 2 ^ 63).
    { change 4096 with (2 ^ 12). pose proof ppn_width_range. rewrite <- Z.pow_add_r by lia.
      apply Z.pow_le_mono_r; [lia|]. unfold PPN_WIDTH. rewrite page_size_bits. lia. }
    assert (0 <= va mod 4096 < 4096) by (apply Z.mod_pos_bound; lia).
    rewrite (wrap_small (_ * _)) by (unfold is_usize; lia).
    rewrite wadd_small by (unfold is_usize; lia). done.
  - intros El. unfold pt_translate_va.
    destruct (find_pte_lookup m a pt _ Hinv Hv) as [(t & _ & _ & E)|[-> _]]; [congruence|done].
Qed.

(** A new page table maps nothing and satisfies the invariant, whatever the
    memory held before: the root frame is zeroed. *)
Theorem pt_new_in_empty m a :
  fa_wf a -> fa_free a <> ∅ ->
  exists pt m' a', pt_new_in m a = Ret (pt, (m', a')) /\ pt_inv (R := whole_region) m' a' (root_ppn pt) /\
    pt_frames pt = [mkRange (root_ppn pt) (root_ppn pt + 1)] /\
    forall v, is_vpn v -> pt_lookup m' pt v = None /\ pt_translate_vpn m' pt v = Ret None.
Proof.
  intros Hw Hne.
  destruct (pt_new_in_spec (R := whole_region) m a Hw Hne) as (f & m' & a' & E & Hinv & _ & El & _).
  do 3 eexists. split; [exact E|]. split; [done|]. split; [done|]. intros v Hv.
  split; [by apply El|]. unfold pt_translate_vpn.
  destruct (find_pte_lookup m' a' (mkPT f [mkRange f (f + 1)]) v Hinv (conj Hv I))
    as [(t & _ & _ & E')|[-> _]]; [|done]. by rewrite El in E'.
Qed.

End PageTableClaims.

(** ** Concrete runs *)

(** Sixteen frames of RISC-V memory above the kernel. *)
Definition small : BitMapFrameAllocator (B := set_alloc) :=
  init_frame_allocator (C := riscv64) 0xffffffc0bfff0000.

Definition small_laws : FrameAllocatorLaws riscv64 (BitMapFrameAllocator (B := set_alloc)) :=
  FrameAllocator_laws.

Lemma small_wf : bm_wf (C := riscv64) small /\ bm_free small = frames_of (mkRange 0xbfff0 0xc0000).
Proof.
  destruct (bm_init_spec (C := riscv64) (B := set_alloc)
    (mkRange (PhysAddr_from (CH := riscv64) (Z.land 0xffffffc0bfff0000
       (wnot (r_start (@KERNEL_ADDR_SPACE riscv64))))) (PhysAddr_from (CH := riscv64)
       (@MEMORY_END riscv64)))) as (Hw & _ & Hf); [by vm_compute..|].
  split; [exact Hw|exact Hf].
Qed.

Lemma small_nonempty : bm_free small <> ∅.
Proof.
  rewrite (proj2 small_wf). intros E. assert (H : 0xbfff0 ∈ (∅ : gset Z)).
  { rewrite <- E. apply elem_of_frames. by vm_compute. }
  set_solver.
Qed.

(** A fresh table over any memory, with frames to spare. *)
Lemma small_table m0 :
  exists f m a, pt_inv (C := riscv64) (L := rv_laws) (W := rv_walk) (FL := small_laws) (R := user_region) m a f /\
    (15 <= size (bm_free a))%nat /\ bm_free a ⊆ frames_of (mkRange 0xbfff0 0xc0000) /\
    0xbfff0 <= f < 0xc0000 /\
    (forall v, pt_lookup (C := riscv64) (P := rv_pte) (W := rv_walk) m (mkPT f [mkRange f (f + 1)]) v = None) /\
    (forall q u, walk (P := rv_pte) (W := rv_walk) m f q = Some u -> u = f) /\
    (forall u k, u <> f -> m u k = m0 u k).
Proof.
  destruct small_wf as [Hw Hf].
  destruct (pt_new_in_spec (WL := rv_walk_laws) (FL := small_laws) (R := user_region)
    m0 small Hw small_nonempty) as (f & m & a & _ & Hi & (Hin & Hfr) & Hl & Ht & Hm).
  change (fa_free a) with (bm_free a) in Hfr. change (fa_free small) with (bm_free small) in *.
  rewrite Hf in Hin, Hfr.
  exists f, m, a. split; [exact Hi|]. split; [|split; [|split; [|split; [exact Hl|exact (conj Ht Hm)]]]].
  - apply singleton_subseteq_l in Hin. rewrite Hfr, size_difference, size_singleton by exact Hin.
    pose proof (size_frames (mkRange 0xbfff0 0xc0000)) as Hs. cbn in Hs. lia.
  - rewrite Hfr. intros x Hx. apply elem_of_difference in Hx. apply Hx.
  - by apply elem_of_frames in Hin.
Qed.

Lemma pt_new_in_empty_witness :
  exists pt m a, pt_new_in (fun _ _ => usize_max) small = Ret (pt, (m, a)) /\
    rv_translate_vpn m pt 0x80200 = Ret None.
Proof.
  destruct small_wf as [Hw _].
  destruct (pt_new_in_empty (WL := rv_walk_laws) (FL := small_laws)
    (fun _ _ => usize_max) small Hw small_nonempty) as (pt & m & a & E & _ & _ & Hl).
  exists pt, m, a. split; [exact E|]. apply Hl. by vm_compute.
Defined.

Lemma pt_map_refines_witness :
  exists m (a : BitMapFrameAllocator (B := set_alloc)) pt t m' a' pt',
    rv_map m a pt 0x10 0x80300 5 rv_Small =
      Ret (Ok (t, 16), (m', a', pt')) /\
    rv_translate_vpn m' pt' 0x10 = Ret (Some 0x80300).
Proof.
  destruct (small_table (fun _ _ => usize_max)) as (f & m & a & Hi & Hs & _).
  destruct (pt_map_refines (WL := rv_walk_laws) (FL := small_laws) (R := user_region) m a (mkPT f [mkRange f (f + 1)]) 0x10 0x80300 5 rv_Small)
    as (t & m' & a' & pt' & E & _ & _ & _ & _ & Ht & _);
    [done|by vm_compute..|right; etransitivity; [|exact Hs]; cbn; lia|].
  do 7 eexists. split; [exact E|exact Ht].
Defined.

Lemma pt_unmap_refines_witness :
  exists m pt, rv_unmap m pt 0x10 = Ret (Err tt, m).
Proof.
  destruct (small_table (fun _ _ => usize_max)) as (f & m & a & Hi & _ & _ & _ & Hl & _).
  destruct (pt_unmap_refines (WL := rv_walk_laws) (FL := small_laws) (R := user_region) m a (mkPT f [mkRange f (f + 1)]) 0x10)
    as (r & m' & E & Hr & _); [exact Hi|by vm_compute|].
  exists m, (mkPT f [mkRange f (f + 1)]). rewrite Hl in Hr.
  subst r. unfold rv_unmap, pt_unmap in *. destruct (find_pte m _ 0x10) as [[[[t i] l]|]|]; try done.
Defined.

Lemma pt_translate_va_spec_witness :
  exists m pt, rv_translate_va m pt 0x10123 = Ret None.
Proof.
  destruct (small_table (fun _ _ => usize_max)) as (f & m & a & Hi & _ & _ & _ & Hl & _).
  exists m, (mkPT f [mkRange f (f + 1)]).
  apply (pt_translate_va_spec (WL := rv_walk_laws) (FL := small_laws) (R := user_region) m a); [exact Hi|left; by vm_compute|by vm_compute|].
  apply Hl.
Defined.

(** ** Tokens and ranges of pages *)

(** The token written to the translation register determines the root: on
    either architecture [from_token] of [get_token] gives the same root frame,
    for every frame number the architecture has. *)
Theorem page_table_token_roundtrip pt :
  (is_ppn riscv64 (root_ppn pt) -> root_ppn (rv_from_token (rv_get_token pt)) = root_ppn pt) /\
  (is_ppn loongarch64 (root_ppn pt) -> root_ppn (la_from_token (la_get_token pt)) = root_ppn pt).
Proof.
  destruct pt as [r fs]. cbn [root_ppn]. split; intros Hr.
  - change (is_ppn riscv64 r) with (0 <= r < 2 ^ 44) in Hr.
    unfold rv_from_token, rv_get_token. cbn [root_ppn].
    change (@PPN_WIDTH riscv64) with 44. rewrite mask_mod by lia.
    change (wshl 8 60) with (2 ^ 63).
    rewrite lor_disjoint.
    + rewrite Z.add_mod, Z.mod_small by (rewrite ?Z.add_0_l; try apply Z.mod_pos_bound; lia).
      change (2 ^ 63 mod 2 ^ 44) with 0. rewrite Z.add_0_l. apply Z.mod_small. lia.
    + rewrite Z.land_comm, land_pow2, (testbit_above r 44) by lia. done.
  - change (is_ppn loongarch64 r) with (0 <= r < 2 ^ 36) in Hr.
    unfold la_from_token, la_get_token, PhysPageNum_start_addr, wshl. cbn [root_ppn].
    change (@PAGE_SIZE_BITS loongarch64) with 12.
    change (r_start (@KERNEL_ADDR_SPACE loongarch64)) with 0x9000000000000000.
    rewrite Z.shiftl_mul_pow2, wrap_small by (unfold is_usize; lia).
    assert (E : Z.land (r * 2 ^ 12) (wnot 0x9000000000000000) = r * 2 ^ 12).
    { apply Z.bits_inj'. intros i Hi. rewrite Z.land_spec, wnot_testbit by (done || by vm_compute).
      change 0x9000000000000000 with (Z.lor (2 ^ 63) (2 ^ 60)).
      destruct (decide (i < 48)).
      - rewrite Z.lor_spec, !testbit_pow2_ne by lia. zcmp. by rewrite andb_true_r.
      - by rewrite (testbit_above (r * 2 ^ 12) 48) by lia. }
    rewrite E, Z.shiftr_div_pow2, Z.div_mul by lia. done.
Qed.

Lemma page_table_token_roundtrip_witness :
  is_ppn riscv64 0x80800 /\ rv_get_token (mkPT 0x80800 []) = 0x8000000000080800 /\
  root_ppn (rv_from_token (rv_get_token (mkPT 0x80800 []))) = 0x80800.
Proof.
  assert (H : is_ppn riscv64 0x80800) by by vm_compute. split; [done|]. split; [by vm_compute|].
  apply (page_table_token_roundtrip (mkPT 0x80800 [])). exact H.
Defined.

(** Iterating over a range of pages terminates and yields each page of the
    range once, in order, and no other; the fuel is the length of the range. *)
Theorem vpn_range_iter_exact `{CH : ConstantsHal} `{CL : !ConstantsLaws CH} r fuel :
  0 <= r_start r -> r_end r < 2 ^ VPN_WIDTH -> r_end r - r_start r <= Z.of_nat fuel ->
  VpnPageRangeIter_collect 1 fuel r = seqZ (r_start r) (r_end r - r_start r).
Proof.
  revert r. induction fuel as [|fuel IH]; intros r Hs He Hf; cbn [VpnPageRangeIter_collect].
  { by rewrite seqZ_nil by lia. }
  unfold VpnPageRangeIter_next, range_is_empty.
  destruct (Z.ltb_spec (r_start r) (r_end r)); cbn [negb]; [|by rewrite seqZ_nil by lia].
  pose proof vpn_width_range as Hw.
  assert (2 ^ VPN_WIDTH <= 2 ^ 63) by (apply Z.pow_le_mono_r; lia).
  assert (E : VirtPageNum_add (r_start r) 1 = r_start r + 1).
  { unfold VirtPageNum_add, VirtPageNum_from. rewrite mask_mod, wadd_small by (unfold is_usize; lia).
    apply Z.mod_small. lia. }
  rewrite E, IH by (cbn [r_start r_end]; lia). cbn [r_start r_end].
  rewrite (seqZ_cons (r_start r)) by lia. f_equal. f_equal; lia.
Qed.

Lemma vpn_range_iter_exact_witness :
  VpnPageRangeIter_collect (H := riscv64) 1 3 (mkRange 0x10 0x13) = [0x10; 0x11; 0x12].
Proof.
  rewrite (vpn_range_iter_exact (CH := riscv64) (mkRange 0x10 0x13) 3); by vm_compute.
Defined.
