(* ===== verification/RangeMap.v ===== *)
(** The range map (utils/range-map/src/lib.rs): a [BTreeMap] from range starts
    to nodes holding the range end and a value.  The tree is its list of entries
    in key order.  The abstract map sends every point to the entry whose range
    contains it; each operation is shown to be the corresponding operation on
    that map. *)

From S2P Require Import Prelude HalConst.

#[local] Open Scope Z_scope.

(** ** The parts of [BTreeMap] the range map uses *)

Section BTree.
Context {N : Type}.

(** [range(..hi).next_back()] *)
Fixpoint bt_last_lt (hi : Z) (t : list (Z * N)) : option (Z * N) :=
  match t with
  | [] => None
  | (s, n) :: t => if s <? hi then
      match bt_last_lt hi t with Some e => Some e | None => Some (s, n) end
      else None
  end.

(** [range(..=hi).next_back()] *)
Definition bt_last_le (hi : Z) (t : list (Z * N)) : option (Z * N) := bt_last_lt (hi + 1) t.

(** [range(lo..hi)], which panics on an inverted range. *)
Definition bt_range (lo hi : Z) (t : list (Z * N)) : outcome (list (Z * N)) :=
  if hi <? lo then Panic
  else Ret (List.filter (fun e => (lo <=? e.1) && (e.1 <? hi)) t).

Fixpoint bt_get (k : Z) (t : list (Z * N)) : option N :=
  match t with
  | [] => None
  | (s, n) :: t => if s =? k then Some n else bt_get k t
  end.

Fixpoint bt_insert (k : Z) (n : N) (t : list (Z * N)) : list (Z * N) :=
  match t with
  | [] => [(k, n)]
  | (s, n') :: t => if k <? s then (k, n) :: (s, n') :: t
                    else if k =? s then (k, n) :: t
                    else (s, n') :: bt_insert k n t
  end.

(** [try_insert]: an occupied key is an error. *)
Definition bt_try_insert (k : Z) (n : N) (t : list (Z * N)) : option (list (Z * N)) :=
  match bt_get k t with
  | Some _ => None
  | None => Some (bt_insert k n t)
  end.

Fixpoint bt_remove (k : Z) (t : list (Z * N)) : list (Z * N) :=
  match t with
  | [] => []
  | (s, n) :: t => if s =? k then t else (s, n) :: bt_remove k t
  end.

(** Assignment through [get_mut]. *)
Fixpoint bt_alter (k : Z) (f : N -> N) (t : list (Z * N)) : list (Z * N) :=
  match t with
  | [] => []
  | (s, n) :: t => if s =? k then (s, f n) :: t else (s, n) :: bt_alter k f t
  end.

End BTree.

(** ** The range map *)

Section RangeMap.
Context {V : Type}.

Record Node := mkNode { n_end : Z; n_value : V }.
Definition RangeMap := list (Z * Node).

(** The key type's [+ usize]. *)
Variable uadd : Z -> Z -> Z.

Definition rm_new : RangeMap := [].

Definition rm_try_insert (m : RangeMap) (range : Range) (value : V) : outcome (result RangeMap V) :=
  let clash :=
    match bt_last_lt (r_end range) m with
    | Some (_, n) => r_start range <? n_end n
    | None => false
    end in
  if clash then Ret (Err value)
  else
    let! m' := unwrap (bt_try_insert (r_start range) (mkNode (r_end range) value) m) in
    Ret (Ok m').

Definition rm_get_key_value (m : RangeMap) (key : Z) : option (Range * V) :=
  match bt_last_le key m with
  | Some (s, n) => if key <? n_end n then Some (mkRange s (n_end n), n_value n) else None
  | None => None
  end.

Definition rm_get (m : RangeMap) (key : Z) : option V :=
  match bt_last_le key m with
  | Some (_, n) => if key <? n_end n then Some (n_value n) else None
  | None => None
  end.

(** [get_mut] followed by an assignment through the reference. *)
Definition rm_get_mut (m : RangeMap) (key : Z) (f : V -> V) : option RangeMap :=
  match bt_last_le key m with
  | Some (s, n) =>
      if key <? n_end n then Some (bt_alter s (fun n => mkNode (n_end n) (f (n_value n))) m) else None
  | None => None
  end.

Fixpoint find_free_loop (size hi : Z) (last_end : Z) (es : RangeMap) : option Z :=
  match es with
  | [] => Some last_end
  | (n_start, node) :: es =>
      if uadd last_end size <=? n_start then Some last_end
      else if hi <? uadd (n_end node) size then None
      else find_free_loop size hi (n_end node) es
  end.

Definition rm_find_free_range (m : RangeMap) (range : Range) (size : Z) : outcome (option Range) :=
  let start := r_start range in
  if r_end range <? uadd start size then Ret None
  else
    let start :=
      match bt_last_le start m with
      | Some (n_start, node) => if start <? n_end node then Z.min start n_start else start
      | None => start
      end in
    let! es := bt_range start (r_end range) m in
    match find_free_loop size (r_end range) start es with
    | Some last_end => Ret (Some (mkRange last_end (uadd last_end size)))
    | None => Ret None
    end.

Definition rm_is_range_free (m : RangeMap) (range : Range) : outcome (result unit unit) :=
  if range_is_empty range then Ret (Err tt)
  else
    let taken :=
      match bt_last_le (r_start range) m with
      | Some (_, node) => r_start range <? n_end node
      | None => false
      end in
    if taken then Ret (Err tt)
    else
      let! es := bt_range (r_start range) (r_end range) m in
      match es with
      | [] => Ret (Ok tt)
      | _ :: _ => Ret (Err tt)
      end.

Definition rm_range_contain_key_value (m : RangeMap) (range : Range) : option (Range * V) :=
  match bt_last_le (r_start range) m with
  | Some (s, n) => if r_end range <=? n_end n then Some (mkRange s (n_end n), n_value n) else None
  | None => None
  end.

Definition rm_range_contain (m : RangeMap) (range : Range) : option V :=
  match bt_last_le (r_start range) m with
  | Some (_, n) => if r_end range <=? n_end n then Some (n_value n) else None
  | None => None
  end.

Definition rm_range_match (m : RangeMap) (range : Range) : option V :=
  match bt_last_le (r_start range) m with
  | Some (s, n) =>
      if (s =? r_start range) && (n_end n =? r_end range) then Some (n_value n) else None
  | None => None
  end.

Definition rm_force_remove_one (m : RangeMap) (range : Range) : outcome (V * RangeMap) :=
  let! n := unwrap (bt_get (r_start range) m) in
  assert! n_end n =? r_end range in
  Ret (n_value n, bt_remove (r_start range) m).

Definition rm_extend_back (m : RangeMap) (range : Range) : outcome (result RangeMap unit) :=
  let! node := unwrap (bt_get (r_start range) m) in
  let! free := rm_is_range_free m (mkRange (n_end node) (r_end range)) in
  match free with
  | Err e => Ret (Err e)
  | Ok _ => Ret (Ok (bt_alter (r_start range) (fun n => mkNode (r_end range) (n_value n)) m))
  end.

Definition rm_reduce_back (m : RangeMap) (range : Range) : outcome (result RangeMap unit) :=
  let! node := unwrap (bt_get (r_start range) m) in
  if (r_start range <=? r_end range) && (r_end range <? n_end node) then
    if r_start range =? r_end range then Ret (Ok (bt_remove (r_start range) m))
    else Ret (Ok (bt_alter (r_start range) (fun n => mkNode (r_end range) (n_value n)) m))
  else Ret (Err tt).

Definition rm_range_intersect_key_value (m : RangeMap) (range : Range) : option (Range * V) :=
  match bt_last_lt (r_end range) m with
  | Some (s, n) => if r_start range <? n_end n then Some (mkRange s (n_end n), n_value n) else None
  | None => None
  end.

Definition rm_range_intersect (m : RangeMap) (range : Range) : option V :=
  match bt_last_lt (r_end range) m with
  | Some (_, n) => if r_start range <? n_end n then Some (n_value n) else None
  | None => None
  end.

Definition rm_entry (e : Z * Node) : Range * V := (mkRange e.1 (n_end e.2), n_value e.2).

Definition rm_iter (m : RangeMap) : list (Range * V) := map rm_entry m.

Definition rm_range (m : RangeMap) (r : Range) : outcome (list (Range * V)) :=
  let! es := bt_range (r_start r) (r_end r) m in
  Ret (map rm_entry es).

End RangeMap.
Arguments Node V : clear implicits.
Arguments RangeMap V : clear implicits.

(** ** Invariant and abstract map *)

Section Facts.
Context {V : Type}.

(** Entries are non-empty, in order and disjoint, all from [lo] on. *)
Fixpoint rm_ok (lo : Z) (m : RangeMap V) : Prop :=
  match m with
  | [] => True
  | (s, n) :: m => lo <= s < n_end n /\ rm_ok (n_end n) m
  end.

(** The entry whose range contains the point. *)
Fixpoint rm_at (m : RangeMap V) (k : Z) : option (Range * V) :=
  match m with
  | [] => None
  | (s, n) :: m =>
      if (s <=? k) && (k <? n_end n) then Some (mkRange s (n_end n), n_value n) else rm_at m k
  end.

(** The point after the last entry. *)
Fixpoint rm_hi (lo : Z) (m : RangeMap V) : Z :=
  match m with
  | [] => lo
  | (_, n) :: m => rm_hi (n_end n) m
  end.

Lemma rm_ok_app lo m1 m2 : rm_ok lo (m1 ++ m2) <-> rm_ok lo m1 /\ rm_ok (rm_hi lo m1) m2.
Proof.
  revert lo. induction m1 as [|[s n] m1 IH]; intros lo; cbn; [tauto|]. rewrite IH. tauto.
Qed.

Lemma rm_ok_weaken lo lo' m : lo' <= lo -> rm_ok lo m -> rm_ok lo' m.
Proof. destruct m as [|[s n] m]; cbn; [done|]. intros ? [??]. split; [lia|done]. Qed.

Lemma rm_ok_bounds lo m :
  rm_ok lo m ->
  lo <= rm_hi lo m /\ forall s n, (s, n) ∈ m -> lo <= s < n_end n /\ n_end n <= rm_hi lo m.
Proof.
  revert lo. induction m as [|[s n] m IH]; intros lo; cbn.
  { intros _. split; [lia|]. intros s n H. by apply not_elem_of_nil in H. }
  intros [Hs Hm]. destruct (IH _ Hm) as [Hh Hin]. split; [lia|].
  intros s' n' [[= -> ->]|H]%elem_of_cons; [lia|]. specialize (Hin _ _ H). lia.
Qed.

Lemma rm_at_app m1 m2 k :
  rm_at (m1 ++ m2) k = match rm_at m1 k with Some r => Some r | None => rm_at m2 k end.
Proof.
  induction m1 as [|[s n] m1 IH]; cbn; [done|]. by destruct (_ && _).
Qed.

Lemma rm_at_range lo m k r v :
  rm_ok lo m -> rm_at m k = Some (r, v) -> lo <= r_start r <= k /\ k < r_end r <= rm_hi lo m.
Proof.
  revert lo. induction m as [|[s n] m IH]; intros lo; cbn; [done|]. intros [Hs Hm].
  pose proof (rm_ok_bounds _ _ Hm) as [Hh _].
  destruct (Z.leb_spec s k), (Z.ltb_spec k (n_end n)); cbn; intros E;
    first [injection E as <- <-; cbn; lia | specialize (IH _ Hm E); lia].
Qed.

Lemma rm_at_below lo m k : rm_ok lo m -> k < lo -> rm_at m k = None.
Proof.
  intros Hm Hk. destruct (rm_at m k) as [[r v]|] eqn:E; [|done].
  pose proof (rm_at_range _ _ _ _ _ Hm E). lia.
Qed.

Lemma rm_at_above lo m k : rm_ok lo m -> rm_hi lo m <= k -> rm_at m k = None.
Proof.
  intros Hm Hk. destruct (rm_at m k) as [[r v]|] eqn:E; [|done].
  pose proof (rm_at_range _ _ _ _ _ Hm E). lia.
Qed.

Lemma rm_ok_starts lo m : rm_ok lo m -> forall e, e ∈ m -> lo <= e.1.
Proof. intros Hm [s n] He. cbn. apply (rm_ok_bounds lo m Hm) in He. lia. Qed.

(** Entries that all start at or after [k] do not contain a point before [k]. *)
Lemma rm_at_late m k k' : (forall e, e ∈ m -> k <= e.1) -> k' < k -> rm_at m k' = None.
Proof.
  induction m as [|[s n] m IH]; cbn; [done|]. intros Hm Hk.
  pose proof (Hm (s, n) (list_elem_of_here _ _)). cbn in *.
  destruct (Z.leb_spec s k'); [lia|]. cbn. apply IH; [|done].
  intros e He. apply Hm. by apply list_elem_of_further.
Qed.

(** The search for the last entry below a key splits the list there. *)
Lemma bt_last_lt_spec lo hi m :
  rm_ok lo m ->
  (bt_last_lt hi m = None /\ (forall e, e ∈ m -> hi <= e.1)) \/
  (exists m1 s n m2, bt_last_lt hi m = Some (s, n) /\ m = m1 ++ (s, n) :: m2 /\ s < hi /\
     forall e, e ∈ m2 -> hi <= e.1).
Proof.
  revert lo. induction m as [|[s n] m IH]; intros lo Hm; cbn in *.
  { left. split; [done|]. intros e He. by apply not_elem_of_nil in He. }
  destruct Hm as [Hs Hm]. destruct (Z.ltb_spec s hi).
  - right. destruct (IH _ Hm) as [[-> Hge]|(m1 & s' & n' & m2 & -> & -> & Hlt & Hge)].
    + by exists [], s, n, m.
    + by exists ((s, n) :: m1), s', n', m2.
  - left. split; [done|]. intros e [->|He]%elem_of_cons; [done|].
    pose proof (rm_ok_starts _ _ Hm e He). lia.
Qed.

(** Tree operations at a key, given what lies on either side of it. *)
Lemma bt_get_skip k (m1 m2 : RangeMap V) :
  (forall e, e ∈ m1 -> e.1 <> k) -> bt_get k (m1 ++ m2) = bt_get k m2.
Proof.
  induction m1 as [|[s n] m1 IH]; cbn; [done|]. intros H.
  pose proof (H (s, n) (list_elem_of_here _ _)). cbn in *. zcmp. apply IH.
  intros e He. apply H. by apply list_elem_of_further.
Qed.

Lemma bt_insert_mid k n (m1 m2 : RangeMap V) :
  (forall e, e ∈ m1 -> e.1 < k) -> (forall e, e ∈ m2 -> k < e.1) ->
  bt_try_insert k n (m1 ++ m2) = Some (m1 ++ (k, n) :: m2).
Proof.
  intros H1 H2. unfold bt_try_insert. rewrite bt_get_skip by (intros e He; specialize (H1 e He); lia).
  assert (E : bt_get k m2 = None).
  { clear H1. induction m2 as [|[s n'] m2 IH]; cbn; [done|].
    pose proof (H2 (s, n') (list_elem_of_here _ _)). cbn in *. zcmp. apply IH.
    intros e He. apply H2. by apply list_elem_of_further. }
  rewrite E. f_equal. clear E. induction m1 as [|[s n'] m1 IH]; cbn.
  - destruct m2 as [|[s n'] m2]; cbn; [done|].
    pose proof (H2 (s, n') (list_elem_of_here _ _)). cbn in *. by zcmp.
  - pose proof (H1 (s, n') (list_elem_of_here _ _)). cbn in *. zcmp. f_equal. apply IH.
    intros e He. apply H1. by apply list_elem_of_further.
Qed.

Lemma bt_remove_mid k n (m1 m2 : RangeMap V) :
  (forall e, e ∈ m1 -> e.1 <> k) -> bt_remove k (m1 ++ (k, n) :: m2) = m1 ++ m2.
Proof.
  induction m1 as [|[s n'] m1 IH]; cbn; intros H; [by rewrite Z.eqb_refl|].
  pose proof (H (s, n') (list_elem_of_here _ _)). cbn in *. zcmp. f_equal. apply IH.
  intros e He. apply H. by apply list_elem_of_further.
Qed.

Lemma bt_alter_mid k f n (m1 m2 : RangeMap V) :
  (forall e, e ∈ m1 -> e.1 <> k) ->
  bt_alter k f (m1 ++ (k, n) :: m2) = m1 ++ (k, f n) :: m2.
Proof.
  induction m1 as [|[s n'] m1 IH]; cbn; intros H; [by rewrite Z.eqb_refl|].
  pose proof (H (s, n') (list_elem_of_here _ _)). cbn in *. zcmp. f_equal. apply IH.
  intros e He. apply H. by apply list_elem_of_further.
Qed.

Lemma bt_get_split k n (m : RangeMap V) :
  bt_get k m = Some n ->
  exists m1 m2, m = m1 ++ (k, n) :: m2 /\ forall e, e ∈ m1 -> e.1 <> k.
Proof.
  induction m as [|[s n'] m IH]; cbn; [done|]. destruct (Z.eqb_spec s k) as [->|Hne].
  - intros [= ->]. exists [], m. split; [done|]. intros e He. by apply not_elem_of_nil in He.
  - intros E. destruct (IH E) as (m1 & m2 & -> & H1). exists ((s, n') :: m1), m2.
    split; [done|]. intros e [->|He]%elem_of_cons; [done|by apply H1].
Qed.

(** Entries before a given one are below it. *)
Lemma rm_ok_mid lo m1 s n m2 :
  rm_ok lo (m1 ++ (s, n) :: m2) ->
  rm_ok lo m1 /\ rm_hi lo m1 <= s < n_end n /\ rm_ok (n_end n) m2 /\
  (forall e, e ∈ m1 -> e.1 < s) /\ lo <= rm_hi lo m1.
Proof.
  rewrite rm_ok_app. cbn. intros (H1 & Hs & H2). pose proof (rm_ok_bounds _ _ H1) as [Hh Hb].
  do 3 (split; [done|]). split; [|done].
  intros [s' n'] He. specialize (Hb s' n' He). cbn. lia.
Qed.

(** What the abstract map says around an entry. *)
Lemma rm_at_mid lo m1 s n m2 k :
  rm_ok lo (m1 ++ (s, n) :: m2) ->
  rm_at (m1 ++ (s, n) :: m2) k =
    if k <? s then rm_at m1 k
    else if k <? n_end n then Some (mkRange s (n_end n), n_value n)
    else rm_at m2 k.
Proof.
  intros Hm. destruct (rm_ok_mid _ _ _ _ _ Hm) as (H1 & Hs & H2 & _ & _).
  rewrite rm_at_app. cbn.
  destruct (Z.ltb_spec k s).
  - destruct (rm_at m1 k); [done|]. destruct (Z.leb_spec s k); [lia|]. cbn.
    apply (rm_at_below (n_end n)); [done|lia].
  - rewrite (rm_at_above lo m1) by (done || lia). destruct (Z.leb_spec s k); [|lia].
    by destruct (Z.ltb_spec k (n_end n)).
Qed.

Lemma rm_get_key_value_at lo m k : rm_ok lo m -> rm_get_key_value m k = rm_at m k.
Proof.
  intros Hm. unfold rm_get_key_value, bt_last_le.
  destruct (bt_last_lt_spec lo (k + 1) m Hm) as [[-> Hge]|(m1 & s & n & m2 & -> & -> & Hlt & Hge)].
  - symmetry. apply (rm_at_late m (k + 1)); [done|lia].
  - rewrite (rm_at_mid lo) by done. zcmp; [done|].
    symmetry. apply (rm_at_late m2 (k + 1)); [done|lia].
Qed.

End Facts.

(** ** Free space *)

Section Free.
Context {V : Type}.

Definition rm_free (m : RangeMap V) (a b : Z) : Prop := forall k, a <= k < b -> rm_at m k = None.

Lemma rm_at_some_in lo (m : RangeMap V) s n k :
  rm_ok lo m -> (s, n) ∈ m -> s <= k < n_end n -> rm_at m k = Some (mkRange s (n_end n), n_value n).
Proof.
  intros Hm Hin Hk. apply list_elem_of_split in Hin as (m1 & m2 & ->).
  rewrite (rm_at_mid lo) by done. by zcmp.
Qed.

(** A free interval lies on one side of every entry. *)
Lemma rm_free_side lo (m : RangeMap V) s n a b :
  rm_ok lo m -> (s, n) ∈ m -> a < b -> rm_free m a b -> b <= s \/ n_end n <= a.
Proof.
  intros Hm Hin Hab Hf. destruct (decide (b <= s)); [by left|].
  destruct (decide (n_end n <= a)); [by right|].
  pose proof (proj2 (rm_ok_bounds lo m Hm) s n Hin).
  specialize (Hf (Z.max a s)). rewrite (rm_at_some_in lo m s n) in Hf by (done || lia).
  discriminate Hf. lia.
Qed.

Lemma rm_free_of_side lo (m : RangeMap V) a b :
  rm_ok lo m -> (forall s n, (s, n) ∈ m -> b <= s \/ n_end n <= a) -> rm_free m a b.
Proof.
  revert lo. induction m as [|[s n] m IH]; intros lo; [done|].
  cbn. intros [Hs Hm] Hside k Hk. cbn.
  pose proof (Hside s n (list_elem_of_here _ _)).
  destruct (Z.leb_spec s k), (Z.ltb_spec k (n_end n)); cbn; try lia;
    (apply (IH (n_end n)); [done| |lia]; intros; by apply Hside, list_elem_of_further).
Qed.

(** Keeping the entries below [b] does not change the map below [b]. *)
Lemma rm_filter_below lo (m : RangeMap V) b :
  rm_ok lo m ->
  let es := List.filter (fun e => e.1 <? b) m in
  rm_ok lo es /\ (forall s n, (s, n) ∈ es <-> (s, n) ∈ m /\ s < b).
Proof.
  revert lo. induction m as [|[s n] m IH]; intros lo; cbn.
  { intros _. split; [done|]. intros s n. set_solver. }
  intros [Hs Hm]. destruct (IH _ Hm) as [Ho Hin]. destruct (Z.ltb_spec s b); cbn.
  - split; [done|]. intros s' n'. rewrite !elem_of_cons, Hin. split.
    + intros [[= -> ->]|?]; [split; [by left|done]|tauto].
    + tauto.
  - split; [by apply rm_ok_weaken with (n_end n); [lia|]|]. intros s' n'.
    rewrite elem_of_cons, Hin. split; [tauto|]. intros [[[= -> ->]|?] ?]; [lia|tauto].
Qed.

Lemma filter_between lo a b (m1 m2 : RangeMap V) :
  (forall e, e ∈ m1 -> e.1 < a) -> rm_ok lo m2 -> a <= lo ->
  List.filter (fun e => (a <=? e.1) && (e.1 <? b)) (m1 ++ m2) = List.filter (fun e => e.1 <? b) m2.
Proof.
  intros H1 H2 Hlo. rewrite List.filter_app.
  assert (E1 : List.filter (fun e : Z * Node V => (a <=? e.1) && (e.1 <? b)) m1 = []).
  { induction m1 as [|e m1 IH]; cbn; [done|].
    pose proof (H1 e (list_elem_of_here _ _)). destruct (Z.leb_spec a e.1); [lia|]. cbn.
    apply IH. intros e' He. apply H1. by apply list_elem_of_further. }
  rewrite E1. cbn. apply List.filter_ext_in. intros e He%list_elem_of_In.
  pose proof (rm_ok_starts lo m2 H2 e He). by destruct (Z.leb_spec a e.1); [|lia].
Qed.

Variable uadd : Z -> Z -> Z.

Lemma find_free_loop_spec size hi (es : RangeMap V) last_end :
  0 < size -> rm_ok last_end es ->
  last_end + size <= hi ->
  (forall z, last_end <= z <= Z.max hi (rm_hi last_end es) -> uadd z size = z + size) ->
  match find_free_loop uadd size hi last_end es with
  | Some x => last_end <= x /\ x + size <= hi /\ rm_free es x (x + size) /\
      forall y, last_end <= y -> y + size <= hi -> rm_free es y (y + size) -> x <= y
  | None => forall y, last_end <= y -> y + size <= hi -> ~ rm_free es y (y + size)
  end.
Proof.
  intros Hsz. revert last_end. induction es as [|[s n] es IH]; intros le Hok Hle Hadd; cbn.
  { split; [lia|]. split; [done|]. split; [by intros k _|lia]. }
  pose proof Hok as [Hs Hes]. pose proof (rm_ok_bounds _ _ Hes) as [Hh _]. cbn in Hadd.
  assert (Hside : forall y, le <= y -> rm_free ((s, n) :: es) y (y + size) ->
            y + size <= s \/ (n_end n <= y /\ rm_free es y (y + size))).
  { intros y Hy Hf. destruct (rm_free_side le ((s, n) :: es) s n y (y + size)) as [|Hr];
      [done|apply list_elem_of_here|lia|done|by left|right].
    split; [done|]. intros k Hk. specialize (Hf k Hk). cbn in Hf.
    destruct (Z.leb_spec s k), (Z.ltb_spec k (n_end n)); cbn in Hf; (lia || done). }
  rewrite Hadd by lia. destruct (Z.leb_spec (le + size) s).
  - split; [lia|]. split; [done|]. split; [|lia]. apply (rm_free_of_side le); [done|].
    intros s' n' [[= -> ->]|He]%elem_of_cons; [lia|].
    apply (rm_ok_bounds _ _ Hes) in He. lia.
  - rewrite Hadd by lia. destruct (Z.ltb_spec hi (n_end n + size)).
    + intros y Hy Hyh Hf. destruct (Hside y Hy Hf) as [|[??]]; lia.
    + specialize (IH (n_end n) Hes ltac:(lia) ltac:(intros; apply Hadd; lia)).
      destruct (find_free_loop uadd size hi (n_end n) es) as [x|].
      * destruct IH as (Hx & Hxh & Hf & Hmin). split; [lia|]. split; [done|]. split.
        -- intros k Hk. cbn. destruct (Z.leb_spec s k), (Z.ltb_spec k (n_end n)); cbn;
             (lia || by apply Hf).
        -- intros y Hy Hyh Hf'. destruct (Hside y Hy Hf') as [|[??]]; [lia|]. by apply Hmin.
      * intros y Hy Hyh Hf. destruct (Hside y Hy Hf) as [|[??]]; [lia|]. by apply (IH y).
Qed.

End Free.

(** ** The operations on the abstract map *)

Section Operations.
Context {V : Type}.
Implicit Types m : RangeMap V.

(** Ends of entries before the predecessor of [hi] are below it. *)
Lemma rm_free_below lo m1 s n m2 hi a :
  rm_ok lo (m1 ++ (s, n) :: m2) -> (forall e, e ∈ m2 -> hi <= e.1) -> n_end n <= a ->
  rm_free (m1 ++ (s, n) :: m2) a hi.
Proof.
  intros Hm Hge Ha k Hk. rewrite (rm_at_mid lo) by done.
  destruct (rm_ok_mid _ _ _ _ _ Hm) as (_ & Hs & _).
  zcmp. apply (rm_at_late m2 hi); [done|lia].
Qed.

Lemma rm_hi_snoc lo m s n : rm_hi lo (m ++ [(s, n)]) = n_end n.
Proof. revert lo. induction m as [|[s' n'] m IH]; intros lo; cbn; [done|apply IH]. Qed.

(** Inserting between a part of the map below [a] and one from [b] on. *)
Lemma rm_insert_between lo m1 m2 a b v :
  rm_ok lo (m1 ++ m2) -> rm_hi lo m1 <= a < b -> (forall e, e ∈ m2 -> b <= e.1) ->
  let m' := m1 ++ (a, mkNode b v) :: m2 in
  bt_try_insert a (mkNode b v) (m1 ++ m2) = Some m' /\ rm_ok lo m' /\ rm_free (m1 ++ m2) a b /\
  forall k, rm_at m' k =
    if (a <=? k) && (k <? b) then Some (mkRange a b, v) else rm_at (m1 ++ m2) k.
Proof.
  intros Hm Hhi Hge m'. apply rm_ok_app in Hm as [H1 H2].
  pose proof (rm_ok_bounds _ _ H1) as [Hlo H1b].
  assert (Hf1 : forall k, a <= k -> rm_at m1 k = None)
    by (intros k Hk; apply (rm_at_above lo); [done|lia]).
  assert (Hf2 : forall k, k < b -> rm_at m2 k = None)
    by (intros k Hk; by apply (rm_at_late m2 b)).
  split; [|split; [|split]].
  - apply bt_insert_mid; [|intros e He; specialize (Hge e He); lia].
    intros [s' n'] He. specialize (H1b s' n' He). cbn. lia.
  - apply rm_ok_app. split; [done|]. cbn. split; [lia|]. destruct m2 as [|[s2 n2] m2]; [done|].
    destruct H2 as [? H2]. pose proof (Hge (s2, n2) (list_elem_of_here _ _)). cbn in *.
    split; [lia|done].
  - intros k Hk. rewrite rm_at_app, Hf1 by lia. apply Hf2. lia.
  - intros k. unfold m'. rewrite !rm_at_app. cbn.
    destruct (Z.leb_spec a k), (Z.ltb_spec k b); cbn; try done. by rewrite Hf1 by lia.
Qed.

Lemma rm_try_insert_spec lo m r v :
  rm_ok lo m -> lo <= r_start r < r_end r ->
  (exists m', rm_try_insert m r v = Ret (Ok m') /\ rm_ok lo m' /\
     rm_free m (r_start r) (r_end r) /\
     forall k, rm_at m' k =
       if (r_start r <=? k) && (k <? r_end r) then Some (r, v) else rm_at m k) \/
  (rm_try_insert m r v = Ret (Err v) /\ ~ rm_free m (r_start r) (r_end r)).
Proof.
  intros Hm Hr. destruct r as [a b]. cbn in Hr |- *. unfold rm_try_insert. cbn [r_start r_end].
  destruct (bt_last_lt_spec lo b m Hm) as [[-> Hge]|(m1 & s & n & m2 & -> & E & Hlt & Hge)].
  - left. destruct (rm_insert_between lo [] m a b v) as (Hi & ?); [done|cbn; lia|done|].
    cbn [app] in Hi. rewrite Hi. by eexists.
  - destruct (Z.ltb_spec a (n_end n)).
    + right. split; [done|]. intros Hf.
      destruct (rm_free_side lo m s n a b) as [|]; [done|rewrite E; set_solver|lia|done|lia|lia].
    + left. rewrite (cons_middle (s, n) m1 m2), app_assoc in E. subst m.
      destruct (rm_insert_between lo (m1 ++ [(s, n)]) m2 a b v) as (Hi & ?);
        [done|rewrite rm_hi_snoc; lia|done|].
      rewrite Hi. by eexists.
Qed.

Lemma rm_hi_in lo m : rm_hi lo m = lo \/ exists s n, (s, n) ∈ m /\ rm_hi lo m = n_end n.
Proof.
  destruct m as [|[s n] m _] using rev_ind; [by left|]. right. exists s, n.
  rewrite rm_hi_snoc. split; [set_solver|done].
Qed.

(** Either an entry contains [a], or the map splits into a part below [a] and a
    part above it. *)
Lemma rm_split_at lo m a :
  rm_ok lo m -> lo <= a ->
  (exists m1 s n m2, m = m1 ++ (s, n) :: m2 /\ bt_last_le a m = Some (s, n) /\ s <= a < n_end n) \/
  (exists m1 m2, m = m1 ++ m2 /\ rm_hi lo m1 <= a /\ (forall e, e ∈ m2 -> a < e.1) /\ rm_ok a m2 /\
     (bt_last_le a m = None \/ exists s n, bt_last_le a m = Some (s, n) /\ n_end n <= a)).
Proof.
  intros Hm Ha. unfold bt_last_le.
  assert (Hok : forall m1 m2, m = m1 ++ m2 -> (forall e, e ∈ m2 -> a + 1 <= e.1) -> rm_ok a m2).
  { intros m1 m2 -> Hge. apply rm_ok_app in Hm as [_ H2]. destruct m2 as [|[s2 n2] m2]; [done|].
    destruct H2 as [? H2]. pose proof (Hge (s2, n2) (list_elem_of_here _ _)). cbn in *.
    split; [lia|done]. }
  destruct (bt_last_lt_spec lo (a + 1) m Hm) as [[E Hge]|(m1 & s & n & m2 & E & Em & Hlt & Hge)].
  - right. exists [], m. split; [done|]. split; [done|]. split; [|split; [by apply (Hok [])|by left]].
    intros e He. specialize (Hge e He). lia.
  - destruct (decide (a < n_end n)).
    + left. exists m1, s, n, m2. split; [done|]. split; [done|lia].
    + right. exists (m1 ++ [(s, n)]), m2. rewrite <- app_assoc. split; [done|].
      rewrite rm_hi_snoc. split; [lia|]. split.
      { intros e He. specialize (Hge e He). lia. }
      split; [apply (Hok (m1 ++ [(s, n)])); [by rewrite <- app_assoc|done]|].
      right. exists s, n. split; [done|lia].
Qed.

Lemma rm_free_app lo m1 m2 a b :
  rm_ok lo (m1 ++ m2) -> rm_hi lo m1 <= a -> rm_free (m1 ++ m2) a b <-> rm_free m2 a b.
Proof.
  intros Hm Ha. apply rm_ok_app in Hm as [H1 _].
  split; intros Hf k Hk; specialize (Hf k Hk); rewrite rm_at_app in *;
    rewrite (rm_at_above lo m1) in * by (done || lia); done.
Qed.

Lemma rm_is_range_free_spec lo m r :
  rm_ok lo m -> lo <= r_start r ->
  (r_start r < r_end r /\ rm_free m (r_start r) (r_end r) /\ rm_is_range_free m r = Ret (Ok tt)) \/
  ((r_end r <= r_start r \/ ~ rm_free m (r_start r) (r_end r)) /\
   rm_is_range_free m r = Ret (Err tt)).
Proof.
  intros Hm Ha. destruct r as [a b]. unfold rm_is_range_free, range_is_empty. cbn [r_start r_end] in *.
  destruct (Z.ltb_spec a b); cbn [negb]; [|right; split; [left; lia|done]].
  destruct (rm_split_at lo m a Hm Ha)
    as [(m1 & s & n & m2 & -> & -> & Hs)|(m1 & m2 & -> & Hhi & Hgt & Hok & Hlast)].
  - right. split; [|by zcmp]. right. intros Hf. specialize (Hf a).
    rewrite (rm_at_mid lo) in Hf by done. revert Hf. zcmp. intros Hf. discriminate Hf. lia.
  - rewrite (rm_free_app lo) by done.
    assert (Hlast' : match bt_last_le a (m1 ++ m2) with
                     | Some (_, node) => a <? n_end node | None => false end = false).
    { destruct Hlast as [->|(s & n & -> & ?)]; [done|by zcmp]. }
    rewrite Hlast'. unfold bt_range. zcmp. cbn [obind].
    apply rm_ok_app in Hm as [H1 _].
    assert (Hlt : forall e, e ∈ m1 -> e.1 < a).
    { intros [s n] He. apply (rm_ok_bounds lo m1 H1) in He. cbn. lia. }
    rewrite (filter_between a) by (done || lia).
    destruct (rm_filter_below a m2 b Hok) as [_ Hin].
    destruct (List.filter _ m2) as [|[s n] es].
    + left. split; [done|]. split; [|done]. apply (rm_free_of_side a); [done|].
      intros s n He. left. destruct (decide (b <= s)); [done|].
      assert ((s, n) ∈ ([] : RangeMap V)) by (apply Hin; split; [done|lia]). set_solver.
    + right. split; [|done]. right. intros Hf.
      assert (Hsn : (s, n) ∈ m2 /\ s < b) by (apply Hin, list_elem_of_here).
      destruct Hsn as [Hsn Hsb]. pose proof (Hgt (s, n) Hsn). cbn in *.
      destruct (rm_free_side a m2 s n a b) as [|]; try done; [lia|].
      apply (rm_ok_bounds a m2 Hok) in Hsn. lia.
Qed.

(** What the result of a search for [size] free points in [a, b) means. *)
Definition first_fit (m : RangeMap V) (a b size : Z) (o : outcome (option Range)) : Prop :=
  match o with
  | Ret (Some f) => a <= r_start f /\ r_end f = r_start f + size /\ r_end f <= b /\
      rm_free m (r_start f) (r_end f) /\
      forall y, a <= y -> y + size <= b -> rm_free m y (y + size) -> r_start f <= y
  | Ret None => forall y, a <= y -> y + size <= b -> ~ rm_free m y (y + size)
  | Panic => False
  end.

(** The entries the loop visits decide freedom below [b]. *)
Lemma rm_free_visited lo m1 m2 st b y c :
  rm_ok lo (m1 ++ m2) -> rm_hi lo m1 <= st -> rm_ok st m2 -> st <= y < c -> c <= b ->
  rm_free (m1 ++ m2) y c <-> rm_free (List.filter (fun e => e.1 <? b) m2) y c.
Proof.
  intros Hm Hhi Hok Hy Hc. destruct (rm_filter_below st m2 b Hok) as [Hok' Hin].
  rewrite (rm_free_app lo) by (done || lia). split; intros Hf.
  - apply (rm_free_of_side st); [done|]. intros s n He. apply Hin in He as [He _].
    apply (rm_free_side st m2); (done || lia).
  - apply (rm_free_of_side st); [done|]. intros s n He. destruct (decide (s < b)); [|left; lia].
    apply (rm_free_side st (List.filter (fun e => e.1 <? b) m2)); [done|by apply Hin|lia|done].
Qed.

(** The search from a point [st] at which the map splits, when no interval
    that starts in [st, a) is free. *)
Lemma find_free_from uadd lo m1 m2 st a b size :
  rm_ok lo (m1 ++ m2) -> rm_hi lo m1 <= st -> lo <= st <= a -> rm_ok st m2 -> 0 < size ->
  a + size <= b ->
  (forall z, lo <= z <= Z.max b (rm_hi lo (m1 ++ m2)) -> uadd z size = z + size) ->
  (forall y, st <= y < a -> ~ rm_free (m1 ++ m2) y (y + size)) ->
  first_fit (m1 ++ m2) a b size
    (let! es := bt_range st b (m1 ++ m2) in
     match find_free_loop uadd size b st es with
     | Some le => Ret (Some (mkRange le (uadd le size)))
     | None => Ret None
     end).
Proof.
  intros Hm Hhi Hst Hok Hsz Hab Hadd Hno. unfold bt_range. zcmp. cbn [obind].
  pose proof (proj1 (rm_ok_app lo m1 m2) Hm) as [H1 _].
  rewrite (filter_between st); [|intros [s n] He; apply (rm_ok_bounds lo m1 H1) in He; cbn; lia|done|lia].
  destruct (rm_filter_below st m2 b Hok) as [Hok' Hin].
  assert (Hfree := fun y => rm_free_visited lo m1 m2 st b y (y + size) Hm Hhi Hok).
  set (es := List.filter _ m2) in *.
  assert (Hes : rm_hi st es <= Z.max b (rm_hi lo (m1 ++ m2))).
  { pose proof (rm_ok_bounds lo (m1 ++ m2) Hm) as [_ Hb].
    destruct (rm_hi_in st es) as [->|(s & n & He & ->)]; [lia|].
    apply Hin in He as [He _]. specialize (Hb s n). rewrite elem_of_app in Hb.
    specialize (Hb (or_intror He)). lia. }
  pose proof (find_free_loop_spec uadd size b es st Hsz Hok') as Hs.
  specialize (Hs ltac:(lia) ltac:(intros; apply Hadd; lia)).
  destruct (find_free_loop uadd size b st es) as [x|]; cbn.
  - destruct Hs as (Hx & Hxb & Hf & Hmin). rewrite Hadd by lia. apply Hfree in Hf; [|lia..].
    assert (a <= x) by (destruct (decide (a <= x)); [done|by destruct (Hno x ltac:(lia))]).
    do 3 (split; [done|]). split; [done|]. intros y Hy Hyb Hfy.
    apply Hmin; [lia|done|]. apply Hfree; (done || lia).
  - intros y Hy Hyb Hfy. apply (Hs y); [lia|done|]. apply Hfree; (done || lia).
Qed.

Lemma rm_find_free_spec uadd lo m r size :
  rm_ok lo m -> lo <= r_start r <= r_end r -> 0 < size ->
  (forall z, lo <= z <= Z.max (r_end r) (rm_hi lo m) -> uadd z size = z + size) ->
  first_fit m (r_start r) (r_end r) size (rm_find_free_range uadd m r size).
Proof.
  intros Hm Ha Hsz Hadd. destruct r as [a b]. unfold rm_find_free_range. cbn [r_start r_end] in *.
  rewrite Hadd by lia. destruct (Z.ltb_spec b (a + size)); [intros y Hy Hyb; lia|].
  destruct (rm_split_at lo m a Hm ltac:(lia))
    as [(m1 & s & n & m2 & -> & -> & Hs)|(m1 & m2 & -> & Hhi & Hgt & Hok & Hlast)].
  - destruct (Z.ltb_spec a (n_end n)); [|lia]. rewrite Z.min_r by lia.
    destruct (rm_ok_mid lo m1 s n m2 Hm) as (H1 & Hs' & H2 & _ & Hlo).
    apply (find_free_from uadd lo); try done; [lia|lia|split; [lia|done]|].
    intros y Hy Hf. specialize (Hf y ltac:(lia)). rewrite (rm_at_mid lo) in Hf by done.
    revert Hf. by zcmp.
  - assert (Est : match bt_last_le a (m1 ++ m2) with
                  | Some (n_start, node) => if a <? n_end node then Z.min a n_start else a
                  | None => a end = a).
    { destruct Hlast as [->|(s & n & -> & ?)]; [done|]. by zcmp. }
    rewrite Est. apply (find_free_from uadd lo); try done; [lia|]. intros; lia.
Qed.

(** Replacing an entry by one that starts at the same point. *)
Lemma rm_replace_spec lo m1 s n m2 e v :
  rm_ok lo (m1 ++ (s, n) :: m2) -> s < e -> (forall s' n', (s', n') ∈ m2 -> e <= s') ->
  let m' := m1 ++ (s, mkNode e v) :: m2 in
  rm_ok lo m' /\
  forall k, rm_at m' k =
    if k <? s then rm_at m1 k else if k <? e then Some (mkRange s e, v) else rm_at m2 k.
Proof.
  intros Hm He Hge m'. destruct (rm_ok_mid _ _ _ _ _ Hm) as (H1 & Hs & H2 & _ & _).
  assert (Hok : rm_ok lo m').
  { apply rm_ok_app. split; [done|]. cbn. split; [lia|]. destruct m2 as [|[s2 n2] m2]; [done|].
    destruct H2 as [? H2]. split; [|done]. pose proof (Hge s2 n2 (list_elem_of_here _ _)). lia. }
  split; [done|]. intros k. by apply (rm_at_mid lo).
Qed.

Lemma rm_get_split lo m s n :
  rm_ok lo m -> bt_get s m = Some n ->
  exists m1 m2, m = m1 ++ (s, n) :: m2 /\ (forall e, e ∈ m1 -> e.1 <> s) /\
    rm_at m s = Some (mkRange s (n_end n), n_value n).
Proof.
  intros Hm E. destruct (bt_get_split s n m E) as (m1 & m2 & -> & H1).
  exists m1, m2. split; [done|]. split; [done|]. rewrite (rm_at_mid lo) by done.
  destruct (rm_ok_mid _ _ _ _ _ Hm) as (_ & ? & _). by zcmp.
Qed.

(** A start that is not a key starts no entry. *)
Lemma bt_get_at lo m r v k :
  rm_ok lo m -> rm_at m k = Some (r, v) -> bt_get (r_start r) m = Some (mkNode (r_end r) v).
Proof.
  revert lo. induction m as [|[s n] m IH]; intros lo; cbn; [done|]. intros [Hs Hm].
  destruct (Z.leb_spec s k), (Z.ltb_spec k (n_end n)); cbn; intros E.
  { injection E as <- <-. cbn. rewrite Z.eqb_refl. by destruct n. }
  all: pose proof (rm_at_range _ _ _ _ _ Hm E); destruct (Z.eqb_spec s (r_start r)); [lia|];
    by apply (IH (n_end n)).
Qed.

Lemma rm_contain_spec lo m r :
  rm_ok lo m -> r_start r < r_end r ->
  rm_range_contain_key_value m r =
    match rm_at m (r_start r) with
    | Some (r', v) => if r_end r <=? r_end r' then Some (r', v) else None
    | None => None
    end.
Proof.
  intros Hm Hr. rewrite <- (rm_get_key_value_at lo m) by done.
  unfold rm_range_contain_key_value, rm_get_key_value.
  destruct (bt_last_le (r_start r) m) as [[s n]|]; [|done].
  destruct (Z.ltb_spec (r_start r) (n_end n)); cbn; [done|]. zcmp. done.
Qed.

Lemma rm_intersect_spec lo m r :
  rm_ok lo m -> r_start r < r_end r ->
  match rm_range_intersect_key_value m r with
  | Some (r', v) => r_start r' < r_end r /\ r_start r < r_end r' /\
      rm_at m (r_start r') = Some (r', v) /\
      forall k r'' v', r_end r' <= k < r_end r -> rm_at m k <> Some (r'', v')
  | None => rm_free m (r_start r) (r_end r)
  end.
Proof.
  intros Hm Hr. unfold rm_range_intersect_key_value.
  destruct (bt_last_lt_spec lo (r_end r) m Hm) as [[-> Hge]|(m1 & s & n & m2 & -> & -> & Hlt & Hge)].
  - intros k Hk. apply (rm_at_late m (r_end r)); [done|lia].
  - destruct (rm_ok_mid _ _ _ _ _ Hm) as (_ & Hs & _).
    destruct (Z.ltb_spec (r_start r) (n_end n)); cbn.
    + split; [done|]. split; [done|]. split; [rewrite (rm_at_mid lo) by done; by zcmp|].
      intros k r'' v' Hk. rewrite (rm_at_mid lo) by done. zcmp.
      by rewrite (rm_at_late m2 (r_end r)) by (done || lia).
    + by apply (rm_free_below lo).
Qed.

Lemma rm_remove_spec lo m1 s n m2 :
  rm_ok lo (m1 ++ (s, n) :: m2) ->
  rm_ok lo (m1 ++ m2) /\
  forall k, rm_at (m1 ++ m2) k =
    if (s <=? k) && (k <? n_end n) then None else rm_at (m1 ++ (s, n) :: m2) k.
Proof.
  intros Hm. destruct (rm_ok_mid _ _ _ _ _ Hm) as (H1 & Hs & H2 & _ & _).
  split; [apply rm_ok_app; split; [done|]; apply rm_ok_weaken with (n_end n); [lia|done]|].
  intros k. rewrite (rm_at_mid lo), rm_at_app by done.
  destruct (Z.leb_spec s k), (Z.ltb_spec k (n_end n)), (Z.ltb_spec k s); cbn; try lia.
  - rewrite (rm_at_above lo m1) by (done || lia). apply (rm_at_below (n_end n)); (done || lia).
  - by rewrite (rm_at_above lo m1) by (done || lia).
  - destruct (rm_at m1 k); [done|]. apply (rm_at_below (n_end n)); (done || lia).
Qed.

Lemma rm_extend_back_spec lo m s n e :
  rm_ok lo m -> bt_get s m = Some n ->
  (n_end n < e /\ rm_free m (n_end n) e /\
   exists m', rm_extend_back m (mkRange s e) = Ret (Ok m') /\ rm_ok lo m' /\
     forall k, rm_at m' k =
       if (s <=? k) && (k <? e) then Some (mkRange s e, n_value n) else rm_at m k) \/
  ((e <= n_end n \/ ~ rm_free m (n_end n) e) /\ rm_extend_back m (mkRange s e) = Ret (Err tt)).
Proof.
  intros Hm E. destruct (rm_get_split lo m s n Hm E) as (m1 & m2 & Em & H1 & _).
  unfold rm_extend_back. cbn [r_start r_end]. rewrite E. cbn [unwrap obind].
  assert (Hmid : rm_ok lo (m1 ++ (s, n) :: m2)) by by subst.
  destruct (rm_ok_mid _ _ _ _ _ Hmid) as (H1' & Hs & H2 & _ & Hlo).
  destruct (rm_is_range_free_spec lo m (mkRange (n_end n) e) Hm) as [(He & Hf & ->)|[Hf ->]];
    cbn [r_start r_end obind] in *; [lia| |right; done].
  left. split; [done|]. split; [done|]. eexists. split; [done|].
  subst m. rewrite bt_alter_mid by done.
  assert (Hge : forall s' n', (s', n') ∈ m2 -> e <= s').
  { intros s' n' He'. destruct (rm_free_side lo _ s' n' (n_end n) e Hm) as [|Hr]; try done.
    - set_solver.
    - apply (rm_ok_bounds _ _ H2) in He'. lia. }
  destruct (rm_replace_spec lo m1 s n m2 e (n_value n) Hm ltac:(lia) Hge) as [Hok Hat].
  split; [done|]. intros k. rewrite Hat, (rm_at_mid lo) by done.
  destruct (Z.leb_spec s k), (Z.ltb_spec k e), (Z.ltb_spec k s), (Z.ltb_spec k (n_end n));
    cbn; try lia; done.
Qed.

Lemma rm_reduce_back_spec lo m s n e :
  rm_ok lo m -> bt_get s m = Some n ->
  if (s <=? e) && (e <? n_end n) then
    exists m', rm_reduce_back m (mkRange s e) = Ret (Ok m') /\ rm_ok lo m' /\
      forall k, rm_at m' k =
        if (s <=? k) && (k <? e) then Some (mkRange s e, n_value n)
        else if (e <=? k) && (k <? n_end n) then None else rm_at m k
  else rm_reduce_back m (mkRange s e) = Ret (Err tt).
Proof.
  intros Hm E. destruct (rm_get_split lo m s n Hm E) as (m1 & m2 & -> & H1 & _).
  unfold rm_reduce_back. cbn [r_start r_end]. rewrite E. cbn [unwrap obind].
  destruct (rm_ok_mid _ _ _ _ _ Hm) as (H1' & Hs & H2 & _ & _).
  destruct (Z.leb_spec s e), (Z.ltb_spec e (n_end n)); cbn [andb]; try done.
  destruct (Z.eqb_spec s e) as [<-|Hne].
  - eexists. split; [done|]. rewrite bt_remove_mid by done.
    destruct (rm_remove_spec lo m1 s n m2 Hm) as [Hok Hat]. split; [done|].
    intros k. rewrite Hat. by destruct (Z.leb_spec s k), (Z.ltb_spec k s); [lia|..].
  - eexists. split; [done|]. rewrite bt_alter_mid by done.
    destruct (rm_replace_spec lo m1 s n m2 e (n_value n) Hm ltac:(lia)) as [Hok Hat].
    { intros s' n' He'. apply (rm_ok_bounds _ _ H2) in He'. lia. }
    split; [done|]. intros k. rewrite Hat, (rm_at_mid lo) by done.
    destruct (Z.leb_spec s k), (Z.ltb_spec k e), (Z.leb_spec e k), (Z.ltb_spec k s),
      (Z.ltb_spec k (n_end n)); cbn; try lia; try done.
    apply (rm_at_below (n_end n)); (done || lia).
Qed.

End Operations.

(** ** Claims *)

Section RangeMapClaims.
Context {V : Type}.
Implicit Types m : RangeMap V.

(** [try_insert] of a non-empty range either adds exactly the points of the
    range, all free before, with the new value, or, when some point is taken,
    hands the value back and changes nothing.  Order and disjointness are kept
    and the inner [try_insert().unwrap()] never panics. *)
Theorem rm_try_insert_refines lo m r v :
  rm_ok lo m -> lo <= r_start r < r_end r ->
  (exists m', rm_try_insert m r v = Ret (Ok m') /\ rm_ok lo m' /\
     rm_free m (r_start r) (r_end r) /\
     forall k, rm_at m' k =
       if (r_start r <=? k) && (k <? r_end r) then Some (r, v) else rm_at m k) \/
  (rm_try_insert m r v = Ret (Err v) /\ ~ rm_free m (r_start r) (r_end r)).
Proof. apply rm_try_insert_spec. Qed.

(** [find_free_range] is a first-fit search: it returns the lowest [size]
    free points inside the window, and returns nothing only when the window has
    no free run of that size; it never panics.  The key type's addition must
    not wrap on the window or the stored ends. *)
Theorem rm_find_free_first_fit uadd lo m r size :
  rm_ok lo m -> lo <= r_start r <= r_end r -> 0 < size ->
  (forall z, lo <= z <= Z.max (r_end r) (rm_hi lo m) -> uadd z size = z + size) ->
  match rm_find_free_range uadd m r size with
  | Ret (Some f) => r_start r <= r_start f /\ r_end f = r_start f + size /\ r_end f <= r_end r /\
      rm_free m (r_start f) (r_end f) /\
      forall y, r_start r <= y -> y + size <= r_end r -> rm_free m y (y + size) -> r_start f <= y
  | Ret None => forall y, r_start r <= y -> y + size <= r_end r -> ~ rm_free m y (y + size)
  | Panic => False
  end.
Proof. apply rm_find_free_spec. Qed.

(** The lookups agree with the abstract map: a point lookup returns the
    entry containing the point; the containment and match lookups return the
    entry at the range's start exactly when it covers, or equals, the range;
    the intersection lookup returns the last entry meeting the range and fails
    exactly when the range is free, as [is_range_free] reports. *)
Theorem rm_lookups_refine lo m k r :
  rm_ok lo m -> lo <= r_start r < r_end r ->
  rm_get_key_value m k = rm_at m k /\ rm_get m k = snd <$> rm_at m k /\
  rm_range_contain_key_value m r =
    match rm_at m (r_start r) with
    | Some (r', v) => if r_end r <=? r_end r' then Some (r', v) else None
    | None => None
    end /\
  (forall v, rm_range_match m r = Some v <-> rm_at m (r_start r) = Some (r, v)) /\
  match rm_range_intersect_key_value m r with
  | Some (r', v) => rm_at m (r_start r') = Some (r', v) /\
      r_start r' < r_end r /\ r_start r < r_end r' /\ rm_is_range_free m r = Ret (Err tt)
  | None => rm_free m (r_start r) (r_end r) /\ rm_is_range_free m r = Ret (Ok tt)
  end.
Proof.
  intros Hm Hr. pose proof (rm_get_key_value_at lo m k Hm) as Hk. split; [done|].
  split; [rewrite <- Hk; unfold rm_get, rm_get_key_value;
          destruct (bt_last_le k m) as [[s n]|]; [by case_if|done]|].
  split; [by apply (rm_contain_spec lo); [|lia]|]. split.
  - intros v. rewrite <- (rm_get_key_value_at lo m (r_start r) Hm).
    unfold rm_range_match, rm_get_key_value. destruct (bt_last_le _ m) as [[s n]|]; [|done].
    destruct r as [a b]. cbn in *.
    destruct (Z.ltb_spec a (n_end n)), (Z.eqb_spec s a), (Z.eqb_spec (n_end n) b); cbn;
      split; intros E; first [done | lia | injection E; intros; subst; done].
  - pose proof (rm_intersect_spec lo m r Hm ltac:(lia)) as Hi.
    destruct (rm_is_range_free_spec lo m r Hm ltac:(lia)) as [(_ & Hf & ->)|[Hf ->]];
      destruct (rm_range_intersect_key_value m r) as [[r' v]|].
    + destruct Hi as (H1 & H2 & H3 & _).
      pose proof (rm_at_range _ _ _ _ _ Hm H3) as Hb.
      rewrite (rm_get_key_value_at lo) in * by done.
      assert (Hin : rm_at m (Z.max (r_start r) (r_start r')) = None) by (apply Hf; lia).
      destruct (rm_get_split lo m (r_start r') (mkNode (r_end r') v) Hm) as (m1 & m2 & -> & _ & _);
        [by apply (bt_get_at lo m r' v (r_start r'))|].
      rewrite (rm_at_mid lo) in Hin by done. revert Hin. cbn. by zcmp.
    + done.
    + destruct Hi as (H1 & H2 & H3 & _). done.
    + destruct Hf as [Hf|Hf]; [lia|by destruct Hf].
Qed.

(** Growing and shrinking an entry from its start.  [extend_back] moves its
    end exactly when the new points are free; [reduce_back] cuts the points from
    the new end on, removing the entry when nothing is left; [force_remove_one]
    removes it.  Every other point keeps its entry, and an inapplicable call
    reports an error and changes nothing. *)
Theorem rm_resize_refines lo m s n e :
  rm_ok lo m -> bt_get s m = Some n ->
  ((n_end n < e /\ rm_free m (n_end n) e /\
    exists m', rm_extend_back m (mkRange s e) = Ret (Ok m') /\ rm_ok lo m' /\
      forall k, rm_at m' k =
        if (s <=? k) && (k <? e) then Some (mkRange s e, n_value n) else rm_at m k) \/
   ((e <= n_end n \/ ~ rm_free m (n_end n) e) /\ rm_extend_back m (mkRange s e) = Ret (Err tt))) /\
  (if (s <=? e) && (e <? n_end n) then
     exists m', rm_reduce_back m (mkRange s e) = Ret (Ok m') /\ rm_ok lo m' /\
       forall k, rm_at m' k =
         if (s <=? k) && (k <? e) then Some (mkRange s e, n_value n)
         else if (e <=? k) && (k <? n_end n) then None else rm_at m k
   else rm_reduce_back m (mkRange s e) = Ret (Err tt)) /\
  (exists m', rm_force_remove_one m (mkRange s (n_end n)) = Ret (n_value n, m') /\ rm_ok lo m' /\
     forall k, rm_at m' k = if (s <=? k) && (k <? n_end n) then None else rm_at m k).
Proof.
  intros Hm E. split; [by apply rm_extend_back_spec|]. split; [by apply rm_reduce_back_spec|].
  destruct (rm_get_split lo m s n Hm E) as (m1 & m2 & -> & H1 & _).
  unfold rm_force_remove_one. cbn [r_start r_end]. rewrite E. cbn [unwrap obind].
  rewrite Z.eqb_refl. cbn [guard_panic]. eexists. split; [done|].
  rewrite bt_remove_mid by done. by apply rm_remove_spec.
Qed.

End RangeMapClaims.

(** ** Witnesses: a map with entries [2,5) and [8,10) *)

Definition demo : RangeMap bool := [(2, mkNode 5 true); (8, mkNode 10 false)].

Lemma demo_ok : rm_ok 0 demo.
Proof. cbn. lia. Qed.

Lemma rm_try_insert_refines_witness :
  rm_try_insert demo (mkRange 5 8) true =
    Ret (Ok [(2, mkNode 5 true); (5, mkNode 8 true); (8, mkNode 10 false)]) /\
  rm_free demo 5 8.
Proof.
  split; [by vm_compute|].
  destruct (rm_try_insert_refines 0 demo (mkRange 5 8) true demo_ok) as [(m' & _ & _ & Hf & _)|[E _]];
    [cbn; lia|exact Hf|by vm_compute in E].
Defined.

Lemma rm_find_free_first_fit_witness :
  rm_find_free_range Z.add demo (mkRange 3 20) 4 = Ret (Some (mkRange 10 14)) /\ rm_free demo 10 14.
Proof.
  split; [by vm_compute|].
  pose proof (rm_find_free_first_fit Z.add 0 demo (mkRange 3 20) 4 demo_ok) as H.
  specialize (H ltac:(cbn; lia) ltac:(lia) ltac:(done)).
  change (rm_find_free_range Z.add demo (mkRange 3 20) 4) with
    (Ret (Some (mkRange 10 14)) : outcome (option Range)) in H. apply H.
Defined.

Lemma rm_lookups_refine_witness :
  rm_get_key_value demo 9 = Some (mkRange 8 10, false) /\ rm_get_key_value demo 9 = rm_at demo 9.
Proof.
  split; [by vm_compute|].
  apply (rm_lookups_refine 0 demo 9 (mkRange 3 4) demo_ok). cbn. lia.
Defined.

Lemma rm_resize_refines_witness :
  rm_extend_back demo (mkRange 2 8) = Ret (Ok [(2, mkNode 8 true); (8, mkNode 10 false)]) /\
  exists m', rm_force_remove_one demo (mkRange 2 5) = Ret (true, m') /\ rm_ok 0 m'.
Proof.
  split; [by vm_compute|].
  destruct (rm_resize_refines 0 demo 2 (mkNode 5 true) 8 demo_ok eq_refl) as (_ & _ & m' & E & Hok & _).
  by exists m'.
Defined.
