(* ===== verification/SegTree.v ===== *)
(** The range set (utils/segment-tree/src/lib.rs): a lazily built segment tree
    over a range of [usize].  Its meaning is the set of points its full nodes
    cover; insertion, removal and the two queries are shown to be the set
    operations.  Recursion halves the range, so the length of the range is
    enough fuel. *)

From S2P Require Import Prelude HalConst.

#[local] Open Scope Z_scope.

Inductive RangeSetNodeStatus := SEmpty | SHalf | SFull.
Inductive RangeSetOperation := Fill | Clear.

#[export] Instance RangeSetNodeStatus_eq_dec : EqDecision RangeSetNodeStatus.
Proof. solve_decision. Defined.

Definition status_apply (op : RangeSetOperation) : RangeSetNodeStatus :=
  match op with Fill => SFull | Clear => SEmpty end.

Definition status_combine (s o : RangeSetNodeStatus) : RangeSetNodeStatus :=
  if decide (s = o) then o else SHalf.

#[warnings="-register-all"]
Inductive RangeSetNode := mkSN {
  sn_left : option RangeSetNode;
  sn_right : option RangeSetNode;
  sn_status : RangeSetNodeStatus;
}.

Definition sn_new (s : RangeSetNodeStatus) : RangeSetNode := mkSN None None s.

Definition sn_mid (lo hi : Z) : Z := wadd lo (wsub hi lo / 2).

(** A child that is not there yet starts as a copy of its parent's status. *)
Definition sn_child (c : option RangeSetNode) (s : RangeSetNodeStatus) : RangeSetNode :=
  match c with Some n => n | None => sn_new s end.

Fixpoint sn_operation (fuel : nat) (lo hi a b : Z) (op : RangeSetOperation) (n : RangeSetNode) :
    outcome RangeSetNode :=
  match fuel with
  | O => Panic
  | S fuel =>
      if (a <=? lo) && (hi <=? b) then Ret (mkSN None None (status_apply op))
      else
        let mid := sn_mid lo hi in
        let left := sn_child (sn_left n) (sn_status n) in
        let! left := (if (lo <? b) && (a <? mid) then sn_operation fuel lo mid a b op left
                      else Ret left) in
        let right := sn_child (sn_right n) (sn_status n) in
        let! right := (if (mid <? b) && (a <? hi) then sn_operation fuel mid hi a b op right
                       else Ret right) in
        let status := status_combine (sn_status left) (sn_status right) in
        if decide (status = SHalf) then Ret (mkSN (Some left) (Some right) status)
        else Ret (mkSN None None status)
  end.

Fixpoint sn_intersect (fuel : nat) (lo hi a b : Z) (n : RangeSetNode) : outcome Z :=
  match fuel with
  | O => Panic
  | S fuel =>
      match sn_status n with
      | SFull => Ret (wsub (Z.min hi b) (Z.max lo a))
      | SEmpty => Ret 0
      | SHalf =>
          let mid := sn_mid lo hi in
          let ret := 0 in
          let! ret := (if (lo <? b) && (a <? mid)
                       then let! l := unwrap (sn_left n) in
                            let! v := sn_intersect fuel lo mid a b l in Ret (wadd ret v)
                       else Ret ret) in
          if (mid <? b) && (a <? hi)
          then let! r := unwrap (sn_right n) in
               let! v := sn_intersect fuel mid hi a b r in Ret (wadd ret v)
          else Ret ret
      end
  end.

Record RangeSet := mkRS { rs_root : RangeSetNode; rs_range : Range }.

Definition rs_new (range : Range) : RangeSet := mkRS (sn_new SEmpty) range.

(** One level of recursion per point of the range is more than enough. *)
Definition rs_fuel (s : RangeSet) : nat := Z.to_nat (r_end (rs_range s) - r_start (rs_range s)).

Definition rs_operation (s : RangeSet) (range : Range) (op : RangeSetOperation) : outcome RangeSet :=
  if range_is_empty range then Ret s
  else
    let! root := sn_operation (rs_fuel s) (r_start (rs_range s)) (r_end (rs_range s))
                   (r_start range) (r_end range) op (rs_root s) in
    Ret (mkRS root (rs_range s)).

Definition rs_insert (s : RangeSet) (range : Range) : outcome RangeSet := rs_operation s range Fill.
Definition rs_remove (s : RangeSet) (range : Range) : outcome RangeSet := rs_operation s range Clear.

Definition rs_contains (s : RangeSet) (range : Range) : outcome bool :=
  if range_is_empty range then Ret true
  else
    let! v := sn_intersect (rs_fuel s) (r_start (rs_range s)) (r_end (rs_range s))
                (r_start range) (r_end range) (rs_root s) in
    Ret (v =? wsub (r_end range) (r_start range)).

Definition rs_intersects (s : RangeSet) (range : Range) : outcome bool :=
  if range_is_empty range then Ret false
  else
    let! v := sn_intersect (rs_fuel s) (r_start (rs_range s)) (r_end (rs_range s))
                (r_start range) (r_end range) (rs_root s) in
    Ret (negb (v =? 0)).

(** ** Meaning *)

(** The points of [lo, hi) a node covers. *)
Fixpoint sn_mem (n : RangeSetNode) (lo hi k : Z) : bool :=
  match n with
  | mkSN l r st =>
      match st with
      | SFull => true
      | SEmpty => false
      | SHalf =>
          match l, r with
          | Some l, Some r =>
              if k <? sn_mid lo hi then sn_mem l lo (sn_mid lo hi) k else sn_mem r (sn_mid lo hi) hi k
          | _, _ => false
          end
      end
  end.

(** Only half-covered nodes have children, and they have both. *)
Fixpoint sn_wf (n : RangeSetNode) (lo hi : Z) : Prop :=
  match n with
  | mkSN l r st =>
      match st, l, r with
      | SHalf, Some l, Some r =>
          lo + 1 < hi /\ sn_wf l lo (sn_mid lo hi) /\ sn_wf r (sn_mid lo hi) hi
      | SHalf, _, _ => False
      | _, None, None => True
      | _, _, _ => False
      end
  end.

Section Facts.

Lemma sn_mid_val lo hi : 0 <= lo <= hi -> hi < 2 ^ 64 -> sn_mid lo hi = lo + (hi - lo) / 2.
Proof.
  intros Hl Hh. assert (0 <= (hi - lo) / 2 <= hi - lo) by div_lia.
  unfold sn_mid. rewrite wsub_small, wadd_small by (unfold is_usize; lia). done.
Qed.

Lemma sn_new_mem s lo hi k : s <> SHalf -> sn_mem (sn_new s) lo hi k = bool_decide (s = SFull).
Proof. by destruct s. Qed.

Lemma sn_child_wf n lo hi l :
  sn_wf n lo hi -> (l = sn_child (sn_left n) (sn_status n) -> sn_wf l lo (sn_mid lo hi)) /\
  (l = sn_child (sn_right n) (sn_status n) -> sn_wf l (sn_mid lo hi) hi).
Proof.
  destruct n as [[l'|] [r'|] []]; cbn; intros H; split; intros ->; cbn; (done || tauto).
Qed.

(** A node means the same as its two children, made if need be. *)
Lemma sn_mem_children n lo hi k :
  sn_wf n lo hi ->
  sn_mem n lo hi k =
    if k <? sn_mid lo hi then sn_mem (sn_child (sn_left n) (sn_status n)) lo (sn_mid lo hi) k
    else sn_mem (sn_child (sn_right n) (sn_status n)) (sn_mid lo hi) hi k.
Proof.
  destruct n as [[l'|] [r'|] []]; cbn; intros H; try done; by destruct (k <? sn_mid lo hi).
Qed.

Lemma sn_full_mem n lo hi k : sn_wf n lo hi -> sn_status n <> SHalf ->
  sn_mem n lo hi k = bool_decide (sn_status n = SFull).
Proof. by destruct n as [[l'|] [r'|] []]. Qed.

Definition op_val (op : RangeSetOperation) : bool := match op with Fill => true | Clear => false end.

(** Joining two children. *)
Definition sn_join (left right : RangeSetNode) : RangeSetNode :=
  let status := status_combine (sn_status left) (sn_status right) in
  if decide (status = SHalf) then mkSN (Some left) (Some right) status else mkSN None None status.

Lemma sn_join_spec l r lo hi :
  lo + 1 < hi -> sn_wf l lo (sn_mid lo hi) -> sn_wf r (sn_mid lo hi) hi ->
  sn_wf (sn_join l r) lo hi /\
  forall k, sn_mem (sn_join l r) lo hi k =
    if k <? sn_mid lo hi then sn_mem l lo (sn_mid lo hi) k else sn_mem r (sn_mid lo hi) hi k.
Proof.
  intros Hsz Hl Hr. unfold sn_join. destruct (decide (status_combine _ _ = SHalf)) as [E|E].
  - rewrite E. by split.
  - unfold status_combine in *. destruct (decide (sn_status l = sn_status r)) as [E'|]; [|done].
    split; [by destruct (sn_status r)|]. intros k.
    rewrite (sn_full_mem l), (sn_full_mem r) by (done || by rewrite E'). rewrite E'.
    destruct (k <? sn_mid lo hi); by destruct (sn_status r).
Qed.

(** What an operation on [a, b) must do to a node over [lo, hi). *)
Definition op_result (op : RangeSetOperation) (a b lo hi : Z) (n n' : RangeSetNode) : Prop :=
  sn_wf n' lo hi /\
  forall k, lo <= k < hi -> sn_mem n' lo hi k =
    if (a <=? k) && (k <? b) then op_val op else sn_mem n lo hi k.

Lemma op_result_miss op a b lo hi n :
  sn_wf n lo hi -> (b <= lo \/ hi <= a) -> op_result op a b lo hi n n.
Proof.
  intros Hw Hm. split; [done|]. intros k Hk.
  destruct (Z.leb_spec a k), (Z.ltb_spec k b); (done || lia).
Qed.

(** A range of one point is covered or missed as a whole. *)
Lemma sn_operation_point fuel lo a b op n :
  0 <= lo -> lo + 1 < 2 ^ 64 -> sn_wf n lo (lo + 1) ->
  exists n', sn_operation (S fuel) lo (lo + 1) a b op n = Ret n' /\ op_result op a b lo (lo + 1) n n'.
Proof.
  intros Hl Hh Hw. cbn [sn_operation].
  destruct (Z.leb_spec a lo), (Z.leb_spec (lo + 1) b); cbn [andb].
  { eexists. split; [done|]. split; [by destruct op|]. intros k Hk.
    destruct (Z.leb_spec a k), (Z.ltb_spec k b); try lia. by destruct op. }
  all: rewrite (sn_mid_val lo (lo + 1)) by lia; replace (lo + (lo + 1 - lo) / 2) with lo by div_lia;
    destruct (Z.ltb_spec lo b), (Z.ltb_spec a lo), (Z.ltb_spec a (lo + 1)); try lia; cbn [andb obind];
    (exists n; split; [|apply op_result_miss; [done|lia]]);
    destruct n as [[l|] [r|] []]; cbn in Hw; (done || lia).
Qed.

Lemma sn_operation_spec fuel lo hi a b op n :
  0 <= lo < hi -> hi < 2 ^ 64 -> hi - lo <= Z.of_nat fuel -> sn_wf n lo hi ->
  exists n', sn_operation fuel lo hi a b op n = Ret n' /\ op_result op a b lo hi n n'.
Proof.
  revert lo hi n. induction fuel as [|fuel IH]; intros lo hi n Hl Hh Hf Hw; [lia|].
  destruct (decide (hi = lo + 1)) as [->|Hsz]; [apply sn_operation_point; (done || lia)|].
  cbn [sn_operation]. destruct (_ && _) eqn:Ecov.
  { apply andb_prop in Ecov as [?%Z.leb_le ?%Z.leb_le].
    eexists. split; [done|]. split; [by destruct op|]. intros k Hk.
    destruct (Z.leb_spec a k), (Z.ltb_spec k b); try lia. by destruct op. }
  assert (Hmid : lo < sn_mid lo hi < hi) by (rewrite sn_mid_val by lia; div_lia).
  assert (Hc := sn_mem_children n lo hi).
  destruct (sn_child_wf n lo hi (sn_child (sn_left n) (sn_status n)) Hw) as [Wl _].
  destruct (sn_child_wf n lo hi (sn_child (sn_right n) (sn_status n)) Hw) as [_ Wr].
  specialize (Wl eq_refl). specialize (Wr eq_refl).
  set (left := sn_child (sn_left n) _) in *. set (right := sn_child (sn_right n) _) in *.
  assert (Hleft : exists l, (if (lo <? b) && (a <? sn_mid lo hi)
      then sn_operation fuel lo (sn_mid lo hi) a b op left else Ret left) = Ret l /\
      op_result op a b lo (sn_mid lo hi) left l).
  { destruct (Z.ltb_spec lo b), (Z.ltb_spec a (sn_mid lo hi)); cbn [andb];
      first [apply IH; (done || lia) | exists left; split; [done|apply op_result_miss; [done|lia]]]. }
  assert (Hright : exists r, (if (sn_mid lo hi <? b) && (a <? hi)
      then sn_operation fuel (sn_mid lo hi) hi a b op right else Ret right) = Ret r /\
      op_result op a b (sn_mid lo hi) hi right r).
  { destruct (Z.ltb_spec (sn_mid lo hi) b), (Z.ltb_spec a hi); cbn [andb];
      first [apply IH; (done || lia) | exists right; split; [done|apply op_result_miss; [done|lia]]]. }
  destruct Hleft as (l & -> & Wl' & Ml), Hright as (r & Er & Wr' & Mr). cbn [obind]. rewrite Er.
  cbn [obind]. destruct (sn_join_spec l r lo hi ltac:(lia) Wl' Wr') as [Wj Mj].
  exists (sn_join l r). split; [unfold sn_join; by destruct (decide _)|]. split; [done|].
  intros k Hk. rewrite Mj, Hc by done.
  destruct (Z.ltb_spec k (sn_mid lo hi)); [apply Ml|apply Mr]; lia.
Qed.

(** The number of points of [x, y) that satisfy a test. *)
Definition cnt (f : Z -> bool) (x y : Z) : Z := Z.of_nat (length (List.filter f (seqZ x (y - x)))).

Lemma cnt_empty f x y : y <= x -> cnt f x y = 0.
Proof. intros. unfold cnt. by rewrite seqZ_nil by lia. Qed.

Lemma cnt_step f x y : x < y -> cnt f x y = Z.b2z (f x) + cnt f (x + 1) y.
Proof.
  intros. unfold cnt. rewrite (seqZ_cons x) by lia. cbn [List.filter].
  replace (Z.pred (y - x)) with (y - (x + 1)) by lia. replace (Z.succ x) with (x + 1) by lia.
  destruct (f x); cbn; lia.
Qed.

(** Induction from the right end of an interval. *)
Lemma interval_ind (P : Z -> Prop) y :
  (forall x, y <= x -> P x) -> (forall x, x < y -> P (x + 1) -> P x) -> forall x, P x.
Proof.
  intros H0 H1 x. remember (Z.to_nat (y - x)) as d eqn:Ed. revert x Ed.
  induction d as [|d IH]; intros x Ed; [apply H0; lia|]. apply H1; [lia|]. apply IH. lia.
Qed.

Lemma cnt_split f x m y : x <= m <= y -> cnt f x y = cnt f x m + cnt f m y.
Proof.
  revert x. apply (interval_ind (fun x => x <= m <= y -> _) m).
  - intros x Hx Hm. replace x with m by lia. rewrite (cnt_empty f m m) by lia. lia.
  - intros x Hx IH Hm. rewrite (cnt_step f x y), (cnt_step f x m) by lia. rewrite IH by lia. lia.
Qed.

Lemma cnt_ext f g x y : (forall k, x <= k < y -> f k = g k) -> cnt f x y = cnt g x y.
Proof.
  revert x. apply (interval_ind (fun x => (forall k, x <= k < y -> _) -> _) y).
  - intros x Hx _. by rewrite !cnt_empty by lia.
  - intros x Hx IH Hfg. rewrite !(cnt_step _ x) by lia. rewrite (Hfg x) by lia.
    rewrite IH by (intros; apply Hfg; lia). done.
Qed.

Lemma cnt_bounds f x y : x <= y -> 0 <= cnt f x y <= y - x.
Proof.
  revert x. apply (interval_ind (fun x => x <= y -> _) y).
  - intros x Hx Hy. rewrite cnt_empty by lia. lia.
  - intros x Hx IH Hy. rewrite cnt_step by lia. specialize (IH ltac:(lia)). destruct (f x); cbn; lia.
Qed.

Lemma cnt_all f x y : x <= y -> cnt f x y = y - x <-> forall k, x <= k < y -> f k = true.
Proof.
  revert x. apply (interval_ind (fun x => x <= y -> _) y).
  - intros x Hx Hy. rewrite cnt_empty by lia. split; [intros _ k; lia|lia].
  - intros x Hx IH Hy. rewrite cnt_step by lia. specialize (IH ltac:(lia)).
    pose proof (cnt_bounds f (x + 1) y ltac:(lia)). split.
    + intros E k Hk. destruct (f x) eqn:Ef; cbn in E; [|lia].
      destruct (decide (k = x)) as [->|]; [done|]. apply IH; lia.
    + intros Hall. rewrite (Hall x) by lia. cbn. apply proj2 in IH.
      rewrite IH by (intros; apply Hall; lia). lia.
Qed.

Lemma cnt_none f x y : cnt f x y = 0 <-> forall k, x <= k < y -> f k = false.
Proof.
  revert x. apply (interval_ind (fun x => _) y).
  - intros x Hx. rewrite cnt_empty by lia. split; [intros _ k; lia|done].
  - intros x Hx IH. rewrite cnt_step by lia.
    pose proof (cnt_bounds f (x + 1) y ltac:(lia)). split.
    + intros E k Hk. destruct (f x) eqn:Ef; cbn in E; [lia|].
      destruct (decide (k = x)) as [->|]; [done|]. apply IH; lia.
    + intros Hall. rewrite (Hall x) by lia. cbn. apply IH. intros. apply Hall. lia.
Qed.

(** The two halves of a query. *)
Lemma cnt_halves f g h lo hi mid a b :
  lo < mid < hi -> Z.max lo a <= Z.min hi b ->
  (forall k, f k = if k <? mid then g k else h k) ->
  cnt f (Z.max lo a) (Z.min hi b) =
    cnt g (Z.max lo a) (Z.min mid b) + cnt h (Z.max mid a) (Z.min hi b).
Proof.
  intros Hm Hab Hf.
  assert (Hg : forall x y, y <= mid -> cnt f x y = cnt g x y).
  { intros x y Hy. apply cnt_ext. intros k Hk. rewrite Hf. by destruct (Z.ltb_spec k mid); [|lia]. }
  assert (Hh : forall x y, mid <= x -> cnt f x y = cnt h x y).
  { intros x y Hx. apply cnt_ext. intros k Hk. rewrite Hf. by destruct (Z.ltb_spec k mid); [lia|]. }
  destruct (decide (Z.min hi b <= mid)).
  - rewrite (cnt_empty h) by lia. replace (Z.min mid b) with (Z.min hi b) by lia.
    rewrite Hg by lia. lia.
  - destruct (decide (mid <= Z.max lo a)).
    + rewrite (cnt_empty g) by lia. replace (Z.max mid a) with (Z.max lo a) by lia.
      rewrite Hh by lia. lia.
    + rewrite (cnt_split f _ mid) by lia. rewrite Hg, Hh by lia. f_equal; f_equal; lia.
Qed.

Lemma sn_intersect_spec fuel lo hi a b n :
  0 <= lo < hi -> hi < 2 ^ 64 -> hi - lo <= Z.of_nat fuel -> sn_wf n lo hi ->
  Z.max lo a <= Z.min hi b ->
  sn_intersect fuel lo hi a b n = Ret (cnt (sn_mem n lo hi) (Z.max lo a) (Z.min hi b)).
Proof.
  revert lo hi n. induction fuel as [|fuel IH]; intros lo hi n Hl Hh Hf Hw Hab; [lia|].
  cbn [sn_intersect]. destruct n as [ol or []]; cbn [sn_status sn_left sn_right].
  - f_equal. symmetry. apply cnt_none. done.
  - destruct ol as [l|], or as [r|]; try done. destruct Hw as (Hsz & Wl & Wr).
    assert (Hmid : lo < sn_mid lo hi < hi) by (rewrite sn_mid_val by lia; div_lia).
    rewrite (cnt_halves _ (sn_mem l lo (sn_mid lo hi)) (sn_mem r (sn_mid lo hi) hi) lo hi (sn_mid lo hi))
      by (done || lia).
    pose proof (cnt_bounds (sn_mem l lo (sn_mid lo hi)) (Z.max lo a) (Z.min (sn_mid lo hi) b)) as Bl.
    pose proof (cnt_bounds (sn_mem r (sn_mid lo hi) hi) (Z.max (sn_mid lo hi) a) (Z.min hi b)) as Br.
    pose proof (cnt_empty (sn_mem l lo (sn_mid lo hi)) (Z.max lo a) (Z.min (sn_mid lo hi) b)) as El.
    pose proof (cnt_empty (sn_mem r (sn_mid lo hi) hi) (Z.max (sn_mid lo hi) a) (Z.min hi b)) as Er.
    cbn [unwrap obind].
    destruct (Z.ltb_spec lo b), (Z.ltb_spec a (sn_mid lo hi)), (Z.ltb_spec (sn_mid lo hi) b),
      (Z.ltb_spec a hi); cbn [andb obind]; try lia;
      repeat (rewrite IH by (done || lia); cbn [obind]);
      rewrite ?wadd_small by (unfold is_usize; rewrite ?wadd_small by (unfold is_usize; lia); lia);
      f_equal; lia.
  - rewrite wsub_small by (unfold is_usize; lia). f_equal. symmetry. by apply cnt_all.
Qed.

End Facts.

(** ** Claims *)

Section SegClaims.

(** The range set is in order over its range. *)
Record rs_wf (s : RangeSet) : Prop := {
  rsw_range : 0 <= r_start (rs_range s) < r_end (rs_range s);
  rsw_usize : r_end (rs_range s) < 2 ^ 64;
  rsw_tree : sn_wf (rs_root s) (r_start (rs_range s)) (r_end (rs_range s));
}.

Definition rs_mem (s : RangeSet) (k : Z) : Prop :=
  r_start (rs_range s) <= k < r_end (rs_range s) /\
  sn_mem (rs_root s) (r_start (rs_range s)) (r_end (rs_range s)) k = true.

(** [insert] and [remove] are set union and difference with the range,
    clipped to the tree's own range; they terminate within one level of
    recursion per point, never unwrap a missing child, and keep the tree in
    order.  A new set is empty. *)
Theorem range_set_update s r :
  rs_wf s ->
  (forall k, ~ rs_mem (rs_new (rs_range s)) k) /\
  (exists s', rs_insert s r = Ret s' /\ rs_wf s' /\ rs_range s' = rs_range s /\
     forall k, rs_mem s' k <->
       rs_mem s k \/ (in_range k (rs_range s) /\ in_range k r)) /\
  (exists s', rs_remove s r = Ret s' /\ rs_wf s' /\ rs_range s' = rs_range s /\
     forall k, rs_mem s' k <-> rs_mem s k /\ ~ in_range k r).
Proof.
  intros Hw. pose proof Hw as [Hr Hu Ht].
  split; [by intros k [_ H]|].
  assert (Hop : forall op, exists s', rs_operation s r op = Ret s' /\ rs_wf s' /\ rs_range s' = rs_range s /\
    forall k, in_range k (rs_range s) ->
      (rs_mem s' k <-> if bool_decide (in_range k r) then op_val op = true else rs_mem s k)).
  { intros op. unfold rs_operation, range_is_empty, rs_mem, in_range.
    destruct (Z.ltb_spec (r_start r) (r_end r)); cbn [negb].
    - destruct (sn_operation_spec (rs_fuel s) (r_start (rs_range s)) (r_end (rs_range s))
        (r_start r) (r_end r) op (rs_root s)) as (n' & -> & Wn & Mn); [done..|unfold rs_fuel; lia|done|].
      cbn [obind]. eexists. split; [done|]. split; [by constructor|]. split; [done|].
      intros k Hk. cbn [rs_range rs_root]. rewrite Mn by done.
      destruct (Z.leb_spec (r_start r) k), (Z.ltb_spec k (r_end r)); cbn [andb];
        (rewrite bool_decide_true by lia; tauto) || (rewrite bool_decide_false by lia; tauto).
    - exists s. split; [done|]. split; [done|]. split; [done|]. intros k Hk.
      rewrite bool_decide_false by lia. tauto. }
  split; [destruct (Hop Fill) as (s' & E & Ws & Er & Hm)|destruct (Hop Clear) as (s' & E & Ws & Er & Hm)];
    exists s'; (split; [done|]; split; [done|]; split; [done|]); intros k;
    (destruct (decide (in_range k (rs_range s))) as [Hk|Hk];
     [rewrite (Hm k Hk); destruct (decide (in_range k r));
      [rewrite bool_decide_true by done|rewrite bool_decide_false by done]; cbn; intuition done
     |unfold rs_mem; rewrite Er; unfold in_range in *; tauto]).
Qed.

(** For a query that meets the tree's range, [contains] answers whether
    every point of the query is in the set and [intersects] whether some point
    is; the empty query is contained and meets nothing. *)
Theorem range_set_query s r :
  rs_wf s ->
  (r_end r <= r_start r \/
   Z.max (r_start (rs_range s)) (r_start r) <= Z.min (r_end (rs_range s)) (r_end r)) ->
  is_usize (r_start r) -> is_usize (r_end r) ->
  exists c i, rs_contains s r = Ret c /\ rs_intersects s r = Ret i /\
    (c = true <-> forall k, in_range k r -> rs_mem s k) /\
    (i = true <-> exists k, in_range k r /\ rs_mem s k).
Proof.
  intros Hw Hq U1 U2. pose proof Hw as [Hr Hu Ht]. unfold rs_contains, rs_intersects, range_is_empty, in_range.
  destruct (Z.ltb_spec (r_start r) (r_end r)) as [Hne|Hne]; cbn [negb].
  - destruct Hq as [|Hq]; [lia|].
    rewrite sn_intersect_spec by (done || unfold rs_fuel; lia). cbn [obind].
    set (f := sn_mem _ _ _). set (x := Z.max _ _) in *. set (y := Z.min _ _) in *.
    do 2 eexists. split; [done|]. split; [done|]. unfold is_usize in *.
    rewrite wsub_small by (unfold is_usize; lia). pose proof (cnt_bounds f x y Hq) as Hb. split.
    + rewrite Z.eqb_eq. split.
      * intros E k Hk. assert (x = r_start r /\ y = r_end r) as [Ex Ey] by lia.
        rewrite Ex, Ey in E. split; [lia|]. apply (cnt_all f (r_start r) (r_end r)); lia.
      * intros Hall. pose proof (Hall (r_start r) ltac:(lia)) as [? _].
        pose proof (Hall (r_end r - 1) ltac:(lia)) as [? _].
        replace (r_end r - r_start r) with (y - x) by lia. apply cnt_all; [done|].
        intros k Hk. apply Hall. lia.
    + rewrite negb_true_iff, Z.eqb_neq. split.
      * intros Hnz. destruct (existsb f (seqZ x (y - x))) eqn:Ee.
        -- apply existsb_exists in Ee as (k & Hk & Hfk). apply list_elem_of_In, elem_of_seqZ in Hk.
           exists k. split; [lia|]. split; [lia|done].
        -- destruct Hnz. apply cnt_none. intros k Hk. destruct (f k) eqn:Ef; [|done].
           assert (existsb f (seqZ x (y - x)) = true); [|congruence].
           apply existsb_exists. exists k. split; [|done]. apply list_elem_of_In, elem_of_seqZ. lia.
      * intros (k & Hk & Hks & Hf) E. rewrite cnt_none in E. specialize (E k ltac:(lia)).
        unfold f in E. congruence.
  - do 2 eexists. split; [done|]. split; [done|]. split; split; try done; intros H; [intros k Hk; lia|].
    destruct H as (k & Hk & _). lia.
Qed.

End SegClaims.

(** ** Witnesses *)

Definition demo_set : RangeSet := rs_new (mkRange 0 10).

Lemma demo_set_wf : rs_wf demo_set.
Proof. constructor; cbn; lia || done. Qed.

Lemma range_set_update_witness :
  exists s', rs_insert demo_set (mkRange 3 7) = Ret s' /\ rs_mem s' 5.
Proof.
  destruct (range_set_update demo_set (mkRange 3 7) demo_set_wf) as (_ & (s' & E & _ & _ & Hm) & _).
  exists s'. split; [exact E|]. apply Hm. right. unfold in_range. cbn. lia.
Defined.

Lemma range_set_query_witness :
  exists c i, rs_contains demo_set (mkRange 3 7) = Ret c /\ rs_intersects demo_set (mkRange 3 7) = Ret i /\
    c = false /\ i = false.
Proof.
  destruct (range_set_query demo_set (mkRange 3 7) demo_set_wf) as (c & i & Ec & Ei & _ & _);
    [right; cbn; lia|by vm_compute..|].
  exists c, i. vm_compute in Ec, Ei. by injection Ec as <-; injection Ei as <-.
Defined.
