(* ===== verification/RingBuffer.v ===== *)
(** The byte ring buffer (os/src/utils/ring_buffer.rs), refined by a FIFO queue:
    the abstract contents are the bytes from [head] on, wrapping at the end of
    the backing vector.  Indexes are [nat]: they stay below the vector's length
    and sums below twice it, so [usize] arithmetic never wraps. *)

From S2P Require Import Prelude.

(** ** Slices of a vector *)

Section Slices.
Context {A : Type}.

(** [v[a..b]], which panics out of range. *)
Definition slice (v : list A) (a b : nat) : outcome (list A) :=
  if (a <=? b) && (b <=? length v) then Ret (take (b - a) (drop a v)) else Panic.

(** [v[a..b].copy_from_slice(src)], which panics out of range or on a length
    mismatch. *)
Definition copy_from_slice (v : list A) (a b : nat) (src : list A) : outcome (list A) :=
  if (a <=? b) && (b <=? length v) && (b - a =? length src)
  then Ret (take a v ++ src ++ drop b v) else Panic.

End Slices.

(** ** The ring buffer *)

Inductive RingBufferState := EMPTY | FULL | NORMAL.

Record RingBuffer := mkRB {
  rb_arr : list Z;
  rb_head : nat;
  rb_tail : nat;
  rb_state : RingBufferState;
}.

Definition rb_new (len : nat) : RingBuffer := mkRB (replicate len 0%Z) 0 0 EMPTY.

Definition rb_is_empty (rb : RingBuffer) : bool :=
  match rb_state rb with EMPTY => true | _ => false end.
Definition rb_is_full (rb : RingBuffer) : bool :=
  match rb_state rb with FULL => true | _ => false end.

(** [%], which panics on zero. *)
Definition rem (a n : nat) : outcome nat := if n =? 0 then Panic else Ret (a mod n).

(** The copy out of the vector in [read]: the length and the filled buffer. *)
Definition rb_copy_out (rb : RingBuffer) (buf : list Z) : outcome (nat * list Z) :=
  let n := length (rb_arr rb) in
  if rb_head rb <? rb_tail rb then
    let ret_len := Nat.min (rb_tail rb - rb_head rb) (length buf) in
    let! src := slice (rb_arr rb) (rb_head rb) (rb_head rb + ret_len) in
    let! buf := copy_from_slice buf 0 ret_len src in
    Ret (ret_len, buf)
  else
    let ret_len := Nat.min (n - rb_head rb + rb_tail rb) (length buf) in
    if ret_len <=? n - rb_head rb then
      let! src := slice (rb_arr rb) (rb_head rb) (rb_head rb + ret_len) in
      let! buf := copy_from_slice buf 0 ret_len src in
      Ret (ret_len, buf)
    else
      let right_len := n - rb_head rb in
      let! src := slice (rb_arr rb) (rb_head rb) n in
      let! buf := copy_from_slice buf 0 right_len src in
      let! src := slice (rb_arr rb) 0 (ret_len - right_len) in
      let! buf := copy_from_slice buf right_len ret_len src in
      Ret (ret_len, buf).

(** Read into a buffer; the result is the number of bytes and the new buffer. *)
Definition rb_read (rb : RingBuffer) (buf : list Z) : outcome (nat * list Z * RingBuffer) :=
  if rb_is_empty rb || (length buf =? 0) then Ret (0, buf, rb)
  else
    let! res := rb_copy_out rb buf in
    let '(ret_len, buf) := res in
    let! head := rem (rb_head rb + ret_len) (length (rb_arr rb)) in
    let state := if head =? rb_tail rb then EMPTY else NORMAL in
    Ret (ret_len, buf, mkRB (rb_arr rb) head (rb_tail rb) state).

(** The copy into the vector in [write]. *)
Definition rb_copy_in (rb : RingBuffer) (buf : list Z) : outcome (nat * list Z) :=
  let n := length (rb_arr rb) in
  let tail := rb_tail rb in
  if rb_head rb <=? tail then
    let ret_len := Nat.min (n - (tail - rb_head rb)) (length buf) in
    if ret_len <=? n - tail then
      let! src := slice buf 0 ret_len in
      let! arr := copy_from_slice (rb_arr rb) tail (tail + ret_len) src in
      Ret (ret_len, arr)
    else
      let! src := slice buf 0 (n - tail) in
      let! arr := copy_from_slice (rb_arr rb) tail n src in
      let! src := slice buf (n - tail) ret_len in
      let! arr := copy_from_slice arr 0 (ret_len - (n - tail)) src in
      Ret (ret_len, arr)
  else
    let ret_len := Nat.min (rb_head rb - tail) (length buf) in
    let! src := slice buf 0 ret_len in
    let! arr := copy_from_slice (rb_arr rb) tail (tail + ret_len) src in
    Ret (ret_len, arr).

Definition rb_write (rb : RingBuffer) (buf : list Z) : outcome (nat * RingBuffer) :=
  if rb_is_full rb || (length buf =? 0) then Ret (0, rb)
  else
    let! res := rb_copy_in rb buf in
    let '(ret_len, arr) := res in
    let! tail := rem (rb_tail rb + ret_len) (length (rb_arr rb)) in
    let state := if rb_head rb =? tail then FULL else NORMAL in
    Ret (ret_len, mkRB arr (rb_head rb) tail state).

Definition rb_dequeue (rb : RingBuffer) : outcome (option Z * RingBuffer) :=
  if rb_is_empty rb then Ret (None, rb)
  else
    let n := length (rb_arr rb) in
    let! c := unwrap (rb_arr rb !! rb_head rb) in
    let! head := rem (rb_head rb + 1) n in
    let state := if head =? rb_tail rb then EMPTY else NORMAL in
    Ret (Some c, mkRB (rb_arr rb) head (rb_tail rb) state).

Definition rb_enqueue (rb : RingBuffer) (byte : Z) : outcome (option unit * RingBuffer) :=
  if rb_is_full rb then Ret (None, rb)
  else
    let n := length (rb_arr rb) in
    assert! rb_tail rb <? n in
    let arr := <[rb_tail rb := byte]> (rb_arr rb) in
    let! tail := rem (rb_tail rb + 1) n in
    let state := if rb_head rb =? tail then FULL else NORMAL in
    Ret (Some tt, mkRB arr (rb_head rb) tail state).

(** ** Contents *)

Definition rb_len (rb : RingBuffer) : nat := length (rb_arr rb).

Record rb_wf (rb : RingBuffer) : Prop := {
  rbw_head : rb_head rb < rb_len rb;
  rbw_tail : rb_tail rb < rb_len rb;
  rbw_state : rb_state rb = NORMAL <-> rb_head rb <> rb_tail rb;
}.

(** The number of bytes queued. *)
Definition rb_count (rb : RingBuffer) : nat :=
  match rb_state rb with
  | EMPTY => 0
  | FULL => rb_len rb
  | NORMAL => if rb_head rb <? rb_tail rb then rb_tail rb - rb_head rb
              else rb_len rb - rb_head rb + rb_tail rb
  end.

(** An index past the end wraps around once. *)
Definition wrapi (n k : nat) : nat := if k <? n then k else k - n.

Definition rb_at (rb : RingBuffer) (i : nat) : Z := nth (wrapi (rb_len rb) (rb_head rb + i)) (rb_arr rb) 0%Z.

Definition rb_data (rb : RingBuffer) : list Z := map (rb_at rb) (seq 0 (rb_count rb)).

(** ** Lists as functions of the index *)

Section Tabulate.

Lemma map_seq_split (f : nat -> Z) a b :
  map f (seq 0 (a + b)) = map f (seq 0 a) ++ map (fun i => f (a + i)) (seq 0 b).
Proof.
  rewrite seq_app, map_app. f_equal. cbn. revert a. induction b as [|b IH]; intros a; [done|].
  rewrite !seq_S, !map_app, IH. done.
Qed.

Lemma take_map_seq (f : nat -> Z) k c :
  take k (map f (seq 0 c)) = map f (seq 0 (Nat.min k c)).
Proof.
  destruct (Nat.le_ge_cases k c).
  - replace c with (k + (c - k)) at 1 by lia. rewrite map_seq_split, take_app_length'.
    + by rewrite Nat.min_l.
    + by rewrite length_map, length_seq.
  - rewrite Nat.min_r by done. apply take_ge. by rewrite length_map, length_seq.
Qed.

Lemma drop_map_seq (f : nat -> Z) k c :
  drop k (map f (seq 0 c)) = map (fun i => f (k + i)) (seq 0 (c - k)).
Proof.
  destruct (Nat.le_ge_cases k c).
  - replace c with (k + (c - k)) at 1 by lia. rewrite map_seq_split, drop_app_length'; [done|].
    by rewrite length_map, length_seq.
  - replace (c - k) with 0 by lia. apply drop_ge. by rewrite length_map, length_seq.
Qed.

Lemma list_as_map_seq (l : list Z) : l = map (fun i => nth i l 0%Z) (seq 0 (length l)).
Proof.
  induction l as [|x l IH]; [done|]. cbn. f_equal. rewrite <- seq_shift, map_map. exact IH.
Qed.

Lemma map_seq_ext (f g : nat -> Z) c :
  (forall i, i < c -> f i = g i) -> map f (seq 0 c) = map g (seq 0 c).
Proof. intros H. apply map_ext_in. intros i Hi%in_seq. apply H. lia. Qed.

Lemma slice_map_seq (l : list Z) a r :
  a + r <= length l -> take r (drop a l) = map (fun i => nth (a + i) l 0%Z) (seq 0 r).
Proof.
  intros H. rewrite (list_as_map_seq l) at 1. rewrite drop_map_seq, take_map_seq.
  by rewrite Nat.min_l by lia.
Qed.

(** Reading a vector after a store. *)
Lemma nth_store (v src : list Z) a j :
  a + length src <= length v ->
  nth j (take a v ++ src ++ drop (a + length src) v) 0%Z =
    if (a <=? j) && (j <? a + length src) then nth (j - a) src 0%Z else nth j v 0%Z.
Proof.
  intros H. assert (Hl : length (take a v) = a) by (rewrite length_take; lia).
  destruct (Nat.leb_spec a j); cbn [andb].
  - rewrite app_nth2, Hl by lia. destruct (Nat.ltb_spec j (a + length src)).
    + by rewrite app_nth1 by lia.
    + rewrite app_nth2 by lia. rewrite <- (firstn_skipn (a + length src) v) at 2.
      rewrite (app_nth2 (firstn _ v)); rewrite ?length_firstn; [|lia]. f_equal. lia.
  - rewrite app_nth1 by lia. rewrite <- (firstn_skipn a v) at 2.
    by rewrite app_nth1 by (rewrite ?length_firstn; lia).
Qed.

End Tabulate.

(** ** Positions *)

Section Positions.

Ltac wi := unfold wrapi; repeat (case_if || match goal with
  | H : (_ <? _) = true |- _ => apply Nat.ltb_lt in H
  | H : (_ <? _) = false |- _ => apply Nat.ltb_ge in H end); try lia.

Lemma wrapi_lt n k : k < 2 * n -> wrapi n k < n.
Proof. intros. wi. Qed.

Lemma mod_wrapi n k : k < 2 * n -> k mod n = wrapi n k.
Proof.
  intros Hk. wi; [by apply Nat.mod_small|].
  replace k with (k - n + 1 * n) at 1 by lia. rewrite Nat.Div0.mod_add. apply Nat.mod_small. lia.
Qed.

Lemma wrapi_add n h a b : h < n -> a + b <= n -> wrapi n (wrapi n (h + a) + b) = wrapi n (h + (a + b)).
Proof. intros. wi. Qed.

(** The state a queue of [c] bytes must be in. *)
Definition state_of (n c : nat) : RingBufferState :=
  if c =? 0 then EMPTY else if c =? n then FULL else NORMAL.

Lemma rb_count_spec rb :
  rb_wf rb ->
  rb_tail rb = wrapi (rb_len rb) (rb_head rb + rb_count rb) /\ rb_count rb <= rb_len rb /\
  rb_state rb = state_of (rb_len rb) (rb_count rb).
Proof.
  intros [Hh Ht Hs]. unfold rb_count, state_of. destruct (rb_state rb) eqn:Es.
  - assert (E : rb_head rb = rb_tail rb) by (destruct (decide (rb_head rb = rb_tail rb));
      [done|by apply Hs in n]).
    cbn. split; [wi|split; [lia|done]].
  - assert (E : rb_head rb = rb_tail rb) by (destruct (decide (rb_head rb = rb_tail rb));
      [done|by apply Hs in n]).
    rewrite Nat.eqb_refl. destruct (Nat.eqb_spec (rb_len rb) 0); [lia|]. split; [wi|done].
  - assert (Hne : rb_head rb <> rb_tail rb) by by apply Hs.
    destruct (Nat.ltb_spec (rb_head rb) (rb_tail rb)); (split; [wi|]; split; [lia|]);
      repeat (case_if || match goal with H : (_ =? _) = true |- _ => apply Nat.eqb_eq in H end); (lia || done).
Qed.

Lemma rb_make arr h c :
  h < length arr -> c <= length arr ->
  let rb := mkRB arr h (wrapi (length arr) (h + c)) (state_of (length arr) c) in
  rb_wf rb /\ rb_count rb = c.
Proof.
  intros Hh Hc rb. unfold rb, state_of. clear rb.
  destruct (Nat.eqb_spec c 0) as [->|]; [|destruct (Nat.eqb_spec c (length arr)) as [->|]].
  - split; [constructor; cbn; unfold rb_len; cbn; [done|wi|]|done].
    split; [done|]. intros H. exfalso. apply H. wi.
  - split; [constructor; cbn; unfold rb_len; cbn; [done|wi|]|done].
    split; [done|]. intros H. exfalso. apply H. wi.
  - assert (Hne : h <> wrapi (length arr) (h + c)) by wi.
    split; [constructor; cbn; unfold rb_len; cbn; [done|wi|done]|].
    unfold rb_count, rb_len. cbn [rb_state rb_head rb_tail rb_arr].
    destruct (Nat.ltb_spec h (wrapi (length arr) (h + c))) as [Hl|Hl]; revert Hl; wi.
Qed.

(** After a transfer the state follows from comparing the two indexes. *)
Lemma state_of_read n h c : h < n -> c < n ->
  (if h =? wrapi n (h + c) then EMPTY else NORMAL) = state_of n c.
Proof.
  intros Hh Hc. unfold state_of. destruct (Nat.eqb_spec h (wrapi n (h + c))) as [E|E], (Nat.eqb_spec c 0);
    try done; revert E; wi; destruct (Nat.eqb_spec c n); (done || lia).
Qed.

Lemma state_of_write n h c : h < n -> 0 < c <= n ->
  (if h =? wrapi n (h + c) then FULL else NORMAL) = state_of n c.
Proof.
  intros Hh Hc. unfold state_of. destruct (Nat.eqb_spec c 0); [lia|].
  destruct (Nat.eqb_spec h (wrapi n (h + c))) as [E|E], (Nat.eqb_spec c n); try done; revert E; wi.
Qed.

End Positions.

(** ** Reading and writing *)

Section ReadWrite.

Lemma slice_ok (v : list Z) a b :
  a <= b -> b <= length v -> slice v a b = Ret (map (fun i => nth (a + i) v 0%Z) (seq 0 (b - a))).
Proof.
  intros Ha Hb. unfold slice. destruct (Nat.leb_spec a b), (Nat.leb_spec b (length v)); try lia.
  cbn [andb]. by rewrite slice_map_seq by lia.
Qed.

Lemma copy_ok (v src : list Z) a b :
  a + length src = b -> b <= length v -> copy_from_slice v a b src = Ret (take a v ++ src ++ drop b v).
Proof.
  intros Ha Hb. unfold copy_from_slice.
  destruct (Nat.leb_spec a b), (Nat.leb_spec b (length v)), (Nat.eqb_spec (b - a) (length src)); try lia.
  done.
Qed.

Lemma length_map_seq (f : nat -> Z) c : length (map f (seq 0 c)) = c.
Proof. by rewrite length_map, length_seq. Qed.

(** What a byte of the contents is. *)
Lemma rb_at_low rb i : rb_head rb + i < rb_len rb -> rb_at rb i = nth (rb_head rb + i) (rb_arr rb) 0%Z.
Proof. intros. unfold rb_at, wrapi. by destruct (Nat.ltb_spec (rb_head rb + i) (rb_len rb)); [|lia]. Qed.

Lemma rb_at_high rb i :
  rb_len rb <= rb_head rb + i -> rb_at rb i = nth (rb_head rb + i - rb_len rb) (rb_arr rb) 0%Z.
Proof. intros. unfold rb_at, wrapi. by destruct (Nat.ltb_spec (rb_head rb + i) (rb_len rb)); [lia|]. Qed.

Lemma copy_out_once rb buf r :
  r <= length buf -> rb_head rb + r <= rb_len rb ->
  (let! src := slice (rb_arr rb) (rb_head rb) (rb_head rb + r) in
   let! buf := copy_from_slice buf 0 r src in Ret (r, buf)) =
  Ret (r, map (rb_at rb) (seq 0 r) ++ drop r buf).
Proof.
  intros Hb Hn. rewrite slice_ok by (done || lia). cbn [obind].
  rewrite copy_ok by (rewrite ?length_map_seq; lia). cbn [obind]. rewrite take_0. cbn [app].
  replace (rb_head rb + r - rb_head rb) with r by lia. do 3 f_equal.
  apply map_seq_ext. intros i Hi. by rewrite rb_at_low by lia.
Qed.

(** Whichever branch is taken, [read] copies the front of the contents. *)
Lemma rb_copy_out_spec rb buf :
  rb_wf rb -> rb_count rb <> 0 ->
  let r := Nat.min (rb_count rb) (length buf) in
  rb_copy_out rb buf = Ret (r, map (rb_at rb) (seq 0 r) ++ drop r buf).
Proof.
  intros Hw Hc r. pose proof Hw as [Hh Ht Hs]. destruct (rb_count_spec rb Hw) as (Et & Hcn & _).
  assert (Hcnt : rb_count rb = if rb_head rb <? rb_tail rb then rb_tail rb - rb_head rb
                               else rb_len rb - rb_head rb + rb_tail rb).
  { revert Et. unfold wrapi. destruct (Nat.ltb_spec (rb_head rb + rb_count rb) (rb_len rb)),
      (Nat.ltb_spec (rb_head rb) (rb_tail rb)); lia. }
  unfold rb_copy_out. fold (rb_len rb).
  destruct (Nat.ltb_spec (rb_head rb) (rb_tail rb)) as [|Hge]; rewrite <- Hcnt; fold r.
  { apply copy_out_once; lia. }
  destruct (Nat.leb_spec r (rb_len rb - rb_head rb)); [apply copy_out_once; lia|].
  set (k := rb_len rb - rb_head rb) in *.
  rewrite slice_ok by (unfold rb_len in *; lia). cbn [obind]. fold k.
  rewrite copy_ok by (rewrite ?length_map_seq; unfold r; lia). cbn [obind]. rewrite take_0. cbn [app].
  rewrite slice_ok by (unfold rb_len in *; unfold r; lia). cbn [obind]. rewrite Nat.sub_0_r.
  rewrite copy_ok by (rewrite ?length_app, ?length_drop, ?length_map_seq; unfold r; lia).
  cbn [obind]. do 2 f_equal.
  rewrite take_app_length', drop_app, drop_map_seq, drop_drop, length_map_seq by (rewrite length_map_seq; done).
  replace (k - r) with 0 by lia. replace (k + (r - k)) with r by lia. cbn [seq map app].
  rewrite app_assoc. f_equal. replace r with (k + (r - k)) at 2 by lia. rewrite map_seq_split.
  f_equal; apply map_seq_ext; intros i Hi.
  - by rewrite rb_at_low by lia.
  - rewrite rb_at_high by lia. f_equal. lia.
Qed.

Lemma rem_wrapi n k : k < 2 * n -> rem k n = Ret (wrapi n k).
Proof.
  intros. unfold rem. destruct (Nat.eqb_spec n 0); [lia|]. by rewrite mod_wrapi.
Qed.

Lemma rb_empty_count rb : rb_wf rb -> rb_is_empty rb = (rb_count rb =? 0).
Proof.
  intros Hw. destruct (rb_count_spec rb Hw) as (_ & _ & E). unfold rb_is_empty. rewrite E.
  unfold state_of. destruct (rb_count rb =? 0); [done|]. by destruct (rb_count rb =? rb_len rb).
Qed.

Lemma rb_full_count rb : rb_wf rb -> rb_is_full rb = (rb_count rb =? rb_len rb).
Proof.
  intros Hw. destruct (rb_count_spec rb Hw) as (_ & _ & E). pose proof (rbw_head rb Hw).
  unfold rb_is_full. rewrite E. unfold state_of.
  destruct (Nat.eqb_spec (rb_count rb) 0), (Nat.eqb_spec (rb_count rb) (rb_len rb)); (done || lia).
Qed.

Lemma rb_read_spec rb buf :
  rb_wf rb ->
  let r := Nat.min (rb_count rb) (length buf) in
  exists rb', rb_read rb buf = Ret (r, take r (rb_data rb) ++ drop r buf, rb') /\
    rb_wf rb' /\ rb_len rb' = rb_len rb /\ rb_data rb' = drop r (rb_data rb).
Proof.
  intros Hw r. destruct (rb_count_spec rb Hw) as (Et & Hcn & _). pose proof (rbw_head rb Hw) as Hh.
  unfold rb_read. rewrite rb_empty_count by done.
  destruct (Nat.eqb_spec (rb_count rb) 0) as [E0|E0]; [|destruct (Nat.eqb_spec (length buf) 0) as [E1|E1]].
  1-2: exists rb; replace r with 0 by lia; cbn [orb]; by rewrite take_0, !drop_0.
  cbn [orb]. rewrite rb_copy_out_spec by done. fold r. cbn [obind].
  fold (rb_len rb). rewrite rem_wrapi by (unfold r; lia). cbn [obind].
  set (h := wrapi (rb_len rb) (rb_head rb + r)).
  assert (Hh' : h < rb_len rb) by (apply wrapi_lt; unfold r; lia).
  assert (Et' : rb_tail rb = wrapi (rb_len rb) (h + (rb_count rb - r))).
  { unfold h. rewrite wrapi_add by (unfold r; lia). rewrite Et at 1. f_equal. unfold r. lia. }
  rewrite Et', state_of_read by (unfold r; lia).
  destruct (rb_make (rb_arr rb) h (rb_count rb - r)) as [Hw' Hc']; [done|unfold rb_len in *; lia|].
  eexists. split; [|split; [exact Hw'|split; [done|]]].
  - unfold rb_data. rewrite take_map_seq. by rewrite Nat.min_l by (unfold r; lia).
  - unfold rb_data. rewrite Hc', drop_map_seq. apply map_seq_ext. intros i Hi.
    unfold rb_at. cbn [rb_head rb_arr]. change (rb_len (mkRB _ _ _ _)) with (rb_len rb).
    f_equal. unfold h. apply wrapi_add; [done|]. unfold r in *. lia.
Qed.

(** How far a slot is past the tail, going round. *)
Definition past_tail (rb : RingBuffer) (j : nat) : nat :=
  if rb_tail rb <=? j then j - rb_tail rb else j + rb_len rb - rb_tail rb.

(** [write] fills the [r] slots from the tail on. *)
Definition filled (rb : RingBuffer) (buf arr : list Z) (r : nat) : Prop :=
  length arr = rb_len rb /\
  forall j, j < rb_len rb ->
    nth j arr 0%Z = if past_tail rb j <? r then nth (past_tail rb j) buf 0%Z else nth j (rb_arr rb) 0%Z.

Lemma nth_map_seq (f : nat -> Z) i c : i < c -> nth i (map f (seq 0 c)) 0%Z = f i.
Proof.
  intros. rewrite nth_indep with (d' := f 0) by by rewrite length_map_seq.
  by rewrite map_nth, seq_nth by done.
Qed.

Lemma length_store (v src : list Z) a b :
  a + length src = b -> b <= length v -> length (take a v ++ src ++ drop b v) = length v.
Proof. intros. rewrite !length_app, length_take, length_drop. lia. Qed.

Lemma copy_in_once rb buf r :
  rb_wf rb -> r <= length buf -> rb_tail rb + r <= rb_len rb ->
  exists arr, filled rb buf arr r /\
    (let! src := slice buf 0 r in
     let! arr := copy_from_slice (rb_arr rb) (rb_tail rb) (rb_tail rb + r) src in
     Ret (r, arr)) = Ret (r, arr).
Proof.
  intros Hw Hb Hn. pose proof (rbw_tail rb Hw).
  rewrite slice_ok by (done || lia). cbn [obind]. rewrite Nat.sub_0_r.
  rewrite copy_ok by (rewrite ?length_map_seq; unfold rb_len in *; lia). cbn [obind].
  eexists. split; [|done]. split; [apply length_store; rewrite ?length_map_seq; unfold rb_len in *; lia|].
  intros j Hj. pose proof (nth_store (rb_arr rb) (map (fun i => nth (0 + i) buf 0%Z) (seq 0 r))
    (rb_tail rb) j) as E.
  rewrite length_map_seq in E. rewrite E by (unfold rb_len in *; lia). unfold past_tail.
  destruct (Nat.leb_spec (rb_tail rb) j); cbn [andb].
  - destruct (Nat.ltb_spec j (rb_tail rb + r)), (Nat.ltb_spec (j - rb_tail rb) r); try lia.
    by rewrite nth_map_seq by done.
  - destruct (Nat.ltb_spec (j + rb_len rb - rb_tail rb) r); [lia|done].
Qed.

Lemma copy_in_twice rb buf r :
  rb_wf rb -> r <= length buf -> rb_len rb - rb_tail rb < r <= rb_len rb ->
  let n := rb_len rb in
  let tail := rb_tail rb in
  exists arr, filled rb buf arr r /\
    (let! src := slice buf 0 (n - tail) in
     let! arr := copy_from_slice (rb_arr rb) tail n src in
     let! src := slice buf (n - tail) r in
     let! arr := copy_from_slice arr 0 (r - (n - tail)) src in
     Ret (r, arr)) = Ret (r, arr).
Proof.
  intros Hw Hb Hn n tail. pose proof (rbw_tail rb Hw) as Ht. fold n tail in Ht, Hn.
  assert (Hl : length (rb_arr rb) = n) by done. set (k := n - tail) in *.
  rewrite slice_ok by (done || lia). cbn [obind]. rewrite Nat.sub_0_r.
  rewrite copy_ok by (rewrite ?length_map_seq; lia). cbn [obind].
  rewrite slice_ok by (done || lia). cbn [obind].
  set (src1 := map (fun i => nth (0 + i) buf 0%Z) (seq 0 k)).
  set (src2 := map (fun i => nth (k + i) buf 0%Z) (seq 0 (r - k))).
  assert (L1 : length src1 = k) by apply length_map_seq.
  assert (L2 : length src2 = r - k) by apply length_map_seq.
  set (arr1 := take tail (rb_arr rb) ++ src1 ++ drop n (rb_arr rb)).
  assert (La : length arr1 = n) by (unfold arr1; rewrite length_store; lia).
  rewrite copy_ok by lia. cbn [obind]. eexists. split; [|done].
  split; [rewrite length_store; lia|]. intros j Hj.
  pose proof (nth_store arr1 src2 0 j) as E. rewrite L2 in E. cbn [Nat.add] in E. rewrite E by lia.
  pose proof (nth_store (rb_arr rb) src1 tail j) as E1. rewrite L1 in E1.
  replace (tail + k) with n in E1 by lia. fold arr1 in E1. rewrite E1 by lia.
  unfold past_tail. fold n tail. destruct (Nat.leb_spec 0 j); [|lia]. cbn [andb].
  destruct (Nat.ltb_spec j (r - k)), (Nat.leb_spec tail j), (Nat.ltb_spec j n); cbn [andb]; try lia.
  - destruct (Nat.ltb_spec (j + n - tail) r); [|lia]. unfold src2. rewrite nth_map_seq by lia.
    f_equal. lia.
  - destruct (Nat.ltb_spec (j - tail) r); [|lia]. unfold src1. by rewrite nth_map_seq by lia.
  - destruct (Nat.ltb_spec (j + n - tail) r); [lia|done].
Qed.

Lemma rb_copy_in_spec rb buf :
  rb_wf rb -> rb_count rb <> rb_len rb ->
  let r := Nat.min (rb_len rb - rb_count rb) (length buf) in
  exists arr, filled rb buf arr r /\ rb_copy_in rb buf = Ret (r, arr).
Proof.
  intros Hw Hc r. pose proof Hw as [Hh Ht Hs]. destruct (rb_count_spec rb Hw) as (Et & Hcn & _).
  assert (Hsp : rb_len rb - rb_count rb =
    if rb_head rb <=? rb_tail rb then rb_len rb - (rb_tail rb - rb_head rb) else rb_head rb - rb_tail rb).
  { revert Et. unfold wrapi. destruct (Nat.ltb_spec (rb_head rb + rb_count rb) (rb_len rb)),
      (Nat.leb_spec (rb_head rb) (rb_tail rb)); lia. }
  unfold rb_copy_in. fold (rb_len rb).
  destruct (Nat.leb_spec (rb_head rb) (rb_tail rb)); rewrite <- Hsp; fold r.
  - destruct (Nat.leb_spec r (rb_len rb - rb_tail rb)).
    + apply copy_in_once; [done|lia|lia].
    + apply copy_in_twice; [done|lia|]. unfold r. lia.
  - apply copy_in_once; [done|lia|]. unfold r. lia.
Qed.

(** Where the bytes of the new contents sit. *)
Lemma filled_contents rb buf arr r i :
  rb_wf rb -> filled rb buf arr r -> rb_count rb + r <= rb_len rb -> i < rb_count rb + r ->
  nth (wrapi (rb_len rb) (rb_head rb + i)) arr 0%Z =
    if i <? rb_count rb then rb_at rb i else nth (i - rb_count rb) buf 0%Z.
Proof.
  intros Hw [_ Hf] Hr Hi. pose proof Hw as [Hh _ _]. destruct (rb_count_spec rb Hw) as (Et & Hcn & _).
  rewrite Hf by (apply wrapi_lt; lia). unfold rb_at.
  assert (E : past_tail rb (wrapi (rb_len rb) (rb_head rb + i)) =
            if i <? rb_count rb then rb_len rb - rb_count rb + i else i - rb_count rb).
  { unfold past_tail. rewrite Et. unfold wrapi.
    destruct (Nat.ltb_spec (rb_head rb + i) (rb_len rb)), (Nat.ltb_spec i (rb_count rb)),
      (Nat.ltb_spec (rb_head rb + rb_count rb) (rb_len rb));
      match goal with |- (if ?a <=? ?b then _ else _) = _ => destruct (Nat.leb_spec a b) end; lia. }
  rewrite E. destruct (Nat.ltb_spec i (rb_count rb));
    match goal with |- (if ?a <? ?b then _ else _) = _ => destruct (Nat.ltb_spec a b) end; (done || lia).
Qed.

Lemma rb_write_spec rb buf :
  rb_wf rb ->
  let r := Nat.min (rb_len rb - rb_count rb) (length buf) in
  exists rb', rb_write rb buf = Ret (r, rb') /\
    rb_wf rb' /\ rb_len rb' = rb_len rb /\ rb_data rb' = rb_data rb ++ take r buf.
Proof.
  intros Hw r. destruct (rb_count_spec rb Hw) as (Et & Hcn & _). pose proof (rbw_head rb Hw) as Hh.
  unfold rb_write. rewrite rb_full_count by done.
  destruct (Nat.eqb_spec (rb_count rb) (rb_len rb)) as [E0|E0];
    [|destruct (Nat.eqb_spec (length buf) 0) as [E1|E1]].
  1-2: exists rb; replace r with 0 by lia; cbn [orb]; by rewrite take_0, app_nil_r.
  cbn [orb]. destruct (rb_copy_in_spec rb buf Hw E0) as (arr & Hf & ->). fold r in Hf |- *. cbn [obind].
  fold (rb_len rb). pose proof (rbw_tail rb Hw). rewrite rem_wrapi by (unfold r; lia). cbn [obind].
  assert (Et' : wrapi (rb_len rb) (rb_tail rb + r) = wrapi (rb_len rb) (rb_head rb + (rb_count rb + r))).
  { rewrite Et. apply wrapi_add; [done|]. unfold r. lia. }
  pose proof Hf as [Hl _]. rewrite Et', state_of_write by (unfold r; lia). rewrite <- Hl.
  destruct (rb_make arr (rb_head rb) (rb_count rb + r)) as [Hw' Hc']; [lia|unfold r; lia|].
  eexists. split; [done|]. split; [exact Hw'|]. split; [done|].
  unfold rb_data. rewrite Hc', map_seq_split. f_equal.
  - apply map_seq_ext. intros i Hi. unfold rb_at at 1. cbn [rb_head rb_arr].
    change (rb_len (mkRB arr _ _ _)) with (length arr). rewrite Hl.
    rewrite (filled_contents rb buf arr r) by (done || unfold r; lia).
    by destruct (Nat.ltb_spec i (rb_count rb)); [|lia].
  - pose proof (slice_map_seq buf 0 r ltac:(unfold r; lia)) as E. rewrite drop_0 in E. rewrite E.
    apply map_seq_ext. intros i Hi. unfold rb_at. cbn [rb_head rb_arr].
    change (rb_len (mkRB arr _ _ _)) with (length arr). rewrite Hl.
    rewrite (filled_contents rb buf arr r) by (done || unfold r in *; lia).
    destruct (Nat.ltb_spec (rb_count rb + i) (rb_count rb)); [lia|]. f_equal. lia.
Qed.

End ReadWrite.

(** ** Claims *)

Lemma rb_new_wf len :
  0 < len -> rb_wf (rb_new len) /\ rb_data (rb_new len) = [] /\ rb_len (rb_new len) = len.
Proof.
  intros Hlen. unfold rb_new. assert (E : rb_len (mkRB (replicate len 0%Z) 0 0 EMPTY) = len)
    by apply length_replicate.
  split; [|done]. constructor; rewrite ?E; cbn; done.
Qed.

Lemma rb_data_length rb : length (rb_data rb) = rb_count rb.
Proof. apply length_map_seq. Qed.

Lemma rb_data_cons rb : rb_wf rb -> rb_count rb <> 0 ->
  rb_data rb = nth (rb_head rb) (rb_arr rb) 0%Z :: tail (rb_data rb).
Proof.
  intros Hw Hc. pose proof (rbw_head rb Hw). unfold rb_data.
  destruct (rb_count rb); [done|]. cbn [seq map tail]. f_equal. rewrite rb_at_low by lia. f_equal. lia.
Qed.

(** [read] takes bytes from the front of the queue: it copies as many as are
    queued and fit, in order, leaves the rest of the caller's buffer alone, and
    the remaining contents are what follows.  No slice or index panics. *)
Theorem ring_read_fifo rb buf :
  rb_wf rb ->
  let r := Nat.min (length (rb_data rb)) (length buf) in
  exists rb', rb_read rb buf = Ret (r, take r (rb_data rb) ++ drop r buf, rb') /\
    rb_wf rb' /\ rb_len rb' = rb_len rb /\ rb_data rb' = drop r (rb_data rb).
Proof. rewrite rb_data_length. apply rb_read_spec. Qed.

(** [write] appends to the back of the queue: it accepts as many bytes as
    there is room for, in order, and keeps what was queued.  No slice or index
    panics, and the queue never exceeds the vector's length. *)
Theorem ring_write_fifo rb buf :
  rb_wf rb ->
  let r := Nat.min (rb_len rb - length (rb_data rb)) (length buf) in
  exists rb', rb_write rb buf = Ret (r, rb') /\ rb_wf rb' /\ rb_len rb' = rb_len rb /\
    rb_data rb' = rb_data rb ++ take r buf /\ length (rb_data rb') <= rb_len rb.
Proof.
  intros Hw r. destruct (rb_write_spec rb buf Hw) as (rb' & E & Hw' & Hl & Hd).
  unfold r. rewrite rb_data_length. exists rb'. split_and!; try done.
  rewrite rb_data_length, <- Hl. by apply rb_count_spec.
Qed.

(** The one-byte operations are transfers of one byte. *)
Lemma rb_enqueue_write rb b :
  rb_wf rb -> rb_is_full rb = false ->
  exists rb', rb_write rb [b] = Ret (1, rb') /\ rb_enqueue rb b = Ret (Some tt, rb').
Proof.
  intros Hw Hf. pose proof (rbw_head rb Hw) as Hh. pose proof (rbw_tail rb Hw) as Ht.
  unfold rb_write, rb_enqueue. rewrite Hf. cbn [orb length Nat.eqb].
  rewrite rb_full_count in Hf by done. apply Nat.eqb_neq in Hf.
  assert (Hc : rb_copy_in rb [b] = Ret (1, <[rb_tail rb := b]> (rb_arr rb))).
  { assert (Hone : (let! src := slice [b] 0 1 in
        let! arr := copy_from_slice (rb_arr rb) (rb_tail rb) (rb_tail rb + 1) src in Ret (1, arr)) =
        Ret (1, <[rb_tail rb := b]> (rb_arr rb))).
    { rewrite slice_ok by (cbn; lia). cbn [obind seq map Nat.sub Nat.add nth].
      rewrite copy_ok by (unfold rb_len in *; cbn; lia). cbn [obind].
      by rewrite insert_take_drop, Nat.add_1_r by exact Ht. }
    destruct (rb_copy_in_spec rb [b] Hw Hf) as (arr & _ & Er). cbn [length] in Er.
    destruct (rb_count_spec rb Hw) as (_ & Hcn & _).
    replace (Nat.min (rb_len rb - rb_count rb) 1) with 1 in Er by lia. rewrite Er.
    unfold rb_copy_in in Er. fold (rb_len rb) in Er. cbn [length] in Er.
    destruct (Nat.leb_spec (rb_head rb) (rb_tail rb)).
    - replace (Nat.min (rb_len rb - (rb_tail rb - rb_head rb)) 1) with 1 in Er by lia.
      destruct (Nat.leb_spec 1 (rb_len rb - rb_tail rb)); [|lia]. by rewrite <- Er, Hone.
    - replace (Nat.min (rb_head rb - rb_tail rb) 1) with 1 in Er by lia. by rewrite <- Er, Hone. }
  rewrite Hc. cbn [obind]. fold (rb_len rb).
  destruct (Nat.ltb_spec (rb_tail rb) (rb_len rb)); [|lia]. cbn [guard_panic].
  rewrite rem_wrapi by lia. cbn [obind]. by eexists.
Qed.

Lemma rb_dequeue_read rb :
  rb_wf rb -> rb_is_empty rb = false ->
  exists c rb', rb_read rb [0%Z] = Ret (1, [c], rb') /\ rb_dequeue rb = Ret (Some c, rb').
Proof.
  intros Hw He. pose proof (rbw_head rb Hw) as Hh. unfold rb_read, rb_dequeue. rewrite He.
  cbn [orb length Nat.eqb]. rewrite rb_empty_count in He by done. apply Nat.eqb_neq in He.
  rewrite rb_copy_out_spec by done. cbn [length].
  replace (Nat.min (rb_count rb) 1) with 1 by lia. cbn [obind seq map drop app].
  fold (rb_len rb). rewrite rb_at_low by lia. rewrite Nat.add_0_r.
  assert (E : rb_arr rb !! rb_head rb = Some (nth (rb_head rb) (rb_arr rb) 0%Z))
    by (rewrite nth_lookup; destruct (lookup_lt_is_Some_2 _ _ Hh) as [c Ec]; by rewrite Ec).
  rewrite E. cbn [unwrap obind]. rewrite rem_wrapi by lia. cbn [obind]. by do 2 eexists.
Qed.

(** The one-byte operations: [enqueue] appends a byte, or refuses on a full
    queue; [dequeue] removes the front byte, or returns nothing on an empty one.
    A new buffer is empty. *)
Theorem ring_single_byte_ops rb b len :
  rb_wf rb -> 0 < len ->
  (rb_wf (rb_new len) /\ rb_data (rb_new len) = [] /\ rb_len (rb_new len) = len) /\
  (if length (rb_data rb) =? rb_len rb then rb_enqueue rb b = Ret (None, rb)
   else exists rb', rb_enqueue rb b = Ret (Some tt, rb') /\ rb_wf rb' /\
          rb_data rb' = rb_data rb ++ [b]) /\
  match rb_data rb with
  | [] => rb_dequeue rb = Ret (None, rb)
  | c :: cs => exists rb', rb_dequeue rb = Ret (Some c, rb') /\ rb_wf rb' /\ rb_data rb' = cs
  end.
Proof.
  intros Hw Hlen. split; [by apply rb_new_wf|]. split.
  - rewrite rb_data_length, <- rb_full_count by done. destruct (rb_is_full rb) eqn:Ef.
    { unfold rb_enqueue. by rewrite Ef. }
    destruct (rb_enqueue_write rb b Hw Ef) as (rb' & Ew & ->).
    destruct (rb_write_spec rb [b] Hw) as (rb'' & Ew' & Hw' & _ & Hd).
    rewrite Ew in Ew'. injection Ew' as E1 <-. cbn [length] in Hd. rewrite <- E1 in Hd.
    by exists rb'.
  - pose proof (rb_data_length rb) as Hl. pose proof (rb_empty_count rb Hw) as He.
    destruct (rb_data rb) as [|c cs] eqn:Ed; rewrite <- Hl in He; cbn in He.
    { unfold rb_dequeue. by rewrite He. }
    destruct (rb_dequeue_read rb Hw He) as (c' & rb' & Er & ->).
    destruct (rb_read_spec rb [0%Z] Hw) as (rb'' & Er' & Hw' & _ & Hd).
    rewrite Er in Er'. injection Er' as E1 E2 <-. cbn [length] in *.
    rewrite <- E1, Ed in *. cbn in E2, Hd. injection E2 as ->. by exists rb'.
Qed.

(** ** Witnesses: a three-byte buffer that has wrapped around *)

Definition wrapped : RingBuffer := mkRB [7; 8; 9]%Z 2 1 NORMAL.

Lemma wrapped_wf : rb_wf wrapped.
Proof. constructor; cbn; lia || done. Qed.

Lemma ring_read_fifo_witness :
  rb_data wrapped = [9; 7]%Z /\
  exists rb', rb_read wrapped [0; 0; 0]%Z = Ret (2, [9; 7; 0]%Z, rb') /\ rb_data rb' = [].
Proof.
  split; [by vm_compute|].
  destruct (ring_read_fifo wrapped [0; 0; 0]%Z wrapped_wf) as (rb' & E & _ & _ & Hd).
  exists rb'. split; [exact E|exact Hd].
Defined.

Lemma ring_write_fifo_witness :
  exists rb', rb_write wrapped [5; 6]%Z = Ret (1, rb') /\ rb_data rb' = [9; 7; 5]%Z.
Proof.
  destruct (ring_write_fifo wrapped [5; 6]%Z wrapped_wf) as (rb' & E & _ & _ & Hd & _).
  exists rb'. split; [exact E|exact Hd].
Defined.

Lemma ring_single_byte_ops_witness :
  exists rb', rb_dequeue wrapped = Ret (Some 9%Z, rb') /\ rb_data rb' = [7]%Z.
Proof.
  destruct (ring_single_byte_ops wrapped 5%Z 4 wrapped_wf) as (_ & _ & rb' & E & _ & Hd); [lia|].
  exists rb'. split; [exact E|exact Hd].
Defined.
