(* ===== verification/Pipe.v ===== *)
(** Pipes (os/src/fs/pipe.rs): two file ends over a ring buffer, with queues of
    wakers for blocked readers and writers.  A poll is split at the points where
    the code takes and drops the pipe lock; run without interference the pieces
    compose to the poll.  Waking a task is recorded in a log. *)

From S2P Require Import Prelude RingBuffer.

Record Pipe := mkPipe {
  p_write_close : bool;
  p_read_close : bool;
  p_ring : RingBuffer;
  p_read_waker : list nat;
  p_write_waker : list nat;
  p_woken : list nat;
}.

Definition pipe_new (capacity : nat) : Pipe := mkPipe false false (rb_new capacity) [] [] [].

Inductive Poll (A : Type) := Ready (a : A) | Pending.
Arguments Ready {A} a.
Arguments Pending {A}.

Definition set_ring (p : Pipe) (rb : RingBuffer) : Pipe :=
  mkPipe (p_write_close p) (p_read_close p) rb (p_read_waker p) (p_write_waker p) (p_woken p).

(** *** [PipeReadFuture] *)

Record ReadFuture := mkRF { rf_buf : list Z; rf_already_put : nat }.

(** Under the ring lock: try to read. *)
Definition read_try (p : Pipe) (f : ReadFuture) : outcome (nat * ReadFuture * Pipe) :=
  let! res := rb_read (p_ring p) (rf_buf f) in
  let '(read_size, buf, rb) := res in
  Ret (read_size, mkRF buf (rf_already_put f + read_size), set_ring p rb).

(** The first, separate, pipe lock: is every writer gone? *)
Definition read_sees_close (p : Pipe) : bool := p_write_close p.

(** The second pipe lock: queue the waker. *)
Definition read_park (p : Pipe) (task : nat) : Pipe :=
  mkPipe (p_write_close p) (p_read_close p) (p_ring p) (p_read_waker p ++ [task])
    (p_write_waker p) (p_woken p).

Definition read_poll (p : Pipe) (task : nat) (f : ReadFuture) : outcome (Poll nat * ReadFuture * Pipe) :=
  if length (rf_buf f) =? 0 then Ret (Ready 0, f, p)
  else
    let! res := read_try p f in
    let '(read_size, f, p) := res in
    if read_size =? 0 then
      if read_sees_close p then Ret (Ready (rf_already_put f), f, p)
      else Ret (Pending, f, read_park p task)
    else Ret (Ready (rf_already_put f), f, p).

(** *** [PipeWriteFuture] *)

Record WriteFuture := mkWF { wf_buf : list Z; wf_already_put : nat }.

Definition write_try (p : Pipe) (f : WriteFuture) : outcome (nat * WriteFuture * Pipe) :=
  let! res := rb_write (p_ring p) (wf_buf f) in
  let '(write_size, rb) := res in
  Ret (write_size, mkWF (wf_buf f) (wf_already_put f + write_size), set_ring p rb).

Definition write_sees_close (p : Pipe) : bool := p_read_close p.

Definition write_park (p : Pipe) (task : nat) : Pipe :=
  mkPipe (p_write_close p) (p_read_close p) (p_ring p) (p_read_waker p)
    (p_write_waker p ++ [task]) (p_woken p).

Definition write_poll (p : Pipe) (task : nat) (f : WriteFuture) : outcome (Poll nat * WriteFuture * Pipe) :=
  if length (wf_buf f) =? 0 then Ret (Ready 0, f, p)
  else
    let! res := write_try p f in
    let '(write_size, f, p) := res in
    if write_size =? 0 then
      if write_sees_close p then Ret (Ready (wf_already_put f), f, p)
      else Ret (Pending, f, write_park p task)
    else Ret (Ready (wf_already_put f), f, p).

(** *** [PipeFile]: what [read] and [write] do after their future, and [drop] *)

Definition wake_one_writer (p : Pipe) : Pipe :=
  match p_write_waker p with
  | [] => p
  | w :: ws => mkPipe (p_write_close p) (p_read_close p) (p_ring p) (p_read_waker p) ws (p_woken p ++ [w])
  end.

Definition wake_one_reader (p : Pipe) : Pipe :=
  match p_read_waker p with
  | [] => p
  | w :: ws => mkPipe (p_write_close p) (p_read_close p) (p_ring p) ws (p_write_waker p) (p_woken p ++ [w])
  end.

(** One poll of [PipeFile::read], with the wake-up when it completes. *)
Definition PipeFile_read (p : Pipe) (task : nat) (f : ReadFuture) : outcome (Poll nat * ReadFuture * Pipe) :=
  let! res := read_poll p task f in
  let '(r, f, p) := res in
  match r with
  | Ready n => Ret (Ready n, f, wake_one_writer p)
  | Pending => Ret (Pending, f, p)
  end.

Definition PipeFile_write (p : Pipe) (task : nat) (f : WriteFuture) : outcome (Poll nat * WriteFuture * Pipe) :=
  let! res := write_poll p task f in
  let '(r, f, p) := res in
  match r with
  | Ready n => Ret (Ready n, f, wake_one_reader p)
  | Pending => Ret (Pending, f, p)
  end.

(** [drop] of the end with [operate == operate]. *)
Definition PipeFile_drop (p : Pipe) (operate : bool) : Pipe :=
  if operate then
    mkPipe (p_write_close p) true (p_ring p) (p_read_waker p) [] (p_woken p ++ p_write_waker p)
  else
    mkPipe true (p_read_close p) (p_ring p) [] (p_write_waker p) (p_woken p ++ p_read_waker p).

(** [make_pipe]: the two ends share one pipe; [readable] is [operate]. *)
Definition make_pipe (capacity : nat) : bool * bool * Pipe := (true, false, pipe_new capacity).

(** ** Runs *)

(** The bytes a poll accepted or delivered. *)
Inductive event := Wrote (bs : list Z) | Delivered (bs : list Z) | Silent.

(** Polls and drops in any order, each by any task. *)
Inductive pipe_step : Pipe -> event -> Pipe -> Prop :=
| ps_read p task buf r f p' :
    PipeFile_read p task (mkRF buf 0) = Ret (r, f, p') ->
    pipe_step p (Delivered (match r with Ready n => take n (rf_buf f) | Pending => [] end)) p'
| ps_write p task buf r f p' :
    PipeFile_write p task (mkWF buf 0) = Ret (r, f, p') ->
    pipe_step p (Wrote (match r with Ready n => take n buf | Pending => [] end)) p'
| ps_drop p operate : pipe_step p Silent (PipeFile_drop p operate).

Inductive pipe_run (p0 : Pipe) : list event -> Pipe -> Prop :=
| pr_nil : pipe_run p0 [] p0
| pr_snoc evs e p p' : pipe_run p0 evs p -> pipe_step p e p' -> pipe_run p0 (evs ++ [e]) p'.

Definition wrote (e : event) : list Z := match e with Wrote bs => bs | _ => [] end.
Definition delivered (e : event) : list Z := match e with Delivered bs => bs | _ => [] end.

(** No one waits for a partner that is gone. *)
Record pipe_inv (p : Pipe) : Prop := {
  pi_ring : rb_wf (p_ring p);
  pi_readers : p_write_close p = true -> p_read_waker p = [];
  pi_writers : p_read_close p = true -> p_write_waker p = [];
}.

Section PipeFacts.

Lemma read_poll_spec p task buf :
  rb_wf (p_ring p) ->
  let data := rb_data (p_ring p) in
  let r := Nat.min (length data) (length buf) in
  exists rb, rb_wf rb /\ rb_data rb = drop r data /\
    read_poll p task (mkRF buf 0) =
      if length buf =? 0 then Ret (Ready 0, mkRF buf 0, p)
      else if (length data =? 0) && negb (p_write_close p)
      then Ret (Pending, mkRF buf 0, read_park (set_ring p rb) task)
      else Ret (Ready r, mkRF (take r data ++ drop r buf) r, set_ring p rb).
Proof.
  intros Hw data r. destruct (rb_read_spec (p_ring p) buf Hw) as (rb & E & Hw' & _ & Hd).
  rewrite <- rb_data_length in E, Hd. fold data r in E, Hd. exists rb. split; [done|]. split; [done|].
  unfold read_poll. cbn [rf_buf rf_already_put].
  destruct (Nat.eqb_spec (length buf) 0) as [|Hb]; [done|].
  unfold read_try. cbn [rf_buf rf_already_put]. rewrite E. cbn [obind Nat.add].
  unfold read_sees_close. cbn [p_write_close set_ring].
  destruct (Nat.eqb_spec (length data) 0) as [Hd0|Hd0].
  - replace r with 0 in * by lia. cbn [Nat.eqb andb]. rewrite take_0, drop_0. cbn [app].
    by destruct (p_write_close p).
  - destruct (Nat.eqb_spec r 0); [lia|]. done.
Qed.

Lemma write_poll_spec p task buf :
  rb_wf (p_ring p) ->
  let data := rb_data (p_ring p) in
  let r := Nat.min (rb_len (p_ring p) - length data) (length buf) in
  exists rb, rb_wf rb /\ rb_data rb = data ++ take r buf /\
    write_poll p task (mkWF buf 0) =
      if length buf =? 0 then Ret (Ready 0, mkWF buf 0, p)
      else if (length data =? rb_len (p_ring p)) && negb (p_read_close p)
      then Ret (Pending, mkWF buf 0, write_park (set_ring p rb) task)
      else Ret (Ready r, mkWF buf r, set_ring p rb).
Proof.
  intros Hw data r. destruct (rb_write_spec (p_ring p) buf Hw) as (rb & E & Hw' & _ & Hd).
  rewrite <- rb_data_length in E, Hd. fold data r in E, Hd. exists rb. split; [done|]. split; [done|].
  unfold write_poll. cbn [wf_buf wf_already_put].
  destruct (Nat.eqb_spec (length buf) 0) as [|Hb]; [done|].
  unfold write_try. cbn [wf_buf wf_already_put]. rewrite E. cbn [obind Nat.add].
  unfold write_sees_close. cbn [p_read_close set_ring].
  pose proof (proj1 (proj2 (rb_count_spec _ Hw))) as Hc. rewrite <- rb_data_length in Hc. fold data in Hc.
  destruct (Nat.eqb_spec (length data) (rb_len (p_ring p))) as [Hd0|Hd0].
  - replace r with 0 in * by lia. cbn [Nat.eqb andb]. by destruct (p_read_close p).
  - destruct (Nat.eqb_spec r 0); [lia|]. done.
Qed.

Lemma set_ring_inv p rb : pipe_inv p -> rb_wf rb -> pipe_inv (set_ring p rb).
Proof. intros [_ ? ?] ?. by constructor. Qed.

Lemma wake_one_writer_inv p :
  pipe_inv p -> pipe_inv (wake_one_writer p) /\ p_ring (wake_one_writer p) = p_ring p.
Proof.
  intros [Hw Hr Hwr]. unfold wake_one_writer. destruct (p_write_waker p) as [|w ws] eqn:E; [done|].
  split; [|done]. constructor; cbn; [done..|]. intros Hc. by specialize (Hwr Hc).
Qed.

Lemma wake_one_reader_inv p :
  pipe_inv p -> pipe_inv (wake_one_reader p) /\ p_ring (wake_one_reader p) = p_ring p.
Proof.
  intros [Hw Hr Hwr]. unfold wake_one_reader. destruct (p_read_waker p) as [|w ws] eqn:E; [done|].
  split; [|done]. constructor; cbn; [done| |done]. intros Hc. by specialize (Hr Hc).
Qed.

Lemma pipe_read_inv p task buf r f p' :
  pipe_inv p -> PipeFile_read p task (mkRF buf 0) = Ret (r, f, p') ->
  pipe_inv p' /\
  rb_data (p_ring p) =
    match r with Ready n => take n (rf_buf f) | Pending => [] end ++ rb_data (p_ring p').
Proof.
  intros Hi E. pose proof Hi as [Hw _ _]. destruct (read_poll_spec p task buf Hw) as (rb & Hw' & Hd & Ep).
  unfold PipeFile_read in E. rewrite Ep in E.
  destruct (Nat.eqb_spec (length buf) 0); [|destruct (_ && _) eqn:Eb]; cbn [obind] in E;
    injection E as <- <- <-; cbn [rf_buf].
  - rewrite take_0. destruct (wake_one_writer_inv p Hi) as [Hi2 ->]. done.
  - apply andb_prop in Eb as [E0 Ec]. apply Nat.eqb_eq in E0. apply negb_true_iff in Ec.
    destruct Hi. split; [constructor; cbn; [done|congruence|done]|].
    cbn. rewrite Hd, E0. by rewrite drop_0.
  - destruct (wake_one_writer_inv _ (set_ring_inv p rb Hi Hw')) as [Hi2 ->]. split; [done|]. cbn.
    rewrite Hd, take_app_length' by (rewrite length_take; lia). by rewrite take_drop.
Qed.

Lemma pipe_write_inv p task buf r f p' :
  pipe_inv p -> PipeFile_write p task (mkWF buf 0) = Ret (r, f, p') ->
  pipe_inv p' /\
  rb_data (p_ring p') = rb_data (p_ring p) ++ match r with Ready n => take n buf | Pending => [] end.
Proof.
  intros Hi E. pose proof Hi as [Hw _ _]. destruct (write_poll_spec p task buf Hw) as (rb & Hw' & Hd & Ep).
  unfold PipeFile_write in E. rewrite Ep in E.
  destruct (Nat.eqb_spec (length buf) 0); [|destruct (_ && _) eqn:Eb]; cbn [obind] in E;
    injection E as <- <- <-.
  - rewrite take_0, app_nil_r. destruct (wake_one_reader_inv p Hi) as [Hi2 ->]. done.
  - apply andb_prop in Eb as [E0 Ec]. apply Nat.eqb_eq in E0. apply negb_true_iff in Ec.
    destruct Hi. split; [constructor; cbn; [done|done|congruence]|].
    cbn. rewrite Hd, E0, Nat.sub_diag. cbn. by rewrite take_0.
  - destruct (wake_one_reader_inv _ (set_ring_inv p rb Hi Hw')) as [Hi2 ->]. done.
Qed.

Lemma pipe_step_inv p e p' :
  pipe_inv p -> pipe_step p e p' ->
  pipe_inv p' /\ rb_data (p_ring p) ++ wrote e = delivered e ++ rb_data (p_ring p').
Proof.
  intros Hi Hs. destruct Hs as [p task buf r f p' E|p task buf r f p' E|p operate]; cbn [wrote delivered].
  - destruct (pipe_read_inv p task buf r f p' Hi E) as [Hi2 <-]. by rewrite app_nil_r.
  - destruct (pipe_write_inv p task buf r f p' Hi E) as [Hi2 <-]. done.
  - rewrite app_nil_r. destruct Hi. destruct operate; cbn; (split; [by constructor|done]).
Qed.

Lemma pipe_run_inv cap evs p :
  0 < cap -> pipe_run (pipe_new cap) evs p ->
  pipe_inv p /\ concat (map wrote evs) = concat (map delivered evs) ++ rb_data (p_ring p).
Proof.
  intros Hcap. induction 1 as [|evs e p p' _ [Hi IH] Hs].
  - destruct (rb_new_wf cap Hcap) as (Hw & Hd & _).
    split; [by constructor|]. cbn [pipe_new p_ring]. by rewrite Hd.
  - destruct (pipe_step_inv p e p' Hi Hs) as [Hi' Hd]. split; [done|].
    rewrite !map_app, !concat_app. cbn. rewrite !app_nil_r, IH, <- !app_assoc. by rewrite Hd.
Qed.

End PipeFacts.

(** A pipe is a reliable stream: over any sequence of read and write polls
    and drops of either end, by any tasks, the bytes delivered to readers so far
    followed by the bytes still queued are exactly the bytes accepted from
    writers, in order. *)
Theorem pipe_stream_fifo cap evs p :
  0 < cap -> pipe_run (pipe_new cap) evs p ->
  concat (map wrote evs) = concat (map delivered evs) ++ rb_data (p_ring p).
Proof. intros Hc Hr. by apply (pipe_run_inv cap). Qed.

(** When polls run without interference, nobody waits for a partner that is
    gone: once the write end is dropped no reader is queued, once the read end
    is dropped no writer is, in every reachable state. *)
Theorem pipe_no_orphan_waiter cap evs p :
  0 < cap -> pipe_run (pipe_new cap) evs p ->
  (p_write_close p = true -> p_read_waker p = []) /\ (p_read_close p = true -> p_write_waker p = []).
Proof. intros Hc Hr. destruct (pipe_run_inv cap evs p Hc Hr) as [[_ ? ?] _]. done. Qed.

(** When a read blocks and what it returns.  It blocks exactly when the
    buffer is non-empty, nothing is queued and the write end is open, and then
    its task is queued to be woken; otherwise it returns what fits, which is 0
    bytes only for an empty buffer or at end of file.  A write blocks exactly
    when the pipe is full and the read end open. *)
Theorem pipe_blocking p task rbuf wbuf :
  rb_wf (p_ring p) ->
  let data := rb_data (p_ring p) in
  (exists r f p', PipeFile_read p task (mkRF rbuf 0) = Ret (r, f, p') /\
     match r with
     | Pending => rbuf <> [] /\ data = [] /\ p_write_close p = false /\
         p_read_waker p' = p_read_waker p ++ [task]
     | Ready n => n = Nat.min (length data) (length rbuf) /\
         (rbuf <> [] -> data = [] -> p_write_close p = true)
     end) /\
  (exists r f p', PipeFile_write p task (mkWF wbuf 0) = Ret (r, f, p') /\
     match r with
     | Pending => wbuf <> [] /\ length data = rb_len (p_ring p) /\ p_read_close p = false /\
         p_write_waker p' = p_write_waker p ++ [task]
     | Ready n => n = Nat.min (rb_len (p_ring p) - length data) (length wbuf) /\
         (wbuf <> [] -> length data = rb_len (p_ring p) -> p_read_close p = true)
     end).
Proof.
  intros Hw data. split.
  - destruct (read_poll_spec p task rbuf Hw) as (rb & _ & _ & E). unfold PipeFile_read. rewrite E.
    destruct (Nat.eqb_spec (length rbuf) 0) as [E0|E0]; [|destruct (_ && _) eqn:Eb]; cbn [obind].
    + do 3 eexists. split; [done|]. apply nil_length_inv in E0 as ->. cbn. split; [lia|done].
    + do 3 eexists. split; [done|]. apply andb_prop in Eb as [Ed Ec]. apply Nat.eqb_eq in Ed.
      apply negb_true_iff in Ec. cbn. apply nil_length_inv in Ed. by destruct rbuf.
    + do 3 eexists. split; [done|]. split; [done|]. intros _ Hd. fold data in Eb. rewrite Hd in Eb.
      cbn in Eb. by destruct (p_write_close p).
  - destruct (write_poll_spec p task wbuf Hw) as (rb & _ & _ & E). unfold PipeFile_write. rewrite E.
    destruct (Nat.eqb_spec (length wbuf) 0) as [E0|E0]; [|destruct (_ && _) eqn:Eb]; cbn [obind].
    + do 3 eexists. split; [done|]. apply nil_length_inv in E0 as ->. cbn. split; [lia|done].
    + do 3 eexists. split; [done|]. apply andb_prop in Eb as [Ed Ec]. apply Nat.eqb_eq in Ed.
      apply negb_true_iff in Ec. cbn. by destruct wbuf.
    + do 3 eexists. split; [done|]. split; [done|]. intros _ Hd. fold data in Eb. rewrite Hd in Eb.
      rewrite Nat.eqb_refl in Eb. by destruct (p_read_close p).
Qed.

(** The pipe lock is dropped between the check for a closed write end and
    the queueing of the reader.  If the writer's [drop] runs in that window the
    reader stays queued on a pipe whose write end is closed: its task is not in
    the log of woken tasks and no writer is left to wake it. *)
Theorem pipe_close_race cap task buf :
  0 < cap -> buf <> [] ->
  exists f p1, read_try (pipe_new cap) (mkRF buf 0) = Ret (0, f, p1) /\
    read_sees_close p1 = false /\
    let p3 := read_park (PipeFile_drop p1 false) task in
    p_write_close p3 = true /\ p_read_waker p3 = [task] /\ p_woken p3 = [] /\
    rb_data (p_ring p3) = [].
Proof.
  intros Hcap Hb. destruct (rb_new_wf cap Hcap) as (Hw & Hd & _).
  destruct (rb_read_spec (rb_new cap) buf Hw) as (rb & E & _ & _ & Hd').
  rewrite <- rb_data_length, Hd in E, Hd'. cbn [length Nat.min take app drop] in E, Hd'.
  unfold read_try. cbn [p_ring pipe_new rf_buf rf_already_put]. rewrite E. cbn [obind].
  do 2 eexists. split; [done|]. cbn. by rewrite Hd'.
Qed.

(** ** Witnesses *)

(** A write of three bytes into a two-byte pipe and a read of one. *)
Lemma pipe_demo_run :
  exists p, pipe_run (pipe_new 2) [Wrote [1; 2]; Delivered [1]]%Z p.
Proof.
  eexists. change [Wrote [1; 2]; Delivered [1]]%Z with (([] ++ [Wrote [1; 2]%Z]) ++ [Delivered [1]%Z]).
  eapply pr_snoc; [eapply pr_snoc; [apply pr_nil|]|].
  - eapply (ps_write _ 0 [1; 2; 3]%Z (Ready 2)). by vm_compute.
  - apply (ps_read _ 1 [0]%Z (Ready 1) (mkRF [1]%Z 1)). by vm_compute.
Defined.

Lemma pipe_stream_fifo_witness :
  exists p, pipe_run (pipe_new 2) [Wrote [1; 2]; Delivered [1]]%Z p /\ rb_data (p_ring p) = [2]%Z.
Proof.
  destruct pipe_demo_run as [p Hr]. exists p. split; [exact Hr|].
  pose proof (pipe_stream_fifo 2 _ p ltac:(lia) Hr) as E. cbn in E. by injection E as <-.
Defined.

Lemma pipe_no_orphan_waiter_witness :
  exists p, pipe_run (pipe_new 2) [Silent] p /\ p_write_close p = true /\ p_read_waker p = [].
Proof.
  exists (PipeFile_drop (pipe_new 2) false).
  assert (Hr : pipe_run (pipe_new 2) [Silent] (PipeFile_drop (pipe_new 2) false)).
  { apply (pr_snoc _ [] Silent (pipe_new 2)); constructor. }
  split; [exact Hr|]. split; [done|].
  destruct (pipe_no_orphan_waiter 2 [Silent] _ ltac:(lia) Hr) as [H _]. exact (H eq_refl).
Defined.

Lemma pipe_blocking_witness :
  exists f p', PipeFile_read (pipe_new 2) 5 (mkRF [0]%Z 0) = Ret (Pending, f, p') /\ p_read_waker p' = [5].
Proof.
  destruct (pipe_blocking (pipe_new 2) 5 [0]%Z []) as [(r & f & p' & E & H) _];
    [apply rb_new_wf; lia|].
  exists f, p'. destruct r as [n|].
  - destruct H as [_ H]. discriminate H; done.
  - split; [exact E|]. apply H.
Defined.

Lemma pipe_close_race_witness :
  exists f p1, read_try (pipe_new 2) (mkRF [0]%Z 0) = Ret (0, f, p1) /\
    p_read_waker (read_park (PipeFile_drop p1 false) 5) = [5].
Proof.
  destruct (pipe_close_race 2 5 [0]%Z ltac:(lia) ltac:(done)) as (f & p1 & E & _ & _ & Hq & _).
  exists f, p1. split; [exact E|exact Hq].
Defined.
