(* ===== verification/FdTable.v ===== *)
(** The file-descriptor table (os/src/task/fs.rs), refined by a partial map from
    descriptors to open files.  The file objects are a type parameter. *)

From S2P Require Import Prelude Errno.


Section FdTable.
Context {File : Type}.

(** [FdFlags]: the one flag of the bitflags. *)
Definition FdFlags_CLOEXEC : Z := 1.

(** [FdFlags::from(OpenFlags)], from whether O_CLOEXEC is set. *)
Definition FdFlags_from (o_cloexec : bool) : Z := if o_cloexec then FdFlags_CLOEXEC else 0%Z.

Record FdInfo := mkFdInfo { fi_file : File; fi_flags : Z }.

Definition FdInfo_set_flags (i : FdInfo) (flags : Z) : FdInfo := mkFdInfo (fi_file i) flags.

Record RLimit := mkRLimit { rlim_cur : nat; rlim_max : nat }.

Record FdTable := mkFT { ft_table : list (option FdInfo); ft_rlimit : RLimit }.

Definition MAX_FDS : nat := 1024.

Definition ft_new (tty : File) : FdTable :=
  mkFT [Some (mkFdInfo tty 0); Some (mkFdInfo tty 0); Some (mkFdInfo tty 0)] (mkRLimit MAX_FDS MAX_FDS).

(** [(from..len).find(|fd| table[fd].is_none())]; the list is the table from
    [from] on. *)
Fixpoint find_none (from : nat) (t : list (option FdInfo)) : option nat :=
  match t with
  | [] => None
  | None :: _ => Some from
  | Some _ :: t => find_none (S from) t
  end.

(** [Vec::resize] with [None]; shorter lengths truncate. *)
Definition vec_resize (t : list (option FdInfo)) (n : nat) : list (option FdInfo) :=
  take n t ++ replicate (n - length t) None.

Definition alloc_fd (s : FdTable) : result nat SysError * FdTable :=
  match find_none 0 (ft_table s) with
  | Some fd => (Ok fd, s)
  | None =>
      if length (ft_table s) <? rlim_max (ft_rlimit s) then
        let t := ft_table s ++ [None] in
        (Ok (length t - 1), mkFT t (ft_rlimit s))
      else (Err EMFILE, s)
  end.

Definition alloc_fd_from (s : FdTable) (bound : nat) : result nat SysError * FdTable :=
  if rlim_max (ft_rlimit s) <? bound then (Err EMFILE, s)
  else
    let t := if length (ft_table s) <=? bound then vec_resize (ft_table s) (bound + 1)
             else ft_table s in
    match find_none bound (drop bound t) with
    | Some fd => (Ok fd, mkFT t (ft_rlimit s))
    | None =>
        if length t <? rlim_max (ft_rlimit s) then
          let t := t ++ [None] in
          (Ok (length t - 1), mkFT t (ft_rlimit s))
        else (Err EMFILE, mkFT t (ft_rlimit s))
    end.

Definition get_fd_info (s : FdTable) (fd : nat) : result FdInfo SysError :=
  if length (ft_table s) <=? fd then Err EBADF
  else match ft_table s !! fd with
       | Some (Some i) => Ok i
       | _ => Err EBADF
       end.

(** [get_mut_fd_info] followed by an assignment through the reference. *)
Definition get_mut_fd_info (s : FdTable) (fd : nat) (f : FdInfo -> FdInfo) :
    result unit SysError * FdTable :=
  if length (ft_table s) <=? fd then (Err EBADF, s)
  else match ft_table s !! fd with
       | Some (Some i) => (Ok tt, mkFT (<[fd := Some (f i)]> (ft_table s)) (ft_rlimit s))
       | _ => (Err EBADF, s)
       end.

Definition get_file (s : FdTable) (fd : nat) : result File SysError :=
  if length (ft_table s) <=? fd then Err EBADF
  else match ft_table s !! fd with
       | Some (Some i) => Ok (fi_file i)
       | _ => Err EBADF
       end.

Definition put_file (s : FdTable) (fd : nat) (i : FdInfo) : result unit SysError * FdTable :=
  if length (ft_table s) <=? fd then (Err EBADF, s)
  else (Ok tt, mkFT (<[fd := Some i]> (ft_table s)) (ft_rlimit s)).

Definition ft_remove (s : FdTable) (fd : nat) : result unit SysError * FdTable :=
  if length (ft_table s) <=? fd then (Err EBADF, s)
  else match ft_table s !! fd with
       | Some (Some _) => (Ok tt, mkFT (<[fd := None]> (ft_table s)) (ft_rlimit s))
       | _ => (Err EBADF, s)
       end.

(** [get_file(old)?; alloc_fd_from(bound)?; put_file(new)?], as [dup_with_bound]
    and [dup_no_flag] both do it. *)
Definition dup_alloc (s : FdTable) (old_fd bound : nat) (flags : Z) : result nat SysError * FdTable :=
  match get_file s old_fd with
  | Err e => (Err e, s)
  | Ok file =>
      match alloc_fd_from s bound with
      | (Err e, s) => (Err e, s)
      | (Ok new_fd, s) =>
          match put_file s new_fd (mkFdInfo file flags) with
          | (Err e, s) => (Err e, s)
          | (Ok _, s) => (Ok new_fd, s)
          end
      end
  end.

Definition dup_with_bound (s : FdTable) (old_fd bound : nat) (flags : Z) :
    outcome (result nat SysError * FdTable) :=
  match dup_alloc s old_fd bound flags with
  | (Ok new_fd, s) => assert! bound <=? new_fd in Ret (Ok new_fd, s)
  | (Err e, s) => Ret (Err e, s)
  end.

Definition dup_no_flag (s : FdTable) (old_fd : nat) : result nat SysError * FdTable :=
  dup_alloc s old_fd 0 0%Z.

(** [checked_add(1)] on [usize]. *)
Definition checked_succ (n : nat) : option nat :=
  if (Z.of_nat n + 1 <=? usize_max)%Z then Some (S n) else None.

(** Place an entry at [new_fd], growing the table to hold it. *)
Definition dup3_at (s : FdTable) (new_fd : nat) (i : FdInfo) : result nat SysError * FdTable :=
  if length (ft_table s) <=? new_fd then
    match checked_succ new_fd with
    | None => (Err EMFILE, s)
    | Some n => (Ok new_fd, mkFT (<[new_fd := Some i]> (vec_resize (ft_table s) n)) (ft_rlimit s))
    end
  else (Ok new_fd, mkFT (<[new_fd := Some i]> (ft_table s)) (ft_rlimit s)).

Definition dup3 (s : FdTable) (old_fd new_fd : nat) (flags : Z) : result nat SysError * FdTable :=
  match get_file s old_fd with
  | Err e => (Err e, s)
  | Ok file => dup3_at s new_fd (mkFdInfo file flags)
  end.

Definition dup3_with_flags (s : FdTable) (old_fd new_fd : nat) : result nat SysError * FdTable :=
  match get_fd_info s old_fd with
  | Err e => (Err e, s)
  | Ok i => dup3_at s new_fd i
  end.

Definition set_rlimit (s : FdTable) (rlimit : RLimit) : FdTable :=
  if rlim_max rlimit <=? length (ft_table s)
  then mkFT (take (rlim_max rlimit) (ft_table s)) rlimit
  else mkFT (ft_table s) rlimit.

Definition close_slot (o : option FdInfo) : option FdInfo :=
  match o with
  | Some i => if contains (fi_flags i) FdFlags_CLOEXEC then None else Some i
  | None => None
  end.

Definition do_close_on_exec (s : FdTable) : FdTable :=
  mkFT (map close_slot (ft_table s)) (ft_rlimit s).

(** ** The abstract table *)

Definition ft_at (s : FdTable) (fd : nat) : option FdInfo := mjoin (ft_table s !! fd).

Lemma get_fd_info_at s fd :
  get_fd_info s fd = match ft_at s fd with Some i => Ok i | None => Err EBADF end.
Proof.
  unfold get_fd_info, ft_at. destruct (Nat.leb_spec (length (ft_table s)) fd) as [H|H].
  - by rewrite lookup_ge_None_2.
  - destruct (ft_table s !! fd) as [[i|]|]; done.
Qed.

Lemma get_file_at s fd :
  get_file s fd = match ft_at s fd with Some i => Ok (fi_file i) | None => Err EBADF end.
Proof.
  unfold get_file, ft_at. destruct (Nat.leb_spec (length (ft_table s)) fd) as [H|H].
  - by rewrite lookup_ge_None_2.
  - destruct (ft_table s !! fd) as [[i|]|]; done.
Qed.

Lemma at_insert t r fd o fd' :
  fd < length t ->
  ft_at (mkFT (<[fd := o]> t) r) fd' = if decide (fd' = fd) then o else ft_at (mkFT t r) fd'.
Proof.
  intros H. unfold ft_at. cbn. destruct (decide (fd' = fd)) as [->|Hne].
  - by rewrite list_lookup_insert_eq by done.
  - by rewrite list_lookup_insert_ne by done.
Qed.

Lemma length_resize t n : length t <= n -> length (vec_resize t n) = n.
Proof. intros. unfold vec_resize. rewrite length_app, length_take, length_replicate. lia. Qed.

Lemma at_resize t r n fd : length t <= n -> ft_at (mkFT (vec_resize t n) r) fd = ft_at (mkFT t r) fd.
Proof.
  intros H. unfold ft_at, vec_resize. cbn. rewrite take_ge by done.
  destruct (decide (fd < length t)) as [Hl|Hl]; [by rewrite lookup_app_l|].
  rewrite lookup_app_r by lia. rewrite (lookup_ge_None_2 t) by lia.
  destruct (replicate _ None !! _) as [o|] eqn:E; [|done]. by apply lookup_replicate in E as [-> _].
Qed.

Lemma at_push t r fd : ft_at (mkFT (t ++ [None]) r) fd = ft_at (mkFT t r) fd.
Proof.
  unfold ft_at. cbn. destruct (decide (fd < length t)) as [Hl|Hl]; [by rewrite lookup_app_l|].
  rewrite lookup_app_r by lia. rewrite (lookup_ge_None_2 t) by lia.
  by destruct (fd - length t) as [|[]].
Qed.

Lemma find_none_spec from t :
  match find_none from t with
  | Some fd => from <= fd < from + length t /\ t !! (fd - from) = Some None /\
      forall j, from <= j < fd -> exists i, t !! (j - from) = Some (Some i)
  | None => forall j, j < length t -> exists i, t !! j = Some (Some i)
  end.
Proof.
  revert from. induction t as [|[i|] t IH]; intros from; cbn.
  - intros j Hj. lia.
  - specialize (IH (S from)). destruct (find_none (S from) t) as [fd|].
    + destruct IH as (Hfd & Hl & Hall). split; [lia|].
      replace (fd - from) with (S (fd - S from)) by lia. split; [done|]. intros j Hj.
      destruct (decide (j = from)) as [->|]; [rewrite Nat.sub_diag; by eexists|].
      replace (j - from) with (S (j - S from)) by lia. apply Hall. lia.
    + intros [|j] Hj; [by eexists|]. apply IH. lia.
  - rewrite Nat.sub_diag. split; [lia|]. split; [done|]. lia.
Qed.

(** What an allocation from [b] must return on a table [s]. *)
Definition lowest_free (s : FdTable) (b fd : nat) : Prop :=
  b <= fd /\ ft_at s fd = None /\ forall j, b <= j < fd -> ft_at s j <> None.

Lemma find_none_free t r b :
  b <= length t ->
  match find_none b (drop b t) with
  | Some fd => fd < length t /\ lowest_free (mkFT t r) b fd
  | None => forall j, b <= j < length t -> ft_at (mkFT t r) j <> None
  end.
Proof.
  intros Hb. pose proof (find_none_spec b (drop b t)) as H. rewrite length_drop in H.
  assert (Hat : forall j, b <= j -> ft_at (mkFT t r) j = mjoin (drop b t !! (j - b))).
  { intros j Hj. rewrite lookup_drop. unfold ft_at. cbn. do 2 f_equal. lia. }
  destruct (find_none b (drop b t)) as [fd|].
  - destruct H as (Hfd & Hn & Hall). split; [lia|]. split; [lia|]. rewrite Hat, Hn by lia.
    split; [done|]. intros j Hj. destruct (Hall j Hj) as [i Hi]. by rewrite Hat, Hi by lia.
  - intros j Hj. destruct (H (j - b)) as [i Hi]; [lia|]. by rewrite Hat, Hi by lia.
Qed.

Lemma at_beyond t r j : length t <= j -> ft_at (mkFT t r) j = None.
Proof. intros. unfold ft_at. cbn. by rewrite lookup_ge_None_2. Qed.

Lemma lowest_free_ext s s' b fd :
  (forall j, ft_at s' j = ft_at s j) -> lowest_free s' b fd -> lowest_free s b fd.
Proof. intros E (H1 & H2 & H3). split; [done|]. rewrite <- E. split; [done|]. intros. rewrite <- E. by apply H3. Qed.

Lemma alloc_fd_from_spec s b r s' :
  alloc_fd_from s b = (r, s') ->
  (forall fd, ft_at s' fd = ft_at s fd) /\ ft_rlimit s' = ft_rlimit s /\
  match r with
  | Ok fd => lowest_free s b fd /\ fd < length (ft_table s') /\
      (fd < length (ft_table s) \/ fd <= rlim_max (ft_rlimit s))
  | Err e => e = EMFILE /\ (rlim_max (ft_rlimit s) < b \/
      (rlim_max (ft_rlimit s) <= length (ft_table s') /\
       forall j, b <= j < length (ft_table s') -> ft_at s j <> None))
  end.
Proof.
  unfold alloc_fd_from. destruct (Nat.ltb_spec (rlim_max (ft_rlimit s)) b) as [Hlim|Hlim].
  { intros [= <- <-]. split; [done|]. split; [done|]. split; [done|]. by left. }
  set (t := if length (ft_table s) <=? b then _ else _).
  assert (Ht : b < length t /\ (length t = length (ft_table s) \/ length t = b + 1) /\
    forall fd, ft_at (mkFT t (ft_rlimit s)) fd = ft_at s fd).
  { unfold t. destruct (Nat.leb_spec (length (ft_table s)) b) as [Hl|Hl].
    - rewrite length_resize by lia. split; [lia|]. split; [lia|]. intros fd. rewrite at_resize by lia.
      by destruct s.
    - split; [lia|]. split; [lia|]. by destruct s. }
  destruct Ht as (Hbt & Hlen & Hat).
  pose proof (find_none_free t (ft_rlimit s) b ltac:(lia)) as Hf.
  destruct (find_none b (drop b t)) as [fd|].
  - intros [= <- <-]. destruct Hf as [Hfd Hlow]. split; [done|]. split; [done|]. cbn.
    split; [by apply (lowest_free_ext s (mkFT t (ft_rlimit s)))|]. split; [done|]. lia.
  - destruct (Nat.ltb_spec (length t) (rlim_max (ft_rlimit s))) as [Hr|Hr]; intros [= <- <-]; cbn [ft_table].
    + rewrite length_app. cbn [length]. replace (length t + 1 - 1) with (length t) by lia.
      split; [intros fd; by rewrite at_push|]. split; [done|]. split; [|lia].
      apply (lowest_free_ext s (mkFT t (ft_rlimit s))); [done|].
      split; [lia|]. split; [by apply at_beyond|done].
    + split; [done|]. split; [done|]. split; [done|]. right. split; [done|].
      intros j Hj. rewrite <- Hat. by apply Hf.
Qed.

Lemma alloc_fd_as_from s :
  rlim_max (ft_rlimit s) <> 0 \/ ft_table s <> [] -> alloc_fd s = alloc_fd_from s 0.
Proof.
  intros Hne. unfold alloc_fd, alloc_fd_from. destruct s as [t r]. cbn [ft_table ft_rlimit] in *.
  destruct (Nat.ltb_spec (rlim_max r) 0); [lia|]. rewrite drop_0.
  destruct t as [|o t]; cbn [length Nat.leb].
  - cbn [find_none]. destruct (Nat.ltb_spec 0 (rlim_max r)); [done|]. destruct Hne; [lia|done].
  - done.
Qed.

End FdTable.
Arguments FdTable File : clear implicits.
Arguments FdInfo File : clear implicits.

Section FdClaims.
Context {File : Type}.
Implicit Types s : FdTable File.

(** [alloc_fd_from] (and [alloc_fd], as the bound 0) returns the lowest
    descriptor at or above the bound that is not open, with its slot in the
    table; it opens, closes and moves nothing; and it fails with EMFILE only
    when the bound is over the limit or every slot from the bound on is taken
    and the table has reached the limit. *)
Theorem fd_alloc_lowest s b r s' :
  alloc_fd_from s b = (r, s') ->
  (b = 0 -> ft_table s <> [] -> alloc_fd s = (r, s')) /\
  (forall fd, get_fd_info s' fd = get_fd_info s fd) /\
  match r with
  | Ok fd => b <= fd < length (ft_table s') /\ get_fd_info s fd = Err EBADF /\
      (forall j, b <= j < fd -> exists i, get_fd_info s j = Ok i) /\
      (fd < length (ft_table s) \/ fd <= rlim_max (ft_rlimit s))
  | Err e => e = EMFILE /\ (rlim_max (ft_rlimit s) < b \/
      (rlim_max (ft_rlimit s) <= length (ft_table s') /\
       forall j, b <= j < length (ft_table s') -> exists i, get_fd_info s j = Ok i))
  end.
Proof.
  intros E. destruct (alloc_fd_from_spec s b r s' E) as (Hat & Hr & H).
  assert (Hopen : forall j, ft_at s j <> None -> exists i, get_fd_info s j = Ok i).
  { intros j Hj. rewrite get_fd_info_at. destruct (ft_at s j); [by eexists|done]. }
  split; [intros -> Hne; rewrite alloc_fd_as_from; [done|by right]|].
  split; [intros fd; by rewrite !get_fd_info_at, Hat|].
  destruct r as [fd|e].
  - destruct H as ((H1 & H2 & H3) & H4 & H5). split; [lia|].
    split; [by rewrite get_fd_info_at, H2|]. split; [|done]. intros j Hj. by apply Hopen, H3.
  - destruct H as [-> [H|[H1 H2]]]; (split; [done|]); [by left|right]. split; [done|].
    intros j Hj. by apply Hopen, H2.
Qed.

(** Setting or clearing one slot. *)
Lemma put_file_at s fd i :
  fd < length (ft_table s) ->
  exists s', put_file s fd i = (Ok tt, s') /\
    forall j, ft_at s' j = if decide (j = fd) then Some i else ft_at s j.
Proof.
  intros H. unfold put_file. destruct (Nat.leb_spec (length (ft_table s)) fd); [lia|].
  eexists. split; [done|]. intros j. rewrite at_insert by done. by destruct s.
Qed.

Lemma ft_remove_at s fd :
  exists s', ft_remove s fd = (match ft_at s fd with Some _ => Ok tt | None => Err EBADF end, s') /\
    forall j, ft_at s' j = if decide (j = fd) then None else ft_at s j.
Proof.
  unfold ft_remove. destruct (Nat.leb_spec (length (ft_table s)) fd) as [H|H].
  - rewrite (at_beyond (ft_table s) (ft_rlimit s) fd H : ft_at s fd = None).
    exists s. split; [done|]. intros j. destruct (decide (j = fd)) as [->|]; [|done].
    by apply (at_beyond (ft_table s) (ft_rlimit s)).
  - unfold ft_at at 1. destruct (ft_table s !! fd) as [[i|]|] eqn:E; cbn.
    + eexists. split; [done|]. intros j. rewrite at_insert by done. by destruct s.
    + exists s. split; [done|]. intros j. destruct (decide (j = fd)) as [->|]; [|done].
      unfold ft_at. by rewrite E.
    + exists s. split; [done|]. intros j. destruct (decide (j = fd)) as [->|]; [|done].
      unfold ft_at. by rewrite E.
Qed.

Lemma dup_alloc_spec s old b flags r s' :
  dup_alloc s old b flags = (r, s') ->
  match r with
  | Ok new => exists io, ft_at s old = Some io /\ b <= new /\ ft_at s new = None /\
      forall j, ft_at s' j = if decide (j = new) then Some (mkFdInfo (fi_file io) flags) else ft_at s j
  | Err _ => forall j, ft_at s' j = ft_at s j
  end.
Proof.
  unfold dup_alloc. rewrite get_file_at. destruct (ft_at s old) as [io|] eqn:Eo; [|by intros [= <- <-]].
  destruct (alloc_fd_from s b) as [[new|e] s1] eqn:Ea;
    destruct (alloc_fd_from_spec s b _ _ Ea) as (Hat & _ & H); [|by intros [= <- <-]].
  destruct H as ((Hb & Hnew & _) & Hlen & _).
  destruct (put_file_at s1 new (mkFdInfo (fi_file io) flags) Hlen) as (s2 & -> & Hs2).
  intros [= <- <-]. exists io. split; [done|]. split; [done|]. split; [done|].
  intros j. rewrite Hs2. by destruct (decide (j = new)).
Qed.

Lemma dup3_at_spec s fd i :
  (Z.of_nat fd < usize_max)%Z ->
  exists s', dup3_at s fd i = (Ok fd, s') /\
    forall j, ft_at s' j = if decide (j = fd) then Some i else ft_at s j.
Proof.
  intros Hfd. unfold dup3_at. destruct (Nat.leb_spec (length (ft_table s)) fd) as [H|H].
  - unfold checked_succ. destruct (Z.leb_spec (Z.of_nat fd + 1) usize_max); [|lia].
    eexists. split; [done|]. intros j. rewrite at_insert by (rewrite length_resize; lia).
    rewrite at_resize by lia. by destruct s.
  - eexists. split; [done|]. intros j. rewrite at_insert by done. by destruct s.
Qed.



End FdClaims.

(** ** Witnesses *)

Lemma fd_alloc_lowest_witness :
  exists s', alloc_fd_from (ft_new 0) 1 = (Ok 3, s') /\ get_fd_info s' 3 = Err EBADF.
Proof.
  destruct (alloc_fd_from (ft_new 0) 1) as [r s'] eqn:E.
  destruct (fd_alloc_lowest (ft_new 0) 1 r s' E) as (_ & Hat & _).
  vm_compute in E. injection E as <- <-. eexists. split; [done|]. by rewrite Hat.
Defined.

