(* ===== verification/StrongArc.v ===== *)
(** The reference-counted pointer of the HAL (hal/src/util/smart_point.rs), which
    the memory code uses to share frames.  [StrongArc] has strong counts only.
    The payloads live in a heap keyed by address; the global allocator is a
    parameter that returns an address not in use.

    Two views are given.  The sequential operations are what the rest of the
    kernel model calls.  The step relation interleaves the atomic actions those
    operations are made of, over any number of handles: the counter updates, the
    load and compare-exchange of [emplace], and the freeing after the last
    decrement. *)

From S2P Require Import Prelude.

#[local] Open Scope Z_scope.

(** [Global::allocate]: an address for a new payload, given those in use. *)
Class GlobalAlloc := { alloc_addr : gset Z -> Z }.
Class GlobalAllocLaws (G : GlobalAlloc) : Prop := { alloc_fresh X : alloc_addr X ∉ X }.

Section StrongArc.
Context {T : Type} {G : GlobalAlloc}.

Record StrongArcPayload := mkPayload { sp_data : T; sp_rc : Z }.
#[local] Abbreviation arc_heap := (gmap Z StrongArcPayload).
Implicit Types h : arc_heap.

(** *** Atomic actions on the counter *)

Definition arc_get_owners h (p : Z) : outcome Z :=
  let! x := unwrap (h !! p) in Ret (sp_rc x).

Definition set_rc h (p : Z) (n : Z) : outcome arc_heap :=
  let! x := unwrap (h !! p) in Ret (<[p := mkPayload (sp_data x) n]> h).

(** [fetch_add] and [fetch_sub] wrap, like the hardware's. *)
Definition arc_clone h (p : Z) : outcome arc_heap :=
  let! n := arc_get_owners h p in set_rc h p (wadd n 1).

Definition rc_fetch_sub h (p : Z) : outcome (Z * arc_heap) :=
  let! n := arc_get_owners h p in
  let! h := set_rc h p (wsub n 1) in
  Ret (n, h).

(** *** Construction, access, replacement, drop *)

Definition alloc_payload h (data : T) : Z * arc_heap :=
  let p := alloc_addr (dom h) in (p, <[p := mkPayload data 1]> h).

Definition arc_new h (data : T) : Z * arc_heap := alloc_payload h data.

Definition arc_deref h (p : Z) : outcome T :=
  let! x := unwrap (h !! p) in Ret (sp_data x).

(** What one round of the loop of [emplace] ends in: a pointer, with the values
    whose destructors ran, or another round with the count just read. *)
Inductive emplace_round :=
| Placed (p : Z) (h : arc_heap) (dropped : list T)
| Retry (oval : Z).

Definition emplace_try h (p : Z) (oval : Z) (val : T) : outcome emplace_round :=
  let! x := unwrap (h !! p) in
  if oval =? 1 then
    Ret (Placed p (<[p := mkPayload val (sp_rc x)]> h) [sp_data x])
  else if sp_rc x =? oval then
    let! h := set_rc h p (wsub oval 1) in
    let '(p', h) := alloc_payload h val in
    Ret (Placed p' h [])
  else Ret (Retry (sp_rc x)).

(** Without interference the first round ends it. *)
Definition arc_emplace h (p : Z) (val : T) : outcome (Z * arc_heap * list T) :=
  let! oval := arc_get_owners h p in
  let! r := emplace_try h p oval val in
  match r with
  | Placed p' h d => Ret (p', h, d)
  | Retry _ => Panic
  end.

(** [drop_in_place] and [deallocate] after the last decrement. *)
Definition arc_free h (p : Z) : outcome (arc_heap * list T) :=
  let! x := unwrap (h !! p) in Ret (delete p h, [sp_data x]).

Definition arc_drop h (p : Z) : outcome (arc_heap * list T) :=
  let! r := rc_fetch_sub h p in
  let '(old, h) := r in
  if old =? 1 then arc_free h p else Ret (h, []).

(** ** Interleaved handles *)

(** What a handle's owner is doing. *)
Inductive handle :=
| Idle (p : Z)
| Emplacing (p : Z) (oval : Z) (val : T)
| Freeing (p : Z).

Record arc_world := mkWorld {
  aw_heap : arc_heap;
  aw_handles : gmap nat handle;
  aw_made : list T;
  aw_dropped : list T;
}.

Inductive arc_step : arc_world -> arc_world -> Prop :=
| step_new h hs mk dr i d p h' :
    hs !! i = None -> arc_new h d = (p, h') ->
    arc_step (mkWorld h hs mk dr) (mkWorld h' (<[i := Idle p]> hs) (d :: mk) dr)
| step_clone h hs mk dr i j p h' :
    hs !! i = Some (Idle p) -> hs !! j = None -> Z.of_nat (size hs) < usize_max ->
    arc_clone h p = Ret h' ->
    arc_step (mkWorld h hs mk dr) (mkWorld h' (<[j := Idle p]> hs) mk dr)
| step_drop_last h hs mk dr i p h' :
    hs !! i = Some (Idle p) -> rc_fetch_sub h p = Ret (1, h') ->
    arc_step (mkWorld h hs mk dr) (mkWorld h' (<[i := Freeing p]> hs) mk dr)
| step_drop_more h hs mk dr i p old h' :
    hs !! i = Some (Idle p) -> rc_fetch_sub h p = Ret (old, h') -> old <> 1 ->
    arc_step (mkWorld h hs mk dr) (mkWorld h' (delete i hs) mk dr)
| step_free h hs mk dr i p h' d :
    hs !! i = Some (Freeing p) -> arc_free h p = Ret (h', d) ->
    arc_step (mkWorld h hs mk dr) (mkWorld h' (delete i hs) mk (d ++ dr))
| step_emplace_load h hs mk dr i p val oval :
    hs !! i = Some (Idle p) -> arc_get_owners h p = Ret oval ->
    arc_step (mkWorld h hs mk dr) (mkWorld h (<[i := Emplacing p oval val]> hs) (val :: mk) dr)
| step_emplace_done h hs mk dr i p oval val p' h' d :
    hs !! i = Some (Emplacing p oval val) -> emplace_try h p oval val = Ret (Placed p' h' d) ->
    arc_step (mkWorld h hs mk dr) (mkWorld h' (<[i := Idle p']> hs) mk (d ++ dr))
| step_emplace_retry h hs mk dr i p oval val v :
    hs !! i = Some (Emplacing p oval val) -> emplace_try h p oval val = Ret (Retry v) ->
    arc_step (mkWorld h hs mk dr) (mkWorld h (<[i := Emplacing p v val]> hs) mk dr).

Definition arc_init : arc_world := mkWorld ∅ ∅ [] [].

End StrongArc.
Arguments StrongArcPayload T : clear implicits.
Arguments handle T : clear implicits.
Arguments arc_world T : clear implicits.
Abbreviation arc_heap T := (gmap Z (StrongArcPayload T)).

(** ** Bags over maps *)

Section Bags.
Context {K X Y : Type} `{Countable K}.

(** The concatenation of [f] over the values of a map. *)
Definition mbag (f : X -> list Y) (m : gmap K X) : list Y := map_to_list m ≫= (fun kv => f kv.2).

Lemma mbag_empty f : mbag f (∅ : gmap K X) = [].
Proof. unfold mbag. by rewrite map_to_list_empty. Qed.

Lemma mbag_insert_new f (m : gmap K X) i x :
  m !! i = None -> mbag f (<[i := x]> m) ≡ₚ f x ++ mbag f m.
Proof. intros Hi. unfold mbag. by rewrite map_to_list_insert. Qed.

Lemma mbag_delete f (m : gmap K X) i y :
  m !! i = Some y -> f y ++ mbag f (delete i m) ≡ₚ mbag f m.
Proof.
  intros Hi. unfold mbag. by rewrite <- (map_to_list_delete m i y) by done.
Qed.

Lemma mbag_insert f (m : gmap K X) i x y :
  m !! i = Some y -> f y ++ mbag f (<[i := x]> m) ≡ₚ f x ++ mbag f m.
Proof.
  intros Hi. rewrite <- (mbag_delete f m i y Hi).
  rewrite <- insert_delete_eq, mbag_insert_new by apply lookup_delete_eq.
  rewrite !(assoc_L (++)). f_equiv. apply Permutation_app_comm.
Qed.

Lemma mbag_length_le f (m : gmap K X) :
  (forall x, length (f x) <= 1)%nat -> (length (mbag f m) <= size m)%nat.
Proof.
  intros Hf. unfold mbag. rewrite <- length_map_to_list. induction (map_to_list m) as [|[k x] l IH];
    cbn; [done|]. rewrite length_app. specialize (Hf x). lia.
Qed.

Lemma mbag_in f (m : gmap K X) i x : m !! i = Some x -> (length (f x) <= length (mbag f m))%nat.
Proof. intros Hi. rewrite <- (mbag_delete f m i x Hi), length_app. lia. Qed.

End Bags.

(** ** The counting invariant *)

Section Counting.
Context {T : Type} {G : GlobalAlloc} {GL : GlobalAllocLaws G}.
Implicit Types h : arc_heap T.
Implicit Types hs : gmap nat (handle T).

(** One mark per handle that counts towards [p], and per handle freeing [p]. *)
Definition owns (p : Z) (x : handle T) : list unit :=
  match x with
  | Idle q | Emplacing q _ _ => if q =? p then [tt] else []
  | Freeing _ => []
  end.
Definition frees (p : Z) (x : handle T) : list unit :=
  match x with Freeing q => if q =? p then [tt] else [] | _ => [] end.
Definition pending (x : handle T) : list T :=
  match x with Emplacing _ _ v => [v] | _ => [] end.

Definition owners hs (p : Z) : nat := length (mbag (owns p) hs).
Definition freers hs (p : Z) : nat := length (mbag (frees p) hs).
Definition live h : list T := mbag (fun x => [sp_data x]) h.

(** The count of a payload is the number of its handles; one whose count is 0 is
    being freed by exactly one handle; every value made is in exactly one place. *)
Record arc_inv (w : arc_world T) : Prop := {
  ai_count p : match aw_heap w !! p with
    | Some x => sp_rc x = Z.of_nat (owners (aw_handles w) p) /\
        ((0 < owners (aw_handles w) p)%nat /\ freers (aw_handles w) p = 0%nat \/
         owners (aw_handles w) p = 0%nat /\ freers (aw_handles w) p = 1%nat)
    | None => owners (aw_handles w) p = 0%nat /\ freers (aw_handles w) p = 0%nat
    end;
  ai_sole i p v : aw_handles w !! i = Some (Emplacing p 1 v) -> owners (aw_handles w) p = 1%nat;
  ai_small p : Z.of_nat (owners (aw_handles w) p) <= usize_max;
  ai_values : aw_made w ≡ₚ aw_dropped w ++ live (aw_heap w) ++ mbag pending (aw_handles w);
}.

Lemma owns_le p x : (length (owns p x) <= 1)%nat.
Proof. destruct x; cbn; repeat case_match; cbn; lia. Qed.

Lemma owners_new hs i x p : hs !! i = None ->
  owners (<[i := x]> hs) p = (length (owns p x) + owners hs p)%nat /\
  freers (<[i := x]> hs) p = (length (frees p x) + freers hs p)%nat.
Proof. intros Hi. unfold owners, freers. by rewrite !mbag_insert_new, !length_app by done. Qed.

Lemma owners_set hs i x y p : hs !! i = Some y ->
  (length (owns p y) + owners (<[i := x]> hs) p = length (owns p x) + owners hs p)%nat /\
  (length (frees p y) + freers (<[i := x]> hs) p = length (frees p x) + freers hs p)%nat.
Proof.
  intros Hi. unfold owners, freers. rewrite <- !length_app. by rewrite !mbag_insert by done.
Qed.

Lemma owners_delete hs i y p : hs !! i = Some y ->
  (length (owns p y) + owners (delete i hs) p = owners hs p)%nat /\
  (length (frees p y) + freers (delete i hs) p = freers hs p)%nat.
Proof.
  intros Hi. unfold owners, freers. rewrite <- !length_app. by rewrite !mbag_delete by done.
Qed.

Lemma live_set h p x y :
  h !! p = Some y -> sp_data y :: live (<[p := x]> h) ≡ₚ sp_data x :: live h.
Proof. intros Hp. apply (mbag_insert (fun x => [sp_data x]) h p x y Hp). Qed.

(** Changing a count leaves the values alone. *)
Lemma live_rc h p y n : h !! p = Some y -> live (<[p := mkPayload (sp_data y) n]> h) ≡ₚ live h.
Proof. intros Hp. apply (Permutation_cons_inv (a := sp_data y)). by rewrite (live_set h p _ y Hp). Qed.

(** A new payload is at an address not used before. *)
Lemma alloc_payload_fresh h d p h' :
  alloc_payload h d = (p, h') -> h !! p = None /\ h' = <[p := mkPayload d 1]> h.
Proof.
  unfold alloc_payload. intros [= <- <-]. split; [|done].
  apply (not_elem_of_dom_1 (D := gset Z)), alloc_fresh.
Qed.

Lemma arc_inv_init : arc_inv arc_init.
Proof.
  constructor; cbn; try done.
Qed.

(** A counted handle has its payload, with a count of at least one. *)
Lemma arc_owner_payload w i x p :
  arc_inv w -> aw_handles w !! i = Some x -> owns p x = [tt] ->
  exists y, aw_heap w !! p = Some y /\ sp_rc y = Z.of_nat (owners (aw_handles w) p) /\
    (0 < owners (aw_handles w) p)%nat /\ freers (aw_handles w) p = 0%nat.
Proof.
  intros Hinv Hi Ho. pose proof (ai_count w Hinv p) as Hc.
  assert (0 < owners (aw_handles w) p)%nat.
  { pose proof (mbag_in (owns p) _ i x Hi) as Hl. rewrite Ho in Hl. exact Hl. }
  destruct (aw_heap w !! p) as [y|]; [|lia]. exists y. split; [done|]. lia.
Qed.

(** Rewriting a count: what a step that sets the count of [p] to [n] needs. *)
Lemma arc_inv_recount h hs hs' mk mk' dr p y n :
  arc_inv (mkWorld h hs mk dr) -> h !! p = Some y ->
  n = Z.of_nat (owners hs' p) -> n <= usize_max ->
  ((0 < owners hs' p)%nat /\ freers hs' p = 0%nat \/ owners hs' p = 0%nat /\ freers hs' p = 1%nat) ->
  (forall q, q <> p -> owners hs' q = owners hs q /\ freers hs' q = freers hs q) ->
  (forall i q v, hs' !! i = Some (Emplacing q 1 v) -> hs !! i = Some (Emplacing q 1 v) /\ q <> p) ->
  mk ++ mbag pending hs' ≡ₚ mk' ++ mbag pending hs ->
  arc_inv (mkWorld (<[p := mkPayload (sp_data y) n]> h) hs' mk' dr).
Proof.
  intros Hinv Hy Hn Hmax Hp Hoth Hsole Hpend. destruct Hinv as [Hc Hs Hm Hv]. cbn in *.
  constructor; cbn.
  - intros q. destruct (decide (q = p)) as [->|Hne].
    + by rewrite lookup_insert_eq.
    + rewrite lookup_insert_ne by done. destruct (Hoth q Hne) as [-> ->]. apply Hc.
  - intros i q v Hi. destruct (Hsole i q v Hi) as [Hi' Hne]. destruct (Hoth q Hne) as [-> _].
    by apply (Hs i q v).
  - intros q. destruct (decide (q = p)) as [->|Hne]; [lia|].
    destruct (Hoth q Hne) as [-> _]. apply Hm.
  - rewrite live_rc by done. apply (Permutation_app_inv_r (mbag pending hs)).
    rewrite <- Hpend, Hv. solve_Permutation.
Qed.

(** A handle other than the last one is not alone on its payload. *)
Lemma sole_handle w i j p v x :
  arc_inv w -> aw_handles w !! i = Some (Emplacing p 1 v) -> aw_handles w !! j = Some x ->
  owns p x = [tt] -> i = j.
Proof.
  intros Hinv Hi Hj Hx. destruct (decide (i = j)) as [|Hne]; [done|]. exfalso.
  pose proof (ai_sole w Hinv i p v Hi) as H1.
  destruct (owners_delete (aw_handles w) i _ p Hi) as [Hd _]. cbn in Hd. rewrite Z.eqb_refl in Hd.
  pose proof (mbag_in (owns p) (delete i (aw_handles w)) j x) as Hm.
  rewrite lookup_delete_ne, Hx in Hm by done. specialize (Hm Hj). cbn in Hd, Hm.
  unfold owners in *. lia.
Qed.

Lemma arc_inv_new h hs mk dr i d p h' :
  arc_inv (mkWorld h hs mk dr) -> hs !! i = None -> arc_new h d = (p, h') ->
  arc_inv (mkWorld h' (<[i := Idle p]> hs) (d :: mk) dr).
Proof.
  intros Hinv Hi E. apply alloc_payload_fresh in E as [Hp ->].
  pose proof (ai_count _ Hinv p) as Hcp. cbn in Hcp. rewrite Hp in Hcp.
  pose proof (fun q => owners_new hs i (Idle p) q Hi) as Hnew. destruct Hinv as [Hc Hs Hm Hv]. cbn in *.
  constructor; cbn.
  - intros q. destruct (Hnew q) as [-> ->]. destruct (Z.eqb_spec p q) as [<-|Hne]; cbn.
    + rewrite lookup_insert_eq. cbn. lia.
    + rewrite lookup_insert_ne by done. apply Hc.
  - intros j q v Hj. destruct (decide (i = j)) as [->|Hne]; [by rewrite lookup_insert_eq in Hj|].
    rewrite lookup_insert_ne in Hj by done. destruct (Hnew q) as [-> _].
    rewrite (Hs j q v Hj). destruct (Z.eqb_spec p q) as [<-|]; [|done].
    specialize (Hs _ _ _ Hj). lia.
  - intros q. destruct (Hnew q) as [-> _]. specialize (Hm q).
    destruct (Z.eqb_spec p q) as [<-|]; cbn; unfold usize_max in *; lia.
  - unfold live. rewrite !mbag_insert_new by done. cbn. fold (live h). rewrite Hv.
    apply Permutation_middle.
Qed.

Lemma arc_inv_clone h hs mk dr i j p h' :
  arc_inv (mkWorld h hs mk dr) -> hs !! i = Some (Idle p) -> hs !! j = None ->
  Z.of_nat (size hs) < usize_max -> arc_clone h p = Ret h' ->
  arc_inv (mkWorld h' (<[j := Idle p]> hs) mk dr).
Proof.
  intros Hinv Hi Hj Hsz E.
  destruct (arc_owner_payload _ i (Idle p) p Hinv Hi) as (y & Hy & Hrc & Hpos & Hfr);
    [cbn; by rewrite Z.eqb_refl|]. cbn in *.
  unfold arc_clone, arc_get_owners, set_rc in E. rewrite Hy in E. cbn in E. injection E as <-.
  pose proof (fun q => owners_new hs j (Idle p) q Hj) as Hnew. cbn in Hnew.
  assert (owners hs p <= size hs)%nat by (apply mbag_length_le; intros; apply owns_le).
  apply (arc_inv_recount h hs _ mk mk dr p y); try done.
  - destruct (Hnew p) as [-> _]. rewrite Z.eqb_refl, wadd_small by (unfold is_usize, usize_max in *; lia).
    cbn [length]. lia.
  - rewrite wadd_small by (unfold is_usize, usize_max in *; lia). lia.
  - destruct (Hnew p) as [-> ->]. rewrite Z.eqb_refl. cbn. lia.
  - intros q Hq. destruct (Hnew q) as [-> ->]. zcmp. done.
  - intros k q v Hk. destruct (decide (j = k)) as [->|Hne]; [by rewrite lookup_insert_eq in Hk|].
    rewrite lookup_insert_ne in Hk by done. split; [done|]. intros ->.
    assert (k = i); [|subst; congruence].
    apply (sole_handle _ k i p v (Idle p) Hinv Hk Hi). cbn. by rewrite Z.eqb_refl.
  - by rewrite mbag_insert_new by done.
Qed.

(** The decrement of [drop]: the handle goes, or stays to free the payload. *)
Lemma arc_inv_drop h hs mk dr i p old h' :
  arc_inv (mkWorld h hs mk dr) -> hs !! i = Some (Idle p) -> rc_fetch_sub h p = Ret (old, h') ->
  arc_inv (mkWorld h' (if old =? 1 then <[i := Freeing p]> hs else delete i hs) mk dr).
Proof.
  intros Hinv Hi E.
  destruct (arc_owner_payload _ i (Idle p) p Hinv Hi) as (y & Hy & Hrc & Hpos & Hfr);
    [cbn; by rewrite Z.eqb_refl|].
  pose proof (ai_small _ Hinv p) as Hmax. cbn in *.
  unfold rc_fetch_sub, arc_get_owners, set_rc in E. rewrite Hy in E. cbn in E. injection E as <- <-.
  pose proof (fun q => owners_set hs i (Freeing p) (Idle p) q Hi) as Hset.
  pose proof (fun q => owners_delete hs i (Idle p) q Hi) as Hdel. cbn in Hset, Hdel.
  assert (Hw : wsub (sp_rc y) 1 = sp_rc y - 1)
    by (apply wsub_small; unfold is_usize, usize_max in *; lia).
  rewrite Hw. apply (arc_inv_recount h hs _ mk mk dr p y); try done.
  - specialize (Hset p). specialize (Hdel p). rewrite Z.eqb_refl in *. cbn [length] in *.
    destruct (Z.eqb_spec (sp_rc y) 1); lia.
  - lia.
  - specialize (Hset p). specialize (Hdel p). rewrite Z.eqb_refl in *. cbn [length] in *.
    destruct (Z.eqb_spec (sp_rc y) 1); lia.
  - intros q Hq. specialize (Hset q). specialize (Hdel q).
    destruct (Z.eqb_spec p q); [congruence|]. cbn [length] in *.
    destruct (Z.eqb_spec (sp_rc y) 1); lia.
  - intros k q v Hk. assert (Hk' : hs !! k = Some (Emplacing q 1 v)).
    { destruct (Z.eqb_spec (sp_rc y) 1); destruct (decide (i = k)) as [->|];
        rewrite ?lookup_insert_eq, ?lookup_delete_eq in Hk; try done;
        by rewrite ?lookup_insert_ne, ?lookup_delete_ne in Hk. }
    split; [done|]. intros ->. assert (k = i); [|subst; congruence].
    apply (sole_handle _ k i p v (Idle p) Hinv Hk' Hi). cbn. by rewrite Z.eqb_refl.
  - destruct (Z.eqb_spec (sp_rc y) 1).
    + f_equiv. apply (mbag_insert pending hs i (Freeing p) (Idle p) Hi).
    + f_equiv. apply (mbag_delete pending hs i (Idle p) Hi).
Qed.

Lemma arc_inv_free h hs mk dr i p h' d :
  arc_inv (mkWorld h hs mk dr) -> hs !! i = Some (Freeing p) -> arc_free h p = Ret (h', d) ->
  arc_inv (mkWorld h' (delete i hs) mk (d ++ dr)).
Proof.
  intros Hinv Hi E. unfold arc_free in E. destruct (h !! p) as [y|] eqn:Hy; [|done].
  cbn in E. injection E as <- <-.
  pose proof (fun q => owners_delete hs i (Freeing p) q Hi) as Hdel.
  destruct Hinv as [Hc Hs Hm Hv]. cbn in *. constructor; cbn.
  - intros q. specialize (Hc q). specialize (Hdel q). destruct (Z.eqb_spec p q) as [<-|Hne]; cbn in Hdel.
    + rewrite lookup_delete_eq. rewrite Hy in Hc. lia.
    + rewrite lookup_delete_ne by done. destruct (h !! q); lia.
  - intros k q v Hk. apply lookup_delete_Some in Hk as [_ Hk]. specialize (Hs k q v Hk).
    specialize (Hdel q). lia.
  - intros q. specialize (Hm q). specialize (Hdel q). lia.
  - rewrite Hv. unfold live. rewrite <- (mbag_delete _ h p y Hy).
    rewrite <- (mbag_delete pending hs i (Freeing p) Hi). cbn.
    symmetry. apply Permutation_middle.
Qed.

(** Moving a handle between states that count alike changes nothing else. *)
Lemma arc_inv_handle h hs mk mk' dr i x y :
  arc_inv (mkWorld h hs mk dr) -> hs !! i = Some y ->
  (forall q, length (owns q x) = length (owns q y) /\ frees q x = [] /\ frees q y = []) ->
  (forall q v, x = Emplacing q 1 v -> owners hs q = 1%nat) ->
  mk' ++ pending y ≡ₚ pending x ++ mk ->
  arc_inv (mkWorld h (<[i := x]> hs) mk' dr).
Proof.
  intros Hinv Hi Hsame Hx Hmk. pose proof (fun q => owners_set hs i x y q Hi) as Hset.
  assert (Heq : forall q, owners (<[i := x]> hs) q = owners hs q /\ freers (<[i := x]> hs) q = freers hs q).
  { intros q. specialize (Hset q). destruct (Hsame q) as (E & Ex & Ey). rewrite Ex, Ey in Hset.
    cbn in Hset. lia. }
  destruct Hinv as [Hc Hs Hm Hv]. cbn in *. constructor; cbn.
  - intros q. destruct (Heq q) as [-> ->]. apply Hc.
  - intros k q v Hk. destruct (Heq q) as [-> _]. destruct (decide (i = k)) as [->|].
    + rewrite lookup_insert_eq in Hk. injection Hk as ->. by apply (Hx q v).
    + rewrite lookup_insert_ne in Hk by done. by apply (Hs k q v).
  - intros q. destruct (Heq q) as [-> _]. apply Hm.
  - apply (Permutation_app_inv_r (pending y)). rewrite Hmk, Hv.
    transitivity ((dr ++ live h) ++ (pending x ++ mbag pending hs)); [solve_Permutation|].
    rewrite <- (mbag_insert pending hs i x y Hi). solve_Permutation.
Qed.

Lemma arc_inv_load h hs mk dr i p val oval :
  arc_inv (mkWorld h hs mk dr) -> hs !! i = Some (Idle p) -> arc_get_owners h p = Ret oval ->
  arc_inv (mkWorld h (<[i := Emplacing p oval val]> hs) (val :: mk) dr).
Proof.
  intros Hinv Hi E. apply (arc_inv_handle h hs mk _ dr i _ (Idle p)); try done.
  - intros q v [= <- -> _]. unfold arc_get_owners in E. pose proof (ai_count _ Hinv p) as Hc.
    cbn in Hc. destruct (h !! p); [|done]. cbn in E. injection E as E. lia.
  - cbn. by rewrite app_nil_r.
Qed.

Lemma arc_inv_retry h hs mk dr i p oval val v :
  arc_inv (mkWorld h hs mk dr) -> hs !! i = Some (Emplacing p oval val) ->
  emplace_try h p oval val = Ret (Retry v) ->
  arc_inv (mkWorld h (<[i := Emplacing p v val]> hs) mk dr).
Proof.
  intros Hinv Hi E. unfold emplace_try, set_rc in E. destruct (h !! p) as [y|] eqn:Hy; [|done].
  cbn in E. destruct (oval =? 1); [done|]. destruct (sp_rc y =? oval); [by rewrite ?Hy in E|].
  injection E as <-. apply (arc_inv_handle h hs mk _ dr i _ (Emplacing p oval val)); try done.
  - intros q v' [= <- E' _]. pose proof (ai_count _ Hinv p) as Hc. cbn in Hc. rewrite Hy in Hc. lia.
  - solve_Permutation.
Qed.

(** The exclusive case of [emplace]: the value is replaced in place. *)
Lemma arc_inv_replace h hs mk dr i p val y :
  arc_inv (mkWorld h hs mk dr) -> hs !! i = Some (Emplacing p 1 val) -> h !! p = Some y ->
  arc_inv (mkWorld (<[p := mkPayload val (sp_rc y)]> h) (<[i := Idle p]> hs) mk (sp_data y :: dr)).
Proof.
  intros Hinv Hi Hy.
  pose proof (fun q => owners_set hs i (Idle p) (Emplacing p 1 val) q Hi) as Hset.
  assert (Heq : forall q, owners (<[i := Idle p]> hs) q = owners hs q /\
    freers (<[i := Idle p]> hs) q = freers hs q) by (intros q; specialize (Hset q); cbn in Hset; lia).
  destruct Hinv as [Hc Hs Hm Hv]. cbn in *. constructor; cbn.
  - intros q. destruct (Heq q) as [-> ->]. specialize (Hc q).
    destruct (decide (p = q)) as [<-|]; [rewrite lookup_insert_eq; by rewrite Hy in Hc|].
    by rewrite lookup_insert_ne.
  - intros k q v Hk. destruct (Heq q) as [-> _].
    destruct (decide (i = k)) as [->|]; [by rewrite lookup_insert_eq in Hk|].
    rewrite lookup_insert_ne in Hk by done. by apply (Hs k q v).
  - intros q. destruct (Heq q) as [-> _]. apply Hm.
  - pose proof (live_set h p (mkPayload val (sp_rc y)) y Hy) as El. cbn in El.
    pose proof (mbag_insert pending hs i (Idle p) _ Hi) as Ep. cbn in Ep.
    rewrite Hv, <- Ep. transitivity (dr ++ (val :: live h) ++ mbag pending (<[i:=Idle p]> hs));
      [solve_Permutation|]. rewrite <- El. solve_Permutation.
Qed.

(** The shared case: the count drops by one and the handle moves to a payload of
    its own. *)
Lemma arc_inv_detach h hs mk dr i p oval val y p' h' :
  arc_inv (mkWorld h hs mk dr) -> hs !! i = Some (Emplacing p oval val) -> oval <> 1 ->
  h !! p = Some y -> sp_rc y = oval ->
  alloc_payload (<[p := mkPayload (sp_data y) (wsub oval 1)]> h) val = (p', h') ->
  arc_inv (mkWorld h' (<[i := Idle p']> hs) mk dr).
Proof.
  intros Hinv Hi Hne Hy Hrc E.
  destruct (arc_owner_payload _ i (Emplacing p oval val) p Hinv Hi) as (y' & Hy' & Hc & Hpos & Hfr);
    [cbn; by rewrite Z.eqb_refl|]. cbn in *. rewrite Hy in Hy'. injection Hy' as <-.
  pose proof (ai_small _ Hinv p) as Hmax. cbn in Hmax.
  pose proof (fun q => owners_delete hs i _ q Hi) as Hdel. cbn in Hdel.
  set (mk' := dr ++ live h ++ mbag pending (delete i hs)).
  pose proof (mbag_delete pending hs i _ Hi) as Ep. cbn in Ep.
  assert (Hmk : mk ≡ₚ val :: mk').
  { pose proof (ai_values _ Hinv) as Hv. cbn in Hv. rewrite Hv, <- Ep. unfold mk'. solve_Permutation. }
  assert (Hw : wsub oval 1 = oval - 1)
    by (apply wsub_small; unfold is_usize, usize_max in *; lia).
  assert (H1 : arc_inv (mkWorld (<[p := mkPayload (sp_data y) (wsub oval 1)]> h) (delete i hs) mk' dr)).
  { rewrite Hw. apply (arc_inv_recount h hs _ mk mk' dr p y); try done.
    - specialize (Hdel p). rewrite Z.eqb_refl in Hdel. cbn in Hdel. lia.
    - lia.
    - specialize (Hdel p). rewrite Z.eqb_refl in Hdel. cbn in Hdel. lia.
    - intros q Hq. specialize (Hdel q). destruct (Z.eqb_spec p q); [congruence|]. cbn in Hdel. lia.
    - intros k q v Hk. apply lookup_delete_Some in Hk as [Hki Hk]. split; [done|]. intros ->.
      apply Hki. symmetry. apply (sole_handle _ k i p v _ Hinv Hk Hi). cbn. by rewrite Z.eqb_refl.
    - rewrite Hmk, <- Ep. solve_Permutation. }
  pose proof (arc_inv_new _ _ mk' dr i val p' h' H1 (lookup_delete_eq _ _) E) as H2.
  rewrite insert_delete_eq in H2. destruct H2 as [A1 A2 A3 A4]. constructor; try done.
  cbn in *. by rewrite Hmk.
Qed.

Lemma arc_step_inv w w' : arc_inv w -> arc_step w w' -> arc_inv w'.
Proof.
  intros Hinv Hst. destruct Hst.
  - by apply (arc_inv_new h hs mk dr i d p h').
  - by apply (arc_inv_clone h hs mk dr i j p h').
  - by apply (arc_inv_drop h hs mk dr i p 1 h').
  - pose proof (arc_inv_drop h hs mk dr i p old h' Hinv) as Hd.
    destruct (Z.eqb_spec old 1); [done|]. by apply Hd.
  - by apply (arc_inv_free h hs mk dr i p h').
  - by apply arc_inv_load.
  - unfold emplace_try, set_rc in *. destruct (h !! p) as [y|] eqn:Hy; [|done]. cbn in *.
    destruct (Z.eqb_spec oval 1) as [->|].
    { simplify_eq. by apply (arc_inv_replace h hs mk dr i p' val y). }
    destruct (Z.eqb_spec (sp_rc y) oval) as [Erc|]; [|done]. cbn in *.
    simplify_eq. by apply (arc_inv_detach h hs mk dr i p (sp_rc y) val y).
  - by apply (arc_inv_retry h hs mk dr i p oval).
Qed.

Lemma arc_reach_inv w : rtc arc_step arc_init w -> arc_inv w.
Proof.
  revert w. apply (rtc_ind_r (R := arc_step) (fun w => arc_inv w) arc_init); [apply arc_inv_init|].
  intros y z _ Hs Hy. by apply (arc_step_inv y).
Qed.

(** The step relation never gets stuck on a missing payload: whatever a handle's
    owner does next finds it. *)
Lemma arc_progress w i x :
  arc_inv w -> aw_handles w !! i = Some x ->
  exists y, aw_heap w !! (match x with Idle p | Emplacing p _ _ | Freeing p => p end) = Some y.
Proof.
  intros Hinv Hi. destruct x as [p|p o v|p].
  1,2: edestruct (arc_owner_payload w i) as (y & Hy & _); [done..| |by exists y];
    cbn; by rewrite Z.eqb_refl.
  pose proof (ai_count w Hinv p) as Hc. destruct (aw_heap w !! p) as [y|] eqn:Hy; [by exists y|].
  pose proof (mbag_in (frees p) (aw_handles w) i _ Hi) as Hm. cbn in Hm. rewrite Z.eqb_refl in Hm.
  cbn in Hm. unfold freers in Hc. lia.
Qed.

(** C5: reference counting is sound under every interleaving of the atomic
    actions: in a reachable state every handle's payload is allocated; the
    count of a payload is the number of handles on it; a payload is freed by
    one handle only and after all others are gone; each value ever stored is
    either held by exactly one payload, or about to be stored, or dropped, and
    dropped once; with no handle left the heap is empty. *)
Theorem strong_arc_sound w :
  rtc arc_step arc_init w ->
  (forall i x, aw_handles w !! i = Some x -> exists y,
     aw_heap w !! (match x with Idle p | Emplacing p _ _ | Freeing p => p end) = Some y) /\
  (forall p y, aw_heap w !! p = Some y -> sp_rc y = Z.of_nat (owners (aw_handles w) p)) /\
  (forall i j p x, aw_handles w !! i = Some (Freeing p) -> aw_handles w !! j = Some x -> i <> j ->
     owns p x = [] /\ frees p x = []) /\
  aw_made w ≡ₚ aw_dropped w ++ live (aw_heap w) ++ mbag pending (aw_handles w) /\
  (aw_handles w = ∅ -> aw_heap w = ∅).
Proof.
  intros Hr. pose proof (arc_reach_inv w Hr) as Hinv. split_and!.
  - intros i x Hi. by apply (arc_progress w i).
  - intros p y Hy. pose proof (ai_count w Hinv p) as Hc. rewrite Hy in Hc. apply Hc.
  - intros i j p x Hi Hj Hne. pose proof (ai_count w Hinv p) as Hc.
    destruct (owners_delete (aw_handles w) i _ p Hi) as [Ho Hf]. cbn in Ho, Hf.
    rewrite Z.eqb_refl in Hf. cbn in Hf.
    assert (Hj' : delete i (aw_handles w) !! j = Some x) by by rewrite lookup_delete_ne.
    pose proof (mbag_in (owns p) _ j x Hj') as Mo. pose proof (mbag_in (frees p) _ j x Hj') as Mf.
    unfold owners, freers in *.
    assert (length (owns p x) = 0 /\ length (frees p x) = 0)%nat as [Eo Ef]
      by (destruct (aw_heap w !! p); lia).
    split; by apply length_zero_iff_nil.
  - apply (ai_values w Hinv).
  - intros He. apply map_empty. intros p. pose proof (ai_count w Hinv p) as Hc. rewrite He in Hc.
    destruct (aw_heap w !! p) as [y|]; [|done]. unfold owners, freers in Hc.
    rewrite !mbag_empty in Hc. cbn in Hc. lia.
Qed.

End Counting.

(** Fresh addresses exist: the witness instance. *)
Definition set_fresh : GlobalAlloc := {| alloc_addr := fresh |}.

#[export] Instance set_fresh_laws : GlobalAllocLaws set_fresh.
Proof. constructor. intros X. apply is_fresh. Qed.

(** Two handles on one value; the second owner replaces it, the first drops. *)
Definition arc_demo : arc_world bool := Eval vm_compute in
  let '(p, h0) := arc_new (G := set_fresh) ∅ false in
  match arc_clone h0 p with
  | Ret h1 =>
      match emplace_try (G := set_fresh) h1 p 2 true with
      | Ret (Placed p' h2 _) =>
          match rc_fetch_sub h2 p with
          | Ret (_, h3) => mkWorld h3 {[ 0%nat := Freeing p; 1%nat := Idle p' ]} [true; false] []
          | Panic => arc_init
          end
      | _ => arc_init
      end
  | Panic => arc_init
  end.

Lemma arc_demo_reached : rtc (arc_step (G := set_fresh)) arc_init arc_demo.
Proof.
  eapply rtc_l; [eapply (step_new ∅ ∅ [] [] 0%nat false); [done|reflexivity]|].
  eapply rtc_l; [eapply (step_clone _ _ _ _ 0%nat 1%nat); [reflexivity|reflexivity|by vm_compute|reflexivity]|].
  eapply rtc_l; [eapply (step_emplace_load _ _ _ _ 1%nat _ true); reflexivity|].
  eapply rtc_l; [eapply (step_emplace_done _ _ _ _ 1%nat); reflexivity|].
  eapply rtc_l; [eapply (step_drop_last _ _ _ _ 0%nat); reflexivity|].
  vm_compute. apply rtc_refl.
Qed.

Lemma strong_arc_sound_witness :
  aw_made arc_demo = [true; false] /\ aw_dropped arc_demo = [] /\
  aw_made arc_demo ≡ₚ live (aw_heap arc_demo) ++ mbag pending (aw_handles arc_demo).
Proof.
  split; [done|]. split; [done|].
  apply (strong_arc_sound (G := set_fresh) (GL := set_fresh_laws) arc_demo arc_demo_reached).
Defined.
