(* ===== verification/Vma.v ===== *)
(** User memory areas as values (os/src/mm/vm/mod.rs and the parts of uvm.rs that
    touch no page table): the area record, its range of pages, splitting,
    merging, growing, shrinking and moving.  The frames of an area are the
    [BTreeMap] from page numbers to reference-counted frames; a frame is the
    address of its [StrongArc] payload.  Files and shared-memory objects are
    identified by a number, which is what their [PartialEq] compares.

    [backing] says what a page of an area holds before it is first written: a
    page of a file, of a shared object, or zeroes.  Splitting and merging are
    shown to preserve it for every page. *)

From S2P Require Import Prelude HalConst Addr Pte.

#[local] Open Scope Z_scope.

(** ** Flags *)

(** [MmapFlags], the argument of mmap (os/src/syscall/mm.rs). *)
Definition MAP_SHARED : Z := 0x01.
Definition MAP_PRIVATE : Z := 0x02.
Definition MAP_SHARED_VALIDATE : Z := 0x03.
Definition MAP_TYPE_MASK : Z := 0x03.
Definition MAP_FIXED : Z := 0x10.
Definition MAP_ANONYMOUS : Z := 0x20.
Definition MAP_NORESERVE : Z := 0x04000.

(** [MapFlags], kept in the area. *)
Definition SHARED : Z := 1.

Definition MapFlags_from (value : Z) : Z :=
  if contains value MAP_SHARED || contains value MAP_SHARED_VALIDATE then bf_insert 0 SHARED else 0.

(** [PageFaultAccessType]. *)
Definition READ : Z := 1.
Definition WRITE : Z := 2.
Definition EXECUTE : Z := 4.

Definition can_access (access flag : Z) : bool :=
  if contains access WRITE && negb (contains flag MapPerm_W) then false
  else if contains access EXECUTE && negb (contains flag MapPerm_X) then false
  else true.

(** ** Areas *)

Inductive UserVmAreaType := UserData | UserHeap | UserStack | UserMmap.

Inductive UserVmFile := FileNone | FileFile (file : Z) | FileShm (shm : Z).

#[export] Instance UserVmAreaType_eq_dec : EqDecision UserVmAreaType.
Proof. solve_decision. Defined.
#[export] Instance UserVmFile_eq_dec : EqDecision UserVmFile.
Proof. solve_decision. Defined.

Definition file_is_none (f : UserVmFile) : bool :=
  match f with FileNone => true | _ => false end.
Definition file_is_some (f : UserVmFile) : bool :=
  match f with FileNone => false | _ => true end.
Definition file_is_file (f : UserVmFile) : bool :=
  match f with FileFile _ => true | _ => false end.
Definition file_is_shm (f : UserVmFile) : bool :=
  match f with FileShm _ => true | _ => false end.
Definition UserVmFile_eq (f g : UserVmFile) : bool :=
  match f, g with
  | FileFile l, FileFile r => l =? r
  | FileShm l, FileShm r => l =? r
  | FileNone, FileNone => true
  | _, _ => false
  end.

Record UserVmArea := mkArea {
  range_va : Range;
  vma_type : UserVmAreaType;
  map_perm : Z;
  frames : gmap Z Z;
  a_file : UserVmFile;
  map_flags : Z;
  a_offset : Z;
  a_len : Z;
}.

(** [BTreeMap::split_off(&p)]: what stays and what is returned. *)
Definition bt_below {X} (p : Z) (m : gmap Z X) : gmap Z X := filter (fun e => e.1 < p) m.
Definition bt_from {X} (p : Z) (m : gmap Z X) : gmap Z X := filter (fun e => p <= e.1) m.

Section Area.
Context {C : ConstantsHal}.

Definition area_new (range : Range) (ty : UserVmAreaType) (perm : Z) : UserVmArea :=
  mkArea range ty perm ∅ FileNone 0 0 0.

Definition area_new_mmap (range : Range) (perm flags : Z) (file : UserVmFile) (offset len : Z) :
    UserVmArea :=
  mkArea range UserMmap perm ∅ file (MapFlags_from flags) offset len.

Definition range_vpn (a : UserVmArea) : Range :=
  mkRange (VirtAddr_floor (r_start (range_va a))) (VirtAddr_ceil (r_end (range_va a))).

Definition get_mmap_flags (a : UserVmArea) : Z :=
  let ret := if contains (map_flags a) SHARED then bf_insert 0 MAP_SHARED
             else bf_insert 0 MAP_PRIVATE in
  if negb (file_is_file (a_file a)) then bf_insert ret MAP_ANONYMOUS else ret.

(** What is left of the area, and what was split off. *)
Definition split_off (a : UserVmArea) (p : Z) : UserVmArea * UserVmArea :=
  let new_offset := wadd (a_offset a) (wmul (wsub p (r_start (range_vpn a))) PAGE_SIZE) in
  let new_len := if a_len a <? wsub new_offset (a_offset a) then 0
                 else wsub (a_len a) (wsub new_offset (a_offset a)) in
  ( mkArea (mkRange (r_start (range_va a)) (VirtPageNum_start_addr p)) (vma_type a) (map_perm a)
      (bt_below p (frames a)) (a_file a) (map_flags a) (a_offset a) (wsub (a_len a) new_len),
    mkArea (mkRange (VirtPageNum_start_addr p) (r_end (range_va a))) (vma_type a) (map_perm a)
      (bt_from p (frames a)) (a_file a) (map_flags a) new_offset new_len ).

Definition area_extend (a : UserVmArea) (size : Z) : UserVmArea :=
  if size =? 0 then a
  else
    let end_ := VirtPageNum_start_addr (VirtAddr_ceil (VirtAddr_add (r_end (range_va a)) size)) in
    mkArea (mkRange (r_start (range_va a)) end_) (vma_type a) (map_perm a) (frames a) (a_file a)
      (map_flags a) (a_offset a)
      (if file_is_some (a_file a) then wadd (a_len a) size else a_len a).

(** [shrink] drops what it splits off; the dropped area is the second part. *)
Definition area_shrink (a : UserVmArea) (size : Z) : UserVmArea * option UserVmArea :=
  if size =? 0 then (a, None)
  else
    let '(l, r) := split_off a (VirtAddr_floor (VirtAddr_sub (r_end (range_va a)) size)) in
    (l, Some r).

Definition with_frames (a : UserVmArea) (fs : gmap Z Z) : UserVmArea :=
  mkArea (range_va a) (vma_type a) (map_perm a) fs (a_file a) (map_flags a) (a_offset a) (a_len a).

Definition with_perm (a : UserVmArea) (perm : Z) : UserVmArea :=
  mkArea (range_va a) (vma_type a) perm (frames a) (a_file a) (map_flags a) (a_offset a) (a_len a).

Definition with_range (a : UserVmArea) (r : Range) : UserVmArea :=
  mkArea r (vma_type a) (map_perm a) (frames a) (a_file a) (map_flags a) (a_offset a) (a_len a).

(** [move_frames_to]: each handle is cloned into [other] and the originals
    dropped, so the counts are as before. *)
Definition move_frames_to (a other : UserVmArea) : UserVmArea * UserVmArea :=
  let self_start := VirtAddr_floor (r_start (range_va a)) in
  let other_start := VirtAddr_floor (r_start (range_va other)) in
  ( with_frames a ∅,
    with_frames other
      (fold_left (fun fs e => <[VirtPageNum_add other_start (wsub e.1 self_start) := e.2]> fs)
         (bt_iter (frames a)) (frames other)) ).

Definition check_back_contiguous (a back : UserVmArea) : bool :=
  if negb (r_end (range_va a) =? r_start (range_va back)) then false
  else if negb (bool_decide (vma_type a = vma_type back)) then false
  else if negb (map_perm a =? map_perm back) then false
  else if negb (map_flags a =? map_flags back) then false
  else if negb (UserVmFile_eq (a_file a) (a_file back)) then false
  else if negb (wadd (a_offset a) (a_len a) =? a_offset back) then false
  else true.

(** [BTreeMap::append]: the entries of [back] win. *)
Definition push_back_unchecked (a back : UserVmArea) : UserVmArea :=
  mkArea (mkRange (r_start (range_va a)) (r_end (range_va back))) (vma_type a) (map_perm a)
    (frames back ∪ frames a) (a_file a) (map_flags a) (a_offset a) (wadd (a_len a) (a_len back)).

Definition push_back (a back : UserVmArea) : result UserVmArea UserVmArea :=
  if negb (check_back_contiguous a back) then Err back else Ok (push_back_unchecked a back).

Definition access_no_fault (a : UserVmArea) (vpn access : Z) : bool :=
  match frames a !! vpn with
  | Some _ => if contains access WRITE && negb (contains (map_flags a) SHARED) then false else true
  | None => false
  end.

(** ** What backs a page *)

Inductive page_source :=
| Zeroes
| FromFile (file offset len : Z)
| FromShm (shm offset : Z).

Definition page_shift (a : UserVmArea) (vpn : Z) : Z := (vpn - r_start (range_vpn a)) * PAGE_SIZE.

Definition backing (a : UserVmArea) (vpn : Z) : page_source :=
  let d := page_shift a vpn in
  match vma_type a, a_file a with
  | UserData, FileFile f =>
      if d <? a_len a then FromFile f (a_offset a + d) (Z.min PAGE_SIZE (a_len a - d)) else Zeroes
  | UserMmap, FileFile f => FromFile f (a_offset a + d) PAGE_SIZE
  | UserMmap, FileShm s => FromShm s (a_offset a + d)
  | _, _ => Zeroes
  end.

End Area.

(** ** Well-formed areas *)

Section Facts.
Context {C : ConstantsHal} {CL : ConstantsLaws C}.
Implicit Types a b : UserVmArea.

Lemma bt_below_lookup {X} p (m : gmap Z X) k :
  bt_below p m !! k = if k <? p then m !! k else None.
Proof.
  unfold bt_below. destruct (Z.ltb_spec k p).
  - destruct (m !! k) eqn:E; [by apply map_lookup_filter_Some|].
    apply map_lookup_filter_None. by left.
  - apply map_lookup_filter_None. right. cbn. lia.
Qed.

Lemma bt_from_lookup {X} p (m : gmap Z X) k :
  bt_from p m !! k = if k <? p then None else m !! k.
Proof.
  unfold bt_from. destruct (Z.ltb_spec k p).
  - apply map_lookup_filter_None. right. cbn. lia.
  - destruct (m !! k) eqn:E; [by apply map_lookup_filter_Some|].
    apply map_lookup_filter_None. by left.
Qed.

Lemma bt_split_union {X} p (m : gmap Z X) : bt_from p m ∪ bt_below p m = m.
Proof.
  apply map_eq. intros k. rewrite lookup_union, bt_below_lookup, bt_from_lookup.
  destruct (k <? p); [by destruct (m !! k)|by destruct (m !! k)].
Qed.

(** The pages of the user half. *)
Definition user_pages : Z := 2 ^ (VA_WIDTH - 13).

Lemma user_half : 2 ^ (VA_WIDTH - 1) = user_pages * 4096 /\ 0 < user_pages /\
  2 * user_pages = 2 ^ VPN_WIDTH /\ user_pages * 4096 <= 2 ^ 62.
Proof.
  unfold user_pages. pose proof va_width_range.
  assert (E : 2 ^ (VA_WIDTH - 1) = 2 ^ (VA_WIDTH - 13) * 4096).
  { change 4096 with (2 ^ 12). rewrite <- Z.pow_add_r by lia. f_equal. lia. }
  split; [done|]. split; [apply Z.pow_pos_nonneg; lia|]. split.
  - unfold VPN_WIDTH. rewrite page_size_bits, <- Z.pow_succ_r by lia. f_equal. lia.
  - rewrite <- E. apply Z.pow_le_mono_r; lia.
Qed.

Lemma user_start_addr v : 0 <= v < user_pages -> VirtPageNum_start_addr v = v * 4096.
Proof.
  intros Hv. destruct user_half as (E & ? & ? & ?).
  rewrite start_addr_val by (unfold is_vpn; lia). rewrite E. zcmp.
Qed.

Lemma user_floor x : 0 <= x <= user_pages * 4096 -> VirtAddr_floor x = x / 4096.
Proof. intros. destruct user_half as (E & _). apply floor_user. lia. Qed.

Lemma user_ceil x : 0 <= x <= user_pages * 4096 -> VirtAddr_ceil x = (x + 4095) / 4096.
Proof. intros. destruct user_half as (E & _). apply ceil_user. lia. Qed.

(** An area starts at a page, ends below the last user page, keeps its frames
    inside, and its file window does not wrap. *)
Record area_ok a : Prop := {
  ao_start : 0 <= r_start (range_va a) /\ r_start (range_va a) mod 4096 = 0;
  ao_order : r_start (range_va a) < r_end (range_va a);
  ao_end : r_end (range_va a) <= (user_pages - 1) * 4096;
  ao_frames k p : frames a !! k = Some p -> in_range k (range_vpn a);
  ao_offset : 0 <= a_offset a /\
    a_offset a + (r_end (range_vpn a) - r_start (range_vpn a)) * 4096 < 2 ^ 64;
  ao_len : 0 <= a_len a /\ a_offset a + a_len a < 2 ^ 64;
}.

Lemma area_pages a :
  area_ok a ->
  r_start (range_va a) = r_start (range_vpn a) * 4096 /\
  0 <= r_start (range_vpn a) < r_end (range_vpn a) /\ r_end (range_vpn a) < user_pages /\
  (r_end (range_vpn a) - 1) * 4096 < r_end (range_va a) <= r_end (range_vpn a) * 4096.
Proof.
  intros [Hs Ho He _ _ _]. unfold range_vpn. cbn [r_start r_end].
  rewrite user_floor, user_ceil by lia. div_lia.
Qed.

(** A range of pages as addresses and back. *)
Lemma range_vpn_pages a s e x :
  0 <= s < user_pages -> 0 <= e < user_pages -> range_va a = mkRange (s * 4096) x ->
  0 <= x -> (e - 1) * 4096 < x <= e * 4096 ->
  range_vpn a = mkRange s e.
Proof.
  intros Hs He E Hx0 Hx. unfold range_vpn. rewrite E. cbn [r_start r_end].
  rewrite user_floor, user_ceil by lia. f_equal; div_lia.
Qed.

(** Project an area's fields, leaving its ranges folded. *)
Ltac area_cbn :=
  cbn [range_va vma_type map_perm frames a_file map_flags a_offset a_len r_start r_end
       with_frames with_perm with_range].

(** The numbers [split_off] computes, without wrap-around. *)
Lemma split_off_val a p :
  area_ok a -> r_start (range_vpn a) <= p <= r_end (range_vpn a) ->
  let d := (p - r_start (range_vpn a)) * 4096 in
  split_off a p =
    ( mkArea (mkRange (r_start (range_va a)) (p * 4096)) (vma_type a) (map_perm a)
        (bt_below p (frames a)) (a_file a) (map_flags a) (a_offset a) (Z.min (a_len a) d),
      mkArea (mkRange (p * 4096) (r_end (range_va a))) (vma_type a) (map_perm a)
        (bt_from p (frames a)) (a_file a) (map_flags a) (a_offset a + d) (Z.max 0 (a_len a - d)) ).
Proof.
  intros Ha Hp d. destruct (area_pages a Ha) as (_ & Hs & He & _).
  destruct user_half as (_ & Hu & _ & Hmax). destruct Ha as [_ _ _ _ Hoff Hlen].
  unfold split_off. rewrite user_start_addr by lia. rewrite page_size_val.
  set (s := r_start (range_vpn a)) in *.
  assert (0 <= d <= (r_end (range_vpn a) - s) * 4096) by (unfold d; lia).
  assert (d <= user_pages * 4096) by (unfold d; lia).
  rewrite (wsub_small p s) by (unfold is_usize; lia).
  rewrite (wmul_small (p - s)) by (unfold is_usize; fold d; lia). fold d.
  rewrite (wadd_small (a_offset a) d) by (unfold is_usize; lia).
  assert (E : wsub (a_offset a + d) (a_offset a) = d)
    by (rewrite wsub_small by (unfold is_usize; lia); lia).
  rewrite E. destruct (Z.ltb_spec (a_len a) d).
  - rewrite wsub_small by (unfold is_usize; lia). f_equal; f_equal; lia.
  - rewrite (wsub_small (a_len a) d) by (unfold is_usize; lia).
    rewrite wsub_small by (unfold is_usize; lia). f_equal; f_equal; lia.
Qed.

Lemma split_off_ok a p l r :
  area_ok a -> r_start (range_vpn a) <= p < r_end (range_vpn a) -> split_off a p = (l, r) ->
  range_vpn r = mkRange p (r_end (range_vpn a)) /\ area_ok r /\
  (r_start (range_vpn a) < p -> range_vpn l = mkRange (r_start (range_vpn a)) p /\ area_ok l) /\
  (p = r_start (range_vpn a) -> range_is_empty (range_vpn l) = true).
Proof.
  intros Ha Hp E. rewrite split_off_val in E by (done || lia). cbv zeta in E.
  destruct (area_pages a Ha) as (Es & Hs & He & Hx). destruct user_half as (_ & Hu & _ & Hmax).
  destruct Ha as [[Hs0 Hal] Ho Hend Hfr Hoff Hlen].
  remember (r_start (range_vpn a)) as s eqn:Hds. injection E as <- <-.
  assert (Er : forall t pm fs f fl o ln, range_vpn (mkArea (mkRange (p * 4096) (r_end (range_va a)))
    t pm fs f fl o ln) = mkRange p (r_end (range_vpn a))).
  { intros. apply (range_vpn_pages _ p _ (r_end (range_va a))); (done || lia). }
  assert (El : forall t pm fs f fl o ln, range_vpn (mkArea (mkRange (r_start (range_va a)) (p * 4096))
    t pm fs f fl o ln) = mkRange s p).
  { intros. apply (range_vpn_pages _ _ _ (p * 4096)); try lia. cbn [range_va]. by rewrite Es. }
  rewrite Er, El. split; [done|]. split; [|split].
  - constructor; rewrite ?Er; area_cbn; try lia; [split; [lia|apply Z.mod_mul; lia]|].
    intros k q. rewrite bt_from_lookup. destruct (Z.ltb_spec k p); [done|]. intros Hk.
    apply Hfr in Hk. unfold in_range in *. cbn [r_start r_end]. lia.
  - intros Hlt. split; [done|]. constructor; rewrite ?El; area_cbn; try lia.
    intros k q. rewrite bt_below_lookup. destruct (Z.ltb_spec k p); [|done]. intros Hk.
    apply Hfr in Hk. unfold in_range in *. cbn [r_start r_end]. lia.
  - intros ->. unfold range_is_empty. cbn. by rewrite Z.ltb_irrefl.
Qed.

(** Splitting changes what backs no page. *)
Lemma split_off_backing a p l r vpn :
  area_ok a -> r_start (range_vpn a) <= p < r_end (range_vpn a) -> split_off a p = (l, r) ->
  in_range vpn (range_vpn a) ->
  backing (if vpn <? p then l else r) vpn = backing a vpn.
Proof.
  intros Ha Hp E Hv. destruct (split_off_ok a p l r Ha Hp E) as (Er & _ & El & _).
  rewrite split_off_val in E by (done || lia). cbv zeta in E. unfold in_range in Hv.
  assert (Es : vpn < p -> r_start (range_vpn l) = r_start (range_vpn a)).
  { intros. destruct El as [-> _]; [lia|done]. }
  assert (Ep : r_start (range_vpn r) = p) by by rewrite Er.
  unfold backing, page_shift. rewrite page_size_val.
  destruct (Z.ltb_spec vpn p) as [Hlt|Hge]; [rewrite (Es Hlt)|rewrite Ep]; clear Er El Es Ep;
    remember (r_start (range_vpn a)) as s eqn:Hds; clear Hds;
    injection E as <- <-; area_cbn; destruct (vma_type a); try done; destruct (a_file a); try done;
    repeat match goal with |- context [?x <? ?y] => destruct (Z.ltb_spec x y) end; f_equal; lia.
Qed.

(** Frames go to the side of the split their page is on. *)
Lemma split_off_frames a p l r vpn :
  split_off a p = (l, r) ->
  frames l !! vpn = (if vpn <? p then frames a !! vpn else None) /\
  frames r !! vpn = (if vpn <? p then None else frames a !! vpn).
Proof.
  intros E. injection E as <- <-. cbn [frames]. by rewrite bt_below_lookup, bt_from_lookup.
Qed.

(** Merging back what was split off restores the area. *)
Lemma split_off_merge a p l r :
  area_ok a -> r_start (range_vpn a) <= p <= r_end (range_vpn a) -> split_off a p = (l, r) ->
  push_back_unchecked l r = a /\
  ((p - r_start (range_vpn a)) * 4096 <= a_len a -> push_back l r = Ok a).
Proof.
  intros Ha Hp E. pose proof Ha as [_ _ _ _ Hoff Hlen].
  rewrite split_off_val in E by done. cbv zeta in E.
  remember (r_start (range_vpn a)) as s eqn:Hs. injection E as <- <-.
  match goal with |- push_back_unchecked ?x ?y = _ /\ _ => set (l := x); set (r := y) end.
  assert (Hm : push_back_unchecked l r = a).
  { unfold push_back_unchecked, l, r. area_cbn. rewrite bt_split_union.
    rewrite wadd_small by (unfold is_usize; lia). destruct a as [[x y] ?????? ln]. area_cbn.
    f_equal. cbn [a_len]. lia. }
  split; [done|]. intros Hd. unfold push_back. rewrite Hm.
  assert (Hc : check_back_contiguous l r = true); [|by rewrite Hc].
  unfold check_back_contiguous, l, r. area_cbn.
  rewrite !Z.eqb_refl, bool_decide_eq_true_2 by done. cbn [negb].
  assert (Ef : UserVmFile_eq (a_file a) (a_file a) = true)
    by (destruct (a_file a); cbn; by rewrite ?Z.eqb_refl).
  rewrite Ef. cbn [negb]. rewrite wadd_small by (unfold is_usize; lia).
  replace (Z.min _ _) with ((p - s) * 4096) by lia. by rewrite Z.eqb_refl.
Qed.

(** Cutting an area at a page inside it gives two well-formed areas that
    meet at the page.  Every page keeps its frame, its permissions and what
    backs it, on the side it falls on; merging the two halves gives the area
    back, and the checked merge accepts them when the file part reaches the
    cut. *)
Theorem area_split_merge a p :
  area_ok a -> r_start (range_vpn a) < p < r_end (range_vpn a) ->
  exists l r, split_off a p = (l, r) /\ area_ok l /\ area_ok r /\
    range_vpn l = mkRange (r_start (range_vpn a)) p /\ range_vpn r = mkRange p (r_end (range_vpn a)) /\
    (forall vpn, in_range vpn (range_vpn a) -> backing (if vpn <? p then l else r) vpn = backing a vpn) /\
    (forall vpn, frames l !! vpn = (if vpn <? p then frames a !! vpn else None) /\
       frames r !! vpn = (if vpn <? p then None else frames a !! vpn)) /\
    (forall x, x = l \/ x = r -> map_perm x = map_perm a /\ map_flags x = map_flags a /\
       vma_type x = vma_type a /\ a_file x = a_file a) /\
    push_back_unchecked l r = a /\
    ((p - r_start (range_vpn a)) * 4096 <= a_len a -> push_back l r = Ok a).
Proof.
  intros Ha Hp. destruct (split_off a p) as [l r] eqn:E. exists l, r. split; [done|].
  destruct (split_off_ok a p l r Ha ltac:(lia) E) as (Er & Hr & Hl & _).
  destruct (Hl ltac:(lia)) as [El Hlok]. destruct (split_off_merge a p l r Ha ltac:(lia) E) as [Hm Hc].
  split_and!; try done.
  - intros vpn Hv. apply (split_off_backing a p l r); (done || lia).
  - intros vpn. by apply (split_off_frames a p).
  - injection E as <- <-. by intros x [->| ->].
Qed.

Lemma UserVmFile_eq_spec f g : UserVmFile_eq f g = true -> f = g.
Proof. destruct f, g; cbn; try done; by intros ->%Z.eqb_eq. Qed.

Lemma contiguous_spec a b :
  check_back_contiguous a b = true ->
  r_end (range_va a) = r_start (range_va b) /\ vma_type a = vma_type b /\ map_perm a = map_perm b /\
  map_flags a = map_flags b /\ a_file a = a_file b /\ wadd (a_offset a) (a_len a) = a_offset b.
Proof.
  unfold check_back_contiguous.
  repeat match goal with |- context [negb ?c] => destruct c eqn:?; cbn [negb]; [|done] end.
  intros _. bool_to_prop. repeat split; try done.
  - by eapply bool_decide_eq_true_1.
  - by apply UserVmFile_eq_spec.
Qed.

(** The merge of adjacent areas covers both ranges. *)
Lemma push_back_ok a b :
  area_ok a -> area_ok b -> check_back_contiguous a b = true ->
  a_len a = (r_end (range_vpn a) - r_start (range_vpn a)) * 4096 ->
  let c := push_back_unchecked a b in
  area_ok c /\ r_end (range_vpn a) = r_start (range_vpn b) /\
  range_vpn c = mkRange (r_start (range_vpn a)) (r_end (range_vpn b)).
Proof.
  intros Ha Hb Hc Hlen c. destruct (contiguous_spec a b Hc) as (Er & Et & Ep & Ef & El & Eo).
  destruct (area_pages a Ha) as (Esa & Hsa & Hea & Hxa).
  destruct (area_pages b Hb) as (Esb & Hsb & Heb & Hxb).
  pose proof Ha as [[Hs0 Hal] Ho Hend Hfr Hoff Hl]. pose proof Hb as [_ Hob Hendb Hfrb Hoffb Hlb].
  destruct user_half as (_ & Hu & _ & Hmax).
  assert (Em : r_end (range_vpn a) = r_start (range_vpn b)) by lia.
  assert (Erc : range_vpn c = mkRange (r_start (range_vpn a)) (r_end (range_vpn b))).
  { apply (range_vpn_pages _ _ _ (r_end (range_va b))); try lia. unfold c, push_back_unchecked.
    cbn [range_va]. by rewrite Esa. }
  rewrite wadd_small in Eo by (unfold is_usize; lia). split; [|done].
  constructor; rewrite ?Erc; unfold c, push_back_unchecked; cbn [range_va frames a_offset a_len].
  - exact (conj Hs0 Hal).
  - cbn [r_start r_end]. lia.
  - exact Hendb.
  - intros k q. rewrite lookup_union_Some_raw. unfold in_range. cbn [r_start r_end].
    intros [Hk|[_ Hk]]; [apply Hfrb in Hk|apply Hfr in Hk]; unfold in_range in Hk; lia.
  - split; [lia|]. remember (r_start (range_vpn a)) as s. remember (r_end (range_vpn b)) as e.
    cbn [r_start r_end]. lia.
  - rewrite wadd_small by (unfold is_usize; lia). lia.
Qed.

Lemma push_back_pages a b :
  area_ok a -> area_ok b -> check_back_contiguous a b = true ->
  a_len a = (r_end (range_vpn a) - r_start (range_vpn a)) * 4096 ->
  exists c, push_back a b = Ok c /\ area_ok c /\
    range_vpn c = mkRange (r_start (range_vpn a)) (r_end (range_vpn b)) /\
    (forall vpn, in_range vpn (range_vpn a) -> backing c vpn = backing a vpn /\
       frames c !! vpn = frames a !! vpn) /\
    (forall vpn, in_range vpn (range_vpn b) -> backing c vpn = backing b vpn /\
       frames c !! vpn = frames b !! vpn).
Proof.
  intros Ha Hb Hc Hlen. destruct (contiguous_spec a b Hc) as (Er & Et & Ep & Ef & El & Eo).
  pose proof Ha as [_ _ _ Hfr Hoff Hl]. pose proof Hb as [_ _ _ Hfrb Hoffb Hlb].
  rewrite wadd_small in Eo by (unfold is_usize; lia).
  destruct (push_back_ok a b Ha Hb Hc Hlen) as (Hok & Em & Erc).
  exists (push_back_unchecked a b). unfold push_back. rewrite Hc. cbn [negb].
  split; [done|]. split; [done|]. split; [done|].
  assert (Hfrc : forall vpn, frames (push_back_unchecked a b) !! vpn =
    match frames b !! vpn with Some q => Some q | None => frames a !! vpn end).
  { intros vpn. cbn [frames push_back_unchecked]. rewrite lookup_union.
    by destruct (frames b !! vpn), (frames a !! vpn). }
  assert (Hlc : a_len (push_back_unchecked a b) = a_len a + a_len b)
    by (cbn [a_len push_back_unchecked]; apply wadd_small; unfold is_usize; lia).
  remember (push_back_unchecked a b) as c eqn:Ec.
  assert (Hc' : vma_type c = vma_type a /\ a_file c = a_file a /\ a_offset c = a_offset a)
    by by subst c.
  destruct Hc' as (Tc & Fc & Oc). split; intros vpn Hv; (split; [|rewrite Hfrc]).
  - unfold backing, page_shift. rewrite Tc, Fc, Oc, Hlc, Erc, page_size_val.
    unfold in_range in Hv. remember (r_start (range_vpn a)) as s. cbn [r_start].
    destruct (vma_type a), (a_file a); try done. zcmp. f_equal; lia.
  - destruct (frames b !! vpn) eqn:Eb; [|done]. apply Hfrb in Eb. unfold in_range in *. lia.
  - unfold backing, page_shift. rewrite Tc, Fc, Oc, Hlc, Erc, page_size_val.
    unfold in_range in Hv. remember (r_start (range_vpn a)) as s.
    remember (r_start (range_vpn b)) as sb. cbn [r_start].
    rewrite <- Et, <- El. destruct (vma_type a), (a_file a); try done; zcmp; f_equal; lia.
  - destruct (frames b !! vpn); [done|]. destruct (frames a !! vpn) eqn:Ea; [|done].
    apply Hfr in Ea. unfold in_range in *. lia.
Qed.

(** Merging adjacent areas.  When the file part of the first fills its
    pages exactly, an accepted merge is a well-formed area over both ranges in
    which every page keeps what backs it and its frame.  The check does not
    ask for that: it accepts an area with trailing zero pages (bss) followed by
    one whose file offset continues the file part, and then a zero page is
    turned into a page of the file. *)
Theorem push_back_backing a b :
  area_ok a -> area_ok b -> check_back_contiguous a b = true ->
  (a_len a = (r_end (range_vpn a) - r_start (range_vpn a)) * 4096 ->
   exists c, push_back a b = Ok c /\ area_ok c /\
     range_vpn c = mkRange (r_start (range_vpn a)) (r_end (range_vpn b)) /\
     (forall vpn, in_range vpn (range_vpn a) -> backing c vpn = backing a vpn /\
        frames c !! vpn = frames a !! vpn) /\
     (forall vpn, in_range vpn (range_vpn b) -> backing c vpn = backing b vpn /\
        frames c !! vpn = frames b !! vpn)) /\
  (vma_type a = UserData -> file_is_file (a_file a) = true -> 0 < a_len b ->
   (4096 | a_len a) -> a_len a < (r_end (range_vpn a) - r_start (range_vpn a)) * 4096 ->
   exists vpn, in_range vpn (range_vpn a) /\ backing a vpn = Zeroes /\
     backing (push_back_unchecked a b) vpn <> Zeroes).
Proof.
  intros Ha Hb Hc. destruct (contiguous_spec a b Hc) as (Er & Et & Ep & Ef & El & Eo).
  pose proof Ha as [_ _ _ Hfr Hoff Hl]. pose proof Hb as [_ _ _ Hfrb Hoffb Hlb].
  rewrite wadd_small in Eo by (unfold is_usize; lia). split.
  - intros Hlen. by apply push_back_pages.
  - intros Ht Hf Hlb' [k Hk] Hlt. remember (r_start (range_vpn a)) as s eqn:Hs.
    exists (s + k). destruct (a_file a) as [|f|] eqn:Eaf; try done.
    unfold backing, page_shift. cbn [vma_type a_file a_offset a_len push_back_unchecked].
    assert (Esc : r_start (range_vpn (push_back_unchecked a b)) = s) by by rewrite Hs.
    rewrite Esc, <- Hs, Ht, Eaf, page_size_val. unfold in_range. rewrite <- Hs.
    rewrite wadd_small by (unfold is_usize; lia). split; [lia|]. split; zcmp; done.
Qed.

End Facts.

(** ** Concrete areas *)

Definition text_area : UserVmArea :=
  mkArea (mkRange 0x10000 0x14000) UserData 15 {[ 0x11 := 1; 0x13 := 2 ]} (FileFile 7) 0
    0x2000 0x3800.

Lemma text_area_ok : area_ok (C := riscv64) text_area.
Proof.
  constructor; cbn; try (by vm_compute); try lia.
  intros k q. rewrite lookup_insert_Some, lookup_singleton_Some.
  intros [[<- _]|[_ [<- _]]]; by vm_compute.
Qed.

Lemma area_split_merge_witness :
  exists l r, split_off (C := riscv64) text_area 0x12 = (l, r) /\
    push_back l r = Ok text_area /\
    backing (C := riscv64) r 0x13 = FromFile 7 0x5000 0x800.
Proof.
  destruct (area_split_merge (C := riscv64) text_area 0x12 text_area_ok)
    as (l & r & E & _ & _ & _ & _ & Hb & _ & _ & _ & Hp); [by vm_compute|].
  exists l, r. split; [exact E|]. split; [apply Hp; by vm_compute|].
  specialize (Hb 0x13 ltac:(by vm_compute)). cbn [Z.ltb] in Hb. exact Hb.
Defined.

(** A data segment with one page of file data and one of bss, and the segment
    after it. *)
Definition bss_area : UserVmArea :=
  mkArea (mkRange 0x10000 0x12000) UserData 11 ∅ (FileFile 7) 0 0 0x1000.
Definition next_area : UserVmArea :=
  mkArea (mkRange 0x12000 0x13000) UserData 11 ∅ (FileFile 7) 0 0x1000 0x1000.

Lemma bss_areas_ok : area_ok (C := riscv64) bss_area /\ area_ok (C := riscv64) next_area.
Proof. split; constructor; cbn; try (by vm_compute); try lia; by intros k q. Qed.

Lemma push_back_backing_witness :
  check_back_contiguous bss_area next_area = true /\
  exists vpn, backing (C := riscv64) bss_area vpn = Zeroes /\
    backing (C := riscv64) (push_back_unchecked bss_area next_area) vpn <> Zeroes.
Proof.
  destruct bss_areas_ok as [Ha Hb]. split; [done|].
  destruct (push_back_backing (C := riscv64) bss_area next_area Ha Hb eq_refl) as [_ H].
  destruct H as (vpn & _ & H1 & H2); [done|done|done|by exists 1|by vm_compute|].
  exists vpn. exact (conj H1 H2).
Defined.
