(* ===== verification/PageFault.v ===== *)
(** Areas against memory (os/src/mm/vm/uvm.rs, second half; os/src/fs/page):
    mapping and unmapping an area's frames, copy-on-write cloning, and the page
    fault handlers.

    The machine is physical memory, the frame allocator, the heap of
    reference-counted frames, and the page caches of inodes and shared-memory
    objects.  Operations are in a state-and-panic monad over it.  What a file
    system stores (an inode's size and data) is a parameter.  TLB flushes have
    no counterpart: the model has no TLB. *)

From S2P Require Import Prelude HalConst Addr Pte FrameAlloc PageTable StrongArc Vma.

#[local] Open Scope Z_scope.

(** ** The machine and its monad *)

Record Machine (A : Type) := mkMachine {
  mc_mem : pmem;
  mc_fa : A;
  mc_arcs : arc_heap Range;
  mc_file_pages : gmap (Z * Z) Z;
  mc_shm_pages : gmap (Z * Z) Z;
  mc_dirty : gset Z;
}.
Arguments mkMachine {A} _ _ _ _ _ _.
Arguments mc_mem {A} _.
Arguments mc_fa {A} _.
Arguments mc_arcs {A} _.
Arguments mc_file_pages {A} _.
Arguments mc_shm_pages {A} _.
Arguments mc_dirty {A} _.

Definition VM (A X : Type) : Type := Machine A -> outcome (X * Machine A).

#[export] Instance VM_ret {A} : MRet (VM A) := fun X x σ => Ret (x, σ).
#[export] Instance VM_bind {A} : MBind (VM A) :=
  fun X Y k m σ => obind (m σ) (fun r => k r.1 r.2).

Section Primitives.
Context {A : Type}.
Implicit Types σ : Machine A.

Definition vm_panic {X} : VM A X := fun _ => Panic.
Definition vm_lift {X} (o : outcome X) : VM A X := fun σ => obind o (fun x => Ret (x, σ)).
Definition vm_assert (b : bool) : VM A unit := if b then mret tt else vm_panic.
Definition vm_mem : VM A pmem := fun σ => Ret (mc_mem σ, σ).

Definition with_mem σ (m : pmem) : Machine A :=
  mkMachine m (mc_fa σ) (mc_arcs σ) (mc_file_pages σ) (mc_shm_pages σ) (mc_dirty σ).
Definition with_fa σ (a : A) : Machine A :=
  mkMachine (mc_mem σ) a (mc_arcs σ) (mc_file_pages σ) (mc_shm_pages σ) (mc_dirty σ).
Definition with_arcs σ (h : arc_heap Range) : Machine A :=
  mkMachine (mc_mem σ) (mc_fa σ) h (mc_file_pages σ) (mc_shm_pages σ) (mc_dirty σ).
Definition with_file_pages σ (c : gmap (Z * Z) Z) : Machine A :=
  mkMachine (mc_mem σ) (mc_fa σ) (mc_arcs σ) c (mc_shm_pages σ) (mc_dirty σ).
Definition with_shm_pages σ (c : gmap (Z * Z) Z) : Machine A :=
  mkMachine (mc_mem σ) (mc_fa σ) (mc_arcs σ) (mc_file_pages σ) c (mc_dirty σ).
Definition with_dirty σ (d : gset Z) : Machine A :=
  mkMachine (mc_mem σ) (mc_fa σ) (mc_arcs σ) (mc_file_pages σ) (mc_shm_pages σ) d.

Definition vm_set_mem (f : pmem -> pmem) : VM A unit :=
  fun σ => Ret (tt, with_mem σ (f (mc_mem σ))).

(** [for x in xs], threading a value. *)
Fixpoint vm_fold {X Y} (f : Y -> X -> VM A Y) (y : Y) (xs : list X) : VM A Y :=
  match xs with
  | [] => mret y
  | x :: xs => y ← f y x; vm_fold f y xs
  end.

End Primitives.

(** ** Frame contents *)

(** [dst.copy_from_slice(src)] on whole frames of [usize] words. *)
Definition mem_copy (m : pmem) (dst src : Range) : pmem :=
  fun p j => if (r_start dst <=? p) && (p <? r_end dst) then m (r_start src + (p - r_start dst)) j
             else m p j.

(** The first [len] bytes of a frame copied from another, the rest zeroed, as
    little-endian words. *)
Definition mem_copy_prefix (m : pmem) (dst src len : Z) : pmem :=
  fun p j =>
    if p =? dst then
      if 8 * (j + 1) <=? len then m src j
      else if len <=? 8 * j then 0
      else Z.land (m src j) (Z.ones (8 * (len - 8 * j)))
    else m p j.

(** A frame filled from bytes, the rest zeroed. *)
Definition word_at (src : list Z) (j : Z) : Z :=
  fold_right (fun k acc => Z.lor (nth (Z.to_nat (8 * j) + k) src 0) (Z.shiftl acc 8)) 0 (seq 0 8).

Definition mem_write_bytes (m : pmem) (dst : Z) (src : list Z) : pmem :=
  fun p j => if p =? dst then word_at src j else m p j.

(** ** What the file system stores *)

Class FileStore := {
  file_inode : Z -> option Z;
  inode_size : Z -> Z;
  inode_data : Z -> Z -> Z -> Z;
  shm_size : Z -> Z;
  (** the address of the static [ZERO_PAGE_ARC] *)
  zero_arc : Z;
}.

Section Operations.
Context {C : ConstantsHal} {P : PageTableEntryHal} {W : WalkHal} {V : PageLevelHal}.
Context {A : Type} {F : FrameAllocatorHal A} {G : GlobalAlloc} {FS : FileStore}.
(** [PageLevel::Small] of the architecture. *)
Context (Small : PageLevel).
#[local] Abbreviation vm := (VM A).

(** *** Frames and their counts *)

Definition vm_alloc (n : Z) : vm (option Range) := fun σ =>
  match alloc_tracker (mc_fa σ) n with
  | Some (r, a) => Ret (Some r, with_fa σ a)
  | None => Ret (None, σ)
  end.

Definition vm_unwrap {X} (o : option X) : vm X := vm_lift (unwrap o).

Definition vm_drop_tracker (r : Range) : vm unit := fun σ =>
  let! a := FrameTracker_drop (mc_fa σ) r in Ret (tt, with_fa σ a).

Definition vm_arc_new (r : Range) : vm Z := fun σ =>
  let '(p, h) := arc_new (mc_arcs σ) r in Ret (p, with_arcs σ h).

Definition vm_arc_clone (p : Z) : vm Z := fun σ =>
  let! h := arc_clone (mc_arcs σ) p in Ret (p, with_arcs σ h).

Definition vm_owners (p : Z) : vm Z := fun σ =>
  let! n := arc_get_owners (mc_arcs σ) p in Ret (n, σ).

Definition vm_frame (p : Z) : vm Range := fun σ =>
  let! r := arc_deref (mc_arcs σ) p in Ret (r, σ).

Definition vm_drop_trackers (rs : list Range) : vm unit :=
  vm_fold (fun _ r => vm_drop_tracker r) tt rs.

Definition vm_arc_drop (p : Z) : vm unit := fun σ =>
  let! r := arc_drop (mc_arcs σ) p in
  let '(h, d) := r in vm_drop_trackers d (with_arcs σ h).

Definition vm_arc_emplace (p : Z) (val : Range) : vm Z := fun σ =>
  let! r := arc_emplace (mc_arcs σ) p val in
  let '(p', h, d) := r in
  let! r := vm_drop_trackers d (with_arcs σ h) in
  Ret (p', r.2).

(** [BTreeMap::insert] drops the value it replaces. *)
Definition frames_insert (fs : gmap Z Z) (vpn p : Z) : vm (gmap Z Z) :=
  _ ← match fs !! vpn with Some old => vm_arc_drop old | None => mret tt end;
  mret (<[vpn := p]> fs).

(** Dropping an area drops its frames. *)
Definition area_drop (a : UserVmArea) : vm unit :=
  vm_fold (fun _ e => vm_arc_drop e.2) tt (bt_iter (frames a)).

(** [copy_from_slice] panics on different lengths. *)
Definition vm_copy_frames (dst src : Range) : vm unit :=
  _ ← vm_assert (range_count dst =? range_count src);
  vm_set_mem (fun m => mem_copy m dst src).

(** *** Page-table access *)

Definition vm_find_pte (pt : PageTable) (vpn : Z) : vm (option (Z * Z)) :=
  m ← vm_mem;
  r ← vm_lift (find_pte m pt vpn);
  match r with
  | Some (t, i, level) => _ ← vm_lift (PageLevel_from level); mret (Some (t, i))
  | None => mret None
  end.

Definition vm_pte (e : Z * Z) : vm Z := m ← vm_mem; mret (m e.1 e.2).

Definition vm_upd_pte (e : Z * Z) (f : Z -> outcome Z) : vm unit :=
  pte ← vm_pte e;
  pte ← vm_lift (f pte);
  vm_set_mem (fun m => mem_set m e.1 e.2 pte).

Definition set_dirty_pte (b : bool) (pte : Z) : outcome Z := Ret (pte_set_dirty pte b).

(** [pte.set_writable(b); pte.set_dirty(b)] *)
Definition set_write_dirty (e : Z * Z) (b : bool) : vm unit :=
  _ ← vm_upd_pte e (fun pte => pte_set_writable pte b);
  vm_upd_pte e (set_dirty_pte b).

(** [page_table.map(..).expect(..)] *)
Definition vm_map (pt : PageTable) (vpn ppn perm : Z) : vm ((Z * Z) * PageTable) := fun σ =>
  let! r := pt_map (mc_mem σ) (mc_fa σ) pt vpn ppn perm Small in
  let '(res, (m, a, pt)) := r in
  match res with
  | Ok e => Ret (e, pt, with_fa (with_mem σ m) a)
  | Err _ => Panic
  end.

Definition vm_unmap (pt : PageTable) (vpn : Z) : vm unit := fun σ =>
  let! r := pt_unmap (mc_mem σ) pt vpn in Ret (tt, with_mem σ r.2).

(** *** Page caches (os/src/fs/page) *)

(** [Page::new]: a zeroed frame with one handle; the page is named by it. *)
Definition Page_new : vm Z :=
  fr ← vm_alloc 1;
  fr ← vm_unwrap fr;
  _ ← vm_set_mem (fun m => mem_zero m fr);
  vm_arc_new fr.

Definition Page_ppn (page : Z) : vm Z := r ← vm_frame page; mret (r_start r).
Definition Page_frame (page : Z) : vm Z := vm_arc_clone page.
Definition Page_set_dirty (page : Z) : vm unit := fun σ =>
  Ret (tt, with_dirty σ ({[page]} ∪ mc_dirty σ)).

(** [PageCache::insert_page] *)
Definition insert_file_page (inode offset page : Z) : vm unit := fun σ =>
  Ret (tt, with_file_pages σ (<[(inode, offset) := page]> (mc_file_pages σ))).
Definition insert_shm_page (shm offset page : Z) : vm unit := fun σ =>
  Ret (tt, with_shm_pages σ (<[(shm, offset) := page]> (mc_shm_pages σ))).

(** The inode's [read_page_at]: a cached page, or one read in. *)
Definition read_page_at (inode offset : Z) : vm (option Z) := fun σ =>
  if inode_size inode <=? offset then Ret (None, σ)
  else
    assert! offset mod PAGE_SIZE =? 0 in
    match mc_file_pages σ !! (inode, offset) with
    | Some page => Ret (Some page, σ)
    | None =>
        (page ← Page_new;
         ppn ← Page_ppn page;
         _ ← vm_set_mem (fun m p j => if p =? ppn then inode_data inode offset j else m p j);
         _ ← insert_file_page inode offset page;
         mret (Some page)) σ
    end.

Definition shm_read_page_at (shm offset : Z) : vm (option Z) := fun σ =>
  if negb (offset mod PAGE_SIZE =? 0) || (shm_size shm <=? offset) then Ret (None, σ)
  else
    match mc_shm_pages σ !! (shm, offset) with
    | Some page => Ret (Some page, σ)
    | None =>
        (page ← Page_new;
         fr ← vm_frame page;
         _ ← vm_set_mem (fun m => mem_zero m fr);
         _ ← insert_shm_page shm offset page;
         mret (Some page)) σ
    end.

(** *** Areas and the page table *)

Definition shared (a : UserVmArea) : bool := contains (map_flags a) SHARED.

(** One step of the loop of [UserVmArea::map]. *)
Definition area_map_one (a : UserVmArea) (pt : PageTable) (e : Z * Z) : vm PageTable :=
  fr ← vm_frame e.2;
  r ← vm_map pt e.1 (r_start fr) (map_perm a);
  n ← vm_owners e.2;
  _ ← (if (1 <? n) && negb (shared a) then set_write_dirty r.1 false else mret tt);
  mret r.2.

Definition area_map (a : UserVmArea) (pt : PageTable) : vm PageTable :=
  vm_fold (area_map_one a) pt (bt_iter (frames a)).

Definition area_unmap (a : UserVmArea) (pt : PageTable) : vm unit :=
  vm_fold (fun _ e => vm_unmap pt e.1) tt (bt_iter (frames a)).

(** The loop of [clone_cow] over the mapped pages. *)
Definition cow_protect_one (pt : PageTable) (e : Z * Z) : vm unit :=
  r ← vm_find_pte pt e.1;
  r ← vm_unwrap r;
  set_write_dirty r false.

Definition clone_cow (a : UserVmArea) (pt : PageTable) : vm UserVmArea :=
  _ ← (if negb (shared a) && contains (map_perm a) MapPerm_W
       then vm_fold (fun _ e => cow_protect_one pt e) tt (bt_iter (frames a)) else mret tt);
  _ ← vm_fold (fun _ e => _ ← vm_arc_clone e.2; mret tt) tt (bt_iter (frames a));
  mret a.

(** [Clone for UserVmArea]: private frames are copied, shared ones shared. *)
Definition clone_one (fs : gmap Z Z) (e : Z * Z) : vm (gmap Z Z) :=
  fr ← vm_frame e.2;
  new ← vm_alloc (range_count fr);
  new ← vm_unwrap new;
  _ ← vm_copy_frames new fr;
  p ← vm_arc_new new;
  mret (<[e.1 := p]> fs).

Definition area_clone (a : UserVmArea) : vm UserVmArea :=
  if negb (shared a) then
    fs ← vm_fold clone_one ∅ (bt_iter (frames a));
    mret (with_frames a fs)
  else
    _ ← vm_fold (fun _ e => _ ← vm_arc_clone e.2; mret tt) tt (bt_iter (frames a));
    mret a.

(** [for vpn in range] *)
Definition vpns (r : Range) : list Z := seqZ (r_start r) (r_end r - r_start r).

Definition alloc_frames (a : UserVmArea) : vm UserVmArea :=
  fs ← vm_fold (fun fs vpn =>
    fr ← vm_alloc 1;
    fr ← vm_unwrap fr;
    p ← vm_arc_new fr;
    frames_insert fs vpn p) (frames a) (vpns (range_vpn a));
  mret (with_frames a fs).

(** [data.chunks(PAGE_SIZE)]; the fuel is the length of the data. *)
Fixpoint chunks (fuel : nat) (n : nat) (data : list Z) : list (list Z) :=
  match fuel with
  | O => []
  | S fuel => match data with [] => [] | _ :: _ => take n data :: chunks fuel n (drop n data) end
  end.

Definition copy_data_one (pt : PageTable) (fs : gmap Z Z) (e : Z * list Z) : vm (gmap Z Z) :=
  m ← vm_mem;
  tr ← vm_lift (pt_translate_vpn m pt e.1);
  r ← match tr with
      | Some ppn => mret (ppn, fs)
      | None =>
          fr ← vm_alloc 1;
          fr ← vm_unwrap fr;
          p ← vm_arc_new fr;
          fs ← frames_insert fs e.1 p;
          mret (r_start fr, fs)
      end;
  _ ← vm_set_mem (fun m => mem_write_bytes m r.1 e.2);
  mret r.2.

Definition copy_data (a : UserVmArea) (pt : PageTable) (data : list Z) (pg_offset : Z) :
    vm UserVmArea :=
  let range := mkRange (VirtPageNum_add (r_start (range_vpn a)) pg_offset) (r_end (range_vpn a)) in
  fs ← vm_fold (copy_data_one pt) (frames a)
         (zip (vpns range) (chunks (length data) (Z.to_nat PAGE_SIZE) data));
  mret (with_frames a fs).

(** *** Page faults *)

(** What a handler leaves behind: its verdict, the page table, the frames. *)
Definition fault_result : Type := result unit unit * (PageTable * gmap Z Z).

(** [FrameAllocator.alloc_tracker(1).ok_or(())?] *)
Definition vm_try_alloc (pt : PageTable) (fs : gmap Z Z) (k : Range -> vm fault_result) :
    vm fault_result :=
  fr ← vm_alloc 1;
  match fr with
  | Some fr => k fr
  | None => mret (Err tt, (pt, fs))
  end.

(** The shared tails of the handlers.  A new frame is mapped and recorded with a
    handle of its own. *)
Definition install_frame (pt : PageTable) (vpn : Z) (fr : Range) (perm : Z) (dirty : bool)
    (fs : gmap Z Z) : vm fault_result :=
  r ← vm_map pt vpn (r_start fr) perm;
  _ ← (if dirty then vm_upd_pte r.1 (set_dirty_pte true) else mret tt);
  p ← vm_arc_new fr;
  fs ← frames_insert fs vpn p;
  mret (Ok tt, (r.2, fs)).

(** The frame of an existing page is mapped and recorded with a cloned handle. *)
Definition install_page (pt : PageTable) (vpn page perm : Z) (dirty : bool) (fs : gmap Z Z) :
    vm fault_result :=
  ppn ← Page_ppn page;
  r ← vm_map pt vpn ppn perm;
  _ ← (if dirty then _ ← vm_upd_pte r.1 (set_dirty_pte true); Page_set_dirty page else mret tt);
  p ← Page_frame page;
  fs ← frames_insert fs vpn p;
  mret (Ok tt, (r.2, fs)).

Definition map_zero_page (pt : PageTable) (vpn access perm : Z) (fs : gmap Z Z) : vm fault_result :=
  if contains access WRITE then
    vm_try_alloc pt fs (fun fr =>
      _ ← vm_set_mem (fun m => mem_zero m fr);
      install_frame pt vpn fr perm true fs)
  else install_page pt vpn zero_arc (bf_remove perm MapPerm_W) false fs.

(** A private frame holding the first [len] bytes of the page; the frame goes
    back when the page cannot be read. *)
Definition map_private_copy (pt : PageTable) (vpn inode offset len perm : Z) (dirty : bool)
    (fs : gmap Z Z) : vm fault_result :=
  vm_try_alloc pt fs (fun fr =>
    page ← read_page_at inode offset;
    match page with
    | None => _ ← vm_drop_tracker fr; mret (Err tt, (pt, fs))
    | Some page =>
        ppn ← Page_ppn page;
        _ ← vm_set_mem (fun m => mem_copy_prefix m (r_start fr) ppn len);
        install_frame pt vpn fr perm dirty fs
    end).

Definition map_private_file (pt : PageTable) (vpn access file offset len perm : Z)
    (fs : gmap Z Z) : vm fault_result :=
  inode ← vm_unwrap (file_inode file);
  if len <? PAGE_SIZE then
    map_private_copy pt vpn inode offset len perm (contains access WRITE) fs
  else if contains access WRITE then
    map_private_copy pt vpn inode offset PAGE_SIZE perm true fs
  else
    page ← read_page_at inode offset;
    match page with
    | None => mret (Err tt, (pt, fs))
    | Some page => install_page pt vpn page (bf_remove perm MapPerm_W) false fs
    end.

(** Mapping a cached page itself, for both kinds of shared memory. *)
Definition map_shared_page (pt : PageTable) (vpn access perm : Z) (fs : gmap Z Z)
    (page : option Z) : vm fault_result :=
  match page with
  | None => mret (Err tt, (pt, fs))
  | Some page => install_page pt vpn page perm (contains access WRITE) fs
  end.

Definition map_shared_file (pt : PageTable) (vpn access file offset perm : Z) (fs : gmap Z Z) :
    vm fault_result :=
  match file_inode file with
  | None => mret (Err tt, (pt, fs))
  | Some inode => page ← read_page_at inode offset; map_shared_page pt vpn access perm fs page
  end.

Definition map_shared_memory (pt : PageTable) (vpn access shm offset perm : Z) (fs : gmap Z Z) :
    vm fault_result :=
  page ← shm_read_page_at shm offset; map_shared_page pt vpn access perm fs page.

(** The offset of a page in the area, as the handlers compute it. *)
Definition fault_shift (a : UserVmArea) (vpn : Z) : Z :=
  wmul (wsub vpn (VirtAddr_floor (r_start (range_va a)))) PAGE_SIZE.

Definition UserDataHandler (a : UserVmArea) (pt : PageTable) (vpn access : Z) : vm fault_result :=
  match a_file a with
  | FileFile file =>
      _ ← vm_assert (a_offset a mod PAGE_SIZE =? 0);
      let area_offset := fault_shift a vpn in
      if area_offset <? a_len a then
        let offset := wadd (a_offset a) area_offset in
        let len := Z.min PAGE_SIZE (wsub (a_len a) area_offset) in
        map_private_file pt vpn access file offset len (map_perm a) (frames a)
      else map_zero_page pt vpn access (map_perm a) (frames a)
  | _ => map_zero_page pt vpn access (map_perm a) (frames a)
  end.

Definition UserStackHandler (a : UserVmArea) (pt : PageTable) (vpn access : Z) : vm fault_result :=
  map_zero_page pt vpn access (map_perm a) (frames a).

Definition UserHeapHandler (a : UserVmArea) (pt : PageTable) (vpn access : Z) : vm fault_result :=
  map_zero_page pt vpn access (map_perm a) (frames a).

Definition UserMmapHandler (a : UserVmArea) (pt : PageTable) (vpn access : Z) : vm fault_result :=
  match a_file a with
  | FileFile file =>
      let offset := wadd (a_offset a) (fault_shift a vpn) in
      _ ← vm_assert (offset mod PAGE_SIZE =? 0);
      if shared a then map_shared_file pt vpn access file offset (map_perm a) (frames a)
      else map_private_file pt vpn access file offset PAGE_SIZE (map_perm a) (frames a)
  | FileShm shm =>
      let offset := wadd (a_offset a) (fault_shift a vpn) in
      _ ← vm_assert (offset mod PAGE_SIZE =? 0);
      map_shared_memory pt vpn access shm offset (map_perm a) (frames a)
  | FileNone => map_zero_page pt vpn access (map_perm a) (frames a)
  end.

Definition lazy_fault (a : UserVmArea) (pt : PageTable) (vpn access : Z) : vm fault_result :=
  match vma_type a with
  | UserData => UserDataHandler a pt vpn access
  | UserStack => UserStackHandler a pt vpn access
  | UserHeap => UserHeapHandler a pt vpn access
  | UserMmap => UserMmapHandler a pt vpn access
  end.

(** A write to a page mapped read-only for copy-on-write. *)
Definition cow_fault (a : UserVmArea) (pt : PageTable) (vpn : Z) (e : Z * Z) : vm fault_result :=
  old ← vm_unwrap (frames a !! vpn);
  n ← vm_owners old;
  p ← (if 1 <? n then
         new ← vm_alloc 1;
         new ← vm_unwrap new;
         fr ← vm_frame old;
         _ ← vm_copy_frames new fr;
         _ ← vm_upd_pte e (fun pte => Ret (pte_set_ppn pte (r_start new)));
         vm_arc_emplace old new
       else mret old);
  _ ← set_write_dirty e true;
  mret (Ok tt, (pt, <[vpn := p]> (frames a))).

(** The guard [Some((pte, _)) if pte.is_valid()]. *)
Definition valid_pte (r : option (Z * Z)) : vm (option (Z * Z)) :=
  match r with
  | Some e =>
      pte ← vm_pte e;
      v ← vm_lift (pte_is_valid pte);
      mret (if v : bool then Some e else None)
  | None => mret None
  end.

Definition handle_page_fault (a : UserVmArea) (pt : PageTable) (vpn access : Z) : vm fault_result :=
  if negb (can_access access (map_perm a)) then mret (Err tt, (pt, frames a))
  else
    r ← vm_find_pte pt vpn;
    v ← valid_pte r;
    match v with
    | Some e =>
        if negb (contains access WRITE) then mret (Err tt, (pt, frames a))
        else
          pte ← vm_pte e;
          w ← vm_lift (pte_is_writable pte);
          if w : bool then mret (Ok tt, (pt, frames a))
          else if shared a then
            _ ← set_write_dirty e true; mret (Ok tt, (pt, frames a))
          else cow_fault a pt vpn e
    | None => lazy_fault a pt vpn access
    end.

End Operations.
