(* ===== verification/FaultProofs.v ===== *)
(** Page faults: what each path of the handler does to the machine.  The
    invariant [mc_ok] ties one page table to memory, the allocator and the heap
    of counted frames; [keeps] says that nothing in use is written except the
    tables.  The claims are at the end. *)

From S2P Require Import Prelude HalConst Addr Pte FrameAlloc PageTable StrongArc Vma PageFault.

#[local] Open Scope Z_scope.

(** User pages are in the lower half; the upper one may hold superpages. *)
#[local] Existing Instance user_region.

Section Machine.
Context {C : ConstantsHal} {CL : ConstantsLaws C} {P : PageTableEntryHal} {L : PteLaws C P}.
Context {W : WalkHal} {V : PageLevelHal} {WL : WalkLaws C P L W V}.
Context {A : Type} {F : FrameAllocatorHal A} {FL : FrameAllocatorLaws C A}.
Context {G : GlobalAlloc} {GL : GlobalAllocLaws G} {FS : FileStore}.
Context (Small : PageLevel) (Small_low : lowest Small = true).
Implicit Types σ : Machine A.

Lemma perm_remove p f : is_perm p -> 0 <= f -> is_perm (bf_remove p f).
Proof.
  unfold is_perm, bf_remove. intros Hp Hf. assert (0 <= Z.ldiff p f) by (apply Z.ldiff_nonneg; lia).
  split; [done|]. change 16 with (2 ^ 4). apply below_pow2_of_testbit; [lia|done|].
  intros i Hi. rewrite Z.ldiff_spec, (testbit_above p 4) by (done || lia). done.
Qed.

Lemma perm_insert p f : is_perm p -> is_perm f -> is_perm (bf_insert p f).
Proof.
  unfold is_perm, bf_insert. intros Hp Hf. assert (0 <= Z.lor p f) by (apply Z.lor_nonneg; lia).
  split; [done|]. change 16 with (2 ^ 4). apply below_pow2_of_testbit; [lia|done|].
  intros i Hi. by rewrite Z.lor_spec, !(testbit_above _ 4) by (done || lia).
Qed.

Definition one (f : Z) : Range := mkRange f (f + 1).
Definition free σ : gset Z := fa_free (mc_fa σ).
Definition tables σ (pt : PageTable) (u : Z) : Prop := table_of (mc_mem σ) (root_ppn pt) u.
Definition page_of σ (pt : PageTable) (vpn : Z) : option Z := pt_lookup (mc_mem σ) pt vpn.

(** A frame held by nobody yet: neither free, nor a table, nor counted. *)
Record unowned σ (pt : PageTable) (f : Z) : Prop := {
  uo_ppn : is_ppn C f;
  uo_free : f ∉ free σ;
  uo_table : ~ tables σ pt f;
  uo_arcs p x : mc_arcs σ !! p = Some x -> sp_data x <> one f;
}.

Record mc_ok σ (pt : PageTable) : Prop := {
  mo_pt : pt_inv (mc_mem σ) (mc_fa σ) (root_ppn pt);
  mo_arc p x : mc_arcs σ !! p = Some x -> exists f, sp_data x = one f /\ is_ppn C f /\
    (f ∉ free σ) /\ ~ tables σ pt f /\ 1 <= sp_rc x <= usize_max;
  mo_inj p p' x x' : mc_arcs σ !! p = Some x -> mc_arcs σ !! p' = Some x' ->
    sp_data x = sp_data x' -> p = p';
  mo_zero : exists f n, mc_arcs σ !! zero_arc = Some (mkPayload (one f) n) /\
    forall j, mc_mem σ f j = 0;
  mo_file k p : mc_file_pages σ !! k = Some p -> is_Some (mc_arcs σ !! p);
  mo_shm k p : mc_shm_pages σ !! k = Some p -> is_Some (mc_arcs σ !! p);
}.

(** The tables only [pt] uses: the root and those below its user half.  The
    kernel's tables hang below the upper half of every root. *)
Definition own_path (q : list Z) : Prop := match q with [] => True | i :: _ => region i end.
Definition own σ (pt : PageTable) (u : Z) : Prop :=
  exists q, node q /\ own_path q /\ walk (mc_mem σ) (root_ppn pt) q = Some u.

Lemma own_walk σ m' pt :
  (forall q, node q -> walk m' (root_ppn pt) q = walk (mc_mem σ) (root_ppn pt) q) ->
  forall u, own (with_mem σ m') pt u <-> own σ pt u.
Proof.
  intros Hw u. split; intros (q & Hq & Ho & E); exists q; (split; [done|]; split; [done|]).
  - by rewrite <- Hw.
  - cbn [mc_mem with_mem]. by rewrite Hw.
Qed.

Lemma own_table σ pt u : own σ pt u -> tables σ pt u.
Proof. intros (q & Hq & _ & E). by exists q. Qed.

(** Nothing in use is written, except the own tables of [pt]; nothing is freed,
    and the tables stay where they are. *)
Record keeps σ σ' (pt pt' : PageTable) : Prop := {
  k_root : root_ppn pt' = root_ppn pt;
  k_mem u k : u ∉ free σ -> ~ own σ pt u -> mc_mem σ' u k = mc_mem σ u k;
  k_free : free σ' ⊆ free σ;
  k_tables u : tables σ' pt' u -> tables σ pt u \/ u ∈ free σ /\ u ∉ free σ';
  k_own u : own σ' pt' u -> own σ pt u \/ u ∈ free σ /\ u ∉ free σ';
  k_walk q t : node q -> walk (mc_mem σ) (root_ppn pt) q = Some t -> walk (mc_mem σ') (root_ppn pt) q = Some t;
}.

Lemma keeps_refl σ pt : keeps σ σ pt pt.
Proof. constructor; auto. Qed.

Lemma keeps_trans σ1 σ2 σ3 pt1 pt2 pt3 :
  keeps σ1 σ2 pt1 pt2 -> keeps σ2 σ3 pt2 pt3 -> keeps σ1 σ3 pt1 pt3.
Proof.
  intros [R1 M1 F1 T1 O1 W1] [R2 M2 F2 T2 O2 W2]. constructor; [congruence| | | | |].
  - intros u k Hu Ht. rewrite M2, M1; auto.
    intros Ht2. destruct (O1 u Ht2) as [|[? _]]; auto.
  - set_solver.
  - intros u Ht. destruct (T2 u Ht) as [Ht2|[H1 H2]].
    + destruct (T1 u Ht2) as [|[H1 H2]]; [by left|right]. set_solver.
    + right. set_solver.
  - intros u Ht. destruct (O2 u Ht) as [Ht2|[H1 H2]].
    + destruct (O1 u Ht2) as [|[H1 H2]]; [by left|right]. set_solver.
    + right. set_solver.
  - intros q t Hq E. rewrite R1 in W2. auto.
Qed.

(** The contents of a counted frame survive. *)
Lemma keeps_arc σ σ' pt pt' p x k :
  mc_ok σ pt -> keeps σ σ' pt pt' -> mc_arcs σ !! p = Some x ->
  mc_mem σ' (r_start (sp_data x)) k = mc_mem σ (r_start (sp_data x)) k.
Proof.
  intros Hok Hk Hp. destruct (mo_arc σ pt Hok p x Hp) as (f & E & _ & Hf & Ht & _).
  rewrite E. apply (k_mem _ _ _ _ Hk); [done|]. by intros ?%own_table.
Qed.

Lemma keeps_unowned σ σ' pt pt' f k :
  keeps σ σ' pt pt' -> unowned σ pt f -> mc_mem σ' f k = mc_mem σ f k.
Proof.
  intros Hk [_ Hf Ht _]. apply (k_mem _ _ _ _ Hk); [done|]. by intros ?%own_table.
Qed.

(** *** Allocating and filling a frame *)

Lemma pt_shrink m a a' root :
  pt_inv m a root -> fa_wf a' -> fa_free a' ⊆ fa_free a -> pt_inv m a' root.
Proof.
  intros Hinv Hw Hsub. apply (pt_frame m m a a' root Hinv Hw); [|done].
  intros u (q & Hq & E). pose proof (pti_table m a root Hinv q u Hq E). set_solver.
Qed.

Lemma vm_alloc_ok σ pt :
  mc_ok σ pt -> free σ <> ∅ ->
  exists f a, vm_alloc 1 σ = Ret (Some (one f), with_fa σ a) /\ mc_ok (with_fa σ a) pt /\
    unowned (with_fa σ a) pt f /\ f ∈ free σ /\ fa_free a = free σ ∖ {[f]} /\
    keeps σ (with_fa σ a) pt pt.
Proof.
  intros Hok Hne. pose proof (mo_pt σ pt Hok) as Hinv.
  destruct (alloc_tracker_one (mc_fa σ)) as (f & a & E & Hf & Hw & Hfr & Hmg); [apply Hinv|done|].
  exists f, a. unfold vm_alloc. rewrite E. split; [done|].
  assert (Hsub : fa_free a ⊆ free σ) by (rewrite Hfr; set_solver).
  assert (Hppn : is_ppn C f).
  { pose proof (fa_managed_ppn (mc_fa σ) f (pti_alloc _ _ _ Hinv)) as Hp. unfold is_ppn.
    specialize (Hp (fa_free_managed _ (pti_alloc _ _ _ Hinv) _ Hf)). lia. }
  assert (Ht : ~ tables σ pt f).
  { intros (q & Hq & Ew). by apply (pti_table _ _ _ Hinv q f). }
  split; [|split; [|split; [done|split; [done|]]]].
  - destruct Hok as [_ Ha Hi Hz Hc Hs]. constructor; try done.
    + by apply (pt_shrink _ (mc_fa σ)).
    + intros p x Hp. destruct (Ha p x Hp) as (g & ? & ? & Hg & ? & ?). exists g.
      split; [done|]. split; [done|]. split; [|done].
      unfold free, with_fa. cbn [mc_fa]. set_solver.
  - constructor; try done.
    + unfold free, with_fa. cbn [mc_fa]. rewrite Hfr. set_solver.
    + intros p x Hp E'. destruct (mo_arc σ pt Hok p x Hp) as (g & Eg & _ & Hg & _).
      rewrite Eg in E'. injection E' as ->. done.
  - constructor; try done; auto.
Qed.

(** The entry [(t, last_index vpn)] is where the page's entry is stored. *)
Definition entry_at σ (pt : PageTable) (vpn t : Z) : Prop :=
  walk (mc_mem σ) (root_ppn pt) (dir_path vpn) = Some t.

Lemma dir_node vpn : reg_vpn vpn -> node (dir_path vpn).
Proof. intros Hv. destruct (indexes_split vpn Hv). unfold node. lia. Qed.

(** Writing a frame nobody holds. *)
Lemma write_unowned σ pt f m' :
  mc_ok σ pt -> unowned σ pt f -> (forall u k, u <> f -> m' u k = mc_mem σ u k) ->
  mc_ok (with_mem σ m') pt /\ unowned (with_mem σ m') pt f /\
  (forall u, tables (with_mem σ m') pt u <-> tables σ pt u) /\
  (forall q, node q -> walk m' (root_ppn pt) q = walk (mc_mem σ) (root_ppn pt) q) /\
  (forall v, reg_vpn v -> page_of (with_mem σ m') pt v = page_of σ pt v) /\
  (forall v t, reg_vpn v -> entry_at σ pt v t -> entry_at (with_mem σ m') pt v t).
Proof.
  intros Hok [Up Uf Ut Ua] Hm.
  assert (Hfix : forall u k, tables σ pt u -> m' u k = mc_mem σ u k)
    by (intros u k Hu; apply Hm; by intros ->).
  pose proof (mo_pt σ pt Hok) as Hinv.
  destruct (pt_frame (mc_mem σ) m' (mc_fa σ) (mc_fa σ) (root_ppn pt) Hinv) as [Hinv' Htab].
  { apply Hinv. }
  { intros u (q & Hq & E). by apply (pti_table _ _ _ Hinv q). }
  { done. }
  assert (Ht' : forall u, tables (with_mem σ m') pt u <-> tables σ pt u) by (intros; apply Htab).
  split; [|split; [|split; [done|split; [|split]]]].
  - destruct Hok as [_ Ha Hi Hz Hc Hs]. constructor; try done.
    + intros p x Hp. destruct (Ha p x Hp) as (g & ? & ? & ? & Hg & ?). exists g.
      split; [done|]. split; [done|]. split; [done|]. by rewrite Ht'.
    + destruct Hz as (g & n & Hg & Hz). exists g, n. split; [done|]. intros j.
      cbn [mc_mem with_mem]. rewrite Hm; [done|]. intros ->. by apply (Ua _ _ Hg).
  - constructor; try done. by rewrite Ht'.
  - by apply walk_frame.
  - intros v Hv. by apply lookup_frame.
  - intros v t Hv Ht. unfold entry_at in *. cbn [mc_mem with_mem].
    rewrite (walk_frame (mc_mem σ)); [done|done|by apply dir_node].
Qed.

(** Allocating a frame and giving it contents. *)
Lemma alloc_fill_ok σ pt :
  mc_ok σ pt -> free σ <> ∅ ->
  exists f a, vm_alloc 1 σ = Ret (Some (one f), with_fa σ a) /\ mc_ok (with_fa σ a) pt /\
    f ∈ free σ /\ fa_free a = free σ ∖ {[f]} /\ ~ tables σ pt f /\
    forall m', (forall u k, u <> f -> m' u k = mc_mem σ u k) ->
      let σ2 := with_mem (with_fa σ a) m' in
      mc_ok σ2 pt /\ unowned σ2 pt f /\ keeps σ σ2 pt pt /\
      (forall v, reg_vpn v -> page_of σ2 pt v = page_of σ pt v) /\
      (forall v t, reg_vpn v -> entry_at σ pt v t -> entry_at σ2 pt v t).
Proof.
  intros Hok Hne. destruct (vm_alloc_ok σ pt Hok Hne) as (f & a & E & Hok1 & Hu & Hf & Hfr & Hk).
  exists f, a. do 4 (split; [done|]). split; [apply Hu|]. intros m' Hm σ2.
  destruct (write_unowned (with_fa σ a) pt f m' Hok1 Hu Hm) as (Hok2 & Hu2 & Ht2 & Hw2 & Hl2 & He2).
  split; [done|]. split; [done|]. split; [|split; [exact Hl2|exact He2]]. constructor; try done.
  - intros u k Hu' Ht. apply Hm. by intros ->.
  - change (free σ2) with (fa_free a). set_solver.
  - intros u Ht. left. by apply (Ht2 u).
  - intros u Ht. left. by apply (own_walk (with_fa σ a) m' pt Hw2).
  - intros q t Hq Eq. cbn [σ2 mc_mem with_mem]. by rewrite Hw2.
Qed.

(** *** Mapping a page *)

Lemma prefix_node q vpn : reg_vpn vpn -> q `prefix_of` dir_path vpn -> node q.
Proof.
  intros Hv Hq. pose proof (dir_node vpn Hv) as Hn. apply prefix_length in Hq. unfold node in *. lia.
Qed.

Lemma prefix_own q vpn : reg_vpn vpn -> q `prefix_of` dir_path vpn -> own_path q.
Proof.
  intros Hv [r E]. pose proof (reg_path vpn Hv) as Hr. rewrite E in Hr. by destruct q.
Qed.

Lemma vm_map_ok σ pt vpn ppn perm :
  mc_ok σ pt -> reg_vpn vpn -> is_ppn C ppn -> is_perm perm ->
  walk (mc_mem σ) (root_ppn pt) (dir_path vpn) <> None \/ (PG_LEVEL - 1 <= size (free σ))%nat ->
  exists t m a pt', let σ' := with_fa (with_mem σ m) a in
    vm_map Small pt vpn ppn perm σ = Ret ((t, last_index vpn), pt', σ') /\
    (walk (mc_mem σ) (root_ppn pt) (dir_path vpn) <> None -> a = mc_fa σ) /\
    mc_ok σ' pt' /\ keeps σ σ' pt pt' /\ entry_at σ' pt' vpn t /\
    m t (last_index vpn) = leaf_entry ppn perm /\
    (forall v, reg_vpn v -> page_of σ' pt' v =
       if v =? vpn then Some (leaf_entry ppn perm) else page_of σ pt v) /\
    (forall f, unowned σ pt f -> unowned σ' pt' f) /\
    (size (free σ) <= size (free σ') + (PG_LEVEL - 1))%nat.
Proof.
  intros Hok Hv Hp Hperm Hsz. pose proof (mo_pt σ pt Hok) as Hinv.
  destruct (pt_map_spec (mc_mem σ) (mc_fa σ) pt vpn ppn perm Small Hinv Hv Hp Hperm Small_low Hsz)
    as (t & m & a & pt' & E & [Hr Hinv' Htr Hm Hmono [Hfr Hmg] Hs] & Heq & Hw & He & Hl).
  exists t, m, a, pt'. cbv zeta. unfold vm_map. rewrite E. cbn [obind].
  set (σ' := with_fa (with_mem σ m) a).
  assert (Htab : forall u, tables σ' pt' u -> tables σ pt u \/ u ∈ free σ /\ u ∉ free σ').
  { intros u (q & Hq & Ew). rewrite Hr in Ew. destruct (Htr q u Hq Ew) as [|(_ & ? & ?)]; [left|by right].
    by exists q. }
  assert (Hown : forall u, own σ' pt' u -> own σ pt u \/ u ∈ free σ /\ u ∉ free σ').
  { intros u (q & Hq & Ho & Ew). rewrite Hr in Ew.
    destruct (Htr q u Hq Ew) as [|(_ & ? & ?)]; [left|by right]. by exists q. }
  assert (Hmem : forall u k, u ∉ free σ -> ~ own σ pt u -> m u k = mc_mem σ u k).
  { intros u k Hu Ht. destruct (Hm u k) as [|[[? _]|(q & Hpre & Hn & Eq)]]; [done..|].
    destruct Ht. exists q. split; [done|]. split; [by apply (prefix_own q vpn)|done]. }
  assert (Hun : forall f, f ∉ free σ -> ~ tables σ pt f -> (f ∉ free σ') /\ ~ tables σ' pt' f).
  { intros f Hf Ht. split; [intros H; apply Hf; by apply Hfr|].
    intros H. destruct (Htab f H) as [|[? _]]; done. }
  split; [done|]. split; [exact Heq|]. split; [|split; [|split; [|split; [|split; [|split]]]]]; try done.
  - destruct Hok as [_ Ha Hi (z & n & Hz & Hz0) Hc Hsh]. constructor; try done.
    + intros p x Hx. destruct (Ha p x Hx) as (f & ? & ? & Hf & Ht & ?). exists f.
      destruct (Hun f Hf Ht). done.
    + exists z, n. split; [done|]. intros j. destruct (Ha _ _ Hz) as (f & Ef & _ & Hf & Ht & _).
      injection Ef as <-. change (m z j = 0). rewrite Hmem; [done|done|]. by intros ?%own_table.
  - unfold entry_at. by rewrite Hr.
  - intros f [Up Uf Ut Ua]. destruct (Hun f Uf Ut). by constructor.
Qed.

(** *** Updating a mapped entry *)

Lemma vm_upd_pte_ok σ pt vpn t g e' :
  mc_ok σ pt -> reg_vpn vpn -> entry_at σ pt vpn t ->
  g (mc_mem σ t (last_index vpn)) = Ret e' -> pte_wf e' -> v_valid (pte_view_of e') = true ->
  let σ' := with_mem σ (mem_set (mc_mem σ) t (last_index vpn) e') in
  vm_upd_pte (t, last_index vpn) g σ = Ret (tt, σ') /\
  mc_ok σ' pt /\ keeps σ σ' pt pt /\ entry_at σ' pt vpn t /\
  (forall v, reg_vpn v -> page_of σ' pt v = if v =? vpn then Some e' else page_of σ pt v) /\
  (forall f, unowned σ pt f -> unowned σ' pt f).
Proof.
  intros Hok Hv Ht Eg Hwf Hval σ'. pose proof (mo_pt σ pt Hok) as Hinv.
  destruct (pt_store_spec _ _ pt vpn t e' Hinv Hv Ht Hwf Hval) as (Hinv' & Hwk & Hl).
  assert (Htab : forall u, tables σ' pt u <-> tables σ pt u).
  { intros u. split; intros (q & Hq & E); exists q; (split; [done|]); [by rewrite <- Hwk|].
    change (walk (mem_set (mc_mem σ) t (last_index vpn) e') (root_ppn pt) q = Some u). by rewrite Hwk. }
  assert (Hmem : forall u k, ~ own σ pt u -> mc_mem σ' u k = mc_mem σ u k).
  { intros u k Hu. apply mem_set_other. intros [= -> _]. apply Hu. exists (dir_path vpn).
    split; [by apply dir_node|]. split; [by apply (prefix_own _ vpn)|done]. }
  split; [|split; [|split; [|split; [|split]]]].
  - unfold vm_upd_pte, vm_pte, vm_mem, vm_lift, mbind, VM_bind. cbn [obind fst snd mret VM_ret].
    unfold mret, VM_ret. cbn [obind fst snd]. rewrite Eg. done.
  - destruct Hok as [_ Ha Hi (z & n & Hz & Hz0) Hc Hsh]. constructor; try done.
    + intros p x Hx. destruct (Ha p x Hx) as (f & ? & ? & ? & Hf & ?). exists f.
      split; [done|]. split; [done|]. split; [done|]. by rewrite Htab.
    + exists z, n. split; [done|]. intros j. destruct (Ha _ _ Hz) as (f & Ef & _ & _ & Hf & _).
      injection Ef as <-. rewrite Hmem; [done|]. by intros ?%own_table.
  - constructor; try done; [auto| | |].
    + intros u. rewrite Htab. by left.
    + intros u Hu. left. by apply (own_walk _ _ _ Hwk).
    + intros q w Hq Eq. cbn [σ' mc_mem with_mem]. by rewrite Hwk.
  - unfold entry_at. change (walk (mem_set (mc_mem σ) t (last_index vpn) e') (root_ppn pt) (dir_path vpn) = Some t).
    rewrite Hwk by by apply dir_node. done.
  - apply Hl.
  - intros f [Up Uf Ut Ua]. constructor; try done. by rewrite Htab.
Qed.

(** *** Counted frames *)

Lemma keeps_arcs σ pt h : keeps σ (with_arcs σ h) pt pt.
Proof. constructor; auto. Qed.

Lemma arcs_new_ok σ pt f p :
  mc_ok σ pt -> unowned σ pt f -> mc_arcs σ !! p = None ->
  mc_ok (with_arcs σ (<[p := mkPayload (one f) 1]> (mc_arcs σ))) pt.
Proof.
  intros [Hpt Ha Hi (z & n & Hz & Hz0) Hc Hs] [Up Uf Ut Ua] Hp. constructor; try done.
  - intros q x. cbn [mc_arcs with_arcs]. rewrite lookup_insert_Some.
    intros [[<- <-]|[_ Hq]]; [|by apply Ha in Hq]. exists f.
    do 4 (split; [done|]). by vm_compute.
  - intros q q' x x'. cbn [mc_arcs with_arcs]. rewrite !lookup_insert_Some.
    intros [[<- <-]|[? Hq]] [[<- <-]|[? Hq']]; cbn [sp_data]; intros E; try done.
    + by destruct (Ua q' x' Hq').
    + by destruct (Ua q x Hq).
    + by apply (Hi q q' x x').
  - exists z, n. split; [|done]. cbn [mc_arcs with_arcs]. apply lookup_insert_Some. right.
    split; [|done]. intros ->. congruence.
  - intros k q Hk. cbn [mc_arcs with_arcs]. rewrite lookup_insert_is_Some'. right. by apply (Hc k).
  - intros k q Hk. cbn [mc_arcs with_arcs]. rewrite lookup_insert_is_Some'. right. by apply (Hs k).
Qed.

Lemma vm_arc_new_ok σ pt f :
  mc_ok σ pt -> unowned σ pt f ->
  exists p, let σ' := with_arcs σ (<[p := mkPayload (one f) 1]> (mc_arcs σ)) in
    vm_arc_new (one f) σ = Ret (p, σ') /\ mc_arcs σ !! p = None /\ mc_ok σ' pt.
Proof.
  intros Hok Hu. destruct (arc_new (mc_arcs σ) (one f)) as [p h] eqn:E.
  destruct (alloc_payload_fresh _ _ _ _ E) as [Hp ->]. exists p. cbv zeta.
  unfold vm_arc_new. rewrite E. split; [done|]. split; [done|]. by apply arcs_new_ok.
Qed.

Lemma arcs_count_ok σ pt p x n :
  mc_ok σ pt -> mc_arcs σ !! p = Some x -> 1 <= n <= usize_max ->
  mc_ok (with_arcs σ (<[p := mkPayload (sp_data x) n]> (mc_arcs σ))) pt.
Proof.
  intros [Hpt Ha Hi (z & k & Hz & Hz0) Hc Hs] Hp Hn. constructor; try done.
  - intros q y. cbn [mc_arcs with_arcs]. rewrite lookup_insert_Some.
    intros [[<- <-]|[_ Hq]]; [|by apply Ha in Hq]. destruct (Ha p x Hp) as (f & ? & ? & ? & ? & _).
    exists f. done.
  - intros q q' y y'. cbn [mc_arcs with_arcs]. rewrite !lookup_insert_Some.
    intros [[<- <-]|[? Hq]] [[<- <-]|[? Hq']]; cbn [sp_data]; intros E; try done.
    + by apply (Hi p q' x y').
    + by apply (Hi q p y x).
    + by apply (Hi q q' y y').
  - cbn [mc_arcs with_arcs mc_mem]. destruct (decide (p = zero_arc)) as [->|Hne].
    + rewrite Hz in Hp. injection Hp as <-. exists z, n. by rewrite lookup_insert_eq.
    + exists z, k. by rewrite lookup_insert_ne.
  - intros j q Hj. cbn [mc_arcs with_arcs]. rewrite lookup_insert_is_Some'. right. by apply (Hc j).
  - intros j q Hj. cbn [mc_arcs with_arcs]. rewrite lookup_insert_is_Some'. right. by apply (Hs j).
Qed.

Lemma vm_arc_clone_ok σ pt p x :
  mc_ok σ pt -> mc_arcs σ !! p = Some x -> sp_rc x < usize_max ->
  let σ' := with_arcs σ (<[p := mkPayload (sp_data x) (sp_rc x + 1)]> (mc_arcs σ)) in
  vm_arc_clone p σ = Ret (p, σ') /\ mc_ok σ' pt.
Proof.
  intros Hok Hp Hn σ'. destruct (mo_arc σ pt Hok p x Hp) as (_ & _ & _ & _ & _ & Hrc).
  unfold vm_arc_clone, arc_clone, arc_get_owners, set_rc. rewrite Hp. cbn [unwrap obind].
  rewrite wadd_small by (unfold is_usize, usize_max in *; lia).
  split; [done|]. apply arcs_count_ok; (done || lia).
Qed.

(** [emplace] on a shared handle. *)
Lemma vm_arc_emplace_ok σ pt p x f :
  mc_ok σ pt -> mc_arcs σ !! p = Some x -> 1 < sp_rc x -> unowned σ pt f ->
  exists p', let σ' := with_arcs σ (<[p' := mkPayload (one f) 1]>
                 (<[p := mkPayload (sp_data x) (sp_rc x - 1)]> (mc_arcs σ))) in
    vm_arc_emplace p (one f) σ = Ret (p', σ') /\ mc_arcs σ !! p' = None /\ mc_ok σ' pt.
Proof.
  intros Hok Hp Hn Hu. destruct (mo_arc σ pt Hok p x Hp) as (_ & _ & _ & _ & _ & Hrc).
  set (h1 := <[p := mkPayload (sp_data x) (sp_rc x - 1)]> (mc_arcs σ)).
  destruct (alloc_payload h1 (one f)) as [p' h2] eqn:Ea.
  destruct (alloc_payload_fresh _ _ _ _ Ea) as [Hp' ->]. exists p'. cbv zeta.
  assert (Hok1 : mc_ok (with_arcs σ h1) pt) by (apply arcs_count_ok; (done || lia)).
  assert (Hu1 : unowned (with_arcs σ h1) pt f).
  { destruct Hu as [Up Uf Ut Ua]. constructor; try done. intros q y. cbn [mc_arcs with_arcs].
    unfold h1. rewrite lookup_insert_Some. intros [[<- <-]|[_ Hq]]; [exact (Ua p x Hp)|exact (Ua q y Hq)]. }
  split; [|split].
  - unfold vm_arc_emplace, arc_emplace, arc_get_owners, emplace_try, set_rc. rewrite Hp.
    cbn [unwrap obind]. destruct (Z.eqb_spec (sp_rc x) 1); [lia|]. rewrite Z.eqb_refl.
    cbn [obind]. rewrite wsub_small by (unfold is_usize, usize_max in *; lia). fold h1. by rewrite Ea.
  - unfold h1 in Hp'. by apply lookup_insert_None in Hp' as [? _].
  - by apply (arcs_new_ok (with_arcs σ h1) pt f p').
Qed.

(** *** Installing a page *)

(** Running the monad on a state. *)
Lemma run_bind {X Y} (m : VM A X) (k : X -> VM A Y) σ x σ1 :
  m σ = Ret (x, σ1) -> (m ≫= k) σ = k x σ1.
Proof. intros E. unfold mbind, VM_bind. by rewrite E. Qed.

Lemma page_entry_wf σ pt vpn e :
  mc_ok σ pt -> reg_vpn vpn -> page_of σ pt vpn = Some e -> pte_wf e.
Proof. intros Hok. apply (lookup_wf _ (mc_fa σ)). apply Hok. Qed.

(** What an installed page looks like. *)
Record installed σ σ' (pt pt' : PageTable) (vpn f perm : Z) (dirty : bool) : Prop := {
  in_ok : mc_ok σ' pt';
  in_keeps : keeps σ σ' pt pt';
  in_page : exists e, page_of σ' pt' vpn = Some e /\ pte_view_of e = mkView f perm true dirty false;
  in_other v : reg_vpn v -> v <> vpn -> page_of σ' pt' v = page_of σ pt v;
}.

(** Mapping a frame and marking the entry, before the count is taken. *)
Lemma map_entry_ok σ pt vpn f perm (dirty : bool) :
  mc_ok σ pt -> reg_vpn vpn -> is_ppn C f -> is_perm perm -> (PG_LEVEL - 1 <= size (free σ))%nat ->
  exists t pt' σ1 σ2, vm_map Small pt vpn f perm σ = Ret ((t, last_index vpn), pt', σ1) /\
    (if dirty then vm_upd_pte (t, last_index vpn) (set_dirty_pte true) else mret tt) σ1 = Ret (tt, σ2) /\
    installed σ σ2 pt pt' vpn f perm dirty /\ (forall g, unowned σ pt g -> unowned σ2 pt' g) /\
    mc_arcs σ2 = mc_arcs σ /\ mc_file_pages σ2 = mc_file_pages σ /\
    mc_shm_pages σ2 = mc_shm_pages σ /\ mc_dirty σ2 = mc_dirty σ /\
    (size (free σ) <= size (free σ2) + (PG_LEVEL - 1))%nat.
Proof.
  intros Hok Hv Hf Hp Hsz.
  destruct (vm_map_ok σ pt vpn f perm Hok Hv Hf Hp (or_intror Hsz))
    as (t & m & a & pt' & E & _ & Hok1 & Hk1 & Ht & He & Hl & Hu1 & Hsz').
  set (σ1 := with_fa (with_mem σ m) a) in *.
  destruct (wl_leaf f perm Hf Hp) as (Hwf & _ & Hview). exists t, pt', σ1. destruct dirty.
  - destruct (pte_set_dirty_view (leaf_entry f perm) true Hwf) as [Hwf' Hview'].
    rewrite Hview in Hview'.
    destruct (vm_upd_pte_ok σ1 pt' vpn t (set_dirty_pte true) (pte_set_dirty (leaf_entry f perm) true))
      as (E2 & Hok2 & Hk2 & _ & Hl2 & Hu2); try done.
    { change (mc_mem σ1) with m. by rewrite He. }
    { by rewrite Hview'. }
    eexists. split; [done|]. split; [exact E2|]. split; [|split; [|done]].
    + constructor; [done|by eapply keeps_trans| |].
      * eexists. split; [|exact Hview']. by rewrite Hl2, Z.eqb_refl by done.
      * intros v Hv' Hne. rewrite Hl2, Hl by done. zcmp. done.
    + intros g Hg. by apply Hu2, Hu1.
  - exists σ1. split; [done|]. split; [done|]. split; [|done]. constructor; try done.
    + eexists. split; [|exact Hview]. by rewrite Hl, Z.eqb_refl by done.
    + intros v Hv' Hne. rewrite Hl by done. zcmp. done.
Qed.

Lemma install_frame_ok σ pt vpn f perm dirty fs :
  mc_ok σ pt -> reg_vpn vpn -> unowned σ pt f -> is_perm perm ->
  (PG_LEVEL - 1 <= size (free σ))%nat -> fs !! vpn = None ->
  exists p pt' σ', install_frame Small pt vpn (one f) perm dirty fs σ =
      Ret (Ok tt, (pt', <[vpn := p]> fs), σ') /\
    installed σ σ' pt pt' vpn f perm dirty /\ mc_arcs σ !! p = None /\
    mc_arcs σ' = <[p := mkPayload (one f) 1]> (mc_arcs σ).
Proof.
  intros Hok Hv Hu Hp Hsz Hfs.
  destruct (map_entry_ok σ pt vpn f perm dirty Hok Hv (uo_ppn _ _ _ Hu) Hp Hsz)
    as (t & pt' & σ1 & σ2 & E1 & E2 & [Iok Ik Ip Io] & Hun & Ea & _).
  destruct (vm_arc_new_ok σ2 pt' f Iok (Hun f Hu)) as (p & E3 & Hp3 & Hok3).
  rewrite Ea in E3, Hp3, Hok3.
  exists p, pt', (with_arcs σ2 (<[p := mkPayload (one f) 1]> (mc_arcs σ))).
  split; [|split; [|done]].
  - unfold install_frame. erewrite run_bind by exact E1. cbn [fst snd].
    erewrite run_bind by exact E2. erewrite run_bind by exact E3.
    unfold frames_insert. rewrite Hfs. done.
  - constructor; try done. eapply keeps_trans; [exact Ik|apply keeps_arcs].
Qed.

Lemma with_dirty_ok σ pt d : mc_ok σ pt -> mc_ok (with_dirty σ d) pt.
Proof. intros [? ? ? ? ? ?]. by constructor. Qed.

Lemma Page_ppn_ok σ p f n :
  mc_arcs σ !! p = Some (mkPayload (one f) n) -> Page_ppn p σ = Ret (f, σ).
Proof. intros Hp. unfold Page_ppn, mbind, VM_bind, vm_frame, arc_deref. by rewrite Hp. Qed.

Lemma install_page_ok σ pt vpn page f n perm dirty fs :
  mc_ok σ pt -> reg_vpn vpn -> mc_arcs σ !! page = Some (mkPayload (one f) n) -> n < usize_max ->
  is_perm perm -> (PG_LEVEL - 1 <= size (free σ))%nat -> fs !! vpn = None ->
  exists pt' σ', install_page Small pt vpn page perm dirty fs σ =
      Ret (Ok tt, (pt', <[vpn := page]> fs), σ') /\
    installed σ σ' pt pt' vpn f perm dirty /\
    mc_arcs σ' = <[page := mkPayload (one f) (n + 1)]> (mc_arcs σ) /\
    mc_dirty σ' = (if dirty then {[page]} else ∅) ∪ mc_dirty σ /\
    mc_file_pages σ' = mc_file_pages σ /\ mc_shm_pages σ' = mc_shm_pages σ /\
    (size (free σ) <= size (free σ') + (PG_LEVEL - 1))%nat.
Proof.
  intros Hok Hv Hpg Hn Hp Hsz Hfs.
  destruct (mo_arc σ pt Hok _ _ Hpg) as (f' & Ef & Hf & _). injection Ef as <-.
  destruct (map_entry_ok σ pt vpn f perm dirty Hok Hv Hf Hp Hsz)
    as (t & pt' & σ1 & σ2 & E1 & E2 & [Iok Ik Ip Io] & _ & Ea & Ec & Es & Ed & Hsz').
  set (σ3 := if dirty then with_dirty σ2 ({[page]} ∪ mc_dirty σ2) else σ2).
  assert (Hok3 : mc_ok σ3 pt') by (unfold σ3; destruct dirty; [by apply with_dirty_ok|done]).
  assert (Ea3 : mc_arcs σ3 = mc_arcs σ) by (unfold σ3; by destruct dirty).
  rewrite <- Ea3 in Hpg. destruct (vm_arc_clone_ok σ3 pt' page _ Hok3 Hpg Hn) as [E4 Hok4].
  cbn [sp_data sp_rc] in E4, Hok4.
  exists pt', (with_arcs σ3 (<[page := mkPayload (one f) (n + 1)]> (mc_arcs σ3))).
  split; [|split; [|split; [|split]]].
  - unfold install_page. rewrite Ea3 in Hpg. erewrite run_bind by by eapply Page_ppn_ok.
    erewrite run_bind by exact E1. cbn [fst snd].
    assert (E3 : (if dirty then _ ← vm_upd_pte (t, last_index vpn) (set_dirty_pte true);
      Page_set_dirty page else mret tt) σ1 = Ret (tt, σ3)).
    { unfold σ3. destruct dirty; [|by rewrite <- E2]. by erewrite run_bind by exact E2. }
    erewrite run_bind by exact E3. unfold Page_frame. erewrite run_bind by exact E4.
    unfold frames_insert. rewrite Hfs. done.
  - assert (Hk3 : keeps σ σ3 pt pt').
    { unfold σ3. destruct dirty; [|done]. destruct Ik. by constructor. }
    constructor; [done|eapply keeps_trans; [exact Hk3|apply keeps_arcs]| |].
    + unfold σ3. by destruct dirty.
    + unfold σ3. by destruct dirty.
  - cbn [mc_arcs with_arcs]. by rewrite Ea3.
  - cbn [mc_dirty with_arcs]. unfold σ3. destruct dirty; cbn [mc_dirty with_dirty]; rewrite Ed; [done|].
    by rewrite (left_id_L ∅ (∪)).
  - unfold σ3. by destruct dirty.
Qed.

(** Zero-filling: on a write a fresh zeroed frame, on a read the zero page. *)
Lemma map_zero_page_ok σ pt vpn access perm fs z n :
  mc_ok σ pt -> reg_vpn vpn -> is_perm perm -> (PG_LEVEL <= size (free σ))%nat -> fs !! vpn = None ->
  mc_arcs σ !! zero_arc = Some (mkPayload (one z) n) -> n < usize_max ->
  let write := contains access WRITE in
  exists f p pt' σ', map_zero_page Small pt vpn access perm fs σ =
      Ret (Ok tt, (pt', <[vpn := p]> fs), σ') /\
    installed σ σ' pt pt' vpn f (if write then perm else bf_remove perm MapPerm_W) write /\
    (forall j, mc_mem σ' f j = 0) /\
    (if write then mc_arcs σ !! p = None /\ mc_arcs σ' = <[p := mkPayload (one f) 1]> (mc_arcs σ)
     else p = zero_arc /\ f = z /\ mc_arcs σ' = <[p := mkPayload (one f) (n + 1)]> (mc_arcs σ)).
Proof.
  intros Hok Hv Hp Hsz Hfs Hz Hn write. unfold map_zero_page. fold write. destruct write.
  - destruct (alloc_fill_ok σ pt Hok) as (f & a & E & _ & Hf & Hfr & _ & Hfill).
    { intros E. rewrite E, size_empty in Hsz. pose proof wl_levels. lia. }
    destruct (Hfill (mem_zero (mc_mem σ) (one f))) as (Hok2 & Hu2 & Hk2 & Hl2 & _).
    { intros u k Hne. unfold one. rewrite mem_zero_one. by zcmp. }
    set (σ2 := with_mem (with_fa σ a) (mem_zero (mc_mem σ) (one f))) in *.
    destruct (install_frame_ok σ2 pt vpn f perm true fs) as (p & pt' & σ3 & E3 & [Iok Ik Ip Io] & Hp3 & Ea3);
      try done.
    { change (free σ2) with (fa_free a). rewrite Hfr, size_difference, size_singleton by set_solver. lia. }
    exists f, p, pt', σ3. split; [|split; [|split; [|done]]].
    + unfold vm_try_alloc. erewrite run_bind by exact E. exact E3.
    + constructor; [done|by eapply keeps_trans|done|].
      intros v Hv' Hne. rewrite Io by done. by apply Hl2.
    + intros j. rewrite (keeps_unowned _ _ _ _ _ _ Ik Hu2).
      change (mc_mem σ2 f j) with (mem_zero (mc_mem σ) (one f) f j). unfold one.
      by rewrite mem_zero_one, Z.eqb_refl.
  - destruct (install_page_ok σ pt vpn zero_arc z n (bf_remove perm MapPerm_W) false fs)
      as (pt' & σ' & E & Hin & Ea & _); try done; [by apply perm_remove|pose proof wl_levels; lia|].
    exists z, zero_arc, pt', σ'. split; [done|]. split; [done|]. split; [|done].
    intros j. etransitivity; [exact (keeps_arc σ σ' pt pt' zero_arc _ j Hok (in_keeps _ _ _ _ _ _ _ _ Hin) Hz)|].
    destruct (mo_zero σ pt Hok) as (z' & n' & Hz' & H0). rewrite Hz in Hz'. injection Hz' as -> _ _. apply H0.
Qed.

(** *** Reading and re-marking an entry *)

Lemma vm_find_pte_ok σ pt vpn :
  mc_ok σ pt -> reg_vpn vpn ->
  match page_of σ pt vpn with
  | Some e => exists t, entry_at σ pt vpn t /\ mc_mem σ t (last_index vpn) = e /\
      vm_find_pte pt vpn σ = Ret (Some (t, last_index vpn), σ)
  | None => vm_find_pte pt vpn σ = Ret (None, σ)
  end.
Proof.
  intros Hok Hv. unfold page_of, vm_find_pte, vm_mem, vm_lift, mbind, VM_bind.
  destruct (find_pte_lookup (mc_mem σ) (mc_fa σ) pt vpn (mo_pt σ pt Hok) Hv)
    as [(t & E & Hw & ->)|[E ->]]; cbn [obind fst snd]; rewrite E; cbn [obind fst snd].
  - exists t. split; [done|]. split; [done|].
    destruct (wl_level (PG_LEVEL - 1)) as (l & -> & _); [pose proof wl_levels; lia|done].
  - done.
Qed.

Lemma set_write_dirty_ok σ pt vpn t e (b : bool) :
  mc_ok σ pt -> reg_vpn vpn -> entry_at σ pt vpn t -> mc_mem σ t (last_index vpn) = e ->
  pte_wf e -> v_valid (pte_view_of e) = true ->
  let v := pte_view_of e in
  let perm := if b then bf_insert (v_perm v) MapPerm_W else bf_remove (v_perm v) MapPerm_W in
  exists m' e', set_write_dirty (t, last_index vpn) b σ = Ret (tt, with_mem σ m') /\
    mc_ok (with_mem σ m') pt /\ keeps σ (with_mem σ m') pt pt /\
    pte_view_of e' = mkView (v_ppn v) perm true b (v_cow v) /\
    (forall w, reg_vpn w -> page_of (with_mem σ m') pt w = if w =? vpn then Some e' else page_of σ pt w).
Proof.
  intros Hok Hv Ht He Hwf Hval v perm.
  assert (Hperm : is_perm perm).
  { pose proof (pte_perm_view e Hwf). unfold perm. destruct b; [by apply perm_insert|by apply perm_remove]. }
  destruct (pte_set_flags_view e perm Hwf Hperm) as [Hwf1 Hv1]. cbv zeta in Hv1. fold v in Hv1.
  set (e1 := pte_set_flags e perm) in *.
  destruct (vm_upd_pte_ok σ pt vpn t (fun pte => pte_set_writable pte b) e1)
    as (E1 & Hok1 & Hk1 & Ht1 & Hl1 & _); try done.
  { rewrite He. unfold pte_set_writable, pte_put. rewrite pte_flags_view by done. cbn [obind].
    unfold e1, perm, v. by destruct b. }
  { by rewrite Hv1. }
  set (σ1 := with_mem σ _) in *.
  destruct (pte_set_dirty_view e1 b Hwf1) as [Hwf2 Hv2]. rewrite Hv1 in Hv2. cbn in Hv2.
  destruct (vm_upd_pte_ok σ1 pt vpn t (set_dirty_pte b) (pte_set_dirty e1 b))
    as (E2 & Hok2 & Hk2 & Ht2 & Hl2 & _); try done.
  { unfold σ1. cbn [mc_mem with_mem]. by rewrite mem_set_same. }
  { by rewrite Hv2. }
  eexists _, _. split; [|split; [exact Hok2|split; [|split]]].
  - unfold set_write_dirty. erewrite run_bind by exact E1. exact E2.
  - by eapply keeps_trans.
  - rewrite Hv2. unfold v in *. by rewrite Hval.
  - intros w Hw. etransitivity; [by apply Hl2|]. rewrite (Hl1 w Hw).
    destruct (w =? vpn); done.
Qed.

(** *** The dispatch *)

Lemma fault_unmapped σ pt a vpn access :
  mc_ok σ pt -> reg_vpn vpn -> can_access access (map_perm a) = true -> page_of σ pt vpn = None ->
  handle_page_fault Small a pt vpn access σ = lazy_fault Small a pt vpn access σ.
Proof.
  intros Hok Hv Hc Hn. unfold handle_page_fault. rewrite Hc. cbn [negb].
  pose proof (vm_find_pte_ok σ pt vpn Hok Hv) as Hf. rewrite Hn in Hf.
  erewrite run_bind by exact Hf. done.
Qed.

Lemma fault_mapped σ pt a vpn access e :
  mc_ok σ pt -> reg_vpn vpn -> can_access access (map_perm a) = true ->
  page_of σ pt vpn = Some e -> v_valid (pte_view_of e) = true ->
  exists t, entry_at σ pt vpn t /\ mc_mem σ t (last_index vpn) = e /\
    handle_page_fault Small a pt vpn access σ =
      if negb (contains access WRITE) then Ret (Err tt, (pt, frames a), σ)
      else if contains (v_perm (pte_view_of e)) MapPerm_W then Ret (Ok tt, (pt, frames a), σ)
      else (if shared a
            then _ ← set_write_dirty (t, last_index vpn) true; mret (Ok tt, (pt, frames a))
            else cow_fault a pt vpn (t, last_index vpn)) σ.
Proof.
  intros Hok Hv Hc Hpg Hval. pose proof (page_entry_wf σ pt vpn e Hok Hv Hpg) as Hwf.
  pose proof (vm_find_pte_ok σ pt vpn Hok Hv) as Hf. rewrite Hpg in Hf.
  destruct Hf as (t & Ht & He & Ef). exists t. split; [done|]. split; [done|].
  unfold handle_page_fault. rewrite Hc. cbn [negb]. erewrite run_bind by exact Ef.
  assert (Ep : vm_pte (t, last_index vpn) σ = Ret (e, σ))
    by (unfold vm_pte, vm_mem, mbind, VM_bind; cbn; by rewrite He).
  assert (Ev : valid_pte (Some (t, last_index vpn)) σ = Ret (Some (t, last_index vpn), σ)).
  { unfold valid_pte. erewrite run_bind by exact Ep. unfold vm_lift, mbind, VM_bind.
    rewrite pte_valid_view, Hval by done. done. }
  erewrite run_bind by exact Ev. destruct (contains access WRITE); cbn [negb]; [|done].
  erewrite run_bind by exact Ep. unfold vm_lift, pte_is_writable, pte_has.
  unfold mbind at 1, VM_bind at 1. rewrite pte_flags_view by done. cbn [obind fst snd].
  by destruct (contains _ MapPerm_W).
Qed.

(** The handlers look up what [backing] says. *)
Lemma lazy_fault_source a pt vpn access :
  area_ok a -> in_range vpn (range_vpn a) -> a_offset a mod 4096 = 0 ->
  lazy_fault (A := A) Small a pt vpn access =
    match backing a vpn with
    | Zeroes => map_zero_page Small pt vpn access (map_perm a) (frames a)
    | FromFile f off len =>
        if bool_decide (vma_type a = UserMmap) && shared a
        then map_shared_file Small pt vpn access f off (map_perm a) (frames a)
        else map_private_file Small pt vpn access f off len (map_perm a) (frames a)
    | FromShm s off => map_shared_memory Small pt vpn access s off (map_perm a) (frames a)
    end.
Proof.
  intros Ha Hv Hal. destruct (area_pages a Ha) as (Es & Hs & He & _).
  destruct user_half as (_ & Hu & _ & Hmax). destruct Ha as [_ _ _ _ Hoff Hlen].
  unfold in_range in Hv. change (VirtAddr_floor (r_start (range_va a))) with (r_start (range_vpn a)) in *.
  assert (Eshift : fault_shift a vpn = page_shift a vpn).
  { unfold fault_shift, page_shift. rewrite page_size_val.
    change (VirtAddr_floor (r_start (range_va a))) with (r_start (range_vpn a)).
    rewrite wsub_small, wmul_small by (unfold is_usize; lia). done. }
  assert (Hd : page_shift a vpn = (vpn - r_start (range_vpn a)) * 4096)
    by (unfold page_shift; by rewrite page_size_val).
  assert (Eoff : wadd (a_offset a) (page_shift a vpn) = a_offset a + page_shift a vpn)
    by (apply wadd_small; unfold is_usize; lia).
  assert (Hmod : (a_offset a + page_shift a vpn) mod PAGE_SIZE = 0).
  { rewrite Hd, page_size_val, Z.mod_add by lia. done. }
  unfold lazy_fault, UserDataHandler, UserStackHandler, UserHeapHandler, UserMmapHandler, backing.
  rewrite Eshift, Eoff, Hmod.
  assert (Hal' : a_offset a mod PAGE_SIZE = 0) by by rewrite page_size_val. rewrite Hal'.
  destruct (vma_type a) eqn:Et; try done; destruct (a_file a) as [|f|sh]; try done.
  - destruct (Z.ltb_spec (page_shift a vpn) (a_len a)); [|done].
    rewrite wsub_small by (unfold is_usize; lia). done.
Qed.

Lemma of_indexes_from rest acc :
  Forall (fun i => 0 <= i) rest -> 0 <= acc ->
  acc * 512 ^ Z.of_nat (length rest) <= fold_left (fun acc i => acc * 512 + i) rest acc.
Proof.
  revert acc. induction rest as [|i rest IH]; intros acc Hf Ha; cbn [fold_left length]; [lia|].
  inversion Hf; subst. rewrite Nat2Z.inj_succ, Z.pow_succ_r by lia.
  specialize (IH (acc * 512 + i) ltac:(done) ltac:(lia)).
  assert (0 < 512 ^ Z.of_nat (length rest)) by (apply Z.pow_pos_nonneg; lia). nia.
Qed.

Lemma user_reg v : 0 <= v < user_pages -> reg_vpn v.
Proof.
  intros Hv. destruct user_half as (_ & _ & E & _). assert (Hvp : is_vpn v) by (unfold is_vpn; lia).
  split; [done|]. destruct (indexes_spec v Hvp) as (Hl & Hf & Ho). rewrite vpn_width_512 in E.
  destruct (VirtPageNum_indexes v) as [|i rest]; [cbn; unfold region, user_region; lia|].
  apply Forall_cons in Hf as [Hi Hf].
  assert (Hf0 : Forall (fun i => 0 <= i) rest) by (eapply Forall_impl; [exact Hf|]; cbn; lia).
  pose proof (of_indexes_from rest i Hf0 ltac:(lia)) as Hle.
  unfold of_indexes in Ho. cbn [fold_left] in Ho. rewrite Z.mul_0_l, Z.add_0_l in Ho. rewrite Ho in Hle.
  rewrite <- Hl in E. cbn [length] in E. rewrite Nat2Z.inj_succ, Z.pow_succ_r in E by lia.
  cbn [hd]. unfold region, user_region.
  assert (0 < 512 ^ Z.of_nat (length rest)) by (apply Z.pow_pos_nonneg; lia). nia.
Qed.

Lemma area_vpn a vpn : area_ok a -> in_range vpn (range_vpn a) -> reg_vpn vpn.
Proof.
  intros Ha Hv. destruct (area_pages a Ha) as (_ & ? & ? & _). apply user_reg.
  unfold in_range in Hv. lia.
Qed.

(** *** Copy on write *)

Lemma mem_copy_one m g f u k :
  mem_copy m (one g) (one f) u k = if u =? g then m f k else m u k.
Proof.
  unfold mem_copy, one. cbn [r_start r_end].
  destruct (Z.leb_spec g u), (Z.ltb_spec u (g + 1)), (Z.eqb_spec u g); cbn; try lia; try done.
  by replace (f + (u - g)) with f by lia.
Qed.

(** The entry of the page after the fault. *)
Definition cow_done σ σ' (pt : PageTable) (vpn e g : Z) : Prop :=
  mc_ok σ' pt /\ keeps σ σ' pt pt /\ exists e', page_of σ' pt vpn = Some e' /\
    pte_view_of e' = mkView g (bf_insert (v_perm (pte_view_of e)) MapPerm_W) true true
                       (v_cow (pte_view_of e)) /\
    forall v, reg_vpn v -> v <> vpn -> page_of σ' pt v = page_of σ pt v.

Lemma cow_fault_sole σ pt a vpn t e p x :
  mc_ok σ pt -> reg_vpn vpn -> entry_at σ pt vpn t -> mc_mem σ t (last_index vpn) = e ->
  pte_wf e -> v_valid (pte_view_of e) = true ->
  frames a !! vpn = Some p -> mc_arcs σ !! p = Some x -> sp_rc x <= 1 ->
  exists m', let σ' := with_mem σ m' in
    cow_fault a pt vpn (t, last_index vpn) σ = Ret (Ok tt, (pt, <[vpn := p]> (frames a)), σ') /\
    cow_done σ σ' pt vpn e (v_ppn (pte_view_of e)).
Proof.
  intros Hok Hv Ht He Hwf Hval Hfs Hp Hn.
  destruct (set_write_dirty_ok σ pt vpn t e true Hok Hv Ht He Hwf Hval)
    as (m' & e' & E & Hok' & Hk & Hview & Hl).
  exists m'. cbv zeta. split.
  - unfold cow_fault. rewrite Hfs. unfold vm_unwrap. cbn [unwrap].
    unfold mbind at 1, VM_bind at 1, vm_lift. cbn [obind fst snd].
    erewrite run_bind; [|unfold vm_owners, arc_get_owners; rewrite Hp; done].
    cbn [unwrap obind]. destruct (Z.ltb_spec 1 (sp_rc x)); [lia|].
    erewrite run_bind by done. by erewrite run_bind by exact E.
  - split; [done|]. split; [done|]. exists e'. rewrite Hl, Z.eqb_refl by done.
    split; [done|]. split; [exact Hview|]. intros v Hv' Hne. rewrite Hl by done. by zcmp.
Qed.

Lemma cow_fault_copy σ pt a vpn t e p f n :
  mc_ok σ pt -> reg_vpn vpn -> free σ <> ∅ -> entry_at σ pt vpn t ->
  mc_mem σ t (last_index vpn) = e -> pte_wf e -> v_valid (pte_view_of e) = true ->
  frames a !! vpn = Some p -> mc_arcs σ !! p = Some (mkPayload (one f) n) -> 1 < n ->
  exists g p' σ',
    cow_fault a pt vpn (t, last_index vpn) σ = Ret (Ok tt, (pt, <[vpn := p']> (frames a)), σ') /\
    cow_done σ σ' pt vpn e g /\ (forall j, mc_mem σ' g j = mc_mem σ f j) /\
    g ∈ free σ /\ mc_arcs σ !! p' = None /\
    mc_arcs σ' = <[p' := mkPayload (one g) 1]> (<[p := mkPayload (one f) (n - 1)]> (mc_arcs σ)).
Proof.
  intros Hok Hv Hfree Ht He Hwf Hval Hfs Hp Hn.
  destruct (alloc_fill_ok σ pt Hok Hfree) as (g & fa & Ea & _ & Hg & Hfr & Hgt & Hfill).
  destruct (Hfill (mem_copy (mc_mem σ) (one g) (one f))) as (Hok2 & Hu2 & Hk2 & Hl2 & Ht2).
  { intros u k Hne. rewrite mem_copy_one. by zcmp. }
  set (σ2 := with_mem (with_fa σ fa) (mem_copy (mc_mem σ) (one g) (one f))) in *.
  assert (Htg : t <> g).
  { intros ->. apply Hgt. exists (dir_path vpn). split; [by apply dir_node|done]. }
  assert (He2 : mc_mem σ2 t (last_index vpn) = e).
  { change (mc_mem σ2) with (mem_copy (mc_mem σ) (one g) (one f)). rewrite mem_copy_one. by zcmp. }
  destruct (pte_set_ppn_view e g Hwf (uo_ppn _ _ _ Hu2)) as [Hwf3 Hv3]. cbv zeta in Hv3.
  destruct (vm_upd_pte_ok σ2 pt vpn t (fun pte => Ret (pte_set_ppn pte g)) (pte_set_ppn e g))
    as (E3 & Hok3 & Hk3 & Ht3 & Hl3 & Hu3); try done; [by apply Ht2|by rewrite He2|by rewrite Hv3|].
  set (σ3 := with_mem σ2 _) in *. specialize (Hu3 g Hu2).
  destruct (vm_arc_emplace_ok σ3 pt p (mkPayload (one f) n) g Hok3 Hp Hn Hu3) as (p' & E4 & Hp' & Hok4).
  cbn [sp_data sp_rc] in E4, Hok4. set (σ4 := with_arcs σ3 _) in *.
  destruct (set_write_dirty_ok σ4 pt vpn t (pte_set_ppn e g) true)
    as (m' & e' & E5 & Hok5 & Hk5 & Hv5 & Hl5); try done;
    [apply mem_set_same|by rewrite Hv3|].
  assert (Hk35 : keeps σ2 (with_mem σ4 m') pt pt).
  { eapply keeps_trans; [exact Hk3|]. eapply keeps_trans; [apply keeps_arcs|exact Hk5]. }
  exists g, p', (with_mem σ4 m'). split; [|split; [|split; [|split; [done|split; done]]]].
  - unfold cow_fault. rewrite Hfs. unfold vm_unwrap. cbn [unwrap].
    unfold mbind at 1, VM_bind at 1, vm_lift. cbn [obind fst snd].
    erewrite run_bind; [|unfold vm_owners, arc_get_owners; rewrite Hp; done].
    cbn [sp_rc]. destruct (Z.ltb_spec 1 n); [|lia].
    erewrite run_bind.
    2:{ erewrite run_bind by exact Ea. erewrite run_bind by done.
        erewrite run_bind; [|unfold vm_frame, arc_deref; change (mc_arcs (with_fa σ fa)) with (mc_arcs σ);
          rewrite Hp; done].
        cbn [sp_data]. erewrite run_bind.
        2:{ unfold vm_copy_frames, vm_assert. unfold range_count, one. cbn [r_start r_end].
            replace (g + 1 - g) with 1 by lia. replace (f + 1 - f) with 1 by lia. done. }
        erewrite run_bind by exact E3. exact E4. }
    by erewrite run_bind by exact E5.
  - split; [done|]. split; [by eapply keeps_trans|]. exists e'. rewrite Hl5, Z.eqb_refl by done.
    split; [done|]. split; [by rewrite Hv5, Hv3|]. intros v Hv' Hne. rewrite Hl5 by done.
    zcmp. change (page_of σ4 pt v) with (page_of σ3 pt v). rewrite Hl3 by done. zcmp. by apply Hl2.
  - intros j. rewrite (keeps_unowned _ _ _ _ _ _ Hk35 Hu2).
    change (mc_mem σ2) with (mem_copy (mc_mem σ) (one g) (one f)). by rewrite mem_copy_one, Z.eqb_refl.
Qed.

(** *** Page caches *)

(** What reading a page gives: the cached copy, or the stored data. *)
Definition cached_words σ (cache : option Z) (stored : Z -> Z) (j : Z) : Z :=
  match cache with
  | Some page =>
      match mc_arcs σ !! page with
      | Some x => mc_mem σ (r_start (sp_data x)) j
      | None => 0
      end
  | None => stored j
  end.

Definition file_words σ (inode offset : Z) : Z -> Z :=
  cached_words σ (mc_file_pages σ !! (inode, offset)) (inode_data inode offset).
Definition shm_words σ (shm offset : Z) : Z -> Z :=
  cached_words σ (mc_shm_pages σ !! (shm, offset)) (fun _ => 0).

(** A page held in a cache: counted, with the given contents, and nothing else
    disturbed. *)
Record page_read σ σ' (pt : PageTable) (page f n : Z) (words : Z -> Z) : Prop := {
  pr_ok : mc_ok σ' pt;
  pr_keeps : keeps σ σ' pt pt;
  pr_arc : mc_arcs σ' !! page = Some (mkPayload (one f) n);
  pr_words j : mc_mem σ' f j = words j;
  pr_arcs : mc_arcs σ' = mc_arcs σ \/
    mc_arcs σ !! page = None /\ n = 1 /\
    mc_arcs σ' = <[page := mkPayload (one f) 1]> (mc_arcs σ);
  pr_other v : reg_vpn v -> page_of σ' pt v = page_of σ pt v;
  pr_unowned g : unowned σ pt g -> unowned σ' pt g;
  pr_size : (size (free σ) <= S (size (free σ')))%nat;
}.

(** A page already there. *)
Lemma page_read_hit σ pt page x :
  mc_ok σ pt -> mc_arcs σ !! page = Some x ->
  exists f, page_read σ σ pt page f (sp_rc x) (fun j => mc_mem σ (r_start (sp_data x)) j).
Proof.
  intros Hok Hx. destruct (mo_arc σ pt Hok page x Hx) as (f & Ef & _). exists f.
  constructor; try done; [apply keeps_refl| |intros j; by rewrite Ef|by left|lia].
  rewrite Hx. by destruct x as [r n]; cbn in *; subst.
Qed.

(** [Page::new], then contents written into the new frame. *)
Lemma page_new_ok σ pt words :
  mc_ok σ pt -> free σ <> ∅ ->
  exists page f σ1, Page_new σ = Ret (page, σ1) /\
    mc_arcs σ1 !! page = Some (mkPayload (one f) 1) /\ (forall j, mc_mem σ1 f j = 0) /\
    (forall m', (forall u k, m' u k = if u =? f then words k else mc_mem σ1 u k) ->
       page_read σ (with_mem σ1 m') pt page f 1 words) /\
    mc_file_pages σ1 = mc_file_pages σ /\ mc_shm_pages σ1 = mc_shm_pages σ.
Proof.
  intros Hok Hne. destruct (alloc_fill_ok σ pt Hok Hne) as (f & a & E & _ & Hf & Hfr & _ & Hfill).
  set (m1 := mem_zero (mc_mem σ) (one f)).
  assert (Hm1 : forall u k, u <> f -> m1 u k = mc_mem σ u k)
    by (intros u k Hu; unfold m1, one; rewrite mem_zero_one; by zcmp).
  destruct (arc_new (mc_arcs σ) (one f)) as [page h] eqn:Ea.
  destruct (alloc_payload_fresh _ _ _ _ Ea) as [Hp ->].
  exists page, f, (with_arcs (with_mem (with_fa σ a) m1) (<[page := mkPayload (one f) 1]> (mc_arcs σ))).
  split; [|split; [apply lookup_insert_eq|split; [|split; [|done]]]].
  - unfold Page_new. erewrite run_bind by exact E. erewrite run_bind by done.
    erewrite run_bind by done. unfold vm_arc_new. cbn [mc_arcs with_mem with_fa]. by rewrite Ea.
  - intros j. cbn [mc_mem with_arcs with_mem]. unfold m1, one. by rewrite mem_zero_one, Z.eqb_refl.
  - intros m' Hm'. cbn [mc_mem with_arcs with_mem] in Hm'.
    destruct (Hfill m') as (Hok2 & Hu2 & Hk2 & Hl2 & _).
    { intros u k Hu. rewrite Hm'. zcmp. by apply Hm1. }
    pose proof (arcs_new_ok _ pt f page Hok2 Hu2 Hp) as Hok3. constructor.
    + exact Hok3.
    + eapply keeps_trans; [exact Hk2|]. apply (keeps_arcs (with_mem (with_fa σ a) m')).
    + apply lookup_insert_eq.
    + intros j. cbn [mc_mem with_mem]. by rewrite Hm', Z.eqb_refl.
    + right. done.
    + exact Hl2.
    + intros g [Up Uf Ut Ua]. assert (Hgf : g <> f) by by intros ->.
      constructor; [done| | |].
      * change (g ∉ fa_free a). set_solver.
      * intros Ht. destruct (k_tables _ _ _ _ Hk2 g Ht) as [|[? _]]; done.
      * intros p x. cbn [mc_arcs with_arcs with_mem]. rewrite lookup_insert_Some.
        intros [[<- <-]|[_ Hq]]; cbn; [by intros [= ->]|by apply (Ua p)].
    + change (free (with_mem (with_arcs _ _) m')) with (fa_free a).
      rewrite Hfr, size_difference, size_singleton by set_solver. lia.
Qed.

Lemma cached_file_ok σ σ' pt page f n words k :
  page_read σ σ' pt page f n words ->
  page_read σ (with_file_pages σ' (<[k := page]> (mc_file_pages σ'))) pt page f n words.
Proof.
  intros [[? ? ? ? Hf ?] [? ? ? ?] Ha ? ? ? Hu ?]. constructor; try done; [constructor; try done|].
  - intros k' p'. cbn [mc_file_pages with_file_pages]. rewrite lookup_insert_Some.
    intros [[_ <-]|[_ H]]; [by exists (mkPayload (one f) n)|by apply (Hf k')].
  - intros g Hg. destruct (Hu g Hg). by constructor.
Qed.

Lemma cached_shm_ok σ σ' pt page f n words k :
  page_read σ σ' pt page f n words ->
  page_read σ (with_shm_pages σ' (<[k := page]> (mc_shm_pages σ'))) pt page f n words.
Proof.
  intros [[? ? ? ? ? Hs] [? ? ? ?] Ha ? ? ? Hu ?]. constructor; try done; [constructor; try done|].
  - intros k' p'. cbn [mc_shm_pages with_shm_pages]. rewrite lookup_insert_Some.
    intros [[_ <-]|[_ H]]; [by exists (mkPayload (one f) n)|by apply (Hs k')].
  - intros g Hg. destruct (Hu g Hg). by constructor.
Qed.

(** The inode's page cache. *)
Lemma read_page_at_ok σ pt inode offset :
  mc_ok σ pt -> free σ <> ∅ -> offset mod 4096 = 0 -> offset < inode_size inode ->
  exists page f n σ', read_page_at inode offset σ = Ret (Some page, σ') /\
    page_read σ σ' pt page f n (file_words σ inode offset) /\
    mc_file_pages σ' !! (inode, offset) = Some page.
Proof.
  intros Hok Hne Hal Hlt. unfold read_page_at.
  destruct (Z.leb_spec (inode_size inode) offset); [lia|]. rewrite page_size_val, Hal. cbn [Z.eqb guard_panic].
  unfold file_words, cached_words. destruct (mc_file_pages σ !! (inode, offset)) as [page|] eqn:Ec.
  - destruct (mo_file σ pt Hok _ _ Ec) as [x Hx]. rewrite Hx.
    destruct (page_read_hit σ pt page x Hok Hx) as (f & Hr). exists page, f, (sp_rc x), σ. done.
  - destruct (page_new_ok σ pt (inode_data inode offset) Hok Hne)
      as (page & f & σ1 & E1 & Ha1 & _ & Hr & _).
    eexists page, f, 1, _.
    split; [erewrite run_bind by exact E1; erewrite run_bind by (by eapply Page_ppn_ok); done|].
    split; [|apply lookup_insert_eq].
    apply (cached_file_ok σ (with_mem σ1 _) pt page f 1 _ (inode, offset)). by apply Hr.
Qed.

(** The page cache of a shared-memory object. *)
Lemma shm_read_page_at_ok σ pt shm offset :
  mc_ok σ pt -> free σ <> ∅ -> offset mod 4096 = 0 -> offset < shm_size shm ->
  exists page f n σ', shm_read_page_at shm offset σ = Ret (Some page, σ') /\
    page_read σ σ' pt page f n (shm_words σ shm offset) /\
    mc_shm_pages σ' !! (shm, offset) = Some page.
Proof.
  intros Hok Hne Hal Hlt. unfold shm_read_page_at.
  destruct (Z.leb_spec (shm_size shm) offset); [lia|]. rewrite page_size_val, Hal. cbn [Z.eqb negb orb].
  unfold shm_words, cached_words. destruct (mc_shm_pages σ !! (shm, offset)) as [page|] eqn:Ec.
  - destruct (mo_shm σ pt Hok _ _ Ec) as [x Hx]. rewrite Hx.
    destruct (page_read_hit σ pt page x Hok Hx) as (f & Hr). exists page, f, (sp_rc x), σ. done.
  - destruct (page_new_ok σ pt (fun _ => 0) Hok Hne) as (page & f & σ1 & E1 & Ha1 & Hz & Hr & _).
    eexists page, f, 1, _.
    split; [erewrite run_bind by exact E1; erewrite run_bind; [|unfold vm_frame, arc_deref;
      rewrite Ha1; done]; done|].
    split; [|apply lookup_insert_eq].
    apply (cached_shm_ok σ (with_mem σ1 _) pt page f 1 _ (shm, offset)). apply Hr.
    intros u k. cbn [sp_data]. unfold one. by rewrite mem_zero_one.
Qed.

(** *** Private pages of a file *)

(** The first [len] bytes of a page, then zeroes, as words. *)
Definition prefix_words (w : Z -> Z) (len j : Z) : Z :=
  if 8 * (j + 1) <=? len then w j
  else if len <=? 8 * j then 0
  else Z.land (w j) (Z.ones (8 * (len - 8 * j))).

Lemma mem_copy_prefix_at m dst src len u j :
  mem_copy_prefix m dst src len u j = if u =? dst then prefix_words (m src) len j else m u j.
Proof. done. Qed.

(** Writing a frame that was free at the start is not a write to memory in use. *)
Lemma keeps_write σ σ2 pt pt' g m' :
  keeps σ σ2 pt pt' -> g ∈ free σ -> (forall u k, u <> g -> m' u k = mc_mem σ2 u k) ->
  (forall u, tables (with_mem σ2 m') pt' u <-> tables σ2 pt' u) ->
  (forall q, node q -> walk m' (root_ppn pt') q = walk (mc_mem σ2) (root_ppn pt') q) ->
  keeps σ (with_mem σ2 m') pt pt'.
Proof.
  intros [Rt M Fr T O Wk] Hg Hm Ht Ho. constructor; [done| |done| | |].
  - intros u k Hu Htu. cbn [mc_mem with_mem]. rewrite Hm by by intros ->. by apply M.
  - intros u Hu. apply T. by apply Ht.
  - intros u Hu. apply O. by apply (own_walk σ2 m' pt').
  - intros q t Hq Eq. cbn [mc_mem with_mem]. rewrite <- Rt, Ho, Rt by done. by apply Wk.
Qed.

Lemma map_private_copy_ok σ pt vpn inode offset len perm dirty fs :
  mc_ok σ pt -> reg_vpn vpn -> is_perm perm -> (S PG_LEVEL <= size (free σ))%nat -> fs !! vpn = None ->
  offset mod 4096 = 0 -> offset < inode_size inode ->
  exists g p pt' σ', map_private_copy Small pt vpn inode offset len perm dirty fs σ =
      Ret (Ok tt, (pt', <[vpn := p]> fs), σ') /\
    installed σ σ' pt pt' vpn g perm dirty /\ g ∈ free σ /\ mc_arcs σ !! p = None /\
    mc_arcs σ' !! p = Some (mkPayload (one g) 1) /\
    forall j, mc_mem σ' g j = prefix_words (file_words σ inode offset) len j.
Proof.
  intros Hok Hv Hp Hsz Hfs Hal Hlt. pose proof wl_levels.
  destruct (alloc_fill_ok σ pt Hok) as (g & a & E1 & Hok1 & Hg & Hfr & Hgt & Hfill).
  { intros E. rewrite E, size_empty in Hsz. lia. }
  destruct (Hfill (mc_mem σ) ltac:(done)) as (_ & Hu1 & Hk1 & Hl1 & _).
  set (σ1 := with_fa σ a) in *.
  assert (Hs1 : (PG_LEVEL <= size (free σ1))%nat).
  { change (free σ1) with (fa_free a). rewrite Hfr, size_difference, size_singleton by set_solver. lia. }
  destruct (read_page_at_ok σ1 pt inode offset Hok1) as (page & f & n & σ2 & E2 & Hr & _); [|done..|].
  { intros E. rewrite E, size_empty in Hs1. lia. }
  destruct Hr as [Hok2 Hk2 Ha2 Hw2 Harc Hl2 Hun2 Hs2]. specialize (Hun2 g Hu1).
  assert (Hfg : f <> g) by (intros ->; by apply (uo_arcs _ _ _ Hun2 _ _ Ha2)).
  set (m3 := mem_copy_prefix (mc_mem σ2) g f len).
  destruct (write_unowned σ2 pt g m3 Hok2 Hun2) as (Hok3 & Hu3 & Ht3 & Ho3 & Hl3 & _).
  { intros u k Hne. unfold m3. rewrite mem_copy_prefix_at. by zcmp. }
  destruct (install_frame_ok (with_mem σ2 m3) pt vpn g perm dirty fs)
    as (p & pt' & σ4 & E4 & [Iok Ik Ip Io] & Hp4 & Ea4); try done.
  { change (free (with_mem σ2 m3)) with (free σ2). lia. }
  exists g, p, pt', σ4. split; [|split; [|split; [done|split; [|split]]]].
  - unfold map_private_copy, vm_try_alloc. erewrite run_bind by exact E1. cbn beta iota.
    erewrite run_bind by exact E2. cbn beta iota. erewrite run_bind by by eapply Page_ppn_ok.
    erewrite run_bind by done. exact E4.
  - constructor; [done| |done|].
    + eapply keeps_trans; [|exact Ik]. apply (keeps_write σ σ2 pt pt g m3); try done.
      * eapply keeps_trans; [exact Hk1|exact Hk2].
      * intros u k Hne. unfold m3. rewrite mem_copy_prefix_at. by zcmp.
    + intros v Hv' Hne. rewrite Io by done. rewrite Hl3, Hl2 by done. by apply Hl1.
  - change (mc_arcs (with_mem σ2 m3)) with (mc_arcs σ2) in Hp4.
    destruct Harc as [Ea|(_ & _ & Ea)]; rewrite Ea in Hp4; [done|].
    by apply lookup_insert_None in Hp4 as [? _].
  - rewrite Ea4. apply lookup_insert_eq.
  - intros j. rewrite (keeps_unowned _ _ _ _ _ _ Ik Hu3). cbn [mc_mem with_mem]. unfold m3.
    rewrite mem_copy_prefix_at, Z.eqb_refl. unfold prefix_words. by rewrite Hw2.
Qed.

(** The page cannot be read: the frame goes back and nothing has changed. *)
Lemma map_private_copy_eof σ pt vpn inode offset len perm dirty fs :
  mc_ok σ pt -> free σ <> ∅ -> inode_size inode <= offset ->
  exists a, map_private_copy Small pt vpn inode offset len perm dirty fs σ =
      Ret (Err tt, (pt, fs), with_fa σ a) /\ fa_wf a /\ fa_free a = free σ.
Proof.
  intros Hok Hne Hge. pose proof (pti_alloc _ _ _ (mo_pt σ pt Hok)) as Hw.
  destruct (alloc_tracker_one (mc_fa σ) Hw Hne) as (f & a & E & Hf & Hw' & Hfr & Hmg).
  destruct (fa_dealloc_law a (one f) Hw') as (a' & Ed & Hw2 & Hfr2 & _).
  { intros x. rewrite elem_of_frames. cbn [one r_start r_end]. intros Hx.
    replace x with f by lia. rewrite Hmg. by apply fa_free_managed. }
  { rewrite Hfr. intros x. rewrite elem_of_frames. cbn [one r_start r_end]. intros Hx.
    replace x with f by lia. set_solver. }
  exists a'. split; [|split; [done|]].
  - unfold map_private_copy, vm_try_alloc.
    erewrite run_bind; [|unfold vm_alloc; rewrite E; done]. cbn beta iota.
    erewrite run_bind; [|unfold read_page_at; destruct (Z.leb_spec (inode_size inode) offset); [done|lia]].
    cbn beta iota.
    erewrite run_bind; [|unfold vm_drop_tracker, FrameTracker_drop; cbn [mc_fa with_fa];
      fold (one f); rewrite Ed; done]. done.
  - rewrite Hfr2, Hfr. apply set_eq. intros x. rewrite elem_of_union, elem_of_difference, elem_of_frames,
      elem_of_singleton. unfold free. cbn [one r_start r_end]. split.
    + intros [[? _]|?]; [done|]. by replace x with f by lia.
    + intros Hx. destruct (decide (x = f)) as [->|]; [right; lia|by left].
Qed.

(** No frame has as many owners as a counter can count. *)
Definition counts_small σ : Prop := forall p x, mc_arcs σ !! p = Some x -> sp_rc x < usize_max.

Lemma page_read_small σ σ' pt page f n words :
  counts_small σ -> page_read σ σ' pt page f n words -> n < usize_max.
Proof.
  intros Hc Hr. destruct (pr_arcs _ _ _ _ _ _ _ Hr) as [Ea|(_ & -> & _)]; [|by vm_compute].
  pose proof (pr_arc _ _ _ _ _ _ _ Hr) as Hpa. rewrite Ea in Hpa. by apply (Hc page _ Hpa).
Qed.

(** Mapping a page just read from a cache. *)
Lemma read_install_ok σ σ2 pt page f n words vpn perm dirty fs :
  page_read σ σ2 pt page f n words -> n < usize_max -> reg_vpn vpn -> is_perm perm ->
  (PG_LEVEL <= size (free σ))%nat -> fs !! vpn = None ->
  exists pt' σ', install_page Small pt vpn page perm dirty fs σ2 =
      Ret (Ok tt, (pt', <[vpn := page]> fs), σ') /\
    installed σ σ' pt pt' vpn f perm dirty /\ (forall j, mc_mem σ' f j = words j) /\
    mc_arcs σ' !! page = Some (mkPayload (one f) (n + 1)) /\
    (dirty = true -> page ∈ mc_dirty σ') /\
    mc_file_pages σ' = mc_file_pages σ2 /\ mc_shm_pages σ' = mc_shm_pages σ2.
Proof.
  intros [Hok Hk Ha Hw _ Hl _ Hs] Hn Hv Hp Hsz Hfs.
  destruct (install_page_ok σ2 pt vpn page f n perm dirty fs Hok Hv Ha Hn Hp ltac:(lia) Hfs)
    as (pt' & σ' & E & [Iok Ik Ip Io] & Ea & Ed & Ec & Es & _).
  exists pt', σ'. split; [done|]. split; [|split; [|split; [|split]]].
  - constructor; [done|by eapply keeps_trans|done|]. intros v Hv' Hne. rewrite Io by done. by apply Hl.
  - intros j. rewrite <- Hw. exact (keeps_arc σ2 σ' pt pt' page _ j Hok Ik Ha).
  - rewrite Ea. apply lookup_insert_eq.
  - intros ->. rewrite Ed. set_solver.
  - done.
Qed.

Lemma read_page_at_eof σ inode offset :
  inode_size inode <= offset -> read_page_at (A := A) inode offset σ = Ret (None, σ).
Proof. intros H. unfold read_page_at. destruct (Z.leb_spec (inode_size inode) offset); [done|lia]. Qed.

(** The offsets a page is read at are page offsets. *)
Lemma backing_offset a vpn :
  a_offset a mod 4096 = 0 ->
  match backing a vpn with
  | Zeroes => True
  | FromFile _ off len => off mod 4096 = 0 /\ len <= 4096
  | FromShm _ off => off mod 4096 = 0
  end.
Proof.
  intros Hal. assert (Hm : (a_offset a + page_shift a vpn) mod 4096 = 0).
  { unfold page_shift. rewrite page_size_val, Z.mod_add by lia. done. }
  pose proof page_size_val. unfold backing.
  destruct (vma_type a); try done; destruct (a_file a); try done; [|by split; [|lia]].
  destruct (Z.ltb_spec (page_shift a vpn) (a_len a)); [|done]. split; [done|lia].
Qed.

(** A private mapping of a page of a file. *)
Lemma map_private_file_ok σ pt vpn access file inode offset len perm fs :
  mc_ok σ pt -> reg_vpn vpn -> is_perm perm -> (S PG_LEVEL <= size (free σ))%nat -> fs !! vpn = None ->
  file_inode file = Some inode -> offset mod 4096 = 0 -> offset < inode_size inode -> len <= 4096 ->
  counts_small σ ->
  let own := (len <? 4096) || contains access WRITE in
  exists g p pt' σ', map_private_file Small pt vpn access file offset len perm fs σ =
      Ret (Ok tt, (pt', <[vpn := p]> fs), σ') /\
    installed σ σ' pt pt' vpn g (if own then perm else bf_remove perm MapPerm_W) (contains access WRITE) /\
    (forall j, 0 <= j < 512 -> mc_mem σ' g j = prefix_words (file_words σ inode offset) len j) /\
    if own then g ∈ free σ /\ mc_arcs σ !! p = None /\ mc_arcs σ' !! p = Some (mkPayload (one g) 1)
    else mc_file_pages σ' !! (inode, offset) = Some p.
Proof.
  intros Hok Hv Hp Hsz Hfs Hi Hal Hlt Hlen Hcnt own. pose proof wl_levels.
  unfold map_private_file. rewrite Hi. erewrite run_bind by done. rewrite page_size_val.
  destruct (Z.ltb_spec len 4096) as [Hl|Hl]; [|destruct (contains access WRITE) eqn:Hw]; cbn [orb] in own.
  - destruct (map_private_copy_ok σ pt vpn inode offset len perm (contains access WRITE) fs
      Hok Hv Hp Hsz Hfs Hal Hlt) as (g & p & pt' & σ' & E & Hin & Hg & Hpn & Hpa & Hm).
    exists g, p, pt', σ'. split; [exact E|]. split; [done|]. split; [by intros j _|done].
  - destruct (map_private_copy_ok σ pt vpn inode offset 4096 perm true fs
      Hok Hv Hp Hsz Hfs Hal Hlt) as (g & p & pt' & σ' & E & Hin & Hg & Hpn & Hpa & Hm).
    replace len with 4096 by lia.
    exists g, p, pt', σ'. split; [exact E|]. split; [done|]. split; [by intros j _|done].
  - destruct (read_page_at_ok σ pt inode offset Hok) as (page & f & n & σ2 & E2 & Hr & Hc2); [|done..|].
    { intros E. rewrite E, size_empty in Hsz. lia. }
    pose proof (page_read_small _ _ _ _ _ _ _ Hcnt Hr) as Hn.
    destruct (read_install_ok σ σ2 pt page f n _ vpn (bf_remove perm MapPerm_W) false fs Hr Hn Hv)
      as (pt' & σ' & E3 & Hin & Hm & _ & _ & Ec & _); [by apply perm_remove|lia|done|].
    exists f, page, pt', σ'. split; [|split; [done|split; [|by rewrite Ec]]].
    + by erewrite run_bind by exact E2.
    + intros j Hj. rewrite Hm. unfold prefix_words. by zcmp.
Qed.

(** *** Shared pages *)

(** The cache entry behind a shared page, its contents, and whether it exists. *)
Definition shared_page σ (src : page_source) : option Z :=
  match src with
  | Zeroes => None
  | FromFile f off _ => match file_inode f with Some i => mc_file_pages σ !! (i, off) | None => None end
  | FromShm s off => mc_shm_pages σ !! (s, off)
  end.

Definition source_words σ (src : page_source) : Z -> Z :=
  match src with
  | Zeroes => fun _ => 0
  | FromFile f off _ => match file_inode f with Some i => file_words σ i off | None => fun _ => 0 end
  | FromShm s off => shm_words σ s off
  end.

Definition source_exists (src : page_source) : Prop :=
  match src with
  | Zeroes => False
  | FromFile f off _ => exists i, file_inode f = Some i /\ off < inode_size i
  | FromShm s off => off < shm_size s
  end.

(** The handler of a shared page, by source. *)
Definition shared_fault (pt : PageTable) (vpn access perm : Z) (fs : gmap Z Z) (src : page_source) :
    VM A fault_result :=
  match src with
  | Zeroes => mret (Err tt, (pt, fs))
  | FromFile f off _ => map_shared_file Small pt vpn access f off perm fs
  | FromShm s off => map_shared_memory Small pt vpn access s off perm fs
  end.

Definition aligned_source (src : page_source) : Prop :=
  match src with
  | Zeroes => True
  | FromFile _ off _ | FromShm _ off => off mod 4096 = 0
  end.

Lemma shared_fault_ok σ pt vpn access perm fs src :
  mc_ok σ pt -> reg_vpn vpn -> is_perm perm -> (PG_LEVEL <= size (free σ))%nat -> fs !! vpn = None ->
  counts_small σ -> aligned_source src -> source_exists src ->
  exists g n p pt' σ', shared_fault pt vpn access perm fs src σ =
      Ret (Ok tt, (pt', <[vpn := p]> fs), σ') /\
    installed σ σ' pt pt' vpn g perm (contains access WRITE) /\
    (forall j, mc_mem σ' g j = source_words σ src j) /\ shared_page σ' src = Some p /\
    mc_arcs σ' !! p = Some (mkPayload (one g) n) /\ (contains access WRITE = true -> p ∈ mc_dirty σ').
Proof.
  intros Hok Hv Hp Hsz Hfs Hcnt Hal Hex. pose proof wl_levels.
  assert (Hne : free σ <> ∅) by (intros E; rewrite E, size_empty in Hsz; lia).
  destruct src as [|f off ln|s off]; cbn in Hal, Hex; [done| |].
  - destruct Hex as (i & Hi & Hlt).
    destruct (read_page_at_ok σ pt i off Hok Hne Hal Hlt) as (page & g & n & σ2 & E2 & Hr & Hc2).
    pose proof (page_read_small _ _ _ _ _ _ _ Hcnt Hr) as Hn.
    destruct (read_install_ok σ σ2 pt page g n _ vpn perm (contains access WRITE) fs Hr Hn Hv Hp Hsz Hfs)
      as (pt' & σ' & E3 & Hin & Hm & Ha & Hd & Ec & _).
    exists g, (n + 1), page, pt', σ'. cbn [shared_fault shared_page source_words]. rewrite Hi, Ec.
    split; [|done]. unfold map_shared_file. rewrite Hi. by erewrite run_bind by exact E2.
  - destruct (shm_read_page_at_ok σ pt s off Hok Hne Hal Hex) as (page & g & n & σ2 & E2 & Hr & Hc2).
    pose proof (page_read_small _ _ _ _ _ _ _ Hcnt Hr) as Hn.
    destruct (read_install_ok σ σ2 pt page g n _ vpn perm (contains access WRITE) fs Hr Hn Hv Hp Hsz Hfs)
      as (pt' & σ' & E3 & Hin & Hm & Ha & Hd & _ & Es).
    exists g, (n + 1), page, pt', σ'. cbn [shared_fault shared_page source_words]. rewrite Es.
    split; [|done]. unfold map_shared_memory. by erewrite run_bind by exact E2.
Qed.

Lemma shared_fault_eof σ pt vpn access perm fs src :
  aligned_source src -> src <> Zeroes -> ~ source_exists src ->
  shared_fault pt vpn access perm fs src σ = Ret (Err tt, (pt, fs), σ).
Proof.
  intros Hal Hz Hex. destruct src as [|f off ln|s off]; cbn in *; [done| |].
  - unfold map_shared_file. destruct (file_inode f) as [i|]; [|done].
    assert (inode_size i <= off) by (destruct (decide (off < inode_size i)); [destruct Hex; by exists i|lia]).
    by erewrite run_bind by by apply read_page_at_eof.
  - unfold map_shared_memory, shm_read_page_at. destruct (Z.leb_spec (shm_size s) off); [|done].
    rewrite orb_true_r. done.
Qed.

End Machine.

(** ** Claims *)

Section FaultClaims.
Context {C : ConstantsHal} {CL : ConstantsLaws C} {P : PageTableEntryHal} {L : PteLaws C P}.
Context {W : WalkHal} {V : PageLevelHal} {WL : WalkLaws C P L W V}.
Context {A : Type} {F : FrameAllocatorHal A} {FL : FrameAllocatorLaws C A}.
Context {G : GlobalAlloc} {GL : GlobalAllocLaws G} {FS : FileStore}.
Context (Small : PageLevel) (Small_low : lowest Small = true).
Implicit Types σ : Machine A.


(** First touch of a page of a privately mapped file (program text and data,
    MAP_PRIVATE).  Inside the file the page then reads as the file's page cut to
    the area's file part and padded with zeroes.  A write, or a partial page,
    gets a frame of its own with the area's permissions; a full page that is
    only read shares the cached page, without write permission.  Outside the
    file the fault is refused and the frame taken for it goes back. *)
Theorem page_fault_file_private σ pt a vpn access file inode off len :
  mc_ok σ pt -> area_ok a -> in_range vpn (range_vpn a) -> a_offset a mod 4096 = 0 ->
  is_perm (map_perm a) -> (S PG_LEVEL <= size (free σ))%nat -> counts_small σ ->
  can_access access (map_perm a) = true ->
  backing a vpn = FromFile file off len -> (vma_type a = UserMmap -> shared a = false) ->
  file_inode file = Some inode -> frames a !! vpn = None -> page_of σ pt vpn = None ->
  let own := (len <? 4096) || contains access WRITE in
  (off < inode_size inode -> exists g p pt' σ' e,
     handle_page_fault Small a pt vpn access σ = Ret (Ok tt, (pt', <[vpn := p]> (frames a)), σ') /\
     mc_ok σ' pt' /\ keeps σ σ' pt pt' /\ page_of σ' pt' vpn = Some e /\
     pte_view_of e = mkView g (if own then map_perm a else bf_remove (map_perm a) MapPerm_W) true
                       (contains access WRITE) false /\
     (forall v, reg_vpn v -> v <> vpn -> page_of σ' pt' v = page_of σ pt v) /\
     (forall j, 0 <= j < 512 -> mc_mem σ' g j = prefix_words (file_words σ inode off) len j) /\
     if own then g ∈ free σ /\ mc_arcs σ !! p = None /\ mc_arcs σ' !! p = Some (mkPayload (one g) 1)
     else mc_file_pages σ' !! (inode, off) = Some p) /\
  (inode_size inode <= off -> exists fa,
     handle_page_fault Small a pt vpn access σ = Ret (Err tt, (pt, frames a), with_fa σ fa) /\
     fa_free fa = free σ).
Proof.
  intros Hok Ha Hv Hal Hp Hsz Hcnt Hc Hb Hsh Hi Hfs Hpg own.
  pose proof (area_vpn a vpn Ha Hv) as Hvpn.
  pose proof (backing_offset a vpn Hal) as Ho. rewrite Hb in Ho. destruct Ho as [Ho Hlen].
  rewrite (fault_unmapped Small σ pt a vpn access Hok Hvpn Hc Hpg).
  rewrite (lazy_fault_source Small a pt vpn access Ha Hv Hal), Hb.
  assert (E : bool_decide (vma_type a = UserMmap) && shared a = false).
  { destruct (decide (vma_type a = UserMmap)) as [Et|Et];
      [by rewrite (Hsh Et), andb_false_r|by rewrite bool_decide_eq_false_2]. }
  rewrite E. split; intros Hlt.
  - destruct (map_private_file_ok Small Small_low σ pt vpn access file inode off len (map_perm a) (frames a)
      Hok Hvpn Hp Hsz Hfs Hi Ho Hlt Hlen Hcnt)
      as (g & p & pt' & σ' & E' & [Iok Ik (e & Ie & Iv) Io] & Hm & Hcase).
    exists g, p, pt', σ', e. done.
  - assert (Hne : free σ <> ∅) by (intros E0; rewrite E0, size_empty in Hsz; lia).
    unfold map_private_file. rewrite Hi. erewrite run_bind by done.
    destruct (map_private_copy_eof Small Small_low σ pt vpn inode off len (map_perm a)
      (contains access WRITE) (frames a) Hok Hne Hlt) as (fa1 & E1 & _ & Hf1).
    destruct (map_private_copy_eof Small Small_low σ pt vpn inode off PAGE_SIZE (map_perm a)
      true (frames a) Hok Hne Hlt) as (fa2 & E2 & _ & Hf2).
    destruct (len <? PAGE_SIZE); [by exists fa1|]. destruct (contains access WRITE); [by exists fa2|].
    exists (mc_fa σ). split; [|done]. erewrite run_bind by by apply read_page_at_eof. by destruct σ.
Qed.

(** First touch of a shared page, of a file or of a shared-memory object.
    Every mapping gets the one cached page itself, with the area's full
    permissions, and sees its current contents; a write marks it dirty.  Past
    the end of the object the fault is refused and nothing changes. *)
Theorem page_fault_shared σ pt a vpn access :
  mc_ok σ pt -> area_ok a -> in_range vpn (range_vpn a) -> a_offset a mod 4096 = 0 ->
  is_perm (map_perm a) -> (PG_LEVEL <= size (free σ))%nat -> counts_small σ ->
  can_access access (map_perm a) = true -> vma_type a = UserMmap ->
  (file_is_file (a_file a) = true -> shared a = true) -> backing a vpn <> Zeroes ->
  frames a !! vpn = None -> page_of σ pt vpn = None ->
  let src := backing a vpn in
  (source_exists src -> exists g n p pt' σ' e,
     handle_page_fault Small a pt vpn access σ = Ret (Ok tt, (pt', <[vpn := p]> (frames a)), σ') /\
     mc_ok σ' pt' /\ keeps σ σ' pt pt' /\ page_of σ' pt' vpn = Some e /\
     pte_view_of e = mkView g (map_perm a) true (contains access WRITE) false /\
     (forall v, reg_vpn v -> v <> vpn -> page_of σ' pt' v = page_of σ pt v) /\
     (forall j, mc_mem σ' g j = source_words σ src j) /\
     shared_page σ' src = Some p /\ mc_arcs σ' !! p = Some (mkPayload (one g) n) /\
     (contains access WRITE = true -> p ∈ mc_dirty σ')) /\
  (~ source_exists src ->
     handle_page_fault Small a pt vpn access σ = Ret (Err tt, (pt, frames a), σ)).
Proof.
  intros Hok Ha Hv Hal Hp Hsz Hcnt Hc Ht Hsh Hnz Hfs Hpg src.
  pose proof (area_vpn a vpn Ha Hv) as Hvpn.
  assert (Hals : aligned_source src).
  { pose proof (backing_offset a vpn Hal) as Ho. unfold src, aligned_source.
    destruct (backing a vpn); [done|by destruct Ho|done]. }
  rewrite (fault_unmapped Small σ pt a vpn access Hok Hvpn Hc Hpg).
  assert (E : lazy_fault Small a pt vpn access σ =
    shared_fault Small pt vpn access (map_perm a) (frames a) src σ).
  { rewrite (lazy_fault_source Small a pt vpn access Ha Hv Hal). unfold src, shared_fault.
    rewrite Ht, bool_decide_eq_true_2 by done. cbn [andb].
    destruct (backing a vpn) eqn:Eb; [done| |done]. rewrite Hsh; [done|].
    unfold backing in Eb. rewrite Ht in Eb. by destruct (a_file a). }
  rewrite E. split; intros Hex.
  - destruct (shared_fault_ok Small Small_low σ pt vpn access (map_perm a) (frames a) src
      Hok Hvpn Hp Hsz Hfs Hcnt Hals Hex)
      as (g & n & p & pt' & σ' & E' & [Iok Ik (e & Ie & Iv) Io] & Hm & Hs & Hpa & Hd).
    exists g, n, p, pt', σ', e. done.
  - by apply shared_fault_eof.
Qed.

(** C3: a write to a private page mapped without write permission (after a fork,
    or a first read).  If other owners share the frame, the page moves to a new
    frame with the same contents that this area owns alone, and the old frame
    loses one owner but keeps its contents; if not, the page stays.  Either
    way it becomes writable, keeps its other permissions, and no memory in use
    is written except the tables: no other owner can see the write that
    follows. *)
Theorem page_fault_cow σ pt a vpn access e p f n :
  mc_ok σ pt -> reg_vpn vpn -> free σ <> ∅ -> can_access access (map_perm a) = true ->
  contains access WRITE = true -> shared a = false ->
  page_of σ pt vpn = Some e -> v_valid (pte_view_of e) = true -> v_ppn (pte_view_of e) = f ->
  contains (v_perm (pte_view_of e)) MapPerm_W = false ->
  frames a !! vpn = Some p -> mc_arcs σ !! p = Some (mkPayload (one f) n) ->
  exists g p' σ' e',
    handle_page_fault Small a pt vpn access σ = Ret (Ok tt, (pt, <[vpn := p']> (frames a)), σ') /\
    mc_ok σ' pt /\ keeps σ σ' pt pt /\ (forall j, mc_mem σ' g j = mc_mem σ f j) /\
    page_of σ' pt vpn = Some e' /\
    pte_view_of e' = mkView g (bf_insert (v_perm (pte_view_of e)) MapPerm_W) true true
                       (v_cow (pte_view_of e)) /\
    (forall v, reg_vpn v -> v <> vpn -> page_of σ' pt v = page_of σ pt v) /\
    if 1 <? n
    then g ∈ free σ /\ g <> f /\ mc_arcs σ !! p' = None /\
         mc_arcs σ' = <[p' := mkPayload (one g) 1]> (<[p := mkPayload (one f) (n - 1)]> (mc_arcs σ))
    else g = f /\ p' = p /\ mc_arcs σ' = mc_arcs σ.
Proof.
  intros Hok Hv Hfree Hc Hw Hsh Hpg Hval Hppn Hro Hfs Hp.
  destruct (fault_mapped Small σ pt a vpn access e Hok Hv Hc Hpg Hval) as (t & Ht & He & ->).
  rewrite Hw, Hro, Hsh. cbn [negb].
  pose proof (page_entry_wf σ pt vpn e Hok Hv Hpg) as Hwf.
  destruct (mo_arc σ pt Hok p _ Hp) as (f' & Ef & _ & Hff & _). injection Ef as <- _.
  destruct (Z.ltb_spec 1 n).
  - destruct (cow_fault_copy Small Small_low σ pt a vpn t e p f n)
      as (g & p' & σ' & E & (Hok' & Hk & e' & Hpg' & Hv' & Ho) & Hm & Hg & Hp' & Ea); try done.
    exists g, p', σ', e'. split_and!; try done. by intros ->.
  - destruct (cow_fault_sole Small Small_low σ pt a vpn t e p _ Hok Hv Ht He Hwf Hval Hfs Hp ltac:(done))
      as (m' & E & (Hok' & Hk & e' & Hpg' & Hv' & Ho)).
    rewrite Hppn in Hv'. exists f, p, (with_mem σ m'), e'. split_and!; try done.
    intros j. exact (keeps_arc σ _ pt pt p _ j Hok Hk Hp).
Qed.

End FaultClaims.

(** ** A concrete machine *)

Definition demo_files : FileStore := {|
  file_inode f := if f =? 7 then Some 3 else None;
  inode_size _ := 0x3000;
  inode_data _ off j := off + j;
  shm_size _ := 0x2000;
  zero_arc := 1 |}.

Definition demo_arcs : arc_heap Range := {[ 1 := mkPayload (one 0x80200) 1 ]}.

Abbreviation demo_ok := (mc_ok (C := riscv64) (P := rv_pte) (L := rv_laws) (W := rv_walk)
  (FL := small_laws) (FS := demo_files)) (only parsing).
Abbreviation demo_page := (page_of (C := riscv64) (P := rv_pte) (W := rv_walk)) (only parsing).
Abbreviation demo_fault := (handle_page_fault (C := riscv64) (P := rv_pte) (W := rv_walk) (V := rv_level)
  (F := FrameAllocator_hal) (G := set_fresh) (FS := demo_files) rv_Small) (only parsing).

(** A table with nothing mapped, the zero page, and no other counted frame. *)
Lemma demo_machine :
  exists f m a, let pt := mkPT f [mkRange f (f + 1)] in
    let σ := mkMachine m a demo_arcs ∅ ∅ ∅ : Machine (BitMapFrameAllocator (B := set_alloc)) in
    demo_ok σ pt /\ (15 <= size (bm_free a))%nat /\
    (forall v, demo_page σ pt v = None) /\ counts_small σ.
Proof.
  destruct (small_table (fun _ _ => 0)) as (f & m & a & Hi & Hs & Hfr & Hf & Hl & Ht & Hm).
  exists f, m, a. cbv zeta. split; [|split; [exact Hs|split; [exact Hl|]]].
  - constructor; cbn [mc_arcs mc_mem mc_fa mc_file_pages mc_shm_pages root_ppn].
    + exact Hi.
    + intros p x. unfold demo_arcs. rewrite lookup_singleton_Some. intros [<- <-].
      exists 0x80200. split; [done|]. split; [by vm_compute|]. split; [|split; [|by vm_compute]].
      * intros H. apply Hfr, elem_of_frames in H. by destruct H as [H _].
      * intros (q & _ & Hq). apply Ht in Hq. cbn in Hq. subst f. by destruct Hf as [H _].
    + intros p p' x x'. unfold demo_arcs. rewrite !lookup_singleton_Some. by intros [<- _] [<- _].
    + exists 0x80200, 1. split; [done|]. intros j. apply (Hm 0x80200 j).
      intros <-. by destruct Hf as [H _].
    + done.
    + done.
  - intros p x. cbn [mc_arcs]. unfold demo_arcs. rewrite lookup_singleton_Some. intros [<- <-]. by vm_compute.
Qed.

Definition heap_area : UserVmArea := area_new (mkRange 0x20000 0x24000) UserHeap 11.

Lemma heap_area_ok : area_ok (C := riscv64) heap_area.
Proof. constructor; cbn; try (by vm_compute); try lia; by intros k q. Qed.


(** One page and a half of a file, then zeroes. *)
Definition file_area : UserVmArea :=
  mkArea (mkRange 0x10000 0x14000) UserData 15 ∅ (FileFile 7) 0 0x1000 0x1800.

Definition shm_area : UserVmArea :=
  mkArea (mkRange 0x30000 0x32000) UserMmap 11 ∅ (FileShm 5) 1 0 0x2000.

Lemma demo_areas_ok : area_ok (C := riscv64) file_area /\ area_ok (C := riscv64) shm_area.
Proof. split; constructor; cbn; try (by vm_compute); try lia; by intros k q. Qed.

Lemma page_fault_file_private_witness :
  exists m (a : BitMapFrameAllocator (B := set_alloc)) pt g (p : Z) pt' σ',
    demo_fault file_area pt 0x11 READ (mkMachine m a demo_arcs ∅ ∅ ∅) =
      Ret (Ok tt, (pt', {[ 0x11 := p ]}), σ') /\
    mc_mem σ' g 5 = 0x2005 /\ mc_mem σ' g 0x100 = 0.
Proof.
  destruct demo_machine as (f & m & a & Hok & Hs & Hl & Hcnt).
  destruct (page_fault_file_private (C := riscv64) (WL := rv_walk_laws) (FL := small_laws)
    (FS := demo_files) (GL := set_fresh_laws) rv_Small eq_refl _ _ file_area 0x11 READ 7 3 0x2000 0x800
    Hok (proj1 demo_areas_ok)) as [H _];
    [by vm_compute|done|by vm_compute|etransitivity; [|exact Hs]; cbn; lia|exact Hcnt|done|by vm_compute|done|
     done|done|apply Hl|].
  destruct H as (g & p & pt' & σ' & e & E & _ & _ & _ & _ & _ & Hm & _); [by vm_compute|].
  exists m, a, (mkPT f [mkRange f (f + 1)]), g, p, pt', σ'. split; [exact E|].
  split; (rewrite Hm by lia; by vm_compute).
Defined.

Lemma page_fault_shared_witness :
  exists m (a : BitMapFrameAllocator (B := set_alloc)) pt (p : Z) pt' σ',
    demo_fault shm_area pt 0x31 WRITE (mkMachine m a demo_arcs ∅ ∅ ∅) =
      Ret (Ok tt, (pt', {[ 0x31 := p ]}), σ') /\
    mc_shm_pages σ' !! (5, 0x1000) = Some p /\ p ∈ mc_dirty σ'.
Proof.
  destruct demo_machine as (f & m & a & Hok & Hs & Hl & Hcnt).
  destruct (page_fault_shared (C := riscv64) (WL := rv_walk_laws) (FL := small_laws)
    (FS := demo_files) (GL := set_fresh_laws) rv_Small eq_refl _ _ shm_area 0x31 WRITE
    Hok (proj2 demo_areas_ok)) as [H _];
    [by vm_compute|done|by vm_compute|etransitivity; [|exact Hs]; cbn; lia|exact Hcnt|done|done|done|done|done|
     apply Hl|].
  destruct H as (g & n & p & pt' & σ' & e & E & _ & _ & _ & _ & _ & _ & Hp & _ & Hd); [by vm_compute|].
  exists m, a, (mkPT f [mkRange f (f + 1)]), p, pt', σ'.
  split; [exact E|]. split; [exact Hp|]. apply Hd. done.
Defined.

(** The page of the heap after a read fault: it shares the zero page. *)
Lemma demo_read_page :
  exists pt p (σ : Machine (BitMapFrameAllocator (B := set_alloc))) e,
    demo_ok σ pt /\ free (FL := small_laws) σ <> ∅ /\ demo_page σ pt 0x21 = Some e /\
    pte_view_of (PteLaws := rv_laws) e = mkView 0x80200 9 true false false /\
    mc_arcs σ !! p = Some (mkPayload (one 0x80200) 2).
Proof.
  destruct demo_machine as (f & m & a & Hok & Hs & Hl & Hcnt). set (σ := mkMachine m a _ _ _ _) in *.
  destruct (install_page_ok (C := riscv64) (WL := rv_walk_laws) (FL := small_laws) (FS := demo_files)
    (G := set_fresh) (GL := set_fresh_laws) rv_Small eq_refl σ (mkPT f [mkRange f (f + 1)]) 0x21 1 0x80200 1
    9 false ∅ Hok) as (pt' & σ' & _ & [Iok _ (e & Ie & Iv) _] & Ea & _ & _ & _ & Hsz);
    [by vm_compute|done|by vm_compute|by vm_compute|etransitivity; [|exact Hs]; cbn; lia|done|].
  exists pt', 1, σ', e. split; [exact Iok|]. split; [|split; [exact Ie|split; [exact Iv|]]].
  - intros E. rewrite E, size_empty in Hsz. change (free σ) with (bm_free a) in Hsz. cbn in Hsz. lia.
  - rewrite Ea. apply lookup_insert_eq.
Qed.

Definition touched_heap (p : Z) : UserVmArea := with_frames heap_area {[ 0x21 := p ]}.

Lemma page_fault_cow_witness :
  exists pt (p : Z) (σ : Machine (BitMapFrameAllocator (B := set_alloc))) g (p' : Z) σ',
    demo_fault (touched_heap p) pt 0x21 WRITE σ = Ret (Ok tt, (pt, {[ 0x21 := p' ]}), σ') /\
    g <> 0x80200 /\ (forall j, mc_mem σ' g j = mc_mem σ 0x80200 j) /\ p' <> p.
Proof.
  destruct demo_read_page as (pt & p & σ & e & Hok & Hfr & Hpg & Hview & Hp).
  destruct (page_fault_cow (C := riscv64) (WL := rv_walk_laws) (FL := small_laws) (FS := demo_files)
    (GL := set_fresh_laws) rv_Small eq_refl σ pt (touched_heap p) 0x21 WRITE e p 0x80200 2 Hok)
    as (g & p' & σ' & e' & E & _ & _ & Hm & _ & _ & _ & Hc);
    [by vm_compute|exact Hfr|done|done|done|exact Hpg|by rewrite Hview|by rewrite Hview|by rewrite Hview|
     apply lookup_singleton_eq|exact Hp|].
  destruct Hc as (_ & Hg & Hn & _).
  exists pt, p, σ, g, p', σ'. split; [|split; [exact Hg|split; [exact Hm|]]].
  - etransitivity; [exact E|]. unfold touched_heap, with_frames. cbn [frames].
    by rewrite insert_singleton_eq.
  - intros ->. by rewrite Hp in Hn.
Defined.
