(* ===== verification/UserVm.v ===== *)
(** A process's address space (os/src/mm/vm/uvm.rs, first half): its page table,
    its areas in a range map keyed by page number, and the lower end of its
    heap.  Operations run in the machine monad of PageFault and thread the
    address space; loops that are not over a list carry fuel, and running out
    of it is a panic that UserVmProofs shows impossible. *)

From S2P Require Import Prelude HalConst Errno Addr Pte FrameAlloc PageTable RangeMap StrongArc.
From S2P Require Import Vma PageFault.

#[local] Open Scope Z_scope.

Record UserVmSpace := mkUvm {
  page_table : PageTable;
  areas : RangeMap UserVmArea;
  heap_bottom_va : Z;
}.

Definition with_pt (u : UserVmSpace) (pt : PageTable) : UserVmSpace :=
  mkUvm pt (areas u) (heap_bottom_va u).
Definition with_areas (u : UserVmSpace) (m : RangeMap UserVmArea) : UserVmSpace :=
  mkUvm (page_table u) m (heap_bottom_va u).
Definition with_heap (u : UserVmSpace) (va : Z) : UserVmSpace :=
  mkUvm (page_table u) (areas u) va.

(** Assignment through a reference to the value stored under a key. *)
Definition rm_set {V} (m : RangeMap V) (s : Z) (v : V) : RangeMap V :=
  bt_alter s (fun n => mkNode (n_end n) v) m.

(** ** Operations on the areas alone *)

Section Areas.
Context {C : ConstantsHal}.

(** [try_union]: one turn of its loop merges the area at [start] with the next. *)
Fixpoint try_union_loop (fuel : nat) (m : RangeMap UserVmArea) (start end_ : Z) :
    outcome (result unit unit * RangeMap UserVmArea) :=
  match fuel with
  | O => Panic
  | S fuel =>
      if start <? end_ then
        match rm_get m start with
        | None => Ret (Err tt, m)
        | Some vma1 =>
            let new_start := r_end (range_vpn vma1) in
            if end_ <=? new_start then Ret (Ok tt, m)
            else
              match rm_get m new_start with
              | None => Ret (Err tt, m)
              | Some vma2 =>
                  if check_back_contiguous vma1 vma2 then
                    let! r := rm_force_remove_one m (range_vpn vma2) in
                    let '(vma2, m) := r in
                    let! vma1 := unwrap (rm_get m start) in
                    let vma1 := push_back_unchecked vma1 vma2 in
                    let! m := unwrap (rm_get_mut m start (fun _ => vma1)) in
                    let! r := rm_extend_back m (range_vpn vma1) in
                    let m := match r with Ok m => m | Err _ => m end in
                    try_union_loop fuel m new_start end_
                  else Ret (Err tt, m)
              end
        end
      else Ret (Ok tt, m)
  end.

Definition try_union (m : RangeMap UserVmArea) (vpn pg_len : Z) :
    outcome (result unit unit * RangeMap UserVmArea) :=
  try_union_loop (S (Z.to_nat pg_len)) m vpn (VirtPageNum_add vpn pg_len).

Definition check_free (u : UserVmSpace) (va len : Z) : outcome (result unit unit) :=
  rm_is_range_free (areas u)
    (mkRange (VirtAddr_floor va) (VirtAddr_ceil (VirtAddr_add va len))).

(** [get_area_view], [get_area_ref]. *)
Definition get_area_view (u : UserVmSpace) (va : Z) : option UserVmArea :=
  rm_get (areas u) (VirtAddr_floor va).

(** [find_heap]: the heap's lower end moves past the areas of other types. *)
Fixpoint find_heap_loop (fuel : nat) (m : RangeMap UserVmArea) (bottom : Z) : outcome Z :=
  match fuel with
  | O => Panic
  | S fuel =>
      match rm_get m (VirtAddr_floor bottom) with
      | Some area =>
          if bool_decide (vma_type area = UserHeap) then Ret bottom
          else find_heap_loop fuel m (VirtPageNum_start_addr (r_end (range_vpn area)))
      | None => Ret bottom
      end
  end.

Definition find_heap (u : UserVmSpace) : outcome (option UserVmArea * UserVmSpace) :=
  let! bottom := find_heap_loop (S (length (areas u))) (areas u) (heap_bottom_va u) in
  Ret (rm_get (areas u) (VirtAddr_floor bottom), with_heap u bottom).

(** The loop of [access_no_fault] over the pages of one area. *)
Definition pages_no_fault (a : UserVmArea) (from to access : Z) : bool :=
  forallb (fun vpn => access_no_fault a vpn access) (seqZ from (to - from)).

Fixpoint access_no_fault_loop (fuel : nat) (m : RangeMap UserVmArea) (vpn end_ access : Z) :
    outcome bool :=
  match fuel with
  | O => Panic
  | S fuel =>
      if vpn <? end_ then
        match rm_get m vpn with
        | None => Ret false
        | Some area =>
            if pages_no_fault area vpn (Z.min end_ (r_end (range_vpn area))) access
            then access_no_fault_loop fuel m (r_end (range_vpn area)) end_ access
            else Ret false
        end
      else Ret true
  end.

Definition uvm_access_no_fault (u : UserVmSpace) (va len access : Z) : outcome bool :=
  let vpn := VirtAddr_floor va in
  let end_ := VirtAddr_floor (VirtAddr_add va len) in
  access_no_fault_loop (S (Z.to_nat (end_ - vpn))) (areas u) vpn end_ access.

(** Where a mapping of [len] bytes goes: at [va] for MAP_FIXED, at the first gap
    of a window otherwise. *)
Definition mmap_range (u : UserVmSpace) (va len flags : Z) (window : Range) :
    outcome (result Range SysError) :=
  if contains flags MAP_FIXED then
    let range := mkRange (VirtAddr_floor va) (VirtAddr_ceil (VirtAddr_add va len)) in
    let! r := rm_is_range_free (areas u) range in
    Ret (match r with Ok _ => Ok range | Err _ => Err ENOMEM end)
  else
    let! r := rm_find_free_range VirtPageNum_add (areas u)
      (mkRange (VirtAddr_floor (VirtAddr_from (r_start window)))
               (VirtAddr_floor (VirtAddr_from (r_end window)))) (len / PAGE_SIZE) in
    Ret (match r with Some range => Ok range | None => Err ENOMEM end).

(** [(va.page_offset() + len - 1 + PAGE_SIZE) & !(PAGE_SIZE - 1)] *)
Definition mmap_len (va len : Z) : Z :=
  Z.land (wadd (wsub (wadd (VirtAddr_page_offset va) len) 1) PAGE_SIZE) (wnot (PAGE_SIZE - 1)).

Definition range_to_va (r : Range) : Range :=
  mkRange (VirtPageNum_start_addr (r_start r)) (VirtPageNum_start_addr (r_end r)).

End Areas.

(** ** Operations on the machine *)

(** [PhysPageNum::get_mut::<[PageTableEntry; 512]>()[256..].copy_from_slice]: the
    upper half of a root table. *)
Definition mem_copy_upper (m : pmem) (dst src : Z) : pmem :=
  fun p j => if (p =? dst) && (256 <=? j) && (j <? 512) then m src j else m p j.

(** What the kernel's address space gives to a new process. *)
Class KernVmSpaceHal (A : Type) := to_user_table : VM A PageTable.

Section Space.
Context {C : ConstantsHal} {P : PageTableEntryHal} {W : WalkHal} {V : PageLevelHal}.
Context {A : Type} {F : FrameAllocatorHal A} {G : GlobalAlloc} {FS : FileStore}.
Context {K : KernVmSpaceHal A}.
Context (Small : PageLevel).
#[local] Abbreviation vm := (VM A).

(** [PageTable::new_in(0, FrameAllocator)] *)
Definition vm_new_table : vm PageTable := fun σ =>
  let! r := pt_new_in (mc_mem σ) (mc_fa σ) in
  let '(pt, (m, a)) := r in Ret (pt, with_fa (with_mem σ m) a).

Definition uvm_new : vm UserVmSpace :=
  pt ← vm_new_table;
  mret (mkUvm pt rm_new 0).

(** [KernVmSpace::to_user] *)
Definition to_user : vm UserVmSpace :=
  pt ← to_user_table;
  mret (mkUvm pt rm_new 0).

Definition push_area (u : UserVmSpace) (area : UserVmArea) (data : option (list Z)) :
    vm UserVmSpace :=
  r ← vm_lift (rm_try_insert (areas u) (range_vpn area) area);
  match r with
  | Err _ => vm_panic
  | Ok m =>
      area' ← match data with
              | Some d => copy_data area (page_table u) d 0
              | None => mret area
              end;
      pt ← area_map Small area' (page_table u);
      mret (mkUvm pt (rm_set m (r_start (range_vpn area)) area') (heap_bottom_va u))
  end.

Definition heap_perm : Z := bf_insert (bf_insert MapPerm_R MapPerm_W) MapPerm_U.

(** The heap's area once its range in the map has been changed. *)
Definition reset_heap_area (u : UserVmSpace) (range : Range) (new_brk : Z) : vm (Z * UserVmSpace) :=
  h ← vm_lift (find_heap u);
  let u := h.2 in
  heap ← vm_unwrap h.1;
  let store a := vm_unwrap (rm_get_mut (areas u) (VirtAddr_floor (heap_bottom_va u)) (fun _ => a)) in
  if r_end range <=? new_brk then
    m ← store (with_range heap (mkRange (r_start range) new_brk));
    mret (new_brk, with_areas u m)
  else if r_start range <? new_brk then
    let '(heap, cut) := split_off heap (VirtAddr_ceil new_brk) in
    m ← store heap;
    _ ← area_unmap cut (page_table u);
    _ ← area_drop cut;
    mret (new_brk, with_areas u m)
  else mret (r_end range, u).

Definition reset_heap_break (u : UserVmSpace) (new_brk : Z) : vm (Z * UserVmSpace) :=
  h ← vm_lift (find_heap u);
  let u := h.2 in
  match h.1 with
  | None =>
      if heap_bottom_va u <? new_brk then
        u ← push_area u (area_new (mkRange (heap_bottom_va u) new_brk) UserHeap heap_perm) None;
        mret (new_brk, u)
      else mret (heap_bottom_va u, u)
  | Some heap =>
      let range := range_va heap in
      let start := VirtAddr_floor (r_start range) in
      let brk := VirtAddr_ceil new_brk in
      r ← vm_lift
        (if VirtAddr_ceil (r_end range) <? brk then rm_extend_back (areas u) (mkRange start brk)
         else if (start <? brk) && (brk <? VirtAddr_ceil (r_end range))
              then rm_reduce_back (areas u) (mkRange start brk)
              else Ret (Ok (areas u)));
      match r with
      | Err _ => mret (r_end range, u)
      | Ok m => reset_heap_area (with_areas u m) range new_brk
      end
  end.

(** [from_existed], the address space of a forked process: every area is shared
    copy-on-write.  [clone_cow] never fails, so the fallback to a full copy is
    not reached.  The result is the child, with the parent's areas and table
    unchanged as values. *)
Definition from_existed (u : UserVmSpace) : vm UserVmSpace :=
  ret ← to_user;
  vm_fold (fun ret e =>
    new_area ← clone_cow e.2 (page_table u);
    push_area ret new_area None)
    (with_heap ret (heap_bottom_va u)) (rm_iter (areas u)).

(** The mapping's area goes in, once its range is known. *)
Definition push_mmap (u : UserVmSpace) (range : Range) (area : Range -> UserVmArea) :
    vm (result Z SysError * UserVmSpace) :=
  let range_va := range_to_va range in
  u ← push_area u (area range_va) None;
  mret (Ok (r_start range_va), u).

Definition alloc_mmap_area (u : UserVmSpace) (va len perm flags file offset : Z) :
    vm (result Z SysError * UserVmSpace) :=
  if len =? 0 then mret (Err EINVAL, u)
  else
    let len := mmap_len va len in
    r ← vm_lift (mmap_range u va len flags (mkRange USER_FILE_BEG USER_FILE_END));
    match r with
    | Err e => mret (Err e, u)
    | Ok range => push_mmap u range (fun rva => area_new_mmap rva perm flags (FileFile file) offset len)
    end.

Definition alloc_anon_area (u : UserVmSpace) (va len perm flags : Z) (shm : option Z) :
    vm (result Z SysError * UserVmSpace) :=
  if len =? 0 then mret (Err EINVAL, u)
  else if contains flags MAP_SHARED && bool_decide (shm = None) then mret (Err EINVAL, u)
  else
    let len := mmap_len va len in
    let va := VirtPageNum_start_addr (VirtAddr_floor va) in
    r ← vm_lift (mmap_range u va len flags (mkRange USER_SHARE_BEG USER_SHARE_END));
    match r with
    | Err e => mret (Err e, u)
    | Ok range =>
        push_mmap u range (fun rva =>
          match shm with
          | Some shm => area_new_mmap rva perm flags (FileShm shm) 0 len
          | None => area_new_mmap rva perm flags FileNone (r_start rva) len
          end)
    end.

(** The first area [unmap] cuts: the one containing the page, or the first that
    starts inside the range. *)
Definition unmap_front (m : RangeMap UserVmArea) (vpn pg_len : Z) :
    outcome (option (Range * UserVmArea)) :=
  match rm_get_key_value m vpn with
  | Some e => Ret (Some e)
  | None =>
      let! es := rm_range m (mkRange vpn (VirtPageNum_add vpn pg_len)) in
      Ret (head es)
  end.

(** The tail of [unmap]: what lies behind the range is put back. *)
Definition unmap_mid (u : UserVmSpace) (m : RangeMap UserVmArea) (mid : UserVmArea) (end_ : Z) :
    vm (result UserVmArea SysError * UserVmSpace) :=
  r ← (if end_ <? r_end (range_vpn mid) then
         let '(mid, back) := split_off mid end_ in
         if range_is_empty (range_va back) then
           _ ← area_drop back;
           mret (Some (mid, m))
         else
           r ← vm_lift (rm_try_insert m (range_vpn back) back);
           match r with
           | Ok m => mret (Some (mid, m))
           | Err back => _ ← area_drop back; _ ← area_drop mid; mret None
           end
       else mret (Some (mid, m)));
  match r with
  | None => mret (Err EFAULT, with_areas u m)
  | Some (mid, m) =>
      _ ← area_unmap mid (page_table u);
      mret (Ok mid, with_areas u m)
  end.

(** [unmap]: the area cut out is returned, with its frames. *)
Definition uvm_unmap (u : UserVmSpace) (va len : Z) : vm (result UserVmArea SysError * UserVmSpace) :=
  let vpn := VirtAddr_floor va in
  let pg_len := wsub (VirtAddr_ceil (VirtAddr_add va len)) vpn in
  r ← vm_lift (try_union (areas u) vpn pg_len);
  let m := r.2 in
  f ← vm_lift (unmap_front m vpn pg_len);
  match f with
  | None => mret (Err EINVAL, with_areas u m)
  | Some (old_range, area) =>
      let '(front, mid) := split_off area vpn in
      let m := rm_set m (r_start old_range) front in
      let new_range := range_vpn front in
      m ← (if range_is_empty new_range then
             r ← vm_lift (rm_force_remove_one m old_range);
             _ ← area_drop r.1;
             mret r.2
           else
             r ← vm_lift (rm_reduce_back m new_range);
             mret (match r with Ok m => m | Err _ => m end));
      unmap_mid u m mid (VirtPageNum_add vpn pg_len)
  end.

(** The fault handlers change the frames of the area and the table. *)
Definition uvm_handle_page_fault (u : UserVmSpace) (va access : Z) :
    vm (result unit unit * UserVmSpace) :=
  let vpn := VirtAddr_floor va in
  match rm_get_key_value (areas u) vpn with
  | None => mret (Err tt, u)
  | Some (range, area) =>
      r ← handle_page_fault Small area (page_table u) vpn access;
      let '(res, (pt, fs)) := r in
      mret (res, mkUvm pt (rm_set (areas u) (r_start range) (with_frames area fs)) (heap_bottom_va u))
  end.

(** [ensure_access]: the pages of one area are faulted in one by one. *)
Fixpoint ensure_pages (vpns : list Z) (area : UserVmArea) (pt : PageTable) (access : Z) :
    vm (result unit unit * (UserVmArea * PageTable)) :=
  match vpns with
  | [] => mret (Ok tt, (area, pt))
  | vpn :: vpns =>
      if access_no_fault area vpn access then ensure_pages vpns area pt access
      else
        r ← handle_page_fault Small area pt vpn access;
        let '(res, (pt, fs)) := r in
        match res with
        | Ok _ => ensure_pages vpns (with_frames area fs) pt access
        | Err _ => mret (Err tt, (with_frames area fs, pt))
        end
  end.

(** [try_read_user] and [try_write_user] attempt the access on the hardware,
    which checks it against the table: a parameter. *)
Context (probe : PageTable -> Z -> bool -> vm bool).

Fixpoint ensure_access_loop (fuel : nat) (u : UserVmSpace) (vpn end_ access : Z) :
    vm (result unit unit * UserVmSpace) :=
  match fuel with
  | O => vm_panic
  | S fuel =>
      if vpn <? end_ then
        hit ← (if contains access WRITE then probe (page_table u) vpn true
               else if contains access READ then probe (page_table u) vpn false
               else mret false);
        if hit : bool then ensure_access_loop fuel u (VirtPageNum_add vpn 1) end_ access
        else
          match rm_get_key_value (areas u) vpn with
          | None => mret (Err tt, u)
          | Some (range, area) =>
              let to := Z.min end_ (r_end (range_vpn area)) in
              r ← ensure_pages (seqZ vpn (to - vpn)) area (page_table u) access;
              let '(res, (area', pt)) := r in
              let u := mkUvm pt (rm_set (areas u) (r_start range) area') (heap_bottom_va u) in
              match res with
              | Err _ => mret (Err tt, u)
              | Ok _ => ensure_access_loop fuel u (r_end (range_vpn area)) end_ access
              end
          end
      else mret (Ok tt, u)
  end.

Definition ensure_access (u : UserVmSpace) (va len access : Z) : vm (result unit unit * UserVmSpace) :=
  if r_end USER_ADDR_SPACE <=? va then mret (Err tt, u)
  else
    let vpn := VirtAddr_floor va in
    let end_ := VirtAddr_ceil (VirtAddr_add va len) in
    ensure_access_loop (S (Z.to_nat (end_ - vpn))) u vpn end_ access.

Definition uvm_translate_vpn (u : UserVmSpace) (vpn : Z) : vm (option Z) :=
  m ← vm_mem; vm_lift (pt_translate_vpn m (page_table u) vpn).

Definition uvm_translate_va (u : UserVmSpace) (va : Z) : vm (option Z) :=
  m ← vm_mem; vm_lift (pt_translate_va m (page_table u) va).

(** [clear] drops every frame and leaves the table alone. *)
Definition uvm_clear (u : UserVmSpace) : vm UserVmSpace :=
  _ ← vm_fold (fun _ e => area_drop e.2) tt (rm_iter (areas u));
  mret (with_areas u (map (fun e => (e.1, mkNode (n_end e.2) (with_frames (n_value e.2) ∅))) (areas u))).

End Space.

(** ** The two architectures *)

Section Arch.
Context {A : Type} {F : FrameAllocatorHal A}.

(** RISC-V: the upper half of the kernel's root table, whose frame is [kroot]. *)
Definition rv_to_user (kroot : Z) : KernVmSpaceHal A :=
  (pt ← vm_new_table;
   _ ← vm_set_mem (fun m => mem_copy_upper m (root_ppn pt) kroot);
   mret pt)%stdpp.

(** LoongArch: the kernel has its own root register. *)
Definition la_to_user : KernVmSpaceHal A := vm_new_table.

End Arch.
