(* ===== verification/UserVmProofs.v ===== *)
(** The address space: what its operations do to the areas, page by page, and to
    the page table.  [space_info] is the abstract address space: for each page,
    the kind, permissions, flags and backing of its mapping and the frame it
    holds, whatever areas the mappings are cut into.  [uvm_ok] ties the areas to
    the page table. *)

From S2P Require Import Prelude HalConst Errno Addr Pte FrameAlloc PageTable RangeMap StrongArc.
From S2P Require Import Vma PageFault FaultProofs UserVm.

#[local] Open Scope Z_scope.
#[local] Existing Instance user_region.

(** ** Replacing the value of an entry *)

Section RangeMapFacts.
Context {X : Type}.
Implicit Types m : RangeMap X.

Lemma rm_get_at lo m k : rm_ok lo m -> rm_get m k = snd <$> rm_at m k.
Proof.
  intros Hm. rewrite <- (rm_get_key_value_at lo m k Hm). unfold rm_get, rm_get_key_value.
  destruct (bt_last_le k m) as [[s n]|]; [|done]. by destruct (k <? n_end n).
Qed.

Lemma rm_set_spec lo m k r x y :
  rm_ok lo m -> rm_at m k = Some (r, x) ->
  rm_ok lo (rm_set m (r_start r) y) /\
  forall k', rm_at (rm_set m (r_start r) y) k' =
    if (r_start r <=? k') && (k' <? r_end r) then Some (r, y) else rm_at m k'.
Proof.
  intros Hm Hk. pose proof (bt_get_at lo m r x k Hm Hk) as Hg.
  destruct (rm_get_split lo m _ _ Hm Hg) as (m1 & m2 & -> & Hd & _). cbn [n_end n_value] in *.
  unfold rm_set. rewrite bt_alter_mid by done. cbn [n_end].
  destruct (rm_ok_mid lo m1 _ _ _ Hm) as (H1 & H2 & H3 & _). cbn [n_end] in *.
  destruct (rm_replace_spec lo m1 (r_start r) (mkNode (r_end r) x) m2 (r_end r) y Hm) as [Hok Hat]; [lia| |].
  { intros s n Hin. by apply (rm_ok_starts _ _ H3 (s, n)). }
  split; [done|]. intros k'. rewrite Hat, (rm_at_mid lo m1 _ _ m2 k' Hm). cbn [n_end n_value].
  destruct r as [s e]. cbn [r_start r_end] in *. zcmp; done.
Qed.

(** [get_mut] followed by an assignment. *)
Lemma rm_get_mut_set lo m k r x (f : X -> X) :
  rm_ok lo m -> rm_at m k = Some (r, x) -> rm_get_mut m k f = Some (rm_set m (r_start r) (f x)).
Proof.
  intros Hm Hk. pose proof (rm_get_key_value_at lo m k Hm) as E. rewrite Hk in E.
  unfold rm_get_key_value in E. unfold rm_get_mut.
  destruct (bt_last_le k m) as [[s n]|] eqn:El; [|done]. destruct (k <? n_end n); [|done].
  injection E as <- <-. f_equal. unfold rm_set. cbn [r_start].
  pose proof (bt_get_at lo m (mkRange s (n_end n)) (n_value n) k Hm Hk) as Hg. cbn [r_start r_end] in Hg.
  destruct (rm_get_split lo m _ _ Hm Hg) as (m1 & m2 & -> & Hd & _).
  rewrite !bt_alter_mid by done. done.
Qed.

Lemma rm_force_remove_spec lo m k r x :
  rm_ok lo m -> rm_at m k = Some (r, x) ->
  exists m', rm_force_remove_one m r = Ret (x, m') /\ rm_ok lo m' /\
    forall k', rm_at m' k' = if (r_start r <=? k') && (k' <? r_end r) then None else rm_at m k'.
Proof.
  intros Hm Hk. pose proof (bt_get_at lo m r x k Hm Hk) as Hg.
  destruct (rm_get_split lo m _ _ Hm Hg) as (m1 & m2 & Em & Hd & _).
  unfold rm_force_remove_one. rewrite Hg. cbn [unwrap obind n_end n_value]. rewrite Z.eqb_refl.
  cbn [guard_panic]. eexists. split; [done|]. subst m. rewrite bt_remove_mid by done.
  destruct (rm_remove_spec lo m1 _ _ m2 Hm) as [Hok Hat]. done.
Qed.

End RangeMapFacts.

(** ** The areas, page by page *)

Section Areas.
Context {C : ConstantsHal} {CL : ConstantsLaws C}.
Implicit Types m : RangeMap UserVmArea.

Record space_ok m : Prop := {
  so_map : rm_ok 0 m;
  so_area k r a : rm_at m k = Some (r, a) -> area_ok a /\ range_vpn a = r;
}.

Definition page_info (a : UserVmArea) (v : Z) :
    UserVmAreaType * Z * Z * page_source * option Z :=
  (vma_type a, map_perm a, map_flags a, backing a v, frames a !! v).

Definition space_info m (v : Z) : option (UserVmAreaType * Z * Z * page_source * option Z) :=
  (fun e => page_info e.2 v) <$> rm_at m v.

(** The file part of an area fills its pages, as [alloc_mmap_area] makes it. *)
Definition full (a : UserVmArea) : Prop :=
  a_len a = (r_end (range_vpn a) - r_start (range_vpn a)) * 4096.

(** Merging the areas that end inside [lo, hi) keeps what backs their pages: one
    that the next area continues is filled by its file part. *)
Definition mergeable m (lo hi : Z) : Prop :=
  forall k r a r' b, lo <= k < hi -> rm_at m k = Some (r, a) -> r_end r < hi ->
    rm_at m (r_end r) = Some (r', b) -> check_back_contiguous a b = true -> full a.

Lemma space_at m k r a :
  space_ok m -> rm_at m k = Some (r, a) ->
  area_ok a /\ range_vpn a = r /\ 0 <= r_start r <= k /\ k < r_end r < user_pages.
Proof.
  intros [Hm Ha] E. destruct (Ha _ _ _ E) as [Hok Hr]. pose proof (rm_at_range _ _ _ _ _ Hm E).
  destruct (area_pages a Hok) as (_ & _ & Hu & _). rewrite Hr in Hu. split_and!; try done; lia.
Qed.

(** Looking at a point inside an entry finds the entry. *)
Lemma rm_at_same {X} lo (m : RangeMap X) k k' r x :
  rm_ok lo m -> rm_at m k = Some (r, x) -> r_start r <= k' < r_end r -> rm_at m k' = Some (r, x).
Proof.
  intros Hm Hk Hr. pose proof (bt_get_at lo m r x k Hm Hk) as Hg.
  destruct (rm_get_split lo m _ _ Hm Hg) as (m1 & m2 & -> & _).
  erewrite rm_at_some_in; [|done|apply elem_of_app; right; left|done]. by destruct r.
Qed.

(** One merge of [try_union]: [a] and [b] meet and become [c]. *)
Lemma union_step m k ra a rb b :
  space_ok m -> rm_at m k = Some (ra, a) -> rm_at m (r_end ra) = Some (rb, b) ->
  check_back_contiguous a b = true -> full a ->
  exists m1 m2, rm_force_remove_one m (range_vpn b) = Ret (b, m1) /\ rm_get m1 k = Some a /\
    let c := push_back_unchecked a b in
    rm_get_mut m1 k (fun _ => c) = Some (rm_set m1 (r_start ra) c) /\
    rm_extend_back (rm_set m1 (r_start ra) c) (range_vpn c) = Ret (Ok m2) /\ space_ok m2 /\
    range_vpn c = mkRange (r_start ra) (r_end rb) /\
    (forall v, rm_at m2 v = if (r_start ra <=? v) && (v <? r_end rb) then Some (range_vpn c, c)
                            else rm_at m v) /\
    (forall v, space_info m2 v = space_info m v).
Proof.
  intros Hs Ea Eb Hc Hf. pose proof (so_map m Hs) as Hm.
  destruct (space_at m k ra a Hs Ea) as (Hoka & Hra & Hka & Hka2).
  destruct (space_at m _ rb b Hs Eb) as (Hokb & Hrb & Hkb & Hlt).
  destruct (push_back_ok a b Hoka Hokb Hc Hf) as (Hokc & Hmeet & Hrc). rewrite Hra, Hrb in Hmeet, Hrc.
  destruct (rm_force_remove_spec 0 m _ rb b Hm Eb) as (m1 & E1 & Hm1 & A1).
  assert (K1 : rm_at m1 k = Some (ra, a)) by (rewrite A1; zcmp; done).
  set (c := push_back_unchecked a b) in *.
  destruct (rm_set_spec 0 m1 k ra a c Hm1 K1) as [Hm2 A2].
  assert (G2 : bt_get (r_start ra) (rm_set m1 (r_start ra) c) = Some (mkNode (r_end ra) c)).
  { apply (bt_get_at 0 _ ra c k Hm2). rewrite A2. zcmp; done. }
  destruct (rm_extend_back_spec 0 _ _ _ (r_end rb) Hm2 G2) as [(_ & _ & m2 & E2 & Hm3 & A3)|[[Hle|Hnf] _]].
  2:{ cbn [n_end] in Hle. lia. }
  2:{ exfalso. apply Hnf. intros v Hv. cbn [n_end] in Hv. rewrite A2, A1. zcmp; cbn [andb]; done || lia. }
  cbn [n_value] in A3.
  assert (A : forall v, rm_at m2 v = if (r_start ra <=? v) && (v <? r_end rb)
    then Some (mkRange (r_start ra) (r_end rb), c) else rm_at m v).
  { intros v. rewrite A3, A2, A1. zcmp; cbn [andb]; done || lia. }
  exists m1, m2. rewrite Hrb. split; [done|]. split; [by rewrite (rm_get_at 0), K1|]. cbv zeta.
  rewrite (rm_get_mut_set 0 m1 k ra a) by done. rewrite Hrc. split; [done|]. split; [done|].
  split; [|split; [done|split; [done|]]].
  - constructor; [done|]. intros v r x. rewrite A. destruct (_ && _); [intros [= <- <-]; done|].
    apply (so_area m Hs).
  - destruct (push_back_pages a b Hoka Hokb Hc Hf) as (c' & Ec & _ & _ & Pa & Pb).
    unfold push_back in Ec. rewrite Hc in Ec. cbn [negb] in Ec. injection Ec as <-. fold c in Pa, Pb.
    destruct (contiguous_spec a b Hc) as (_ & Et & Ep & Efl & _ & _).
    intros v. unfold space_info. rewrite A.
    destruct (Z.leb_spec (r_start ra) v); [|done]. destruct (Z.ltb_spec v (r_end rb)); [|done]. cbn [andb].
    destruct (decide (v < r_end ra)).
    + rewrite (rm_at_same 0 m k v ra a) by (done || lia). cbn. unfold page_info.
      destruct (Pa v) as [-> ->]; [rewrite Hra; unfold in_range; lia|]. done.
    + rewrite (rm_at_same 0 m (r_end ra) v rb b) by (done || lia). cbn. unfold page_info.
      destruct (Pb v) as [-> ->]; [rewrite Hrb; unfold in_range; lia|].
      change (vma_type c) with (vma_type a). change (map_perm c) with (map_perm a).
      change (map_flags c) with (map_flags a). by rewrite Et, Ep, Efl.
Qed.

(** What merging keeps: every page's info; areas only grow. *)
Record merged m m' : Prop := {
  mg_ok : space_ok m';
  mg_info v : space_info m' v = space_info m v;
  mg_grow k r a : rm_at m k = Some (r, a) ->
    exists r' a', rm_at m' k = Some (r', a') /\ r_start r' <= r_start r /\ r_end r <= r_end r';
  mg_from k r a : rm_at m' k = Some (r, a) ->
    exists k' r' a', rm_at m k' = Some (r', a') /\ map_perm a = map_perm a' /\ a_offset a = a_offset a';
}.

Lemma merged_refl m : space_ok m -> merged m m.
Proof.
  intros Hs. constructor; [done..| |]; intros k r a E.
  - exists r, a. split; [done|lia].
  - by exists k, r, a.
Qed.

Lemma merged_trans m1 m2 m3 : merged m1 m2 -> merged m2 m3 -> merged m1 m3.
Proof.
  intros [O1 I1 G1 F1] [O2 I2 G2 F2]. constructor; [done| | |].
  - intros v. by rewrite I2.
  - intros k r a E. destruct (G1 k r a E) as (r' & a' & E' & ? & ?).
    destruct (G2 k r' a' E') as (r'' & a'' & E'' & ? & ?). exists r'', a''. split; [done|lia].
  - intros k r a E. destruct (F2 k r a E) as (k' & r' & a' & E' & ? & ?).
    destruct (F1 k' r' a' E') as (k'' & r'' & a'' & E'' & ? & ?). exists k'', r'', a''.
    split; [done|]. split; congruence.
Qed.

(** What continues a merged area continues its second part, and the merged area
    is as full as its parts. *)
Lemma merged_contiguous a b y :
  check_back_contiguous a b = true -> check_back_contiguous (push_back_unchecked a b) y = check_back_contiguous b y.
Proof.
  intros Hc. destruct (contiguous_spec a b Hc) as (Hm & Et & Ep & Efl & Ef & Eo). unfold check_back_contiguous.
  cbn [push_back_unchecked range_va r_end vma_type map_perm map_flags a_file a_offset a_len].
  rewrite Et, Ep, Efl, Ef. do 5 (destruct (negb _); [done|]). rewrite <- Eo, wadd_assoc. done.
Qed.

Lemma full_merge a b :
  area_ok a -> area_ok b -> check_back_contiguous a b = true -> full a -> full b -> full (push_back_unchecked a b).
Proof.
  intros Hoka Hokb Hc Hfa Hfb. destruct (push_back_ok a b Hoka Hokb Hc Hfa) as (_ & Hmeet & Hrc).
  unfold full in *. rewrite Hrc. cbn [r_start r_end push_back_unchecked a_len].
  destruct (area_pages a Hoka) as (_ & ? & ? & _), (area_pages b Hokb) as (_ & ? & ? & _).
  destruct user_half as (_ & ? & _ & ?). rewrite wadd_small by (unfold is_usize; lia). lia.
Qed.

(** [try_union] terminates within its fuel, never panics, and only merges. *)
Lemma try_union_loop_ok fuel m start end_ :
  space_ok m -> (Z.to_nat (end_ - start) < fuel)%nat -> mergeable m start end_ ->
  exists res m', try_union_loop fuel m start end_ = Ret (res, m') /\ merged m m' /\
    mergeable m' start end_ /\ (rm_at m start = None -> m' = m).
Proof.
  revert m start. induction fuel as [|fuel IH]; intros m start Hs Hfuel Hmg; [lia|].
  cbn [try_union_loop]. destruct (Z.ltb_spec start end_).
  2:{ do 2 eexists. split; [done|]. split; [by apply merged_refl|done]. }
  rewrite (rm_get_at 0) by apply Hs.
  destruct (rm_at m start) as [[ra a]|] eqn:Ea; cbn [fmap option_fmap option_map snd].
  2:{ do 2 eexists. split; [done|]. split; [by apply merged_refl|done]. }
  destruct (space_at m start ra a Hs Ea) as (Hoka & Hra & Hka & Hkb). rewrite Hra.
  destruct (Z.leb_spec end_ (r_end ra)).
  { do 2 eexists. split; [done|]. split; [by apply merged_refl|done]. }
  rewrite (rm_get_at 0) by apply Hs.
  destruct (rm_at m (r_end ra)) as [[rb b]|] eqn:Eb; cbn [fmap option_fmap option_map snd].
  2:{ do 2 eexists. split; [done|]. split; [by apply merged_refl|done]. }
  destruct (check_back_contiguous a b) eqn:Hc.
  2:{ do 2 eexists. split; [done|]. split; [by apply merged_refl|done]. }
  assert (Hfa : full a) by (apply (Hmg start ra a rb b); (done || lia)).
  destruct (union_step m start ra a rb b Hs Ea Eb Hc Hfa)
    as (m1 & m2 & E1 & E2 & E3 & E4 & Hs2 & Hrc & A2 & I2). cbv zeta in E3, E4.
  rewrite E1. cbn [obind]. rewrite E2. cbn [unwrap obind]. rewrite E3. cbn [unwrap obind].
  rewrite E4. cbn [obind].
  destruct (space_at m _ rb b Hs Eb) as (Hokb & Hrb & Hkb2 & Hlt).
  destruct (push_back_ok a b Hoka Hokb Hc Hfa) as (_ & Hmeet & _). rewrite Hra, Hrb in Hmeet.
  destruct (IH m2 (r_end ra)) as (res & m' & E & Hmrg & Hmg' & _); [done|lia| |].
  { intros k r x r' y Hk. rewrite A2. destruct (Z.leb_spec (r_start ra) k); cbn [andb]; [|lia].
    destruct (Z.ltb_spec k (r_end rb)).
    - intros [= <- <-] Hend. rewrite Hrc in *. cbn [r_end] in Hend |- *. rewrite A2.
      destruct (Z.ltb_spec (r_end rb) (r_end rb)); [lia|]. rewrite andb_false_r. intros Ey Hcy.
      rewrite (merged_contiguous a b y Hc) in Hcy.
      pose proof (Hmg (r_end ra) rb b r' y ltac:(lia) Eb Hend Ey Hcy) as Hfb.
      by apply full_merge; rewrite ?Hra, ?Hrb.
    - intros Hr Hend. pose proof (rm_at_range _ _ _ _ _ (so_map m Hs) Hr). rewrite A2.
      destruct (Z.ltb_spec (r_end r) (r_end rb)); [lia|]. rewrite andb_false_r. apply (Hmg k r x); (done || lia). }
  exists res, m'. split; [done|]. split; [|split; [|congruence]].
  2:{ intros k r x r' y Hk Ex Hend. destruct (decide (r_end ra <= k)); [apply (Hmg' k r); (done || lia)|].
      destruct (mg_grow _ _ Hmrg k (range_vpn (push_back_unchecked a b)) (push_back_unchecked a b))
        as (r1 & x1 & E1' & Hr1 & Hr2).
      { rewrite A2. destruct (Z.leb_spec (r_start ra) k); [|lia]. by destruct (Z.ltb_spec k (r_end rb)); [|lia]. }
      rewrite Ex in E1'. injection E1' as <- <-. rewrite Hrc in Hr1, Hr2. cbn [r_start r_end] in Hr1, Hr2.
      apply (Hmg' (r_end ra) r); [lia| |done]. apply (rm_at_same 0 _ k); [apply Hmrg|done|lia]. }
  eapply merged_trans; [|exact Hmrg]. constructor; [done|done| |].
  2:{ intros k r x. rewrite A2. destruct (_ && _); [|intros; by exists k, r, x].
      intros [= <- <-]. by exists start, ra, a. }
  intros k r x Hk. rewrite A2. destruct ((r_start ra <=? k) && (k <? r_end rb)) eqn:Hin.
  - apply andb_prop in Hin as [H1 H2]. apply Z.leb_le in H1. apply Z.ltb_lt in H2.
    do 2 eexists. split; [done|]. rewrite Hrc. cbn [r_start r_end].
    destruct (decide (k < r_end ra)).
    + rewrite (rm_at_same 0 m start k ra a) in Hk by (apply Hs || done || lia). injection Hk as <- <-. lia.
    + rewrite (rm_at_same 0 m (r_end ra) k rb b) in Hk by (apply Hs || done || lia). injection Hk as <- <-. lia.
  - exists r, x. split; [done|lia].
Qed.

(** Cutting the area at a page: what stays in front. *)
Lemma cut_front m vpn r a front mid :
  space_ok m -> rm_at m vpn = Some (r, a) -> split_off a vpn = (front, mid) ->
  let m1 := rm_set m (r_start r) front in
  exists m2,
    (if range_is_empty (range_vpn front)
     then rm_force_remove_one m1 r = Ret (front, m2) /\ frames front = ∅
     else rm_reduce_back m1 (range_vpn front) = Ret (Ok m2)) /\
    space_ok m2 /\
    forall k, rm_at m2 k =
      if (r_start r <=? k) && (k <? vpn) then Some (mkRange (r_start r) vpn, front)
      else if (vpn <=? k) && (k <? r_end r) then None else rm_at m k.
Proof.
  intros Hs Ea Esp m1. destruct (space_at m vpn r a Hs Ea) as (Hok & Hr & Hk1 & Hk2).
  destruct (rm_set_spec 0 m vpn r a front (so_map m Hs) Ea) as [Hm1 A1]. fold m1 in Hm1, A1.
  assert (K1 : rm_at m1 vpn = Some (r, front)) by (rewrite A1; by zcmp).
  destruct (split_off_ok a vpn front mid Hok) as (_ & _ & Hf & Hempty); [rewrite Hr; lia|done|].
  rewrite Hr in Hf, Hempty.
  destruct (decide (vpn = r_start r)) as [Ev|Hne].
  - destruct (rm_force_remove_spec 0 m1 vpn r front Hm1 K1) as (m2 & E2 & Hm2 & A2).
    assert (A : forall k, rm_at m2 k = if (r_start r <=? k) && (k <? vpn)
      then Some (mkRange (r_start r) vpn, front)
      else if (vpn <=? k) && (k <? r_end r) then None else rm_at m k).
    { intros k. rewrite A2, A1. zcmp; cbn [andb]; done || lia. }
    exists m2. rewrite (Hempty Ev). split; [split; [done|]|split; [|done]].
    + apply map_empty. intros k. destruct (split_off_frames a vpn front mid k Esp) as [-> _].
      destruct (Z.ltb_spec k vpn); [|done]. destruct (frames a !! k) eqn:Ek; [|done].
      apply (ao_frames a Hok) in Ek. rewrite Hr in Ek. unfold in_range in Ek. lia.
    + constructor; [done|]. intros k r' x. rewrite A. zcmp; cbn [andb]; try done; apply (so_area m Hs).
  - destruct (Hf ltac:(lia)) as [Hrf Hokf]. rewrite Hrf.
    assert (Ee : range_is_empty (mkRange (r_start r) vpn) = false)
      by (unfold range_is_empty; cbn [r_start r_end]; zcmp; done).
    rewrite Ee. pose proof (bt_get_at 0 m1 r front vpn Hm1 K1) as G1.
    pose proof (rm_reduce_back_spec 0 m1 (r_start r) _ vpn Hm1 G1) as Hrb. cbn [n_end n_value] in Hrb.
    destruct (Z.leb_spec (r_start r) vpn); [|lia]. destruct (Z.ltb_spec vpn (r_end r)); [|lia].
    destruct Hrb as (m2 & E2 & Hm2 & A2).
    assert (A : forall k, rm_at m2 k = if (r_start r <=? k) && (k <? vpn)
      then Some (mkRange (r_start r) vpn, front)
      else if (vpn <=? k) && (k <? r_end r) then None else rm_at m k).
    { intros k. rewrite A2, A1. zcmp; cbn [andb]; done || lia. }
    exists m2. split; [done|]. split; [|done]. constructor; [done|]. intros k r' x. rewrite A.
    destruct (_ && _); [intros [= <- <-]; done|]. destruct (_ && _); [done|]. apply (so_area m Hs).
Qed.

(** Putting back what lies behind the cut. *)
Lemma insert_back m back r :
  space_ok m -> area_ok back -> range_vpn back = r -> rm_free m (r_start r) (r_end r) ->
  exists m', rm_try_insert m r back = Ret (Ok m') /\ space_ok m' /\
    forall k, rm_at m' k = if (r_start r <=? k) && (k <? r_end r) then Some (r, back) else rm_at m k.
Proof.
  intros Hs Hok <- Hfree. destruct (area_pages back Hok) as (_ & Hp & _).
  destruct (rm_try_insert_spec 0 m (range_vpn back) back (so_map m Hs) Hp) as [(m' & E & Hm' & _ & A)|[_ Hn]];
    [|done].
  exists m'. split; [done|]. split; [|done]. constructor; [done|]. intros k r x. rewrite A.
  destruct (_ && _); [intros [= <- <-]; done|]. apply (so_area m Hs).
Qed.

End Areas.

(** ** The address space *)

Section Space.
Context {C : ConstantsHal} {CL : ConstantsLaws C} {P : PageTableEntryHal} {L : PteLaws C P}.
Context {W : WalkHal} {V : PageLevelHal} {WL : WalkLaws C P L W V}.
Context {A : Type} {F : FrameAllocatorHal A} {FL : FrameAllocatorLaws C A}.
Context {G : GlobalAlloc} {GL : GlobalAllocLaws G} {FS : FileStore}.
Context (Small : PageLevel) (Small_low : lowest Small = true).
Implicit Types (σ : Machine A) (u : UserVmSpace).

(** What the table shows of a page of an area: nothing if the area holds no frame
    for it; otherwise the frame, with the area's permissions except that writing
    may be held back. *)
Definition shows σ (pt : PageTable) (a : UserVmArea) (v : Z) : Prop :=
  match frames a !! v with
  | Some p => exists e f n, page_of σ pt v = Some e /\ mc_arcs σ !! p = Some (mkPayload (one f) n) /\
      v_valid (pte_view_of e) = true /\ v_ppn (pte_view_of e) = f /\
      (v_perm (pte_view_of e) = map_perm a \/ v_perm (pte_view_of e) = bf_remove (map_perm a) MapPerm_W)
  | None => page_of σ pt v = None
  end.

Definition area_wf (a : UserVmArea) : Prop := is_perm (map_perm a) /\ a_offset a mod 4096 = 0.

Record uvm_ok σ u : Prop := {
  uv_mc : mc_ok σ (page_table u);
  uv_space : space_ok (areas u);
  uv_wf k r a : rm_at (areas u) k = Some (r, a) -> area_wf a;
  uv_page v : reg_vpn v ->
    match rm_at (areas u) v with
    | Some (_, a) => shows σ (page_table u) a v
    | None => page_of σ (page_table u) v = None
    end;
}.

(** *** Removing pages from the table *)

Lemma vm_unmap_ok σ pt vpn :
  mc_ok σ pt -> reg_vpn vpn ->
  exists m, let σ' := with_mem σ m in
    vm_unmap pt vpn σ = Ret (tt, σ') /\ mc_ok σ' pt /\ keeps σ σ' pt pt /\
    forall v, reg_vpn v -> page_of σ' pt v = if v =? vpn then None else page_of σ pt v.
Proof.
  intros Hok Hv. pose proof (mo_pt σ pt Hok) as Hinv.
  destruct (pt_unmap_spec _ _ pt vpn Hinv Hv) as (r & m & E & _ & Hinv' & Hl & Hwk & Hm).
  exists m. cbv zeta. unfold vm_unmap. rewrite E. cbn [obind snd]. split; [done|].
  assert (Htab : forall w, tables (with_mem σ m) pt w <-> tables σ pt w).
  { intros w. split; intros (q & Hq & Ew); exists q; (split; [done|]).
    - by rewrite <- Hwk.
    - cbn [mc_mem with_mem]. by rewrite Hwk. }
  assert (Hmem : forall w k, ~ own σ pt w -> m w k = mc_mem σ w k).
  { intros w k Hw. destruct (Hm w k) as [|Ew]; [done|]. destruct Hw. exists (dir_path vpn).
    split; [by apply dir_node|]. split; [by apply (prefix_own _ vpn)|done]. }
  split; [|split; [|exact Hl]].
  - destruct Hok as [_ Ha Hi (z & n & Hz & Hz0) Hc Hs]. constructor; try done.
    + intros p x Hx. destruct (Ha p x Hx) as (f & ? & ? & ? & Hf & ?). exists f.
      do 3 (split; [done|]). by rewrite Htab.
    + exists z, n. split; [done|]. intros j. destruct (Ha _ _ Hz) as (f & Ef & _ & _ & Hf & _).
      injection Ef as <-. cbn [mc_mem with_mem]. rewrite Hmem; [done|]. by intros ?%own_table.
  - constructor; try done; [auto| | |].
    + intros w. rewrite Htab. by left.
    + intros w Hw. left. by apply (own_walk _ _ _ Hwk).
    + intros q w Hq Eq. cbn [mc_mem with_mem]. by rewrite Hwk.
Qed.

Lemma unmap_list_ok σ pt (l : list (Z * Z)) :
  mc_ok σ pt -> (forall e, e ∈ l -> reg_vpn e.1) ->
  exists m, let σ' := with_mem σ m in
    vm_fold (fun _ e => vm_unmap pt e.1) tt l σ = Ret (tt, σ') /\ mc_ok σ' pt /\ keeps σ σ' pt pt /\
    forall v, reg_vpn v -> page_of σ' pt v =
      if bool_decide (v ∈ l.*1) then None else page_of σ pt v.
Proof.
  revert σ. induction l as [|[k p] l IH]; intros σ Hok Hl.
  { exists (mc_mem σ). cbv zeta. destruct σ. split; [done|]. split; [done|].
    split; [apply (keeps_refl (mkMachine _ _ _ _ _ _))|].
    intros v _. by rewrite bool_decide_eq_false_2 by apply not_elem_of_nil. }
  destruct (vm_unmap_ok σ pt k Hok) as (m1 & E1 & Hok1 & Hk1 & Hl1); [by apply (Hl (k, p)); left|].
  destruct (IH _ Hok1) as (m2 & E2 & Hok2 & Hk2 & Hl2); [intros e He; apply Hl; by right|].
  exists m2. cbv zeta. cbn [vm_fold]. split; [by erewrite run_bind by exact E1|].
  split; [exact Hok2|]. split; [by eapply keeps_trans|].
  intros v Hv. cbn [fmap list_fmap fst]. etransitivity; [by apply Hl2|]. rewrite Hl1 by done.
  destruct (decide (v ∈ l.*1)) as [Hin|Hin].
  - rewrite !bool_decide_eq_true_2; [done|by right|done].
  - rewrite (bool_decide_eq_false_2 (v ∈ l.*1)) by done. destruct (Z.eqb_spec v k) as [->|Hne].
    + by rewrite bool_decide_eq_true_2 by left.
    + by rewrite bool_decide_eq_false_2 by (rewrite elem_of_cons; tauto).
Qed.

Lemma area_unmap_ok σ pt a :
  mc_ok σ pt -> area_ok a ->
  exists m, let σ' := with_mem σ m in
    area_unmap a pt σ = Ret (tt, σ') /\ mc_ok σ' pt /\ keeps σ σ' pt pt /\
    forall v, reg_vpn v -> page_of σ' pt v =
      match frames a !! v with Some _ => None | None => page_of σ pt v end.
Proof.
  intros Hok Ha. destruct (unmap_list_ok σ pt (bt_iter (frames a)) Hok) as (m & E & Hok' & Hk & Hl).
  { intros [k p] Hin. apply elem_of_bt_iter, (ao_frames a Ha), (area_vpn a k Ha) in Hin. done. }
  exists m. cbv zeta. split; [exact E|]. split; [done|]. split; [done|]. intros v Hv.
  rewrite Hl by done. destruct (frames a !! v) as [p|] eqn:Ef.
  - rewrite bool_decide_eq_true_2; [done|]. apply list_elem_of_fmap. exists (v, p).
    split; [done|]. by apply elem_of_bt_iter.
  - rewrite bool_decide_eq_false_2; [done|]. intros ([k p] & -> & Hin)%list_elem_of_fmap.
    apply elem_of_bt_iter in Hin. cbn in Ef. congruence.
Qed.

(** *** User addresses *)

Lemma user_vpn_add v k : 0 <= v -> 0 <= k -> v + k < user_pages -> VirtPageNum_add v k = v + k.
Proof.
  intros Hv Hk Hs. destruct user_half as (_ & ? & E & ?). unfold VirtPageNum_add, VirtPageNum_from.
  rewrite wadd_small by (unfold is_usize; lia). pose proof vpn_width_range.
  rewrite mask_mod by lia. apply Z.mod_small. lia.
Qed.

Lemma user_va_add x k : 0 <= x -> 0 <= k -> x + k < user_pages * 4096 -> VirtAddr_add x k = x + k.
Proof.
  intros Hx Hk Hs. destruct user_half as (E & ? & _ & ?). unfold VirtAddr_add.
  rewrite wadd_small by (unfold is_usize; lia). apply VirtAddr_from_id. left. lia.
Qed.

(** The pages of a byte range of the user half. *)
Lemma user_span va len :
  0 <= va -> 0 < len -> va + len <= (user_pages - 1) * 4096 ->
  let vpn := VirtAddr_floor va in
  let e := VirtAddr_ceil (VirtAddr_add va len) in
  vpn = va / 4096 /\ e = (va + len + 4095) / 4096 /\ 0 <= vpn < e /\ e < user_pages /\
  wsub e vpn = e - vpn /\ VirtPageNum_add vpn (wsub e vpn) = e.
Proof.
  intros Hva Hlen Hend vpn e. destruct user_half as (_ & ? & _ & ?).
  assert (Ev : vpn = va / 4096) by (apply user_floor; lia).
  assert (Ee : e = (va + len + 4095) / 4096).
  { unfold e. rewrite user_va_add by lia. apply user_ceil. lia. }
  assert (0 <= vpn < e /\ e < user_pages) by (rewrite Ev, Ee; div_lia).
  assert (Ew : wsub e vpn = e - vpn) by (apply wsub_small; unfold is_usize; lia).
  split_and!; try done; try lia. rewrite Ew, user_vpn_add by lia. lia.
Qed.

(** *** Unmapping *)

Lemma page_info_shows σ pt a b v : page_info a v = page_info b v -> shows σ pt a v -> shows σ pt b v.
Proof. unfold page_info, shows. intros [= _ Ep _ _ Ef]. by rewrite Ep, Ef. Qed.

(** The table agrees with any other cutting of the same pages into areas. *)
Lemma uvm_ok_info σ u m :
  uvm_ok σ u -> space_ok m -> (forall k r a, rm_at m k = Some (r, a) -> area_wf a) ->
  (forall v, space_info m v = space_info (areas u) v) -> uvm_ok σ (with_areas u m).
Proof.
  intros [Hmc Hs Hw Hp] Hs' Hw' Hi. constructor; [done..|]. intros v Hv. cbn [areas with_areas page_table].
  specialize (Hi v). unfold space_info in Hi. specialize (Hp v Hv).
  destruct (rm_at m v) as [[r a]|], (rm_at (areas u) v) as [[r' b]|]; try done.
  apply (inj Some) in Hi. by apply (page_info_shows _ _ b).
Qed.

Lemma merged_ok σ u m : uvm_ok σ u -> merged (areas u) m -> uvm_ok σ (with_areas u m).
Proof.
  intros Hok [Hs Hi _ Hf]. apply uvm_ok_info; try done. intros k r a E.
  destruct (Hf k r a E) as (k' & r' & a' & E' & Ep & Eo). destruct (uv_wf σ u Hok _ _ _ E').
  unfold area_wf. by rewrite Ep, Eo.
Qed.

Lemma split_off_wf a p l r :
  area_ok a -> r_start (range_vpn a) <= p <= r_end (range_vpn a) -> split_off a p = (l, r) ->
  area_wf a -> area_wf l /\ area_wf r.
Proof.
  intros Ha Hp E [Hm Ho]. rewrite (split_off_val a p Ha Hp) in E. injection E as <- <-.
  split; (split; [done|]); cbn [a_offset]; [done|]. by rewrite Z.mod_add by lia.
Qed.

Lemma split_off_info a p l r v :
  area_ok a -> r_start (range_vpn a) <= p < r_end (range_vpn a) -> split_off a p = (l, r) ->
  in_range v (range_vpn a) -> page_info (if v <? p then l else r) v = page_info a v.
Proof.
  intros Ha Hp E Hv. pose proof (split_off_backing a p l r v Ha Hp E Hv) as Hb.
  destruct (split_off_frames a p l r v E) as [Hfl Hfr].
  rewrite (split_off_val a p Ha ltac:(lia)) in E. injection E as <- <-.
  unfold page_info. destruct (v <? p); rewrite Hb, ?Hfl, ?Hfr; done.
Qed.

Lemma shows_eq σ σ' pt pt' a v :
  page_of σ' pt' v = page_of σ pt v -> mc_arcs σ' = mc_arcs σ -> shows σ pt a v -> shows σ' pt' a v.
Proof. unfold shows. intros -> ->. done. Qed.

(** Taking the pages [lo, hi), whose frames [mid] holds, out of areas and table. *)
Lemma cut_pages σ u m mid lo hi :
  uvm_ok σ u -> area_ok mid -> range_vpn mid = mkRange lo hi ->
  (forall v, lo <= v < hi -> space_info (areas u) v = Some (page_info mid v)) ->
  space_ok m -> (forall k r a, rm_at m k = Some (r, a) -> area_wf a) ->
  (forall v, space_info m v = if (lo <=? v) && (v <? hi) then None else space_info (areas u) v) ->
  exists mem, let σ' := with_mem σ mem in
    area_unmap mid (page_table u) σ = Ret (tt, σ') /\ uvm_ok σ' (with_areas u m) /\
    keeps σ σ' (page_table u) (page_table u) /\
    (forall v, reg_vpn v -> ~ lo <= v < hi -> page_of σ' (page_table u) v = page_of σ (page_table u) v).
Proof.
  intros [Hmc Hs Hw Hp] Hmid Hr Hin Hs' Hw' Hi.
  destruct (area_unmap_ok σ (page_table u) mid Hmc Hmid) as (mem & E & Hmc' & Hk & Hl).
  assert (Hnf : forall v, ~ lo <= v < hi -> frames mid !! v = None).
  { intros v Hv. destruct (frames mid !! v) eqn:Ef; [|done]. apply (ao_frames mid Hmid) in Ef. by rewrite Hr in Ef. }
  exists mem. cbv zeta. split; [done|]. split; [|split; [done|intros v Hv Hn; by rewrite Hl, Hnf]].
  constructor; [done..|].
  intros v Hv. cbn [areas with_areas page_table]. specialize (Hp v Hv). specialize (Hl v Hv).
  specialize (Hi v). unfold space_info in Hi at 1.
  destruct ((lo <=? v) && (v <? hi)) eqn:Hb.
  - assert (Hv' : lo <= v < hi) by (bool_to_prop; lia). specialize (Hin v Hv').
    unfold space_info in Hin. destruct (rm_at (areas u) v) as [[r' a]|]; [|done].
    apply (inj Some) in Hin. apply (page_info_shows _ _ _ mid) in Hp; [|done].
    destruct (rm_at m v) as [[r b]|]; [done|]. rewrite Hl. unfold shows in Hp. by destruct (frames mid !! v).
  - rewrite Hnf in Hl by (intros [? ?]; revert Hb; by zcmp). unfold space_info in Hi.
    destruct (rm_at m v) as [[r a]|], (rm_at (areas u) v) as [[r' b]|]; try done.
    + apply (inj Some) in Hi. apply (page_info_shows _ _ b); [done|]. by apply (shows_eq σ _ (page_table u)).
    + by rewrite Hl.
Qed.

(** The tail of [unmap]. *)
Lemma unmap_mid_ok σ u m r mid e :
  uvm_ok σ u -> area_ok mid -> area_wf mid -> range_vpn mid = r -> r_start r < e ->
  (forall v, r_start r <= v < r_end r -> space_info (areas u) v = Some (page_info mid v)) ->
  space_ok m -> (forall k r' a, rm_at m k = Some (r', a) -> area_wf a) ->
  (forall v, rm_at m v = None <-> r_start r <= v < r_end r \/ rm_at (areas u) v = None) ->
  (forall v, ~ r_start r <= v < r_end r -> space_info m v = space_info (areas u) v) ->
  let c := Z.min e (r_end r) in
  exists mid' m' mem, let σ' := with_mem σ mem in
    unmap_mid u m mid e σ = Ret (Ok mid', with_areas u m', σ') /\
    uvm_ok σ' (with_areas u m') /\ keeps σ σ' (page_table u) (page_table u) /\
    area_ok mid' /\ area_wf mid' /\ range_vpn mid' = mkRange (r_start r) c /\
    (forall v, r_start r <= v < c -> space_info (areas u) v = Some (page_info mid' v)) /\
    (forall v, space_info m' v = if (r_start r <=? v) && (v <? c) then None else space_info (areas u) v) /\
    (r_end r <= e -> m' = m) /\
    (forall v, reg_vpn v -> ~ r_start r <= v < c -> page_of σ' (page_table u) v = page_of σ (page_table u) v).
Proof.
  intros Hok Hmid Hwf Hr He Hin Hs Hw Hnone Hout c.
  assert (Hinfo : forall v, space_info m v =
    if (r_start r <=? v) && (v <? r_end r) then None else space_info (areas u) v).
  { intros v. zcmp; cbn [andb]; [|apply Hout; lia..]. unfold space_info. by rewrite (proj2 (Hnone v)) by lia. }
  unfold unmap_mid. rewrite Hr. destruct (Z.ltb_spec e (r_end r)) as [Hlt|Hge].
  2:{ replace c with (r_end r) by (unfold c; lia).
      destruct (cut_pages σ u m mid (r_start r) (r_end r)) as (mem & E & Hok' & Hk & Hpg); try done.
      { rewrite Hr. by destruct r. }
      exists mid, m, mem. cbv zeta. split; [erewrite run_bind by done; cbn beta iota;
        by erewrite run_bind by exact E|]. split_and!; try done. rewrite Hr. by destruct r. }
  replace c with e by (unfold c; lia).
  destruct (split_off mid e) as [mid' back] eqn:Esp.
  destruct (split_off_ok mid e mid' back Hmid ltac:(rewrite Hr; lia) Esp) as (Hrb & Hokb & Hl & _).
  destruct (Hl ltac:(rewrite Hr; lia)) as [Hrm Hokm]. rewrite Hr in Hrb, Hrm.
  destruct (split_off_wf mid e mid' back Hmid ltac:(rewrite Hr; lia) Esp Hwf) as [Hwm Hwb].
  destruct (insert_back m back _ Hs Hokb Hrb) as (m' & E' & Hs' & Hat).
  { intros v Hv. cbn [r_start r_end] in Hv. apply Hnone. lia. }
  cbn [r_start r_end] in Hat.
  assert (Hsi : forall v, r_start r <= v < r_end r ->
    page_info (if v <? e then mid' else back) v = page_info mid v).
  { intros v Hv. apply (split_off_info mid e); try done; rewrite Hr; [lia|]. unfold in_range. lia. }
  assert (Hmid' : forall v, r_start r <= v < e -> space_info (areas u) v = Some (page_info mid' v)).
  { intros v Hv. rewrite Hin by lia. specialize (Hsi v ltac:(lia)). destruct (Z.ltb_spec v e); [|lia].
    by rewrite Hsi. }
  assert (Hm' : forall v, space_info m' v =
    if (r_start r <=? v) && (v <? e) then None else space_info (areas u) v).
  { intros v. unfold space_info at 1. rewrite Hat.
    destruct (Z.leb_spec e v), (Z.ltb_spec v (r_end r)); cbn [andb];
      [|change ((fun x => page_info x.2 v) <$> rm_at m v) with (space_info m v); rewrite Hinfo; zcmp; done || lia..].
    cbn [fmap option_fmap option_map snd]. specialize (Hsi v ltac:(lia)).
    destruct (Z.ltb_spec v e); [lia|]. rewrite Hsi, andb_false_r. symmetry. apply Hin. lia. }
  destruct (cut_pages σ u m' mid' (r_start r) e) as (mem & E & Hok' & Hk & Hpg); try done.
  { intros k r' a. rewrite Hat. destruct (_ && _); [intros [= <- <-]; done|]. apply Hw. }
  exists mid', m', mem. cbv zeta. split; [|split_and!; try done; lia].
  assert (Ee : range_is_empty (range_va back) = false)
    by (unfold range_is_empty; pose proof (ao_order back Hokb); by zcmp).
  cbv beta iota zeta. rewrite Ee. rewrite Hrb. erewrite run_bind.
  2:{ erewrite run_bind; [|unfold vm_lift; rewrite E'; done]. done. }
  cbn beta iota. by erewrite run_bind by exact E.
Qed.

Lemma area_drop_empty σ a : frames a = ∅ -> area_drop a σ = Ret (tt, σ).
Proof. intros E. unfold area_drop, bt_iter. by rewrite E, map_to_list_empty. Qed.

(** [unmap] at a mapped page: it succeeds, cuts the pages from there to the end of
    the range or of the (merged) area, whichever is first, and touches no other
    page, no frame and no count. *)
Lemma uvm_unmap_ok σ u va len r a :
  uvm_ok σ u -> 0 <= va -> 0 < len -> va + len <= (user_pages - 1) * 4096 ->
  let vpn := VirtAddr_floor va in
  let e := VirtAddr_ceil (VirtAddr_add va len) in
  rm_at (areas u) vpn = Some (r, a) -> mergeable (areas u) vpn e ->
  exists mid m mem c, let σ' := with_mem σ mem in
    uvm_unmap u va len σ = Ret (Ok mid, with_areas u m, σ') /\ vpn < c <= e /\ Z.min e (r_end r) <= c /\
    uvm_ok σ' (with_areas u m) /\ keeps σ σ' (page_table u) (page_table u) /\
    area_ok mid /\ area_wf mid /\ range_vpn mid = mkRange vpn c /\
    (forall v, vpn <= v < c -> space_info (areas u) v = Some (page_info mid v)) /\
    (forall v, space_info m v = if (vpn <=? v) && (v <? c) then None else space_info (areas u) v) /\
    mergeable m c e /\
    (forall v, reg_vpn v -> ~ vpn <= v < c -> page_of σ' (page_table u) v = page_of σ (page_table u) v).
Proof.
  intros Hok Hva Hlen Hend vpn e Ea Hmg.
  destruct (user_span va len Hva Hlen Hend) as (_ & _ & Hv & He & Ew & Eadd). fold vpn e in Hv, He, Ew, Eadd.
  destruct (try_union_loop_ok (S (Z.to_nat (wsub e vpn))) (areas u) vpn e) as (res & m1 & E1 & Hmrg & Hmg1 & _);
    [apply Hok|lia|done|].
  pose proof (merged_ok σ u m1 Hok Hmrg) as Hok1.
  destruct (mg_grow _ _ Hmrg vpn r a Ea) as (r1 & a1 & Ea1 & Hr1 & Hr2).
  pose proof (mg_ok _ _ Hmrg) as Hs1. pose proof (uv_wf _ _ Hok1) as Hwf1. cbn [areas with_areas] in Hwf1.
  destruct (space_at m1 vpn r1 a1 Hs1 Ea1) as (Hoka & Hra & Hk1 & Hk2).
  destruct (split_off a1 vpn) as [front mid] eqn:Esp.
  destruct (split_off_ok a1 vpn front mid Hoka ltac:(rewrite Hra; lia) Esp) as (Hrm & Hokm & _). rewrite Hra in Hrm.
  destruct (split_off_wf a1 vpn front mid Hoka ltac:(rewrite Hra; lia) Esp (Hwf1 _ _ _ Ea1)) as [Hwfr Hwm].
  destruct (cut_front m1 vpn r1 a1 front mid Hs1 Ea1 Esp) as (m2 & E2 & Hs2 & A2).
  assert (Hsi : forall v, r_start r1 <= v < r_end r1 ->
    page_info (if v <? vpn then front else mid) v = page_info a1 v).
  { intros v Hv'. apply (split_off_info a1 vpn); try done; rewrite Hra; [lia|]. unfold in_range. lia. }
  assert (Hat : forall v, r_start r1 <= v < r_end r1 -> rm_at m1 v = Some (r1, a1)).
  { intros v Hv'. by apply (rm_at_same 0 m1 vpn v r1 a1 (so_map m1 Hs1)). }
  destruct (unmap_mid_ok σ (with_areas u m1) m2 (mkRange vpn (r_end r1)) mid e) as
    (mid' & m' & mem & E3 & Hok3 & Hk3 & Hok' & Hwm' & Hr3 & Hin3 & Hi3 & Heq3 & Hpg3); try done; cbn [r_start r_end] in *.
  { lia. }
  { intros v Hv'. unfold space_info. cbn [areas with_areas]. rewrite Hat by lia. cbn. f_equal.
    specialize (Hsi v ltac:(lia)). destruct (Z.ltb_spec v vpn); [lia|done]. }
  { intros k r' x. rewrite A2. destruct (_ && _); [intros [= <- <-]; done|].
    destruct (_ && _); [done|]. apply Hwf1. }
  { intros v. cbn [areas with_areas]. rewrite A2. destruct (Z.leb_spec (r_start r1) v), (Z.ltb_spec v vpn),
      (Z.leb_spec vpn v), (Z.ltb_spec v (r_end r1)); cbn [andb]; try lia;
      [rewrite Hat by lia; split; [done|intros [?|?]; [lia|done]]|tauto|split; [by right|intros [?|?]; [lia|done]]..]. }
  { intros v Hv'. unfold space_info. cbn [areas with_areas]. rewrite A2.
    destruct (Z.leb_spec (r_start r1) v), (Z.ltb_spec v vpn), (Z.leb_spec vpn v), (Z.ltb_spec v (r_end r1));
      cbn [andb]; try lia; try done. rewrite Hat by lia. cbn. f_equal. specialize (Hsi v ltac:(lia)).
    destruct (Z.ltb_spec v vpn); [done|lia]. }
  exists mid', m', mem, (Z.min e (r_end r1)). cbv zeta. split_and!; try done; try lia.
  - unfold uvm_unmap. fold vpn e. unfold try_union. rewrite Eadd. erewrite run_bind; [|unfold vm_lift; rewrite E1; done].
    cbn [snd]. unfold unmap_front. rewrite (rm_get_key_value_at 0 m1 vpn (so_map m1 Hs1)), Ea1.
    erewrite run_bind by done. cbn beta iota. rewrite Esp. cbv beta iota zeta.
    erewrite (run_bind _ _ σ m2 σ); [exact E3|]. destruct (range_is_empty (range_vpn front)).
    + destruct E2 as [E2 Hfe]. erewrite run_bind; [|unfold vm_lift; rewrite E2; done]. cbn [fst snd].
      by erewrite run_bind by by apply area_drop_empty.
    + erewrite run_bind; [|unfold vm_lift; rewrite E2; done]. done.
  - intros v Hv'. rewrite <- (mg_info _ _ Hmrg). by apply Hin3.
  - intros v. rewrite <- (mg_info _ _ Hmrg). apply Hi3.
  - intros k rk x r' y Hk. rewrite (Heq3 ltac:(lia)), A2. destruct ((r_start r1 <=? k) && (k <? vpn)) eqn:?; [bool_to_prop; lia|].
    destruct ((vpn <=? k) && (k <? r_end r1)) eqn:?; [bool_to_prop; lia|]. intros Ex Hex. pose proof (rm_at_range _ _ _ _ _ (so_map m1 Hs1) Ex). rewrite A2.
    destruct ((r_start r1 <=? r_end rk) && (r_end rk <? vpn)) eqn:?; [bool_to_prop; lia|].
    destruct ((vpn <=? r_end rk) && (r_end rk <? r_end r1)) eqn:?; [done|]. apply (Hmg1 k rk); (done || lia).
Qed.

(** *** New mappings *)

Lemma area_map_none σ a pt : frames a = ∅ -> area_map Small a pt σ = Ret (pt, σ).
Proof. intros E. unfold area_map, bt_iter. by rewrite E, map_to_list_empty. Qed.

(** The pages [lo, hi) are free in [u] and mapped as [info] says in [u']. *)
Record placed σ u u' (lo hi : Z) (info : Z -> UserVmAreaType * Z * Z * page_source * option Z) : Prop := {
  pl_ok : uvm_ok σ u';
  pl_table : page_table u' = page_table u;
  pl_heap : heap_bottom_va u' = heap_bottom_va u;
  pl_free : rm_free (areas u) lo hi;
  pl_info v : space_info (areas u') v =
    if (lo <=? v) && (v <? hi) then Some (info v) else space_info (areas u) v;
}.

(** [push_area] of an area without frames. *)
Lemma push_area_empty σ u a r :
  uvm_ok σ u -> area_ok a -> area_wf a -> frames a = ∅ -> range_vpn a = r ->
  rm_free (areas u) (r_start r) (r_end r) ->
  exists u', push_area Small u a None σ = Ret (u', σ) /\
    placed σ u u' (r_start r) (r_end r) (page_info a).
Proof.
  intros [Hmc Hs Hw Hp] Ha Hwf Hf Hr Hfree. destruct (area_pages a Ha) as (_ & Hpg & _). rewrite Hr in Hpg.
  destruct (insert_back (areas u) a r Hs Ha Hr Hfree) as (m & E & Hs' & Hat).
  assert (K : rm_at m (r_start r) = Some (r, a)) by (rewrite Hat; by zcmp).
  destruct (rm_set_spec 0 m _ r a a (so_map m Hs') K) as [Hm2 A2].
  assert (Aeq : forall v, rm_at (rm_set m (r_start r) a) v =
    if (r_start r <=? v) && (v <? r_end r) then Some (r, a) else rm_at (areas u) v).
  { intros v. rewrite A2, Hat. by destruct (_ && _). }
  eexists. split.
  - unfold push_area. rewrite Hr. erewrite run_bind; [|unfold vm_lift; rewrite E; done]. cbn beta iota.
    erewrite run_bind by done. erewrite run_bind by by apply area_map_none. done.
  - constructor; cbn [page_table areas heap_bottom_va]; try done.
    + constructor; cbn [page_table areas]; try done.
      * constructor; [done|]. intros k r' x. rewrite Aeq. destruct (_ && _); [intros [= <- <-]; done|].
        apply (so_area _ Hs).
      * intros k r' x. rewrite Aeq. destruct (_ && _); [intros [= <- <-]; done|]. apply Hw.
      * intros v Hv. rewrite Aeq. destruct (Z.leb_spec (r_start r) v), (Z.ltb_spec v (r_end r)); cbn [andb];
          [|by apply Hp..].
        unfold shows. rewrite Hf, lookup_empty. specialize (Hp v Hv). by rewrite Hfree in Hp by lia.
    + intros v. unfold space_info at 1. rewrite Aeq. by destruct (_ && _).
Qed.

(** The length [mmap] rounds up to whole pages. *)
Lemma mmap_len_val va len :
  0 < len -> va mod 4096 + len + 4095 < 2 ^ 64 ->
  mmap_len va len = (va mod 4096 + len + 4095) / 4096 * 4096.
Proof.
  intros Hl Hb. pose proof (Z.mod_pos_bound va 4096 ltac:(lia)). unfold mmap_len.
  rewrite page_offset_mod, page_size_val. rewrite (wadd_small (va mod 4096)) by (unfold is_usize; lia).
  rewrite wsub_small by (unfold is_usize; lia). rewrite wadd_small by (unfold is_usize; lia).
  change (4096 - 1) with (2 ^ 12 - 1). rewrite land_wnot_round by (unfold is_usize; lia).
  change (2 ^ 12) with 4096. div_lia.
Qed.

Lemma space_hi m : space_ok m -> rm_hi 0 m < user_pages.
Proof.
  intros Hs. destruct user_half as (_ & ? & _).
  destruct (rm_hi_in 0 m) as [->|(s & n & Hin & ->)]; [done|].
  destruct (rm_ok_bounds 0 m (so_map m Hs)) as [_ Hb]. specialize (Hb s n Hin).
  pose proof (rm_at_some_in 0 m s n s (so_map m Hs) Hin ltac:(lia)) as E.
  destruct (space_at m s _ _ Hs E) as (_ & _ & _ & ?). cbn [r_end] in *. lia.
Qed.

Lemma range_to_va_user r :
  0 <= r_start r <= r_end r -> r_end r < user_pages ->
  range_to_va r = mkRange (r_start r * 4096) (r_end r * 4096).
Proof. intros H1 H2. unfold range_to_va. by rewrite !user_start_addr by lia. Qed.

(** A mapping's window, in whole pages of the user half. *)
Definition window_ok (w : Range) : Prop :=
  0 <= r_start w < r_end w /\ r_end w <= (user_pages - 1) * 4096 /\ r_start w mod 4096 = 0 /\
  r_end w mod 4096 = 0.

(** Where [mmap] puts a mapping. *)
Lemma mmap_range_ok u va len flags w :
  space_ok (areas u) -> window_ok w -> 0 < len < user_pages * 4096 -> len mod 4096 = 0 ->
  (contains flags MAP_FIXED = true -> 0 <= va /\ va + len <= (user_pages - 1) * 4096) ->
  let lo := va / 4096 in let hi := (va + len + 4095) / 4096 in let n := len / 4096 in
  if contains flags MAP_FIXED then
    (rm_free (areas u) lo hi /\ mmap_range u va len flags w = Ret (Ok (mkRange lo hi))) \/
    (~ rm_free (areas u) lo hi /\ mmap_range u va len flags w = Ret (Err ENOMEM))
  else
    (exists s, mmap_range u va len flags w = Ret (Ok (mkRange s (s + n))) /\
       r_start w / 4096 <= s /\ s + n <= r_end w / 4096 /\ rm_free (areas u) s (s + n) /\
       forall y, r_start w / 4096 <= y -> y + n <= r_end w / 4096 -> rm_free (areas u) y (y + n) -> s <= y) \/
    ((forall y, r_start w / 4096 <= y -> y + n <= r_end w / 4096 -> ~ rm_free (areas u) y (y + n)) /\
     mmap_range u va len flags w = Ret (Err ENOMEM)).
Proof.
  intros Hs (Hw1 & Hw2 & Hw3 & Hw4) Hlen Hlm Hfix lo hi n. pose proof (so_map _ Hs) as Hm.
  destruct user_half as (Eh & ? & E2 & ?). unfold mmap_range. destruct (contains flags MAP_FIXED).
  - destruct (Hfix eq_refl) as [H1 H2].
    destruct (user_span va len H1 ltac:(lia) H2) as (E1 & Ee & Hv & _). rewrite E1, Ee.
    fold lo hi. fold lo hi in E1, Ee. rewrite E1, Ee in Hv.
    destruct (rm_is_range_free_spec 0 (areas u) (mkRange lo hi) Hm) as [(_ & Hf & ->)|[Hf ->]];
      cbn [r_start r_end] in *; [lia|by left|right]. split; [|done]. destruct Hf; [lia|done].
  - assert (Hfl : forall x, 0 <= x <= (user_pages - 1) * 4096 -> VirtAddr_floor (VirtAddr_from x) = x / 4096).
    { intros x Hx. rewrite VirtAddr_from_id by (left; lia). apply user_floor. lia. }
    rewrite !Hfl by lia. rewrite page_size_val. fold n.
    pose proof (space_hi _ Hs) as Hhi.
    assert (Hn : 0 < n < user_pages) by (unfold n; div_lia).
    assert (Hadd : forall z, 0 <= z <= Z.max (r_end w / 4096) (rm_hi 0 (areas u)) ->
      VirtPageNum_add z n = z + n).
    { intros z Hz. assert (z < user_pages) by div_lia. unfold VirtPageNum_add, VirtPageNum_from.
      rewrite wadd_small by (unfold is_usize; lia). pose proof vpn_width_range.
      rewrite mask_mod by lia. apply Z.mod_small. lia. }
    assert (Hb : 0 <= r_start w / 4096 <= r_end w / 4096) by div_lia.
    pose proof (rm_find_free_spec VirtPageNum_add 0 (areas u) (mkRange (r_start w / 4096) (r_end w / 4096)) n Hm Hb
      ltac:(lia) Hadd) as Hff. unfold first_fit in Hff. cbn [r_start r_end] in Hff.
    destruct (rm_find_free_range _ _ _ n) as [[[s e]|]|]; [| |done].
    + destruct Hff as (H1 & H2 & H3 & H4 & H5). cbn [r_start r_end] in *. subst e. left. by exists s.
    + right. done.
Qed.

(** What a mapping is made from. *)
Inductive mmap_target := ToFile (file offset : Z) | ToAnon (shm : option Z).

Definition mmap_alloc u (va len perm flags : Z) (t : mmap_target) : VM A (result Z SysError * UserVmSpace) :=
  match t with
  | ToFile file offset => alloc_mmap_area Small u va len perm flags file offset
  | ToAnon shm => alloc_anon_area Small u va len perm flags shm
  end.

Definition mmap_window (t : mmap_target) : Range :=
  match t with
  | ToFile _ _ => mkRange USER_FILE_BEG USER_FILE_END
  | ToAnon _ => mkRange USER_SHARE_BEG USER_SHARE_END
  end.

(** Anonymous mappings start at the page of the address. *)
Definition mmap_addr (t : mmap_target) (va : Z) : Z :=
  match t with ToFile _ _ => va | ToAnon _ => va / 4096 * 4096 end.

Definition mmap_source (t : mmap_target) (lo v : Z) : page_source :=
  match t with
  | ToFile file offset => FromFile file (offset + (v - lo) * 4096) 4096
  | ToAnon (Some shm) => FromShm shm ((v - lo) * 4096)
  | ToAnon None => Zeroes
  end.

Definition mmap_info (perm flags : Z) (t : mmap_target) (lo v : Z) :
    UserVmAreaType * Z * Z * page_source * option Z :=
  (UserMmap, perm, MapFlags_from flags, mmap_source t lo v, None).

Definition mmap_area (t : mmap_target) (rva : Range) (perm flags len : Z) : UserVmArea :=
  match t with
  | ToFile file offset => area_new_mmap rva perm flags (FileFile file) offset len
  | ToAnon (Some shm) => area_new_mmap rva perm flags (FileShm shm) 0 len
  | ToAnon None => area_new_mmap rva perm flags FileNone (r_start rva) len
  end.

Definition target_ok (t : mmap_target) (flags len : Z) : Prop :=
  match t with
  | ToFile _ offset => 0 <= offset /\ offset mod 4096 = 0 /\ offset + len < 2 ^ 64
  | ToAnon shm => contains flags MAP_SHARED = true -> shm <> None
  end.

Lemma mmap_area_ok t lo hi perm flags n :
  0 <= lo < hi -> hi < user_pages -> is_perm perm -> 0 < n <= (hi - lo) * 4096 ->
  target_ok t flags ((hi - lo) * 4096) ->
  let a := mmap_area t (mkRange (lo * 4096) (hi * 4096)) perm flags n in
  area_ok a /\ area_wf a /\ frames a = ∅ /\ range_vpn a = mkRange lo hi /\
  forall v, page_info a v = mmap_info perm flags t lo v.
Proof.
  intros Hlo Hhi Hp Hn Ht a. destruct user_half as (_ & ? & _ & ?).
  assert (Erv : range_va a = mkRange (lo * 4096) (hi * 4096)) by (by destruct t as [|[]]).
  assert (Er : range_vpn a = mkRange lo hi) by (apply (range_vpn_pages a lo hi (hi * 4096)); (done || lia)).
  assert (Ef : frames a = ∅) by by destruct t as [|[]].
  assert (Eo : 0 <= a_offset a /\ a_offset a mod 4096 = 0 /\ a_offset a + (hi - lo) * 4096 < 2 ^ 64 /\
    a_len a = n).
  { destruct t as [f o|[s|]]; cbn [a mmap_area area_new_mmap a_offset a_len target_ok r_start] in *.
    - split_and!; try done; lia.
    - split_and!; try done; lia.
    - rewrite Z.mod_mul by lia. split_and!; try done; lia. }
  destruct Eo as (Eo1 & Eo2 & Eo3 & Eo4). split_and!; try done.
  - constructor; rewrite ?Erv, ?Er, ?Ef; cbn [r_start r_end]; try lia.
    + rewrite Z.mod_mul by lia. lia.
    + intros k q. by rewrite lookup_empty.
  - split; [|done]. by destruct t as [|[]].
  - intros v. unfold page_info, mmap_info. rewrite Ef, lookup_empty. unfold backing, page_shift.
    rewrite Er, page_size_val. cbn [r_start]. by destruct t as [|[]].
Qed.

Lemma push_mmap_ok σ u t lo hi perm flags n :
  uvm_ok σ u -> 0 <= lo < hi -> hi < user_pages -> is_perm perm -> 0 < n <= (hi - lo) * 4096 ->
  target_ok t flags ((hi - lo) * 4096) -> rm_free (areas u) lo hi ->
  exists u', push_mmap Small u (mkRange lo hi) (fun rva => mmap_area t rva perm flags n) σ =
      Ret (Ok (lo * 4096), u', σ) /\ placed σ u u' lo hi (mmap_info perm flags t lo).
Proof.
  intros Hok Hlo Hhi Hp Hn Ht Hfree.
  destruct (mmap_area_ok t lo hi perm flags n Hlo Hhi Hp Hn Ht) as (Ha & Hw & Hf & Hr & Hi).
  destruct (push_area_empty σ u _ _ Hok Ha Hw Hf Hr Hfree) as (u' & E & [P1 P2 P3 P4 P5]).
  cbn [r_start r_end] in *. exists u'. split; [|constructor; try done].
  - unfold push_mmap. rewrite range_to_va_user by (cbn [r_start r_end]; lia). cbn [r_start r_end].
    by erewrite run_bind by exact E.
  - intros v. rewrite P5. by rewrite Hi.
Qed.

Lemma mmap_alloc_eq u va len perm flags t :
  0 < len -> target_ok t flags len -> 0 <= va < user_pages * 4096 ->
  mmap_alloc u va len perm flags t =
  (r ← vm_lift (mmap_range u (mmap_addr t va) (mmap_len va len) flags (mmap_window t));
   match r with
   | Err e => mret (Err e, u)
   | Ok range => push_mmap Small u range (fun rva => mmap_area t rva perm flags (mmap_len va len))
   end).
Proof.
  intros Hl Ht Hva. destruct t as [file offset|shm].
  - unfold mmap_alloc, alloc_mmap_area. destruct (Z.eqb_spec len 0); [lia|done].
  - unfold mmap_alloc, alloc_anon_area. destruct (Z.eqb_spec len 0); [lia|].
    replace (contains flags MAP_SHARED && bool_decide (shm = None)) with false.
    2:{ cbn in Ht. destruct (contains flags MAP_SHARED); [|done]. symmetry.
        by rewrite bool_decide_eq_false_2 by auto. }
    cbn [mmap_addr]. rewrite user_floor by lia.
    rewrite user_start_addr by (destruct user_half as (_ & ? & _); div_lia).
    by destruct shm.
Qed.

Lemma window_layout t : layout_ok C -> window_ok (mmap_window t).
Proof.
  intros (Hasc & Hal & _ & Hdl). rewrite user_space_half in Hasc. destruct user_half as (E & ? & _).
  rewrite E in Hasc. unfold user_windows, page_aligned in *. rewrite page_size_val in Hal.
  repeat (apply Forall_cons in Hal as [[? ?] Hal]). cbn [ascending r_start r_end] in *.
  destruct Hasc as (? & ? & ? & ? & ? & ? & ?).
  unfold window_ok. destruct t; cbn [mmap_window r_start r_end]; split_and!; try done; try div_lia.
Qed.

(** Where a mapping goes.  With MAP_FIXED it goes to the pages of the address,
    if they are all free; otherwise to the lowest gap of its window that is
    large enough.  On success the new pages, and no others, are mapped, with the
    permissions, sharing and backing asked for and nothing present yet; the
    table is untouched and the invariant holds.  If there is no room the call
    fails with ENOMEM and changes nothing. *)
Lemma mmap_placement σ u va len perm flags t :
  layout_ok C -> uvm_ok σ u -> is_perm perm -> 0 <= va < user_pages * 4096 -> 0 < len ->
  len + 16384 < user_pages * 4096 -> target_ok t flags (len + 16384) ->
  (contains flags MAP_FIXED = true -> va + len + 16384 <= (user_pages - 1) * 4096) ->
  let n := (va mod 4096 + len + 4095) / 4096 in
  let w := mmap_window t in
  let alloc := mmap_alloc u va len perm flags t σ in
  if contains flags MAP_FIXED then
    let lo := va / 4096 in
    let hi := (mmap_addr t va + n * 4096 + 4095) / 4096 in
    (exists u', alloc = Ret (Ok (lo * 4096), u', σ) /\ placed σ u u' lo hi (mmap_info perm flags t lo)) \/
    (~ rm_free (areas u) lo hi /\ alloc = Ret (Err ENOMEM, u, σ))
  else
    (exists s u', alloc = Ret (Ok (s * 4096), u', σ) /\
       placed σ u u' s (s + n) (mmap_info perm flags t s) /\
       r_start w <= s * 4096 /\ (s + n) * 4096 <= r_end w /\
       forall y, r_start w <= y * 4096 -> (y + n) * 4096 <= r_end w -> rm_free (areas u) y (y + n) -> s <= y) \/
    ((forall y, r_start w <= y * 4096 -> (y + n) * 4096 <= r_end w -> ~ rm_free (areas u) y (y + n)) /\
     alloc = Ret (Err ENOMEM, u, σ)).
Proof.
  intros Hlay Hok Hp Hva Hlen Hbig Ht Hfix n w alloc. destruct user_half as (_ & ? & _ & ?).
  pose proof (window_layout t Hlay) as Hw. pose proof Hw as (Hw1 & Hw2 & Hw3 & Hw4). fold w in Hw1, Hw2, Hw3, Hw4.
  assert (Emod : 0 <= va mod 4096 < 4096) by (apply Z.mod_pos_bound; lia).
  assert (Elen : mmap_len va len = n * 4096) by (apply mmap_len_val; lia).
  assert (Hn : 0 < n /\ n * 4096 <= len + 8190) by (unfold n; div_lia).
  assert (Ht' : forall k, 0 <= k <= len + 16384 -> target_ok t flags k)
    by (intros k Hk; destruct t; cbn in *; [lia|done]).
  unfold alloc. rewrite mmap_alloc_eq by (try done; apply Ht'; lia). rewrite Elen.
  assert (Hma : mmap_addr t va / 4096 = va / 4096 /\ va / 4096 * 4096 <= mmap_addr t va <= va)
    by (destruct t; cbn [mmap_addr]; [div_lia|rewrite Z.div_mul by lia; div_lia]).
  destruct Hma as [Hma1 Hma2].
  assert (Hma0 : 0 <= va / 4096 * 4096) by (apply Z.mul_nonneg_nonneg; [apply Z.div_pos; lia|lia]).
  pose proof (mmap_range_ok u (mmap_addr t va) (n * 4096) flags w (uv_space σ u Hok) Hw ltac:(lia)
    (Z.mod_mul n 4096 ltac:(lia)) ltac:(intros Hf; specialize (Hfix Hf); lia)) as Hr.
  cbv zeta in Hr. rewrite Hma1, Z.div_mul in Hr by lia. destruct (contains flags MAP_FIXED) eqn:Ef.
  - specialize (Hfix eq_refl). destruct Hr as [[Hfree E]|[Hnf E]].
    + left. destruct (push_mmap_ok σ u t (va / 4096) ((mmap_addr t va + n * 4096 + 4095) / 4096) perm flags
        (n * 4096)) as (u' & E' & Hpl); try done; try div_lia; [apply Ht'; div_lia|].
      exists u'. split; [|done]. erewrite run_bind; [|unfold vm_lift; fold w; rewrite E; done]. exact E'.
    + right. split; [done|]. erewrite run_bind; [|unfold vm_lift; fold w; rewrite E; done]. done.
  - assert (Hwin : forall y, r_start w / 4096 <= y <-> r_start w <= y * 4096) by (intros; div_lia).
    assert (Hwin' : forall y, y <= r_end w / 4096 <-> y * 4096 <= r_end w) by (intros; div_lia).
    destruct Hr as [(s & E & H1 & H2 & H3 & H4)|[Hno E]].
    + left. destruct (push_mmap_ok σ u t s (s + n) perm flags (n * 4096)) as (u' & E' & Hpl); try done; try div_lia.
      { apply Ht'. lia. }
      exists s, u'. split; [erewrite run_bind; [|unfold vm_lift; fold w; rewrite E; done]; exact E'|].
      split; [done|]. split; [by apply Hwin|]. split; [by apply Hwin'|]. intros y Hy1 Hy2. apply H4.
      * by apply Hwin.
      * by apply Hwin'.
    + right. split; [|erewrite run_bind; [|unfold vm_lift; fold w; rewrite E; done]; done].
      intros y Hy1 Hy2. apply Hno; [by apply Hwin|by apply Hwin'].
Qed.

(** [unmap] is deletion.  At a mapped page it cuts out the pages from there to
    the end of the range, or to the end of the area if that comes first (areas
    that continue each other are merged before).  Those pages leave the address
    space and the page table; every other page keeps its mapping, its frame and
    its entry; the area returned holds exactly what was cut, frames included;
    and no memory in use is written except the tables. *)
Theorem unmap_refines σ u va len r a :
  uvm_ok σ u -> 0 <= va -> 0 < len -> va + len <= (user_pages - 1) * 4096 ->
  rm_at (areas u) (VirtAddr_floor va) = Some (r, a) ->
  mergeable (areas u) (VirtAddr_floor va) (VirtAddr_ceil (VirtAddr_add va len)) ->
  let lo := va / 4096 in
  let hi := (va + len + 4095) / 4096 in
  exists mid u' σ' c, uvm_unmap u va len σ = Ret (Ok mid, u', σ') /\
    lo < c <= hi /\ Z.min hi (r_end r) <= c /\ uvm_ok σ' u' /\
    keeps σ σ' (page_table u) (page_table u') /\ mc_arcs σ' = mc_arcs σ /\ free σ' = free σ /\
    range_vpn mid = mkRange lo c /\
    (forall v, lo <= v < c -> space_info (areas u) v = Some (page_info mid v) /\
       space_info (areas u') v = None /\ page_of σ' (page_table u') v = None) /\
    (forall v, ~ lo <= v < c -> space_info (areas u') v = space_info (areas u) v) /\
    (forall v, reg_vpn v -> ~ lo <= v < c -> page_of σ' (page_table u') v = page_of σ (page_table u) v).
Proof.
  intros Hok Hva Hlen Hend Ea Hmg lo hi.
  destruct (user_span va len Hva Hlen Hend) as (Elo & Ehi & Hv & Hu & _).
  destruct (uvm_unmap_ok σ u va len r a Hok Hva Hlen Hend Ea Hmg)
    as (mid & m & mem & c & E & Hc & Hmin & Hok' & Hk & _ & _ & Hr & Hin & Hi & _ & Hpg).
  rewrite Ehi in Hc, Hmin, Hu. rewrite Elo in Hc, Hr, Hin, Hi, Hv, Hpg.
  fold lo in Hc, Hr, Hin, Hi, Hv, Hpg. fold hi in Hc, Hmin, Hu.
  exists mid, (with_areas u m), (with_mem σ mem), c. split_and!; try done; try lia.
  - intros v Hv'. specialize (Hi v). replace ((lo <=? v) && (v <? c)) with true in Hi by (by zcmp).
    split; [by apply Hin|]. split; [done|]. pose proof (uv_page _ _ Hok' v ltac:(apply user_reg; lia)) as Hp.
    unfold space_info in Hi. cbn [areas with_areas] in Hi, Hp. by destruct (rm_at m v) as [[]|].
  - intros v Hv'. cbn [areas with_areas]. rewrite Hi. zcmp; done || lia.
Qed.

End Space.

(** ** Concrete runs *)

Abbreviation demo_uvm := (uvm_ok (C := riscv64) (P := rv_pte) (L := rv_laws) (W := rv_walk)
  (FL := small_laws) (FS := demo_files)) (only parsing).

(** An address space with an untouched heap of four pages. *)
Definition demo_areas : RangeMap UserVmArea := [(0x20, mkNode 0x24 heap_area)].

Lemma demo_space :
  exists f m a, let u := mkUvm (mkPT f [mkRange f (f + 1)]) demo_areas 0x20000 in
    let σ := mkMachine m a demo_arcs ∅ ∅ ∅ : Machine (BitMapFrameAllocator (B := set_alloc)) in
    demo_uvm σ u /\ (15 <= size (bm_free a))%nat /\ counts_small σ.
Proof.
  destruct demo_machine as (f & m & a & Hok & Hs & Hl & Hcnt). exists f, m, a. cbv zeta.
  split; [|done]. constructor; cbn [areas page_table].
  - done.
  - constructor; [by vm_compute|]. intros k r x. cbn. destruct (_ && _); [|done].
    intros [= <- <-]. split; [apply heap_area_ok|by vm_compute].
  - intros k r x. cbn. destruct (_ && _); [|done]. intros [= <- <-]. by vm_compute.
  - intros v _. cbn [rm_at demo_areas]. destruct (_ && _); [|apply Hl]. apply Hl.
Qed.

Lemma unmap_refines_witness :
  exists m (a : BitMapFrameAllocator (B := set_alloc)) pt mid u' σ',
    uvm_unmap (C := riscv64) (P := rv_pte) (W := rv_walk) (F := FrameAllocator_hal)
      (mkUvm pt demo_areas 0x20000) 0x21000 0x1000 (mkMachine m a demo_arcs ∅ ∅ ∅) = Ret (Ok mid, u', σ') /\
    range_vpn (C := riscv64) mid = mkRange 0x21 0x22.
Proof.
  destruct demo_space as (f & m & a & Hok & _).
  destruct (unmap_refines (C := riscv64) (WL := rv_walk_laws) (FL := small_laws) (FS := demo_files)
    (GL := set_fresh_laws) rv_Small eq_refl _ _ 0x21000 0x1000 (mkRange 0x20 0x24) heap_area Hok)
    as (mid & u' & σ' & c & E & Hc & Hmin & _ & _ & _ & _ & Hr & _);
    [by vm_compute..| |].
  { intros k r x r' y Hk. cbn. destruct (_ && _); [|done]. intros [= <- <-] H. exfalso. revert H. by vm_compute. }
  exists m, a, (mkPT f [mkRange f (f + 1)]), mid, u', σ'. split; [exact E|].
  rewrite Hr. change (0x21000 / 4096) with 0x21 in *.
  change ((0x21000 + 0x1000 + 4095) / 4096) with 0x22 in *. cbn [r_end] in Hmin. f_equal. lia.
Defined.

Lemma mmap_placement_witness :
  exists m (a : BitMapFrameAllocator (B := set_alloc)) pt s u' σ',
    mmap_alloc (C := riscv64) (P := rv_pte) (W := rv_walk) (V := rv_level) (F := FrameAllocator_hal)
      (G := set_fresh) rv_Small (mkUvm pt demo_areas 0x20000) 0 0x1800 11 MAP_PRIVATE (ToFile 7 0x1000)
      (mkMachine m a demo_arcs ∅ ∅ ∅) = Ret (Ok s, u', σ').
Proof.
  destruct demo_space as (f & m & a & Hok & _).
  pose proof (mmap_placement (C := riscv64) (L := rv_laws) (W := rv_walk) (V := rv_level) (FL := small_laws) (FS := demo_files)
    (G := set_fresh) rv_Small _ _ 0 0x1800 11 MAP_PRIVATE (ToFile 7 0x1000) (proj1 user_layout) Hok) as H.
  exists m, a, (mkPT f [mkRange f (f + 1)]).
  destruct H as [(s & u' & E & _)|[Hno _]]; [by vm_compute..| |]; [do 3 eexists; exact E|].
  exfalso. apply (Hno 0x3f00000); [by vm_compute..|].
  intros k Hk. cbn. destruct ((32 <=? k) && (k <? 36)) eqn:Eb; [|done].
  exfalso. revert Eb. change 32 with 0x20. destruct (Z.ltb_spec k 36); [lia|]. by rewrite andb_false_r.
Defined.
