(* ===== verification/ForkProofs.v ===== *)
(** Fork: [from_existed] builds the child's address space over the parent's
    frames.  Two page tables share the machine; [apart] says that neither uses a
    table the other owns, and is what lets each be changed without the other
    noticing.  The kernel's contribution to a new table ([to_user]) is used
    through the laws [KernLaws], proved for both architectures. *)

From S2P Require Import Prelude HalConst Errno Addr Pte FrameAlloc PageTable RangeMap StrongArc.
From S2P Require Import Vma PageFault FaultProofs UserVm UserVmProofs.

#[local] Open Scope Z_scope.
#[local] Existing Instance user_region.

(** Inserting after the last entry. *)
Lemma rm_push_last {X} lo (m : RangeMap X) s n :
  rm_ok lo (m ++ [(s, n)]) -> rm_try_insert m (mkRange s (n_end n)) (n_value n) = Ret (Ok (m ++ [(s, n)])).
Proof.
  intros Hrm. apply rm_ok_app in Hrm as Hrm'. destruct Hrm' as [Hm [Hhi _]].
  pose proof (rm_ok_bounds lo m Hm) as [Hlo _].
  destruct (rm_insert_between lo m [] s (n_end n) (n_value n)) as (Ei & _ & Hfree & _);
    [by rewrite app_nil_r|lia|intros e He; by apply not_elem_of_nil in He|].
  rewrite app_nil_r in Ei, Hfree.
  destruct (rm_try_insert_spec lo m (mkRange s (n_end n)) (n_value n) Hm) as [(m' & E & _)|[_ Hn]];
    cbn [r_start r_end] in *; [lia| |done].
  rewrite E. unfold rm_try_insert in E. destruct (match bt_last_lt _ _ with Some _ => _ | None => _ end); [done|].
  cbn [r_start r_end] in E. rewrite Ei in E. cbn in E. injection E as <-. by destruct n.
Qed.

Section Fork.
Context {C : ConstantsHal} {CL : ConstantsLaws C} {P : PageTableEntryHal} {L : PteLaws C P}.
Context {W : WalkHal} {V : PageLevelHal} {WL : WalkLaws C P L W V}.
Context {A : Type} {F : FrameAllocatorHal A} {FL : FrameAllocatorLaws C A}.
Context {G : GlobalAlloc} {GL : GlobalAllocLaws G} {FS : FileStore}.
Context (Small : PageLevel) (Small_low : lowest Small = true).
Implicit Types (σ : Machine A) (u : UserVmSpace).

(** ** Two tables in one machine *)

Record apart σ (pt1 pt2 : PageTable) : Prop := {
  ap_12 w : own σ pt1 w -> ~ tables σ pt2 w;
  ap_21 w : own σ pt2 w -> ~ tables σ pt1 w;
}.

Lemma apart_sym σ pt1 pt2 : apart σ pt1 pt2 -> apart σ pt2 pt1.
Proof. intros [? ?]. by constructor. Qed.

(** The counted frames of [σ'] are those of [σ], whatever the counts. *)
Definition same_frames σ σ' : Prop :=
  forall p x, mc_arcs σ' !! p = Some x -> exists y, mc_arcs σ !! p = Some y /\ sp_data y = sp_data x.

(** A change to one table leaves the other as it was. *)
Lemma other_ok σ σ' pt1 pt1' pt2 :
  mc_ok σ pt2 -> apart σ pt1 pt2 -> keeps σ σ' pt1 pt1' -> mc_ok σ' pt1' -> same_frames σ σ' ->
  mc_ok σ' pt2 /\ apart σ' pt1' pt2 /\ (forall v, reg_vpn v -> page_of σ' pt2 v = page_of σ pt2 v) /\
  (forall w, own σ' pt2 w <-> own σ pt2 w).
Proof.
  intros Hok2 [H12 H21] Hk Hok1 Hsf. pose proof (mo_pt σ pt2 Hok2) as Hinv.
  assert (Hfix : forall w k, table_of (mc_mem σ) (root_ppn pt2) w -> mc_mem σ' w k = mc_mem σ w k).
  { intros w k Hw. apply (k_mem _ _ _ _ Hk).
    - destruct Hw as (q & Hq & E). by apply (pti_table _ _ _ Hinv q).
    - intros Ho. by apply (H12 w). }
  assert (Hnf : forall w, tables σ pt2 w -> w ∉ free σ).
  { intros w (q & Hq & E). by apply (pti_table _ _ _ Hinv q). }
  destruct (pt_frame (mc_mem σ) (mc_mem σ') (mc_fa σ) (mc_fa σ') (root_ppn pt2) Hinv) as [Hinv' Htab].
  { apply (mo_pt σ' pt1' Hok1). }
  { intros w Hw Hf. apply (Hnf w Hw). by apply (k_free _ _ _ _ Hk). }
  { done. }
  assert (Hown : forall w, own σ' pt2 w <-> own σ pt2 w).
  { intros w. pose proof (walk_frame _ _ _ Hfix) as Hwk.
    split; intros (q & Hq & Ho & E); exists q; (split; [done|]; split; [done|]).
    - by rewrite <- Hwk.
    - by rewrite Hwk. }
  split; [|split].
  - destruct Hok1 as [_ Ha Hi Hz Hc Hs]. constructor; try done.
    intros p x Hp. destruct (Ha p x Hp) as (f & Ef & Hf1 & Hf2 & _ & Hrc). exists f.
    do 3 (split; [done|]). split; [|done]. intros Ht. apply Htab in Ht.
    destruct (Hsf p x Hp) as (y & Hy & Ey). destruct (mo_arc σ pt2 Hok2 p y Hy) as (g & Eg & _ & _ & Hg & _).
    rewrite Ey, Ef in Eg. injection Eg as ->. done.
  - constructor.
    + intros w Hw Ht. apply Htab in Ht. destruct (k_own _ _ _ _ Hk w Hw) as [Ho|[Hf _]].
      * by apply (H12 w).
      * by apply (Hnf w).
    + intros w Hw Ht. apply Hown in Hw. destruct (k_tables _ _ _ _ Hk w Ht) as [Ho|[Hf _]].
      * by apply (H21 w).
      * apply (Hnf w); [by apply own_table|done].
  - split; [|done]. intros v Hv. by apply lookup_frame.
Qed.

Lemma same_frames_refl σ σ' : mc_arcs σ' = mc_arcs σ -> same_frames σ σ'.
Proof. intros E p x Hp. rewrite E in Hp. by exists x. Qed.

(** ** The three loops of a fork, over the pages [(vpn, frame)] of an area *)

Lemma perm_remove_idem p f : bf_remove (bf_remove p f) f = bf_remove p f.
Proof.
  unfold bf_remove. apply Z.bits_inj'. intros i Hi. rewrite !Z.ldiff_spec.
  by destruct (Z.testbit p i), (Z.testbit f i).
Qed.

(** Write-protecting the parent's pages. *)
Lemma protect_list_ok σ pt (l : list (Z * Z)) :
  mc_ok σ pt -> NoDup l.*1 ->
  (forall e, e ∈ l -> reg_vpn e.1 /\ exists x, page_of σ pt e.1 = Some x /\ v_valid (pte_view_of x) = true) ->
  exists m, let σ' := with_mem σ m in
    vm_fold (fun _ e => cow_protect_one pt e) tt l σ = Ret (tt, σ') /\ mc_ok σ' pt /\ keeps σ σ' pt pt /\
    (forall v, reg_vpn v -> v ∉ l.*1 -> page_of σ' pt v = page_of σ pt v) /\
    (forall v x, v ∈ l.*1 -> page_of σ pt v = Some x -> exists y, page_of σ' pt v = Some y /\
       pte_view_of y = mkView (v_ppn (pte_view_of x)) (bf_remove (v_perm (pte_view_of x)) MapPerm_W)
                         true false (v_cow (pte_view_of x))).
Proof.
  revert σ. induction l as [|[k p] l IH]; intros σ Hok Hnd Hl.
  { exists (mc_mem σ). cbv zeta. destruct σ. split; [done|]. split; [done|].
    split; [apply (keeps_refl (mkMachine _ _ _ _ _ _))|]. split; [done|].
    intros v x Hv. by apply not_elem_of_nil in Hv. }
  apply NoDup_cons in Hnd as [Hk Hnd]. cbn [fst] in Hk.
  destruct (Hl (k, p)) as (Hv & x & Hx & Hval); [by left|]. cbn [fst] in *.
  pose proof (vm_find_pte_ok σ pt k Hok Hv) as Hf. rewrite Hx in Hf.
  destruct Hf as (t & Ht & He & Ef).
  destruct (set_write_dirty_ok Small Small_low σ pt k t x false Hok Hv Ht He
    (page_entry_wf σ pt k x Hok Hv Hx) Hval) as (m1 & y & E1 & Hok1 & Hk1 & Hy & Hl1).
  destruct (IH _ Hok1 Hnd) as (m2 & E2 & Hok2 & Hk2 & Ho2 & Hp2).
  { intros [v q] Hin. destruct (Hl (v, q)) as (Hv' & z & Hz & Hzv); [by right|]. cbn [fst] in *.
    split; [done|]. exists z. rewrite Hl1 by done.
    destruct (Z.eqb_spec v k) as [->|]; [|done]. destruct Hk. apply list_elem_of_fmap. by exists (k, q). }
  exists m2. cbv zeta. split.
  { cbn [vm_fold]. erewrite run_bind; [exact E2|]. unfold cow_protect_one. erewrite run_bind by exact Ef.
    erewrite run_bind by done. exact E1. }
  split; [exact Hok2|]. split; [by eapply keeps_trans|]. cbn [fmap list_fmap fst]. split.
  - intros v Hv' Hn. rewrite elem_of_cons in Hn. etransitivity; [apply Ho2; tauto|].
    rewrite Hl1 by done. destruct (Z.eqb_spec v k); [tauto|done].
  - intros v z Hin Hz. destruct (decide (v = k)) as [->|Hne].
    + rewrite Hx in Hz. injection Hz as <-. exists y. split; [|done].
      etransitivity; [by apply Ho2|]. by rewrite Hl1, Z.eqb_refl.
    + apply elem_of_cons in Hin as [?|Hin]; [done|]. apply Hp2; [done|].
      apply list_elem_of_fmap in Hin as ([v' q] & -> & Hin). cbn [fst] in *.
      rewrite Hl1 by apply (Hl (v', q) ltac:(by right)). by destruct (Z.eqb_spec v' k).
Qed.

Lemma payload_inj f n g k :
  Some (mkPayload (one f) n) = Some (mkPayload (one g) k) -> f = g /\ n = k.
Proof. by intros [= -> _ ->]. Qed.

(** How often a frame occurs among the pages. *)
Definition occ (p : Z) (l : list (Z * Z)) : Z := Z.of_nat (length (filter (fun e => e.2 = p) l)).

Lemma occ_cons p e l : occ p (e :: l) = (if bool_decide (e.2 = p) then 1 else 0) + occ p l.
Proof.
  unfold occ. rewrite filter_cons. destruct (decide (e.2 = p)) as [E|E].
  - rewrite bool_decide_eq_true_2 by done. cbn [length]. lia.
  - by rewrite bool_decide_eq_false_2 by done.
Qed.

Lemma occ_nonneg p l : 0 <= occ p l.
Proof. unfold occ. lia. Qed.

Lemma occ_le p l : occ p l <= Z.of_nat (length l).
Proof. unfold occ. pose proof (length_filter (fun e => e.2 = p) l). lia. Qed.

Lemma occ_in v p l : (v, p) ∈ l -> 1 <= occ p l.
Proof.
  induction l as [|e l IH]; intros Hin; [by apply not_elem_of_nil in Hin|]. rewrite occ_cons.
  pose proof (occ_nonneg p l). apply elem_of_cons in Hin as [<-|Hin].
  - rewrite bool_decide_eq_true_2 by done. lia.
  - specialize (IH Hin). destruct (bool_decide _); lia.
Qed.

(** Taking a handle on the frame of every page. *)
Lemma clone_list_ok σ (l : list (Z * Z)) :
  (forall e, e ∈ l -> exists x, mc_arcs σ !! e.2 = Some x /\ sp_rc x + Z.of_nat (length l) <= usize_max) ->
  exists h, let σ' := with_arcs σ h in
    (forall pt, mc_ok σ pt -> vm_fold (fun _ e => _ ← vm_arc_clone e.2; mret tt) tt l σ = Ret (tt, σ') /\
       mc_ok σ' pt) /\
    (forall p, h !! p = (fun x => mkPayload (sp_data x) (sp_rc x + occ p l)) <$> mc_arcs σ !! p).
Proof.
  revert σ. induction l as [|[k p] l IH]; intros σ Hl.
  { exists (mc_arcs σ). cbv zeta. split; [by destruct σ|]. intros p. destruct (mc_arcs σ !! p) as [[d n]|]; [|done].
    cbn. by rewrite Z.add_0_r. }
  destruct (Hl (k, p)) as (x & Hx & Hrc); [by left|]. cbn [snd length] in *.
  set (σ1 := with_arcs σ (<[p := mkPayload (sp_data x) (sp_rc x + 1)]> (mc_arcs σ))).
  destruct (IH σ1) as (h & Hrun & Hh).
  { intros [v q] Hin. destruct (Hl (v, q)) as (y & Hy & Hyrc); [by right|]. cbn [snd] in *.
    cbn [σ1 mc_arcs with_arcs]. destruct (decide (p = q)) as [->|Hne].
    - rewrite lookup_insert_eq. eexists. split; [done|]. cbn [sp_rc]. lia.
    - rewrite lookup_insert_ne by done. exists y. split; [done|]. lia. }
  exists h. cbv zeta. split.
  - intros pt Hok. destruct (vm_arc_clone_ok σ pt p x Hok Hx ltac:(lia)) as [E1 Hok1].
    destruct (Hrun pt Hok1) as [E2 Hok2]. split; [|exact Hok2]. cbn [vm_fold snd].
    erewrite run_bind; [exact E2|]. by erewrite run_bind by exact E1.
  - intros q. rewrite Hh, occ_cons. cbn [σ1 mc_arcs with_arcs snd]. destruct (decide (p = q)) as [->|Hne].
    + rewrite lookup_insert_eq, Hx, bool_decide_eq_true_2 by done. cbn. f_equal. f_equal. lia.
    + rewrite lookup_insert_ne, bool_decide_eq_false_2 by done. done.
Qed.

(** Mapping the pages in the child's table. *)
Definition child_perm (a : UserVmArea) (n : Z) : Z :=
  if (1 <? n) && negb (shared a) then bf_remove (map_perm a) MapPerm_W else map_perm a.

Lemma map_one_ok σ pt a v p f n :
  mc_ok σ pt -> reg_vpn v -> is_perm (map_perm a) -> mc_arcs σ !! p = Some (mkPayload (one f) n) ->
  walk (mc_mem σ) (root_ppn pt) (dir_path v) <> None \/ (PG_LEVEL - 1 <= size (free σ))%nat ->
  exists m fa pt', let σ' := with_fa (with_mem σ m) fa in
    area_map_one Small a pt (v, p) σ = Ret (pt', σ') /\ mc_ok σ' pt' /\ keeps σ σ' pt pt' /\
    (exists e, page_of σ' pt' v = Some e /\ v_valid (pte_view_of e) = true /\ v_ppn (pte_view_of e) = f /\
       v_perm (pte_view_of e) = child_perm a n) /\
    (forall w, reg_vpn w -> w <> v -> page_of σ' pt' w = page_of σ pt w) /\
    (size (free σ) <= size (free σ') + (PG_LEVEL - 1))%nat /\
    (walk (mc_mem σ) (root_ppn pt) (dir_path v) <> None -> fa = mc_fa σ).
Proof.
  intros Hok Hv Hp Hx Hsz. destruct (mo_arc σ pt Hok p _ Hx) as (g & Eg & Hppn & _). injection Eg as <-.
  destruct (vm_map_ok Small Small_low σ pt v f (map_perm a) Hok Hv Hppn Hp Hsz)
    as (t & m & fa & pt' & E1 & Heq & Hok1 & Hk1 & Ht & He & Hl1 & _ & Hsz1).
  destruct (wl_leaf f (map_perm a) Hppn Hp) as (Hwf & _ & Hview).
  set (σ1 := with_fa (with_mem σ m) fa) in *.
  assert (Efr : vm_frame p σ = Ret (one f, σ)) by (unfold vm_frame, arc_deref; by rewrite Hx).
  assert (Eow : vm_owners p σ1 = Ret (n, σ1)).
  { unfold vm_owners, arc_get_owners. change (mc_arcs σ1) with (mc_arcs σ). by rewrite Hx. }
  unfold child_perm. destruct ((1 <? n) && negb (shared a)) eqn:Eb.
  - destruct (set_write_dirty_ok Small Small_low σ1 pt' v t _ false Hok1 Hv Ht He Hwf) as
      (m2 & e2 & E2 & Hok2 & Hk2 & Hv2 & Hl2); [by rewrite Hview|].
    exists m2, fa, pt'. cbv zeta. split.
    { unfold area_map_one. cbn [fst snd]. erewrite run_bind by exact Efr. erewrite run_bind by exact E1.
      erewrite run_bind by exact Eow. rewrite Eb. cbn [fst snd]. by erewrite run_bind by exact E2. }
    split; [exact Hok2|]. split; [by eapply keeps_trans|]. split; [|split; [|split; [exact Hsz1|exact Heq]]].
    + exists e2. split; [etransitivity; [by apply Hl2|]; by rewrite Z.eqb_refl|]. rewrite Hv2, Hview. done.
    + intros w Hw Hne. etransitivity; [by apply Hl2|]. destruct (Z.eqb_spec w v); [done|].
      rewrite Hl1 by done. by destruct (Z.eqb_spec w v).
  - exists m, fa, pt'. cbv zeta. split.
    { unfold area_map_one. cbn [fst snd]. erewrite run_bind by exact Efr. erewrite run_bind by exact E1.
      erewrite run_bind by exact Eow. rewrite Eb. done. }
    split; [exact Hok1|]. split; [exact Hk1|]. split; [|split; [|split; [exact Hsz1|exact Heq]]].
    + exists (leaf_entry f (map_perm a)). rewrite Hl1, Z.eqb_refl, Hview by done. done.
    + intros w Hw Hne. rewrite Hl1 by done. by destruct (Z.eqb_spec w v).
Qed.

Lemma map_list_ok σ pt a (l : list (Z * Z)) :
  mc_ok σ pt -> NoDup l.*1 -> is_perm (map_perm a) ->
  (forall e, e ∈ l -> reg_vpn e.1 /\ exists f n, mc_arcs σ !! e.2 = Some (mkPayload (one f) n)) ->
  (forall e, e ∈ l -> walk (mc_mem σ) (root_ppn pt) (dir_path e.1) <> None) \/
    (length l * (PG_LEVEL - 1) <= size (free σ))%nat ->
  exists m fa pt', let σ' := with_fa (with_mem σ m) fa in
    vm_fold (area_map_one Small a) pt l σ = Ret (pt', σ') /\ mc_ok σ' pt' /\ keeps σ σ' pt pt' /\
    (forall v p f n, (v, p) ∈ l -> mc_arcs σ !! p = Some (mkPayload (one f) n) ->
       exists e, page_of σ' pt' v = Some e /\ v_valid (pte_view_of e) = true /\ v_ppn (pte_view_of e) = f /\
         v_perm (pte_view_of e) = child_perm a n) /\
    (forall w, reg_vpn w -> w ∉ l.*1 -> page_of σ' pt' w = page_of σ pt w) /\
    (size (free σ) <= size (free σ') + length l * (PG_LEVEL - 1))%nat /\
    ((forall e, e ∈ l -> walk (mc_mem σ) (root_ppn pt) (dir_path e.1) <> None) -> fa = mc_fa σ).
Proof.
  intros Hok Hnd Hperm. revert σ pt Hok Hnd. induction l as [|[k p] l IH]; intros σ pt Hok Hnd Hl Hsz.
  { exists (mc_mem σ), (mc_fa σ), pt. cbv zeta. destruct σ. split; [done|]. split; [done|].
    split; [apply (keeps_refl (mkMachine _ _ _ _ _ _))|].
    split; [intros v p f n H; by apply not_elem_of_nil in H|]. split; [done|]. split; [apply Nat.le_add_r|done]. }
  apply NoDup_cons in Hnd as [Hk Hnd]. cbn [fst length] in *. rewrite Nat.mul_succ_l in *.
  pose proof (Nat.le_0_l (length l * (PG_LEVEL - 1))) as Hnn.
  destruct (Hl (k, p)) as (Hv & f & n & Hx); [by left|]. cbn [fst snd] in *.
  assert (Hsz1 : walk (mc_mem σ) (root_ppn pt) (dir_path k) <> None \/ (PG_LEVEL - 1 <= size (free σ))%nat).
  { destruct Hsz as [Hsz|Hsz]; [left; apply (Hsz (k, p)); by left|right; lia]. }
  destruct (map_one_ok σ pt a k p f n Hok Hv Hperm Hx Hsz1)
    as (m1 & fa1 & pt1 & E1 & Hok1 & Hk1 & Hp1 & Ho1 & Hs1 & Heq1). cbv zeta in *.
  set (σ1 := with_fa (with_mem σ m1) fa1) in *.
  assert (Hwk : (forall e, e ∈ (k, p) :: l -> walk (mc_mem σ) (root_ppn pt) (dir_path e.1) <> None) ->
    forall e, e ∈ l -> walk (mc_mem σ1) (root_ppn pt1) (dir_path e.1) <> None).
  { intros H e He. specialize (H e (list_elem_of_further _ _ _ He)). destruct (Hl e) as [Hre _]; [by right|].
    destruct (walk (mc_mem σ) (root_ppn pt) (dir_path e.1)) as [t|] eqn:Et; [|done].
    rewrite (k_root _ _ _ _ Hk1), (k_walk _ _ _ _ Hk1 _ t); [done|by apply dir_node|done]. }
  destruct (IH σ1 pt1 Hok1 Hnd) as (m2 & fa2 & pt2 & E2 & Hok2 & Hk2 & Hp2 & Ho2 & Hs2 & Heq2).
  { intros e He. apply Hl. by right. }
  { destruct Hsz as [Hsz|Hsz]; [left; by apply Hwk|right; lia]. }
  exists m2, fa2, pt2. cbv zeta. split; [cbn [vm_fold]; by erewrite run_bind by exact E1|].
  split; [exact Hok2|]. split; [by eapply keeps_trans|]. split; [|split; [|split]].
  - intros v q g i Hin Hq. apply elem_of_cons in Hin as [[= -> ->]|Hin]; [|by apply (Hp2 v q)].
    rewrite Hx in Hq. apply payload_inj in Hq as [<- <-]. destruct Hp1 as (e & He & Hr). exists e. split; [|done].
    rewrite <- He. by apply Ho2.
  - intros w Hw Hn. rewrite fmap_cons, elem_of_cons in Hn. etransitivity; [apply Ho2; tauto|]. apply Ho1; tauto.
  - etransitivity; [exact Hs1|]. etransitivity; [apply Nat.add_le_mono_r; exact Hs2|].
    change (with_fa (with_mem σ1 m2) fa2) with (with_fa (with_mem σ m2) fa2). lia.
  - intros H. rewrite (Heq2 (Hwk H)). apply Heq1. apply (H (k, p)). by left.
Qed.

(** ** Copy-on-write between two address spaces *)

Lemma contains_removed p : contains (bf_remove p MapPerm_W) MapPerm_W = false.
Proof.
  unfold contains, bf_remove. apply Z.eqb_neq. intros E.
  assert (E0 : Z.land (Z.ldiff p MapPerm_W) MapPerm_W = 0).
  { apply Z.bits_inj'. intros i Hi. rewrite Z.land_spec, Z.ldiff_spec, Z.bits_0.
    by destruct (Z.testbit p i), (Z.testbit MapPerm_W i). }
  rewrite E0 in E. discriminate E.
Qed.

(** The page is present and cannot be written. *)
Definition read_only σ (pt : PageTable) (v : Z) : Prop :=
  exists e, page_of σ pt v = Some e /\ contains (v_perm (pte_view_of e)) MapPerm_W = false.

(** All pages of an address space, with their frames. *)
Definition frame_list (m : RangeMap UserVmArea) : list (Z * Z) :=
  flat_map (fun e => bt_iter (frames (n_value e.2))) m.

Lemma frame_list_app m1 m2 : frame_list (m1 ++ m2) = frame_list m1 ++ frame_list m2.
Proof. apply flat_map_app. Qed.

Lemma occ_app p l1 l2 : occ p (l1 ++ l2) = occ p l1 + occ p l2.
Proof. unfold occ. rewrite filter_app, length_app. lia. Qed.

(** Changing counts alone. *)
Lemma uvm_ok_counts σ u h (k : Z -> Z) :
  uvm_ok σ u -> mc_ok (with_arcs σ h) (page_table u) ->
  (forall p, h !! p = (fun x => mkPayload (sp_data x) (sp_rc x + k p)) <$> mc_arcs σ !! p) ->
  uvm_ok (with_arcs σ h) u.
Proof.
  intros [Hmc Hs Hw Hp] Hmc' Hh. constructor; [done..|]. intros v Hv. specialize (Hp v Hv).
  destruct (rm_at (areas u) v) as [[r a]|]; [|done]. unfold shows in *.
  destruct (frames a !! v) as [p|]; [|done]. destruct Hp as (e & f & n & He & Ha & Hr).
  exists e, f, (n + k p). split; [done|]. split; [|done]. cbn [mc_arcs with_arcs]. by rewrite Hh, Ha.
Qed.

(** Another table changed, ours did not. *)
Lemma uvm_ok_other σ σ' u :
  uvm_ok σ u -> mc_ok σ' (page_table u) -> mc_arcs σ' = mc_arcs σ ->
  (forall v, reg_vpn v -> page_of σ' (page_table u) v = page_of σ (page_table u) v) -> uvm_ok σ' u.
Proof.
  intros [Hmc Hs Hw Hp] Hmc' Ha Hpg. constructor; [done..|]. intros v Hv. specialize (Hp v Hv).
  destruct (rm_at (areas u) v) as [[r a]|]; [|by rewrite Hpg].
  apply (shows_eq σ _ (page_table u)); [by apply Hpg|done|done].
Qed.

(** The first half of [clone_cow] on a stored area. *)
Lemma protect_area_ok σ u k r a :
  uvm_ok σ u -> rm_at (areas u) k = Some (r, a) ->
  exists m, let σ' := with_mem σ m in
    (if negb (shared a) && contains (map_perm a) MapPerm_W
     then vm_fold (fun _ e => cow_protect_one (page_table u) e) tt (bt_iter (frames a)) else mret tt) σ =
      Ret (tt, σ') /\
    uvm_ok σ' u /\ keeps σ σ' (page_table u) (page_table u) /\
    (forall v, read_only σ (page_table u) v -> reg_vpn v -> read_only σ' (page_table u) v) /\
    (shared a = false -> forall v, is_Some (frames a !! v) -> read_only σ' (page_table u) v).
Proof.
  intros Hok Ea. pose proof Hok as [Hmc Hs Hw Hp]. destruct (space_at _ k r a Hs Ea) as (Hoka & Hr & Hk1 & Hk2).
  assert (Hat : forall v, is_Some (frames a !! v) -> reg_vpn v /\ rm_at (areas u) v = Some (r, a)).
  { intros v [p Hv]. pose proof (ao_frames a Hoka v p Hv) as Hin. split; [by apply (area_vpn a)|].
    apply (rm_at_same 0 _ k); [apply Hs|done|]. rewrite <- Hr. apply Hin. }
  assert (Hsh : forall v, is_Some (frames a !! v) -> exists e, page_of σ (page_table u) v = Some e /\
    v_valid (pte_view_of e) = true /\
    (v_perm (pte_view_of e) = map_perm a \/ v_perm (pte_view_of e) = bf_remove (map_perm a) MapPerm_W)).
  { intros v Hv. destruct (Hat v Hv) as [Hreg Hav]. specialize (Hp v Hreg). rewrite Hav in Hp.
    unfold shows in Hp. destruct Hv as [p Hv]. rewrite Hv in Hp.
    destruct Hp as (e & f & n & He & _ & Hval & _ & Hperm). by exists e. }
  destruct (negb (shared a) && contains (map_perm a) MapPerm_W) eqn:Eb.
  - destruct (protect_list_ok σ (page_table u) (bt_iter (frames a)) Hmc (bt_iter_nodup _))
      as (m & E & Hmc' & Hk & Hout & Hin).
    { intros [v p] Hvp. assert (Hv : is_Some (frames a !! v)) by (apply elem_of_bt_iter in Hvp; by exists p).
      split; [apply (Hat v Hv)|]. destruct (Hsh v Hv) as (e & He & Hval & _). by exists e. }
    exists m. cbv zeta. split; [exact E|]. split; [|split; [exact Hk|split]].
    + constructor; [done..|]. intros v Hv. specialize (Hp v Hv).
      destruct (decide (v ∈ (bt_iter (frames a)).*1)) as [Hvl|Hvl].
      * apply bt_iter_keys in Hvl as Hvs. destruct (Hat v Hvs) as [_ Hav]. rewrite Hav in *.
        unfold shows in *. destruct Hvs as [p Hvp]. rewrite Hvp in *.
        destruct Hp as (e & f & n & He & Ha & Hval & Hppn & Hperm).
        destruct (Hin v e Hvl He) as (y & Hy & Hview). exists y, f, n. rewrite Hview. cbn [v_valid v_ppn v_perm].
        split_and!; try done. right. destruct Hperm as [-> | ->]; [done|apply perm_remove_idem].
      * destruct (rm_at (areas u) v) as [[r' b]|]; [|by rewrite Hout].
        apply (shows_eq σ _ (page_table u)); [by apply Hout|done|done].
    + intros v (e & He & Hro) Hv. destruct (decide (v ∈ (bt_iter (frames a)).*1)) as [Hvl|Hvl].
      * destruct (Hin v e Hvl He) as (y & Hy & Hview). exists y. rewrite Hview. split; [done|]. apply contains_removed.
      * exists e. by rewrite Hout.
    + intros _ v Hvs. apply bt_iter_keys in Hvs as Hvl. destruct (Hsh v Hvs) as (e & He & _).
      destruct (Hin v e Hvl He) as (y & Hy & Hview). exists y. rewrite Hview. split; [done|]. apply contains_removed.
  - exists (mc_mem σ). cbv zeta. assert (Eσ : with_mem σ (mc_mem σ) = σ) by by destruct σ. rewrite Eσ.
    split; [done|]. split; [done|]. split; [apply keeps_refl|]. split; [auto|].
    intros Hns v Hvs. destruct (Hsh v Hvs) as (e & He & _ & Hperm). exists e. split; [done|].
    rewrite Hns in Eb. cbn in Eb. destruct Hperm as [-> | ->]; [done|apply contains_removed].
Qed.

(** The state of a fork once the areas [done] of the parent have been shared with
    the child.  [σ0] is the machine before it. *)
Record forked σ0 σ u (c : UserVmSpace) (done : RangeMap UserVmArea) : Prop := {
  fk_parent : uvm_ok σ u;
  fk_child : uvm_ok σ c;
  fk_areas : areas c = done;
  fk_apart : apart σ (page_table u) (page_table c);
  fk_cow v r a : rm_at done v = Some (r, a) -> shared a = false -> is_Some (frames a !! v) ->
    read_only σ (page_table u) v /\ read_only σ (page_table c) v;
  fk_counts p : mc_arcs σ !! p =
    (fun x => mkPayload (sp_data x) (sp_rc x + occ p (frame_list done))) <$> mc_arcs σ0 !! p;
  fk_mem w k : w ∉ free σ0 -> ~ own σ0 (page_table u) w -> mc_mem σ w k = mc_mem σ0 w k;
  fk_own w : own σ (page_table u) w -> own σ0 (page_table u) w;
  fk_fresh w : own σ (page_table c) w -> w ∈ free σ0;
  fk_free : free σ ⊆ free σ0;
  fk_size : (size (free σ0) <= size (free σ) + 1 + length (frame_list done) * (PG_LEVEL - 1))%nat;
}.

(** [push_area] of an area whose frames are counted: it goes in and its pages are
    mapped, without a new frame if their tables exist. *)
Lemma push_area_at σ c a r :
  uvm_ok σ c -> area_ok a -> area_wf a -> range_vpn a = r -> rm_free (areas c) (r_start r) (r_end r) ->
  (forall v p, frames a !! v = Some p -> exists f k, mc_arcs σ !! p = Some (mkPayload (one f) k)) ->
  (forall v, is_Some (frames a !! v) -> walk (mc_mem σ) (root_ppn (page_table c)) (dir_path v) <> None) \/
    (length (bt_iter (frames a)) * (PG_LEVEL - 1) <= size (free σ))%nat ->
  exists m1 pt' m fa, let σ' := with_fa (with_mem σ m) fa in
    let c' := mkUvm pt' (rm_set m1 (r_start r) a) (heap_bottom_va c) in
    rm_try_insert (areas c) r a = Ret (Ok m1) /\
    push_area Small c a None σ = Ret (c', σ') /\ uvm_ok σ' c' /\ keeps σ σ' (page_table c) pt' /\
    (forall v, rm_at (areas c') v = if (r_start r <=? v) && (v <? r_end r) then Some (r, a) else rm_at (areas c) v) /\
    (forall v, reg_vpn v -> ~ in_range v r -> page_of σ' pt' v = page_of σ (page_table c) v) /\
    (forall v p f k, frames a !! v = Some p -> mc_arcs σ !! p = Some (mkPayload (one f) k) ->
       exists e, page_of σ' pt' v = Some e /\ v_valid (pte_view_of e) = true /\ v_ppn (pte_view_of e) = f /\
         v_perm (pte_view_of e) = child_perm a k) /\
    (size (free σ) <= size (free σ') + length (bt_iter (frames a)) * (PG_LEVEL - 1))%nat /\
    ((forall v, is_Some (frames a !! v) -> walk (mc_mem σ) (root_ppn (page_table c)) (dir_path v) <> None) ->
       fa = mc_fa σ).
Proof.
  intros [Hmc Hs Hw Hp] Ha Hwf Hr Hfree Harcs Hsz. destruct (area_pages a Ha) as (_ & Hpg & _). rewrite Hr in Hpg.
  assert (Hwk : (forall v, is_Some (frames a !! v) -> walk (mc_mem σ) (root_ppn (page_table c)) (dir_path v) <> None) ->
    forall e, e ∈ bt_iter (frames a) -> walk (mc_mem σ) (root_ppn (page_table c)) (dir_path e.1) <> None).
  { intros H [v p] Hvp%elem_of_bt_iter. apply H. by exists p. }
  destruct (map_list_ok σ (page_table c) a (bt_iter (frames a)) Hmc (bt_iter_nodup _) (proj1 Hwf))
    as (m & fa & pt' & E & Hmc' & Hk & Hin & Hout & Hsz' & Heq); [|destruct Hsz; auto|].
  { intros [v p] Hvp%elem_of_bt_iter. cbn [fst snd]. split; [|by apply (Harcs v)].
    apply (area_vpn a v Ha). by apply (ao_frames a Ha v p). }
  destruct (insert_back (areas c) a r Hs Ha Hr Hfree) as (m1 & E1 & Hs1 & Hat1).
  assert (K : rm_at m1 (r_start r) = Some (r, a)) by (rewrite Hat1; by zcmp).
  destruct (rm_set_spec 0 m1 _ r a a (so_map m1 Hs1) K) as [Hm2 A2].
  assert (Hat : forall v, rm_at (rm_set m1 (r_start r) a) v =
    if (r_start r <=? v) && (v <? r_end r) then Some (r, a) else rm_at (areas c) v).
  { intros v. rewrite A2, Hat1. by destruct (_ && _). }
  assert (Hdis : forall v, ~ in_range v r -> v ∉ (bt_iter (frames a)).*1).
  { intros v Hv Hvl. apply bt_iter_keys in Hvl as [p Hvp]. apply (ao_frames a Ha) in Hvp. by rewrite Hr in Hvp. }
  exists m1, pt', m, fa. cbv zeta. split; [done|]. split.
  { unfold push_area. rewrite Hr. erewrite run_bind; [|unfold vm_lift; rewrite E1; done]. cbn beta iota.
    erewrite run_bind by done. unfold area_map. by erewrite run_bind by exact E. }
  split; [|split; [exact Hk|split; [exact Hat|split; [|split; [|split; [exact Hsz'|auto]]]]]].
  - constructor; cbn [page_table areas].
    + exact Hmc'.
    + constructor; [done|]. intros k r' x. rewrite Hat. destruct (_ && _); [by intros [= <- <-]|]. apply (so_area _ Hs).
    + intros k r' x. rewrite Hat. destruct (_ && _); [by intros [= <- <-]|]. apply Hw.
    + intros v Hv. rewrite Hat. specialize (Hp v Hv). destruct ((r_start r <=? v) && (v <? r_end r)) eqn:Eb.
      * assert (Hn : rm_at (areas c) v = None) by (apply Hfree; bool_to_prop; lia). rewrite Hn in Hp.
        unfold shows. destruct (frames a !! v) as [p|] eqn:Ev.
        -- destruct (Harcs v p Ev) as (f & k & Hpa).
           destruct (Hin v p f k ltac:(by apply elem_of_bt_iter) Hpa) as (e & He & Hval & Hppn & Hperm).
           exists e, f, k. split; [done|]. do 3 (split; [done|]).
           rewrite Hperm. unfold child_perm. destruct ((1 <? k) && negb (shared a)); [by right|by left].
        -- rewrite Hout; [done|done|]. rewrite bt_iter_keys, Ev. by intros [].
      * assert (Hnr : ~ in_range v r) by (intros [? ?]; revert Eb; by zcmp).
        destruct (rm_at (areas c) v) as [[r' x]|]; [|by rewrite Hout by (done || by apply Hdis)].
        apply (shows_eq σ _ (page_table c)); [|done|done]. apply Hout; [done|by apply Hdis].
  - intros v Hv Hne. apply Hout; [done|by apply Hdis].
  - intros v p f k Ev Hpa. apply (Hin v p f k); [by apply elem_of_bt_iter|done].
Qed.

(** The child's half of the step: the area goes in after the last. *)
Lemma push_area_frames σ c s n :
  let a := n_value n in
  uvm_ok σ c -> rm_ok 0 (areas c ++ [(s, n)]) -> area_ok a -> area_wf a ->
  range_vpn a = mkRange s (n_end n) ->
  (forall v p, frames a !! v = Some p -> exists f k, mc_arcs σ !! p = Some (mkPayload (one f) k)) ->
  (length (bt_iter (frames a)) * (PG_LEVEL - 1) <= size (free σ))%nat ->
  exists pt' m fa, let σ' := with_fa (with_mem σ m) fa in
    let c' := mkUvm pt' (areas c ++ [(s, n)]) (heap_bottom_va c) in
    push_area Small c a None σ = Ret (c', σ') /\ uvm_ok σ' c' /\ keeps σ σ' (page_table c) pt' /\
    (forall v, reg_vpn v -> rm_at (areas c) v <> None -> page_of σ' pt' v = page_of σ (page_table c) v) /\
    (forall v p f k, frames a !! v = Some p -> mc_arcs σ !! p = Some (mkPayload (one f) k) ->
       1 < k -> shared a = false -> read_only σ' pt' v) /\
    (size (free σ) <= size (free σ') + length (bt_iter (frames a)) * (PG_LEVEL - 1))%nat.
Proof.
  intros a Hok Hrm Ha Hwf Hr Harcs Hsz. apply rm_ok_app in Hrm as Hrm'. destruct Hrm' as [Hrm1 [Hhi _]].
  destruct (rm_ok_mid 0 _ _ _ _ Hrm) as (_ & Hlt & _ & Hbelow & _).
  destruct (push_area_at σ c a _ Hok Ha Hwf Hr) as (m1 & pt' & m & fa & E1 & E & Hok' & Hk & _ & Hout & Hro & Hs' & _);
    [|done|by right|].
  { intros v Hv. cbn [r_start] in Hv. apply (rm_at_above 0); [done|lia]. }
  cbn [r_start r_end] in *. pose proof (rm_push_last 0 (areas c) s n Hrm) as E2. fold a in E2. rewrite E2 in E1. injection E1 as <-.
  assert (Eset : rm_set (areas c ++ [(s, n)]) s a = areas c ++ [(s, n)]).
  { unfold rm_set. rewrite bt_alter_mid; [by destruct n|]. intros e He. specialize (Hbelow e He). lia. }
  rewrite Eset in *. exists pt', m, fa. cbv zeta. split; [exact E|]. split; [exact Hok'|]. split; [exact Hk|].
  split; [|split; [|exact Hs']].
  - intros v Hv Hne. apply Hout; [done|]. intros Hin. apply Hne.
    apply (rm_at_above 0); [done|]. unfold in_range in Hin. cbn [r_start] in Hin. lia.
  - intros v p f k Ev Hpa Hk1 Hns. destruct (Hro v p f k Ev Hpa) as (e & He & _ & _ & Hperm). exists e. split; [done|].
    rewrite Hperm. unfold child_perm. rewrite Hns. destruct (Z.ltb_spec 1 k); [|lia]. apply contains_removed.
Qed.

(** The frames of a stored area's pages are counted. *)
Lemma stored_frames σ u k r a v p :
  uvm_ok σ u -> rm_at (areas u) k = Some (r, a) -> frames a !! v = Some p ->
  reg_vpn v /\ exists f n, mc_arcs σ !! p = Some (mkPayload (one f) n).
Proof.
  intros Hu Ea Hvp. destruct (space_at _ _ _ _ (uv_space _ _ Hu) Ea) as (Hoka & Hr & _).
  pose proof (ao_frames a Hoka v p Hvp) as Hin. assert (Hreg : reg_vpn v) by by apply (area_vpn a).
  split; [done|]. rewrite Hr in Hin. pose proof (uv_page _ _ Hu v Hreg) as Hp.
  rewrite (rm_at_same 0 _ k v _ _ (so_map _ (uv_space _ _ Hu)) Ea Hin) in Hp.
  unfold shows in Hp. rewrite Hvp in Hp. destruct Hp as (e & f & n & _ & Hpa & _). by exists f, n.
Qed.

(** [clone_cow] of a stored area, seen by the parent [u] and the child [c]. *)
Lemma clone_cow_ok σ u c k r a :
  uvm_ok σ u -> uvm_ok σ c -> apart σ (page_table u) (page_table c) -> rm_at (areas u) k = Some (r, a) ->
  let l := bt_iter (frames a) in
  (forall p x, mc_arcs σ !! p = Some x -> sp_rc x + Z.of_nat (length l) <= usize_max) ->
  exists m h, let σ' := with_arcs (with_mem σ m) h in
    clone_cow a (page_table u) σ = Ret (a, σ') /\
    uvm_ok σ' u /\ uvm_ok σ' c /\ apart σ' (page_table u) (page_table c) /\
    keeps σ (with_mem σ m) (page_table u) (page_table u) /\
    (forall w, own σ' (page_table c) w <-> own σ (page_table c) w) /\
    (forall v, reg_vpn v -> page_of σ' (page_table c) v = page_of σ (page_table c) v) /\
    (forall p, h !! p = (fun x => mkPayload (sp_data x) (sp_rc x + occ p l)) <$> mc_arcs σ !! p) /\
    (forall v, read_only σ (page_table u) v -> reg_vpn v -> read_only σ' (page_table u) v) /\
    (shared a = false -> forall v, is_Some (frames a !! v) -> read_only σ' (page_table u) v).
Proof.
  intros Hpar Hch Hap Ea l Hroom.
  destruct (protect_area_ok σ u k r a Hpar Ea) as (m1 & E1 & Hpar1 & Hk1 & Hro1 & Hroa).
  set (σ1 := with_mem σ m1) in *.
  destruct (other_ok σ σ1 (page_table u) (page_table u) (page_table c)) as (Hmc1 & Hap1 & Hpg1 & Hown1);
    [apply Hch|done|done|apply Hpar1|by apply same_frames_refl|].
  assert (Hch1 : uvm_ok σ1 c) by by apply (uvm_ok_other σ).
  destruct (clone_list_ok σ1 l) as (h & Hclone & Hh).
  { intros [v p] Hvp%elem_of_bt_iter. destruct (stored_frames σ u k r a v p Hpar Ea Hvp) as (_ & f & n & Hpa).
    eexists. split; [exact Hpa|]. by apply (Hroom p). }
  destruct (Hclone (page_table u) (uv_mc _ _ Hpar1)) as [E2 Hmcp2].
  destruct (Hclone (page_table c) (uv_mc _ _ Hch1)) as [_ Hmcc2].
  exists m1, h. cbv zeta. split; [|split_and!; try done].
  - unfold clone_cow. erewrite run_bind by exact E1. fold l. by erewrite run_bind by exact E2.
  - by apply (uvm_ok_counts σ1 u h (fun p => occ p l)).
  - by apply (uvm_ok_counts σ1 c h (fun p => occ p l)).
  - destruct Hap1. by constructor.
Qed.

(** One area of the parent shared with the child. *)
Lemma fork_step σ0 σ u c done s n todo :
  forked σ0 σ u c done -> areas u = done ++ (s, n) :: todo ->
  (forall p x, mc_arcs σ0 !! p = Some x -> 1 <= sp_rc x /\
     sp_rc x + Z.of_nat (length (frame_list (areas u))) <= usize_max) ->
  (1 + length (frame_list (areas u)) * (PG_LEVEL - 1) <= size (free σ0))%nat ->
  exists c' σ', (new_area ← clone_cow (n_value n) (page_table u); push_area Small c new_area None) σ =
      Ret (c', σ') /\ forked σ0 σ' u c' (done ++ [(s, n)]) /\ heap_bottom_va c' = heap_bottom_va c.
Proof.
  intros [Hpar Hch Har Hap Hcow Hcnt Hmem Hown Hfresh Hfree Hsize] Eu Hroom Hfr.
  set (a := n_value n). set (l := bt_iter (frames a)).
  assert (Hone : frame_list [(s, n)] = l) by apply app_nil_r.
  assert (Hlen : (length (frame_list done) + length l <= length (frame_list (areas u)))%nat).
  { rewrite Eu, frame_list_app. cbn. fold a. rewrite !length_app. fold l. lia. }
  pose proof (so_map _ (uv_space _ _ Hpar)) as Hrm. rewrite Eu in Hrm.
  destruct (rm_ok_mid 0 _ _ _ _ Hrm) as (_ & Hlt & _).
  assert (Ea : rm_at (areas u) s = Some (mkRange s (n_end n), a)).
  { rewrite Eu. apply (rm_at_some_in 0); [done|set_solver|lia]. }
  destruct (space_at _ _ _ _ (uv_space _ _ Hpar) Ea) as (Hoka & Hr & _).
  destruct (clone_cow_ok σ u c s _ a Hpar Hch Hap Ea)
    as (m1 & h & E1 & Hpar2 & Hch2 & Hap2 & Hk1 & Hown1 & Hpg1 & Hh & Hro1 & Hroa).
  { cbv zeta. fold l. intros p x. rewrite Hcnt. destruct (mc_arcs σ0 !! p) as [y|] eqn:Ey; [|done]. intros [= <-].
    cbn [sp_rc]. destruct (Hroom p y Ey). pose proof (occ_le p (frame_list done)). lia. }
  fold l in Hh.
  set (σ2 := with_arcs (with_mem σ m1) h) in *.
  assert (Hcount : forall v p, frames a !! v = Some p -> reg_vpn v /\
    exists f k, mc_arcs σ2 !! p = Some (mkPayload (one f) k) /\ 1 < k).
  { intros v p Hvp. destruct (stored_frames σ u s _ a v p Hpar Ea Hvp) as (Hreg & f & k & Hpa). split; [done|].
    exists f, (k + occ p l). cbn [σ2 mc_arcs with_arcs]. rewrite Hh, Hpa. split; [done|].
    pose proof (occ_in v p l ltac:(by apply elem_of_bt_iter)).
    destruct (mo_arc _ _ (uv_mc _ _ Hpar) p _ Hpa) as (_ & _ & _ & _ & _ & Hrc). cbn [sp_rc] in Hrc. lia. }
  pose proof (Nat.mul_le_mono_r _ _ (PG_LEVEL - 1) Hlen) as Hmul. rewrite Nat.mul_add_distr_r in Hmul.
  destruct (push_area_frames σ2 c s n) as (pt' & m3 & fa3 & E3 & Hch3 & Hk3 & Hold3 & Hnew3 & Hs3); fold a; try done.
  { rewrite Har. apply (rm_ok_app 0 (done ++ [(s, n)]) todo). by rewrite <- app_assoc. }
  { by apply (uv_wf _ _ Hpar _ _ _ Ea). }
  { intros v p Hvp. destruct (Hcount v p Hvp) as (_ & f & k & Hpa & _). by exists f, k. }
  { change (free σ2) with (free σ). fold l. lia. }
  cbv zeta in E3, Hch3, Hk3, Hold3, Hnew3, Hs3. fold a l in Hs3. set (σ3 := with_fa (with_mem σ2 m3) fa3) in *.
  destruct (other_ok σ2 σ3 (page_table c) pt' (page_table u)) as (Hmc3 & Hap3 & Hpg3 & Hown3);
    [apply Hpar2|by apply apart_sym|done|apply Hch3|by apply same_frames_refl|].
  assert (Hup : forall v, reg_vpn v -> read_only σ2 (page_table u) v -> read_only σ3 (page_table u) v).
  { intros v Hv (e & He & Hw). exists e. by rewrite Hpg3. }
  exists (mkUvm pt' (areas c ++ [(s, n)]) (heap_bottom_va c)), σ3. split; [|split; [|done]].
  { by erewrite run_bind by exact E1. }
  constructor; cbn [areas page_table]; try done.
  - by apply (uvm_ok_other σ2).
  - by rewrite Har.
  - by apply apart_sym.
  - intros v r x Hvx Hns Hfv. rewrite rm_at_app in Hvx. destruct (rm_at done v) as [[r' x']|] eqn:Ed.
    + injection Hvx as <- <-. destruct (Hcow v r' x' Ed Hns Hfv) as [Hp (e & He & Hw')].
      destruct (space_at (areas c) v r' x') as (_ & _ & Hv1 & Hv2); [apply Hch|by rewrite Har|].
      assert (Hreg : reg_vpn v) by (apply user_reg; lia). split; [apply Hup; auto|].
      exists e. split; [|done]. rewrite Hold3; [|done|by rewrite Har, Ed]. by rewrite Hpg1.
    + cbn [rm_at] in Hvx. destruct ((s <=? v) && (v <? n_end n)); [|discriminate Hvx]. injection Hvx as <- <-.
      destruct Hfv as [p Hvp]. destruct (Hcount v p Hvp) as (Hreg & f & k & Hpa & Hk').
      split; [apply Hup; [done|]; apply Hroa; [done|by exists p]|by apply (Hnew3 v p f k)].
  - intros p. cbn [σ3 σ2 mc_arcs with_fa with_mem with_arcs]. rewrite Hh, Hcnt, frame_list_app, occ_app, Hone.
    destruct (mc_arcs σ0 !! p); [|done]. cbn. do 2 f_equal. lia.
  - intros w k Hw Ho. rewrite (k_mem _ _ _ _ Hk3).
    + change (mc_mem σ2 w k) with (mc_mem (with_mem σ m1) w k).
      rewrite (k_mem _ _ _ _ Hk1); [by apply Hmem|set_solver|]. auto.
    + change (free σ2) with (free σ). set_solver.
    + intros Hoc. by apply Hw, Hfresh, Hown1.
  - intros w Hw. apply Hown. apply Hown3 in Hw. destruct (k_own _ _ _ _ Hk1 w Hw) as [?|[? Hn]]; [done|by destruct Hn].
  - intros w Hw. destruct (k_own _ _ _ _ Hk3 w Hw) as [Ho|[Hf _]]; [by apply Hfresh, Hown1|by apply Hfree].
  - etransitivity; [apply (k_free _ _ _ _ Hk3)|exact Hfree].
  - rewrite frame_list_app, length_app, Hone. change (free σ2) with (free σ) in Hs3. lia.
Qed.

(** The areas one after another, in the order of the range map. *)
Lemma fork_loop σ0 σ u c done todo :
  forked σ0 σ u c done -> areas u = done ++ todo ->
  (forall p x, mc_arcs σ0 !! p = Some x -> 1 <= sp_rc x /\
     sp_rc x + Z.of_nat (length (frame_list (areas u))) <= usize_max) ->
  (1 + length (frame_list (areas u)) * (PG_LEVEL - 1) <= size (free σ0))%nat ->
  exists c' σ', vm_fold (fun ret e => new_area ← clone_cow e.2 (page_table u); push_area Small ret new_area None)
      c (rm_iter todo) σ = Ret (c', σ') /\
    forked σ0 σ' u c' (areas u) /\ heap_bottom_va c' = heap_bottom_va c.
Proof.
  revert σ c done. induction todo as [|[s n] todo IH]; intros σ c done Hf Eu Hroom Hfr.
  { exists c, σ. split; [done|]. rewrite Eu, app_nil_r. done. }
  destruct (fork_step σ0 σ u c done s n todo Hf Eu Hroom Hfr) as (c1 & σ1 & E1 & Hf1 & Hh1).
  destruct (IH σ1 c1 (done ++ [(s, n)]) Hf1) as (c2 & σ2 & E2 & Hf2 & Hh2); [by rewrite <- app_assoc|done|done|].
  exists c2, σ2. split; [|by rewrite Hh2]. cbn [rm_iter map vm_fold]. by erewrite run_bind by exact E1.
Qed.

(** Taking a free frame for something else leaves an address space as it was. *)
Lemma uvm_ok_frame σ u m fa f :
  uvm_ok σ u -> fa_wf fa -> f ∈ free σ -> fa_free fa = free σ ∖ {[f]} ->
  (forall w k, w <> f -> m w k = mc_mem σ w k) ->
  uvm_ok (with_fa (with_mem σ m) fa) u /\
  (forall w, own (with_fa (with_mem σ m) fa) (page_table u) w <-> own σ (page_table u) w).
Proof.
  intros [Hmc Hs Hw Hp] Hfa Hf Hfree Hm. set (σ' := with_fa (with_mem σ m) fa).
  pose proof (mo_pt _ _ Hmc) as Hinv.
  assert (Hne : forall w, w ∉ free σ -> w <> f) by set_solver.
  assert (Hfix : forall w k, table_of (mc_mem σ) (root_ppn (page_table u)) w -> mc_mem σ' w k = mc_mem σ w k).
  { intros w k (q & Hq & E). apply Hm, Hne. by apply (pti_table _ _ _ Hinv q). }
  destruct (pt_frame (mc_mem σ) (mc_mem σ') (mc_fa σ) (mc_fa σ') (root_ppn (page_table u)) Hinv Hfa) as [Hinv' Htab].
  { intros w (q & Hq & E) Hin. apply (pti_table _ _ _ Hinv q w Hq E). cbn in Hin. rewrite Hfree in Hin. set_solver. }
  { done. }
  split.
  - apply (uvm_ok_other σ); [by constructor| |done|intros v Hv; by apply lookup_frame].
    destruct Hmc as [_ Ha Hi (z & k & Hz & Hz0) Hc Hsh]. constructor; try done.
    + intros p x Hx. destruct (Ha p x Hx) as (g & Eg & Hg1 & Hg2 & Hg3 & Hrc). exists g.
      do 2 (split; [done|]). split; [change (g ∉ fa_free fa); rewrite Hfree; set_solver|]. split; [|done].
      intros Ht. by apply Hg3, Htab.
    + exists z, k. split; [done|]. intros j. rewrite <- (Hz0 j). apply Hm, Hne.
      destruct (Ha _ _ Hz) as (g & Eg & _ & Hg & _). injection Eg as <-. done.
  - intros w. pose proof (walk_frame _ _ _ Hfix) as Hwk.
    split; intros (q & Hq & Ho & E); exists q; (split; [done|]; split; [done|]).
    + by rewrite <- Hwk.
    + by rewrite Hwk.
Qed.

(** ** The kernel's part of a user table *)

(** What [from_existed] needs of [to_user]: a new root on a free frame, nothing
    mapped in the user half, and above it only tables of the kernel. *)
Class KernLaws (K : KernVmSpaceHal A) := {
  kl_ok : Machine A -> Prop;
  kl_table : Machine A -> Z -> Prop;
  kl_to_user σ : kl_ok σ -> fa_wf (mc_fa σ) -> free σ <> ∅ ->
    exists f m fa, let σ' := with_fa (with_mem σ m) fa in let pt := mkPT f [mkRange f (f + 1)] in
      to_user_table σ = Ret (pt, σ') /\ pt_inv m fa f /\ f ∈ free σ /\ fa_free fa = free σ ∖ {[f]} /\
      (forall w k, w <> f -> m w k = mc_mem σ w k) /\
      (forall v, reg_vpn v -> page_of σ' pt v = None) /\
      (forall w, own σ' pt w -> w = f) /\ (forall w, tables σ' pt w -> w = f \/ kl_table σ w);
}.

Context {K : KernVmSpaceHal A} {KL : KernLaws K}.

(** The kernel's tables hold neither user tables nor counted frames. *)
Definition kernel_apart σ u : Prop := forall w, kl_table σ w ->
  ~ own σ (page_table u) w /\ (forall p x, mc_arcs σ !! p = Some x -> sp_data x <> one w).

(** The child before any area has been shared. *)
Lemma fork_start σ u :
  uvm_ok σ u -> kl_ok σ -> kernel_apart σ u -> free σ <> ∅ ->
  exists c σ', to_user σ = Ret (c, σ') /\ forked σ σ' u (with_heap c (heap_bottom_va u)) [].
Proof.
  intros Hu Hk Hap Hne. pose proof (uv_mc _ _ Hu) as Hmc. pose proof (mo_pt _ _ Hmc) as Hinv.
  destruct (kl_to_user σ Hk (pti_alloc _ _ _ Hinv) Hne) as
    (f & m & fa & E & Hinv' & Hf & Hfree & Hm & Hpg & Hown & Htab). cbv zeta in *.
  set (σ' := with_fa (with_mem σ m) fa) in *. set (pt := mkPT f [mkRange f (f + 1)]) in *.
  destruct (uvm_ok_frame σ u m fa f Hu (pti_alloc _ _ _ Hinv') Hf Hfree Hm) as [Hu' Hou]. fold σ' in Hu', Hou.
  assert (Hnf : f ∉ free σ') by (change (f ∉ fa_free fa); rewrite Hfree; set_solver).
  exists (mkUvm pt [] 0), σ'. split; [unfold to_user; by erewrite run_bind by exact E|].
  constructor; try done.
  - constructor; cbn [with_heap page_table areas]; try done.
    destruct (uv_mc _ _ Hu') as [_ Ha Hi Hz Hc Hs]. constructor; try done.
    intros p x Hx. destruct (Ha p x Hx) as (g & Eg & Hg1 & Hg2 & _ & Hrc). exists g. do 3 (split; [done|]).
    split; [|done]. intros Ht. destruct (Htab g Ht) as [-> | Hkt].
    + destruct (mo_arc _ _ Hmc p x Hx) as (g' & Eg' & _ & Hg' & _). rewrite Eg in Eg'. by injection Eg' as <-.
    + by apply (proj2 (Hap g Hkt) p x).
  - constructor; cbn [with_heap page_table].
    + intros w Hw%Hou Ht. destruct (Htab w Ht) as [-> | Hkt]; [|by apply (Hap w Hkt)].
      destruct Hw as (q & Hq & _ & Eq). by apply (pti_table _ _ _ Hinv q f).
    + intros w Hw%Hown Ht. subst w. destruct Ht as (q & Hq & Eq).
      rewrite (walk_frame (mc_mem σ)) in Eq; [by apply (pti_table _ _ _ Hinv q f)| |done].
      intros w k (q' & Hq' & Ew). apply Hm. intros ->. by apply (pti_table _ _ _ Hinv q' f).
  - intros p. change (mc_arcs σ') with (mc_arcs σ). destruct (mc_arcs σ !! p) as [[d k]|]; [|done].
    cbn. by rewrite Z.add_0_r.
  - intros w k Hw _. apply Hm. set_solver.
  - intros w Hw. by apply Hou.
  - intros w Hw%Hown. by subst.
  - change (fa_free fa ⊆ free σ). rewrite Hfree. set_solver.
  - change (free σ') with (fa_free fa). rewrite Hfree, size_difference by set_solver.
    rewrite size_singleton. cbn. lia.
Qed.

(** C11: [from_existed], the address space of a forked process, shares the parent's
    memory copy-on-write.  With a root table's frame and [PG_LEVEL - 1] frames per
    page free, and room in the reference counts, it succeeds; parent and child
    are then both well formed and neither uses a table of the other; the child
    has the parent's areas and heap; a present page of a private area sits on one
    frame in both tables and can be written through neither; every frame's count
    has grown by its number of pages; and no memory in use other than the parent's
    own tables has changed. *)
Theorem fork_cow σ u :
  uvm_ok σ u -> kl_ok σ -> kernel_apart σ u ->
  (forall p x, mc_arcs σ !! p = Some x -> sp_rc x + Z.of_nat (length (frame_list (areas u))) <= usize_max) ->
  (1 + length (frame_list (areas u)) * (PG_LEVEL - 1) <= size (free σ))%nat ->
  exists c σ', from_existed Small u σ = Ret (c, σ') /\
    areas c = areas u /\ heap_bottom_va c = heap_bottom_va u /\
    uvm_ok σ' u /\ uvm_ok σ' c /\ apart σ' (page_table u) (page_table c) /\
    (forall v r a p, rm_at (areas u) v = Some (r, a) -> frames a !! v = Some p -> shared a = false ->
       exists e1 e2, page_of σ' (page_table u) v = Some e1 /\ page_of σ' (page_table c) v = Some e2 /\
         v_ppn (pte_view_of e1) = v_ppn (pte_view_of e2) /\
         contains (v_perm (pte_view_of e1)) MapPerm_W = false /\
         contains (v_perm (pte_view_of e2)) MapPerm_W = false) /\
    (forall p, mc_arcs σ' !! p =
       (fun x => mkPayload (sp_data x) (sp_rc x + occ p (frame_list (areas u)))) <$> mc_arcs σ !! p) /\
    (forall w k, w ∉ free σ -> ~ own σ (page_table u) w -> mc_mem σ' w k = mc_mem σ w k).
Proof.
  intros Hu Hk Hap Hroom Hsz.
  destruct (fork_start σ u Hu Hk Hap) as (c0 & σ1 & E1 & Hf1).
  { intros E. rewrite E, size_empty in Hsz. by apply Nat.nle_succ_0 in Hsz. }
  destruct (fork_loop σ σ1 u _ [] (areas u) Hf1 eq_refl) as (c & σ' & E2 & Hf & Hh); [|done|].
  { intros p x Hx. split; [|by apply (Hroom p)]. destruct (mo_arc _ _ (uv_mc _ _ Hu) p x Hx) as (_ & _ & _ & _ & _ & [? _]); done. }
  exists c, σ'. split; [unfold from_existed; by erewrite run_bind by exact E1|].
  destruct Hf as [Hpar Hch Har Happ Hcow Hcnt Hmem _ _ _ _].
  do 2 (split; [done|]). do 3 (split; [done|]). split; [|done].
  intros v r a p Ea Hv Hns. destruct (Hcow v r a Ea Hns) as [(e1 & He1 & Hw1) (e2 & He2 & Hw2)]; [by exists p|].
  exists e1, e2. do 2 (split; [done|]). split; [|done].
  destruct (space_at _ v r a (uv_space _ _ Hpar) Ea) as (Hoka & Hr & _).
  assert (Hreg : reg_vpn v) by (apply (area_vpn a); [done|by apply (ao_frames a Hoka v p)]).
  pose proof (uv_page _ _ Hpar v Hreg) as S1. pose proof (uv_page _ _ Hch v Hreg) as S2.
  rewrite Har in S2. rewrite Ea in S1, S2. unfold shows in S1, S2. rewrite Hv in S1, S2.
  destruct S1 as (x1 & f1 & n1 & Hx1 & Ha1 & _ & P1 & _), S2 as (x2 & f2 & n2 & Hx2 & Ha2 & _ & P2 & _).
  rewrite He1 in Hx1. rewrite He2 in Hx2. injection Hx1 as <-. injection Hx2 as <-.
  rewrite Ha1 in Ha2. apply payload_inj in Ha2 as [<- _]. by rewrite P1, P2.
Qed.

End Fork.

(** ** The two kernels *)

Section Kernels.
Context {C : ConstantsHal} {CL : ConstantsLaws C} {P : PageTableEntryHal} {L : PteLaws C P}.
Context {W : WalkHal} {V : PageLevelHal} {WL : WalkLaws C P L W V}.
Context {A : Type} {F : FrameAllocatorHal A} {FL : FrameAllocatorLaws C A}.

(** No root index is free of superpages: the kernel maps itself with them. *)
Definition no_region : Region := fun _ => False.

(** LoongArch gives a user table nothing. *)
#[refine] Instance la_kern_laws : KernLaws (A := A) la_to_user :=
  {| kl_ok _ := True; kl_table _ _ := False |}.
Proof.
  cbv beta. intros σ _ Hw Hne. destruct (pt_new_in_spec (R := user_region) (mc_mem σ) (mc_fa σ) Hw Hne)
    as (f & m & fa & E & Hinv & [Hf Hfree] & Hl & Hwalk & Hm).
  exists f, m, fa. cbv zeta. split; [unfold to_user_table, la_to_user, vm_new_table; by rewrite E|].
  split_and!; try done.
  - intros v _. apply Hl.
  - intros w (q & _ & _ & Eq). by apply (Hwalk q).
  - intros w (q & _ & Eq). left. by apply (Hwalk q).
Defined.

(** RISC-V copies the upper half of the kernel's root into the new root. *)
Section Upper.
Context (kroot : Z).

Lemma upper_off m f w k :
  w <> f -> mem_copy_upper (mem_zero m (mkRange f (f + 1))) f kroot w k = m w k.
Proof.
  intros Hw. unfold mem_copy_upper. apply Z.eqb_neq in Hw. by rewrite !mem_zero_one, Hw.
Qed.

Lemma upper_at m f j :
  ~ table_of m kroot f -> mem_copy_upper (mem_zero m (mkRange f (f + 1))) f kroot f j =
  if (256 <=? j) && (j <? 512) then m kroot j else 0.
Proof.
  intros Hf. unfold mem_copy_upper. rewrite !mem_zero_one, !Z.eqb_refl. cbn [andb].
  destruct (_ && _); [|done]. destruct (Z.eqb_spec kroot f) as [<-|]; [|done].
  destruct Hf. exists []. split; [apply Nat.le_0_l|done].
Qed.

Lemma upper_walk m f :
  ~ table_of m kroot f -> forall i q, node (i :: q) ->
  walk (mem_copy_upper (mem_zero m (mkRange f (f + 1))) f kroot) f (i :: q) =
  if (256 <=? i) && (i <? 512) then walk m kroot (i :: q) else None.
Proof.
  intros Hf i q Hq. set (m0 := mem_zero m (mkRange f (f + 1))). set (m' := mem_copy_upper m0 f kroot).
  assert (Hoff : forall w k, w <> f -> m' w k = m w k) by apply upper_off.
  pose proof (fun j => upper_at m f j Hf) as Hat. fold m0 m' in Hat.
  cbn [walk]. destruct ((256 <=? i) && (i <? 512)) eqn:Ei.
  - unfold child. rewrite Hat, Ei. fold (child m kroot i). destruct (child m kroot i) as [t|] eqn:Ec; [|done].
    assert (Hsub : forall q', (length q' <= length q)%nat -> walk m' t q' = walk m t q').
    { intros q'. induction q' as [|j q' IH] using rev_ind; intros Hl; [done|]. rewrite length_app in Hl. cbn in Hl.
      rewrite !walk_snoc, IH by lia. destruct (walk m t q') as [w|] eqn:Ew; [|done]. apply child_eq, Hoff.
      intros ->. apply Hf. exists (i :: q'). split; [unfold node in *; cbn in *; lia|]. cbn. by rewrite Ec. }
    by apply Hsub.
  - rewrite child_zero; [done|]. by rewrite Hat, Ei.
Qed.

#[refine] Instance rv_kern_laws : KernLaws (A := A) (rv_to_user kroot) :=
  {| kl_ok σ := pt_inv (R := no_region) (mc_mem σ) (mc_fa σ) kroot; kl_table σ w := table_of (mc_mem σ) kroot w |}.
Proof.
  intros σ Hk Hw Hne. cbv beta in *. unfold free in *. destruct (alloc_tracker_one (mc_fa σ) Hw Hne) as (f & fa & E & Hf & Hw' & Hfree & _).
  set (m := mem_copy_upper (mem_zero (mc_mem σ) (mkRange f (f + 1))) f kroot).
  assert (Hnt : ~ table_of (mc_mem σ) kroot f).
  { intros (q & Hq & Eq). by apply (pti_table _ _ _ Hk q f Hq Eq). }
  assert (Hwalk : forall i q, node (i :: q) -> walk m f (i :: q) =
    if (256 <=? i) && (i <? 512) then walk (mc_mem σ) kroot (i :: q) else None) by by apply upper_walk.
  assert (Hoff : forall w k, w <> f -> m w k = mc_mem σ w k) by apply upper_off.
  pose proof (fun j => upper_at (mc_mem σ) f j Hnt) as Hat. fold m in Hat.
  assert (Hlow : forall i, region i -> m f i = 0).
  { intros i [_ Hi]. rewrite Hat. destruct (Z.leb_spec 256 i); [lia|done]. }
  assert (Htab : forall q t, node q -> walk m f q = Some t -> q = [] /\ t = f \/
    exists i q', q = i :: q' /\ ~ region i /\ walk (mc_mem σ) kroot q = Some t).
  { intros [|i q] t Hq Eq; [by injection Eq as <-; left|]. right. exists i, q. rewrite Hwalk in Eq by done.
    destruct (_ && _) eqn:Ei in Eq; [|done]. split; [done|]. split; [|done]. unfold region, user_region.
    bool_to_prop. lia. }
  exists f, m, fa. cbv zeta. split; [|split_and!; try done].
  - unfold to_user_table, rv_to_user. erewrite run_bind; [|unfold vm_new_table, pt_new_in; rewrite E; done]. done.
  - constructor; [done|..].
    + intros q t Hq Eq. rewrite Hfree. destruct (Htab q t Hq Eq) as [[-> ->]|(i & q' & -> & _ & Ek)]; [set_solver|].
      pose proof (pti_table _ _ _ Hk _ t Hq Ek). set_solver.
    + intros q1 q2 t H1 H2 E1 E2.
      destruct (Htab q1 t H1 E1) as [[-> ->]|(i1 & q1' & -> & _ & K1)],
        (Htab q2 _ H2 E2) as [[-> Et]|(i2 & q2' & -> & _ & K2)]; try done.
      * destruct Hnt. by exists (i2 :: q2').
      * destruct Hnt. subst t. by exists (i1 :: q1').
      * by apply (pti_tree _ _ _ Hk _ _ t).
    + intros q t i Hq Eq. destruct (Htab q t Hq Eq) as [[-> ->]|(i' & q' & -> & _ & Ek)].
      * rewrite Hat. destruct (_ && _); [|apply wl_zero]. apply (pti_entry _ _ _ Hk []); [apply Nat.le_0_l|done].
      * rewrite Hoff; [by apply (pti_entry _ _ _ Hk (i' :: q'))|]. intros ->. destruct Hnt. by exists (i' :: q').
    + intros q t i Hr Hq Eq. destruct (Htab q t) as [[-> ->]|(i' & q' & -> & Hn & _)]; [|done|..].
      * unfold node. lia.
      * cbn [hd] in Hr. rewrite (Hlow i Hr). destruct wl_zero as [_ ->]. done.
      * done.
  - intros v Hv. pose proof (reg_path v Hv) as Hr. destruct (indexes_split v Hv) as [_ Hlen].
    unfold page_of, pt_lookup, slot. cbn [mc_mem with_mem with_fa root_ppn].
    destruct (walk m f (dir_path v)) as [t|] eqn:Ew; [|done].
    destruct (Htab (dir_path v) t) as [[Ed ->]|(i & q & Ed & Hn & _)]; [unfold node; lia|done|..].
    + rewrite Ed in Hr. cbn [hd] in Hr. rewrite (Hlow _ Hr). by destruct wl_zero as [_ ->].
    + rewrite Ed in Hr. by destruct Hn.
  - intros w (q & Hq & Ho & Eq). destruct (Htab q w Hq Eq) as [[_ ->]|(i & q' & -> & Hn & _)]; [done|]. by destruct Hn.
  - intros w (q & Hq & Eq). destruct (Htab q w Hq Eq) as [[_ ->]|(i & q' & -> & _ & Ek)]; [by left|right].
    by exists (i :: q').
Defined.
End Upper.
End Kernels.

(** ** A concrete run *)

(** The heap of [demo_areas] with its second page on the zero frame. *)
Definition touched_heap : UserVmArea := with_frames heap_area {[ 0x21 := 1 ]}.
Definition touched_areas : RangeMap UserVmArea := [(0x20, mkNode 0x24 touched_heap)].

Lemma touched_heap_ok : area_ok (C := riscv64) touched_heap.
Proof.
  destruct heap_area_ok. constructor; try done.
  intros k q. cbn [touched_heap frames with_frames]. rewrite lookup_singleton_Some. intros [<- _]. by vm_compute.
Qed.

(** A process with that heap, beside a kernel root table. *)
Lemma touched_space :
  exists kroot σ u, demo_uvm σ u /\ areas u = touched_areas /\ (8 <= size (free (FL := small_laws) σ))%nat /\
    kl_ok (KernLaws := rv_kern_laws (L := rv_laws) (WL := rv_walk_laws) (FL := small_laws) kroot) σ /\
    kernel_apart (KL := rv_kern_laws (L := rv_laws) (WL := rv_walk_laws) (FL := small_laws) kroot) σ u /\
    (forall p x, mc_arcs σ !! p = Some x -> sp_rc x <= 1).
Proof.
  destruct demo_machine as (f & m & a & Hok & Hs & Hl & _). set (σ0 := mkMachine m a _ _ _ _) in *.
  set (u0 := mkUvm (mkPT f [mkRange f (f + 1)]) [] 0x20000).
  assert (Hu0 : demo_uvm σ0 u0) by (constructor; [done..|]; intros v _; apply Hl).
  destruct (push_area_frames (C := riscv64) (WL := rv_walk_laws) (FL := small_laws) (FS := demo_files)
    (GL := set_fresh_laws) rv_Small eq_refl σ0 u0 0x20 (mkNode 0x24 touched_heap) Hu0) as (pt' & m1 & a1 & _ & Hu1 & _ & _ & _ & Hs1).
  { by vm_compute. } { apply touched_heap_ok. } { by vm_compute. } { by vm_compute. }
  { intros v p. cbn. rewrite lookup_singleton_Some. intros [_ <-]. by exists 0x80200, 1. }
  { change (free σ0) with (bm_free a). etransitivity; [|exact Hs]. apply Nat.leb_le. by vm_compute. }
  set (σ1 := with_fa (with_mem σ0 m1) a1) in *. set (u1 := mkUvm pt' _ _) in Hu1.
  assert (Hs1' : (9 <= size (fa_free (FrameAllocatorLaws := small_laws) a1))%nat).
  { change (bt_iter (frames (n_value (mkNode 0x24 touched_heap)))) with [(0x21, 1)] in Hs1.
    change (free σ0) with (bm_free a) in Hs1. change (free σ1) with (fa_free (FrameAllocatorLaws := small_laws) a1) in Hs1.
    cbn [length PG_LEVEL riscv64] in Hs1. lia. }
  destruct (pt_new_in_spec (R := no_region) (WL := rv_walk_laws) (FL := small_laws) m1 a1) as
    (kroot & m2 & a2 & _ & Hk & [Hkf Hkfr] & _ & Hkw & Hm2); [apply Hu1|intros E; rewrite E, size_empty in Hs1'; lia|].
  destruct (uvm_ok_frame (L := rv_laws) (FL := small_laws) (FS := demo_files) (WL := rv_walk_laws) (GL := set_fresh_laws)
    rv_Small eq_refl σ1 u1 m2 a2 kroot Hu1 (pti_alloc (R := no_region) _ _ _ Hk) Hkf Hkfr Hm2) as [Hu2 Hown].
  exists kroot, (with_fa (with_mem σ1 m2) a2), u1. split; [exact Hu2|]. split; [done|].
  split; [|split; [exact Hk|split]].
  - change (8 <= size (fa_free (FrameAllocatorLaws := small_laws) a2))%nat. rewrite Hkfr, size_difference by set_solver.
    rewrite size_singleton. lia.
  - intros w (q & _ & Eq). apply Hkw in Eq. subst w. split.
    + intros (q' & Hq' & _ & Eq')%Hown. by apply (pti_table _ _ _ (mo_pt _ _ (uv_mc _ _ Hu1)) q' kroot).
    + intros p x Hx Ex. destruct (mo_arc _ _ (uv_mc _ _ Hu1) p x Hx) as (g & Eg & _ & Hg & _).
      rewrite Ex in Eg. injection Eg as <-. done.
  - intros p x Hx. change (demo_arcs !! p = Some x) in Hx. unfold demo_arcs in Hx. rewrite lookup_singleton_Some in Hx. by destruct Hx as [_ <-].
Qed.

Lemma fork_cow_witness :
  exists kroot (σ : Machine (BitMapFrameAllocator (B := set_alloc))) u c σ', areas u = touched_areas /\
    from_existed (C := riscv64) (P := rv_pte) (W := rv_walk) (V := rv_level) (F := FrameAllocator_hal)
      (G := set_fresh) (K := rv_to_user (F := FrameAllocator_hal) kroot) rv_Small u σ = Ret (c, σ') /\
    exists e, demo_page σ' (page_table c) 0x21 = Some e /\
      contains (v_perm (pte_view_of (PteLaws := rv_laws) e)) MapPerm_W = false.
Proof.
  destruct touched_space as (kroot & σ & u & Hu & Eu & Hs & Hk & Hap & Hrc).
  destruct (fork_cow (C := riscv64) (WL := rv_walk_laws) (FL := small_laws) (FS := demo_files)
    (GL := set_fresh_laws) rv_Small eq_refl σ u Hu Hk Hap) as (c & σ' & E & _ & _ & _ & _ & _ & Hcow & _).
  - intros p x Hx. specialize (Hrc p x Hx). rewrite Eu. change (Z.of_nat (length (frame_list touched_areas))) with 1.
    unfold usize_max. lia.
  - rewrite Eu. etransitivity; [|exact Hs]. apply Nat.leb_le. by vm_compute.
  - exists kroot, σ, u, c, σ'. split; [done|]. split; [exact E|].
    destruct (Hcow 0x21 (mkRange 0x20 0x24) touched_heap 1) as (_ & e & _ & He & _ & _ & Hw);
      [by rewrite Eu|done|done|]. by exists e.
Defined.
