(* ===== verification/Slab.v ===== *)
(** The slab allocator (os/src/mm/allocator/slab_allocator.rs): caches of
    equal-sized objects cut out of frames.  A block is one run of frames with a
    header; the free objects of a block are linked through their first word, and
    the blocks of a cache are on three doubly linked stacks (no object in use,
    some, all).

    Kernel memory is its 8-byte words, by address.  Two kinds of cache share the
    code after a block has been found: [SmallSlabCache] keeps the header at the
    start of the block's frame, [SlabCache] keeps it in an object of a cache of
    headers and finds it through a range map.  The offsets of the header's fields
    are the class [BlockFields]. *)

From S2P Require Import Prelude HalConst Addr FrameAlloc RangeMap.

#[local] Open Scope Z_scope.

(** ** Kernel memory *)

Definition kmem := Z -> Z.
Definition kset (m : kmem) (a v : Z) : kmem := fun x => if x =? a then v else m x.

(** ** Intrusive stacks *)

(** Offsets of the fields of a block header. *)
Class BlockFields := {
  bf_last : Z;
  bf_next : Z;
  bf_size : Z;
  bf_head : Z;
}.

(** [#[repr(C)] struct SmallSlabBlock], whose first field is the owner. *)
Definition small_fields : BlockFields := {| bf_last := 8; bf_next := 16; bf_size := 24; bf_head := 32 |}.
(** [#[repr(C)] struct SlabBlock]. *)
Definition big_fields : BlockFields := {| bf_last := 0; bf_next := 8; bf_size := 16; bf_head := 24 |}.

Section LinkedStack.
Context {B : BlockFields}.

Definition ls_push (m : kmem) (head val : Z) : kmem * Z :=
  let m := kset m (val + bf_next) head in
  let m := kset m (val + bf_last) 0 in
  let m := if head =? 0 then m else kset m (head + bf_last) val in
  (m, val).

Definition ls_pop (m : kmem) (head : Z) : option (Z * (kmem * Z)) :=
  if head =? 0 then None
  else
    let ret := head in
    let head := m (ret + bf_next) in
    let m := if head =? 0 then m else kset m (head + bf_last) 0 in
    let m := kset m (ret + bf_last) 0 in
    let m := kset m (ret + bf_next) 0 in
    Some (ret, (m, head)).

Definition ls_is_empty (head : Z) : bool := head =? 0.

Definition ls_remove (m : kmem) (head t : Z) : outcome (kmem * Z) :=
  let! r :=
    (if m (t + bf_last) =? 0 then
       assert! head =? t in
       let head := m (t + bf_next) in
       let m := if head =? 0 then m else kset m (head + bf_last) 0 in
       Ret (m, head)
     else
       assert! negb (head =? t) in
       let m := kset m (m (t + bf_last) + bf_next) (m (t + bf_next)) in
       let m := if m (t + bf_next) =? 0 then m
                else kset m (m (t + bf_next) + bf_last) (m (t + bf_last)) in
       Ret (m, head)) in
  let '(m, head) := r in
  let m := kset m (t + bf_last) 0 in
  let m := kset m (t + bf_next) 0 in
  Ret (m, head).

(** ** The part of a cache both kinds share *)

(** Heads of the three stacks. *)
Record Stacks := mkStacks {
  empty_blk_list : Z;
  free_blk_list : Z;
  full_blk_list : Z;
}.

(** An object from the block on top of the stack of partly used ones. *)
Definition take_object (c : Stacks) (m : kmem) : outcome (option Z * (Stacks * kmem)) :=
  let blk := free_blk_list c in
  let ret := m (blk + bf_head) in
  assert! negb (ret =? 0) in
  let m := kset m (blk + bf_head) (m ret) in
  let m := kset m ret 0 in
  let m := kset m (blk + bf_size) (wadd (m (blk + bf_size)) 1) in
  if m (blk + bf_head) =? 0 then
    let '(m, f) := match ls_pop m (free_blk_list c) with
                   | Some (_, r) => r
                   | None => (m, free_blk_list c)
                   end in
    let '(m, u) := ls_push m (full_blk_list c) blk in
    Ret (Some ret, (mkStacks (empty_blk_list c) f u, m))
  else Ret (Some ret, (c, m)).

(** An object back to its block, which changes stacks when it was full and when
    it becomes empty. *)
Definition give_object (cap : Z) (c : Stacks) (m : kmem) (blk ptr : Z) : outcome (Stacks * kmem) :=
  let m := kset m ptr (m (blk + bf_head)) in
  let m := kset m (blk + bf_head) ptr in
  let! r :=
    (if m (blk + bf_size) =? cap then
       let! r := ls_remove m (full_blk_list c) blk in
       let '(m, u) := r in
       let '(m, f) := ls_push m (free_blk_list c) blk in
       Ret (mkStacks (empty_blk_list c) f u, m)
     else if m (blk + bf_size) =? 1 then
       let! r := ls_remove m (free_blk_list c) blk in
       let '(m, f) := r in
       let '(m, e) := ls_push m (empty_blk_list c) blk in
       Ret (mkStacks e f (full_blk_list c), m)
     else Ret (c, m)) in
  let '(c, m) := r in
  Ret (c, kset m (blk + bf_size) (wsub (m (blk + bf_size)) 1)).

(** A block with no object in use becomes the partly used one. *)
Definition reuse_block (c : Stacks) (m : kmem) : option (Stacks * kmem) :=
  match ls_pop m (empty_blk_list c) with
  | Some (t, (m, e)) =>
      let '(m, f) := ls_push m (free_blk_list c) t in
      Some (mkStacks e f (full_blk_list c), m)
  | None => None
  end.

End LinkedStack.

(** The objects of a block: [cap] of them from [base] on. *)
Definition objects (sz base cap : Z) : list Z := (fun i => base + sz * i) <$> seqZ 0 cap.

(** [for node in free_nodes[1..].iter_mut()]: each object points to the next. *)
Fixpoint link_objects (m : kmem) (last : Z) (nodes : list Z) : kmem * Z :=
  match nodes with
  | [] => (m, last)
  | node :: nodes => link_objects (kset m last node) node nodes
  end.

(** The slice [free_nodes[1..]] of a block without objects is a panic. *)
Definition link_block (m : kmem) (sz base cap : Z) : outcome kmem :=
  assert! 1 <=? cap in
  let '(m, last) := link_objects m base (tail (objects sz base cap)) in
  Ret (kset m last 0).

Section Caches.
Context {C : ConstantsHal} {A : Type} {F : FrameAllocatorHal A}.

(** [SlabBlock::<S>::page_cnt] and [cap] *)
Definition SlabBlock_page_cnt (sz : Z) : Z := next_power_of_two (Z.shiftr (wshl sz 3) PAGE_SIZE_BITS).
Definition SlabBlock_cap (sz : Z) : Z := wshl (SlabBlock_page_cnt sz) PAGE_SIZE_BITS / sz.

(** [SlabBlock::floor]: the frame of a kernel address. *)
Definition slab_floor (addr : Z) : Z :=
  let addr := Z.land addr (wnot (r_start KERNEL_ADDR_SPACE)) in
  let addr := Z.land addr (wnot (PAGE_SIZE - 1)) in
  Z.shiftr addr PAGE_SIZE_BITS.

(** [ppn.start_addr().get_ptr()] *)
Definition frame_ptr (ppn : Z) : Z := PhysAddr_get_ptr (PhysPageNum_start_addr ppn).

(** ** [SmallSlabCache] *)

(** [size_of::<SmallSlabBlock<S>>()] *)
Definition small_header : Z := 40.
Definition small_objects_off (sz : Z) : Z := next_power_of_two (Z.max small_header sz).
Definition SmallSlabBlock_cap (sz : Z) : Z := (PAGE_SIZE - small_objects_off sz) / sz.

#[local] Existing Instance small_fields.

Definition stacks_new : Stacks := mkStacks 0 0 0.

(** A fresh block at the frame [ppn]; [self] is the address of the cache. *)
Definition small_new_block (sz self : Z) (c : Stacks) (m : kmem) (ppn : Z) : outcome (Stacks * kmem) :=
  let blk := frame_ptr ppn in
  let m := kset m blk self in
  let m := kset m (blk + bf_size) 0 in
  let free_nodes_ptr := blk + small_objects_off sz in
  let m := kset m (blk + bf_head) free_nodes_ptr in
  let! m := link_block m sz free_nodes_ptr (SmallSlabBlock_cap sz) in
  let '(m, f) := ls_push m (free_blk_list c) blk in
  Ret (mkStacks (empty_blk_list c) f (full_blk_list c), m).

Definition small_alloc (sz self : Z) (c : Stacks) (m : kmem) (a : A) :
    outcome (option Z * (Stacks * kmem * A)) :=
  let! r :=
    (if ls_is_empty (free_blk_list c) then
       match reuse_block c m with
       | Some (c, m) => Ret (Some (c, m, a))
       | None =>
           match fa_alloc_with_align a (SlabBlock_page_cnt sz) 0 with
           | None => Ret None
           | Some (frames, a) =>
               let! r := small_new_block sz self c m (r_start frames) in
               let '(c, m) := r in Ret (Some (c, m, a))
           end
       end
     else Ret (Some (c, m, a))) in
  match r with
  | None => Ret (None, (c, m, a))
  | Some (c, m, a) =>
      let! r := take_object c m in
      let '(p, (c, m)) := r in Ret (p, (c, m, a))
  end.

Definition small_dealloc (sz self : Z) (c : Stacks) (m : kmem) (ptr : Z) : outcome (Stacks * kmem) :=
  let blk := frame_ptr (slab_floor ptr) in
  assert! m blk =? self in
  give_object (SmallSlabBlock_cap sz) c m blk ptr.

Definition SmallSlabBlock_dealloc (a : A) (blk : Z) : outcome A :=
  let start_ppn := slab_floor blk in
  fa_dealloc a (mkRange start_ppn (PhysPageNum_add start_ppn 1)).

(** The loop of [shrink], over the stack of blocks with no object in use. *)
Fixpoint small_shrink_loop (fuel : nat) (m : kmem) (a : A) (blk_ptr : Z) : outcome A :=
  if blk_ptr =? 0 then Ret a
  else
    match fuel with
    | O => Panic
    | S fuel =>
        let next := m (blk_ptr + bf_next) in
        let! a := SmallSlabBlock_dealloc a blk_ptr in
        small_shrink_loop fuel m a next
    end.

Definition small_shrink (fuel : nat) (c : Stacks) (m : kmem) (a : A) : outcome (Stacks * A) :=
  let! a := small_shrink_loop fuel m a (empty_blk_list c) in
  Ret (mkStacks 0 (free_blk_list c) (full_blk_list c), a).

(** ** [SlabCache] *)

(** The headers of its blocks are objects of one cache, [SLAB_BLOCK_SLAB_CACHE],
    whose address is [header_addr]; its state travels with memory. *)
Definition CACHE_SIZE : Z := 32.

Record SlabHeap := mkSlabHeap {
  sh_mem : kmem;
  sh_fa : A;
  sh_headers : Stacks;
}.

(** [blocks] maps the frames of each block to its header. *)
Record SlabCache := mkSlabCache {
  blocks : RangeMap Z;
  stacks : Stacks;
}.

Definition slab_cache_new : SlabCache := mkSlabCache [] stacks_new.

Section Big.
Context (header_addr : Z).

(** [Box::new_in(SlabBlock { .. }, SlabBlockSlabAllocator)]; running out of
    memory is fatal. *)
Definition new_header (h : SlabHeap) (head : Z) : outcome (Z * SlabHeap) :=
  let! r := small_alloc CACHE_SIZE header_addr (sh_headers h) (sh_mem h) (sh_fa h) in
  let '(p, (hc, m, a)) := r in
  let! blk := unwrap p in
  let m := kset m (blk + @bf_last big_fields) 0 in
  let m := kset m (blk + @bf_next big_fields) 0 in
  let m := kset m (blk + @bf_size big_fields) 0 in
  let m := kset m (blk + @bf_head big_fields) head in
  Ret (blk, mkSlabHeap m a hc).

(** Dropping the box. *)
Definition drop_header (h : SlabHeap) (blk : Z) : outcome SlabHeap :=
  let! r := small_dealloc CACHE_SIZE header_addr (sh_headers h) (sh_mem h) blk in
  let '(hc, m) := r in Ret (mkSlabHeap m (sh_fa h) hc).

#[local] Existing Instance big_fields.

Definition slab_new_block (sz : Z) (c : SlabCache) (h : SlabHeap) (frames : Range) :
    outcome (SlabCache * SlabHeap) :=
  let free_nodes_ptr := frame_ptr (r_start frames) in
  let! r := new_header h free_nodes_ptr in
  let '(blk, h) := r in
  let! r := rm_try_insert (blocks c) frames blk in
  match r with
  | Err _ => Panic
  | Ok bs =>
      let! blk := unwrap (rm_get bs (r_start frames)) in
      let! m := link_block (sh_mem h) sz free_nodes_ptr (SlabBlock_cap sz) in
      let '(m, f) := ls_push m (free_blk_list (stacks c)) blk in
      Ret (mkSlabCache bs (mkStacks (empty_blk_list (stacks c)) f (full_blk_list (stacks c))),
           mkSlabHeap m (sh_fa h) (sh_headers h))
  end.

Definition slab_alloc (sz : Z) (c : SlabCache) (h : SlabHeap) :
    outcome (option Z * (SlabCache * SlabHeap)) :=
  let! r :=
    (if ls_is_empty (free_blk_list (stacks c)) then
       match reuse_block (stacks c) (sh_mem h) with
       | Some (st, m) => Ret (Some (mkSlabCache (blocks c) st, mkSlabHeap m (sh_fa h) (sh_headers h)))
       | None =>
           match fa_alloc_with_align (sh_fa h) (SlabBlock_page_cnt sz) 0 with
           | None => Ret None
           | Some (frames, a) =>
               let! r := slab_new_block sz c (mkSlabHeap (sh_mem h) a (sh_headers h)) frames in
               Ret (Some r)
           end
       end
     else Ret (Some (c, h))) in
  match r with
  | None => Ret (None, (c, h))
  | Some (c, h) =>
      let! r := take_object (stacks c) (sh_mem h) in
      let '(p, (st, m)) := r in
      Ret (p, (mkSlabCache (blocks c) st, mkSlabHeap m (sh_fa h) (sh_headers h)))
  end.

Definition slab_dealloc (sz : Z) (c : SlabCache) (h : SlabHeap) (ptr : Z) : outcome (SlabCache * SlabHeap) :=
  let! blk := unwrap (rm_get (blocks c) (slab_floor ptr)) in
  let! r := give_object (SlabBlock_cap sz) (stacks c) (sh_mem h) blk ptr in
  let '(st, m) := r in
  Ret (mkSlabCache (blocks c) st, mkSlabHeap m (sh_fa h) (sh_headers h)).

(** [SlabBlock::dealloc]: the frames are found from the head of the free list. *)
Definition SlabBlock_dealloc (sz : Z) (m : kmem) (a : A) (blk : Z) : outcome A :=
  let start_ppn := slab_floor (m (blk + bf_head)) in
  fa_dealloc a (mkRange start_ppn (PhysPageNum_add start_ppn (SlabBlock_page_cnt sz))).

Fixpoint slab_shrink_loop (fuel : nat) (sz : Z) (bs : RangeMap Z) (h : SlabHeap) (blk_ptr : Z) :
    outcome (RangeMap Z * SlabHeap) :=
  if blk_ptr =? 0 then Ret (bs, h)
  else
    match fuel with
    | O => Panic
    | S fuel =>
        let next := sh_mem h (blk_ptr + bf_next) in
        let! a := SlabBlock_dealloc sz (sh_mem h) (sh_fa h) blk_ptr in
        let ppn := slab_floor (sh_mem h (blk_ptr + bf_head)) in
        let! e := unwrap (rm_get_key_value bs ppn) in
        let! r := rm_force_remove_one bs e.1 in
        let '(box, bs) := r in
        let! h := drop_header (mkSlabHeap (sh_mem h) a (sh_headers h)) box in
        slab_shrink_loop fuel sz bs h next
    end.

Definition slab_shrink (fuel : nat) (sz : Z) (c : SlabCache) (h : SlabHeap) : outcome (SlabCache * SlabHeap) :=
  let! r := slab_shrink_loop fuel sz (blocks c) h (empty_blk_list (stacks c)) in
  let '(bs, h) := r in
  Ret (mkSlabCache bs (mkStacks 0 (free_blk_list (stacks c)) (full_blk_list (stacks c))), h).

(** ** The allocator: one cache per size class *)

Definition pad_to_align (l : Layout) : Z :=
  Z.land (wsub (wadd (l_size l) (l_align l)) 1) (wnot (wsub (l_align l) 1)).

Definition check_layout (l : Layout) : bool :=
  (l_size l <=? 8192) && (l_align l <=? l_size l) && (l_align l <=? 4096).

Definition small_classes : list Z := [8; 16; 32; 64; 96; 128].
Definition big_classes : list Z := [192; 256; 512; 1024; 2048; 4096; 8192].

(** The arms of the [match] on the padded size: the first class that holds it. *)
Definition size_class (n : Z) : option Z := list_find (fun sz => n <= sz) (small_classes ++ big_classes) ≫= (fun r => Some r.2).

(** The caches by object size; [cache_addr] is where each small one lives. *)
Record SlabAllocatorInner := mkSlabs {
  small_caches : Z -> Stacks;
  big_caches : Z -> SlabCache;
}.

Definition slabs_new : SlabAllocatorInner := mkSlabs (fun _ => stacks_new) (fun _ => slab_cache_new).

Context (cache_addr : Z -> Z).

Definition set_small (i : SlabAllocatorInner) (sz : Z) (c : Stacks) : SlabAllocatorInner :=
  mkSlabs (fun sz' => if sz' =? sz then c else small_caches i sz') (big_caches i).
Definition set_big (i : SlabAllocatorInner) (sz : Z) (c : SlabCache) : SlabAllocatorInner :=
  mkSlabs (small_caches i) (fun sz' => if sz' =? sz then c else big_caches i sz').

Definition alloc_by_layout (i : SlabAllocatorInner) (h : SlabHeap) (l : Layout) :
    outcome (option Z * (SlabAllocatorInner * SlabHeap)) :=
  match size_class (pad_to_align l) with
  | None => Ret (None, (i, h))
  | Some sz =>
      if sz <=? 128 then
        let! r := small_alloc sz (cache_addr sz) (small_caches i sz) (sh_mem h) (sh_fa h) in
        let '(p, (c, m, a)) := r in
        Ret (p, (set_small i sz c, mkSlabHeap m a (sh_headers h)))
      else
        let! r := slab_alloc sz (big_caches i sz) h in
        let '(p, (c, h)) := r in
        Ret (p, (set_big i sz c, h))
  end.

Definition dealloc_by_layout (i : SlabAllocatorInner) (h : SlabHeap) (ptr : Z) (l : Layout) :
    outcome (SlabAllocatorInner * SlabHeap) :=
  match size_class (pad_to_align l) with
  | None => Ret (i, h)
  | Some sz =>
      if sz <=? 128 then
        let! r := small_dealloc sz (cache_addr sz) (small_caches i sz) (sh_mem h) ptr in
        let '(c, m) := r in
        Ret (set_small i sz c, mkSlabHeap m (sh_fa h) (sh_headers h))
      else
        let! r := slab_dealloc sz (big_caches i sz) h ptr in
        let '(c, h) := r in
        Ret (set_big i sz c, h)
  end.

(** [shrink]: every cache in turn. *)
Fixpoint shrink_small (fuel : nat) (i : SlabAllocatorInner) (h : SlabHeap) (classes : list Z) :
    outcome (SlabAllocatorInner * SlabHeap) :=
  match classes with
  | [] => Ret (i, h)
  | sz :: classes =>
      let! r := small_shrink fuel (small_caches i sz) (sh_mem h) (sh_fa h) in
      shrink_small fuel (set_small i sz r.1) (mkSlabHeap (sh_mem h) r.2 (sh_headers h)) classes
  end.

Fixpoint shrink_big (fuel : nat) (i : SlabAllocatorInner) (h : SlabHeap) (classes : list Z) :
    outcome (SlabAllocatorInner * SlabHeap) :=
  match classes with
  | [] => Ret (i, h)
  | sz :: classes =>
      let! r := slab_shrink fuel sz (big_caches i sz) h in
      shrink_big fuel (set_big i sz r.1) r.2 classes
  end.

Definition slabs_shrink (fuel : nat) (i : SlabAllocatorInner) (h : SlabHeap) :
    outcome (SlabAllocatorInner * SlabHeap) :=
  let! r := shrink_small fuel i h small_classes in
  shrink_big fuel r.1 r.2 big_classes.

(** [SLAB_BLOCK_SLAB_CACHE.lock().shrink()] *)
Definition headers_shrink (fuel : nat) (h : SlabHeap) : outcome SlabHeap :=
  let! r := small_shrink fuel (sh_headers h) (sh_mem h) (sh_fa h) in
  Ret (mkSlabHeap (sh_mem h) r.2 r.1).

End Big.
End Caches.
Arguments SlabHeap A : clear implicits.

(** ** [SlabAllocator] over the kernel's frame allocator *)

Section Global.
Context {C : ConstantsHal} {B : BitAlloc} (header_addr : Z) (cache_addr : Z -> Z).
#[local] Abbreviation heap := (SlabHeap BitMapFrameAllocator).

(** [Allocator::allocate] and [deallocate] *)
Definition slab_allocate (i : SlabAllocatorInner) (h : heap) (l : Layout) :
    outcome (option Z * (SlabAllocatorInner * heap)) :=
  if check_layout l then alloc_by_layout header_addr cache_addr i h l
  else
    match FrameAllocator_allocate (sh_fa h) l with
    | Some (p, a) => Ret (Some p, (i, mkSlabHeap (sh_mem h) a (sh_headers h)))
    | None => Ret (None, (i, h))
    end.

Definition slab_deallocate (i : SlabAllocatorInner) (h : heap) (ptr : Z) (l : Layout) :
    outcome (SlabAllocatorInner * heap) :=
  if check_layout l then dealloc_by_layout cache_addr i h ptr l
  else
    let! a := FrameAllocator_deallocate (sh_fa h) ptr l in
    Ret (i, mkSlabHeap (sh_mem h) a (sh_headers h)).

(** [GlobalAlloc::alloc]: a failed attempt releases what the caches hold, twice
    at most; the null pointer is the result when both fail.  Taking the first
    byte of an empty slice is a panic. *)
Fixpoint global_alloc_loop (times fuel : nat) (i : SlabAllocatorInner) (h : heap) (l : Layout) :
    outcome (Z * (SlabAllocatorInner * heap)) :=
  match times with
  | O => Ret (0, (i, h))
  | S times =>
      let! r := slab_allocate i h l in
      match r with
      | (Some p, s) => assert! 0 <? l_size l in Ret (p, s)
      | (None, (i, h)) =>
          let! s := slabs_shrink header_addr fuel i h in
          let! h := headers_shrink fuel s.2 in
          global_alloc_loop times fuel s.1 h l
      end
  end.

Definition global_alloc (fuel : nat) (i : SlabAllocatorInner) (h : heap) (l : Layout) :
    outcome (Z * (SlabAllocatorInner * heap)) := global_alloc_loop 2 fuel i h l.

Definition global_dealloc (i : SlabAllocatorInner) (h : heap) (ptr : Z) (l : Layout) :
    outcome (SlabAllocatorInner * heap) :=
  if ptr =? 0 then Ret (i, h) else slab_deallocate i h ptr l.

End Global.
