(* ===== verification/SlabCore.v ===== *)
(** What the two kinds of slab cache share: stacks of blocks linked through the
    headers ([dll]), lists of free objects linked through the objects ([fl]), and
    the three stacks of a cache together with the free objects of each block
    ([core]).  Every operation is shown to be the list operation it stands for
    and to touch header words and one object only.  Where headers and objects lie
    is left open: headers are apart ([blk_sep]) and objects are apart from them
    and from each other ([geom]). *)

From S2P Require Import Prelude HalConst Addr FrameAlloc RangeMap Slab.

#[local] Open Scope Z_scope.

Lemma kset_same m a v : kset m a v a = v.
Proof. unfold kset. by rewrite Z.eqb_refl. Qed.

Lemma kset_other m a v x : x <> a -> kset m a v x = m x.
Proof. intros H. unfold kset. by destruct (Z.eqb_spec x a). Qed.

(** Pointwise update of a function on addresses. *)
Definition upd {X} (f : Z -> X) (b : Z) (x : X) : Z -> X := fun b' => if b' =? b then x else f b'.

Lemma upd_same {X} (f : Z -> X) b x : upd f b x b = x.
Proof. unfold upd. by rewrite Z.eqb_refl. Qed.

Lemma upd_other {X} (f : Z -> X) b x b' : b' <> b -> upd f b x b' = f b'.
Proof. intros H. unfold upd. by destruct (Z.eqb_spec b' b). Qed.

Section Links.
Context {B : BlockFields}.

(** The words of a header, and what makes headers distinct. *)
Definition hoffs : list Z := [bf_last; bf_next; bf_size; bf_head].

Context (blk : Z -> Prop).
Hypothesis blk_nz : forall b, blk b -> b <> 0.
Hypothesis blk_sep : forall b b' o o', blk b -> blk b' -> o ∈ hoffs -> o' ∈ hoffs ->
  b + o = b' + o' -> b = b' /\ o = o'.
Hypothesis hoffs_nodup : NoDup hoffs.

Lemma in_last : bf_last ∈ hoffs. Proof. by left. Qed.
Lemma in_next : bf_next ∈ hoffs. Proof. by right; left. Qed.
Lemma in_size : bf_size ∈ hoffs. Proof. by right; right; left. Qed.
Lemma in_head : bf_head ∈ hoffs. Proof. by right; right; right; left. Qed.

Lemma field_ne i j o o' : hoffs !! i = Some o -> hoffs !! j = Some o' -> i <> j -> o <> o'.
Proof. intros Hi Hj Hne ->. by apply Hne, (NoDup_lookup hoffs i j o'). Qed.

Lemma last_next : bf_last <> bf_next. Proof. by apply (field_ne 0 1). Qed.
Lemma last_size : bf_last <> bf_size. Proof. by apply (field_ne 0 2). Qed.
Lemma last_head : bf_last <> bf_head. Proof. by apply (field_ne 0 3). Qed.
Lemma next_size : bf_next <> bf_size. Proof. by apply (field_ne 1 2). Qed.
Lemma next_head : bf_next <> bf_head. Proof. by apply (field_ne 1 3). Qed.
Lemma size_head : bf_size <> bf_head. Proof. by apply (field_ne 2 3). Qed.

(** Two header words are apart when the blocks or the fields differ. *)
Lemma hw_ne b b' o o' :
  blk b -> blk b' -> o ∈ hoffs -> o' ∈ hoffs -> b <> b' \/ o <> o' -> b + o <> b' + o'.
Proof. intros Hb Hb' Ho Ho' Hne E. destruct (blk_sep b b' o o' Hb Hb' Ho Ho' E). tauto. Qed.

#[local] Hint Resolve in_last in_next in_size in_head last_next last_size last_head next_size next_head
  size_head not_eq_sym : core.
#[local] Ltac hne := first [done | (apply hw_ne; [auto..|auto])].

(** ** Stacks *)

Fixpoint dll (m : kmem) (prev : Z) (l : list Z) (head : Z) : Prop :=
  match l with
  | [] => head = 0
  | b :: l => head = b /\ m (b + bf_last) = prev /\ dll m b l (m (b + bf_next))
  end.

(** Only the link words of the listed blocks differ. *)
Definition off_links (l : list Z) (m m' : kmem) : Prop :=
  forall x, (forall b, b ∈ l -> x <> b + bf_last /\ x <> b + bf_next) -> m' x = m x.

Lemma dll_frame m m' p l h :
  (forall b, b ∈ l -> m' (b + bf_last) = m (b + bf_last) /\ m' (b + bf_next) = m (b + bf_next)) ->
  dll m p l h -> dll m' p l h.
Proof.
  revert p h. induction l as [|b l IH]; intros p h Hm; [done|]. intros (-> & Hl & Hd).
  destruct (Hm b) as [E1 E2]; [by left|]. cbn [dll]. rewrite E1, E2. split; [done|]. split; [done|].
  apply IH; [|done]. intros b' Hb'. apply Hm. by right.
Qed.

(** Links of blocks not listed are as they were. *)
Lemma off_links_dll m m' l p l' h :
  off_links l m m' -> Forall blk l -> Forall blk l' -> (forall b, b ∈ l' -> b ∉ l) -> dll m p l' h -> dll m' p l' h.
Proof.
  intros Hm Hl Hl' Hdis. rewrite Forall_forall in Hl, Hl'. apply dll_frame. intros b Hb.
  split; apply Hm; intros b' Hb'; (assert (b <> b') by (intros ->; by apply (Hdis b')));
    split; hne.
Qed.

Lemma off_links_field m m' l b o :
  off_links l m m' -> Forall blk l -> blk b -> o ∈ hoffs -> o <> bf_last -> o <> bf_next -> m' (b + o) = m (b + o).
Proof.
  intros Hm Hl Hb Ho H1 H2. rewrite Forall_forall in Hl. apply Hm. intros b' Hb'. split; hne.
Qed.

Lemma off_links_trans l l' m1 m2 m3 :
  off_links l m1 m2 -> off_links l' m2 m3 -> off_links (l ++ l') m1 m3.
Proof.
  intros H1 H2 x Hx. rewrite H2, H1; [done|..]; intros b Hb; apply Hx, elem_of_app; auto.
Qed.

Lemma off_links_mono l l' m1 m2 : off_links l m1 m2 -> l ⊆ l' -> off_links l' m1 m2.
Proof. intros H Hs x Hx. apply H. intros b Hb. by apply Hx, Hs. Qed.

Lemma dll_head m p l h : dll m p l h -> h = default 0 (head l).
Proof. destruct l; [done|]. by intros [-> _]. Qed.

#[local] Ltac kred := repeat first [rewrite kset_same | rewrite kset_other by hne].

Lemma ls_push_ok m l h b :
  Forall blk (b :: l) -> NoDup (b :: l) -> dll m 0 l h ->
  exists m', ls_push m h b = (m', b) /\ dll m' 0 (b :: l) b /\ off_links (b :: l) m m'.
Proof.
  intros Hbl Hnd Hd. apply Forall_cons in Hbl as [Hbb Hl]. apply NoDup_cons in Hnd as [Hb Hnd].
  pose proof (dll_head _ _ _ _ Hd) as Eh. unfold ls_push. eexists. split; [done|].
  destruct l as [|y l]; cbn in Eh; subst h.
  - rewrite Z.eqb_refl. split; [cbn; by kred|].
    intros x Hx. destruct (Hx b) as [H1 H2]; [by left|]. by rewrite !kset_other.
  - apply Forall_cons in Hl as [Hy Hl]. apply NoDup_cons in Hnd as [Hyl _]. rewrite Forall_forall in Hl.
    assert (Hne : b <> y) by set_solver. destruct (Z.eqb_spec y 0); [by apply blk_nz in Hy|].
    destruct Hd as (_ & _ & Hd). split.
    + cbn [dll]. kred. do 4 (split; [done|]). eapply dll_frame, Hd. intros k Hk.
      assert (k <> y /\ k <> b) as [? ?] by set_solver. pose proof (Hl k Hk). by split; kred.
    + intros x Hx. destruct (Hx b) as [H1 H2]; [by left|]. destruct (Hx y) as [H3 H4]; [by right; left|].
      by rewrite !kset_other.
Qed.

Lemma ls_pop_ok m b l h :
  Forall blk (b :: l) -> NoDup (b :: l) -> dll m 0 (b :: l) h ->
  exists m' h', ls_pop m h = Some (b, (m', h')) /\ dll m' 0 l h' /\ off_links (b :: l) m m'.
Proof.
  intros Hbl Hnd (-> & _ & Hd). apply Forall_cons in Hbl as [Hbb Hl]. apply NoDup_cons in Hnd as [Hb Hnd].
  unfold ls_pop. destruct (Z.eqb_spec b 0); [by apply blk_nz in Hbb|]. do 2 eexists. split; [done|].
  pose proof (dll_head _ _ _ _ Hd) as Eh. destruct l as [|y l]; cbn in Eh; rewrite Eh in *.
  - split; [done|]. intros x Hx. destruct (Hx b) as [H1 H2]; [by left|]. by rewrite !kset_other.
  - apply Forall_cons in Hl as [Hy Hl]. apply NoDup_cons in Hnd as [Hyl _]. rewrite Forall_forall in Hl.
    assert (Hne : b <> y) by set_solver. destruct (Z.eqb_spec y 0); [by apply blk_nz in Hy|].
    destruct Hd as (_ & _ & Hd). split.
    + cbn [dll]. kred. do 2 (split; [done|]). eapply dll_frame, Hd. intros k Hk.
      assert (k <> y /\ k <> b) as [? ?] by set_solver. pose proof (Hl k Hk). by split; kred.
    + intros x Hx. destruct (Hx b) as [H1 H2]; [by left|]. destruct (Hx y) as [H3 H4]; [by right; left|].
      by rewrite !kset_other.
Qed.

(** Relinking around a block in the middle. *)
Lemma dll_bypass m m' p l1 x b l2 h :
  let l := l1 ++ x :: b :: l2 in
  NoDup l -> dll m p l h ->
  (forall k, k ∈ l -> k <> b -> m' (k + bf_last) = if bool_decide (head l2 = Some k) then x else m (k + bf_last)) ->
  (forall k, k ∈ l -> k <> b -> m' (k + bf_next) = if bool_decide (k = x) then m (b + bf_next) else m (k + bf_next)) ->
  dll m' p (l1 ++ x :: l2) h.
Proof.
  revert p h. induction l1 as [|y l1 IH]; intros p h l Hnd Hd Hl Hn; subst l; cbn [app] in *.
  - destruct Hd as (-> & Hp & Hxb & _ & Hd).
    apply NoDup_cons in Hnd as [Hx Hnd]. apply NoDup_cons in Hnd as [Hb Hnd]. cbn [dll].
    rewrite Hl, Hn, (bool_decide_eq_true_2 (x = x)) by set_solver.
    rewrite bool_decide_eq_false_2 by (destruct l2; set_solver). split; [done|]. split; [done|].
    destruct l2 as [|z l2]; [done|]. destruct Hd as (Hbz & Hz & Hd). rewrite Hbz. cbn [dll head] in *.
    rewrite Hl, Hn by set_solver. rewrite bool_decide_eq_true_2 by done. rewrite bool_decide_eq_false_2 by set_solver.
    do 2 (split; [done|]). apply NoDup_cons in Hnd as [Hzl _]. eapply dll_frame, Hd. intros k Hk.
    rewrite Hl, Hn by set_solver. rewrite !bool_decide_eq_false_2 by set_solver. done.
  - destruct Hd as (-> & Hp & Hd). apply NoDup_cons in Hnd as [Hy Hnd]. cbn [dll].
    rewrite Hl, Hn by set_solver.
    rewrite (bool_decide_eq_false_2 (head l2 = Some y)) by (destruct l2; set_solver).
    rewrite (bool_decide_eq_false_2 (y = x)) by set_solver. do 2 (split; [done|]).
    apply IH; [done..| |]; intros k Hk Hne; [apply Hl|apply Hn]; set_solver.
Qed.

Lemma dll_mid m p l1 x b l2 h :
  dll m p (l1 ++ x :: b :: l2) h ->
  m (b + bf_last) = x /\ m (b + bf_next) = default 0 (head l2) /\ h = default x (head l1).
Proof.
  revert p h. induction l1 as [|y l1 IH]; intros p h; cbn [app dll].
  - intros (-> & _ & _ & Hb & Hd). split; [done|]. split; [by apply dll_head in Hd|done].
  - intros (-> & _ & Hd). destruct (IH _ _ Hd) as (H1 & H2 & _). done.
Qed.

Lemma ls_remove_ok m l1 b l2 h :
  Forall blk (l1 ++ b :: l2) -> NoDup (l1 ++ b :: l2) -> dll m 0 (l1 ++ b :: l2) h ->
  exists m' h', ls_remove m h b = Ret (m', h') /\ dll m' 0 (l1 ++ l2) h' /\ off_links (l1 ++ b :: l2) m m'.
Proof.
  intros Hbl Hnd Hd. destruct l1 as [|x l1 _] using rev_ind.
  - destruct (ls_pop_ok m b l2 h Hbl Hnd Hd) as (m' & h' & E & Hd' & Ho). exists m', h'. split; [|done].
    destruct Hd as (-> & Hl & _). unfold ls_remove, ls_pop in *. rewrite Hl, !Z.eqb_refl.
    apply Forall_cons in Hbl as [Hbb _]. destruct (Z.eqb_spec b 0); [by apply blk_nz in Hbb|].
    injection E as <- <-. done.
  - rewrite <- app_assoc in *. cbn [app] in *. destruct (dll_mid _ _ _ _ _ _ _ Hd) as (Hl & Hn & Eh).
    pose proof Hbl as Hbl'. rewrite Forall_forall in Hbl'.
    assert (Hx : blk x) by (apply Hbl'; set_solver). assert (Hb : blk b) by (apply Hbl'; set_solver).
    assert (Hxb : x <> b).
    { intros ->. apply NoDup_app in Hnd as (_ & _ & Hnd). apply NoDup_cons in Hnd as [H _]. set_solver. }
    unfold ls_remove. rewrite Hl. destruct (Z.eqb_spec x 0); [by apply blk_nz in Hx|].
    destruct (Z.eqb_spec h b) as [->|_].
    { exfalso. destruct l1 as [|y l1]; cbn in Eh; [done|]. subst y. apply NoDup_cons in Hnd as [H _]. set_solver. }
    unfold guard_panic, negb, obind. do 2 eexists. split; [done|]. kred. rewrite Hn.
    split.
    + apply (dll_bypass m _ 0 l1 x b l2 h); [done..| |]; intros k Hk Hne; pose proof (Hbl' k Hk) as Hbk.
      * kred. destruct l2 as [|z l2]; cbn; [by kred|]. assert (Hz : blk z) by (apply Hbl'; set_solver).
        destruct (Z.eqb_spec z 0); [by apply blk_nz in Hz|]. destruct (decide (z = k)) as [->|Hzk].
        -- rewrite bool_decide_eq_true_2 by done. by kred.
        -- rewrite bool_decide_eq_false_2 by congruence. by kred.
      * kred. assert (Hskip : forall v, (if default 0 (head l2) =? 0 then kset m (x + bf_next) v
          else kset (kset m (x + bf_next) v) (default 0 (head l2) + bf_last) x) (k + bf_next) =
          kset m (x + bf_next) v (k + bf_next)).
        { intros v. destruct l2 as [|z l2]; cbn; [done|]. assert (Hz : blk z) by (apply Hbl'; set_solver).
          destruct (z =? 0); [done|]. by kred. }
        rewrite Hl, Hskip, Hn. destruct (decide (k = x)) as [->|Hkx]; [rewrite bool_decide_eq_true_2 by done|
          rewrite bool_decide_eq_false_2 by done]; by kred.
    + intros y Hy. destruct (Hy b) as [H1 H2]; [set_solver|]. destruct (Hy x) as [H3 H4]; [set_solver|].
      rewrite !(kset_other _ _ _ y) by done. destruct l2 as [|z l2]; cbn; [by rewrite kset_other|].
      destruct (Hy z) as [H5 H6]; [set_solver|]. destruct (z =? 0); by rewrite !kset_other.
Qed.

(** A block taken off one of three stacks goes on another. *)
Lemma move_ok m m1 l1 b l2 Y Z hx hx' hy hz :
  let X := l1 ++ b :: l2 in
  Forall blk (X ++ Y ++ Z) -> NoDup (X ++ Y ++ Z) -> dll m 0 X hx -> dll m 0 Y hy -> dll m 0 Z hz ->
  dll m1 0 (l1 ++ l2) hx' -> off_links X m m1 ->
  exists m2, ls_push m1 hy b = (m2, b) /\ dll m2 0 (l1 ++ l2) hx' /\ dll m2 0 (b :: Y) b /\ dll m2 0 Z hz /\
    off_links (X ++ Y ++ Z) m m2.
Proof.
  intros X Hbl Hnd Hx Hy Hz Hx1 Ho1. apply NoDup_app in Hnd as (HX & Hdis & Hnd). apply NoDup_app in Hnd as (HY & Hdis' & HZ).
  apply Forall_app in Hbl as [BX Hbl]. apply Forall_app in Hbl as [BY BZ].
  assert (Hb : b ∈ X) by set_solver. assert (HbY : b ∉ Y) by (intros H; apply (Hdis b Hb); set_solver).
  assert (Hrest : forall k, k ∈ l1 ++ l2 -> k ∈ X /\ k <> b).
  { intros k Hk. split; [set_solver|]. intros ->. unfold X in HX. apply NoDup_app in HX as (_ & H1 & H2).
    apply NoDup_cons in H2 as [H2 _]. apply elem_of_app in Hk as [Hk|Hk]; [|done]. apply (H1 b Hk). by left. }
  assert (BbY : Forall blk (b :: Y)) by (constructor; [|done]; rewrite Forall_forall in BX; auto).
  destruct (ls_push_ok m1 Y hy b) as (m2 & E & Hd & Ho2); [done|by apply NoDup_cons| |].
  { eapply (off_links_dll m m1 X); [done..| |done]. intros k Hk HkX. apply (Hdis k HkX). set_solver. }
  exists m2. split; [done|]. split; [|split; [done|split]].
  - eapply (off_links_dll m1 m2 (b :: Y)); [done|done| | |done].
    + rewrite Forall_forall in *. intros k Hk. apply BX, Hrest, Hk.
    + intros k Hk [->|HkY]%elem_of_cons; [by apply Hrest in Hk as [_ ?]|].
      apply Hrest in Hk as [Hk _]. apply (Hdis k Hk). set_solver.
  - eapply (off_links_dll m1 m2 (b :: Y)); [done..| |].
    + intros k Hk [->|HkY]%elem_of_cons; [apply (Hdis b Hb); set_solver|]. by apply (Hdis' k).
    + eapply (off_links_dll m m1 X); [done..| |done]. intros k Hk HkX. apply (Hdis k HkX). set_solver.
  - eapply off_links_mono; [by eapply off_links_trans|]. set_solver.
Qed.

(** ** Free lists and the shared state of a cache *)

(** The objects of a block, and how many there are. *)
Context (all : Z -> list Z) (cap : Z).

(** Objects lie apart from each other and from the headers. *)
Record geom (bs : list Z) : Prop := {
  g_node b b' n : b ∈ bs -> b' ∈ bs -> n ∈ all b -> n ∈ all b' -> b = b';
  g_sep b b' n o : b ∈ bs -> b' ∈ bs -> n ∈ all b' -> o ∈ hoffs -> n <> b + o;
  g_nodup b : b ∈ bs -> NoDup (all b);
  g_cap b : b ∈ bs -> Z.of_nat (length (all b)) = cap;
  g_nz b n : b ∈ bs -> n ∈ all b -> n <> 0;
}.

Lemma geom_sub bs bs' : geom bs -> bs' ⊆ bs -> geom bs'.
Proof.
  intros [] Hs. constructor; intros *.
  - intros Hb Hb'. apply Hs in Hb, Hb'. eauto.
  - intros Hb Hb'. apply Hs in Hb, Hb'. eauto.
  - intros Hb%Hs. eauto.
  - intros Hb%Hs. eauto.
  - intros Hb%Hs. eauto.
Qed.

Fixpoint fl (m : kmem) (h : Z) (ns : list Z) : Prop :=
  match ns with
  | [] => h = 0
  | n :: ns => h = n /\ fl m (m n) ns
  end.

Lemma fl_frame m m' h ns : (forall n, n ∈ ns -> m' n = m n) -> fl m h ns -> fl m' h ns.
Proof.
  revert h. induction ns as [|n ns IH]; intros h Hm; [done|]. intros [-> Hf]. split; [done|].
  rewrite Hm by (by left). apply IH; [|done]. intros k Hk. apply Hm. by right.
Qed.

Lemma fl_head m h ns : fl m h ns -> h = default 0 (head ns).
Proof. destruct ns; [done|]. by intros [-> _]. Qed.

(** The three stacks [E], [F], [U], the free objects [fr] and the stored size
    [sz] of each block. *)
Record core (m : kmem) (c : Stacks) (E F U : list Z) (fr : Z -> list Z) (sz : Z -> Z) : Prop := {
  co_e : dll m 0 E (empty_blk_list c);
  co_f : dll m 0 F (free_blk_list c);
  co_u : dll m 0 U (full_blk_list c);
  co_nodup : NoDup (E ++ F ++ U);
  co_blk : Forall blk (E ++ F ++ U);
  co_geom : geom (E ++ F ++ U);
  co_free b : b ∈ E ++ F ++ U -> fl m (m (b + bf_head)) (fr b);
  co_sub b : b ∈ E ++ F ++ U -> NoDup (fr b) /\ fr b ⊆ all b;
  co_size b : b ∈ E ++ F ++ U -> m (b + bf_size) = sz b;
}.

Section Core.
Context (m : kmem) (c : Stacks) (E F U : list Z) (fr : Z -> list Z) (sz : Z -> Z).
Context (Hco : core m c E F U fr sz).

Lemma core_is_blk b : b ∈ E ++ F ++ U -> blk b.
Proof. destruct Hco. rewrite Forall_forall in *. auto. Qed.
#[local] Hint Resolve core_is_blk : core.

Lemma core_node_ne b b' n o : b ∈ E ++ F ++ U -> b' ∈ E ++ F ++ U -> n ∈ fr b' -> o ∈ hoffs -> b + o <> n.
Proof.
  intros Hb Hb' Hn Ho Heq. destruct (co_sub _ _ _ _ _ _ _ Hco b' Hb') as [_ Hs].
  by apply (g_sep _ (co_geom _ _ _ _ _ _ _ Hco) b b' n o Hb Hb' (Hs n Hn) Ho).
Qed.

(** Words that are neither header words nor free objects do not matter. *)
Lemma core_frame m' :
  (forall b o, b ∈ E ++ F ++ U -> o ∈ hoffs -> m' (b + o) = m (b + o)) ->
  (forall b n, b ∈ E ++ F ++ U -> n ∈ fr b -> m' n = m n) -> core m' c E F U fr sz.
Proof.
  intros Hh Hn. destruct Hco. constructor; try done.
  1-3: eapply dll_frame; [|done]; intros b Hb; split; apply Hh; auto; set_solver.
  - intros b Hb. rewrite Hh by auto. eapply fl_frame; [|by apply co_free0]. eauto.
  - intros b Hb. rewrite Hh by auto. auto.
Qed.

(** Only links change, and the blocks are on the stacks in another order. *)
Lemma core_links m' c' E' F' U' :
  E' ++ F' ++ U' ≡ₚ E ++ F ++ U -> off_links (E ++ F ++ U) m m' ->
  dll m' 0 E' (empty_blk_list c') -> dll m' 0 F' (free_blk_list c') -> dll m' 0 U' (full_blk_list c') ->
  core m' c' E' F' U' fr sz.
Proof.
  intros Hp Ho He Hf Hu. destruct Hco.
  assert (Hin : forall b, b ∈ E' ++ F' ++ U' <-> b ∈ E ++ F ++ U) by (intros b; by rewrite Hp).
  constructor; try done.
  - by rewrite Hp.
  - by rewrite Hp.
  - eapply geom_sub; [done|]. intros b. by rewrite Hin.
  - intros b Hb%Hin. rewrite (off_links_field m m' _ b bf_head Ho) by auto.
    eapply fl_frame; [|by apply co_free0]. intros n Hn. apply Ho. intros b' Hb'.
    split; apply not_eq_sym; apply (core_node_ne b' b); auto.
  - intros b Hb%Hin. auto.
  - intros b Hb%Hin. rewrite (off_links_field m m' _ b bf_size Ho) by auto. auto.
Qed.

Lemma core_set_size b v : b ∈ E ++ F ++ U -> core (kset m (b + bf_size) v) c E F U fr (upd sz b v).
Proof.
  intros Hb. destruct Hco. constructor; try done.
  1-3: eapply dll_frame; [|done]; intros b' Hb'; assert (b' ∈ E ++ F ++ U) by set_solver; by split; kred.
  - intros b' Hb'. kred. eapply fl_frame; [|by apply co_free0]. intros n Hn. apply kset_other.
    apply not_eq_sym. apply (core_node_ne b b'); auto.
  - intros b' Hb'. destruct (decide (b' = b)) as [->|Hne]; [by rewrite kset_same, upd_same|].
    rewrite upd_other by done. kred. auto.
Qed.

(** The first free object of a block leaves its list. *)
Lemma core_take b n ns :
  b ∈ E ++ F ++ U -> fr b = n :: ns ->
  m (b + bf_head) = n /\
  core (kset (kset m (b + bf_head) (m n)) n 0) c E F U (upd fr b ns) sz.
Proof.
  intros Hb En. pose proof (co_free _ _ _ _ _ _ _ Hco b Hb) as Hf. rewrite En in Hf. destruct Hf as [Eh Hf].
  split; [done|]. assert (Hnb : n ∈ fr b) by (rewrite En; by left).
  assert (Hw : forall b' o, b' ∈ E ++ F ++ U -> o ∈ hoffs -> o <> bf_head \/ b' <> b ->
    kset (kset m (b + bf_head) (m n)) n 0 (b' + o) = m (b' + o)).
  { intros b' o Hb' Ho Hne. rewrite kset_other by (apply (core_node_ne b' b); auto). rewrite kset_other; [done|].
    apply hw_ne; auto. tauto. }
  destruct (co_sub _ _ _ _ _ _ _ Hco b Hb) as [Hnd Hsub]. rewrite En in Hnd, Hsub. apply NoDup_cons in Hnd as [Hn Hnd].
  destruct Hco. constructor; try done.
  1-3: eapply dll_frame; [|done]; intros b' Hb'; assert (b' ∈ E ++ F ++ U) by set_solver; split; apply Hw; auto.
  - intros b' Hb'. destruct (decide (b' = b)) as [->|Hne].
    + rewrite upd_same, kset_other, kset_same by (apply (core_node_ne b b); auto).
      eapply fl_frame; [|done]. intros k Hk. rewrite kset_other by (intros ->; done).
      apply kset_other, not_eq_sym, (core_node_ne b b); auto. rewrite En. by right.
    + rewrite upd_other, Hw by auto. eapply fl_frame; [|by apply co_free0]. intros k Hk. rewrite kset_other.
      * apply kset_other, not_eq_sym, (core_node_ne b b'); auto.
      * intros ->. apply Hne. destruct (co_sub0 b' Hb') as [_ Hs']. apply (g_node _ co_geom0 b' b n); auto.
        apply Hsub. by left.
  - intros b' Hb'. destruct (decide (b' = b)) as [->|Hne]; [|by rewrite upd_other; auto].
    rewrite upd_same. split; [done|]. intros k Hk. apply Hsub. by right.
  - intros b' Hb'. rewrite Hw by auto. auto.
Qed.

(** An object in use goes to the front of its block's list. *)
Lemma core_give b n :
  b ∈ E ++ F ++ U -> n ∈ all b -> n ∉ fr b ->
  core (kset (kset m n (m (b + bf_head))) (b + bf_head) n) c E F U (upd fr b (n :: fr b)) sz.
Proof.
  intros Hb Hn Hnf. pose proof (co_geom _ _ _ _ _ _ _ Hco) as Hg.
  assert (Hnh : forall b' o, b' ∈ E ++ F ++ U -> o ∈ hoffs -> b' + o <> n).
  { intros b' o Hb' Ho. apply not_eq_sym. by apply (g_sep _ Hg b' b). }
  assert (Hw : forall b' o, b' ∈ E ++ F ++ U -> o ∈ hoffs -> o <> bf_head \/ b' <> b ->
    kset (kset m n (m (b + bf_head))) (b + bf_head) n (b' + o) = m (b' + o)).
  { intros b' o Hb' Ho Hne. rewrite kset_other by (apply hw_ne; auto; tauto). by apply kset_other, Hnh. }
  assert (Hk : forall b' k, b' ∈ E ++ F ++ U -> k ∈ fr b' ->
    kset (kset m n (m (b + bf_head))) (b + bf_head) n k = m k).
  { intros b' k Hb' Hk. rewrite kset_other by (apply not_eq_sym, (core_node_ne b b'); auto). apply kset_other.
    intros ->. destruct (co_sub _ _ _ _ _ _ _ Hco b' Hb') as [_ Hs]. apply Hnf.
    by rewrite (g_node _ Hg b b' n Hb Hb' Hn (Hs n Hk)). }
  destruct Hco. constructor; try done.
  1-3: eapply dll_frame; [|done]; intros b' Hb'; assert (b' ∈ E ++ F ++ U) by set_solver; split; apply Hw; auto.
  - intros b' Hb'. destruct (decide (b' = b)) as [->|Hne].
    + rewrite upd_same, kset_same. split; [done|]. rewrite kset_other, kset_same by (apply not_eq_sym, Hnh; auto).
      eapply fl_frame; [|by apply co_free0]. eauto.
    + rewrite upd_other, Hw by auto. eapply fl_frame; [|by apply co_free0]. eauto.
  - intros b' Hb'. destruct (decide (b' = b)) as [->|Hne]; [|by rewrite upd_other; auto].
    rewrite upd_same. destruct (co_sub0 b Hb). split; [by apply NoDup_cons|]. set_solver.
  - intros b' Hb'. rewrite Hw by auto. auto.
Qed.

End Core.

Lemma core_perm m c E F U fr sz l :
  core m c E F U fr sz -> l ≡ₚ E ++ F ++ U -> Forall blk l /\ NoDup l.
Proof. intros Hco ->. destruct Hco. done. Qed.

(** *** The operations on objects *)

(** A header word, or the word of the object named. *)
Definition touched (bs : list Z) (n x : Z) : Prop :=
  x = n \/ exists b o, b ∈ bs /\ o ∈ hoffs /\ x = b + o.

Lemma off_links_touched bs n m m' x : off_links bs m m' -> ~ touched bs n x -> m' x = m x.
Proof.
  intros Ho Hx. apply Ho. intros b Hb. split; intros ->; apply Hx; right; [exists b, bf_last|exists b, bf_next]; auto.
Qed.

Lemma take_object_ok m c E b F U fr sz n ns :
  core m c E (b :: F) U fr sz -> fr b = n :: ns ->
  exists c' m', take_object c m = Ret (Some n, (c', m')) /\
    core m' c' E (match ns with [] => F | _ => b :: F end) (match ns with [] => b :: U | _ => U end)
      (upd fr b ns) (upd sz b (wadd (sz b) 1)) /\
    (forall x, ~ touched (E ++ (b :: F) ++ U) n x -> m' x = m x).
Proof.
  intros Hco En. assert (Hb : b ∈ E ++ (b :: F) ++ U) by set_solver.
  destruct (core_take m c E (b :: F) U fr sz Hco b n ns Hb En) as [Eh Hco1].
  set (m1 := kset (kset m (b + bf_head) (m n)) n 0) in *.
  pose proof (core_set_size m1 c _ _ _ _ _ Hco1 b (wadd (sz b) 1) Hb) as Hco2.
  set (m2 := kset m1 (b + bf_size) (wadd (sz b) 1)) in *.
  assert (Esz : m1 (b + bf_size) = sz b) by apply (co_size _ _ _ _ _ _ _ Hco1 b Hb).
  assert (Eb : free_blk_list c = b) by (by destruct (co_f _ _ _ _ _ _ _ Hco)).
  assert (Hn0 : forall k, k ∈ fr b -> k <> 0).
  { intros k Hk. destruct (co_sub _ _ _ _ _ _ _ Hco b Hb) as [_ Hs]. apply (g_nz _ (co_geom _ _ _ _ _ _ _ Hco) b); auto. }
  assert (Hm2 : forall x, ~ touched (E ++ (b :: F) ++ U) n x -> m2 x = m x).
  { intros x Hx. unfold m2, m1. rewrite !kset_other; [done|..]; intros ->; apply Hx; [right|by left|right]; eauto. }
  assert (Ehd : m2 (b + bf_head) = default 0 (head ns)).
  { pose proof (co_free _ _ _ _ _ _ _ Hco2 b Hb) as Hf. rewrite upd_same in Hf. by apply fl_head in Hf. }
  unfold take_object. rewrite Eb, Eh. destruct (Z.eqb_spec n 0) as [->|_]; [destruct (Hn0 0); [rewrite En; by left|done]|].
  cbn [negb guard_panic]. fold m1. rewrite Esz. fold m2. rewrite Ehd. destruct ns as [|k ns].
  - cbn [head default from_option id Z.eqb].
    destruct (core_perm m2 c _ _ _ _ _ ((b :: F) ++ U ++ E) Hco2) as [Bl Nd]; [solve_Permutation|].
    destruct (ls_pop_ok m2 b F (free_blk_list c)) as (m3 & f & Epop & Hf3 & Ho3).
    { by apply Forall_app in Bl as [Bl _]. } { by apply NoDup_app in Nd as (Nd & _). } { apply (co_f _ _ _ _ _ _ _ Hco2). }
    destruct (move_ok m2 m3 [] b F U E (free_blk_list c) f (full_blk_list c) (empty_blk_list c))
      as (m4 & Epush & Df & Du & De & Ho4); [done|done|apply (co_f _ _ _ _ _ _ _ Hco2)|apply (co_u _ _ _ _ _ _ _ Hco2)|
       apply (co_e _ _ _ _ _ _ _ Hco2)|done|done|].
    rewrite Eb in Epop. rewrite Epop, Epush. do 2 eexists. split; [done|]. split.
    + eapply (core_links m2 c); [exact Hco2| | |done..].
      * solve_Permutation.
      * eapply off_links_mono; [done|]. set_solver.
    + intros x Hx. rewrite <- Hm2 by done. eapply off_links_touched; [done|]. intros Ht. apply Hx.
      destruct Ht as [->|(b' & o & Hb' & Ho & ->)]; [by left|right; exists b', o; set_solver].
  - cbn [head default from_option id]. destruct (Z.eqb_spec k 0) as [->|_].
    { destruct (Hn0 0); [rewrite En; set_solver|done]. }
    do 2 eexists. split; [done|]. done.
Qed.

(** Where the block of a returned object goes. *)
Definition give_moves (E F U : list Z) (b size : Z) (E' F' U' : list Z) : Prop :=
  (size = cap /\ exists U1 U2, U = U1 ++ b :: U2 /\ E' = E /\ F' = b :: F /\ U' = U1 ++ U2) \/
  (size <> cap /\ size = 1 /\ exists F1 F2, F = F1 ++ b :: F2 /\ E' = b :: E /\ F' = F1 ++ F2 /\ U' = U) \/
  (size <> cap /\ size <> 1 /\ E' = E /\ F' = F /\ U' = U).

Lemma give_moves_perm E F U b size E' F' U' :
  give_moves E F U b size E' F' U' -> E' ++ F' ++ U' ≡ₚ E ++ F ++ U.
Proof.
  intros [(_ & U1 & U2 & -> & -> & -> & ->)|[(_ & _ & F1 & F2 & -> & -> & -> & ->)|(_ & _ & -> & -> & ->)]];
    [solve_Permutation..|done].
Qed.

(** The stacks after the block has moved. *)
Lemma give_links m c E F U fr sz b :
  core m c E F U fr sz -> (sz b = cap -> b ∈ U) -> (sz b <> cap -> sz b = 1 -> b ∈ F) -> b ∈ E ++ F ++ U ->
  exists c' m' E' F' U',
    (if m (b + bf_size) =? cap then
       let! r := ls_remove m (full_blk_list c) b in
       let '(m, u) := r in
       let '(m, f) := ls_push m (free_blk_list c) b in
       Ret (mkStacks (empty_blk_list c) f u, m)
     else if m (b + bf_size) =? 1 then
       let! r := ls_remove m (free_blk_list c) b in
       let '(m, f) := r in
       let '(m, e) := ls_push m (empty_blk_list c) b in
       Ret (mkStacks e f (full_blk_list c), m)
     else Ret (c, m)) = Ret (c', m') /\
    give_moves E F U b (sz b) E' F' U' /\ core m' c' E' F' U' fr sz /\ off_links (E ++ F ++ U) m m'.
Proof.
  intros Hco HU HF Hb. rewrite (co_size _ _ _ _ _ _ _ Hco b Hb).
  destruct (Z.eqb_spec (sz b) cap) as [Ec|Nc].
  - destruct (list_elem_of_split _ _ (HU Ec)) as (U1 & U2 & EU). subst U.
    destruct (core_perm m c _ _ _ _ _ ((U1 ++ b :: U2) ++ F ++ E) Hco) as [Bl Nd]; [solve_Permutation|].
    destruct (ls_remove_ok m U1 b U2 (full_blk_list c)) as (m1 & u & E1 & D1 & O1);
      [by apply Forall_app in Bl as [? _]|by apply NoDup_app in Nd as (? & _)|apply (co_u _ _ _ _ _ _ _ Hco)|].
    destruct (move_ok m m1 U1 b U2 F E (full_blk_list c) u (free_blk_list c) (empty_blk_list c))
      as (m2 & E2 & Du & Df & De & O2); [done|done|apply (co_u _ _ _ _ _ _ _ Hco)|apply (co_f _ _ _ _ _ _ _ Hco)|
       apply (co_e _ _ _ _ _ _ _ Hco)|done|done|].
    rewrite E1. cbn [obind]. rewrite E2. exists (mkStacks (empty_blk_list c) b u), m2, E, (b :: F), (U1 ++ U2).
    assert (O2' : off_links (E ++ F ++ U1 ++ b :: U2) m m2) by (eapply off_links_mono; [done|]; set_solver).
    split; [done|]. split; [left; split; [done|]; by exists U1, U2|]. split; [|done].
    eapply (core_links m c); [exact Hco|solve_Permutation|done..].
  - destruct (Z.eqb_spec (sz b) 1) as [E1|N1].
    + destruct (list_elem_of_split _ _ (HF Nc E1)) as (F1 & F2 & EF). subst F.
      destruct (core_perm m c _ _ _ _ _ ((F1 ++ b :: F2) ++ E ++ U) Hco) as [Bl Nd]; [solve_Permutation|].
      destruct (ls_remove_ok m F1 b F2 (free_blk_list c)) as (m1 & f & Er & D1 & O1);
        [by apply Forall_app in Bl as [? _]|by apply NoDup_app in Nd as (? & _)|apply (co_f _ _ _ _ _ _ _ Hco)|].
      destruct (move_ok m m1 F1 b F2 E U (free_blk_list c) f (empty_blk_list c) (full_blk_list c))
        as (m2 & E2 & Df & De & Du & O2); [done|done|apply (co_f _ _ _ _ _ _ _ Hco)|apply (co_e _ _ _ _ _ _ _ Hco)|
         apply (co_u _ _ _ _ _ _ _ Hco)|done|done|].
      rewrite Er. cbn [obind]. rewrite E2. exists (mkStacks b f (full_blk_list c)), m2, (b :: E), (F1 ++ F2), U.
      assert (O2' : off_links (E ++ (F1 ++ b :: F2) ++ U) m m2) by (eapply off_links_mono; [done|]; set_solver).
      split; [done|]. split; [right; left; do 2 (split; [done|]); by exists F1, F2|]. split; [|done].
      eapply (core_links m c); [exact Hco|solve_Permutation|done..].
    + exists c, m, E, F, U. split; [done|]. split; [by right; right|]. done.
Qed.

Lemma give_object_ok m c E F U fr sz b n :
  core m c E F U fr sz -> b ∈ E ++ F ++ U -> n ∈ all b -> n ∉ fr b ->
  (sz b = cap -> b ∈ U) -> (sz b <> cap -> sz b = 1 -> b ∈ F) ->
  exists c' m' E' F' U', give_object cap c m b n = Ret (c', m') /\
    give_moves E F U b (sz b) E' F' U' /\
    core m' c' E' F' U' (upd fr b (n :: fr b)) (upd sz b (wsub (sz b) 1)) /\
    (forall x, ~ touched (E ++ F ++ U) n x -> m' x = m x).
Proof.
  intros Hco Hb Hn Hnf HU HF. pose proof (core_give m c E F U fr sz Hco b n Hb Hn Hnf) as Hco1.
  set (m1 := kset (kset m n (m (b + bf_head))) (b + bf_head) n) in *.
  destruct (give_links m1 c E F U _ sz b Hco1 HU HF Hb) as (c' & m2 & E' & F' & U' & E1 & Hmv & Hco2 & Ho).
  assert (Hb' : b ∈ E' ++ F' ++ U') by by rewrite (give_moves_perm _ _ _ _ _ _ _ _ Hmv).
  pose proof (core_set_size m2 c' _ _ _ _ _ Hco2 b (wsub (sz b) 1) Hb') as Hco3.
  exists c', (kset m2 (b + bf_size) (wsub (sz b) 1)), E', F', U'. split; [|split; [done|split; [done|]]].
  - unfold give_object. fold m1. rewrite E1. cbn [obind]. by rewrite (co_size _ _ _ _ _ _ _ Hco2 b Hb').
  - intros x Hx. rewrite kset_other by (intros ->; apply Hx; right; eauto).
    rewrite (off_links_touched (E ++ F ++ U) n m1) by done.
    unfold m1. rewrite !kset_other; [done|..]; intros ->; apply Hx; [by left|right; eauto].
Qed.

Lemma reuse_block_ok m c b E F U fr sz :
  core m c (b :: E) F U fr sz ->
  exists c' m', reuse_block c m = Some (c', m') /\ core m' c' E (b :: F) U fr sz /\
    off_links ((b :: E) ++ F ++ U) m m'.
Proof.
  intros Hco. destruct (core_perm m c _ _ _ _ _ ((b :: E) ++ F ++ U) Hco) as [Bl Nd]; [done|].
  destruct (ls_pop_ok m b E (empty_blk_list c)) as (m1 & e & E1 & D1 & O1);
    [by apply Forall_app in Bl as [? _]|by apply NoDup_app in Nd as (? & _)|apply (co_e _ _ _ _ _ _ _ Hco)|].
  destruct (move_ok m m1 [] b E F U (empty_blk_list c) e (free_blk_list c) (full_blk_list c))
    as (m2 & E2 & De & Df & Du & O2); [done|done|apply (co_e _ _ _ _ _ _ _ Hco)|apply (co_f _ _ _ _ _ _ _ Hco)|
     apply (co_u _ _ _ _ _ _ _ Hco)|done|done|].
  unfold reuse_block. rewrite E1, E2. do 2 eexists. split; [done|]. split; [|done].
  eapply (core_links m c); [exact Hco|solve_Permutation|done..].
Qed.

(** Sizes matter on the blocks only. *)
Lemma core_ext m c E F U fr sz sz' :
  core m c E F U fr sz -> (forall b, b ∈ E ++ F ++ U -> sz' b = sz b) -> core m c E F U fr sz'.
Proof. intros [] Hs. constructor; try done. intros b Hb. rewrite Hs by done. auto. Qed.

(** A new block with all its objects free goes on the stack of partly used ones. *)
Lemma core_add m m' c E F U fr sz b :
  core m c E F U fr sz -> blk b -> b ∉ E ++ F ++ U -> geom (b :: E ++ F ++ U) ->
  (forall b' o, b' ∈ E ++ F ++ U -> o ∈ hoffs -> m' (b' + o) = m (b' + o)) ->
  (forall b' n, b' ∈ E ++ F ++ U -> n ∈ all b' -> m' n = m n) ->
  fl m' (m' (b + bf_head)) (all b) -> m' (b + bf_size) = 0 ->
  exists m2, ls_push m' (free_blk_list c) b = (m2, b) /\
    core m2 (mkStacks (empty_blk_list c) b (full_blk_list c)) E (b :: F) U (upd fr b (all b)) (upd sz b 0) /\
    off_links (b :: F) m' m2.
Proof.
  intros Hco Hb Hnb Hg Hh Hn Hf Hz.
  assert (Hin : forall b', b' ∈ E ++ (b :: F) ++ U <-> b' = b \/ b' ∈ E ++ F ++ U) by set_solver.
  assert (Hco' : core m' c E F U fr sz).
  { apply (core_frame m); [done..|]. intros b' n Hb' Hn'. destruct (co_sub _ _ _ _ _ _ _ Hco b' Hb') as [_ Hs]. eauto. }
  pose proof (co_blk _ _ _ _ _ _ _ Hco) as Bl. pose proof (co_nodup _ _ _ _ _ _ _ Hco) as Nd.
  apply Forall_app in Bl as Bl'. destruct Bl' as [BE Bl']. apply Forall_app in Bl' as [BF BU].
  apply NoDup_app in Nd as Nd'. destruct Nd' as (NE & DE & Nd'). apply NoDup_app in Nd' as (NF & DF & NU).
  destruct (ls_push_ok m' F (free_blk_list c) b) as (m2 & E2 & D2 & O2);
    [by constructor|constructor; [set_solver|done]|apply (co_f _ _ _ _ _ _ _ Hco')|].
  assert (Bl2 : Forall blk (b :: F)) by by constructor.
  assert (Hnode : forall b' n, b' ∈ E ++ (b :: F) ++ U -> n ∈ all b' -> m2 n = m' n).
  { intros b' n Hb' Hn'. apply O2. intros k Hk.
    split; apply (g_sep _ Hg k b'); auto; set_solver. }
  assert (Hfld : forall b' o, b' ∈ E ++ (b :: F) ++ U -> o ∈ hoffs -> o <> bf_last -> o <> bf_next -> m2 (b' + o) = m' (b' + o)).
  { intros b' o [-> | Hb']%Hin Ho H1 H2; apply (off_links_field m' m2 (b :: F)); auto.
    rewrite Forall_forall in Bl. auto. }
  exists m2. split; [done|]. split; [|done]. constructor; cbn [empty_blk_list free_blk_list full_blk_list].
  - eapply (off_links_dll m' m2 (b :: F)); [done..| |apply (co_e _ _ _ _ _ _ _ Hco')]. set_solver.
  - done.
  - eapply (off_links_dll m' m2 (b :: F)); [done..| |apply (co_u _ _ _ _ _ _ _ Hco')]. set_solver.
  - assert (Hp : E ++ (b :: F) ++ U ≡ₚ b :: E ++ F ++ U) by solve_Permutation. rewrite Hp. by constructor.
  - rewrite Forall_forall in *. intros b' [-> | Hb']%Hin; auto.
  - eapply geom_sub; [done|]. intros b'. by rewrite Hin, elem_of_cons.
  - intros b' Hb'. rewrite Hfld by auto. apply Hin in Hb' as Hb2. destruct Hb2 as [-> | Hb2].
    + rewrite upd_same. eapply fl_frame; [|exact Hf]. eauto.
    + rewrite upd_other by (intros ->; done). eapply fl_frame; [|by apply (co_free _ _ _ _ _ _ _ Hco')].
      intros n Hn'. destruct (co_sub _ _ _ _ _ _ _ Hco b' Hb2) as [_ Hs]. eauto.
  - intros b' [-> | Hb']%Hin; [rewrite upd_same; split; [|done]; apply (g_nodup _ Hg); by left|].
    rewrite upd_other by (intros ->; done). by apply (co_sub _ _ _ _ _ _ _ Hco).
  - intros b' Hb'. rewrite Hfld by auto. apply Hin in Hb' as [-> | Hb2]; [by rewrite upd_same|].
    rewrite upd_other by (intros ->; done). by apply (co_size _ _ _ _ _ _ _ Hco').
Qed.

(** The empty blocks leave. *)
Lemma core_drop_empty m c E F U fr sz :
  core m c E F U fr sz -> core m (mkStacks 0 (free_blk_list c) (full_blk_list c)) [] F U fr sz.
Proof.
  intros []. constructor; cbn [empty_blk_list free_blk_list full_blk_list app] in *; try done.
  - by apply NoDup_app in co_nodup0 as (_ & _ & ?).
  - by apply Forall_app in co_blk0 as [_ ?].
  - eapply geom_sub; [done|]. intros b Hb. apply elem_of_app. by right.
  - intros b Hb. apply co_free0, elem_of_app. by right.
  - intros b Hb. apply co_sub0, elem_of_app. by right.
  - intros b Hb. apply co_size0, elem_of_app. by right.
Qed.

End Links.

(** ** The objects of a block *)

Lemma elem_of_objects sz base cap n :
  n ∈ objects sz base cap <-> exists i, 0 <= i < cap /\ n = base + sz * i.
Proof.
  unfold objects. rewrite list_elem_of_fmap. split.
  - intros (i & -> & Hi). apply elem_of_seqZ in Hi. exists i. split; [lia|done].
  - intros (i & Hi & ->). exists i. split; [done|]. apply elem_of_seqZ. lia.
Qed.

Lemma objects_nodup sz base cap : 0 < sz -> NoDup (objects sz base cap).
Proof.
  intros Hs. unfold objects. apply NoDup_fmap_2_strong; [|apply NoDup_seqZ]. intros i j _ _ E. nia.
Qed.

Lemma length_objects sz base cap : 0 <= cap -> Z.of_nat (length (objects sz base cap)) = cap.
Proof. intros Hc. unfold objects. rewrite length_fmap, length_seqZ. lia. Qed.

Lemma link_objects_ok m last ns :
  NoDup (last :: ns) ->
  let r := link_objects m last ns in
  fl (kset r.1 r.2 0) last (last :: ns) /\ (forall x, x ∉ last :: ns -> kset r.1 r.2 0 x = m x).
Proof.
  revert m last. induction ns as [|n ns IH]; intros m last Hnd; cbn [link_objects].
  - cbn. rewrite kset_same. split; [done|]. intros x Hx. apply kset_other. set_solver.
  - apply NoDup_cons in Hnd as [Hl Hnd]. destruct (IH (kset m last n) n Hnd) as [Hf Ho]. cbv zeta in *.
    split.
    + split; [done|]. rewrite Ho, kset_same by done. exact Hf.
    + intros x Hx. rewrite Ho by set_solver. apply kset_other. set_solver.
Qed.

Lemma link_block_ok m sz base cap :
  0 < sz -> 1 <= cap ->
  exists m', link_block m sz base cap = Ret m' /\ fl m' base (objects sz base cap) /\
    (forall x, x ∉ objects sz base cap -> m' x = m x).
Proof.
  intros Hs Hc. pose proof (objects_nodup sz base cap Hs) as Hnd.
  assert (E : objects sz base cap = base :: tail (objects sz base cap)).
  { unfold objects. rewrite seqZ_cons by lia. cbn. f_equal. lia. }
  unfold link_block. rewrite (proj2 (Z.leb_le 1 cap) Hc). cbn [guard_panic].
  rewrite E in Hnd. destruct (link_objects_ok m base _ Hnd) as [Hf Ho]. cbv zeta in *.
  destruct (link_objects m base (tail (objects sz base cap))) as [m' l]. exists (kset m' l 0).
  split; [done|]. rewrite E. done.
Qed.
