(* ===== verification/SlabProofs.v ===== *)
(** The slab allocator: objects handed out are free, aligned and apart from each
    other and from the allocator's own words, whatever clients write into theirs.
    [small_ok] is the invariant of a [SmallSlabCache]: the state of SlabCore with
    every block in a frame of its own. *)

From S2P Require Import Prelude HalConst Addr FrameAlloc RangeMap Slab SlabCore.

#[local] Open Scope Z_scope.

(** ** The direct map *)

(** Clearing the bits of the kernel's base gives back the physical address. *)
Lemma land_wnot_base K y n :
  is_usize K -> 0 <= n < 64 -> K mod 2 ^ n = 0 -> 0 <= y < 2 ^ n -> Z.land (K + y) (wnot K) = y.
Proof.
  intros HK Hn Hm Hy.
  assert (Hlow : forall i, 0 <= i < n -> Z.testbit K i = false).
  { intros i Hi. rewrite <- (Z.mod_pow2_bits_low K n i) by lia. by rewrite Hm, Z.bits_0. }
  assert (Hd : Z.land K y = 0).
  { apply Z.bits_inj'. intros i Hi. rewrite Z.land_spec, Z.bits_0. destruct (decide (i < n)).
    - by rewrite Hlow by lia.
    - by rewrite (testbit_above y n), andb_false_r by lia. }
  rewrite <- lor_disjoint by done. apply Z.bits_inj'. intros i Hi.
  rewrite Z.land_spec, Z.lor_spec, wnot_testbit by done. destruct (decide (i < n)).
  - rewrite Hlow by lia. destruct (Z.ltb_spec i 64); [by rewrite andb_true_r|lia].
  - rewrite (testbit_above y n) by lia. by destruct (Z.testbit K i), (i <? 64).
Qed.

(** The part of physical memory the kernel sees through its base address. *)
Class DirectMapLaws (C : ConstantsHal) := {
  dm_frames : Z;
  dm_small : 0 < dm_frames < 2 ^ PPN_WIDTH;
  dm_wrap f : 0 < f < dm_frames -> is_usize (f * 4096 + 4095 + r_start KERNEL_ADDR_SPACE);
  dm_base : 0 < r_start KERNEL_ADDR_SPACE /\ r_start KERNEL_ADDR_SPACE mod 4096 = 0;
  dm_mask y : 0 <= y < dm_frames * 4096 ->
    Z.land (r_start KERNEL_ADDR_SPACE + y) (wnot (r_start KERNEL_ADDR_SPACE)) = y;
}.

#[export] Instance riscv64_direct : DirectMapLaws riscv64.
Proof.
  refine {| dm_frames := 2 ^ 26 |}.
  - done.
  - intros f Hf. unfold is_usize. cbn. lia.
  - done.
  - intros y Hy. apply land_wnot_base with 38; [done|lia|done|]. lia.
Defined.

#[export] Instance loongarch64_direct : DirectMapLaws loongarch64.
Proof.
  refine {| dm_frames := 2 ^ 36 - 1 |}.
  - done.
  - intros f Hf. unfold is_usize. cbn. lia.
  - done.
  - intros y Hy. apply land_wnot_base with 60; [done|lia|done|]. lia.
Defined.

Section Direct.
Context {C : ConstantsHal} {CL : ConstantsLaws C} {DM : DirectMapLaws C}.

Definition direct (f : Z) : Prop := 0 < f < dm_frames.

Lemma frame_ptr_val f : direct f -> frame_ptr f = f * 4096 + r_start KERNEL_ADDR_SPACE.
Proof.
  intros Hf. pose proof (dm_wrap f Hf) as Hw. pose proof dm_base. unfold frame_ptr, PhysAddr_get_ptr, PhysPageNum_start_addr, wshl.
  rewrite page_size_bits, Z.shiftl_mul_pow2 by lia. change (2 ^ 12) with 4096. unfold is_usize, direct in *.
  rewrite (wrap_small (f * 4096)) by (unfold is_usize; lia). apply wadd_small. unfold is_usize. lia.
Qed.

Lemma slab_floor_ptr f off : direct f -> 0 <= off < 4096 -> slab_floor (frame_ptr f + off) = f.
Proof.
  intros Hf Ho. rewrite frame_ptr_val by done. unfold slab_floor, direct in *.
  replace (f * 4096 + r_start KERNEL_ADDR_SPACE + off) with (r_start KERNEL_ADDR_SPACE + (f * 4096 + off)) by lia.
  rewrite dm_mask by nia. rewrite page_size_val, page_size_bits. change 4096 with (2 ^ 12) at 2.
  pose proof (dm_wrap f Hf). pose proof dm_base. rewrite land_wnot_round by (unfold is_usize in *; lia).
  rewrite Z.shiftr_div_pow2 by lia. change (2 ^ 12) with 4096. div_lia.
Qed.

Lemma frame_next f k : 0 <= f -> 0 <= k -> f + k <= dm_frames -> PhysPageNum_add f k = f + k.
Proof.
  intros Hf Hk Hb. unfold PhysPageNum_add, PhysPageNum_from. pose proof dm_small. pose proof ppn_width_range.
  assert (is_usize (f + k)) by (apply ppn_usize; lia).
  rewrite mask_mod, wadd_small by (done || lia). apply Z.mod_small. lia.
Qed.

(** ** Small blocks *)

Context {A : Type} {FA : FrameAllocatorHal A} {FL : FrameAllocatorLaws C A}.
Context (sz : Z).

(** What the size classes of [SmallSlabCache] satisfy. *)
Record small_size : Prop := {
  ss_size : 8 <= sz;
  ss_pages : SlabBlock_page_cnt sz = 1;
  ss_off : small_header <= small_objects_off sz;
  ss_cap : 2 <= SmallSlabBlock_cap sz;
  ss_fit : small_objects_off sz + sz * SmallSlabBlock_cap sz <= 4096;
}.

Context (Hsz : small_size) (self : Z).
#[local] Existing Instance small_fields.
#[local] Abbreviation cap := (SmallSlabBlock_cap sz).
#[local] Abbreviation off := (small_objects_off sz).

(** A block is the start of a frame, and its objects follow the header. *)
Definition sblk (b : Z) : Prop := exists f, direct f /\ b = frame_ptr f.
Definition sobjs (b : Z) : list Z := objects sz (b + off) cap.

Lemma sblk_sep b b' o o' :
  sblk b -> sblk b' -> 0 <= o < 4096 -> 0 <= o' < 4096 -> b + o = b' + o' -> b = b' /\ o = o'.
Proof.
  intros (f & Hf & ->) (f' & Hf' & ->) Ho Ho' E. assert (f = f') as ->; [|lia].
  rewrite <- (slab_floor_ptr f o), <- (slab_floor_ptr f' o') by done. by rewrite E.
Qed.

Lemma sblk_nz b : sblk b -> b <> 0.
Proof. intros (f & Hf & ->). rewrite frame_ptr_val by done. pose proof dm_base. unfold direct in Hf. lia. Qed.

Lemma small_hoffs o : o ∈ hoffs -> 8 <= o < 40.
Proof. unfold hoffs. cbn. rewrite !elem_of_cons, elem_of_nil. lia. Qed.

Lemma small_sep b b' o o' : sblk b -> sblk b' -> o ∈ hoffs -> o' ∈ hoffs -> b + o = b' + o' -> b = b' /\ o = o'.
Proof. intros Hb Hb' Ho%small_hoffs Ho'%small_hoffs. apply sblk_sep; [done|done|lia|lia]. Qed.

Lemma small_hoffs_nodup : NoDup hoffs.
Proof. by apply (bool_decide_unpack (NoDup [8; 16; 24; 32])). Qed.

(** An object as a block and an offset. *)
Lemma sobjs_at b n : n ∈ sobjs b <-> exists i, 0 <= i < cap /\ n = b + (off + sz * i).
Proof.
  unfold sobjs. rewrite elem_of_objects. split; intros (i & Hi & ->); exists i; (split; [done|lia]).
Qed.

Lemma sobj_bounds i j : 0 <= i < cap -> 0 <= j < sz -> 40 <= off + sz * i + j < 4096.
Proof. intros Hi Hj. destruct Hsz as [H1 _ H2 _ H3]. unfold small_header in H2. nia. Qed.

Lemma small_geom bs : Forall sblk bs -> geom sobjs cap bs.
Proof.
  intros Hb. rewrite Forall_forall in Hb. destruct Hsz as [H1 _ _ H2 _]. constructor.
  - intros b b' n Hin Hin' (i & Hi & ->)%sobjs_at (i' & Hi' & E)%sobjs_at.
    pose proof (sobj_bounds i 0 Hi ltac:(lia)). pose proof (sobj_bounds i' 0 Hi' ltac:(lia)).
    destruct (sblk_sep b b' (off + sz * i) (off + sz * i')) as [-> _]; auto; lia.
  - intros b b' n o Hin Hin' (i & Hi & ->)%sobjs_at Ho%small_hoffs E.
    pose proof (sobj_bounds i 0 Hi ltac:(lia)).
    destruct (sblk_sep b' b (off + sz * i) o) as [_ E']; auto; lia.
  - intros b _. apply objects_nodup. lia.
  - intros b _. apply length_objects. lia.
  - intros b n Hin (i & Hi & ->)%sobjs_at. pose proof (sobj_bounds i 0 Hi ltac:(lia)).
    destruct (Hb b Hin) as (f & Hf & ->). rewrite frame_ptr_val by done. pose proof dm_base. unfold direct in Hf. lia.
Qed.

Definition free_count (fr : Z -> list Z) (b : Z) : Z := Z.of_nat (length (fr b)).
Definition in_use (bs : list Z) (fr : Z -> list Z) (n : Z) : Prop :=
  exists b, b ∈ bs /\ n ∈ sobjs b /\ n ∉ fr b.

#[local] Abbreviation score := (core sblk sobjs cap).

(** The state of a cache: its stacks, the free objects of each block, and its
    frames. *)
Record small_state (m : kmem) (c : Stacks) (a : A) (E F U : list Z) (fr : Z -> list Z) : Prop := {
  sm_core : score m c E F U fr (fun b => cap - free_count fr b);
  sm_owner b : b ∈ E ++ F ++ U -> m b = self;
  sm_e b : b ∈ E -> free_count fr b = cap;
  sm_f b : b ∈ F -> 0 < free_count fr b;
  sm_u b : b ∈ U -> fr b = [];
  sm_alloc : fa_wf a;
  sm_low f : f ∈ fa_managed a -> direct f;
  sm_frame b : b ∈ E ++ F ++ U -> slab_floor b ∈ fa_managed a /\ slab_floor b ∉ fa_free a;
}.

(** Between operations, with the set of objects in use and of frames owned. *)
Definition small_ok (m : kmem) (c : Stacks) (a : A) (live owned : gset Z) : Prop :=
  exists E F U fr, small_state m c a E F U fr /\ (forall b, b ∈ F -> free_count fr b < cap) /\
    (forall n, n ∈ live <-> in_use (E ++ F ++ U) fr n) /\
    (forall f, f ∈ owned <-> exists b, b ∈ E ++ F ++ U /\ slab_floor b = f).

Lemma small_state_blk m c a E F U fr b : small_state m c a E F U fr -> b ∈ E ++ F ++ U -> sblk b.
Proof. intros [Hc _ _ _ _ _ _ _]. destruct Hc. rewrite Forall_forall in *. auto. Qed.

Lemma sblk_floor b o : sblk b -> 0 <= o < 4096 -> slab_floor (b + o) = slab_floor b /\ frame_ptr (slab_floor b) = b.
Proof.
  intros (f & Hf & ->) Ho. rewrite slab_floor_ptr by done. rewrite <- (Z.add_0_r (frame_ptr f)) at 1.
  rewrite slab_floor_ptr by (done || lia). split; [done|]. rewrite <- (Z.add_0_r (frame_ptr f)) at 1. by rewrite slab_floor_ptr by (done || lia).
Qed.

Lemma free_count_le m c a E F U fr b :
  small_state m c a E F U fr -> b ∈ E ++ F ++ U -> 0 <= free_count fr b <= cap.
Proof.
  intros [Hc _ _ _ _ _ _ _] Hb. destruct (co_sub _ _ _ _ _ _ _ _ _ _ Hc b Hb) as [Hnd Hs].
  unfold free_count. pose proof (submseteq_length _ _ (NoDup_submseteq _ _ Hnd Hs)).
  pose proof (g_cap _ _ _ (co_geom _ _ _ _ _ _ _ _ _ _ Hc) b Hb). lia.
Qed.

Lemma cap_usize k : 0 <= k <= cap -> is_usize k.
Proof. intros Hk. destruct Hsz as [H1 _ H2 _ H3]. unfold small_header, is_usize in *. nia. Qed.

(** The word that names the owner is neither a field used above nor an object. *)
Lemma owner_apart m c a E F U fr b n k :
  small_state m c a E F U fr -> b ∈ E ++ F ++ U -> n ∈ sobjs b -> k ∈ E ++ F ++ U ->
  ~ touched (E ++ F ++ U) n k.
Proof.
  intros Hst Hb (i & Hi & ->)%sobjs_at Hk [Heq|(b' & o & Hb' & Ho & Heq)].
  - pose proof (sobj_bounds i 0 Hi) as Hbd. destruct Hsz as [H1 _ _ _ _].
    destruct (sblk_sep k b 0 (off + sz * i)); [by eapply small_state_blk..|lia|lia|lia|lia].
  - apply small_hoffs in Ho. destruct (sblk_sep k b' 0 o); [by eapply small_state_blk..|lia|lia|lia|lia].
Qed.

(** Taking an object from the block on top. *)
Lemma small_take m c a E b F U fr live owned :
  small_state m c a E (b :: F) U fr -> (forall k, k ∈ F -> free_count fr k < cap) ->
  (forall n, n ∈ live <-> in_use (E ++ (b :: F) ++ U) fr n) ->
  (forall f, f ∈ owned <-> exists b', b' ∈ E ++ (b :: F) ++ U /\ slab_floor b' = f) ->
  exists n c' m', take_object c m = Ret (Some n, (c', m')) /\ (n ∉ live) /\ (exists b', sblk b' /\ n ∈ sobjs b') /\
    small_ok m' c' a ({[n]} ∪ live) owned /\
    (forall x, x <> n -> (forall b' o, b' ∈ E ++ (b :: F) ++ U -> o ∈ hoffs -> x <> b' + o) -> m' x = m x).
Proof.
  intros Hst Hrest Hlive Hown. pose proof Hst as [Hc Ho He Hf Hu Ha Hlow Hfr].
  assert (Hb : b ∈ E ++ (b :: F) ++ U) by set_solver.
  pose proof (small_state_blk _ _ _ _ _ _ _ b Hst Hb) as Hbb. pose proof (free_count_le _ _ _ _ _ _ _ b Hst Hb) as Hcnt.
  assert (Hpos : 0 < free_count fr b) by (apply Hf; by left). unfold free_count in Hpos, Hcnt.
  destruct (fr b) as [|n ns] eqn:En; [cbn in Hpos; lia|].
  destruct (co_sub _ _ _ _ _ _ _ _ _ _ Hc b Hb) as [Hnd Hsub]. rewrite En in Hnd, Hsub.
  apply NoDup_cons in Hnd as [Hn Hnd].
  destruct (take_object_ok sblk sblk_nz small_sep small_hoffs_nodup sobjs cap m c E b F U fr _ n ns Hc En)
    as (c' & m' & Et & Hc' & Hm). cbn [length] in Hcnt.
  set (F' := match ns with [] => F | _ => b :: F end) in *. set (U' := match ns with [] => b :: U | _ => U end) in *.
  assert (Hin : forall k, k ∈ E ++ F' ++ U' <-> k ∈ E ++ (b :: F) ++ U).
  { intros k. unfold F', U'. destruct ns; set_solver. }
  assert (Hpt : forall k, k <> b -> free_count (upd fr b ns) k = free_count fr k).
  { intros k Hk. unfold free_count. by rewrite upd_other. }
  assert (Hnob : forall l1 l2, E ++ (b :: F) ++ U = l1 ++ b :: l2 -> (b ∉ l1) /\ (b ∉ l2)).
  { intros l1 l2 E'. pose proof (co_nodup _ _ _ _ _ _ _ _ _ _ Hc) as Nd. rewrite E' in Nd.
    apply NoDup_app in Nd as (_ & H1 & H2). apply NoDup_cons in H2 as [H2 _]. split; [|done]. intros H. apply (H1 b H). by left. }
  destruct (Hnob E (F ++ U)) as [HbE HbFU]; [done|].
  exists n, c', m'. split; [done|]. split; [|split; [|split]].
  - rewrite Hlive. intros (b' & Hb' & Hn' & Hnf). apply Hnf.
    assert (b' = b) as ->; [|rewrite En; by left].
    apply (g_node _ _ _ (co_geom _ _ _ _ _ _ _ _ _ _ Hc) b' b n); auto. apply Hsub. by left.
  - exists b. split; [done|]. apply Hsub. by left.
  - exists E, F', U', (upd fr b ns). split; [|split; [|split]].
    + constructor; try done.
      * eapply core_ext; [exact Hc'|]. intros k Hk. cbn beta. unfold upd at 2. destruct (Z.eqb_spec k b) as [->|Hk'].
        -- unfold free_count. rewrite upd_same, En. cbn [length]. rewrite wadd_small; [lia|]. apply cap_usize. lia.
        -- by rewrite Hpt.
      * intros k Hk%Hin. rewrite Hm; [by apply Ho|]. apply (owner_apart _ _ _ _ _ _ _ b n k Hst Hb); [apply Hsub; by left|done].
      * intros k Hk. rewrite Hpt; [by apply He|]. intros ->. done.
      * intros k Hk. unfold F' in Hk. destruct ns as [|n' ns].
        -- rewrite Hpt; [apply Hf; by right|]. intros ->. set_solver.
        -- destruct (decide (k = b)) as [->|Hk']; [unfold free_count; rewrite upd_same; cbn; lia|].
           rewrite Hpt by done. by apply Hf.
      * intros k Hk. unfold U' in Hk. destruct ns as [|n' ns].
        -- destruct (decide (k = b)) as [->|Hk']; [by rewrite upd_same|]. rewrite upd_other by done. apply Hu. set_solver.
        -- rewrite upd_other; [by apply Hu|]. intros ->. set_solver.
      * intros k Hk%Hin. by apply Hfr.
    + intros k Hk. unfold F' in Hk. destruct (decide (k = b)) as [->|Hk'].
      * unfold free_count. rewrite upd_same. lia.
      * rewrite Hpt by done. apply Hrest. destruct ns; set_solver.
    + intros k. rewrite elem_of_union, elem_of_singleton, Hlive. split.
      * intros [->|(b' & Hb' & Hk & Hkf)].
        -- exists b. rewrite Hin, upd_same. split; [done|]. split; [apply Hsub; by left|done].
        -- exists b'. rewrite Hin. do 2 (split; [done|]). destruct (decide (b' = b)) as [->|Hne].
           ++ rewrite upd_same. rewrite En in Hkf. set_solver.
           ++ by rewrite upd_other.
      * intros (b' & Hb'%Hin & Hk & Hkf). destruct (decide (b' = b)) as [->|Hne].
        -- rewrite upd_same in Hkf. destruct (decide (k = n)) as [->|Hkn]; [by left|right].
           exists b. do 2 (split; [done|]). rewrite En. set_solver.
        -- rewrite upd_other in Hkf by done. right. by exists b'.
    + intros f. rewrite Hown. split; intros (b' & Hb' & <-); exists b'; (split; [by apply Hin|done]).
  - intros x Hx Hx'. apply Hm. intros [->|(b' & o & Hb' & Ho' & ->)]; [done|]. by apply (Hx' b' o).
Qed.

(** A block made of a frame that was free. *)
Lemma small_new_block_ok m c a a' E F U fr f :
  small_state m c a E F U fr -> f ∈ fa_free a -> fa_wf a' -> fa_free a' = fa_free a ∖ {[f]} ->
  fa_managed a' = fa_managed a ->
  let b := frame_ptr f in
  exists c' m', small_new_block sz self c m f = Ret (c', m') /\ (b ∉ E ++ F ++ U) /\ sblk b /\ slab_floor b = f /\
    small_state m' c' a' E (b :: F) U (upd fr b (sobjs b)) /\
    (forall x, (forall o, 0 <= o < 4096 -> x <> b + o) ->
       (forall b' o, b' ∈ E ++ F ++ U -> o ∈ hoffs -> x <> b' + o) -> m' x = m x).
Proof.
  intros Hst Hf Hw' Hfree Hman b. pose proof Hst as [Hc Ho He Hfp Hu Ha Hlow Hfr].
  assert (Hd : direct f) by (apply Hlow; by apply fa_free_managed).
  assert (Hb : sblk b) by by exists f.
  assert (Hfl : slab_floor b = f) by (unfold b; rewrite <- (Z.add_0_r (frame_ptr f)); apply slab_floor_ptr; [done|lia]).
  assert (Hnb : b ∉ E ++ F ++ U) by (intros Hin; apply Hfr in Hin as [_ Hin]; by rewrite Hfl in Hin).
  destruct Hsz as [S1 _ _ S4 _].
  set (m1 := kset (kset (kset m b self) (b + 24) 0) (b + 32) (b + off)).
  destruct (link_block_ok m1 sz (b + off) cap) as (m2 & E2 & Hl & Hm2); [lia|lia|]. fold (sobjs b) in Hl, Hm2.
  assert (Hnode : forall o, 0 <= o < 40 -> b + o ∉ sobjs b).
  { intros o Ho' (i & Hi & E')%sobjs_at. pose proof (sobj_bounds i 0 Hi). lia. }
  assert (Hoff : forall x, (forall o, 0 <= o < 4096 -> x <> b + o) -> m2 x = m x).
  { intros x Hx. rewrite Hm2.
    - unfold m1. rewrite !kset_other; [done|..]; [|by apply Hx; lia..]. rewrite <- (Z.add_0_r b). apply Hx. lia.
    - intros (i & Hi & E')%sobjs_at. pose proof (sobj_bounds i 0 Hi). apply (Hx (off + sz * i)); lia. }
  assert (Hother : forall b' o, b' ∈ E ++ F ++ U -> 0 <= o < 4096 -> m2 (b' + o) = m (b' + o)).
  { intros b' o Hb' Ho'. apply Hoff. intros o' Ho2 E'. pose proof (small_state_blk _ _ _ _ _ _ _ b' Hst Hb').
    destruct (sblk_sep b' b o o') as [-> _]; done. }
  assert (Hbl : Forall sblk (b :: E ++ F ++ U)) by (constructor; [done|apply Hc]).
  destruct (core_add sblk sblk_nz small_sep small_hoffs_nodup sobjs cap m m2 c E F U fr _ b Hc Hb Hnb (small_geom _ Hbl))
    as (m3 & E3 & Hc3 & Ho3).
  { intros b' o Hb' Ho'%small_hoffs. apply Hother; [done|lia]. }
  { intros b' n Hb' (i & Hi & ->)%sobjs_at. pose proof (sobj_bounds i 0 Hi). apply Hother; [done|lia]. }
  { cbn [bf_head small_fields]. rewrite (Hm2 (b + 32)) by (apply Hnode; lia). unfold m1. by rewrite kset_same. }
  { cbn [bf_size small_fields]. rewrite Hm2 by (apply Hnode; lia). unfold m1. rewrite kset_other, kset_same by lia. done. }
  exists (mkStacks (empty_blk_list c) b (full_blk_list c)), m3.
  split; [|split; [done|split; [done|split; [done|split]]]].
  - unfold small_new_block. fold b. cbn [bf_size bf_head small_fields]. fold m1. rewrite E2. cbn [obind]. by rewrite E3.
  - assert (Hin : forall k, k ∈ E ++ (b :: F) ++ U -> k = b \/ k ∈ E ++ F ++ U) by set_solver.
    assert (Hcnt : forall k, k ∈ E ++ F ++ U -> free_count (upd fr b (sobjs b)) k = free_count fr k).
    { intros k Hk. unfold free_count. rewrite upd_other; [done|]. by intros ->. }
    assert (Hcap : free_count (upd fr b (sobjs b)) b = cap).
    { unfold free_count. rewrite upd_same. apply length_objects. lia. }
    constructor; try done.
    + eapply core_ext; [exact Hc3|]. intros k Hk. cbn beta. unfold upd at 2. destruct (Z.eqb_spec k b) as [->|Hk'].
      * lia.
      * rewrite Hcnt; [done|]. destruct (Hin k Hk); done.
    + intros k Hk. rewrite Ho3.
      * destruct (Hin k Hk) as [-> | Hk'].
        -- rewrite Hm2 by (pose proof (Hnode 0) as H0; rewrite Z.add_0_r in H0; apply H0; lia).
           unfold m1. by rewrite !kset_other, kset_same by lia.
        -- rewrite <- (Z.add_0_r k), Hother, Z.add_0_r by (done || lia). by apply Ho.
      * intros b' Hb'. assert (Hkb : sblk k) by (destruct (Hin k Hk) as [-> | ?]; [done|by eapply small_state_blk]).
        assert (Hbb' : sblk b') by (apply elem_of_cons in Hb' as [-> | ?]; [done|eapply small_state_blk; [done|set_solver]]).
        cbn [bf_last bf_next small_fields].
        split; intros Heq; [destruct (sblk_sep k b' 0 8)|destruct (sblk_sep k b' 0 16)]; done || lia.
    + intros k Hk. rewrite Hcnt by set_solver. by apply He.
    + intros k [-> | Hk]%elem_of_cons; [lia|]. rewrite Hcnt by set_solver. by apply Hfp.
    + intros k Hk. rewrite upd_other; [by apply Hu|]. intros ->. set_solver.
    + intros g. rewrite Hman. apply Hlow.
    + intros k Hk. rewrite Hman, Hfree. destruct (Hin k Hk) as [-> | Hk'].
      * rewrite Hfl. split; [by apply fa_free_managed|set_solver].
      * destruct (Hfr k Hk'). set_solver.
  - intros x Hx Hx'. rewrite Ho3; [by apply Hoff|]. intros b' [-> | Hb']%elem_of_cons.
    + cbn. split; apply Hx; lia.
    + assert (b' ∈ E ++ F ++ U) by set_solver. split; apply Hx'; [done|apply in_last|done|apply in_next].
Qed.

(** An address in none of the frames. *)
Definition outside (owned : gset Z) (x : Z) : Prop :=
  forall f o, f ∈ owned -> 0 <= o < 4096 -> x <> frame_ptr f + o.

Lemma outside_block bs (owned : gset Z) x b o :
  Forall sblk bs -> (forall f, f ∈ owned <-> exists b, b ∈ bs /\ slab_floor b = f) -> outside owned x ->
  b ∈ bs -> 0 <= o < 4096 -> x <> b + o.
Proof.
  intros Hbl Hown Hx Hb Ho. rewrite Forall_forall in Hbl.
  destruct (sblk_floor b o (Hbl b Hb) Ho) as [_ Hp]. rewrite <- Hp. apply Hx; [|done]. apply Hown. by exists b.
Qed.

(** Bytes of an object in use are neither header words nor another object. *)
Lemma in_use_apart bs fr q j :
  Forall sblk bs -> in_use bs fr q -> 0 <= j < sz ->
  (forall b o, b ∈ bs -> 0 <= o < 40 -> q + j <> b + o) /\
  (forall b n, sblk b -> n ∈ sobjs b -> q + j = n -> q = n) /\
  (forall b o, sblk b -> (b ∉ bs) -> 0 <= o < 4096 -> q + j <> b + o).
Proof.
  intros Hbl (b & Hb & (i & Hi & ->)%sobjs_at & _) Hj. rewrite Forall_forall in Hbl.
  pose proof (sobj_bounds i j Hi Hj) as Hbd. pose proof (Hbl b Hb) as Hbb. split; [|split].
  - intros b' o Hb' Ho E. destruct (sblk_sep b b' (off + sz * i + j) o); auto; lia.
  - intros b' n Hb' (i' & Hi' & ->)%sobjs_at E. pose proof (sobj_bounds i' 0 Hi').
    destruct (sblk_sep b b' (off + sz * i + j) (off + sz * i')) as [-> E']; auto; [lia..|].
    assert (i = i') as ->; [|done]. destruct Hsz as [S1 _ _ _ _]. nia.
  - intros b' o Hb' Hnb Ho E. destruct (sblk_sep b b' (off + sz * i + j) o) as [-> _]; auto; lia.
Qed.

(** Taking an object, seen from outside: [m] is memory before the block was found. *)
Lemma small_take_out m m1 c1 a1 E1 b F1 U fr1 live owned1 :
  small_state m1 c1 a1 E1 (b :: F1) U fr1 -> (forall k, k ∈ F1 -> free_count fr1 k < cap) ->
  (forall n, n ∈ live <-> in_use (E1 ++ (b :: F1) ++ U) fr1 n) ->
  (forall f, f ∈ owned1 <-> exists b', b' ∈ E1 ++ (b :: F1) ++ U /\ slab_floor b' = f) ->
  (forall x, outside owned1 x -> m1 x = m x) -> (forall q j, q ∈ live -> 0 <= j < sz -> m1 (q + j) = m (q + j)) ->
  exists p c' m', take_object c1 m1 = Ret (Some p, (c', m')) /\ small_ok m' c' a1 ({[p]} ∪ live) owned1 /\
    (p ∉ live) /\ (exists b, sblk b /\ p ∈ sobjs b) /\
    (forall x, outside owned1 x -> m' x = m x) /\ (forall q j, q ∈ live -> 0 <= j < sz -> m' (q + j) = m (q + j)).
Proof.
  intros Hst1 Hr1 Hl1 Hw1 Hx1 Hq1.
  destruct (small_take m1 c1 a1 E1 b F1 U fr1 live owned1 Hst1 Hr1 Hl1 Hw1) as (p & c' & m' & Et & Hp & Hb & Hok & Hm).
  assert (Hbl : Forall sblk (E1 ++ (b :: F1) ++ U)) by apply (sm_core _ _ _ _ _ _ _ Hst1).
  exists p, c', m'. do 4 (split; [done|]). split.
  - intros x Hx. rewrite <- Hx1 by done. apply Hm.
    + destruct Hok as (E2 & F2 & U2 & fr2 & Hst2 & _ & Hl2 & Hw2).
      destruct (proj1 (Hl2 p)) as (b2 & Hb2 & (i & Hi & ->)%sobjs_at & _); [set_solver|].
      eapply (outside_block _ owned1); [apply (sm_core _ _ _ _ _ _ _ Hst2)|done|done|done|].
      pose proof (sobj_bounds i 0 Hi). destruct Hsz as [S1 _ _ _ _]. lia.
    + intros b' o Hb' Ho'%small_hoffs. eapply (outside_block _ owned1); [done..|lia].
  - intros q j Hq Hj. rewrite <- Hq1 by done.
    destruct (in_use_apart _ fr1 q j Hbl) as (A1 & A2 & _); [by apply Hl1|done|]. apply Hm.
    + intros E'. destruct Hb as (b' & Hb' & Hn). by apply Hp; rewrite <- (A2 b' p Hb' Hn E').
    + intros b' o Hb' Ho'%small_hoffs. apply A1; [done|lia].
Qed.

(** What an allocation promises. *)
Definition alloc_done (m : kmem) (a : A) (live owned : gset Z) (p : Z) (c' : Stacks) (m' : kmem) (a' : A)
    (owned' : gset Z) : Prop :=
  small_ok m' c' a' ({[p]} ∪ live) owned' /\ (p ∉ live) /\ (exists b, sblk b /\ p ∈ sobjs b) /\
  owned' = owned ∪ (fa_free a ∖ fa_free a') /\ fa_free a' ⊆ fa_free a /\ fa_managed a' = fa_managed a /\
  (forall x, outside owned' x -> m' x = m x) /\ (forall q j, q ∈ live -> 0 <= j < sz -> m' (q + j) = m (q + j)).

Lemma small_alloc_ok m c a live owned :
  small_ok m c a live owned ->
  (exists p c' m' a' owned', small_alloc sz self c m a = Ret (Some p, (c', m', a')) /\
     alloc_done m a live owned p c' m' a' owned') \/
  (small_alloc sz self c m a = Ret (None, (c, m, a)) /\ fa_free a = ∅).
Proof.
  intros (E & F & U & fr & Hst & Hrest & Hlive & Hown). pose proof Hst as [Hc Ho He Hf Hu Ha Hlow Hfr].
  assert (Hbl : Forall sblk (E ++ F ++ U)) by apply Hc.
  assert (Hsame : owned = owned ∪ fa_free a ∖ fa_free a) by set_solver.
  unfold small_alloc, ls_is_empty. destruct F as [|b F].
  2:{ (* a partly used block *)
    left. assert (Eb : free_blk_list c = b) by (by destruct (co_f _ _ _ _ _ _ _ _ _ _ Hc)).
    assert (Hb0 : b <> 0) by (apply sblk_nz; rewrite Forall_forall in Hbl; set_solver).
    destruct (Z.eqb_spec (free_blk_list c) 0); [congruence|]. cbn [obind].
    destruct (small_take_out m m c a E b F U fr live owned Hst) as (p & c' & m' & Et & Hok & Hp & Hb & Hx & Hq); auto.
    { intros k Hk. apply Hrest. by right. }
    exists p, c', m', a, owned. rewrite Et. split; [done|]. by do 7 (split; [done|]). }
  assert (Ef : free_blk_list c = 0) by apply (co_f _ _ _ _ _ _ _ _ _ _ Hc). rewrite Ef, Z.eqb_refl.
  destruct E as [|b E].
  2:{ (* an empty block *)
    left. destruct (reuse_block_ok sblk sblk_nz small_sep small_hoffs_nodup sobjs cap m c b E [] U fr _ Hc)
      as (c1 & m1 & Er & Hc1 & Ho1). rewrite Er. cbn [obind].
    assert (Hin : forall k, k ∈ E ++ [b] ++ U <-> k ∈ (b :: E) ++ [] ++ U) by set_solver.
    assert (Hw1 : forall x, (forall k o, k ∈ (b :: E) ++ [] ++ U -> 0 <= o < 40 -> o <> 0 -> x <> k + o) -> m1 x = m x).
    { intros x Hx. apply Ho1. intros k Hk. split; apply Hx; try done; cbn; lia. }
    assert (Hst1 : small_state m1 c1 a E [b] U fr).
    { constructor; try done.
      - intros k Hk%Hin. rewrite Hw1; [by apply Ho|]. intros k' o Hk' Ho' Ho0 E'. rewrite Forall_forall in Hbl.
        destruct (sblk_sep k k' 0 o); auto; lia.
      - intros k Hk. apply He. by right.
      - intros k Hk%list_elem_of_singleton. subst k. rewrite He by (by left). destruct Hsz. lia.
      - intros k Hk%Hin. by apply Hfr. }
    destruct (small_take_out m m1 c1 a E b [] U fr live owned Hst1) as (p & c' & m' & Et & Hok & Hp & Hb & Hx & Hq).
    { intros k Hk. by apply not_elem_of_nil in Hk. }
    { intros n. rewrite Hlive. split; intros (k & Hk%Hin & H); exists k; done. }
    { intros f. rewrite Hown. split; intros (k & Hk%Hin & H); exists k; done. }
    { intros x Hx. apply Hw1. intros k o Hk Ho' _. eapply (outside_block _ owned); [done..|lia]. }
    { intros q j Hq Hj. apply Hlive in Hq. destruct (in_use_apart _ _ q j Hbl Hq Hj) as (A1 & _). apply Hw1. intros k o Hk Ho' _. by apply A1. }
    exists p, c', m', a, owned. rewrite Et. split; [done|]. by do 7 (split; [done|]). }
  (* a new block *)
  assert (Ee : empty_blk_list c = 0) by apply (co_e _ _ _ _ _ _ _ _ _ _ Hc). unfold reuse_block, ls_pop. rewrite Ee, Z.eqb_refl.
  rewrite (ss_pages Hsz). destruct (fa_alloc_with_align a 1 0) as [[r a']|] eqn:Er.
  2:{ right. split; [done|]. destruct (decide (fa_free a = ∅)) as [|Hne]; [done|].
      destruct (fa_alloc_one a Ha Hne) as (r & s' & E'). congruence. }
  left. destruct (fa_alloc_law a 1 0 r a' Ha) as (Hw' & _ & Hr & Hsub & Hfree & Hman); [lia|lia|done|].
  assert (Hone : frames_of r = {[r_start r]}).
  { apply set_eq. intros f. rewrite elem_of_frames, elem_of_singleton, Hr. lia. }
  rewrite Hone in Hsub, Hfree. set (f := r_start r) in *.
  destruct (small_new_block_ok m c a a' [] [] U fr f Hst) as (c1 & m1 & En & Hnb & Hb & Hfl & Hst1 & Hm1); [set_solver|done..|].
  rewrite En. cbn [obind]. set (b := frame_ptr f) in *. cbn [app] in *. rewrite Forall_forall in Hbl.
  assert (Hfp : b + 0 = frame_ptr f + 0) by done.
  destruct (small_take_out m m1 c1 a' [] b [] U (upd fr b (sobjs b)) live (owned ∪ {[f]}) Hst1)
    as (p & c' & m' & Et & Hok & Hp & Hbp & Hx & Hq).
  { intros k Hk. by apply not_elem_of_nil in Hk. }
  { intros n. rewrite Hlive. split; intros (k & Hk & Hn & Hnf).
    - exists k. cbn [app]. split; [by right|]. split; [done|]. rewrite upd_other; [done|]. by intros ->.
    - cbn [app] in Hk. apply elem_of_cons in Hk as [-> | Hk]; [by rewrite upd_same in Hnf|].
      exists k. do 2 (split; [done|]). rewrite upd_other in Hnf; [done|]. by intros ->. }
  { intros g. rewrite elem_of_union, elem_of_singleton, Hown. split.
    - intros [(k & Hk & <-)| ->]; [exists k; split; [by right|done]|exists b; split; [by left|done]].
    - intros (k & [-> | Hk]%elem_of_cons & <-); [by right|left; by exists k]. }
  { intros x Hx. apply Hm1.
    - intros o Ho'. apply Hx; [set_solver|done].
    - intros k o Hk Ho'%small_hoffs. eapply (outside_block U owned); [by apply Forall_forall|done| |done|lia].
      intros g o' Hg. apply Hx. set_solver. }
  { intros q j Hq Hj. apply Hlive in Hq. destruct (in_use_apart U fr q j) as (A1 & _ & A3); [by apply Forall_forall|done..|].
    apply Hm1; [intros o Ho'; by apply A3|]. intros k o Hk Ho'%small_hoffs. apply A1; [done|lia]. }
  exists p, c', m', a', (owned ∪ {[f]}). rewrite Et. split; [done|]. do 3 (split; [done|]). rewrite Hfree.
  split; [|split; [set_solver|done]]. apply set_eq. intros g. destruct (decide (g = f)) as [->|]; set_solver.
Qed.

(** The stack a block is on is told by its count. *)
Lemma small_place m c a E F U fr b :
  small_state m c a E F U fr -> (forall k, k ∈ F -> free_count fr k < cap) -> b ∈ E ++ F ++ U ->
  (free_count fr b = 0 -> b ∈ U) /\ (0 < free_count fr b < cap -> b ∈ F) /\ (b ∈ U -> free_count fr b = 0).
Proof.
  intros [_ _ He Hf Hu _ _ _] Hrest Hb. destruct Hsz as [_ _ _ S4 _].
  assert (HU : b ∈ U -> free_count fr b = 0) by (intros H; unfold free_count; by rewrite (Hu b H)).
  apply elem_of_app in Hb as [Hb|Hb]; [apply He in Hb; split_and!; [lia..|done]|].
  apply elem_of_app in Hb as [Hb|Hb]; [apply Hf in Hb as Hb'; split_and!; [lia|done..]|].
  split_and!; [done| |done]. apply HU in Hb. lia.
Qed.

(** Counts and stacks after a block has received an object. *)
Lemma give_classes m c a E F U fr b p E' F' U' :
  small_state m c a E F U fr -> (forall k, k ∈ F -> free_count fr k < cap) -> b ∈ E ++ F ++ U ->
  free_count fr b < cap -> NoDup (E' ++ F' ++ U') ->
  give_moves cap E F U b (cap - free_count fr b) E' F' U' ->
  let fr' := upd fr b (p :: fr b) in
  (forall k, k ∈ E' -> free_count fr' k = cap) /\ (forall k, k ∈ F' -> 0 < free_count fr' k < cap) /\
  (forall k, k ∈ U' -> fr' k = []).
Proof.
  intros Hst Hrest Hb Hlt Hnd Hmv fr'. pose proof (small_place _ _ _ _ _ _ _ b Hst Hrest Hb) as (P1 & P2 & P3).
  pose proof Hst as [_ _ He Hf Hu _ _ _]. pose proof (free_count_le _ _ _ _ _ _ _ b Hst Hb) as Hcnt.
  pose proof (ss_cap Hsz) as S4.
  assert (Hnew : free_count fr' b = free_count fr b + 1) by (unfold free_count, fr'; rewrite upd_same; cbn [length]; lia).
  assert (Hold : forall k, k <> b -> fr' k = fr k /\ free_count fr' k = free_count fr k).
  { intros k Hk. unfold free_count, fr'. by rewrite upd_other. }
  assert (HE : b ∉ E) by (intros H; apply He in H; lia).
  assert (HEk : forall k, k ∈ E -> free_count fr' k = cap).
  { intros k Hk. destruct (Hold k) as [_ ->]; [by intros ->|auto]. }
  assert (HUk : forall k, k ∈ U -> k <> b -> fr' k = []).
  { intros k Hk Hne. destruct (Hold k Hne) as [-> _]. auto. }
  assert (HFk : forall k, k ∈ F -> k <> b -> 0 < free_count fr' k < cap).
  { intros k Hk Hne. destruct (Hold k Hne) as [_ ->]. auto. }
  destruct Hmv as [(Hs & U1 & U2 & -> & -> & -> & ->)|[(Hs & H1 & F1 & F2 & -> & -> & -> & ->)|(Hs & H1 & -> & -> & ->)]].
  - split; [done|]. split.
    + intros k [-> | Hk]%elem_of_cons; [lia|]. destruct (decide (k = b)) as [->|]; [lia|auto].
    + intros k Hk. apply HUk; [set_solver|]. intros ->. apply NoDup_app in Hnd as (_ & _ & Hnd).
      apply NoDup_cons in Hnd as [Hnd _]. set_solver.
  - split; [|split].
    + intros k [-> | Hk]%elem_of_cons; [lia|auto].
    + intros k Hk. apply HFk; [set_solver|]. intros ->. apply NoDup_cons in Hnd as [Hnd _]. set_solver.
    + intros k Hk. apply HUk; [done|]. intros ->. apply P3 in Hk. lia.
  - split; [done|]. split.
    + intros k Hk. destruct (decide (k = b)) as [->|]; [apply Hf in Hk; lia|auto].
    + intros k Hk. apply HUk; [done|]. intros ->. apply P3 in Hk. lia.
Qed.

Lemma small_dealloc_ok m c a live owned p :
  small_ok m c a live owned -> p ∈ live ->
  exists c' m', small_dealloc sz self c m p = Ret (c', m') /\ small_ok m' c' a (live ∖ {[p]}) owned /\
    (forall x, outside owned x -> m' x = m x) /\
    (forall q j, q ∈ live -> q <> p -> 0 <= j < sz -> m' (q + j) = m (q + j)).
Proof.
  intros (E & F & U & fr & Hst & Hrest & Hlive & Hown) Hp. apply Hlive in Hp as (b & Hb & Hpb & Hpf).
  pose proof Hst as [Hc Ho He Hf Hu Ha Hlow Hfr]. assert (Hbl : Forall sblk (E ++ F ++ U)) by apply Hc.
  assert (Hbb : sblk b) by by eapply small_state_blk. pose proof (ss_size Hsz) as S1.
  assert (Hblk : frame_ptr (slab_floor p) = b).
  { apply sobjs_at in Hpb as (i & Hi & ->). pose proof (sobj_bounds i 0 Hi).
    destruct (sblk_floor b (off + sz * i) Hbb) as [-> ?]; [lia|done]. }
  destruct (co_sub _ _ _ _ _ _ _ _ _ _ Hc b Hb) as [Hnd Hsub].
  assert (Hlt : free_count fr b < cap).
  { assert (Hs : p :: fr b ⊆+ sobjs b) by (apply NoDup_submseteq; [by constructor|set_solver]).
    apply submseteq_length in Hs. cbn [length] in Hs. unfold free_count.
    pose proof (g_cap _ _ _ (co_geom _ _ _ _ _ _ _ _ _ _ Hc) b Hb). lia. }
  pose proof (free_count_le _ _ _ _ _ _ _ b Hst Hb) as Hcnt.
  pose proof (small_place _ _ _ _ _ _ _ b Hst Hrest Hb) as (P1 & P2 & P3).
  destruct (give_object_ok sblk sblk_nz small_sep small_hoffs_nodup sobjs cap m c E F U fr _ b p Hc Hb Hpb Hpf)
    as (c' & m' & E' & F' & U' & Eg & Hmv & Hc' & Hm).
  { intros Hs. apply P1. lia. }
  { intros Hs H1. apply P2. pose proof (ss_cap Hsz). lia. }
  pose proof (give_moves_perm _ _ _ _ _ _ _ _ _ Hmv) as Hperm.
  assert (Hin : forall k, k ∈ E' ++ F' ++ U' <-> k ∈ E ++ F ++ U) by (intros k; by rewrite Hperm).
  destruct (give_classes _ _ _ _ _ _ _ b p E' F' U' Hst Hrest Hb Hlt (co_nodup _ _ _ _ _ _ _ _ _ _ Hc') Hmv) as (C1 & C2 & C3).
  exists c', m'. split; [|split; [|split]].
  - unfold small_dealloc. rewrite Hblk, (Ho b Hb), Z.eqb_refl. exact Eg.
  - exists E', F', U', (upd fr b (p :: fr b)). split; [|split; [|split]].
    + constructor; try done.
      * eapply core_ext; [exact Hc'|]. intros k Hk. cbn beta. unfold upd at 2. destruct (Z.eqb_spec k b) as [->|Hk'].
        -- unfold free_count at 1. rewrite upd_same. cbn [length]. unfold free_count in *.
           rewrite wsub_small; [lia|]. apply cap_usize. lia.
        -- unfold free_count. by rewrite upd_other.
      * intros k Hk%Hin. rewrite Hm; [by apply Ho|]. by apply (owner_apart _ _ _ _ _ _ _ b p k Hst).
      * intros k Hk. by apply C2.
      * intros k Hk%Hin. by apply Hfr.
    + intros k Hk. by apply C2.
    + intros k. rewrite elem_of_difference, elem_of_singleton, Hlive. split.
      * intros [(b' & Hb' & Hk & Hkf) Hkp]. exists b'. rewrite Hin. do 2 (split; [done|]).
        destruct (decide (b' = b)) as [->|]; [rewrite upd_same; set_solver|by rewrite upd_other].
      * intros (b' & Hb'%Hin & Hk & Hkf). destruct (decide (b' = b)) as [->|Hne].
        -- rewrite upd_same in Hkf. split; [exists b; set_solver|set_solver].
        -- rewrite upd_other in Hkf by done. split; [by exists b'|]. intros ->.
           apply Hne. by apply (g_node _ _ _ (co_geom _ _ _ _ _ _ _ _ _ _ Hc) b' b p).
    + intros f. rewrite Hown. split; intros (b' & Hb' & <-); exists b'; (split; [by apply Hin|done]).
  - intros x Hx. apply Hm. intros [->|(b' & o & Hb' & Ho'%small_hoffs & ->)].
    + apply sobjs_at in Hpb as (i & Hi & ->). pose proof (sobj_bounds i 0 Hi).
      eapply (outside_block _ owned _ b (off + sz * i) Hbl); [done..|lia|done].
    + eapply (outside_block _ owned _ b' o Hbl); [done..|lia|done].
  - intros q j Hq Hqp Hj. apply Hlive in Hq. destruct (in_use_apart _ _ q j Hbl Hq Hj) as (A1 & A2 & _).
    apply Hm. intros [E1|(b' & o & Hb' & Ho'%small_hoffs & E1)].
    + by apply Hqp, (A2 b p).
    + apply (A1 b' o); [done|lia|done].
Qed.

(** *** Releasing empty blocks *)

Definition floors (bs : list Z) : gset Z := list_to_set (slab_floor <$> bs).

Lemma elem_of_floors bs f : f ∈ floors bs <-> exists b, b ∈ bs /\ slab_floor b = f.
Proof.
  unfold floors. rewrite elem_of_list_to_set, list_elem_of_fmap. split; intros (b & H1 & H2); exists b; done.
Qed.

Lemma floor_inj b b' : sblk b -> sblk b' -> slab_floor b = slab_floor b' -> b = b'.
Proof.
  intros Hb Hb' E. destruct (sblk_floor b 0 Hb) as [_ <-]; [lia|]. destruct (sblk_floor b' 0 Hb') as [_ <-]; [lia|]. by rewrite E.
Qed.

Lemma small_shrink_loop_ok m p E h a fuel :
  dll m p E h -> Forall sblk E -> NoDup E -> fa_wf a -> (forall f, f ∈ fa_managed a -> direct f) ->
  floors E ⊆ fa_managed a -> floors E ## fa_free a -> (length E <= fuel)%nat ->
  exists a', small_shrink_loop fuel m a h = Ret a' /\ fa_wf a' /\ fa_free a' = fa_free a ∪ floors E /\
    fa_managed a' = fa_managed a.
Proof.
  revert p h a fuel. induction E as [|b E IH]; intros p h a fuel Hd Hbl Hnd Hw Hlow Hsub Hdis Hfu.
  - cbn in Hd. subst h. exists a. split; [by destruct fuel|]. split_and!; try done. set_solver.
  - destruct Hd as (-> & _ & Hd). apply Forall_cons in Hbl as [Hb Hbl]. apply NoDup_cons in Hnd as [Hnb Hnd].
    destruct fuel as [|fuel]; [cbn in Hfu; lia|]. cbn [small_shrink_loop].
    destruct (Z.eqb_spec b 0); [by apply sblk_nz in Hb|]. cbn [floors fmap list_fmap list_to_set] in Hsub, Hdis.
    change (list_to_set (slab_floor <$> E)) with (floors E) in *.
    assert (Hone : frames_of (mkRange (slab_floor b) (slab_floor b + 1)) = {[slab_floor b]}).
    { apply set_eq. intros f. rewrite elem_of_frames, elem_of_singleton. cbn. lia. }
    assert (Hdir : direct (slab_floor b)) by (apply Hlow; set_solver).
    destruct (fa_dealloc_law a (mkRange (slab_floor b) (slab_floor b + 1)) Hw) as (a1 & E1 & Hw1 & Hf1 & Hm1);
      [rewrite Hone; set_solver..|]. rewrite Hone in Hf1.
    assert (Hbf : slab_floor b ∉ floors E).
    { intros (b' & Hb' & Heq)%elem_of_floors. rewrite Forall_forall in Hbl. apply Hnb.
      by rewrite <- (floor_inj b' b (Hbl b' Hb') Hb Heq). }
    destruct (IH b (m (b + bf_next)) a1 fuel Hd Hbl Hnd Hw1) as (a2 & E2 & Hw2 & Hf2 & Hm2).
    { intros f. rewrite Hm1. apply Hlow. } { rewrite Hm1. set_solver. } { rewrite Hf1. set_solver. } { cbn in Hfu. lia. }
    exists a2. split; [|split; [done|split]].
    + unfold SmallSlabBlock_dealloc. unfold direct in Hdir. rewrite frame_next by lia. rewrite E1. exact E2.
    + rewrite Hf2, Hf1. cbn [floors fmap list_fmap list_to_set]. set_solver.
    + congruence.
Qed.

(** A block all of whose objects are free has none in use. *)
Lemma full_free m c a E F U fr b n :
  small_state m c a E F U fr -> b ∈ E ++ F ++ U -> free_count fr b = cap -> n ∈ sobjs b -> n ∈ fr b.
Proof.
  intros [Hc _ _ _ _ _ _ _] Hb Hcnt Hn. destruct (co_sub _ _ _ _ _ _ _ _ _ _ Hc b Hb) as [Hnd Hs].
  pose proof (g_cap _ _ _ (co_geom _ _ _ _ _ _ _ _ _ _ Hc) b Hb) as Hg. unfold free_count in Hcnt.
  rewrite (submseteq_length_Permutation (fr b) (sobjs b)); [done|by apply NoDup_submseteq|lia].
Qed.

Lemma small_shrink_ok m c a live owned :
  small_ok m c a live owned ->
  exists n, forall fuel, (n <= fuel)%nat -> exists c' a', small_shrink fuel c m a = Ret (c', a') /\
    small_ok m c' a' live (owned ∖ fa_free a') /\ fa_free a ⊆ fa_free a' /\ fa_free a' ⊆ fa_free a ∪ owned /\
    fa_managed a' = fa_managed a.
Proof.
  intros (E & F & U & fr & Hst & Hrest & Hlive & Hown). pose proof Hst as [Hc Ho He Hf Hu Ha Hlow Hfr].
  exists (length E). intros fuel Hfu. assert (Hbl : Forall sblk (E ++ F ++ U)) by apply Hc.
  pose proof (co_nodup _ _ _ _ _ _ _ _ _ _ Hc) as Nd. apply NoDup_app in Nd as Nd'. destruct Nd' as (NE & Dis & _).
  apply Forall_app in Hbl as Hbl'. destruct Hbl' as [BE BFU].
  destruct (small_shrink_loop_ok m 0 E (empty_blk_list c) a fuel) as (a' & Er & Hw' & Hfree & Hman); try done.
  { apply (co_e _ _ _ _ _ _ _ _ _ _ Hc). }
  { intros f (b & Hb & <-)%elem_of_floors. apply Hfr. set_solver. }
  { intros f (b & Hb & <-)%elem_of_floors Hin. by apply (Hfr b); [set_solver|]. }
  assert (Hkeep : forall b, b ∈ F ++ U -> slab_floor b ∉ fa_free a').
  { intros b Hb. rewrite Hfree. intros [Hin|(b' & Hb' & Heq)%elem_of_floors]%elem_of_union.
    - by apply (Hfr b); [set_solver|].
    - rewrite Forall_forall in BE, BFU. apply (Dis b); [|done]. by rewrite (floor_inj b b' (BFU b Hb) (BE b' Hb')). }
  exists (mkStacks 0 (free_blk_list c) (full_blk_list c)), a'.
  split; [unfold small_shrink; by rewrite Er|]. split; [|split; [rewrite Hfree; set_solver|split; [|done]]].
  - exists [], F, U, fr. split; [|split; [done|split]].
    + constructor; try done; cbn [app].
      * by apply core_drop_empty in Hc.
      * intros b Hb. apply Ho. set_solver.
      * intros b Hb. by apply not_elem_of_nil in Hb.
      * intros f. rewrite Hman. apply Hlow.
      * intros b Hb. rewrite Hman. split; [apply Hfr; set_solver|by apply Hkeep].
    + intros n. rewrite Hlive. cbn [app]. split; intros (b & Hb & Hn & Hnf); exists b; (split; [|done]).
      * apply elem_of_app in Hb as Hb'. destruct Hb' as [HbE|]; [|done].
        destruct Hnf. apply (full_free _ _ _ _ _ _ _ b n Hst Hb); [by apply He|done].
      * set_solver.
    + intros f. rewrite elem_of_difference, Hown. cbn [app]. split.
      * intros [(b & Hb & <-) Hnf]. exists b. split; [|done]. apply elem_of_app in Hb as [HbE|]; [|done].
        destruct Hnf. rewrite Hfree. apply elem_of_union. right. apply elem_of_floors. by exists b.
      * intros (b & Hb & <-). split; [exists b; set_solver|by apply Hkeep].
  - rewrite Hfree. intros f [Hin|(b & Hb & <-)%elem_of_floors]%elem_of_union; [set_solver|].
    apply elem_of_union. right. apply Hown. exists b. set_solver.
Qed.

(** *** Everybody else *)

(** A client may write any part of its object. *)
Lemma small_write_ok m c a live owned p j v :
  small_ok m c a live owned -> p ∈ live -> 0 <= j < sz -> small_ok (kset m (p + j) v) c a live owned.
Proof.
  intros (E & F & U & fr & Hst & Hrest & Hlive & Hown) Hp Hj. exists E, F, U, fr. split; [|done].
  pose proof Hst as [Hc Ho He Hf Hu Ha Hlow Hfr]. assert (Hbl : Forall sblk (E ++ F ++ U)) by apply Hc.
  apply Hlive in Hp as Hp'. destruct (in_use_apart _ _ p j Hbl Hp' Hj) as (A1 & A2 & _).
  constructor; try done.
  - apply (core_frame sblk sblk_nz small_sep small_hoffs_nodup sobjs cap m c E F U fr _ Hc).
    + intros b o Hb Ho'%small_hoffs. apply kset_other. intros E'. apply (A1 b o); [done|lia|done].
    + intros b n Hb Hn. apply kset_other. intros E'. destruct (co_sub _ _ _ _ _ _ _ _ _ _ Hc b Hb) as [_ Hs].
      rewrite Forall_forall in Hbl. assert (p = n) as -> by by apply (A2 b n (Hbl b Hb) (Hs n Hn)).
      destruct Hp' as (b' & Hb' & Hn' & Hnf). apply Hnf.
      by rewrite (g_node _ _ _ (co_geom _ _ _ _ _ _ _ _ _ _ Hc) b' b n Hb' Hb Hn' (Hs n Hn)).
  - intros b Hb. rewrite kset_other; [by apply Ho|]. intros E'. apply (A1 b 0); [done|lia|lia].
Qed.

(** The rest of the kernel may write anything outside the cache's frames, and take
    and return other frames. *)
Lemma small_env_ok m c a live owned m' a' :
  small_ok m c a live owned -> (forall f o, f ∈ owned -> 0 <= o < 4096 -> m' (frame_ptr f + o) = m (frame_ptr f + o)) ->
  fa_wf a' -> fa_managed a' = fa_managed a -> owned ## fa_free a' -> small_ok m' c a' live owned.
Proof.
  intros (E & F & U & fr & Hst & Hrest & Hlive & Hown) Hm Hw Hman Hdis. exists E, F, U, fr. split; [|done].
  pose proof Hst as [Hc Ho He Hf Hu Ha Hlow Hfr].
  assert (Hmb : forall b o, b ∈ E ++ F ++ U -> 0 <= o < 4096 -> m' (b + o) = m (b + o)).
  { intros b o Hb Ho'. destruct (sblk_floor b o) as [_ Hp]; [by eapply small_state_blk|done|].
    rewrite <- Hp. apply Hm; [|done]. apply Hown. by exists b. }
  constructor; try done.
  - apply (core_frame sblk sblk_nz small_sep small_hoffs_nodup sobjs cap m c E F U fr _ Hc).
    + intros b o Hb Ho'%small_hoffs. apply Hmb; [done|lia].
    + intros b n Hb Hn. destruct (co_sub _ _ _ _ _ _ _ _ _ _ Hc b Hb) as [_ Hs]. apply Hs, sobjs_at in Hn as (i & Hi & ->).
      pose proof (sobj_bounds i 0 Hi). pose proof (ss_size Hsz). apply Hmb; [done|lia].
  - intros b Hb. rewrite <- (Z.add_0_r b), Hmb, Z.add_0_r by (done || lia). by apply Ho.
  - intros f. rewrite Hman. apply Hlow.
  - intros b Hb. rewrite Hman. split; [by apply Hfr|]. intros Hin. apply (Hdis (slab_floor b)); [|done].
    apply Hown. by exists b.
Qed.

(** ** Runs *)

(** A cache among its clients and the rest of the kernel: the objects its clients
    hold and the frames it owns are recorded beside it. *)
Record slab_world := mkSW {
  sw_cache : Stacks;
  sw_mem : kmem;
  sw_fa : A;
  sw_live : gset Z;
  sw_owned : gset Z;
}.

Inductive slab_step : slab_world -> slab_world -> Prop :=
| slab_step_alloc c m a live owned p c' m' a' :
    small_alloc sz self c m a = Ret (Some p, (c', m', a')) ->
    slab_step (mkSW c m a live owned) (mkSW c' m' a' ({[p]} ∪ live) (owned ∪ (fa_free a ∖ fa_free a')))
| slab_step_dealloc c m a live owned p c' m' :
    p ∈ live -> small_dealloc sz self c m p = Ret (c', m') ->
    slab_step (mkSW c m a live owned) (mkSW c' m' a (live ∖ {[p]}) owned)
| slab_step_shrink fuel c m a live owned c' a' :
    small_shrink fuel c m a = Ret (c', a') ->
    slab_step (mkSW c m a live owned) (mkSW c' m a' live (owned ∖ fa_free a'))
| slab_step_write c m a live owned p j v :
    p ∈ live -> 0 <= j < sz ->
    slab_step (mkSW c m a live owned) (mkSW c (kset m (p + j) v) a live owned)
| slab_step_other c m a live owned m' a' :
    (forall f o, f ∈ owned -> 0 <= o < 4096 -> m' (frame_ptr f + o) = m (frame_ptr f + o)) ->
    fa_wf a' -> fa_managed a' = fa_managed a -> owned ## fa_free a' ->
    slab_step (mkSW c m a live owned) (mkSW c m' a' live owned).

Definition sw_ok (w : slab_world) : Prop := small_ok (sw_mem w) (sw_cache w) (sw_fa w) (sw_live w) (sw_owned w).

Lemma small_shrink_any m c a live owned fuel c' a' :
  small_ok m c a live owned -> small_shrink fuel c m a = Ret (c', a') -> small_ok m c' a' live (owned ∖ fa_free a').
Proof.
  intros Hok E. destruct (small_shrink_ok m c a live owned Hok) as (n & Hn).
  destruct (Hn (Nat.max n fuel)) as (c2 & a2 & E2 & Hok2 & _); [lia|].
  assert (Hmono : forall f1 f2 h b r, (f1 <= f2)%nat -> small_shrink_loop f1 m b h = Ret r -> small_shrink_loop f2 m b h = Ret r).
  { intros f1. induction f1 as [|f1 IH]; intros f2 h b r Hle; destruct f2 as [|f2]; cbn; try lia; destruct (h =? 0); try done.
    destruct (SmallSlabBlock_dealloc b h) as [b'|]; [|done]. cbn [obind]. apply IH. lia. }
  unfold small_shrink in E, E2. destruct (small_shrink_loop fuel m a _) as [b|] eqn:E1; [|done].
  rewrite (Hmono fuel (Nat.max n fuel) _ _ b) in E2; [|lia|done]. cbn [obind] in *. congruence.
Qed.

Lemma slab_step_ok w w' : slab_step w w' -> sw_ok w -> sw_ok w'.
Proof.
  intros [c m a live owned p c' m' a' E|c m a live owned p c' m' Hp E|fuel c m a live owned c' a' E|
          c m a live owned p j v Hp Hj|c m a live owned m' a' Hm Hw Hman Hdis] Hok; unfold sw_ok in *;
    cbn [sw_cache sw_mem sw_fa sw_live sw_owned] in *.
  - destruct (small_alloc_ok m c a live owned Hok) as [(p1 & c1 & m1 & a1 & o1 & E1 & Hok1 & _ & _ & -> & _)|[E1 _]]; [|congruence].
    rewrite E in E1. by injection E1 as <- <- <- <-.
  - destruct (small_dealloc_ok m c a live owned p Hok Hp) as (c1 & m1 & E1 & Hok1 & _). rewrite E in E1. by injection E1 as <- <-.
  - by apply (small_shrink_any m c a live owned fuel).
  - by apply small_write_ok.
  - by apply (small_env_ok m c a).
Qed.

Lemma slab_new_ok m a : fa_wf a -> (forall f, f ∈ fa_managed a -> direct f) -> sw_ok (mkSW stacks_new m a ∅ ∅).
Proof.
  intros Hw Hlow. exists [], [], [], (fun _ => []). split; [|split; [|split]]; cbn [app].
  - constructor; try done; cbn [app]; try (intros b Hb; by apply not_elem_of_nil in Hb).
    constructor; try done; cbn [app]; try (intros b Hb; by apply not_elem_of_nil in Hb); [constructor|].
    by apply small_geom.
  - intros b Hb. by apply not_elem_of_nil in Hb.
  - intros n. split; [set_solver|]. intros (b & Hb & _). by apply not_elem_of_nil in Hb.
  - intros f. split; [set_solver|]. intros (b & Hb & _). by apply not_elem_of_nil in Hb.
Qed.

(** Objects in use lie in frames of the cache, apart from each other. *)
Lemma small_objects_apart m c a live owned :
  small_ok m c a live owned ->
  (forall p, p ∈ live -> exists f, f ∈ owned /\ frame_ptr f + small_header <= p /\ p + sz <= frame_ptr f + 4096) /\
  (forall p q, p ∈ live -> q ∈ live -> p <> q -> p + sz <= q \/ q + sz <= p) /\ owned ## fa_free a.
Proof.
  intros (E & F & U & fr & Hst & Hrest & Hlive & Hown). pose proof Hst as [Hc _ _ _ _ _ _ Hfr].
  assert (Hbl : Forall sblk (E ++ F ++ U)) by apply Hc. rewrite Forall_forall in Hbl. pose proof (ss_size Hsz) as S1.
  split; [|split].
  - intros p (b & Hb & (i & Hi & ->)%sobjs_at & _)%Hlive. exists (slab_floor b).
    destruct (sblk_floor b 0 (Hbl b Hb)) as [_ ->]; [lia|]. split; [apply Hown; by exists b|].
    pose proof (sobj_bounds i 0 Hi). pose proof (sobj_bounds i (sz - 1) Hi). unfold small_header. lia.
  - intros p q (b & Hb & (i & Hi & ->)%sobjs_at & _)%Hlive (b' & Hb' & (i' & Hi' & ->)%sobjs_at & _)%Hlive Hne.
    destruct (Hbl b Hb) as (f & Hf & Eb), (Hbl b' Hb') as (f' & Hf' & Eb').
    rewrite frame_ptr_val in Eb, Eb' by done. destruct (decide (f = f')) as [->|Hff].
    + assert (b = b') as <- by congruence. assert (i <> i') by congruence. nia.
    + pose proof (sobj_bounds i 0 Hi). pose proof (sobj_bounds i (sz - 1) Hi).
      pose proof (sobj_bounds i' 0 Hi'). pose proof (sobj_bounds i' (sz - 1) Hi'). lia.
  - intros f (b & Hb & <-)%Hown Hin. by apply (Hfr b Hb).
Qed.

End Direct.
