(* ===== verification/SlabClaims.v ===== *)
(** The slab allocator, claims: a small cache among arbitrary clients, the size
    classes, and what releasing a large block frees. *)

From S2P Require Import Prelude HalConst Addr FrameAlloc PageTable RangeMap Slab SlabCore SlabProofs.

#[local] Open Scope Z_scope.

(** ** Size classes *)

Section Classes.
Context {C : ConstantsHal} {CL : ConstantsLaws C}.

(** Every size the kernel keeps a small cache for, headers included. *)
Lemma small_classes_ok sz : sz ∈ CACHE_SIZE :: small_classes -> small_size sz.
Proof.
  intros Hs. unfold CACHE_SIZE, small_classes in Hs. rewrite !elem_of_cons, elem_of_nil in Hs.
  destruct_or? Hs; try done; subst sz; constructor; unfold SlabBlock_page_cnt, SmallSlabBlock_cap, small_objects_off, small_header;
    rewrite ?page_size_bits, ?page_size_val; by vm_compute.
Qed.

Lemma pad_to_align_val l k :
  0 <= k <= 12 -> l_align l = 2 ^ k -> 0 <= l_size l <= 8192 ->
  let n := pad_to_align l in l_size l <= n <= l_size l + 2 ^ k - 1 /\ n mod 2 ^ k = 0.
Proof.
  intros Hk Ha Hs n. unfold n, pad_to_align. rewrite Ha.
  assert (1 <= 2 ^ k <= 4096).
  { split; [pose proof (Z.pow_pos_nonneg 2 k); lia|]. change 4096 with (2 ^ 12). apply Z.pow_le_mono_r; lia. }
  rewrite (wadd_small (l_size l)) by (unfold is_usize; lia). rewrite !wsub_small by (unfold is_usize; lia).
  rewrite land_wnot_round by (unfold is_usize; lia). set (x := l_size l + 2 ^ k - 1).
  pose proof (Z.mod_pos_bound x (2 ^ k)). split; [unfold x in *; lia|].
  rewrite <- Zminus_mod_idemp_l. rewrite Z.sub_diag. apply Zmod_0_l.
Qed.

(** Where the objects of a class start in their block. *)
Definition class_base (sz : Z) : Z := if sz <=? 128 then small_objects_off sz else 0.

(** The classes with the one before each: where a multiple of a power of two fits
    between them, the class and its first object are such multiples too. *)
Definition class_pairs : list (Z * Z) := zip (0 :: small_classes ++ big_classes) (small_classes ++ big_classes).

Lemma class_pairs_aligned :
  forallb (fun e => (e.2 <=? 8192) && forallb (fun k =>
    ((e.2 mod 2 ^ k =? 0) && (class_base e.2 mod 2 ^ k =? 0)) || (e.2 / 2 ^ k =? e.1 / 2 ^ k)) (seqZ 0 13)) class_pairs = true.
Proof. by vm_compute. Qed.

Lemma size_class_pair n :
  0 < n <= 8192 -> exists prev sz, (prev, sz) ∈ class_pairs /\ prev < n <= sz /\ size_class n = Some sz.
Proof.
  intros Hn.
  assert (Hpick : forall l pre prev, Forall (fun sz => sz < n) pre -> prev < n ->
    (forall e, e ∈ zip (prev :: l) l -> e ∈ class_pairs) -> (exists sz, sz ∈ l /\ n <= sz) ->
    exists prev' sz, (prev', sz) ∈ class_pairs /\ prev' < n <= sz /\
      list_find (fun sz => n <= sz) (pre ++ l) ≫= (fun r => Some r.2) = Some sz).
  { induction l as [|y l IH]; intros pre prev Hpre Hprev Hall (sz & Hin & Hle); [by apply not_elem_of_nil in Hin|].
    destruct (decide (n <= y)) as [Hy|Hy].
    - exists prev, y. split; [apply Hall; by left|]. split; [lia|].
      rewrite list_find_app_r by (apply list_find_None; eapply Forall_impl; [done|]; cbn; intros; lia).
      cbn [list_find]. by rewrite decide_True.
    - destruct (IH (pre ++ [y]) y) as (p' & s' & H1 & H2 & H3).
      + apply Forall_app. split; [done|]. constructor; [lia|constructor].
      + lia.
      + intros e He. apply Hall. by right.
      + exists sz. split; [|done]. apply elem_of_cons in Hin as [-> | Hin]; [lia|done].
      + exists p', s'. rewrite <- app_assoc in H3. done. }
  apply (Hpick (small_classes ++ big_classes) [] 0); [constructor|lia|done|].
  exists 8192. split; [|lia]. by apply (bool_decide_unpack (8192 ∈ small_classes ++ big_classes)).
Qed.

Lemma multiple_between n d lo hi : 0 < d -> n mod d = 0 -> lo < n <= hi -> hi / d <> lo / d.
Proof.
  intros Hd Hm Hb. assert (E : n = d * (n / d)) by (pose proof (Z.div_mod n d); lia).
  pose proof (Z.div_lt_upper_bound lo d (n / d) Hd). pose proof (Z.div_le_mono n hi d). lia.
Qed.
End Classes.

(** ** Drivers for concrete runs of a large cache *)

Section Drivers.
Context {C : ConstantsHal} {A : Type} {FA : FrameAllocatorHal A} (header_addr sz : Z).

Fixpoint slab_allocs (n : nat) (c : SlabCache) (h : SlabHeap A) : outcome (list Z * (SlabCache * SlabHeap A)) :=
  match n with
  | O => Ret ([], (c, h))
  | S n =>
      let! r := slab_alloc header_addr sz c h in
      let! p := unwrap r.1 in
      let! r := slab_allocs n r.2.1 r.2.2 in
      Ret (p :: r.1, r.2)
  end.

Fixpoint slab_deallocs (ps : list Z) (c : SlabCache) (h : SlabHeap A) : outcome (SlabCache * SlabHeap A) :=
  match ps with
  | [] => Ret (c, h)
  | p :: ps => let! r := slab_dealloc sz c h p in slab_deallocs ps r.1 r.2
  end.

(** Someone else takes [n] frames, one at a time. *)
Fixpoint take_frames (n : nat) (a : A) : list Range * A :=
  match n with
  | O => ([], a)
  | S n =>
      match alloc_tracker a 1 with
      | Some (t, a) => let r := take_frames n a in (t :: r.1, r.2)
      | None => ([], a)
      end
  end.

End Drivers.

(** ** Claims *)

Section Claims.
Context {C : ConstantsHal} {CL : ConstantsLaws C} {DM : DirectMapLaws C}.
Context {A : Type} {FA : FrameAllocatorHal A} {FL : FrameAllocatorLaws C A}.

(** C7: a small slab cache among arbitrary clients.  Start from a new cache and
    let clients allocate, free what they hold and write anywhere in it, the
    cache release empty blocks, and the rest of the kernel use all other memory
    and frames, in any order.  Then the objects in use lie inside frames of the
    cache behind the header, no two overlap, and those frames are not free; an
    allocation returns an object not in use and disturbs none, or reports failure
    with nothing changed when no frame is free; freeing an object in use never
    panics and disturbs no other; and releasing terminates and keeps them all. *)
Theorem slab_sound sz self m0 a0 w :
  sz ∈ CACHE_SIZE :: small_classes -> fa_wf a0 -> (forall f, f ∈ fa_managed a0 -> direct f) ->
  rtc (slab_step sz self) (mkSW stacks_new m0 a0 ∅ ∅) w ->
  let '(mkSW c m a live owned) := w in
  (forall p, p ∈ live -> exists f, f ∈ owned /\ frame_ptr f + small_header <= p /\ p + sz <= frame_ptr f + 4096) /\
  (forall p q, p ∈ live -> q ∈ live -> p <> q -> p + sz <= q \/ q + sz <= p) /\
  owned ## fa_free a /\
  ((exists p c' m' a', small_alloc sz self c m a = Ret (Some p, (c', m', a')) /\ (p ∉ live) /\
      (forall q j, q ∈ live -> 0 <= j < sz -> m' (q + j) = m (q + j))) \/
   (small_alloc sz self c m a = Ret (None, (c, m, a)) /\ fa_free a = ∅)) /\
  (forall p, p ∈ live -> exists c' m', small_dealloc sz self c m p = Ret (c', m') /\
     (forall q j, q ∈ live -> q <> p -> 0 <= j < sz -> m' (q + j) = m (q + j))) /\
  (exists n, forall fuel, (n <= fuel)%nat -> exists c' a', small_shrink fuel c m a = Ret (c', a') /\
     fa_free a ⊆ fa_free a' /\ fa_free a' ⊆ fa_free a ∪ owned).
Proof.
  intros Hin Hw Hlow Hrun. pose proof (small_classes_ok sz Hin) as Hs.
  assert (Hok : sw_ok sz self w).
  { pose proof (slab_new_ok sz Hs self m0 a0 Hw Hlow) as H0.
    clear -Hrun H0 Hs CL. induction Hrun as [|x y z Hxy _ IH]; [done|]. apply IH. by apply (slab_step_ok sz Hs self x y). }
  destruct w as [c m a live owned]. unfold sw_ok in Hok. cbn [sw_mem sw_cache sw_fa sw_live sw_owned] in Hok.
  destruct (small_objects_apart sz Hs self m c a live owned Hok) as (H1 & H2 & H3).
  do 3 (split; [done|]). split; [|split].
  - destruct (small_alloc_ok sz Hs self m c a live owned Hok) as [(p & c' & m' & a' & o' & E & D)|?]; [left|by right].
    destruct D as (_ & Hp & _ & _ & _ & _ & _ & Hq). by exists p, c', m', a'.
  - intros p Hp. destruct (small_dealloc_ok sz Hs self m c a live owned p Hok Hp) as (c' & m' & E & _ & _ & Hq). by exists c', m'.
  - destruct (small_shrink_ok sz Hs self m c a live owned Hok) as (n & Hn). exists n. intros fuel Hfu.
    destruct (Hn fuel Hfu) as (c' & a' & E & _ & H4 & H5 & _). by exists c', a'.
Qed.

(** The size class chosen for a layout holds it, and every object of the class,
    small or large, is aligned as the layout asks, although the classes 96 and
    192 are not powers of two. *)
Theorem slab_layout_fits l k f i :
  0 <= k -> l_align l = 2 ^ k -> 0 <= l_size l -> check_layout l = true -> direct f ->
  exists sz, size_class (pad_to_align l) = Some sz /\ l_size l <= sz <= 8192 /\
    (frame_ptr f + class_base sz + sz * i) mod l_align l = 0.
Proof.
  intros Hk Ha Hs0 Hchk Hf. unfold check_layout in Hchk. apply andb_true_iff in Hchk as [Hchk H3].
  apply andb_true_iff in Hchk as [H1 H2]. apply Z.leb_le in H1, H2, H3. rewrite Ha in *.
  assert (Hk12 : k <= 12).
  { destruct (decide (k <= 12)); [done|]. pose proof (Z.pow_le_mono_r 2 13 k). lia. }
  destruct (pad_to_align_val l k) as [Hn Hm]; [lia|done|lia|]. set (n := pad_to_align l) in *.
  assert (Hpow : 0 < 2 ^ k) by (apply Z.pow_pos_nonneg; lia).
  assert (Hdiv : forall x, x mod 4096 = 0 -> x mod 2 ^ k = 0).
  { intros x Hx. apply Z.mod_divide in Hx as [q ->]; [|done]. apply Z.mod_divide; [lia|].
    exists (q * 2 ^ (12 - k)). change 4096 with (2 ^ 12). rewrite <- Z.mul_assoc, <- Z.pow_add_r by lia. do 2 f_equal. lia. }
  assert (Hle : n <= 8192).
  { destruct (decide (n <= 8192)) as [|Hgt]; [done|]. exfalso. apply (multiple_between n (2 ^ k) 8192 (8192 + 2 ^ k - 1) Hpow Hm); [lia|].
    pose proof (Hdiv 8192 eq_refl) as H8. pose proof (Z.div_mod 8192 (2 ^ k)).
    symmetry. apply Z.div_unique with (2 ^ k - 1); lia. }
  destruct (size_class_pair n) as (prev & sz & Hp & Hb & E); [lia|]. exists sz. split; [done|].
  pose proof class_pairs_aligned as Hall. rewrite forallb_forall in Hall.
  specialize (Hall (prev, sz) (proj1 (list_elem_of_In _ _) Hp)). cbn [fst snd] in Hall.
  apply andb_true_iff in Hall as [Hmax%Z.leb_le Hall]. rewrite forallb_forall in Hall.
  specialize (Hall k). apply orb_true_iff in Hall as [Hal|Hno].
  - apply andb_true_iff in Hal as [A1 A2]. apply Z.eqb_eq in A1, A2. split.
    + lia.
    + assert (Hd : forall x, x mod 2 ^ k = 0 -> (2 ^ k | x)) by (intros x; apply Z.mod_divide; lia).
      apply Z.mod_divide; [lia|]. apply Z.divide_add_r; [apply Z.divide_add_r; [|by apply Hd]|apply Z.divide_mul_l; by apply Hd].
      apply Hd, Hdiv. rewrite frame_ptr_val by done. destruct dm_base as [_ Hal]. div_lia.
  - apply Z.eqb_eq in Hno. by apply (multiple_between n (2 ^ k) prev sz Hpow Hm) in Hno.
  - apply list_elem_of_In, elem_of_seqZ. lia.
Qed.


(** What [SlabBlock::dealloc] returns to the frame allocator.  A block of
    [page_cnt] frames starting at [f] whose first free object lies in its page
    [j] gives back the frames from [f + j] on: for [j] above zero that leaves out
    [j] frames of the block and includes [j] frames that are not its own. *)
Lemma slab_block_release sz m (a : A) blk f j o :
  0 <= f -> 0 <= j -> direct (f + j) -> 0 <= o < 4096 -> 0 <= SlabBlock_page_cnt sz ->
  f + j + SlabBlock_page_cnt sz <= dm_frames ->
  m (blk + @bf_head big_fields) = frame_ptr (f + j) + o ->
  SlabBlock_dealloc sz m a blk = fa_dealloc a (mkRange (f + j) (f + j + SlabBlock_page_cnt sz)).
Proof.
  intros Hf Hj Hd Ho Hp Hb Hh. unfold SlabBlock_dealloc. rewrite Hh, slab_floor_ptr by done. unfold direct in Hd.
  by rewrite frame_next by lia.
Qed.

End Claims.

(** ** Concrete runs *)

Abbreviation small_heap := (SlabHeap (BitMapFrameAllocator (B := set_alloc))) (only parsing).
Definition slab_heap0 : small_heap := mkSlabHeap (fun _ => 0) small stacks_new.

(** Five objects of 1024 bytes are allocated from a new cache, someone else takes
    every other frame, the objects are freed in order and the cache releases its
    empty blocks.  The result is the blocks before and after the release, what
    was taken, and the free frames at the end. *)
Definition shrink_run : outcome (RangeMap Z * list Range * RangeMap Z * list Z) :=
  let! r := slab_allocs (C := riscv64) 0x1000 1024 5 slab_cache_new slab_heap0 in
  let '(ps, (c, h)) := r in
  let '(ts, a) := take_frames 13 (sh_fa h) in
  let! r := slab_deallocs (C := riscv64) 1024 ps c (mkSlabHeap (sh_mem h) a (sh_headers h)) in
  let '(c, h) := r in
  let! r := slab_shrink (C := riscv64) 0x1000 1 1024 c h in
  let '(c', h') := r in
  Ret (blocks c, ts, blocks c', elements (bm_free (sh_fa h'))).


(** Releasing the empty blocks of a large cache can free a frame that is in use
    elsewhere.  In [shrink_run], on RISC-V, the last object freed lies in the
    second frame of the block, and so [shrink] returns the frames from there on:
    the first frame of the block stays allocated for ever, and the frame behind
    the block is free although its taker still holds it. *)
Theorem slab_shrink_foreign :
  exists s e b ts free, shrink_run = Ret ([(s, mkNode e b)], ts, [], free) /\
    (s ∉ free) /\ (e ∈ free) /\ mkRange e (e + 1) ∈ ts.
Proof.
  eexists _, _, _, _, _. split; [vm_compute; reflexivity|].
  split; [by apply (bool_decide_unpack (_ ∉ _))|]. split; [by apply (bool_decide_unpack (_ ∈ _))|].
  repeat first [by left | right].
Qed.

(** The sixteen frames of [small] are within the direct map. *)
Lemma small_direct : forall f, f ∈ fa_managed (FrameAllocatorLaws := small_laws) small -> direct (C := riscv64) f.
Proof.
  intros f Hf. change (f ∈ frames_of (mkRange 0xbff00 0xc0000)) in Hf. apply elem_of_frames in Hf.
  cbn [r_start r_end] in Hf. unfold direct. cbn [dm_frames riscv64_direct]. lia.
Qed.

Lemma slab_sound_witness :
  exists p c m a f, small_alloc (C := riscv64) 64 0x1000 stacks_new (fun _ => 0) small = Ret (Some p, (c, m, a)) /\
    frame_ptr (C := riscv64) f + small_header <= p /\ p + 64 <= frame_ptr (C := riscv64) f + 4096.
Proof.
  pose proof (bool_decide_unpack (64 ∈ CACHE_SIZE :: small_classes) I) as Hin.
  destruct (small_alloc_ok (C := riscv64) (FL := small_laws) 64 (small_classes_ok 64 Hin) 0x1000 (fun _ => 0) stacks_new small ∅ ∅
    (slab_new_ok (FL := small_laws) 64 (small_classes_ok 64 Hin) 0x1000 _ small (proj1 small_wf) small_direct))
    as [(p & c & m & a & o & E & D)|[_ Hf]]; [clear D|destruct (small_nonempty Hf)].
  destruct (slab_sound (C := riscv64) (FL := small_laws) 64 0x1000 (fun _ => 0) small _ Hin (proj1 small_wf) small_direct
    (rtc_once _ _ (slab_step_alloc _ _ _ _ _ _ _ _ _ _ _ E))) as (Hp & _).
  destruct (Hp p) as (f & _ & Hb); [apply elem_of_union_l, elem_of_singleton; reflexivity|].
  exists p, c, m, a, f. exact (conj E Hb).
Defined.

Lemma slab_layout_fits_witness :
  exists sz, size_class (pad_to_align (mkLayout 70 32)) = Some sz /\ 70 <= sz <= 8192 /\
    (frame_ptr (C := riscv64) 0x80200 + class_base sz + sz * 3) mod 32 = 0.
Proof.
  apply (slab_layout_fits (C := riscv64) (mkLayout 70 32) 5 0x80200 3); [done..|]. by vm_compute.
Defined.
