(* ===== verification/SpinLock.v ===== *)
(** The kernel's spin locks (os/src/sync/mutex/spin_mutex.rs, spin_rw_mutex.rs),
    one atomic access at a time.  A hart in a lock operation is at a program
    point; an action of a hart is a call, one atomic access of the operation it is
    in, or the drop of its guard.  A run interleaves the actions of the harts in
    any order.  Interrupt masking and the protected data are not represented. *)

From S2P Require Import Prelude HalConst.

#[local] Open Scope Z_scope.

(** [Constant::MAX_PROCESSORS]: a hart is a number below it. *)
Definition is_hart (h : Z) : Prop := 0 <= h < MAX_PROCESSORS.

(** Rounds of waiting after which a deadlock is reported. *)
Definition SPIN_LIMIT : Z := 0x1000000.

(** ** [SpinMutex] *)

Inductive mutex_pc :=
| MIdle
| MLoad               (* about to load the owner in [lock] *)
| MWait (try_count : Z) (* about to load it in [wait_unlock] *)
| MCas                (* about to compare and exchange *)
| MHeld.

Inductive lock_act := Call | Access | Drop.

(** One access of [lock] by the hart [tp]. *)
Definition mutex_access (owner tp : Z) (pc : mutex_pc) : outcome (Z * mutex_pc) :=
  match pc with
  | MLoad => assert! negb (owner =? tp) in Ret (owner, MWait 0)
  | MWait try_count =>
      if owner =? usize_max then Ret (owner, MCas)
      else
        assert! owner <? MAX_PROCESSORS in
        let try_count := wadd try_count 1 in
        assert! negb (try_count =? SPIN_LIMIT) in
        Ret (owner, MWait try_count)
  | MCas =>
      if owner =? usize_max then
        assert! tp <? MAX_PROCESSORS in
        Ret (tp, MHeld)
      else Ret (owner, MLoad)
  | MIdle | MHeld => Ret (owner, pc)
  end.

Record mutex_world := mkMutex { mx_owner : Z; mx_pc : gmap Z mutex_pc }.

Definition mutex_new : mutex_world := mkMutex usize_max ∅.
Definition mx_at (w : mutex_world) (h : Z) : mutex_pc := default MIdle (mx_pc w !! h).

(** An action of a hart.  Calling [lock] while holding the guard is possible, and
    the first load then finds the hart's own number. *)
Definition mutex_act (w : mutex_world) (h : Z) (act : lock_act) : outcome mutex_world :=
  match act, mx_at w h with
  | Call, MIdle => Ret (mkMutex (mx_owner w) (<[h := MLoad]> (mx_pc w)))
  | Call, MHeld => let! r := mutex_access (mx_owner w) h MLoad in Ret (mkMutex r.1 (<[h := r.2]> (mx_pc w)))
  | Drop, MHeld => Ret (mkMutex usize_max (<[h := MIdle]> (mx_pc w)))
  | Access, pc => let! r := mutex_access (mx_owner w) h pc in Ret (mkMutex r.1 (<[h := r.2]> (mx_pc w)))
  | _, _ => Ret w
  end.

Definition mutex_step (w w' : mutex_world) : Prop := exists h act, is_hart h /\ mutex_act w h act = Ret w'.

(** ** [SpinRwMutex] *)

Definition WRITER_MASK : Z := 2 ^ 63.
Definition READER_MASK : Z := wnot WRITER_MASK.

Inductive rw_pc :=
| RwIdle
| RWait (try_count : Z) | RLoad | RCas (oldval : Z) | RHeld
| WWait (try_count : Z) | WLoad | WCas (oldval : Z) | WHeld
| ULoad | UCas (oldval : Z) | UDrop.

Definition writer_bit (status : Z) : bool := negb (Z.land status WRITER_MASK =? 0).
Definition readers (status : Z) : Z := Z.land status READER_MASK.

(** One round of waiting. *)
Definition rw_spin (busy : bool) (try_count : Z) (again : Z -> rw_pc) (next : rw_pc) : outcome rw_pc :=
  if busy then
    let try_count := wadd try_count 1 in
    assert! negb (try_count =? SPIN_LIMIT) in
    Ret (again try_count)
  else Ret next.

(** One access of [rlock], [wlock] or [upgrade].  A failed [upgrade] drops the read
    guard on its way out. *)
Definition rw_access (status : Z) (pc : rw_pc) : outcome (Z * rw_pc) :=
  match pc with
  | RWait n => let! pc := rw_spin (writer_bit status) n RWait RLoad in Ret (status, pc)
  | RLoad => Ret (status, if readers status =? READER_MASK then RWait 0 else RCas status)
  | RCas oldval => Ret (if status =? oldval then (wadd oldval 1, RHeld) else (status, RWait 0))
  | WWait n =>
      let! pc := rw_spin (writer_bit status || negb (readers status =? 0)) n WWait WLoad in Ret (status, pc)
  | WLoad => Ret (status, WCas status)
  | WCas oldval => Ret (if status =? oldval then (Z.lor oldval WRITER_MASK, WHeld) else (status, WWait 0))
  | ULoad => Ret (status, if (1 <? readers status) || writer_bit status then UDrop else UCas status)
  | UCas oldval => Ret (if status =? oldval then (WRITER_MASK, WHeld) else (status, UDrop))
  | UDrop => Ret (wsub status 1, RwIdle)
  | RwIdle | RHeld | WHeld => Ret (status, pc)
  end.

Inductive rw_act := CallRead | CallWrite | CallUpgrade | RwAccess | RwDrop.

Record rw_world := mkRw { rw_status : Z; rw_pcs : gmap Z rw_pc }.

Definition rw_new : rw_world := mkRw 0 ∅.
Definition rw_at (w : rw_world) (h : Z) : rw_pc := default RwIdle (rw_pcs w !! h).
Definition rw_goto (w : rw_world) (h : Z) (status : Z) (pc : rw_pc) : rw_world :=
  mkRw status (<[h := pc]> (rw_pcs w)).

Definition rw_action (w : rw_world) (h : Z) (act : rw_act) : outcome rw_world :=
  match act, rw_at w h with
  | CallRead, RwIdle => Ret (rw_goto w h (rw_status w) (RWait 0))
  | CallWrite, RwIdle => Ret (rw_goto w h (rw_status w) (WWait 0))
  | CallUpgrade, RHeld => Ret (rw_goto w h (rw_status w) ULoad)
  | RwAccess, pc => let! r := rw_access (rw_status w) pc in Ret (rw_goto w h r.1 r.2)
  | RwDrop, RHeld => Ret (rw_goto w h (wsub (rw_status w) 1) RwIdle)
  | RwDrop, WHeld => Ret (rw_goto w h (Z.land (rw_status w) (wnot WRITER_MASK)) RwIdle)
  | _, _ => Ret w
  end.

(** A schedule. *)
Fixpoint rw_run (w : rw_world) (acts : list (Z * rw_act)) : outcome rw_world :=
  match acts with
  | [] => Ret w
  | (h, act) :: acts => let! w := rw_action w h act in rw_run w acts
  end.

(** ** Mutual exclusion of [SpinMutex] *)

(** The owner word names the hart that holds the guard. *)
Record mutex_inv (w : mutex_world) : Prop := {
  mi_owner : mx_owner w = usize_max \/ is_hart (mx_owner w);
  mi_held h : is_hart h -> mx_at w h = MHeld <-> mx_owner w = h;
  mi_count h n : mx_at w h = MWait n -> 0 <= n < SPIN_LIMIT;
}.

Lemma hart_not_max h : is_hart h -> h <> usize_max.
Proof. unfold is_hart, MAX_PROCESSORS, usize_max. lia. Qed.

Lemma mx_at_insert o m h pc h' : mx_at (mkMutex o (<[h := pc]> m)) h' = if h' =? h then pc else default MIdle (m !! h').
Proof.
  unfold mx_at. cbn [mx_pc]. destruct (Z.eqb_spec h' h) as [->|Hne]; [by rewrite lookup_insert_eq|].
  by rewrite lookup_insert_ne by done.
Qed.

(** A move of one hart. *)
Lemma mutex_inv_move w h pc o :
  mutex_inv w -> is_hart h -> (o = usize_max \/ is_hart o) -> (pc = MHeld <-> o = h) ->
  (forall h', is_hart h' -> h' <> h -> mx_owner w = h' <-> o = h') ->
  (forall n, pc = MWait n -> 0 <= n < SPIN_LIMIT) ->
  mutex_inv (mkMutex o (<[h := pc]> (mx_pc w))).
Proof.
  intros [Ho Hh Hn] Hhart Hoo Hpc Hoth Hcnt. constructor; cbn [mx_owner].
  - done.
  - intros h' Hh'. rewrite mx_at_insert. destruct (Z.eqb_spec h' h) as [->|Hne]; [done|].
    rewrite <- Hoth by done. by apply Hh.
  - intros h' n. rewrite mx_at_insert. destruct (Z.eqb_spec h' h) as [->|Hne]; [by apply Hcnt|]. apply Hn.
Qed.

Lemma mutex_step_inv w w' : mutex_inv w -> mutex_step w w' -> mutex_inv w'.
Proof.
  intros Hi (h & act & Hh & E). pose proof Hi as [Ho Hheld Hcnt]. pose proof (Hheld h Hh) as Hm.
  pose proof (hart_not_max h Hh) as Hmax. destruct w as [o m]. unfold mutex_act in E. cbn [mx_owner mx_pc] in *.
  assert (Hid : forall pc, pc <> MHeld -> mx_at (mkMutex o m) h <> MHeld -> (forall n, pc = MWait n -> 0 <= n < SPIN_LIMIT) ->
    mutex_inv (mkMutex o (<[h := pc]> m))).
  { intros pc Hp Hat Hn. apply (mutex_inv_move (mkMutex o m) h pc o); try done. tauto. }
  destruct act, (mx_at (mkMutex o m) h) as [| |n| |] eqn:Eat; cbn [mutex_access] in E; try (injection E as <-; done).
  - injection E as <-. by apply Hid.
  - (* a nested call panics *) assert (o = h) as -> by tauto. by rewrite Z.eqb_refl in E.
  - injection E as <-. by apply Hid.
  - destruct (Z.eqb_spec o h); [done|]. injection E as <-. apply Hid; [done..|]. intros n1 [= <-]. unfold SPIN_LIMIT. lia.
  - destruct (Z.eqb_spec o usize_max); [injection E as <-; by apply Hid|].
    destruct (o <? MAX_PROCESSORS); [|done]. cbn [guard_panic obind] in E. specialize (Hcnt h n Eat).
    rewrite wadd_small in E by (unfold is_usize, SPIN_LIMIT in *; lia).
    destruct (Z.eqb_spec (n + 1) SPIN_LIMIT); [done|]. injection E as <-. apply Hid; [done..|]. intros n' [= <-]. lia.
  - destruct (Z.eqb_spec o usize_max) as [->|]; [|injection E as <-; by apply Hid].
    destruct (h <? MAX_PROCESSORS); [|done]. injection E as <-.
    apply (mutex_inv_move (mkMutex usize_max m) h MHeld h); try done; [by right|].
    intros h' Hh' Hne. cbn [mx_owner]. pose proof (hart_not_max h' Hh'). split; congruence.
  - injection E as <-. apply (mutex_inv_move (mkMutex o m) h MHeld o); try done. 
  - injection E as <-. apply (mutex_inv_move (mkMutex o m) h MIdle usize_max); [done|done|by left| | |done].
    { split; [discriminate|congruence]. }
    intros h' Hh' Hne. cbn [mx_owner]. assert (o = h) by tauto. pose proof (hart_not_max h' Hh'). split; congruence.
Qed.

Lemma mutex_new_inv : mutex_inv mutex_new.
Proof.
  constructor; cbn [mx_owner mutex_new].
  - by left.
  - intros h Hh. unfold mx_at. cbn. pose proof (hart_not_max h Hh). split; [done|congruence].
  - intros h n. unfold mx_at. by cbn.
Qed.

Lemma mutex_reach_inv w : rtc mutex_step mutex_new w -> mutex_inv w.
Proof.
  pose proof mutex_new_inv as H0. intros Hr. induction Hr as [|x y z Hxy _ IH]; [done|].
  apply IH. by apply (mutex_step_inv x).
Qed.

(** Consecutive accesses of one hart. *)
Fixpoint mutex_solo (w : mutex_world) (h : Z) (n : nat) : outcome mutex_world :=
  match n with
  | O => Ret w
  | S n => let! w := mutex_act w h Access in mutex_solo w h n
  end.

(** C8: [SpinMutex] excludes.  Over any interleaving of the harts' accesses at most
    one hart holds the guard, and it is the one the owner word names; calling
    [lock] while holding the guard panics at once; and a panic of a hart that
    does not hold it can only be the deadlock detector, after [SPIN_LIMIT]
    rounds of waiting for another hart: the checks of the owner word and the
    assertion on the hart number never fail. *)
Theorem spin_mutex_exclusion w h h' :
  rtc mutex_step mutex_new w -> is_hart h -> is_hart h' ->
  (mx_at w h = MHeld -> mx_at w h' = MHeld -> h = h') /\
  (mx_at w h = MHeld -> mx_owner w = h /\ mutex_act w h Call = Panic) /\
  (mutex_act w h Access = Panic ->
     mx_at w h = MWait (SPIN_LIMIT - 1) /\ is_hart (mx_owner w) /\ mx_at w (mx_owner w) = MHeld).
Proof.
  intros Hr Hh Hh'. destruct (mutex_reach_inv w Hr) as [Ho Hheld Hcnt]. pose proof (hart_not_max h Hh) as Hmax.
  split; [|split].
  - intros H1%Hheld H2%Hheld; [congruence|done..].
  - intros H1. pose proof H1 as H2. apply Hheld in H2; [|done]. split; [done|]. unfold mutex_act. rewrite H1.
    cbn [mutex_access]. by rewrite H2, Z.eqb_refl.
  - unfold mutex_act. destruct (mx_at w h) as [| |n| |] eqn:Eat; cbn [mutex_access obind]; try done.
    + destruct (Z.eqb_spec (mx_owner w) h) as [E|]; [|done]. apply Hheld in E; [|done]. congruence.
    + destruct (Z.eqb_spec (mx_owner w) usize_max) as [|Hne]; [done|]. destruct Ho as [|Ho]; [done|].
      destruct (Z.ltb_spec (mx_owner w) MAX_PROCESSORS); [|unfold is_hart in Ho; lia]. cbn [guard_panic obind].
      specialize (Hcnt h n Eat). rewrite wadd_small by (unfold is_usize, SPIN_LIMIT in *; lia).
      destruct (Z.eqb_spec (n + 1) SPIN_LIMIT); [|done]. intros _. split; [f_equal; lia|]. split; [done|]. by apply Hheld.
    + destruct (mx_owner w =? usize_max); [|done]. destruct (Z.ltb_spec h MAX_PROCESSORS); [done|unfold is_hart in Hh; lia].
Qed.

(** C9: [SpinMutex] makes progress.  In every reachable state, a hart inside [lock]
    while nobody holds the guard has it after at most three accesses of its own if
    it runs undisturbed; when it is beaten to it, that is because another hart
    got the guard; and the holder can always drop it, after which nobody does. *)
Theorem spin_mutex_progress w h :
  rtc mutex_step mutex_new w -> is_hart h ->
  ((mx_at w h = MLoad \/ mx_at w h = MCas \/ exists n, mx_at w h = MWait n) -> mx_owner w = usize_max ->
     exists k w', (k <= 3)%nat /\ mutex_solo w h k = Ret w' /\ mx_at w' h = MHeld) /\
  (mx_at w h = MCas -> forall w', mutex_act w h Access = Ret w' -> mx_at w' h <> MHeld ->
     is_hart (mx_owner w) /\ mx_at w (mx_owner w) = MHeld) /\
  (mx_at w h = MHeld -> exists w', mutex_act w h Drop = Ret w' /\ mx_owner w' = usize_max /\
     forall h', is_hart h' -> mx_at w' h' <> MHeld).
Proof.
  intros Hr Hh. destruct (mutex_reach_inv w Hr) as [Ho Hheld Hcnt]. pose proof (hart_not_max h Hh) as Hmax.
  destruct w as [o m]. cbn [mx_owner] in *.
  assert (Hlt : (h <? MAX_PROCESSORS) = true) by (apply Z.ltb_lt; unfold is_hart in Hh; lia).
  assert (Hcas : forall m, default MIdle (m !! h) = MCas ->
    mutex_act (mkMutex usize_max m) h Access = Ret (mkMutex h (<[h := MHeld]> m))).
  { intros m1 Em. unfold mutex_act, mx_at. cbn [mx_pc mx_owner]. rewrite Em. cbn [mutex_access].
    rewrite Z.eqb_refl, Hlt. done. }
  assert (Hwait : forall m n, default MIdle (m !! h) = MWait n ->
    mutex_act (mkMutex usize_max m) h Access = Ret (mkMutex usize_max (<[h := MCas]> m))).
  { intros m1 n Em. unfold mutex_act, mx_at. cbn [mx_pc mx_owner]. rewrite Em. cbn [mutex_access]. by rewrite Z.eqb_refl. }
  split; [|split].
  - intros Hat ->. unfold mx_at in Hat. cbn [mx_pc] in Hat. destruct Hat as [Hat|[Hat|[n Hat]]].
    + exists 3%nat. eexists. split; [done|]. split.
      * cbn [mutex_solo]. unfold mutex_act at 1, mx_at at 1. cbn [mx_pc mx_owner]. rewrite Hat. cbn [mutex_access].
        destruct (Z.eqb_spec usize_max h); [congruence|]. cbn [guard_panic obind fst snd negb].
        rewrite (Hwait _ 0) by (by rewrite lookup_insert_eq). cbn [obind].
        rewrite Hcas by (by rewrite lookup_insert_eq). done.
      * by rewrite mx_at_insert, Z.eqb_refl.
    + exists 1%nat. eexists. split; [lia|]. split; [cbn [mutex_solo]; by rewrite Hcas|]. by rewrite mx_at_insert, Z.eqb_refl.
    + exists 2%nat. eexists. split; [lia|]. split.
      * cbn [mutex_solo]. rewrite (Hwait _ n) by done. cbn [obind]. by rewrite Hcas by (by rewrite lookup_insert_eq).
      * by rewrite mx_at_insert, Z.eqb_refl.
  - intros Hat w' E Hne. destruct Ho as [->|Ho]; [|split; [done|by apply Hheld]].
    rewrite Hcas in E by done. injection E as <-. by rewrite mx_at_insert, Z.eqb_refl in Hne.
  - intros Hat. eexists. split; [unfold mutex_act; by rewrite Hat|]. split; [done|]. intros h' Hh'.
    rewrite mx_at_insert. destruct (Z.eqb_spec h' h) as [->|Hne]; [done|]. intros E.
    apply (Hheld h Hh) in Hat. apply (Hheld h' Hh') in E. congruence.
Qed.


(** ** Concrete runs *)

Lemma spin_mutex_demo :
  exists w, rtc mutex_step mutex_new w /\ mx_at w 0 = MHeld /\ mx_at w 1 = MLoad.
Proof.
  set (m1 := <[0 := MLoad]> ∅ : gmap Z mutex_pc).
  exists (mkMutex 0 (<[1 := MLoad]> (<[0 := MHeld]> (<[0 := MCas]> (<[0 := MWait 0]> m1))))).
  split; [|by vm_compute].
  eapply rtc_l; [exists 0, Call; split; [done|reflexivity]|].
  eapply rtc_l; [exists 0, Access; split; [done|reflexivity]|].
  eapply rtc_l; [exists 0, Access; split; [done|reflexivity]|].
  eapply rtc_l; [exists 0, Access; split; [done|reflexivity]|].
  eapply rtc_l; [exists 1, Call; split; [done|reflexivity]|]. apply rtc_refl.
Qed.

Lemma spin_mutex_exclusion_witness : exists w, mx_at w 0 = MHeld /\ mutex_act w 0 Call = Panic.
Proof.
  destruct spin_mutex_demo as (w & Hr & H0 & H1). exists w. split; [done|].
  destruct (spin_mutex_exclusion w 0 1 Hr) as (_ & H & _); [done..|]. by apply H.
Defined.

Lemma spin_mutex_progress_witness :
  exists w w', mx_at w 0 = MHeld /\ mutex_act w 0 Drop = Ret w' /\ forall h, is_hart h -> mx_at w' h <> MHeld.
Proof.
  destruct spin_mutex_demo as (w & Hr & H0 & H1).
  destruct (spin_mutex_progress w 0 Hr) as (_ & _ & H); [done|]. destruct (H H0) as (w' & E & _ & Hn). by exists w, w'.
Defined.
