(* ===== verification/Shm.v ===== *)
(** System V shared memory (os/src/ipc/sysv/shm.rs, os/src/syscall/ipc/sysv.rs
    except the calls that touch an address space): the identifiers, the table of
    objects and [shmget].  An object is named by its identifier, which is how the
    memory areas compare objects; its pages are in the page cache of PageFault.
    Time is a parameter of the calls that read the clock. *)

From S2P Require Import Prelude Errno HalConst.

#[local] Open Scope Z_scope.

(** ** Identifiers *)

Record ShmIdAllocator := mkIds { ia_cur : Z; ia_pool : gset Z }.

Definition ids_new : ShmIdAllocator := mkIds 0 ∅.

(** The loop of [alloc]; [times] is its counter, never zero on entry. *)
Fixpoint ids_alloc_loop (times : nat) (s : ShmIdAllocator) : option Z * ShmIdAllocator :=
  match times with
  | O => (None, s)
  | S times =>
      let cur := if ia_cur s =? usize_max then 0 else ia_cur s in
      let cur := wadd cur 1 in
      if bool_decide (cur ∈ ia_pool s) then ids_alloc_loop times (mkIds cur (ia_pool s))
      else (Some cur, mkIds cur ({[cur]} ∪ ia_pool s))
  end.

Definition ids_alloc (s : ShmIdAllocator) : option Z * ShmIdAllocator := ids_alloc_loop 1000 s.

Definition ids_alloc_at (s : ShmIdAllocator) (id : Z) : option Z * ShmIdAllocator :=
  if id =? 0 then ids_alloc s
  else if bool_decide (id ∈ ia_pool s) then (None, s)
  else (Some id, mkIds (Z.max (ia_cur s) id) ({[id]} ∪ ia_pool s)).

Definition ids_dealloc (s : ShmIdAllocator) (id : Z) : result unit unit * ShmIdAllocator :=
  if bool_decide (id ∈ ia_pool s) then (Ok tt, mkIds (ia_cur s) (ia_pool s ∖ {[id]})) else (Err tt, s).

(** ** Objects *)

Record ShmIdDs := mkDs {
  segsz : Z;
  atime : Z;
  dtime : Z;
  ctime : Z;
  cpid : Z;
  lpid : Z;
  nattch : Z;
}.

Definition ShmIdDs_new (sz cpid now : Z) : ShmIdDs := mkDs sz 0 0 now cpid 0 0.

Definition ds_attach (d : ShmIdDs) (lpid now : Z) : ShmIdDs :=
  mkDs (segsz d) now (dtime d) (ctime d) (cpid d) lpid (wadd (nattch d) 1).

(** The last detach is reported. *)
Definition ds_detach (d : ShmIdDs) (lpid now : Z) : bool * ShmIdDs :=
  let n := wsub (nattch d) 1 in
  (n =? 0, mkDs (segsz d) (atime d) now (ctime d) (cpid d) lpid n).

(** [sm_files] are the objects the manager knows; an object that has been removed
    stays in [sm_objs] for the areas that still hold it. *)
Record ShmManager := mkShm {
  sm_objs : gmap Z ShmIdDs;
  sm_files : gset Z;
  sm_ids : ShmIdAllocator;
}.

Definition shm_new : ShmManager := mkShm ∅ ∅ ids_new.

Definition shm_get (s : ShmManager) (id : Z) : option Z :=
  if id =? 0 then None else if bool_decide (id ∈ sm_files s) then Some id else None.

(** A new object under an identifier. *)
Definition shm_create (s : ShmManager) (ids : ShmIdAllocator) (id size pid now : Z) : ShmManager :=
  mkShm (<[id := ShmIdDs_new size pid now]> (sm_objs s)) ({[id]} ∪ sm_files s) ids.

Definition shm_alloc (s : ShmManager) (size pid now : Z) : option Z * ShmManager :=
  match ids_alloc (sm_ids s) with
  | (Some id, ids) => (Some id, shm_create s ids id size pid now)
  | (None, ids) => (None, mkShm (sm_objs s) (sm_files s) ids)
  end.

Definition shm_alloc_at (s : ShmManager) (size pid id now : Z) : option Z * ShmManager :=
  if id =? 0 then shm_alloc s size pid now
  else if bool_decide (id ∈ sm_files s) then (Some id, s)
  else
    match ids_alloc_at (sm_ids s) id with
    | (Some _, ids) => (Some id, shm_create s ids id size pid now)
    | (None, ids) => (None, mkShm (sm_objs s) (sm_files s) ids)
    end.

Definition shm_remove (s : ShmManager) (id : Z) : option Z * ShmManager :=
  let ids := snd (ids_dealloc (sm_ids s) id) in
  (if bool_decide (id ∈ sm_files s) then Some id else None, mkShm (sm_objs s) (sm_files s ∖ {[id]}) ids).

(** An update of an object's record. *)
Definition shm_update (s : ShmManager) (id : Z) (f : ShmIdDs -> ShmIdDs) : ShmManager :=
  mkShm (alter f id (sm_objs s)) (sm_files s) (sm_ids s).

Definition shm_segsz (s : ShmManager) (id : Z) : Z := default 0 (segsz <$> sm_objs s !! id).

(** ** [shmget] *)

Definition IPC_PRIVATE : Z := 0.
Definition IPC_CREAT : Z := 0x200.
Definition IPC_EXCL : Z := 0x400.

Section Calls.
Context {C : ConstantsHal}.

(** [(size - 1 + PAGE_SIZE) & !(PAGE_SIZE - 1)] *)
Definition page_round (size : Z) : Z := Z.land (wadd (wsub size 1) PAGE_SIZE) (wnot (PAGE_SIZE - 1)).

(** [key as usize] extends the sign. *)
Definition i32_as_usize (x : Z) : Z := x mod 2 ^ 64.

Definition as_isize (x : Z) : Z := if x <? 2 ^ 63 then x else x - 2 ^ 64.

Definition sys_shmget (s : ShmManager) (pid key size shmflg now : Z) :
    outcome (result Z SysError * ShmManager) :=
  let shmflg := Z.land shmflg (Z.lor IPC_CREAT IPC_EXCL) in
  let rounded_up_sz := page_round size in
  if key =? IPC_PRIVATE then
    let '(shm, s) := shm_alloc s rounded_up_sz pid now in
    let! id := unwrap shm in Ret (Ok (as_isize id), s)
  else
    match shm_get s (i32_as_usize key) with
    | Some shm =>
        if contains shmflg (Z.lor IPC_CREAT IPC_EXCL) then Ret (Err EEXIST, s)
        else if shm_segsz s shm <? size then Ret (Err EINVAL, s)
        else Ret (Ok key, s)
    | None =>
        if contains shmflg IPC_CREAT then
          let '(shm, s) := shm_alloc_at s rounded_up_sz pid (i32_as_usize key) now in
          let! id := unwrap shm in Ret (Ok (as_isize id), s)
        else Ret (Err ENOENT, s)
    end.

Definition IPC_RMID : Z := 0.
Definition IPC_SET : Z := 1.
Definition IPC_STAT : Z := 2.

(** [shmctl]; [writable] says whether the caller's buffer can be written, and the
    record written to it is returned. *)
Definition sys_shmctl (s : ShmManager) (shmid op : Z) (writable : bool) :
    result Z SysError * option ShmIdDs * ShmManager :=
  if op =? IPC_STAT then
    match shm_get s (i32_as_usize shmid) with
    | None => (Err ENOENT, None, s)
    | Some shm => if writable then (Ok 0, sm_objs s !! shm, s) else (Err EINVAL, None, s)
    end
  else if op =? IPC_RMID then
    match shm_remove s (i32_as_usize shmid) with
    | (Some _, s) => (Ok 0, None, s)
    | (None, s) => (Err ENOENT, None, s)
    end
  else (Err EINVAL, None, s).

End Calls.

(** ** The invariant *)

(** Identifiers in use are the manager's objects, and zero is never one. *)
Record shm_ok (s : ShmManager) : Prop := {
  sk_pool : ia_pool (sm_ids s) = sm_files s;
  sk_ids id : id ∈ sm_files s -> 0 < id <= usize_max /\ is_Some (sm_objs s !! id);
  sk_cur : 0 <= ia_cur (sm_ids s) <= usize_max;
}.

(** The identifier tried after [c]. *)
Definition next_id (c : Z) : Z := if c =? usize_max then 1 else c + 1.

Lemma next_id_range c : 0 <= c <= usize_max -> 0 < next_id c <= usize_max.
Proof. unfold next_id, usize_max. intros. destruct (Z.eqb_spec c (2 ^ 64 - 1)); lia. Qed.

Lemma next_id_loop s :
  0 <= ia_cur s <= usize_max -> wadd (if ia_cur s =? usize_max then 0 else ia_cur s) 1 = next_id (ia_cur s).
Proof.
  intros Hc. unfold next_id. destruct (Z.eqb_spec (ia_cur s) usize_max).
  - by rewrite wadd_small by (unfold is_usize; lia).
  - rewrite wadd_small; [done|]. unfold is_usize, usize_max in *. lia.
Qed.

(** [alloc] gives the first free identifier among the next thousand, or nothing if
    they are all in use. *)
Lemma ids_alloc_loop_ok times s :
  0 <= ia_cur s <= usize_max ->
  match ids_alloc_loop times s with
  | (Some id, s') => (id ∉ ia_pool s) /\ 0 < id <= usize_max /\ s' = mkIds id ({[id]} ∪ ia_pool s)
  | (None, s') => ia_pool s' = ia_pool s /\ 0 <= ia_cur s' <= usize_max /\
      forall k, (k < times)%nat -> Nat.iter (S k) next_id (ia_cur s) ∈ ia_pool s
  end.
Proof.
  revert s. induction times as [|times IH]; intros s Hc; cbn [ids_alloc_loop].
  { split; [done|]. split; [done|]. intros k Hk. lia. }
  rewrite next_id_loop by done. pose proof (next_id_range _ Hc) as Hn. case_bool_decide as Hin.
  - specialize (IH (mkIds (next_id (ia_cur s)) (ia_pool s)) ltac:(cbn; lia)). cbn [ia_pool ia_cur] in IH.
    destruct (ids_alloc_loop times _) as [[id|] s']; [done|]. destruct IH as (Hp & Hc' & Hall).
    split; [done|]. split; [done|]. intros [|k] Hk; [done|]. rewrite Nat.iter_succ_r. apply Hall. lia.
  - done.
Qed.

Lemma shm_alloc_ok s size pid now :
  shm_ok s ->
  match shm_alloc s size pid now with
  | (Some id, s') => shm_ok s' /\ (id ∉ sm_files s) /\ 0 < id <= usize_max /\ sm_files s' = {[id]} ∪ sm_files s /\
      sm_objs s' = <[id := ShmIdDs_new size pid now]> (sm_objs s)
  | (None, s') => shm_ok s' /\ sm_files s' = sm_files s /\ sm_objs s' = sm_objs s /\
      forall k, (k < 1000)%nat -> Nat.iter (S k) next_id (ia_cur (sm_ids s)) ∈ sm_files s
  end.
Proof.
  intros [Hp Hi Hc]. unfold shm_alloc, ids_alloc. pose proof (ids_alloc_loop_ok 1000 (sm_ids s) Hc) as H.
  destruct (ids_alloc_loop 1000 (sm_ids s)) as [[id|] ids].
  - destruct H as (Hn & Hr & ->). rewrite Hp in *. split; [|done]. constructor; cbn [sm_ids sm_files sm_objs shm_create ia_pool ia_cur].
    + done.
    + intros x [->%elem_of_singleton|Hx]%elem_of_union.
      * split; [done|]. rewrite lookup_insert_eq. by eexists.
      * destruct (Hi x Hx) as [Hx' Hs]. split; [done|]. apply lookup_insert_is_Some'. by right.
    + lia.
  - destruct H as (Hp' & Hc' & Hall). rewrite Hp in *. split; [|split_and!; done]. by constructor; cbn [sm_ids sm_files sm_objs].
Qed.

Lemma shm_alloc_at_ok s size pid id now :
  shm_ok s -> 0 < id <= usize_max -> id ∉ sm_files s ->
  exists s', shm_alloc_at s size pid id now = (Some id, s') /\ shm_ok s' /\ sm_files s' = {[id]} ∪ sm_files s /\
    sm_objs s' = <[id := ShmIdDs_new size pid now]> (sm_objs s).
Proof.
  intros [Hp Hi Hc] Hid Hn. unfold shm_alloc_at, ids_alloc_at. destruct (Z.eqb_spec id 0); [lia|].
  rewrite bool_decide_false by done. rewrite Hp, bool_decide_false by done. eexists. split; [done|].
  split; [|done]. constructor; cbn [sm_ids sm_files sm_objs shm_create ia_pool ia_cur].
  - done.
  - intros x [->%elem_of_singleton|Hx]%elem_of_union.
    + split; [done|]. rewrite lookup_insert_eq. by eexists.
    + destruct (Hi x Hx) as [Hx' Hs]. split; [done|]. apply lookup_insert_is_Some'. by right.
  - lia.
Qed.

Lemma shm_remove_ok s id : shm_ok s -> shm_ok (shm_remove s id).2.
Proof.
  intros [Hp Hi Hc]. unfold shm_remove, ids_dealloc. rewrite Hp. case_bool_decide as Hin; constructor;
    cbn [snd sm_ids sm_files sm_objs ia_pool ia_cur]; try done.
  - intros x [Hx _]%elem_of_difference. by apply Hi.
  - set_solver.
  - intros x [Hx _]%elem_of_difference. by apply Hi.
Qed.

(** ** What [shmget] does *)

Section Facts.
Context {C : ConstantsHal}.

Definition is_i32 (x : Z) : Prop := - 2 ^ 31 <= x < 2 ^ 31.

Lemma i32_roundtrip key : is_i32 key -> key <> 0 -> as_isize (i32_as_usize key) = key /\ 0 < i32_as_usize key <= usize_max.
Proof.
  unfold is_i32, as_isize, i32_as_usize, usize_max. intros Hk Hne.
  assert (E : key mod 2 ^ 64 = if key <? 0 then key + 2 ^ 64 else key).
  { destruct (Z.ltb_spec key 0); [|apply Z.mod_small; lia].
    rewrite <- (Z.mod_add key 1) by lia. rewrite Z.mod_small; lia. }
  rewrite E. destruct (Z.ltb_spec key 0); (destruct (_ <? 2 ^ 63) eqn:El; bool_to_prop; lia).
Qed.

(** [shmget] finds or creates the object of a key.  An existing object is
    refused with EEXIST when the caller insists on a new one, with EINVAL when it
    is too small, and found otherwise, all without a change.  A missing one is
    ENOENT unless IPC_CREAT is set; then it is created under the key, with the
    size rounded to pages, and every other object stays as it was.  A private
    object gets an identifier nobody uses; the call panics when the next thousand
    identifiers are all taken, and only then. *)
Theorem shmget_spec s pid key size flg now :
  shm_ok s -> is_i32 key ->
  let id := i32_as_usize key in
  let creates id s' := shm_ok s' /\ (id ∉ sm_files s) /\ sm_files s' = {[id]} ∪ sm_files s /\
    sm_objs s' = <[id := ShmIdDs_new (page_round size) pid now]> (sm_objs s) in
  let call := sys_shmget s pid key size flg now in
  if key =? IPC_PRIVATE then
    (exists id s', call = Ret (Ok (as_isize id), s') /\ 0 < id <= usize_max /\ creates id s') \/
    (call = Panic /\ forall k, (k < 1000)%nat -> Nat.iter (S k) next_id (ia_cur (sm_ids s)) ∈ sm_files s)
  else if bool_decide (id ∈ sm_files s) then
    call = Ret (if contains flg (Z.lor IPC_CREAT IPC_EXCL) then Err EEXIST
                else if shm_segsz s id <? size then Err EINVAL else Ok key, s)
  else if contains flg IPC_CREAT then exists s', call = Ret (Ok key, s') /\ creates id s'
  else call = Ret (Err ENOENT, s).
Proof.
  intros Hok Hk id creates call. unfold call, sys_shmget.
  assert (Hmask : forall x, Z.land x (Z.lor IPC_CREAT IPC_EXCL) = x ->
    contains (Z.land flg (Z.lor IPC_CREAT IPC_EXCL)) x = contains flg x).
  { intros x Hx. unfold contains. by rewrite <- Z.land_assoc, (Z.land_comm _ x), Hx. }
  destruct (Z.eqb_spec key IPC_PRIVATE) as [->|Hne].
  - pose proof (shm_alloc_ok s (page_round size) pid now Hok) as H.
    destruct (shm_alloc s (page_round size) pid now) as [[i|] s']; [left|right].
    + destruct H as (H1 & H2 & H3 & H4 & H5). by exists i, s'.
    + by destruct H as (_ & _ & _ & H).
  - destruct (i32_roundtrip key Hk Hne) as [Er Hid]. fold id in Er, Hid |- *. unfold shm_get.
    destruct (Z.eqb_spec id 0); [lia|]. case_bool_decide as Hin.
    + rewrite Hmask by done. by destruct (contains flg _), (shm_segsz s id <? size).
    + rewrite Hmask by done. destruct (contains flg IPC_CREAT); [|done].
      destruct (shm_alloc_at_ok s (page_round size) pid id now Hok Hid Hin) as (s' & E & H1 & H2 & H3).
      rewrite E. exists s'. cbn. rewrite Er. done.
Qed.

End Facts.

(** Private segments one after the other. *)
Fixpoint shmget_times {C : ConstantsHal} (n : nat) (s : ShmManager) : outcome ShmManager :=
  match n with
  | O => Ret s
  | S n => let! r := sys_shmget s 1 IPC_PRIVATE 4096 0 0 in shmget_times n r.2
  end.

(** A process can panic the kernel with [shmget].  After a thousand private
    segments, a segment with key -1 moves the counter of the identifier allocator
    to the largest number; the next private segment starts again from one, finds
    only identifiers in use, and the [unwrap] of the result panics. *)
Theorem shmget_panics :
  exists s s', shmget_times (C := riscv64) 1000 shm_new = Ret s /\
    sys_shmget (C := riscv64) s 1 (-1) 4096 IPC_CREAT 0 = Ret (Ok (-1), s') /\
    sys_shmget (C := riscv64) s' 1 IPC_PRIVATE 4096 0 0 = Panic.
Proof.
  assert (H : match shmget_times (C := riscv64) 1000 shm_new with
              | Ret s => match sys_shmget (C := riscv64) s 1 (-1) 4096 IPC_CREAT 0 with
                         | Ret (Ok r, s') =>
                             match sys_shmget (C := riscv64) s' 1 IPC_PRIVATE 4096 0 0 with
                             | Ret _ => false | Panic => r =? -1 end
                         | _ => false end
              | Panic => false end = true) by (vm_compute; reflexivity).
  destruct (shmget_times 1000 shm_new) as [s|]; [|done]. exists s.
  destruct (sys_shmget s 1 (-1) 4096 IPC_CREAT 0) as [[[r|] s']|]; [|done..]. exists s'.
  destruct (sys_shmget s' 1 IPC_PRIVATE 4096 0 0); [done|]. by apply Z.eqb_eq in H as ->.
Qed.

(** ** Concrete runs *)

Lemma shmget_spec_witness :
  exists s', sys_shmget (C := riscv64) shm_new 7 5 100 IPC_CREAT 3 = Ret (Ok 5, s') /\
    sm_objs s' !! 5 = Some (mkDs 4096 0 0 3 7 0 0).
Proof.
  assert (Hok : shm_ok shm_new) by (constructor; [done|set_solver|by vm_compute]).
  destruct (shmget_spec (C := riscv64) shm_new 7 5 100 IPC_CREAT 3 Hok) as (s' & E & _ & _ & _ & Ho); [by vm_compute|].
  exists s'. split; [exact E|]. rewrite Ho. by vm_compute.
Defined.
