(* ===== verification/MmCalls.v ===== *)
(** The memory system calls (os/src/syscall/mm.rs, the attaching half of
    os/src/syscall/ipc/sysv.rs, [sys_brk] of os/src/syscall/process.rs): mmap,
    munmap, mprotect, mremap, shmat and shmdt of a task whose address space is
    held for the whole call.  The state is the address space and the manager of
    shared memory; the descriptor table, the process identifier and the clock are
    arguments.  The loops of munmap and mprotect return [None] when the given
    number of turns is not enough. *)

From S2P Require Import Prelude HalConst Errno Addr Pte FrameAlloc PageTable RangeMap StrongArc FdTable.
From S2P Require Import Vma PageFault UserVm Shm.

#[local] Open Scope Z_scope.

Record MmState := mkMm { mm_vm : UserVmSpace; mm_shm : ShmManager }.

(** [MmapProt], and its conversion to the permissions of a mapping. *)
Definition PROT_READ : Z := 0x1.
Definition PROT_WRITE : Z := 0x2.
Definition PROT_EXEC : Z := 0x4.

Definition MapPerm_from (prot : Z) : Z :=
  let ret := MapPerm_U in
  let ret := if contains prot PROT_READ then bf_insert ret MapPerm_R else ret in
  let ret := if contains prot PROT_WRITE then bf_insert ret MapPerm_W else ret in
  if contains prot PROT_EXEC then bf_insert ret MapPerm_X else ret.

(** [from_bits_truncate] keeps the bits that are declared. *)
Definition MmapProt_truncate (bits : Z) : Z :=
  Z.land bits (Z.lor PROT_READ (Z.lor PROT_WRITE PROT_EXEC)).
Definition MmapFlags_truncate (bits : Z) : Z :=
  Z.land bits (Z.lor MAP_TYPE_MASK (Z.lor MAP_FIXED (Z.lor MAP_ANONYMOUS MAP_NORESERVE))).

(** [MremapFlags]; [from_bits] refuses any other bit. *)
Definition MAYMOVE : Z := 0x1.
Definition FIXED : Z := 0x2.
Definition DONTUNMAP : Z := 0x4.

Definition MremapFlags_from_bits (bits : Z) : option Z :=
  if Z.ldiff bits (Z.lor MAYMOVE (Z.lor FIXED DONTUNMAP)) =? 0 then Some bits else None.

(** [ShmAtFlags] *)
Definition SHM_RDONLY : Z := 0x1000.
Definition SHM_RND : Z := 0x2000.
Definition SHM_EXEC : Z := 0x8000.

Section Calls.
Context {C : ConstantsHal} {P : PageTableEntryHal} {W : WalkHal} {V : PageLevelHal}.
Context {A : Type} {F : FrameAllocatorHal A} {G : GlobalAlloc} {FS : FileStore}.
Context (Small : PageLevel).
#[local] Abbreviation vm := (VM A).

(** [Ok(start_va.0 as _)] *)
Definition ok_addr (r : result Z SysError) : result Z SysError :=
  match r with Ok va => Ok (as_isize va) | Err e => Err e end.

(** The result of an operation on the address space, the manager unchanged. *)
Definition with_vm (shm : ShmManager) (r : result Z SysError * UserVmSpace) : result Z SysError * MmState :=
  (ok_addr r.1, mkMm r.2 shm).

(** The mapping itself, once the old one is gone. *)
Definition mmap_kind (fds : FdTable Z) (pid now : Z) (s : MmState)
    (addr length perm flags fd offset : Z) : vm (result Z SysError * MmState) :=
  let u := mm_vm s in
  let file_area :=
    match get_file fds (Z.to_nat fd) with
    | Err e => mret (Err e, s)
    | Ok file =>
        r ← alloc_mmap_area Small u addr length perm flags file offset;
        mret (with_vm (mm_shm s) r)
    end in
  let kind := Z.land flags MAP_TYPE_MASK in
  if kind =? MAP_SHARED then
    if contains flags MAP_ANONYMOUS then
      let '(shm, sm) := shm_alloc (mm_shm s) length pid now in
      r ← alloc_anon_area Small u addr length perm flags shm;
      mret (with_vm sm r)
    else file_area
  else if kind =? MAP_PRIVATE then
    if contains flags MAP_ANONYMOUS then
      r ← alloc_anon_area Small u addr length perm flags None;
      mret (with_vm (mm_shm s) r)
    else file_area
  else mret (Err EINVAL, s).

Definition sys_mmap (fds : FdTable Z) (pid now : Z) (s : MmState)
    (addr length prot flags fd offset : Z) : vm (result Z SysError * MmState) :=
  let flags := MmapFlags_truncate flags in
  let prot := MmapProt_truncate prot in
  let perm := MapPerm_from prot in
  if length =? 0 then mret (Err EINVAL, s)
  else if (addr =? 0) && contains flags MAP_FIXED then mret (Err EINVAL, s)
  else if negb (offset mod PAGE_SIZE =? 0) then mret (Err EINVAL, s)
  else if contains flags MAP_FIXED then
    r ← uvm_unmap (mm_vm s) addr length;
    let s := mkMm r.2 (mm_shm s) in
    match r.1 with
    | Err e => mret (Err e, s)
    | Ok vma => _ ← area_drop vma; mmap_kind fds pid now s addr length perm flags fd offset
    end
  else mmap_kind fds pid now s addr length perm flags fd offset.

(** [length -= (new_vpn.0 - cur_vpn.0) << PAGE_SIZE_BITS] *)
Definition shorten (length new_vpn cur_vpn : Z) : Z :=
  wsub length (wshl (wsub new_vpn cur_vpn) PAGE_SIZE_BITS).

Fixpoint munmap_loop (fuel : nat) (u : UserVmSpace) (cur_vpn end_vpn length : Z) :
    vm (option UserVmSpace) :=
  match fuel with
  | O => mret None
  | S fuel =>
      if cur_vpn <? end_vpn then
        r ← uvm_unmap u (VirtPageNum_start_addr cur_vpn) length;
        match r.1 with
        | Err _ => mret (Some r.2)
        | Ok vma =>
            let new_vpn := r_end (range_vpn vma) in
            _ ← area_drop vma;
            munmap_loop fuel r.2 new_vpn end_vpn (shorten length new_vpn cur_vpn)
        end
      else mret (Some u)
  end.

Definition sys_munmap (fuel : nat) (u : UserVmSpace) (addr length : Z) :
    vm (option (result Z SysError * UserVmSpace)) :=
  if length =? 0 then mret (Some (Ok 0, u))
  else
    let length := page_round length in
    r ← munmap_loop fuel u (VirtAddr_floor addr) (VirtAddr_ceil (VirtAddr_add addr length)) length;
    mret ((fun u => (Ok 0, u)) <$> r).

Fixpoint mprotect_loop (fuel : nat) (u : UserVmSpace) (cur_vpn end_vpn length perm : Z) :
    vm (option UserVmSpace) :=
  match fuel with
  | O => mret None
  | S fuel =>
      if cur_vpn <? end_vpn then
        r ← uvm_unmap u (VirtPageNum_start_addr cur_vpn) length;
        match r.1 with
        | Err _ => mret (Some r.2)
        | Ok vma =>
            let new_vpn := r_end (range_vpn vma) in
            u ← push_area Small r.2 (with_perm vma perm) None;
            mprotect_loop fuel u new_vpn end_vpn (shorten length new_vpn cur_vpn) perm
        end
      else mret (Some u)
  end.

Definition sys_mprotect (fuel : nat) (u : UserVmSpace) (addr length prot : Z) :
    vm (option (result Z SysError * UserVmSpace)) :=
  if negb (VirtAddr_page_offset addr =? 0) || (length =? 0) || negb (length mod PAGE_SIZE =? 0)
  then mret (Some (Err EINVAL, u))
  else
    let perm := MapPerm_from (MmapProt_truncate prot) in
    r ← mprotect_loop fuel u (VirtAddr_floor addr) (VirtAddr_ceil (VirtAddr_add addr length)) length perm;
    mret ((fun u => (Ok 0, u)) <$> r).

Definition sys_brk (u : UserVmSpace) (addr : Z) : vm (result Z SysError * UserVmSpace) :=
  r ← reset_heap_break Small u addr;
  mret (Ok (as_isize r.1), r.2).

(** [(size - 1 + PAGE_SIZE) & !(PAGE_SIZE)], as mremap rounds. *)
Definition mremap_round (size : Z) : Z := Z.land (wadd (wsub size 1) PAGE_SIZE) (wnot PAGE_SIZE).

(** The area is cut out, resized and put back. *)
Definition mremap_resize (u : UserVmSpace) (old_addr old_size : Z)
    (resize : UserVmArea -> UserVmArea * option UserVmArea) : vm (result Z SysError * UserVmSpace) :=
  r ← uvm_unmap u old_addr old_size;
  match r.1 with
  | Err e => mret (Err e, r.2)
  | Ok old_area =>
      let '(old_area, cut) := resize old_area in
      _ ← match cut with Some cut => area_drop cut | None => mret tt end;
      u ← push_area Small r.2 old_area None;
      mret (Ok (as_isize old_size), u)
  end.

(** The new mapping of a move, with the old area's backing. *)
Definition mremap_alloc (u : UserVmSpace) (old_area : UserVmArea) (new_addr new_size : Z) :
    vm (result Z SysError * UserVmSpace) :=
  let flags := get_mmap_flags old_area in
  match a_file old_area with
  | FileFile file => alloc_mmap_area Small u new_addr new_size (map_perm old_area) flags file 0
  | FileShm shm => alloc_anon_area Small u new_addr new_size (map_perm old_area) flags (Some shm)
  | FileNone =>
      _ ← vm_assert (negb (shared old_area));
      alloc_anon_area Small u new_addr new_size (map_perm old_area) flags None
  end.

Definition mremap_move (u : UserVmSpace) (old_area : UserVmArea)
    (old_addr old_size new_addr new_size flags : Z) : vm (result Z SysError * UserVmSpace) :=
  r ← mremap_alloc u old_area new_addr new_size;
  match r.1 with
  | Err e => mret (Err e, r.2)
  | Ok new_addr =>
      r ← uvm_unmap r.2 new_addr new_size;
      match r.1 with
      | Err _ => vm_panic
      | Ok new_area =>
          r ← uvm_unmap r.2 old_addr old_size;
          match r.1 with
          | Err e => _ ← area_drop new_area; mret (Err e, r.2)
          | Ok old_area =>
              let '(old_area, new_area) := move_frames_to old_area new_area in
              u ← push_area Small r.2 new_area None;
              u ← (if contains flags DONTUNMAP then push_area Small u old_area None else mret u);
              mret (Ok (as_isize new_addr), u)
          end
      end
  end.

Definition sys_mremap (u : UserVmSpace) (old_addr old_size new_size flags new_address : Z) :
    vm (result Z SysError * UserVmSpace) :=
  let fail e := mret (Err e, u) in
  if negb (VirtAddr_page_offset old_addr =? 0) then fail EINVAL
  else
    let old_size := mremap_round old_size in
    let new_size := mremap_round new_size in
    match MremapFlags_from_bits flags with
    | None => fail EINVAL
    | Some flags =>
        if (contains flags FIXED || contains flags DONTUNMAP) && negb (contains flags MAYMOVE)
        then fail EINVAL
        else
          match get_area_view u old_addr with
          | None => fail EINVAL
          | Some old_area =>
              if wsub (r_end (range_va old_area)) old_addr <? old_size then fail EINVAL
              else if negb (bool_decide (vma_type old_area = UserMmap)) then fail EINVAL
              else if contains flags DONTUNMAP &&
                      negb (contains (get_mmap_flags old_area) (Z.lor MAP_PRIVATE MAP_ANONYMOUS))
              then fail EINVAL
              else
                let moved :=
                  new_addr ← (if contains flags FIXED then
                                let new_address := VirtAddr_from new_address in
                                r ← vm_lift (check_free u new_address new_size);
                                mret (match r with Ok _ => Ok new_address | Err _ => Err ENOMEM end)
                              else mret (Ok (VirtAddr_from 0)));
                  match new_addr with
                  | Err e => fail e
                  | Ok new_addr => mremap_move u old_area old_addr old_size new_addr new_size flags
                  end in
                if (flags =? 0) || (flags =? MAYMOVE) then
                  if new_size <=? old_size then
                    mremap_resize u old_addr old_size (fun a => area_shrink a (wsub old_size new_size))
                  else
                    r ← vm_lift (check_free u (VirtAddr_add old_addr old_size) (wsub new_size old_size));
                    match r with
                    | Ok _ =>
                        mremap_resize u old_addr old_size
                          (fun a => (area_extend a (wsub new_size old_size), None))
                    | Err _ => if flags =? 0 then fail ENOMEM else moved
                    end
                else moved
          end
    end.

(** ** Attaching shared memory *)

Definition shmat_perm (shmflg : Z) : Z :=
  let perm := bf_insert (bf_insert MapPerm_U MapPerm_R) MapPerm_W in
  let perm := if contains shmflg SHM_EXEC then bf_insert perm MapPerm_X else perm in
  if contains shmflg SHM_RDONLY then bf_remove perm MapPerm_W else perm.

Definition sys_shmat (pid now : Z) (s : MmState) (shmid shmaddr shmflg : Z) :
    vm (result Z SysError * MmState) :=
  let shmflg := Z.land shmflg (Z.lor SHM_RDONLY (Z.lor SHM_RND SHM_EXEC)) in
  if negb (VirtAddr_page_offset shmaddr =? 0) && negb (contains shmflg SHM_RND)
  then mret (Err EINVAL, s)
  else
    let shmaddr := VirtPageNum_start_addr (VirtAddr_floor shmaddr) in
    match shm_get (mm_shm s) (i32_as_usize shmid) with
    | None => mret (Err EINVAL, s)
    | Some shm =>
        r ← alloc_anon_area Small (mm_vm s) shmaddr (shm_segsz (mm_shm s) shm) (shmat_perm shmflg)
              MAP_SHARED (Some shm);
        match r.1 with
        | Err e => mret (Err e, mkMm r.2 (mm_shm s))
        | Ok va =>
            mret (Ok (as_isize va), mkMm r.2 (shm_update (mm_shm s) shm (fun d => ds_attach d pid now)))
        end
    end.

Definition sys_shmdt (pid now : Z) (s : MmState) (shmaddr : Z) : vm (result Z SysError * MmState) :=
  if negb (VirtAddr_page_offset shmaddr =? 0) then mret (Err EINVAL, s)
  else
    match get_area_view (mm_vm s) shmaddr with
    | None => mret (Err EINVAL, s)
    | Some vma =>
        match a_file vma with
        | FileShm shm =>
            _ ← vm_assert (shared vma);
            r ← uvm_unmap (mm_vm s) shmaddr (range_count (range_va vma));
            match r.1 with
            | Err e => mret (Err e, mkMm r.2 (mm_shm s))
            | Ok cut =>
                _ ← area_drop cut;
                mret (Ok 0, mkMm r.2 (shm_update (mm_shm s) shm (fun d => snd (ds_detach d pid now))))
            end
        | _ => mret (Err EINVAL, s)
        end
    end.

End Calls.
