(* ===== verification/UnmapProofs.v ===== *)
(** Unmapping and protecting whole ranges: the loops of [sys_munmap] and
    [sys_mprotect] (os/src/syscall/mm.rs) over [unmap] and [push_area].  The
    range may start in a gap between areas; the first part shows what [unmap]
    does there.  [counted] ties the reference count of every frame to the pages
    that show it, so that dropping the frames of what was cut out frees exactly
    those nobody else holds. *)

From S2P Require Import Prelude HalConst Errno Addr Pte FrameAlloc PageTable RangeMap StrongArc.
From S2P Require Import Vma PageFault FaultProofs UserVm UserVmProofs ForkProofs Shm MmCalls.

#[local] Open Scope Z_scope.
#[local] Existing Instance user_region.

(** The first entry that starts inside a range whose first point is free. *)
Lemma rm_range_head {X} lo (m : RangeMap X) a b :
  rm_ok lo m -> lo <= a < b -> rm_at m a = None ->
  (rm_free m a b /\ rm_range m (mkRange a b) = Ret []) \/
  (exists r x es, rm_range m (mkRange a b) = Ret ((r, x) :: es) /\ a < r_start r < b /\
     rm_free m a (r_start r) /\ rm_at m (r_start r) = Some (r, x)).
Proof.
  intros Hm Hab Hn. destruct (rm_split_at lo m a Hm ltac:(lia))
    as [(m1 & s & n & m2 & -> & _ & Hs)|(m1 & m2 & -> & Hhi & Hgt & Hok & _)].
  { rewrite (rm_at_mid lo) in Hn by done. revert Hn. zcmp. by intros. }
  apply rm_ok_app in Hm as Hm'. destruct Hm' as [H1 H2].
  assert (Hlt : forall e, e ∈ m1 -> e.1 < a).
  { intros [s n] He. apply (rm_ok_bounds lo m1 H1) in He. cbn. lia. }
  unfold rm_range, bt_range. cbn [r_start r_end]. destruct (Z.ltb_spec b a); [lia|]. cbn [obind].
  rewrite (filter_between a) by (done || lia). destruct m2 as [|[s n] m2].
  - left. split; [|done]. rewrite app_nil_r in *. intros k Hk. apply (rm_at_above lo); [done|lia].
  - specialize (Hgt (s, n) (list_elem_of_here _ _)). cbn [fst] in Hgt. destruct Hok as [Hs Hok2].
    assert (Hfree : rm_free (m1 ++ (s, n) :: m2) a s).
    { intros k Hk. rewrite rm_at_app, (rm_at_above lo) by (done || lia). cbn [rm_at].
      destruct (Z.leb_spec s k); [lia|]. apply (rm_at_below (n_end n)); [done|lia]. }
    cbn [List.filter fst]. destruct (Z.ltb_spec s b).
    + right. do 3 eexists. split; [done|]. cbn [rm_entry fst snd r_start]. split; [lia|]. split; [done|].
      rewrite (rm_at_mid lo) by done. by zcmp.
    + left. split.
      * intros k Hk. apply Hfree. lia.
      * destruct (rm_filter_below (n_end n) m2 b Hok2) as [_ Hin]. destruct (List.filter _ m2) as [|[s' n'] es]; [done|].
        destruct (proj1 (Hin s' n') (list_elem_of_here _ _)) as [He Hb].
        pose proof (rm_ok_starts _ _ Hok2 _ He). cbn in *. lia.
Qed.

Section Unmap.
Context {C : ConstantsHal} {CL : ConstantsLaws C} {P : PageTableEntryHal} {L : PteLaws C P}.
Context {W : WalkHal} {V : PageLevelHal} {WL : WalkLaws C P L W V}.
Context {A : Type} {F : FrameAllocatorHal A} {FL : FrameAllocatorLaws C A}.
Context {G : GlobalAlloc} {GL : GlobalAllocLaws G} {FS : FileStore}.
Context (Small : PageLevel) (Small_low : lowest Small = true).
Implicit Types (σ : Machine A) (u : UserVmSpace) (m : RangeMap UserVmArea).

(** ** [unmap] from a gap *)

(** Splitting an area below its first page: the first part is empty, the second
    has all the frames, an offset that compensates, and next to nothing left of
    its file part. *)
Lemma split_gap a p :
  area_ok a -> 0 <= p < r_start (range_vpn a) ->
  exists front l, 0 <= l < (r_start (range_vpn a) - p) * 4096 /\
    split_off a p = (front, mkArea (mkRange (p * 4096) (r_end (range_va a))) (vma_type a) (map_perm a) (frames a)
      (a_file a) (map_flags a) (wadd (a_offset a) (wmul (wsub p (r_start (range_vpn a))) 4096)) l) /\
    frames front = ∅ /\ range_is_empty (range_vpn front) = true.
Proof.
  intros Ha Hp. destruct (area_pages a Ha) as (Es & Hs & He & _). destruct user_half as (_ & Hu & _ & Hmax).
  set (s := r_start (range_vpn a)) in *. set (d := (s - p) * 4096).
  assert (Hd : 0 < d <= 2 ^ 62) by (unfold d; lia).
  set (o := wadd (a_offset a) (wmul (wsub p s) 4096)).
  assert (Eo : wsub o (a_offset a) = 2 ^ 64 - d).
  { unfold o, wsub, wadd, wmul, wrap. rewrite Zmult_mod_idemp_l, Zplus_mod_idemp_r, Zminus_mod_idemp_l.
    replace (a_offset a + (p - s) * 4096 - a_offset a) with (- d + 0) by (unfold d; lia).
    rewrite <- (Z.mod_add _ 1), Z.mod_small; lia. }
  assert (Efr : bt_below p (frames a) = ∅ /\ bt_from p (frames a) = frames a).
  { split; apply map_eq; intros k; [rewrite bt_below_lookup, lookup_empty|rewrite bt_from_lookup];
      destruct (Z.ltb_spec k p); try done; (destruct (frames a !! k) eqn:Ek; [|done]);
      apply (ao_frames a Ha) in Ek; unfold in_range in Ek; fold s in Ek; lia. }
  destruct Efr as [Ef1 Ef2]. unfold split_off. rewrite user_start_addr, page_size_val, Ef1, Ef2 by lia.
  fold s o. rewrite Eo. eexists _, _. split; [|split; [done|split; [done|]]].
  - destruct (ao_len a Ha) as [Hl0 Hl], (ao_offset a Ha) as [Ho _]. destruct (Z.ltb_spec (a_len a) (2 ^ 64 - d)); [fold d; lia|].
    rewrite wsub_small by (unfold is_usize; lia). fold d. lia.
  - unfold range_is_empty, range_vpn. cbn [range_va r_start r_end]. rewrite Es, user_floor, user_ceil by lia.
    rewrite Z.div_mul by lia. destruct (Z.ltb_spec s ((p * 4096 + 4095) / 4096)); [div_lia|done].
Qed.

(** Splitting that once more puts the offset right; the file part is gone. *)
Lemma split_gap_back a p l e :
  area_ok a -> 0 <= p < r_start (range_vpn a) -> r_start (range_vpn a) < e < r_end (range_vpn a) ->
  0 <= l < (r_start (range_vpn a) - p) * 4096 ->
  split_off (mkArea (mkRange (p * 4096) (r_end (range_va a))) (vma_type a) (map_perm a) (frames a)
      (a_file a) (map_flags a) (wadd (a_offset a) (wmul (wsub p (r_start (range_vpn a))) 4096)) l) e =
  ( mkArea (mkRange (p * 4096) (e * 4096)) (vma_type a) (map_perm a) (bt_below e (frames a))
      (a_file a) (map_flags a) (wadd (a_offset a) (wmul (wsub p (r_start (range_vpn a))) 4096)) l,
    mkArea (mkRange (e * 4096) (r_end (range_va a))) (vma_type a) (map_perm a) (bt_from e (frames a))
      (a_file a) (map_flags a) (a_offset a + (e - r_start (range_vpn a)) * 4096) 0 ).
Proof.
  intros Ha Hp He Hl. destruct (area_pages a Ha) as (Es & Hs & Hend & Hr). destruct user_half as (_ & Hu & _ & Hmax).
  destruct (ao_offset a Ha) as [Ho1 Ho2].
  set (s := r_start (range_vpn a)) in *. set (o := wadd (a_offset a) (wmul (wsub p s) 4096)).
  unfold split_off, range_vpn. cbn [range_va vma_type map_perm frames a_file map_flags a_offset a_len r_start r_end].
  rewrite user_start_addr, page_size_val, user_floor, Z.div_mul by lia.
  assert (E1 : wmul (wsub e p) 4096 = (e - p) * 4096).
  { rewrite wsub_small, wmul_small by (unfold is_usize; lia). done. }
  rewrite E1.
  assert (E2 : wadd o ((e - p) * 4096) = a_offset a + (e - s) * 4096).
  { unfold o. apply wrap_eq; [|unfold is_usize; lia]. unfold wadd, wmul, wsub, wrap.
    rewrite Zmult_mod_idemp_l, Zplus_mod_idemp_r. rewrite <- Z.add_sub_assoc, Zplus_mod_idemp_l.
    replace (a_offset a + (p - s) * 4096 + ((e - p) * 4096 - (a_offset a + (e - s) * 4096))) with 0 by lia. done. }
  rewrite E2.
  assert (E3 : wsub (a_offset a + (e - s) * 4096) o = (e - p) * 4096).
  { unfold o. apply wrap_eq; [|unfold is_usize; lia]. unfold wadd, wmul, wsub, wrap.
    rewrite Zmult_mod_idemp_l, Zplus_mod_idemp_r. set (x := a_offset a + (p - s) * 4096).
    rewrite (Z.mod_eq x) by lia. apply Z.mod_divide; [lia|]. exists (x / 2 ^ 64). unfold x. lia. }
  rewrite E3. destruct (Z.ltb_spec l ((e - p) * 4096)); [|lia]. rewrite wsub_small by (unfold is_usize; lia).
  rewrite Z.sub_0_r. done.
Qed.

(** The frame of a page. *)
Definition frame_at m (v : Z) : option Z := rm_at m v ≫= fun e => frames e.2 !! v.

(** The page, if it is part of a data segment, lies behind the file's part. *)
Definition data_end m (v : Z) : Prop :=
  forall perm flags src fr, space_info m v = Some (UserData, perm, flags, src, fr) -> src = Zeroes.

(** [mid] is cut out of the pages from [lo] to [c]. *)
Record cut_out σ σ' u u' (mid : UserVmArea) (lo c : Z) : Prop := {
  co_ok : uvm_ok σ' u';
  co_keeps : keeps σ σ' (page_table u) (page_table u');
  co_table : page_table u' = page_table u;
  co_machine : σ' = with_mem σ (mc_mem σ');
  co_end : r_end (range_vpn mid) = c;
  co_frames v : frames mid !! v = if (lo <=? v) && (v <? c) then frame_at (areas u) v else None;
  co_info v : space_info (areas u') v = if (lo <=? v) && (v <? c) then None else space_info (areas u) v;
  co_pages v : reg_vpn v -> ~ lo <= v < c -> page_of σ' (page_table u) v = page_of σ (page_table u) v;
}.

Lemma frame_at_info m v : frame_at m v = space_info m v ≫= snd.
Proof. unfold frame_at, space_info. by destruct (rm_at m v) as [[r a]|]. Qed.

(** What lies behind the cut, without its file part, still shows the same pages. *)
Lemma gap_back_info a e v :
  area_ok a -> r_start (range_vpn a) < e -> e <= v < r_end (range_vpn a) ->
  (vma_type a = UserData -> backing a e = Zeroes) ->
  let back := mkArea (mkRange (e * 4096) (r_end (range_va a))) (vma_type a) (map_perm a) (bt_from e (frames a))
      (a_file a) (map_flags a) (a_offset a + (e - r_start (range_vpn a)) * 4096) 0 in
  area_ok back /\ range_vpn back = mkRange e (r_end (range_vpn a)) /\ page_info back v = page_info a v.
Proof.
  intros Ha He Hv Hd back. destruct (area_pages a Ha) as (Es & Hs & Hend & Hr). destruct user_half as (_ & Hu & _ & Hmax).
  destruct (ao_offset a Ha) as [Ho1 Ho2]. set (s := r_start (range_vpn a)) in *.
  assert (Hrb : range_vpn back = mkRange e (r_end (range_vpn a))).
  { apply (range_vpn_pages back _ _ (r_end (range_va a))); (done || lia). }
  split; [|split; [done|]].
  - pose proof (ao_end a Ha). constructor; rewrite ?Hrb; cbn [back range_va r_start r_end frames a_offset a_len]; try lia.
    { split; [lia|apply Z.mod_mul; lia]. }
    intros k p. rewrite bt_from_lookup. destruct (Z.ltb_spec k e); [done|]. intros Hk.
    apply (ao_frames a Ha) in Hk. unfold in_range in *. cbn [r_start r_end]. lia.
  - unfold page_info. cbn [back vma_type map_perm map_flags frames]. rewrite bt_from_lookup.
    destruct (Z.ltb_spec v e); [lia|]. do 2 f_equal. unfold backing, page_shift in *. rewrite Hrb. cbn [r_start].
    fold s in Hd |- *. cbn [back vma_type a_file a_offset a_len]. destruct (vma_type a), (a_file a); try done.
    + rewrite page_size_val in *. specialize (Hd eq_refl). destruct (Z.ltb_spec ((e - s) * 4096) (a_len a)); [done|].
      destruct (Z.ltb_spec ((v - e) * 4096) 0); [lia|]. destruct (Z.ltb_spec ((v - s) * 4096) (a_len a)); [lia|done].
    + rewrite page_size_val. f_equal. lia.
    + rewrite page_size_val. f_equal. lia.
Qed.

Lemma area_unmap_frames a b pt σ : frames a = frames b -> area_unmap a pt σ = area_unmap b pt σ.
Proof. intros E. unfold area_unmap. by rewrite E. Qed.

(** The whole-page range the system calls pass. *)
Lemma page_span vpn e :
  0 <= vpn < e -> e < user_pages ->
  VirtAddr_floor (vpn * 4096) = vpn /\ VirtAddr_ceil (VirtAddr_add (vpn * 4096) ((e - vpn) * 4096)) = e /\
  wsub e vpn = e - vpn /\ VirtPageNum_add vpn (e - vpn) = e.
Proof.
  intros Hv He. destruct (user_span (vpn * 4096) ((e - vpn) * 4096)) as (E1 & E2 & _ & _ & E3 & E4); [lia..|].
  rewrite Z.div_mul in E1 by lia. rewrite E1 in *. replace ((vpn * 4096 + (e - vpn) * 4096 + 4095) / 4096) with e in E2
    by div_lia. rewrite E2 in *. rewrite E3 in E4. done.
Qed.

(** The tail of [unmap] from a gap: the first area found starts at [r_start r],
    above [vpn]. *)
Section Gap.
Context σ u m (r : Range) (a : UserVmArea) (vpn e l : Z).
Context (Hok : uvm_ok σ u) (Ha : area_ok a) (Hwf : area_wf a) (Hr : range_vpn a = r).
Context (Hvpn : 0 <= vpn < r_start r) (He : r_start r < e) (Hl : 0 <= l < (r_start r - vpn) * 4096).
Context (Hat : forall v, in_range v r -> rm_at (areas u) v = Some (r, a)).
Context (Hfree : forall v, vpn <= v < r_start r -> rm_at (areas u) v = None) (Hde : data_end (areas u) e).
Context (Hs : space_ok m).
Context (Hm : forall v, rm_at m v = if (r_start r <=? v) && (v <? r_end r) then None else rm_at (areas u) v).

Let mid := mkArea (mkRange (vpn * 4096) (r_end (range_va a))) (vma_type a) (map_perm a) (frames a)
  (a_file a) (map_flags a) (wadd (a_offset a) (wmul (wsub vpn (r_start r)) 4096)) l.

Lemma gap_in v : r_start r <= v < r_end r -> space_info (areas u) v = Some (page_info a v).
Proof. intros Hv. unfold space_info. by rewrite Hat by (unfold in_range; lia). Qed.

Lemma gap_frames v : frames a !! v = if (vpn <=? v) && (v <? r_end r) then frame_at (areas u) v else None.
Proof.
  unfold frame_at. destruct ((vpn <=? v) && (v <? r_end r)) eqn:Eb.
  - bool_to_prop. destruct (decide (r_start r <= v)); [by rewrite Hat by (unfold in_range; lia)|].
    rewrite Hfree by lia. cbn. destruct (frames a !! v) eqn:Ev; [|done]. apply (ao_frames a Ha) in Ev.
    rewrite Hr in Ev. unfold in_range in Ev. lia.
  - destruct (frames a !! v) eqn:Ev; [|done]. apply (ao_frames a Ha) in Ev. rewrite Hr in Ev. unfold in_range in Ev.
    revert Eb. by zcmp.
Qed.

Lemma gap_widen m' b v :
  r_start r <= b -> (space_info m' v = if (r_start r <=? v) && (v <? b) then None else space_info (areas u) v) ->
  space_info m' v = if (vpn <=? v) && (v <? b) then None else space_info (areas u) v.
Proof.
  intros Hb ->. destruct (Z.leb_spec (r_start r) v), (Z.leb_spec vpn v), (Z.ltb_spec v b); cbn [andb]; try done; try lia.
  unfold space_info. by rewrite Hfree by lia.
Qed.

Lemma gap_range : range_vpn mid = mkRange vpn (r_end r).
Proof.
  destruct (area_pages a Ha) as (_ & Hp & Hend & Hrv). rewrite Hr in *.
  apply (range_vpn_pages mid _ _ (r_end (range_va a))); (done || lia).
Qed.

(** The range reaches the end of the area. *)
Lemma unmap_mid_gap_whole :
  r_end r <= e ->
  exists mem, let σ' := with_mem σ mem in
    unmap_mid u m mid e σ = Ret (Ok mid, with_areas u m, σ') /\ cut_out σ σ' u (with_areas u m) mid vpn (r_end r).
Proof.
  intros Hge. destruct (area_pages a Ha) as (_ & Hp & _). rewrite Hr in Hp.
  assert (Hinfo : forall v, space_info m v = if (r_start r <=? v) && (v <? r_end r) then None else space_info (areas u) v).
  { intros v. unfold space_info at 1. rewrite Hm. by destruct (_ && _). }
  destruct (cut_pages Small Small_low σ u m a (r_start r) (r_end r)) as (mem & E & Hok' & Hk & Hpg); try done.
  { rewrite Hr. by destruct r. }
  { intros v Hv. by apply gap_in. }
  { intros k r' x. rewrite Hm. destruct (_ && _); [done|]. apply (uv_wf _ _ Hok). }
  exists mem. cbv zeta. split.
  - unfold unmap_mid. rewrite gap_range. cbn [r_end]. destruct (Z.ltb_spec e (r_end r)); [lia|].
    erewrite run_bind by done. cbn beta iota. erewrite run_bind; [done|]. by rewrite (area_unmap_frames mid a).
  - constructor; try done.
    + by rewrite gap_range.
    + intros v. apply gap_frames.
    + intros v. apply gap_widen; [lia|apply Hinfo].
    + intros v Hv Hn. apply Hpg; [done|lia].
Qed.

(** The range ends inside the area: what lies behind is put back. *)
Lemma unmap_mid_gap_part :
  e < r_end r ->
  exists mid' m' mem, let σ' := with_mem σ mem in
    unmap_mid u m mid e σ = Ret (Ok mid', with_areas u m', σ') /\ cut_out σ σ' u (with_areas u m') mid' vpn e.
Proof.
  intros Hlt. destruct (area_pages a Ha) as (Es & Hp & Hend & Hrv). destruct user_half as (_ & Hu & _ & Hmax).
  unfold unmap_mid. rewrite gap_range. cbn [r_end]. destruct (Z.ltb_spec e (r_end r)); [|lia].
  pose proof (split_gap_back a vpn l e Ha) as Esp. rewrite Hr in Hp, Hend, Hrv, Esp. unfold mid.
  rewrite Esp by (done || lia). cbv iota beta. clear Esp.
  set (back := mkArea (mkRange (e * 4096) _) _ _ _ _ _ _ 0). set (mid' := mkArea (mkRange (vpn * 4096) _) _ _ _ _ _ _ l).
  assert (Hback : forall v, e <= v < r_end r -> area_ok back /\ range_vpn back = mkRange e (r_end r) /\
    page_info back v = page_info a v).
  { intros v Hv. pose proof (gap_back_info a e v Ha) as H'. rewrite Hr in H'. apply H'; [lia..|].
    intros Et. pose proof Hde as Hd. unfold data_end in Hd. rewrite gap_in in Hd by lia. unfold page_info in Hd.
    rewrite Et in Hd. by eapply Hd. }
  destruct (Hback e ltac:(lia)) as (Hokb & Hrb & _).
  destruct (insert_back m back _ Hs Hokb Hrb) as (m' & E' & Hs' & Hat').
  { intros v Hv. cbn [r_start r_end] in Hv. rewrite Hm. by zcmp. }
  cbn [r_start r_end] in Hat'.
  destruct (split_off a e) as [good gback] eqn:Eg.
  destruct (split_off_ok a e good gback Ha ltac:(rewrite Hr; lia) Eg) as (_ & _ & Hg & _).
  destruct (Hg ltac:(rewrite Hr; lia)) as [Hrg Hokg]. rewrite Hr in Hrg.
  assert (Efg : frames good = bt_below e (frames a)).
  { apply map_eq. intros k. destruct (split_off_frames a e good gback k Eg) as [-> _]. by rewrite bt_below_lookup. }
  assert (Hinfo : forall v, space_info m' v = if (r_start r <=? v) && (v <? e) then None else space_info (areas u) v).
  { intros v. unfold space_info at 1. rewrite Hat', Hm. destruct (Z.leb_spec e v), (Z.ltb_spec v (r_end r)); cbn [andb].
    - destruct (Hback v ltac:(lia)) as (_ & _ & Hpi). destruct (Z.ltb_spec v e); [lia|]. rewrite andb_false_r.
      cbn. rewrite Hpi. symmetry. apply gap_in. lia.
    - rewrite andb_false_r. destruct (Z.ltb_spec v e); [lia|]. by rewrite andb_false_r.
    - destruct (Z.ltb_spec v e); [|lia]. rewrite !andb_true_r. by destruct (r_start r <=? v).
    - lia. }
  destruct (cut_pages Small Small_low σ u m' good (r_start r) e) as (mem & E & Hok' & Hk & Hpg); try done.
  { intros v Hv. rewrite gap_in by lia. f_equal.
    pose proof (split_off_info a e good gback v Ha ltac:(rewrite Hr; lia) Eg ltac:(rewrite Hr; unfold in_range; lia)) as H'.
    destruct (Z.ltb_spec v e); [done|lia]. }
  { intros k r' x. rewrite Hat'. destruct (_ && _).
    - intros [= <- <-]. destruct Hwf as [Hw1 Hw2]. split; [done|]. cbn [back a_offset].
      rewrite Z.add_mod, Hw2, Z.mod_mul by lia. done.
    - rewrite Hm. destruct (_ && _); [done|]. apply (uv_wf _ _ Hok). }
  exists mid', m', mem. cbv zeta. split.
  - assert (Ee : range_is_empty (range_va back) = false)
      by (unfold range_is_empty; pose proof (ao_order back Hokb); by zcmp).
    rewrite Ee, Hrb. erewrite run_bind; [|erewrite run_bind; [|unfold vm_lift; rewrite E'; done]; done]. cbn beta iota.
    erewrite run_bind; [done|]. by rewrite (area_unmap_frames mid' good) by done.
  - constructor; try done.
    + unfold mid'. rewrite (range_vpn_pages _ vpn e (e * 4096)); (done || lia).
    + intros v. cbn [mid' frames]. rewrite bt_below_lookup, gap_frames.
      destruct (Z.leb_spec vpn v), (Z.ltb_spec v e), (Z.ltb_spec v (r_end r)); cbn [andb]; try done; lia.
    + intros v. apply gap_widen; [lia|apply Hinfo].
    + intros v Hv Hn. apply Hpg; [done|lia].
Qed.

Lemma unmap_mid_gap :
  let c := Z.min e (r_end r) in
  exists mid' m' mem, let σ' := with_mem σ mem in
    unmap_mid u m mid e σ = Ret (Ok mid', with_areas u m', σ') /\
    cut_out σ σ' u (with_areas u m') mid' vpn c /\ (r_end r <= e -> m' = m).
Proof.
  intros c. destruct (Z.lt_ge_cases e (r_end r)).
  - replace c with e by (unfold c; lia). destruct unmap_mid_gap_part as (mid' & m' & mem & E & Hc); [done|].
    exists mid', m', mem. cbv zeta. split; [done|]. split; [done|lia].
  - replace c with (r_end r) by (unfold c; lia). destruct unmap_mid_gap_whole as (mem & E & Hc); [done|].
    by exists mid, m, mem.
Qed.

End Gap.

Lemma uvm_unmap_gap σ u vpn e r a es :
  uvm_ok σ u -> 0 <= vpn -> e < user_pages -> vpn < r_start r < e ->
  rm_free (areas u) vpn (r_start r) -> rm_at (areas u) (r_start r) = Some (r, a) ->
  rm_range (areas u) (mkRange vpn e) = Ret ((r, a) :: es) -> data_end (areas u) e ->
  exists mid m' mem, let σ' := with_mem σ mem in
    uvm_unmap u (vpn * 4096) ((e - vpn) * 4096) σ = Ret (Ok mid, with_areas u m', σ') /\
    cut_out σ σ' u (with_areas u m') mid vpn (Z.min e (r_end r)) /\
    (r_end r <= e -> forall k, r_end r <= k -> rm_at m' k = rm_at (areas u) k).
Proof.
  intros Hok Hvpn He Hrs Hfree Ea Ees Hde. pose proof (uv_space _ _ Hok) as Hs.
  destruct (page_span vpn e ltac:(lia) He) as (E1 & E2 & E3 & E4).
  destruct (space_at _ _ _ _ Hs Ea) as (Ha & Hr & Hk1 & Hk2).
  assert (Hat : forall v, in_range v r -> rm_at (areas u) v = Some (r, a)).
  { intros v Hv. apply (rm_at_same 0 _ (r_start r)); [apply Hs|done|exact Hv]. }
  destruct (split_gap a vpn Ha) as (front & l & Hl & Esp & Hff & Hfe); [rewrite Hr; lia|]. rewrite Hr in Hl, Esp.
  destruct (rm_set_spec 0 (areas u) _ r a front (so_map _ Hs) Ea) as [Hm1 A1].
  assert (K1 : rm_at (rm_set (areas u) (r_start r) front) (r_start r) = Some (r, front)) by (rewrite A1; by zcmp).
  destruct (rm_force_remove_spec 0 _ _ r front Hm1 K1) as (m2 & Er & Hm2 & A2).
  assert (A3 : forall v, rm_at m2 v = if (r_start r <=? v) && (v <? r_end r) then None else rm_at (areas u) v).
  { intros v. rewrite A2, A1. by destruct (_ && _). }
  destruct (unmap_mid_gap σ u m2 r a vpn e l Hok Ha (uv_wf _ _ Hok _ _ _ Ea) Hr ltac:(lia) ltac:(lia) Hl Hat Hfree Hde)
    as (mid' & m' & mem & Em & Hcut & Heq); [|done|].
  { constructor; [done|]. intros k r' x. rewrite A3. destruct (_ && _); [done|]. apply (so_area _ Hs). }
  exists mid', m', mem. cbv zeta. split; [|split; [done|]].
  - unfold uvm_unmap. rewrite E1, E2, E3. unfold try_union. rewrite E4.
    erewrite run_bind; [|unfold vm_lift; cbn [try_union_loop]; destruct (Z.ltb_spec vpn e); [|lia];
      rewrite (rm_get_at 0), Hfree by (apply Hs || lia); done].
    cbn [snd]. unfold unmap_front. rewrite (rm_get_key_value_at 0), Hfree by (apply Hs || lia). rewrite E4.
    erewrite run_bind; [|unfold vm_lift; rewrite Ees; done]. cbn [head]. cbn beta iota.
    rewrite Esp. cbv beta iota zeta. rewrite Hfe.
    erewrite (run_bind _ _ σ m2 σ); [exact Em|]. erewrite run_bind; [|unfold vm_lift; rewrite Er; done]. cbn [fst snd].
    by erewrite run_bind by by apply area_drop_empty.
  - intros Hle k Hk. rewrite (Heq Hle), A3. destruct (Z.ltb_spec k (r_end r)); [lia|]. by rewrite andb_false_r.
Qed.

(** Either every page of the range is mapped, or it does not end in the file part
    of a data segment. *)
Definition tail_ok m (lo hi : Z) : Prop := (forall v, lo <= v < hi -> rm_at m v <> None) \/ data_end m hi.

Lemma tail_ok_info m m' lo lo' hi :
  tail_ok m lo hi -> lo <= lo' -> (forall v, lo' <= v -> space_info m' v = space_info m v) -> lo' < hi -> tail_ok m' lo' hi.
Proof.
  intros [H|H] Hle Hi Hlt.
  - left. intros v Hv. specialize (H v ltac:(lia)). specialize (Hi v ltac:(lia)). unfold space_info in Hi.
    destruct (rm_at m v) as [[]|]; [|done]. by destruct (rm_at m' v).
  - right. intros perm fl src fr. rewrite Hi by lia. apply H.
Qed.

(** [unmap] of whole pages, wherever they start. *)
Lemma uvm_unmap_any σ u vpn e :
  uvm_ok σ u -> 0 <= vpn < e -> e < user_pages -> mergeable (areas u) vpn e -> tail_ok (areas u) vpn e ->
  let call := uvm_unmap u (vpn * 4096) ((e - vpn) * 4096) σ in
  (rm_free (areas u) vpn e /\ call = Ret (Err EINVAL, u, σ)) \/
  (exists mid u' σ' c, call = Ret (Ok mid, u', σ') /\ vpn < c <= e /\ cut_out σ σ' u u' mid vpn c /\
     mergeable (areas u') c e /\
     forall k r a, vpn <= k < e -> rm_free (areas u) vpn k -> rm_at (areas u) k = Some (r, a) -> Z.min e (r_end r) <= c).
Proof.
  intros Hok Hv He Hmg Ht call. pose proof (uv_space _ _ Hok) as Hs. unfold call.
  destruct (page_span vpn e Hv He) as (E1 & E2 & E3 & E4).
  destruct (rm_at (areas u) vpn) as [[r a]|] eqn:Ea.
  - right. destruct (uvm_unmap_ok Small Small_low σ u (vpn * 4096) ((e - vpn) * 4096) r a Hok)
      as (mid & m & mem & c & E & Hc & Hmin & Hok' & Hk & Hm & _ & Hr & Hin & Hi & Hmg' & Hpg); rewrite ?E1, ?E2 in *; try done; try lia.
    exists mid, (with_areas u m), (with_mem σ mem), c. split; [done|]. split; [lia|]. split; [|split; [done|]].
    2:{ intros k r' a' Hkv Hfk Ek. destruct (decide (k = vpn)) as [->|]; [congruence|]. by rewrite Hfk in Ea by lia. }
    constructor; try done; [by rewrite Hr|]. intros v. rewrite frame_at_info.
    destruct ((vpn <=? v) && (v <? c)) eqn:Eb.
    + rewrite Hin by (bool_to_prop; lia). done.
    + destruct (frames mid !! v) eqn:Ev; [|done]. apply (ao_frames mid Hm) in Ev. rewrite Hr in Ev.
      unfold in_range in Ev. cbn [r_start r_end] in Ev. revert Eb. by zcmp.
  - destruct (rm_range_head 0 (areas u) vpn e) as [[Hfree Ees]|(r & a & es & Ees & Hrs & Hfree & Ea')];
      [apply Hs|lia|done|left|right].
    + split; [done|]. unfold uvm_unmap. rewrite E1, E2, E3. unfold try_union. rewrite E4.
      erewrite run_bind; [|unfold vm_lift; cbn [try_union_loop]; destruct (Z.ltb_spec vpn e); [|lia];
        rewrite (rm_get_at 0), Ea by apply Hs; done].
      cbn [snd]. unfold unmap_front. rewrite (rm_get_key_value_at 0), Ea by apply Hs. rewrite E4.
      erewrite run_bind; [|unfold vm_lift; rewrite Ees; done]. cbn. by destruct u.
    + destruct Ht as [Ht|Ht]; [by destruct (Ht vpn ltac:(lia))|].
      destruct (space_at _ _ _ _ Hs Ea') as (Ha & Hr & Hk1 & Hk2).
      destruct (uvm_unmap_gap σ u vpn e r a es Hok) as (mid & m' & mem & E & Hcut & Hsame); try done; try lia.
      exists mid, (with_areas u m'), (with_mem σ mem), (Z.min e (r_end r)). split; [done|]. split; [lia|].
      split; [done|]. split.
      2:{ intros k r' a' Hkv Hfk Ek. destruct (Z.lt_trichotomy k (r_start r)) as [?|[->|?]].
          - by rewrite Hfree in Ek by lia.
          - rewrite Ek in Ea'. injection Ea' as -> _. lia.
          - by rewrite Hfk in Ea' by lia. }
      intros k rk x r' y Hk. cbn [areas with_areas]. rewrite Hsame by lia. intros Ex Hex.
      pose proof (rm_at_range _ _ _ _ _ (so_map _ Hs) Ex). rewrite Hsame by lia. apply (Hmg k rk x); (done || lia).
Qed.

(** ** References *)

(** The frames of all pages, as one map. *)
Definition frame_map m : gmap Z Z := foldr (fun e fm => frames (n_value e.2) ∪ fm) ∅ m.

Lemma frame_map_at m v : space_ok m -> frame_map m !! v = frame_at m v.
Proof.
  intros [Hm Ha]. assert (Hin : forall s n, (s, n) ∈ m -> forall v p, frames (n_value n) !! v = Some p -> s <= v < n_end n).
  { intros s n He w p Hw. pose proof (rm_ok_bounds _ _ Hm) as [_ Hb]. specialize (Hb _ _ He).
    destruct (Ha s (mkRange s (n_end n)) (n_value n)) as [Hok Hr]; [apply (rm_at_some_in 0); (done || lia)|].
    apply (ao_frames _ Hok) in Hw. by rewrite Hr in Hw. }
  clear Ha. unfold frame_at. revert Hm Hin. generalize 0. induction m as [|[s n] m IH]; intros lo Hm Hin; [done|].
  destruct Hm as [Hs Hm]. cbn [frame_map foldr rm_at snd]. rewrite lookup_union.
  specialize (IH _ Hm ltac:(intros; eapply Hin; [by right|done])). fold (frame_map m). rewrite IH.
  destruct ((s <=? v) && (v <? n_end n)) eqn:Eb; cbn.
  - rewrite (rm_at_below (n_end n)) by (done || (bool_to_prop; lia)). cbn. by destruct (frames (n_value n) !! v).
  - destruct (frames (n_value n) !! v) eqn:Ev; [|by destruct (rm_at m v ≫= _)].
    destruct (Hin s n (list_elem_of_here _ _) v _ Ev). revert Eb. by zcmp.
Qed.

(** How many pages show the frame. *)
Definition pages_with (fm : gmap Z Z) (p : Z) : Z := Z.of_nat (size (filter (fun e => e.2 = p) fm)).

Lemma pages_with_nonneg fm p : 0 <= pages_with fm p.
Proof. unfold pages_with. lia. Qed.

Lemma pages_with_union fm1 fm2 p : fm1 ##ₘ fm2 -> pages_with (fm1 ∪ fm2) p = pages_with fm1 p + pages_with fm2 p.
Proof.
  intros Hd. unfold pages_with. rewrite map_filter_union, map_size_disj_union; [lia| |done].
  apply map_disjoint_filter. done.
Qed.

Lemma pages_with_one fm v p : fm !! v = Some p -> 1 <= pages_with fm p.
Proof.
  intros Hv. unfold pages_with. destruct (size (filter _ fm)) eqn:E; [|lia]. apply map_size_empty_inv in E.
  exfalso. assert (Hf : filter (fun e : Z * Z => e.2 = p) fm !! v = Some p) by by apply map_lookup_filter_Some.
  by rewrite E in Hf.
Qed.

Lemma occ_bt_iter fm p : occ p (bt_iter fm) = pages_with fm p.
Proof.
  unfold occ, pages_with. f_equal. rewrite bt_iter_perm, map_filter_alt.
  rewrite <- length_map_to_list, map_to_list_to_map; [done|]. apply (sublist_NoDup _ (map_to_list fm).*1); [apply NoDup_fst_map_to_list|].
  apply fmap_sublist, sublist_filter.
Qed.

(** Every count is the pages that show the frame plus what others hold; the zero
    page and the page caches hold theirs. *)
Record counted σ (fm : gmap Z Z) (held : Z -> Z) : Prop := {
  ct_count p x : mc_arcs σ !! p = Some x -> sp_rc x = pages_with fm p + held p;
  ct_held p : 0 <= held p;
  ct_zero : 0 < held zero_arc;
  ct_file k p : mc_file_pages σ !! k = Some p -> 0 < held p;
  ct_shm k p : mc_shm_pages σ !! k = Some p -> 0 < held p;
  ct_managed p x : mc_arcs σ !! p = Some x -> held p = 0 -> frames_of (sp_data x) ⊆ fa_managed (mc_fa σ);
}.

(** Returning a frame nobody uses to the allocator. *)
Lemma mc_ok_freed σ pt p x fa :
  mc_ok σ pt -> mc_arcs σ !! p = Some x -> p <> zero_arc ->
  (forall k, mc_file_pages σ !! k <> Some p) -> (forall k, mc_shm_pages σ !! k <> Some p) ->
  fa_wf fa -> fa_free fa = free σ ∪ frames_of (sp_data x) ->
  mc_ok (with_fa (with_arcs σ (delete p (mc_arcs σ))) fa) pt.
Proof.
  intros [Hpt Ha Hi (z & n & Hz & Hz0) Hc Hs] Hp Hpz Hpc Hps Hwf Hfr.
  destruct (Ha p x Hp) as (f & Ef & _ & Hff & Hft & _).
  assert (Hfree : forall g, g ∈ fa_free fa <-> g ∈ free σ \/ g = f).
  { intros g. rewrite Hfr, elem_of_union, elem_of_frames, Ef. cbn [one r_start r_end]. split; intros [?|?]; auto; right; lia. }
  constructor; cbn [mc_mem mc_fa mc_arcs mc_file_pages mc_shm_pages with_fa with_arcs].
  - apply (pt_frame (mc_mem σ) (mc_mem σ) (mc_fa σ)); try done. intros w Hw. rewrite Hfree. intros [H| ->].
    + destruct Hw as (q & Hq & E). by apply (pti_table _ _ _ Hpt q w).
    + by apply Hft.
  - intros q y [Hne Hq]%lookup_delete_Some. destruct (Ha q y Hq) as (g & Eg & Hppn & Hgf & Hgt & Hrc).
    exists g. do 2 (split; [done|]). split; [|done]. unfold free. cbn [mc_fa with_fa]. rewrite Hfree.
    intros [H| ->]; [done|]. apply Hne. apply (Hi p q x y); congruence.
  - intros q q' y y' [_ Hq]%lookup_delete_Some [_ Hq']%lookup_delete_Some. by apply (Hi q q').
  - exists z, n. split; [|done]. by rewrite lookup_delete_ne.
  - intros k q Hk. destruct (Hc k q Hk) as [y Hy]. exists y. rewrite lookup_delete_ne; [done|]. intros <-. by apply (Hpc k).
  - intros k q Hk. destruct (Hs k q Hk) as [y Hy]. exists y. rewrite lookup_delete_ne; [done|]. intros <-. by apply (Hps k).
Qed.

(** Nothing but pages of address spaces holds the frame. *)
Definition loose σ (p : Z) (x : StrongArcPayload Range) : Prop :=
  p <> zero_arc /\ (forall k, mc_file_pages σ !! k <> Some p) /\ (forall k, mc_shm_pages σ !! k <> Some p) /\
  frames_of (sp_data x) ⊆ fa_managed (mc_fa σ).

(** One handle dropped: the count goes down, and the last one frees the frame. *)
Lemma vm_arc_drop_ok σ pt p x :
  mc_ok σ pt -> mc_arcs σ !! p = Some x ->
  (sp_rc x = 1 -> loose σ p x) ->
  exists h fa, let σ' := with_fa (with_arcs σ h) fa in
    vm_arc_drop p σ = Ret (tt, σ') /\ mc_ok σ' pt /\ fa_managed fa = fa_managed (mc_fa σ) /\
    h = (if sp_rc x =? 1 then delete p (mc_arcs σ)
         else <[p := mkPayload (sp_data x) (sp_rc x - 1)]> (mc_arcs σ)) /\
    fa_free fa = (if sp_rc x =? 1 then free σ ∪ frames_of (sp_data x) else free σ).
Proof.
  intros Hok Hp Hlast. destruct (mo_arc σ pt Hok p x Hp) as (f & Ef & Hppn & Hff & Hft & Hrc).
  unfold vm_arc_drop, arc_drop, rc_fetch_sub, set_rc, arc_free, arc_get_owners. rewrite Hp. cbn [unwrap obind].
  rewrite wsub_small by (unfold is_usize, usize_max in *; lia).
  destruct (Z.eqb_spec (sp_rc x) 1) as [E1|Hne].
  - destruct (Hlast E1) as (Hz & Hpc & Hps & Hmg).
    destruct (fa_dealloc_law (mc_fa σ) (sp_data x)) as (fa & Ed & Hw & Hfr & Hm).
    { apply (pti_alloc _ _ _ (mo_pt σ pt Hok)). }
    { done. }
    { intros g. rewrite elem_of_frames, Ef. cbn [one r_start r_end]. intros Hg1 Hg2.
      replace g with f in Hg2 by lia. by apply Hff. }
    exists (delete p (mc_arcs σ)), fa. cbv zeta. split; [|split; [by apply (mc_ok_freed σ pt p x)|done]].
    rewrite lookup_insert_eq. cbn [unwrap obind]. rewrite delete_insert_eq. unfold vm_drop_trackers. cbn [vm_fold].
    unfold vm_drop_tracker, FrameTracker_drop. cbn [mc_fa with_arcs]. erewrite run_bind; [done|].
    cbn [mc_fa with_arcs sp_data]. by rewrite Ed.
  - exists (<[p := mkPayload (sp_data x) (sp_rc x - 1)]> (mc_arcs σ)), (mc_fa σ). cbv zeta.
    split; [by destruct σ|]. split; [|done].
    assert (E : with_fa (with_arcs σ (<[p := mkPayload (sp_data x) (sp_rc x - 1)]> (mc_arcs σ))) (mc_fa σ) =
      with_arcs σ (<[p := mkPayload (sp_data x) (sp_rc x - 1)]> (mc_arcs σ))) by by destruct σ.
    rewrite E. apply arcs_count_ok; (done || lia).
Qed.

(** What [n] drops leave of a payload. *)
Definition less (n : Z) (x : StrongArcPayload Range) : option (StrongArcPayload Range) :=
  if sp_rc x =? n then None else Some (mkPayload (sp_data x) (sp_rc x - n)).

(** The heap after one drop. *)
Definition dropped_once (h h1 : arc_heap Range) (p : Z) (x : StrongArcPayload Range) : Prop :=
  h !! p = Some x /\ forall q, h1 !! q = if bool_decide (p = q) then less 1 x else h !! q.

Lemma occ_head v p q (l : list (Z * Z)) : occ q ((v, p) :: l) = (if bool_decide (p = q) then 1 else 0) + occ q l.
Proof. apply occ_cons. Qed.

Lemma dropped_count h h1 v p x l q :
  dropped_once h h1 p x -> 1 + occ p l <= sp_rc x ->
  h !! q ≫= less (occ q ((v, p) :: l)) = h1 !! q ≫= less (occ q l).
Proof.
  intros [Ex Hh1] Hx. pose proof (occ_nonneg p l). rewrite Hh1, occ_head.
  case_bool_decide as Hq; [subst q|by rewrite Z.add_0_l]. rewrite Ex. cbn. unfold less at 2.
  unfold less. destruct (Z.eqb_spec (sp_rc x) 1); cbn [mbind option_bind].
  - destruct (Z.eqb_spec (sp_rc x) (1 + occ p l)); [done|lia].
  - cbn [sp_rc sp_data]. destruct (Z.eqb_spec (sp_rc x) (1 + occ p l)), (Z.eqb_spec (sp_rc x - 1) (occ p l)); try lia; [done|].
    do 2 f_equal. lia.
Qed.

(** The frames whose payload is gone after the drops of [l]. *)
Definition gone (h : arc_heap Range) (l : list (Z * Z)) (f : Z) : Prop :=
  exists p x, h !! p = Some x /\ sp_rc x = occ p l /\ sp_data x = one f.

Lemma dropped_gone h h1 v p x g l f :
  dropped_once h h1 p x -> 1 + occ p l <= sp_rc x -> sp_data x = one g ->
  (sp_rc x = 1 /\ f = g) \/ gone h1 l f <-> gone h ((v, p) :: l) f.
Proof.
  intros [Ex Hh1] Hx Hg. pose proof (occ_nonneg p l). split.
  - intros [[Er ->]|(q & y & Ey & Er & Ed)].
    + exists p, x. rewrite occ_head, bool_decide_true by done. split; [done|]. split; [lia|done].
    + rewrite Hh1 in Ey. case_bool_decide as Hq; [subst q|by exists q, y; rewrite occ_head, bool_decide_false].
      exists p, x. rewrite occ_head, bool_decide_true by done. unfold less in Ey. destruct (sp_rc x =? 1); [done|].
      injection Ey as <-. cbn [sp_rc sp_data] in *. split; [done|]. split; [lia|done].
  - intros (q & y & Ey & Er & Ed). rewrite occ_head in Er. case_bool_decide as Hq.
    + subst q. rewrite Ex in Ey. injection Ey as <-. destruct (Z.eqb_spec (sp_rc x) 1).
      * left. split; [done|]. rewrite Hg in Ed. injection Ed as Ed. done.
      * right. exists p, (mkPayload (sp_data x) (sp_rc x - 1)). rewrite Hh1, bool_decide_true by done. unfold less.
        destruct (Z.eqb_spec (sp_rc x) 1); [done|]. split; [done|]. cbn [sp_rc sp_data]. split; [lia|done].
    + right. exists q, y. rewrite Hh1, bool_decide_false by done. split; [done|]. split; [lia|done].
Qed.

Lemma drop_list_ok σ pt (l : list (Z * Z)) :
  mc_ok σ pt ->
  (forall p, 0 < occ p l -> exists x, mc_arcs σ !! p = Some x /\ occ p l <= sp_rc x /\ (sp_rc x = occ p l -> loose σ p x)) ->
  exists h fa, let σ' := with_fa (with_arcs σ h) fa in
    vm_fold (fun _ e => vm_arc_drop e.2) tt l σ = Ret (tt, σ') /\ mc_ok σ' pt /\
    fa_managed fa = fa_managed (mc_fa σ) /\ (forall p, h !! p = mc_arcs σ !! p ≫= less (occ p l)) /\
    (forall f, f ∈ fa_free fa <-> f ∈ free σ \/ gone (mc_arcs σ) l f).
Proof.
  revert σ. induction l as [|[v p] l IH]; intros σ Hok Hl.
  - exists (mc_arcs σ), (mc_fa σ). cbv zeta. assert (E : with_fa (with_arcs σ (mc_arcs σ)) (mc_fa σ) = σ) by by destruct σ.
    rewrite E. split; [done|]. split; [done|]. split; [done|]. split.
    + intros p. destruct (mc_arcs σ !! p) as [x|] eqn:Ex; [|done]. cbn. unfold less.
      destruct (mo_arc σ pt Hok p x Ex) as (_ & _ & _ & _ & _ & ?). destruct (Z.eqb_spec (sp_rc x) (occ p [])).
      * change (occ p []) with 0 in *. lia.
      * rewrite Z.sub_0_r. by destruct x.
    + intros f. split; [by left|]. intros [H|(p & x & Ex & Er & _)]; [done|].
      destruct (mo_arc σ pt Hok p x Ex) as (_ & _ & _ & _ & _ & ?). change (occ p []) with 0 in *. lia.
  - pose proof (occ_nonneg p l) as Hnn.
    assert (Hp : occ p ((v, p) :: l) = 1 + occ p l) by (rewrite occ_head; by rewrite bool_decide_true).
    destruct (Hl p ltac:(lia)) as (x & Ex & Hx & Hxl). rewrite Hp in Hx, Hxl.
    destruct (vm_arc_drop_ok σ pt p x Hok Ex) as (h1 & fa1 & E1 & Hok1 & Hm1 & -> & Hf1).
    { intros Er. apply Hxl. lia. }
    set (h1 := if sp_rc x =? 1 then _ else _) in *. set (σ1 := with_fa (with_arcs σ h1) fa1) in *.
    assert (Hh1 : dropped_once (mc_arcs σ) h1 p x).
    { split; [done|]. intros q. unfold h1, less. case_bool_decide as Hq; [subst q|]; destruct (sp_rc x =? 1);
        [apply lookup_delete_eq|apply lookup_insert_eq|by apply lookup_delete_ne|by apply lookup_insert_ne]. }
    destruct (IH σ1 Hok1) as (h & fa & E & Hok' & Hm & Hh & Hf).
    { intros q Hq. change (mc_arcs σ1) with h1. rewrite (proj2 Hh1). case_bool_decide as Hpq.
      - subst q. unfold less. destruct (Z.eqb_spec (sp_rc x) 1); [lia|]. eexists. split; [done|]. cbn [sp_rc]. split; [lia|].
        intros Er. destruct Hxl as (? & ? & ? & ?); [lia|]. split_and!; try done. cbn [sp_data σ1 mc_fa with_fa]. by rewrite Hm1.
      - destruct (Hl q) as (y & Ey & Hy & Hyl); [rewrite occ_head; case_bool_decide; lia|]. rewrite occ_head in Hy, Hyl.
        rewrite bool_decide_false in Hy, Hyl by done. exists y. split; [done|]. split; [lia|]. intros Er.
        destruct Hyl as (? & ? & ? & ?); [lia|]. split_and!; try done. cbn [σ1 mc_fa with_fa]. by rewrite Hm1. }
    exists h, fa. cbv zeta. split; [cbn [vm_fold]; by erewrite run_bind by exact E1|]. split; [exact Hok'|].
    split; [by rewrite Hm|]. split; [intros q; by rewrite Hh, (dropped_count _ h1 v p x l)|].
    intros f. destruct (mo_arc σ pt Hok p x Ex) as (g & Eg & _).
    rewrite Hf, <- (dropped_gone _ h1 v p x g l f) by done. unfold free at 1. cbn [σ1 mc_fa with_fa]. rewrite Hf1, Eg.
    change (mc_arcs σ1) with h1. destruct (Z.eqb_spec (sp_rc x) 1); [|tauto].
    rewrite elem_of_union, elem_of_frames. cbn [one r_start r_end]. change (fa_free (mc_fa σ)) with (free σ).
    assert (g <= f < g + 1 <-> f = g) by lia. tauto.
Qed.

Lemma pages_with_mono fm1 fm2 p : fm1 ⊆ fm2 -> pages_with fm1 p <= pages_with fm2 p.
Proof.
  intros Hs. unfold pages_with. apply Nat2Z.inj_le, map_subseteq_size. apply map_subseteq_spec. intros v q.
  rewrite !map_lookup_filter_Some. intros [Hv Hq]. split; [|done]. by apply (lookup_weaken fm1).
Qed.

Lemma pages_with_pos fm p : 0 < pages_with fm p -> exists v, fm !! v = Some p.
Proof.
  intros Hp. unfold pages_with in Hp. destruct (map_choose (filter (fun e : Z * Z => e.2 = p) fm)) as (v & q & Hv).
  - intros E. rewrite E, map_size_empty in Hp. lia.
  - apply map_lookup_filter_Some in Hv as [Hv Hq]. cbn in Hq. subst q. by exists v.
Qed.

(** A page's frame is counted. *)
Lemma frame_at_arc σ u v p :
  uvm_ok σ u -> frame_at (areas u) v = Some p -> reg_vpn v /\ exists f n, mc_arcs σ !! p = Some (mkPayload (one f) n).
Proof.
  intros Hu Hv. unfold frame_at in Hv. destruct (rm_at (areas u) v) as [[r a]|] eqn:Ea; [|done].
  by apply (stored_frames σ u v r a v p).
Qed.

(** What dropping frames does to the counts: [σ'] is left with the references of
    the map [fm] and of the others. *)
Record released σ σ' (fm : gmap Z Z) (held : Z -> Z) : Prop := {
  rl_counted : counted σ' fm held;
  rl_data p x : mc_arcs σ' !! p = Some x -> exists y, mc_arcs σ !! p = Some y /\ sp_data y = sp_data x;
  rl_gone p x : mc_arcs σ !! p = Some x -> mc_arcs σ' !! p = None <-> held p = 0 /\ pages_with fm p = 0;
  rl_free f : f ∈ free σ' <->
    f ∈ free σ \/ exists p x, mc_arcs σ !! p = Some x /\ sp_data x = one f /\ mc_arcs σ' !! p = None;
}.

Lemma released_trans σ1 σ2 σ3 fm2 fm3 held :
  released σ1 σ2 fm2 held -> released σ2 σ3 fm3 held -> fm3 ⊆ fm2 -> released σ1 σ3 fm3 held.
Proof.
  intros [C1 D1 G1 F1] [C2 D2 G2 F2] Hsub.
  assert (Hmono : forall p, pages_with fm2 p = 0 -> pages_with fm3 p = 0).
  { intros p Hp. pose proof (pages_with_mono fm3 fm2 p Hsub). pose proof (pages_with_nonneg fm3 p). lia. }
  assert (Hnone : forall p, mc_arcs σ2 !! p = None -> mc_arcs σ3 !! p = None).
  { intros p Hp. destruct (mc_arcs σ3 !! p) eqn:E; [|done]. destruct (D2 p _ E) as (y & Ey & _). congruence. }
  constructor; [done|..].
  - intros p x Ex. destruct (D2 p x Ex) as (y & Ey & Ed). destruct (D1 p y Ey) as (z & Ez & Ed'). exists z. split; [done|congruence].
  - intros p x Ex. destruct (mc_arcs σ2 !! p) as [y|] eqn:Ey; [by apply (G2 p y)|]. rewrite (Hnone p Ey). split; [intros _|done].
    destruct (proj1 (G1 p x Ex) Ey). auto.
  - intros f. rewrite F2, F1. split.
    + intros [[?|(p & x & Ex & Ed & En)]|(p & x & Ex & Ed & En)]; [by left|right; exists p, x; auto|right].
      destruct (D1 p x Ex) as (y & Ey & Ed'). exists p, y. split; [done|]. split; [congruence|done].
    + intros [?|(p & x & Ex & Ed & En)]; [by left; left|]. destruct (mc_arcs σ2 !! p) as [y|] eqn:Ey.
      * right. exists p, y. destruct (D1 p y Ey) as (z & Ez & Ed'). split; [done|]. split; [congruence|done].
      * left. right. by exists p, x.
Qed.

(** Dropping what was cut out. *)
Lemma area_drop_ok σ u mid held :
  uvm_ok σ u -> frames mid ##ₘ frame_map (areas u) -> counted σ (frames mid ∪ frame_map (areas u)) held ->
  (forall v p, frames mid !! v = Some p -> is_Some (mc_arcs σ !! p)) ->
  exists h fa, let σ' := with_fa (with_arcs σ h) fa in
    area_drop mid σ = Ret (tt, σ') /\ uvm_ok σ' u /\ released σ σ' (frame_map (areas u)) held.
Proof.
  intros Hok Hdis [Hcnt Hheld Hz Hfile Hshm Hmg] Hlive. set (fm := frame_map (areas u)) in *.
  assert (Hsum : forall p x, mc_arcs σ !! p = Some x -> sp_rc x = pages_with (frames mid) p + pages_with fm p + held p).
  { intros p x Ex. by rewrite (Hcnt p x Ex), pages_with_union. }
  assert (Hloose : forall p x, mc_arcs σ !! p = Some x -> held p = 0 -> loose σ p x).
  { intros p x Ex Hp. split_and!; [intros ->; lia|intros k Hk|intros k Hk|by apply (Hmg p)].
    - specialize (Hfile k p Hk). lia.
    - specialize (Hshm k p Hk). lia. }
  assert (Hnn : forall p, 0 <= pages_with fm p) by (intros; apply pages_with_nonneg).
  destruct (drop_list_ok σ (page_table u) (bt_iter (frames mid))) as (h & fa & E & Hmc & Hm & Hh & Hf).
  { apply Hok. }
  { intros p. rewrite occ_bt_iter. intros Hp. destruct (pages_with_pos _ _ Hp) as (v & Hv). destruct (Hlive v p Hv) as [x Ex].
    pose proof (Hsum p x Ex). pose proof (Hheld p). pose proof (Hnn p). exists x. split; [done|]. split; [lia|].
    intros Er. apply Hloose; [done|lia]. }
  unfold gone in Hf. setoid_rewrite occ_bt_iter in Hh. setoid_rewrite occ_bt_iter in Hf.
  assert (Hkeep : forall p x, mc_arcs σ !! p = Some x -> h !! p = None <-> held p = 0 /\ pages_with fm p = 0).
  { intros p x Ex. rewrite Hh, Ex. cbn. unfold less. pose proof (Hsum p x Ex). pose proof (Hheld p). pose proof (Hnn p).
    destruct (Z.eqb_spec (sp_rc x) (pages_with (frames mid) p)); split; (done || intros; lia). }
  assert (Hdata : forall p x, h !! p = Some x -> exists y, mc_arcs σ !! p = Some y /\ sp_data y = sp_data x /\
    sp_rc x = pages_with fm p + held p).
  { intros p x. rewrite Hh. destruct (mc_arcs σ !! p) as [y|] eqn:Ey; [|done]. cbn. unfold less. pose proof (Hsum p y Ey).
    destruct (_ =? _); [done|]. intros [= <-]. exists y. split; [done|]. split; [done|]. cbn. lia. }
  exists h, fa. cbv zeta. split; [exact E|]. split.
  - destruct Hok as [_ Hs Hw Hp]. constructor; [done..|]. intros v Hv. specialize (Hp v Hv).
    destruct (rm_at (areas u) v) as [[r a]|] eqn:Ea; [|done]. unfold shows in *. destruct (frames a !! v) as [p|] eqn:Ep; [|done].
    destruct Hp as (e & f & n & He & Hpa & Hr).
    assert (Hfv : fm !! v = Some p) by (unfold fm; rewrite frame_map_at by done; unfold frame_at; by rewrite Ea).
    pose proof (pages_with_one _ _ _ Hfv). destruct (h !! p) as [x|] eqn:Ex.
    + destruct (Hdata p x Ex) as (y & Ey & Ed & _). rewrite Hpa in Ey. injection Ey as <-. cbn in Ed.
      exists e, f, (sp_rc x). split; [done|]. split; [|done]. cbn [mc_arcs with_fa with_arcs]. rewrite Ex, Ed. by destruct x.
    + destruct (proj1 (Hkeep p _ Hpa) Ex). lia.
  - constructor; try done.
    + constructor; try done.
      * intros p x Ex. by destruct (Hdata p x Ex) as (_ & _ & _ & ?).
      * intros p x Ex Hp. destruct (Hdata p x Ex) as (y & Ey & Ed & _). cbn [mc_fa with_fa]. rewrite Hm, <- Ed. by apply (Hmg p).
    + intros p x Ex. destruct (Hdata p x Ex) as (y & Ey & Ed & _). by exists y.
    + intros f. unfold free at 1. cbn [mc_fa with_fa mc_arcs with_arcs]. rewrite Hf. split.
      * intros [?|(p & x & Ex & Er & Ed)]; [by left|]. right. exists p, x. split; [done|]. split; [done|].
        rewrite Hh, Ex. cbn. unfold less. by rewrite Er, Z.eqb_refl.
      * intros [?|(p & x & Ex & Ed & En)]; [by left|]. right. exists p, x. split; [done|]. split; [|done].
        destruct (proj1 (Hkeep p x Ex) En). pose proof (Hsum p x Ex). lia.
Qed.

(** The pages of a cut are those of the two parts. *)
Lemma cut_frame_map σ σ' u u' mid lo c :
  space_ok (areas u) -> cut_out σ σ' u u' mid lo c ->
  frame_map (areas u) = frames mid ∪ frame_map (areas u') /\ frames mid ##ₘ frame_map (areas u').
Proof.
  intros Hs Hc. pose proof (uv_space _ _ (co_ok _ _ _ _ _ _ _ Hc)) as Hs'.
  assert (Hl : forall v, frame_map (areas u') !! v = if (lo <=? v) && (v <? c) then None else frame_at (areas u) v).
  { intros v. rewrite frame_map_at, !frame_at_info, (co_info _ _ _ _ _ _ _ Hc) by done. by destruct (_ && _). }
  split.
  - apply map_eq. intros v. rewrite lookup_union, Hl, (co_frames _ _ _ _ _ _ _ Hc), frame_map_at by done.
    destruct (_ && _); [by destruct (frame_at (areas u) v)|by destruct (frame_at (areas u) v)].
  - apply map_disjoint_spec. intros v p q. rewrite Hl, (co_frames _ _ _ _ _ _ _ Hc). by destruct (_ && _).
Qed.

(** What [munmap] has done to the pages of [lo, hi). *)
Record munmapped σ σ' u u' (lo hi : Z) (held : Z -> Z) : Prop := {
  mu_ok : uvm_ok σ' u';
  mu_table : page_table u' = page_table u;
  mu_info v : space_info (areas u') v = if (lo <=? v) && (v <? hi) then None else space_info (areas u) v;
  mu_released : released σ σ' (frame_map (areas u')) held;
  mu_mem w k : w ∉ free σ' -> ~ own σ (page_table u) w -> mc_mem σ' w k = mc_mem σ w k;
  mu_own w : own σ' (page_table u) w -> own σ (page_table u) w;
  mu_pages v : reg_vpn v -> ~ lo <= v < hi -> page_of σ' (page_table u) v = page_of σ (page_table u) v;
}.

Lemma munmapped_none σ u lo hi held :
  uvm_ok σ u -> counted σ (frame_map (areas u)) held -> rm_free (areas u) lo hi -> munmapped σ σ u u lo hi held.
Proof.
  intros Hok Hc Hfree. constructor; try done.
  - intros v. destruct ((lo <=? v) && (v <? hi)) eqn:Eb; [|done]. unfold space_info. rewrite Hfree; [done|]. bool_to_prop. lia.
  - constructor; [done| | |].
    + intros p x Ex. by exists x.
    + intros p x Ex. rewrite Ex. split; [done|]. intros [H1 H2]. pose proof (ct_count _ _ _ Hc p x Ex).
      destruct (mo_arc _ _ (uv_mc _ _ Hok) p x Ex) as (_ & _ & _ & _ & _ & ?). lia.
    + intros f. split; [by left|]. intros [?|(p & x & Ex & _ & En)]; [done|congruence].
Qed.

Lemma frame_map_mono m m' :
  space_ok m -> space_ok m' -> (forall v, space_info m' v = None \/ space_info m' v = space_info m v) -> frame_map m' ⊆ frame_map m.
Proof.
  intros Hs Hs' Hi. apply map_subseteq_spec. intros v p. rewrite !frame_map_at, !frame_at_info by done.
  by destruct (Hi v) as [-> | ->].
Qed.

Lemma counted_mem σ fm held mem : counted σ fm held -> counted (with_mem σ mem) fm held.
Proof. intros []. by constructor. Qed.

(** One turn: the part that was cut out is dropped. *)
Lemma munmap_turn σ σ1 u u1 mid lo c held :
  uvm_ok σ u -> counted σ (frame_map (areas u)) held -> cut_out σ σ1 u u1 mid lo c ->
  exists σ2, area_drop mid σ1 = Ret (tt, σ2) /\ munmapped σ σ2 u u1 lo c held /\ counted σ2 (frame_map (areas u1)) held.
Proof.
  intros Hok Hcnt Hcut. destruct (cut_frame_map _ _ _ _ _ _ _ (uv_space _ _ Hok) Hcut) as [Efm Hdis].
  pose proof Hcut as [Hok1 Hk Ht Hσ _ Hfr Hi Hpg]. rewrite Efm in Hcnt.
  assert (Hlive : forall v p, frames mid !! v = Some p -> is_Some (mc_arcs σ !! p)).
  { intros v p. rewrite Hfr. destruct (_ && _); [|done]. intros Hv.
    destruct (frame_at_arc σ u v p Hok Hv) as (_ & f & n & ->). by eexists. }
  destruct (area_drop_ok σ1 u1 mid held Hok1 Hdis) as (h & fa & E & Hok2 & Hrel).
  { rewrite Hσ. by apply counted_mem. }
  { intros v p Hv. rewrite Hσ. by apply (Hlive v). }
  set (σ2 := with_fa (with_arcs σ1 h) fa) in *. exists σ2. split; [done|]. split; [|apply Hrel].
  assert (Hrel' : released σ σ2 (frame_map (areas u1)) held).
  { rewrite Hσ in Hrel. by destruct Hrel as [? ? ? ?]; constructor. }
  rewrite Ht in Hk. constructor; try done.
  - intros w k Hw Ho. change (mc_mem σ2) with (mc_mem σ1). apply (k_mem _ _ _ _ Hk); [|done]. intros Hf. apply Hw.
    apply (rl_free _ _ _ _ Hrel'). by left.
  - intros w Hw. destruct (k_own _ _ _ _ Hk w Hw) as [|[? Hn]]; [done|]. destruct Hn. by rewrite Hσ.
Qed.

Lemma munmapped_trans σ1 σ2 σ3 u1 u2 u3 lo c hi held :
  uvm_ok σ1 u1 -> munmapped σ1 σ2 u1 u2 lo c held -> munmapped σ2 σ3 u2 u3 c hi held -> lo <= c <= hi ->
  munmapped σ1 σ3 u1 u3 lo hi held.
Proof.
  intros Hok [O1 T1 I1 R1 M1 W1 P1] [O2 T2 I2 R2 M2 W2 P2] Hc. constructor; [done|congruence|..].
  - intros v. rewrite I2, I1. zcmp; cbn [andb]; done || lia.
  - apply (released_trans _ σ2 _ (frame_map (areas u2))); [done..|]. apply frame_map_mono; [apply O1|apply O2|].
    intros v. rewrite I2. destruct (_ && _); [by left|by right].
  - intros w k Hw Ho. rewrite T1 in *. rewrite M2, M1; [done| |done|done|auto].
    intros Hf. apply Hw. apply (rl_free _ _ _ _ R2). by left.
  - intros w Hw. rewrite T1 in *. auto.
  - intros v Hv Hn. rewrite T1 in *. rewrite P2, P1; [done|done|lia|done|lia].
Qed.

Lemma shorten_pages hi cur c :
  0 <= cur <= c -> c <= hi -> hi < user_pages -> shorten ((hi - cur) * 4096) c cur = (hi - c) * 4096.
Proof.
  intros Hc Hh Hu. destruct user_half as (_ & _ & _ & Hmax). unfold shorten. rewrite page_size_bits.
  rewrite (wsub_small c cur) by (unfold is_usize; lia). unfold wshl. rewrite Z.shiftl_mul_pow2 by lia.
  change (2 ^ 12) with 4096. rewrite wrap_small by (unfold is_usize; lia).
  rewrite wsub_small by (unfold is_usize; lia). lia.
Qed.

Lemma munmap_loop_ok fuel σ u cur hi held :
  (Z.to_nat (hi - cur) < fuel)%nat -> uvm_ok σ u -> counted σ (frame_map (areas u)) held ->
  0 <= cur <= hi -> hi < user_pages -> mergeable (areas u) cur hi -> tail_ok (areas u) cur hi ->
  exists u' σ', munmap_loop fuel u cur hi ((hi - cur) * 4096) σ = Ret (Some u', σ') /\ munmapped σ σ' u u' cur hi held.
Proof.
  revert σ u cur. induction fuel as [|fuel IH]; intros σ u cur Hfuel Hok Hcnt Hcur Hhi Hmg Htl; [lia|].
  cbn [munmap_loop]. destruct (Z.ltb_spec cur hi).
  2:{ exists u, σ. split; [done|]. apply munmapped_none; [done..|]. intros k Hk. lia. }
  rewrite user_start_addr by lia.
  destruct (uvm_unmap_any σ u cur hi Hok ltac:(lia) Hhi Hmg Htl)
    as [[Hfree E]|(mid & u1 & σ1 & c & E & Hc & Hcut & Hmg1 & _)].
  { exists u, σ. split; [by erewrite run_bind by exact E|]. by apply munmapped_none. }
  destruct (munmap_turn σ σ1 u u1 mid cur c held Hok Hcnt Hcut) as (σ2 & Ed & Hm & Hcnt2).
  assert (Htl1 : c < hi -> tail_ok (areas u1) c hi).
  { intros Hlt. apply (tail_ok_info (areas u) _ cur); [done|lia| |done]. intros v Hv. rewrite (co_info _ _ _ _ _ _ _ Hcut).
    destruct (Z.ltb_spec v c); [lia|]. by rewrite andb_false_r. }
  destruct (IH σ2 u1 c) as (u' & σ' & E' & Hm'); [lia|apply Hm|done|lia|done|done| |].
  { destruct (decide (c < hi)); [by apply Htl1|]. left. intros v Hv. lia. }
  exists u', σ'. split; [|apply (munmapped_trans _ σ2 _ _ u1 _ _ c); (done || lia)].
  erewrite run_bind by exact E. cbn [fst snd]. rewrite (co_end _ _ _ _ _ _ _ Hcut).
  erewrite run_bind by exact Ed. by rewrite shorten_pages by lia.
Qed.

Lemma page_round_val len : 0 < len -> len + 4095 < 2 ^ 64 -> page_round len = (len + 4095) / 4096 * 4096.
Proof.
  intros Hl Hb. unfold page_round. rewrite page_size_val.
  rewrite wsub_small, wadd_small by (unfold is_usize; rewrite ?wsub_small by (unfold is_usize; lia); lia).
  change (4096 - 1) with (2 ^ 12 - 1). rewrite land_wnot_round by (unfold is_usize; lia).
  change (2 ^ 12) with 4096. div_lia.
Qed.

(** The calls' range of whole pages. *)
Lemma call_span va len :
  0 <= va -> va mod 4096 = 0 -> 0 < len -> va + len + 4096 <= (user_pages - 1) * 4096 ->
  let lo := va / 4096 in let hi := (va + len + 4095) / 4096 in
  va = lo * 4096 /\ 0 <= lo < hi /\ hi < user_pages /\ (len + 4095) / 4096 * 4096 = (hi - lo) * 4096 /\
  VirtAddr_floor va = lo /\ VirtAddr_ceil (VirtAddr_add va ((hi - lo) * 4096)) = hi.
Proof.
  intros Hva Hal Hlen Hend lo hi. assert (Hlo : va = lo * 4096) by (unfold lo; div_lia).
  assert (H : 0 <= lo < hi /\ hi < user_pages /\ (len + 4095) / 4096 = hi - lo) by (unfold hi; div_lia).
  destruct H as (H1 & H2 & H3). rewrite H3. destruct (page_span lo hi H1 H2) as (E1 & E2 & _).
  rewrite <- Hlo in E1, E2. done.
Qed.


End Unmap.

(** ** A concrete run *)

(** The zero page is held by itself, nothing else by anybody. *)
Definition demo_held (p : Z) : Z := if p =? 1 then 1 else 0.

Abbreviation demo_counted := (counted (FL := small_laws) (FS := demo_files)) (only parsing).

(** The heap of four pages with its second page on the zero frame, which is counted
    twice. *)
Lemma counted_space :
  exists (σ : Machine (BitMapFrameAllocator (B := set_alloc))) u, demo_uvm σ u /\ areas u = touched_areas /\
    demo_counted σ (frame_map (areas u)) demo_held /\ mc_arcs σ = {[ 1 := mkPayload (one 0x80200) 2 ]}.
Proof.
  destruct demo_machine as (f & m & a & Hok & Hs & Hl & _). set (σ0 := mkMachine m a _ _ _ _) in *.
  assert (Hok1 : demo_ok (with_arcs σ0 {[ 1 := mkPayload (one 0x80200) 2 ]}) (mkPT f [mkRange f (f + 1)])).
  { pose proof (arcs_count_ok (FL := small_laws) (FS := demo_files) σ0 _ 1 (mkPayload (one 0x80200) 1) 2 Hok) as H.
    cbn [mc_arcs σ0 sp_data] in H. unfold demo_arcs in H. rewrite insert_singleton_eq in H. by apply H. }
  set (σ1 := with_arcs σ0 _) in *. set (u0 := mkUvm (mkPT f [mkRange f (f + 1)]) [] 0x20000).
  assert (Hu0 : demo_uvm σ1 u0) by (constructor; [done..|]; intros v _; apply Hl).
  destruct (push_area_frames (C := riscv64) (WL := rv_walk_laws) (FL := small_laws) (FS := demo_files)
    (GL := set_fresh_laws) rv_Small eq_refl σ1 u0 0x20 (mkNode 0x24 touched_heap) Hu0) as (pt' & m1 & a1 & _ & Hu1 & _).
  { by vm_compute. } { apply touched_heap_ok. } { by vm_compute. } { by vm_compute. }
  { intros v p. cbn. rewrite lookup_singleton_Some. intros [_ <-]. by exists 0x80200, 2. }
  { change (free σ1) with (bm_free a). etransitivity; [|exact Hs]. apply Nat.leb_le. by vm_compute. }
  eexists _, _. split; [exact Hu1|]. split; [done|]. split; [|done].
  constructor; try done; cbn [mc_arcs with_fa with_mem with_arcs σ1].
  - intros p x. rewrite lookup_singleton_Some. intros [<- <-]. by vm_compute.
  - intros p. unfold demo_held. destruct (p =? 1); lia.
  - intros p x. rewrite lookup_singleton_Some. by intros [<- _].
Qed.

Lemma touched_single lo hi : mergeable (C := riscv64) touched_areas lo hi.
Proof.
  intros k r x r' y Hk. cbn. destruct (_ && _); [|done]. intros [= <- <-]. cbn [r_end].
  intros _ H. exfalso. revert H. by vm_compute.
Qed.

