(* ===== verification/ProtectProofs.v ===== *)
(** [sys_mprotect] over mapped pages (os/src/syscall/mm.rs): the loop cuts areas out
    and puts them back with the new permissions; frames, counts and the allocator
    stay as they were, and copy-on-write pages stay read-only. *)

From S2P Require Import Prelude HalConst Errno Addr Pte FrameAlloc PageTable RangeMap StrongArc.
From S2P Require Import Vma PageFault FaultProofs UserVm UserVmProofs ForkProofs Shm MmCalls UnmapProofs.

#[local] Open Scope Z_scope.
#[local] Existing Instance user_region.

Section Protect.
Context {C : ConstantsHal} {CL : ConstantsLaws C} {P : PageTableEntryHal} {L : PteLaws C P}.
Context {W : WalkHal} {V : PageLevelHal} {WL : WalkLaws C P L W V}.
Context {A : Type} {F : FrameAllocatorHal A} {FL : FrameAllocatorLaws C A}.
Context {G : GlobalAlloc} {GL : GlobalAllocLaws G} {FS : FileStore}.
Context (Small : PageLevel) (Small_low : lowest Small = true).
Implicit Types (σ : Machine A) (u : UserVmSpace) (m : RangeMap UserVmArea).

(** A page's description with other permissions. *)
Definition reperm (perm : Z) (i : UserVmAreaType * Z * Z * page_source * option Z) :
    UserVmAreaType * Z * Z * page_source * option Z :=
  let '(t, _, flags, src, fr) := i in (t, perm, flags, src, fr).

(** The permissions the table gives to a page of [n] owners. *)
Definition entry_perm (perm flags n : Z) : Z :=
  if (1 <? n) && negb (contains flags SHARED) then bf_remove perm MapPerm_W else perm.

Lemma with_perm_ok a perm : area_ok a -> area_ok (with_perm a perm).
Proof. intros []. by constructor. Qed.

Lemma page_info_perm a perm v : page_info (with_perm a perm) v = reperm perm (page_info a v).
Proof. done. Qed.

(** The pages [lo, hi) have got the permissions, all else is as before. *)
Record reprotected σ σ' u u' (lo hi perm : Z) : Prop := {
  rp_ok : uvm_ok σ' u';
  rp_keeps : keeps σ σ' (page_table u) (page_table u');
  rp_arcs : mc_arcs σ' = mc_arcs σ;
  rp_fa : mc_fa σ' = mc_fa σ;
  rp_info v : space_info (areas u') v =
    if (lo <=? v) && (v <? hi) then reperm perm <$> space_info (areas u) v else space_info (areas u) v;
  rp_pages v : reg_vpn v -> ~ lo <= v < hi -> page_of σ' (page_table u') v = page_of σ (page_table u) v;
  rp_entry v t p0 flags src p f n : lo <= v < hi -> space_info (areas u) v = Some (t, p0, flags, src, Some p) ->
    mc_arcs σ !! p = Some (mkPayload (one f) n) ->
    exists e, page_of σ' (page_table u') v = Some e /\ v_valid (pte_view_of e) = true /\
      v_ppn (pte_view_of e) = f /\ v_perm (pte_view_of e) = entry_perm perm flags n;
}.

Lemma reprotected_none σ u lo perm : uvm_ok σ u -> reprotected σ σ u u lo lo perm.
Proof.
  intros Hok. constructor; try done; [apply keeps_refl| |intros; lia]. intros v. destruct (_ && _) eqn:?; [bool_to_prop; lia|done].
Qed.

Lemma reprotected_trans σ1 σ2 σ3 u1 u2 u3 lo c hi perm :
  reprotected σ1 σ2 u1 u2 lo c perm -> reprotected σ2 σ3 u2 u3 c hi perm -> lo <= c <= hi ->
  0 <= lo -> hi < user_pages -> reprotected σ1 σ3 u1 u3 lo hi perm.
Proof.
  intros [O1 K1 A1 F1 I1 P1 E1] [O2 K2 A2 F2 I2 P2 E2] Hc Hlo Hhi.
  constructor; [done|by eapply keeps_trans|congruence|congruence|..].
  - intros v. rewrite I2, I1. zcmp; cbn [andb]; done || lia.
  - intros v Hv Hn. rewrite P2, P1; [done|done|lia|done|lia].
  - intros v t p0 flags src p f n Hv Hi Hp. destruct (decide (v < c)).
    + destruct (E1 v t p0 flags src p f n ltac:(lia) Hi Hp) as (e & He & Hr). exists e. split; [|done].
      rewrite P2; [done|apply user_reg; lia|lia].
    + apply (E2 v t p0 flags src p f n); [lia| |by rewrite A1]. rewrite I1. zcmp; cbn [andb]; (done || lia).
Qed.

(** The tables of a page that shows a frame exist. *)
Lemma present_walk σ u v p :
  uvm_ok σ u -> frame_at (areas u) v = Some p ->
  reg_vpn v /\ walk (mc_mem σ) (root_ppn (page_table u)) (dir_path v) <> None.
Proof.
  intros Hok Hf. destruct (frame_at_arc σ u v p Hok Hf) as [Hreg _]. split; [done|].
  pose proof (uv_page _ _ Hok v Hreg) as Hp. unfold frame_at in Hf. destruct (rm_at (areas u) v) as [[r a]|]; [|done].
  cbn in Hf. unfold shows in Hp. rewrite Hf in Hp. destruct Hp as (e & f & n & He & _). unfold page_of, pt_lookup, slot in He.
  by destruct (walk _ _ _).
Qed.

(** One turn. *)
Lemma mprotect_turn σ u cur hi perm :
  uvm_ok σ u -> is_perm perm -> 0 <= cur < hi -> hi < user_pages -> rm_at (areas u) cur <> None ->
  mergeable (areas u) cur hi ->
  exists vma u1 σ1 u2 σ2 c, uvm_unmap u (cur * 4096) ((hi - cur) * 4096) σ = Ret (Ok vma, u1, σ1) /\
    r_end (range_vpn vma) = c /\ push_area Small u1 (with_perm vma perm) None σ1 = Ret (u2, σ2) /\
    cur < c <= hi /\ reprotected σ σ2 u u2 cur c perm /\ mergeable (areas u2) c hi.
Proof.
  intros Hok Hperm Hcur Hhi Hat Hmg. destruct (rm_at (areas u) cur) as [[r a]|] eqn:Ea; [|done].
  destruct (page_span cur hi Hcur Hhi) as (E1 & E2 & _).
  destruct (uvm_unmap_ok Small Small_low σ u (cur * 4096) ((hi - cur) * 4096) r a Hok)
    as (mid & m & mem & c & E & Hc & _ & Hok1 & Hk & Hm & Hwf & Hr & Hin & Hi & Hmg1 & Hpg);
    rewrite ?E1, ?E2 in *; try done; try lia.
  set (σ1 := with_mem σ mem) in *. set (u1 := with_areas u m) in *.
  assert (Hfr : forall v p, frames mid !! v = Some p -> cur <= v < c /\ frame_at (areas u) v = Some p).
  { intros v p Hv. pose proof (ao_frames mid Hm v p Hv) as Hv'. rewrite Hr in Hv'. unfold in_range in Hv'.
    cbn [r_start r_end] in Hv'. split; [done|]. rewrite frame_at_info, Hin by done. done. }
  assert (Hnone : forall v, cur <= v < c -> rm_at m v = None).
  { intros v Hv. specialize (Hi v). unfold space_info in Hi. destruct (rm_at m v) as [[]|]; [|done].
    revert Hi. by zcmp. }
  assert (Hwk : forall v, is_Some (frames mid !! v) -> walk (mc_mem σ1) (root_ppn (page_table u1)) (dir_path v) <> None).
  { intros v [p Hv]. destruct (Hfr v p Hv) as [Hv' Hf]. destruct (present_walk σ u v p Hok Hf) as [Hreg Hwk].
    destruct (walk (mc_mem σ) (root_ppn (page_table u)) (dir_path v)) as [t|] eqn:Et; [|done].
    change (walk (mc_mem σ1) (root_ppn (page_table u)) (dir_path v) <> None).
    by rewrite (k_walk _ _ _ _ Hk _ t (dir_node v Hreg) Et). }
  destruct (push_area_at Small Small_low σ1 u1 (with_perm mid perm) (mkRange cur c) Hok1)
    as (m1 & pt' & mem2 & fa & E3 & E4 & Hok2 & Hk2 & Hat2 & Hpg2 & Hpe & _ & Heq);
    cbn [r_start r_end frames with_perm map_flags areas] in *; try done.
  { by apply with_perm_ok. }
  { split; [done|apply Hwf]. }
  { intros v p Hv. destruct (Hfr v p Hv) as [_ Hf]. by destruct (frame_at_arc σ u v p Hok Hf). }
  { left. exact Hwk. }
  specialize (Heq Hwk). set (σ2 := with_fa (with_mem σ1 mem2) fa) in *. set (u2 := mkUvm pt' _ _) in *.
  exists mid, u1, σ1, u2, σ2, c. split; [exact E|]. split; [by rewrite Hr|]. split; [exact E4|]. split; [lia|].
  assert (Hinfo : forall v, space_info (areas u2) v =
    if (cur <=? v) && (v <? c) then reperm perm <$> space_info (areas u) v else space_info (areas u) v).
  { intros v. unfold space_info at 1. rewrite Hat2. destruct ((cur <=? v) && (v <? c)) eqn:Eb.
    - rewrite Hin by (bool_to_prop; lia). done.
    - specialize (Hi v). by rewrite Eb in Hi. }
  split; [constructor; try done|].
  - by eapply keeps_trans.
  - intros v Hv Hn. rewrite Hpg2; [by apply Hpg|done|done].
  - intros v t p0 flags src p f n Hv Hsi Hp. rewrite Hin in Hsi by done. injection Hsi as _ _ Efl _ Efr.
    destruct (Hpe v p f n Efr Hp) as (e & He & Hval & Hppn & Hpm). exists e. do 3 (split; [done|]).
    rewrite Hpm. unfold child_perm, entry_perm, shared. by rewrite <- Efl.
  - intros k rk x r' y Hkk. rewrite Hat2. destruct (Z.ltb_spec k c); [lia|]. rewrite andb_false_r. intros Ex Hex.
    pose proof (rm_at_range _ _ _ _ _ (so_map _ (uv_space _ _ Hok1)) Ex). rewrite Hat2.
    destruct (Z.ltb_spec (r_end rk) c); [lia|]. rewrite andb_false_r. apply (Hmg1 k rk x); (done || lia).
Qed.

Lemma mprotect_loop_ok fuel σ u cur hi perm :
  (Z.to_nat (hi - cur) < fuel)%nat -> uvm_ok σ u -> is_perm perm -> 0 <= cur <= hi -> hi < user_pages ->
  (forall v, cur <= v < hi -> rm_at (areas u) v <> None) -> mergeable (areas u) cur hi ->
  exists u' σ', mprotect_loop Small fuel u cur hi ((hi - cur) * 4096) perm σ = Ret (Some u', σ') /\
    reprotected σ σ' u u' cur hi perm.
Proof.
  revert σ u cur. induction fuel as [|fuel IH]; intros σ u cur Hfuel Hok Hperm Hcur Hhi Hcov Hmg; [lia|].
  cbn [mprotect_loop]. destruct (Z.ltb_spec cur hi).
  2:{ exists u, σ. split; [done|]. replace hi with cur by lia. by apply reprotected_none. }
  rewrite user_start_addr by lia.
  destruct (mprotect_turn σ u cur hi perm Hok Hperm ltac:(lia) Hhi (Hcov cur ltac:(lia)) Hmg)
    as (vma & u1 & σ1 & u2 & σ2 & c & E1 & Ec & E2 & Hc & Hrp & Hmg2).
  destruct (IH σ2 u2 c) as (u' & σ' & E & Hrp'); [lia|apply Hrp|done|lia|done| |done|].
  { intros v Hv. specialize (Hcov v ltac:(lia)). pose proof (rp_info _ _ _ _ _ _ _ Hrp v) as Hi.
    destruct (Z.ltb_spec v c); [lia|]. rewrite andb_false_r in Hi. unfold space_info in Hi.
    destruct (rm_at (areas u) v) as [[]|]; [|done]. by destruct (rm_at (areas u2) v). }
  exists u', σ'. split; [|apply (reprotected_trans _ σ2 _ _ u2 _ _ c); (done || lia)].
  erewrite run_bind by exact E1. cbn [fst snd]. rewrite Ec. erewrite run_bind by exact E2.
  by rewrite shorten_pages by lia.
Qed.

Lemma MapPerm_from_perm prot : is_perm (MapPerm_from prot).
Proof. unfold MapPerm_from. repeat case_match; by vm_compute. Qed.


End Protect.

