(* ===== verification/MmClaims.v ===== *)
(** What the memory system calls do (os/src/syscall/mm.rs): mmap composed from the
    descriptor table, shared memory and the address space, and where munmap,
    mprotect and mremap do not do what they are meant to. *)

From S2P Require Import Prelude HalConst Errno Addr Pte FrameAlloc PageTable RangeMap StrongArc FdTable.
From S2P Require Import Vma PageFault FaultProofs UserVm UserVmProofs ForkProofs Shm MmCalls UnmapProofs ProtectProofs.

#[local] Open Scope Z_scope.
#[local] Existing Instance user_region.

Section Claims.
Context {C : ConstantsHal} {CL : ConstantsLaws C} {P : PageTableEntryHal} {L : PteLaws C P}.
Context {W : WalkHal} {V : PageLevelHal} {WL : WalkLaws C P L W V}.
Context {A : Type} {F : FrameAllocatorHal A} {FL : FrameAllocatorLaws C A}.
Context {G : GlobalAlloc} {GL : GlobalAllocLaws G} {FS : FileStore}.
Context (Small : PageLevel) (Small_low : lowest Small = true).
Implicit Types (σ : Machine A) (u : UserVmSpace) (m : RangeMap UserVmArea).

(** ** mmap *)

Lemma as_isize_user lo : 0 <= lo < user_pages -> as_isize (lo * 4096) = lo * 4096.
Proof.
  intros Hl. destruct user_half as (_ & _ & _ & Hm). unfold as_isize.
  destruct (Z.ltb_spec (lo * 4096) (2 ^ 63)); [done|]. assert (2 ^ 62 < 2 ^ 63) by (by vm_compute). lia.
Qed.

(** A mapping outside MAP_FIXED goes to the lowest gap of its window, if there is
    one. *)
Definition lands σ u (t : mmap_target) (perm flags n : Z) (r : result Z SysError * UserVmSpace) : Prop :=
  let w := mmap_window t in
  (exists s u', r = (Ok (s * 4096), u') /\ placed σ u u' s (s + n) (mmap_info perm flags t s) /\
     r_start w <= s * 4096 /\ (s + n) * 4096 <= r_end w /\
     forall y, r_start w <= y * 4096 -> (y + n) * 4096 <= r_end w -> rm_free (areas u) y (y + n) -> s <= y) \/
  ((forall y, r_start w <= y * 4096 -> (y + n) * 4096 <= r_end w -> ~ rm_free (areas u) y (y + n)) /\
   r = (Err ENOMEM, u)).

Lemma mmap_alloc_lands σ u addr length perm flags t shm :
  layout_ok C -> uvm_ok σ u -> is_perm perm -> 0 <= addr < user_pages * 4096 -> 0 < length ->
  length + 16384 < user_pages * 4096 -> target_ok t flags (length + 16384) -> contains flags MAP_FIXED = false ->
  exists r, (r ← mmap_alloc Small u addr length perm flags t; mret (with_vm shm r)) σ = Ret (r.1, mkMm r.2 shm, σ) /\
    lands σ u t perm flags ((addr mod 4096 + length + 4095) / 4096) r.
Proof.
  intros Hlay Hok Hp Ha Hl Hb Ht Hf.
  pose proof (mmap_placement Small σ u addr length perm flags t Hlay Hok Hp Ha Hl Hb Ht) as H.
  rewrite Hf in H. destruct H as [(s & u' & E & Hpl & Hw)|[Hno E]]; [done|..].
  - exists (Ok (s * 4096), u'). split; [|left; by exists s, u']. erewrite run_bind by exact E. unfold with_vm, ok_addr. cbn [fst snd].
    assert (Hs : 0 <= s < user_pages).
    { destruct Hw as (Hw1 & Hw2 & _). destruct (window_layout t Hlay) as (Hw3 & Hw4 & _ & Hw5).
      assert (0 < (addr mod 4096 + length + 4095) / 4096) by div_lia. lia. }
    by rewrite as_isize_user.
  - exists (Err ENOMEM, u). split; [|by right]. by erewrite run_bind by exact E.
Qed.

(** The flags decide the sharing. *)
Lemma kind_shared flags : Z.land flags MAP_TYPE_MASK = MAP_SHARED -> contains flags MAP_SHARED = true.
Proof.
  intros E. unfold contains. apply Z.eqb_eq. rewrite <- E at 2. unfold MAP_TYPE_MASK, MAP_SHARED in *.
  rewrite E. change 1 with (Z.land 3 1). by rewrite Z.land_assoc, E.
Qed.

Lemma kind_private flags : Z.land flags MAP_TYPE_MASK = MAP_PRIVATE -> contains flags MAP_SHARED = false.
Proof.
  intros E. unfold contains. apply Z.eqb_neq. unfold MAP_TYPE_MASK, MAP_SHARED, MAP_PRIVATE in *.
  change 1 with (Z.land 3 1) at 1. rewrite Z.land_assoc, E. done.
Qed.

(** C14: [sys_mmap] without MAP_FIXED.  The sharing type must be one of the two, a file
    mapping needs an open descriptor, and a shared anonymous one gets a segment
    of its own, made before the address is known; otherwise the call fails with
    EINVAL or EBADF and maps nothing.  The mapping goes to the lowest gap of its
    window that is large enough, with the permissions, sharing and backing asked
    for and no page present yet; every other page is as before; if there is no
    such gap the call fails with ENOMEM. *)
Theorem mmap_call fds pid now s addr length prot flags fd offset σ :
  layout_ok C -> uvm_ok σ (mm_vm s) -> 0 <= addr < user_pages * 4096 -> 0 < length ->
  length + 16384 < user_pages * 4096 -> 0 <= offset -> offset mod 4096 = 0 -> offset + length + 16384 < 2 ^ 64 ->
  let fl := MmapFlags_truncate flags in
  let perm := MapPerm_from (MmapProt_truncate prot) in
  let n := (addr mod 4096 + length + 4095) / 4096 in
  let kind := Z.land fl MAP_TYPE_MASK in
  let call := sys_mmap Small fds pid now s addr length prot flags fd offset σ in
  let gives t shm := exists r, call = Ret (r.1, mkMm r.2 shm, σ) /\ lands σ (mm_vm s) t perm fl n r in
  contains fl MAP_FIXED = false ->
  if (kind =? MAP_SHARED) || (kind =? MAP_PRIVATE) then
    if contains fl MAP_ANONYMOUS then
      if kind =? MAP_SHARED then
        match shm_alloc (mm_shm s) length pid now with
        | (Some id, sm) => gives (ToAnon (Some id)) sm
        | (None, sm) => call = Ret (Err EINVAL, mkMm (mm_vm s) sm, σ)
        end
      else gives (ToAnon None) (mm_shm s)
    else
      match get_file fds (Z.to_nat fd) with
      | Ok file => gives (ToFile file offset) (mm_shm s)
      | Err e => call = Ret (Err e, s, σ)
      end
  else call = Ret (Err EINVAL, s, σ).
Proof.
  intros Hlay Hok Ha Hl Hb Ho Hoal Hob fl perm n kind call gives Hf.
  assert (Ecall : call = mmap_kind Small fds pid now s addr length perm fl fd offset σ).
  { unfold call, sys_mmap. fold fl perm. rewrite Hf, page_size_val, Hoal, andb_false_r. destruct (Z.eqb_spec length 0); [lia|]. done. }
  assert (Hgive : forall t shm, target_ok t fl (length + 16384) ->
    mmap_kind Small fds pid now s addr length perm fl fd offset σ =
      (r ← mmap_alloc Small (mm_vm s) addr length perm fl t; mret (with_vm shm r)) σ -> gives t shm).
  { intros t shm Ht E. destruct (mmap_alloc_lands σ (mm_vm s) addr length perm fl t shm Hlay Hok
      (MapPerm_from_perm _) Ha Hl Hb Ht Hf) as (r & E' & Hr). exists r. split; [congruence|done]. }
  revert Hgive Ecall. unfold mmap_kind. fold kind.
  destruct (Z.eqb_spec kind MAP_SHARED) as [Ek|Hk]; cbn [orb].
  - destruct (contains fl MAP_ANONYMOUS).
    + destruct (shm_alloc (mm_shm s) length pid now) as [[id|] sm]; intros Hgive Ec; [by apply Hgive|].
      rewrite Ec.
      unfold alloc_anon_area. destruct (Z.eqb_spec length 0); [lia|]. by rewrite (kind_shared fl Ek).
    + destruct (get_file fds (Z.to_nat fd)); intros Hgive Ec; [|by rewrite Ec]. apply Hgive; [cbn; lia|done].
  - destruct (Z.eqb_spec kind MAP_PRIVATE) as [Ek|Hk']; [|intros _ Ec; by rewrite Ec].
    destruct (contains fl MAP_ANONYMOUS).
    + intros Hgive _. apply Hgive; [|done]. cbn. by rewrite (kind_private fl Ek).
    + destruct (get_file fds (Z.to_nat fd)); intros Hgive Ec; [|by rewrite Ec]. apply Hgive; [cbn; lia|done].
Qed.

(** [unmap] looks at the pages of its range only. *)
Lemma unmap_span u va len lo hi σ :
  VirtAddr_floor va = lo -> VirtAddr_ceil (VirtAddr_add va len) = hi -> 0 <= lo < hi -> hi < user_pages ->
  uvm_unmap u va len σ = uvm_unmap u (lo * 4096) ((hi - lo) * 4096) σ.
Proof.
  intros E1 E2 Hlo Hhi. destruct (page_span lo hi Hlo Hhi) as (E3 & E4 & _). unfold uvm_unmap. by rewrite E1, E2, E3, E4.
Qed.

Definition fixed_flags : Z := Z.lor MAP_PRIVATE (Z.lor MAP_ANONYMOUS MAP_FIXED).

(** [sys_mmap] with MAP_FIXED (private and anonymous) does not simply replace
    what is at the address.  If nothing is mapped there it fails with EINVAL.  If
    something is, the range is cut at least up to the end of the first area found
    in it and the frames there are released; the new mapping is made only if the rest of the range is free,
    and otherwise the call fails with ENOMEM although the pages it cut out are
    gone. *)
Theorem mmap_fixed fds pid now s addr length prot fd offset σ held :
  layout_ok C -> uvm_ok σ (mm_vm s) -> counted σ (frame_map (areas (mm_vm s))) held -> 0 < addr ->
  addr mod 4096 = 0 -> 0 < length -> addr + length + 16384 <= (user_pages - 1) * 4096 -> offset mod 4096 = 0 ->
  let perm := MapPerm_from (MmapProt_truncate prot) in
  let lo := addr / 4096 in
  let hi := (addr + length + 4095) / 4096 in
  let call := sys_mmap Small fds pid now s addr length prot fixed_flags fd offset σ in
  mergeable (areas (mm_vm s)) lo hi -> tail_ok (areas (mm_vm s)) lo hi ->
  (rm_free (areas (mm_vm s)) lo hi /\ call = Ret (Err EINVAL, s, σ)) \/
  (exists c u1 σ1, lo < c <= hi /\ munmapped σ σ1 (mm_vm s) u1 lo c held /\
     (forall k r a, lo <= k < hi -> rm_free (areas (mm_vm s)) lo k -> rm_at (areas (mm_vm s)) k = Some (r, a) ->
        Z.min hi (r_end r) <= c) /\
     ((rm_free (areas (mm_vm s)) c hi /\ exists u', call = Ret (Ok addr, mkMm u' (mm_shm s), σ1) /\
         placed σ1 u1 u' lo hi (mmap_info perm fixed_flags (ToAnon None) lo)) \/
      (~ rm_free (areas (mm_vm s)) c hi /\ call = Ret (Err ENOMEM, mkMm u1 (mm_shm s), σ1)))).
Proof.
  intros Hlay Hok Hcnt Ha Hal Hl Hb Hoal. assert (Hb1 : addr + length + 4096 <= (user_pages - 1) * 4096) by lia.
  assert (Hb2 : addr + length <= (user_pages - 1) * 4096) by lia. assert (Ha0 : 0 <= addr) by lia.
  intros perm lo hi call Hmg Htl.
  destruct (call_span addr length Ha0 Hal Hl Hb1) as (Eva & Hlo & Hhi & Elen & E1 & _).
  fold lo in Eva, Hlo, Elen, E1. fold hi in Hlo, Hhi, Elen.
  destruct (user_span addr length Ha0 Hl Hb2) as (_ & E2 & _). fold hi in E2.
  assert (Ecall : call = (r ← uvm_unmap (mm_vm s) (lo * 4096) ((hi - lo) * 4096);
    match r.1 with
    | Err e => mret (Err e, mkMm r.2 (mm_shm s))
    | Ok vma => _ ← area_drop vma;
        mmap_kind Small fds pid now (mkMm r.2 (mm_shm s)) addr length perm fixed_flags fd offset
    end) σ).
  { unfold call, sys_mmap. change (MmapFlags_truncate fixed_flags) with fixed_flags. fold perm.
    rewrite page_size_val, Hoal. change (contains fixed_flags MAP_FIXED) with true.
    destruct (Z.eqb_spec length 0), (Z.eqb_spec addr 0); try lia. cbn [andb Z.eqb negb].
    unfold mbind, VM_bind. by rewrite (unmap_span _ addr length lo hi) by done. }
  destruct (uvm_unmap_any Small Small_low σ (mm_vm s) lo hi Hok Hlo Hhi Hmg Htl)
    as [[Hfree E]|(mid & u1 & σ1 & c & E & Hc & Hcut & _ & Hfst)].
  { left. split; [done|]. rewrite Ecall. erewrite run_bind by exact E. by destruct s. }
  right. destruct (munmap_turn σ σ1 (mm_vm s) u1 mid lo c held Hok Hcnt Hcut) as (σ2 & Ed & Hm & _).
  exists c, u1, σ2. do 3 (split; [done|]). rewrite Ecall.
  erewrite run_bind by exact E. cbn [fst snd]. erewrite run_bind by exact Ed.
  assert (Hfr : rm_free (areas u1) lo hi <-> rm_free (areas (mm_vm s)) c hi).
  { pose proof (mu_info _ _ _ _ _ _ _ Hm) as Hi. unfold space_info in Hi.
    split; intros H v Hv; specialize (Hi v); specialize (H v).
    - rewrite H in Hi by lia. destruct (Z.ltb_spec v c); [lia|]. rewrite andb_false_r in Hi. by destruct (rm_at (areas (mm_vm s)) v).
    - destruct (decide (v < c)).
      + revert Hi. zcmp. by destruct (rm_at (areas u1) v).
      + rewrite H in Hi by lia. revert Hi. destruct (_ && _); by destruct (rm_at (areas u1) v). }
  assert (Hn : (addr mod 4096 + length + 4095) / 4096 = hi - lo) by (unfold hi, lo; div_lia).
  pose proof (mmap_placement Small σ2 u1 addr length perm fixed_flags (ToAnon None) Hlay (mu_ok _ _ _ _ _ _ _ Hm)
    (MapPerm_from_perm _) ltac:(lia) Hl ltac:(lia) ltac:(done) ltac:(intros; lia)) as H.
  cbv zeta in H. rewrite Hn in H. change (contains fixed_flags MAP_FIXED) with true in H. cbv iota in H.
  cbn [mmap_addr] in H. fold lo in H. replace ((lo * 4096 + (hi - lo) * 4096 + 4095) / 4096) with hi in H by div_lia.
  assert (Ek : mmap_kind Small fds pid now (mkMm u1 (mm_shm s)) addr length perm fixed_flags fd offset σ2 =
    (r ← mmap_alloc Small u1 addr length perm fixed_flags (ToAnon None); mret (with_vm (mm_shm s) r)) σ2) by done.
  rewrite Ek. destruct H as [(u' & E' & Hpl)|[Hnf E']].
  - left. split; [apply Hfr, Hpl|]. exists u'. split; [|done]. erewrite run_bind by exact E'. unfold with_vm. cbn [fst snd ok_addr].
    by rewrite as_isize_user, <- Eva by lia.
  - right. split; [by rewrite <- Hfr|]. by erewrite run_bind by exact E'.
Qed.

(** ** munmap *)

(** Splitting an area where it starts leaves an empty front. *)
Lemma split_off_at_start a l r :
  area_ok a -> split_off a (r_start (range_vpn a)) = (l, r) ->
  frames l = ∅ /\ range_vpn l = mkRange (r_start (range_vpn a)) (r_start (range_vpn a)).
Proof.
  intros Ha E. destruct (area_pages a Ha) as (Es & Hs & He & _).
  assert (Hf : frames l = ∅).
  { apply map_empty. intros v. destruct (split_off_frames _ _ _ _ v E) as [-> _]. destruct (Z.ltb_spec v (r_start (range_vpn a))); [|done].
    destruct (frames a !! v) eqn:Ev; [|done]. apply (ao_frames a Ha) in Ev. unfold in_range in Ev. lia. }
  split; [done|]. rewrite split_off_val in E by (done || lia). injection E as <- _.
  apply (range_vpn_pages _ _ _ (r_start (range_vpn a) * 4096)); cbn [range_va]; [lia|lia| |lia|lia]. f_equal; exact Es.
Qed.

(** [unmap] of no bytes at a mapped page splits the area there and returns an empty
    piece. *)
Lemma uvm_unmap_zero σ u vpn r a :
  uvm_ok σ u -> rm_at (areas u) vpn = Some (r, a) ->
  exists mid m, uvm_unmap u (vpn * 4096) 0 σ = Ret (Ok mid, with_areas u m, σ) /\ frames mid = ∅ /\
    r_end (range_vpn mid) = vpn /\ uvm_ok σ (with_areas u m) /\ forall v, space_info m v = space_info (areas u) v.
Proof.
  intros Hok Ea. pose proof (uv_space _ _ Hok) as Hs. destruct (space_at _ _ _ _ Hs Ea) as (Ha & Hr & Hk1 & Hk2).
  destruct (area_pages a Ha) as (_ & Hp & Hx & _). rewrite Hr in Hp, Hx. destruct user_half as (_ & Hu & _ & Hmax).
  destruct (split_off a vpn) as [front mid] eqn:Esp.
  destruct (split_off_ok a vpn front mid Ha ltac:(rewrite Hr; lia) Esp) as (Hrm & Hmid & _). rewrite Hr in Hrm.
  destruct (split_off_wf a vpn front mid Ha ltac:(rewrite Hr; lia) Esp (uv_wf _ _ Hok _ _ _ Ea)) as [Hwf Hwm].
  destruct (cut_front (areas u) vpn r a front mid Hs Ea Esp) as (m2 & E2 & Hs2 & A2).
  destruct (split_off mid vpn) as [mid' back] eqn:Esp2.
  destruct (split_off_ok mid vpn mid' back Hmid ltac:(rewrite Hrm; cbn; lia) Esp2) as (Hrb & Hback & _). rewrite Hrm in Hrb.
  destruct (split_off_wf mid vpn mid' back Hmid ltac:(rewrite Hrm; cbn; lia) Esp2 Hwm) as [_ Hwb].
  destruct (split_off_at_start mid mid' back Hmid ltac:(by rewrite Hrm)) as [Hfe Hre]. rewrite Hrm in Hre.
  destruct (insert_back m2 back _ Hs2 Hback Hrb) as (m' & E' & Hs' & Hat); cbn [r_start r_end] in *.
  { intros v Hv. rewrite A2. destruct (Z.ltb_spec v vpn), (Z.leb_spec vpn v), (Z.ltb_spec v (r_end r)); try lia. by rewrite andb_false_r. }
  assert (Hi : forall v, space_info m' v = space_info (areas u) v).
  { intros v. unfold space_info. rewrite Hat, A2.
    assert (Hv : r_start r <= v < r_end r -> rm_at (areas u) v = Some (r, a) /\
      page_info (if v <? vpn then front else back) v = page_info a v).
    { intros Hv. split; [by apply (rm_at_same 0 _ vpn v r a (so_map _ Hs))|].
      rewrite <- (split_off_info a vpn front mid v) by (done || rewrite Hr; (done || lia)).
      destruct (Z.ltb_spec v vpn); [done|]. rewrite <- (split_off_info mid vpn mid' back v); try done; rewrite ?Hrm; cbn; [|lia..|unfold in_range; cbn; lia].
      destruct (Z.ltb_spec v vpn); [lia|done]. }
    destruct (Z.leb_spec vpn v), (Z.ltb_spec v (r_end r)), (Z.leb_spec (r_start r) v), (Z.ltb_spec v vpn); cbn [andb]; try lia; try done;
      destruct Hv as [-> Hv]; try lia; cbn; by rewrite Hv. }
  exists mid', m'. split_and!; [|done|by rewrite Hre| |done].
  2:{ apply uvm_ok_info; try done. intros k rk x. rewrite Hat, A2. destruct (_ && _); [intros [= <- <-]; done|].
      destruct (_ && _); [intros [= <- <-]; done|]. apply (uv_wf _ _ Hok). }
  unfold uvm_unmap. rewrite user_va_add, Z.add_0_r, user_ceil, user_floor, Z.div_mul by lia.
  replace ((vpn * 4096 + 4095) / 4096) with vpn by div_lia. rewrite wsub_small, Z.sub_diag by (unfold is_usize; lia).
  unfold try_union. rewrite user_vpn_add, Z.add_0_r by lia.
  erewrite run_bind; [|unfold vm_lift; cbn [try_union_loop]; rewrite Z.ltb_irrefl; done].
  cbn [snd]. unfold unmap_front. rewrite (rm_get_key_value_at 0), Ea by apply Hs. erewrite run_bind by done. cbn beta iota. rewrite Esp.
  cbv beta iota zeta. erewrite (run_bind _ _ σ m2 σ).
  2:{ destruct (range_is_empty (range_vpn front)).
      - destruct E2 as [E2 Hfe2]. erewrite run_bind; [|unfold vm_lift; rewrite E2; done]. cbn [fst snd].
        by erewrite run_bind by by apply area_drop_empty.
      - erewrite run_bind; [|unfold vm_lift; rewrite E2; done]. done. }
  unfold unmap_mid. rewrite Hrm, Esp2. cbn [r_end]. destruct (Z.ltb_spec vpn (r_end r)); [|lia].
  assert (Ee : range_is_empty (range_va back) = false)
    by (unfold range_is_empty; pose proof (ao_order back Hback); by zcmp).
  rewrite Ee, Hrb. erewrite run_bind; [|by erewrite run_bind; [|unfold vm_lift; rewrite E'; done]].
  cbn beta iota. unfold area_unmap, bt_iter. rewrite Hfe, map_to_list_empty. done.
Qed.

Lemma frame_map_info m m' :
  space_ok m -> space_ok m' -> (forall v, space_info m' v = space_info m v) -> frame_map m' = frame_map m.
Proof. intros Hs Hs' Hi. apply map_eq. intros v. by rewrite !frame_map_at, !frame_at_info, Hi by done. Qed.

(** The loop of [munmap] one page short: it never ends. *)
Lemma munmap_loop_stuck fuel σ u cur hi held :
  uvm_ok σ u -> counted σ (frame_map (areas u)) held -> 0 <= cur <= hi -> hi < user_pages - 1 ->
  mergeable (areas u) cur hi -> (forall v, cur <= v <= hi -> rm_at (areas u) v <> None) ->
  exists σ', munmap_loop fuel u cur (hi + 1) ((hi - cur) * 4096) σ = Ret (None, σ').
Proof.
  revert σ u cur. induction fuel as [|fuel IH]; intros σ u cur Hok Hcnt Hcur Hhi Hmg Hmap; [by exists σ|].
  cbn [munmap_loop]. destruct (Z.ltb_spec cur (hi + 1)); [|lia]. rewrite user_start_addr by lia.
  destruct (decide (cur = hi)) as [->|Hne].
  - destruct (rm_at (areas u) hi) as [[r a]|] eqn:Ea; [|by destruct (Hmap hi ltac:(lia))].
    rewrite Z.sub_diag. change (0 * 4096) with 0.
    destruct (uvm_unmap_zero σ u hi r a Hok Ea) as (mid & m & E & Hf & Hr & Hok' & Hi).
    destruct (IH σ (with_areas u m) hi) as (σ' & E'); try done.
    { cbn [areas with_areas]. by rewrite (frame_map_info (areas u) m) by (apply Hok' || apply Hok || done). }
    { intros k rk x r' y Hk. lia. }
    { intros v Hv. cbn [areas with_areas]. specialize (Hi v). specialize (Hmap v Hv). unfold space_info in Hi.
      destruct (rm_at m v); [done|]. by destruct (rm_at (areas u) v). }
    exists σ'. erewrite run_bind by exact E. cbn [fst snd]. rewrite Hr.
    erewrite run_bind by by apply area_drop_empty.
    assert (Esh : shorten ((hi - hi) * 4096) hi hi = (hi - hi) * 4096) by (apply shorten_pages; lia). rewrite Z.sub_diag in Esh, E'.
    change (0 * 4096) with 0 in *. by rewrite Esh.
  - destruct (uvm_unmap_any Small Small_low σ u cur hi Hok ltac:(lia) ltac:(lia) Hmg)
      as [[Hfree E]|(mid & u1 & σ1 & c & E & Hc & Hcut & Hmg1 & _)].
    { left. intros v Hv. apply Hmap. lia. }
    { by destruct (Hmap cur ltac:(lia)); apply Hfree; lia. }
    destruct (munmap_turn σ σ1 u u1 mid cur c held Hok Hcnt Hcut) as (σ2 & Ed & Hm & Hcnt2).
    destruct (IH σ2 u1 c) as (σ' & E'); [apply Hm|done|lia|done|done| |].
    { intros v Hv. pose proof (co_info _ _ _ _ _ _ _ Hcut v) as Hi. specialize (Hmap v ltac:(lia)). unfold space_info in Hi.
      revert Hi. destruct (Z.ltb_spec v c); [lia|]. rewrite andb_false_r.
      destruct (rm_at (areas u1) v); [done|]. by destruct (rm_at (areas u) v). }
    exists σ'. erewrite run_bind by exact E. cbn [fst snd]. rewrite (co_end _ _ _ _ _ _ _ Hcut).
    erewrite run_bind by exact Ed. by rewrite shorten_pages by lia.
Qed.

(** [sys_munmap] at an address that is not page aligned does not return when its
    pages are mapped: the length is rounded to whole pages, but the end of the range is
    one page further, and once the length has reached zero each turn of the loop
    unmaps nothing and starts again at the same page.  However many turns are
    allowed, the call is still running. *)
Theorem munmap_unaligned_hangs fuel σ u va len held :
  uvm_ok σ u -> counted σ (frame_map (areas u)) held ->
  0 <= va -> va mod 4096 <> 0 -> 0 < len -> va + len + 8192 <= (user_pages - 1) * 4096 ->
  let lo := va / 4096 in
  let hi := lo + (len + 4095) / 4096 in
  mergeable (areas u) lo hi -> (forall v, lo <= v <= hi -> rm_at (areas u) v <> None) ->
  exists σ', sys_munmap fuel u va len σ = Ret (None, σ').
Proof.
  intros Hok Hcnt Hva Hal Hlen Hend lo hi Hmg Hmap. destruct user_half as (_ & Hu & _ & Hmax).
  set (n := (len + 4095) / 4096) in *. assert (Hn : 0 < n /\ n * 4096 < len + 4096) by (unfold n; div_lia).
  assert (Hlo : 0 <= lo /\ lo * 4096 < va < lo * 4096 + 4096) by (unfold lo; div_lia).
  assert (Hhi : hi < user_pages - 1) by (unfold hi; lia).
  destruct (munmap_loop_stuck fuel σ u lo hi held Hok Hcnt ltac:(unfold hi; lia) Hhi Hmg Hmap) as (σ' & E).
  exists σ'. unfold sys_munmap. destruct (Z.eqb_spec len 0); [lia|]. rewrite page_round_val by lia. fold n.
  rewrite user_floor, user_va_add, user_ceil by lia. fold lo.
  replace ((va + n * 4096 + 4095) / 4096) with (hi + 1) by (unfold hi; div_lia).
  replace (n * 4096) with ((hi - lo) * 4096) by (unfold hi; lia). by erewrite run_bind by exact E.
Qed.

(** ** mremap *)

(** The rounding of [mremap] clears the bit of the page number, not the offset. *)
Lemma mremap_round_even n :
  0 < n -> Z.even n = true -> n * 4096 + 4095 < 2 ^ 64 -> mremap_round (n * 4096) = n * 4096 + 4095.
Proof.
  intros Hn Hev Hb. unfold mremap_round. rewrite page_size_val.
  rewrite wsub_small, wadd_small by (unfold is_usize; rewrite ?wsub_small by (unfold is_usize; lia); lia).
  replace (n * 4096 - 1 + 4096) with (n * 4096 + 4095) by lia. set (x := n * 4096 + 4095).
  assert (Hx : Z.testbit x 12 = false).
  { rewrite Z.testbit_odd, Z.shiftr_div_pow2 by lia. replace (x / 2 ^ 12) with n by (unfold x; div_lia). by rewrite <- Z.negb_even, Hev. }
  apply Z.bits_inj'. intros i Hi. rewrite Z.land_spec, wnot_testbit by (unfold is_usize; lia).
  destruct (Z.ltb_spec i 64).
  - change 4096 with (2 ^ 12). rewrite Z.pow2_bits_eqb by lia. destruct (Z.eqb_spec 12 i) as [<-|]; [by rewrite Hx|].
    by rewrite andb_true_r.
  - rewrite andb_false_l, andb_false_r. symmetry. apply Z.bits_above_log2; [unfold x; lia|].
    apply Z.log2_lt_pow2; [unfold x; lia|]. apply (Z.lt_le_trans _ (2 ^ 64)); [done|]. apply Z.pow_le_mono_r; lia.
Qed.

(** [sys_mremap] cannot resize or move a mapping of an even number of pages from its
    start or from any page to its end: its size is rounded with the complement of
    the page size instead of the complement of the offset mask, which makes it one
    byte less than a page too large, and the call fails with EINVAL whatever the
    new size, the flags and the new address. *)
Theorem mremap_even_fails σ u old_addr n new_size flags new_address a :
  uvm_ok σ u -> old_addr mod 4096 = 0 -> 0 <= old_addr < user_pages * 4096 -> 0 < n -> Z.even n = true ->
  get_area_view u old_addr = Some a -> r_end (range_va a) = old_addr + n * 4096 ->
  sys_mremap Small u old_addr (n * 4096) new_size flags new_address σ = Ret (Err EINVAL, u, σ).
Proof.
  intros Hok Hal Hold Hn Hev Ha He. unfold sys_mremap. rewrite page_offset_mod, Hal. cbn [Z.eqb negb].
  destruct (MremapFlags_from_bits flags) as [fl|]; [|done]. destruct (_ && _); [done|]. rewrite Ha.
  assert (Hb : n * 4096 + 4095 < 2 ^ 62).
  { unfold get_area_view in Ha. rewrite (rm_get_at 0) in Ha by apply (uv_space _ _ Hok).
    destruct (rm_at (areas u) (VirtAddr_floor old_addr)) as [[r x]|] eqn:Ex; [|done]. injection Ha as ->.
    destruct (space_at _ _ _ _ (uv_space _ _ Hok) Ex) as (Hoka & _). pose proof (ao_end _ Hoka).
    destruct user_half as (_ & _ & _ & Hmax). lia. }
  assert (2 ^ 62 < 2 ^ 64) by (by vm_compute). rewrite mremap_round_even by (done || lia).
  rewrite He, wsub_small by (unfold is_usize; destruct user_half as (_ & _ & _ & Hmax); lia).
  destruct (Z.ltb_spec (old_addr + n * 4096 - old_addr) (n * 4096 + 4095)); [done|lia].
Qed.

End Claims.

(** ** Concrete runs *)

Abbreviation demo_state := (Machine (BitMapFrameAllocator (B := set_alloc))) (only parsing).

Lemma mmap_call_witness :
  exists (σ : demo_state) u, areas u = demo_areas /\ exists r,
    sys_mmap (C := riscv64) (P := rv_pte) (W := rv_walk) (V := rv_level) (F := FrameAllocator_hal) (G := set_fresh)
      rv_Small (ft_new 0) 1 0 (mkMm u shm_new) 0x1234 0x1800 PROT_READ (Z.lor MAP_SHARED MAP_ANONYMOUS) 0 0 σ =
      Ret (r.1, mkMm r.2 (shm_alloc shm_new 0x1800 1 0).2, σ) /\
    lands (C := riscv64) (L := rv_laws) (W := rv_walk) (FL := small_laws) (FS := demo_files) σ u (ToAnon (Some 1))
      (Z.lor MapPerm_U MapPerm_R) (Z.lor MAP_SHARED MAP_ANONYMOUS) 2 r.
Proof.
  destruct demo_space as (f & m & a & Hok & _). set (u := mkUvm _ _ _) in *. set (σ := mkMachine _ _ _ _ _ _) in *.
  exists σ, u. split; [done|].
  exact (mmap_call (C := riscv64) (L := rv_laws) (W := rv_walk) (V := rv_level) (FL := small_laws) (FS := demo_files)
    (G := set_fresh) rv_Small (ft_new 0) 1 0 (mkMm u shm_new) 0x1234 0x1800 PROT_READ (Z.lor MAP_SHARED MAP_ANONYMOUS) 0 0 σ
    (proj1 user_layout) Hok ltac:(by vm_compute) eq_refl eq_refl ltac:(by vm_compute) eq_refl eq_refl eq_refl).
Defined.

Lemma mmap_fixed_witness :
  exists (σ : demo_state) u, areas u = touched_areas /\ exists u' σ',
    sys_mmap (C := riscv64) (P := rv_pte) (W := rv_walk) (V := rv_level) (F := FrameAllocator_hal) (G := set_fresh)
      rv_Small (ft_new 0) 1 0 (mkMm u shm_new) 0x21000 0x4000 PROT_READ fixed_flags 0 0 σ = Ret (Ok 0x21000, mkMm u' shm_new, σ').
Proof.
  destruct counted_space as (σ & u & Hu & Eu & Hc & _). exists σ, u. split; [done|].
  pose proof (mmap_fixed (C := riscv64) (WL := rv_walk_laws) (FL := small_laws) (FS := demo_files)
    (GL := set_fresh_laws) rv_Small eq_refl (ft_new 0) 1 0 (mkMm u shm_new) 0x21000 0x4000 PROT_READ 0 0 σ demo_held
    (proj1 user_layout) Hu Hc eq_refl eq_refl eq_refl ltac:(by vm_compute) eq_refl) as H. cbv zeta in H. cbn [mm_vm mm_shm] in H.
  change (0x21000 / 4096) with 0x21 in H. change ((0x21000 + 0x4000 + 4095) / 4096) with 0x25 in H. rewrite Eu in H.
  destruct H as [[Hf _]|(c & u1 & σ1 & _ & _ & Hc1 & [(_ & u' & E & _)|[Hn _]])].
  - apply touched_single.
  - right. intros perm fl src fr. by vm_compute.
  - exfalso. by specialize (Hf 0x21 ltac:(lia)).
  - by exists u', σ1.
  - exfalso. apply Hn. specialize (Hc1 0x21 (mkRange 0x20 0x24) touched_heap ltac:(lia) ltac:(intros k Hk; lia) eq_refl).
    cbn [r_end] in Hc1. intros k Hk. cbn. destruct (Z.ltb_spec k 36); [lia|]. by rewrite andb_false_r.
Defined.

Lemma munmap_unaligned_hangs_witness :
  exists (σ : demo_state) u, areas u = touched_areas /\
    exists σ', sys_munmap (C := riscv64) (P := rv_pte) (W := rv_walk) (F := FrameAllocator_hal) 1000 u 0x20100 0x1000 σ = Ret (None, σ').
Proof.
  destruct counted_space as (σ & u & Hu & Eu & Hc & _). exists σ, u. split; [done|].
  apply (munmap_unaligned_hangs (C := riscv64) (WL := rv_walk_laws) (FL := small_laws) (FS := demo_files)
    (GL := set_fresh_laws) rv_Small eq_refl 1000 σ u 0x20100 0x1000 demo_held Hu Hc); [by vm_compute..| |].
  - rewrite Eu. apply touched_single.
  - rewrite Eu. intros v Hv. change (0x20 <= v <= 0x21) in Hv. cbn. zcmp; done || lia.
Defined.

(** A private anonymous mapping of two pages. *)
Definition two_pages : UserVmArea := mkArea (mkRange 0x30000 0x32000) UserMmap 11 ∅ FileNone 0 0 0x2000.

Lemma two_pages_space :
  exists (σ : demo_state) u, demo_uvm σ u /\ areas u = [(0x30, mkNode 0x32 two_pages)].
Proof.
  destruct demo_machine as (f & m & a & Hok & _ & Hl & _).
  exists (mkMachine m a demo_arcs ∅ ∅ ∅), (mkUvm (mkPT f [mkRange f (f + 1)]) [(0x30, mkNode 0x32 two_pages)] 0x20000).
  split; [|done]. assert (Ha : area_ok (C := riscv64) two_pages) by (constructor; cbn; try (by vm_compute); try lia; by intros k q).
  constructor; cbn [areas page_table]; [done|..].
  - constructor; [by vm_compute|]. intros k r x. cbn. destruct (_ && _); [|done]. intros [= <- <-]. split; [done|by vm_compute].
  - intros k r x. cbn. destruct (_ && _); [|done]. intros [= <- <-]. by vm_compute.
  - intros v _. cbn [rm_at]. destruct (_ && _); [|apply Hl]. apply Hl.
Qed.

Lemma mremap_even_fails_witness :
  exists (σ : demo_state) u, areas u = [(0x30, mkNode 0x32 two_pages)] /\
    sys_mremap (C := riscv64) (P := rv_pte) (W := rv_walk) (V := rv_level) (F := FrameAllocator_hal) (G := set_fresh)
      rv_Small u 0x30000 0x2000 0x3000 MAYMOVE 0 σ = Ret (Err EINVAL, u, σ).
Proof.
  destruct two_pages_space as (σ & u & Hu & Eu). exists σ, u. split; [done|].
  apply (mremap_even_fails (C := riscv64) (L := rv_laws) (W := rv_walk) (V := rv_level) (G := set_fresh) (FL := small_laws) (FS := demo_files)
    rv_Small σ u 0x30000 2 0x3000 MAYMOVE 0 two_pages Hu); try (by vm_compute).
  unfold get_area_view. rewrite Eu. by vm_compute.
Defined.

(** [mprotect] of a range that starts in a hole maps the hole: page 0x1f is not
    mapped before the call. *)
Example mprotect_maps_hole pt (σ : demo_state) :
  let u := mkUvm pt demo_areas 0x20000 in
  match sys_mprotect (C := riscv64) (P := rv_pte) (W := rv_walk) (V := rv_level) (F := FrameAllocator_hal) (G := set_fresh)
      rv_Small 4 u 0x1f000 0x2000 PROT_READ σ with
  | Ret (Some (Ok 0, u'), _) =>
      space_info (C := riscv64) (areas u) 0x1f = None /\ space_info (C := riscv64) (areas u') 0x1f <> None
  | _ => False
  end.
Proof. destruct σ. by vm_compute. Qed.

(** [munmap] of a range that starts in a hole and ends inside a data segment: the
    rest of the segment shows zeroes instead of the file. *)
Example munmap_loses_data pt (σ : demo_state) :
  let u := mkUvm pt [(0x10, mkNode 0x14 file_area)] 0x20000 in
  match sys_munmap (C := riscv64) (P := rv_pte) (W := rv_walk) (F := FrameAllocator_hal) 4 u 0xf000 0x2000 σ with
  | Ret (Some (Ok 0, u'), _) =>
      space_info (C := riscv64) (areas u) 0x11 = Some (UserData, 15, 0, FromFile 7 0x2000 0x800, None) /\
      space_info (C := riscv64) (areas u') 0x11 = Some (UserData, 15, 0, Zeroes, None)
  | _ => False
  end.
Proof. destruct σ. by vm_compute. Qed.
