(* ===== verification/Signal.v ===== *)
(** Signals (os/src/signal/): the signal sets, the table of actions and the
    queues of one task.  Standard signals are pending at most once, in the order
    they came; real-time signals queue, lowest number first.  The addresses of
    the five default handlers are chosen by the linker and are a parameter. *)

From S2P Require Import Prelude Errno.

#[local] Open Scope Z_scope.

Definition SIGKILL : Z := 9.
Definition SIGCHLD : Z := 17.
Definition SIGCONT : Z := 18.
Definition SIGSTOP : Z := 19.
Definition SIGRTMIN : Z := 32.
Definition SIGRTMAX : Z := 64.

(** [SigSet::from_bits(1 << (signo - 1)).unwrap()]: every bit is declared; the
    subtraction wraps and the shift takes its amount modulo the width. *)
Definition sig_bit (signo : Z) : Z := wshl 1 (Z.land (wsub signo 1) 63).

Definition add_sig (set signo : Z) : Z := bf_insert set (sig_bit signo).
Definition contain_sig (set signo : Z) : bool := contains set (sig_bit signo).
Definition remove_sig (set signo : Z) : Z := bf_remove set (sig_bit signo).

Record SigInfo := mkInfo { si_signo : Z; si_code : Z; si_pid : option Z }.

Definition SI_USER : Z := 0.
Definition SI_KERNEL : Z := 0x80.
Definition SI_TKILL : Z := -6.
Definition CLD_EXITED : Z := 1.

(** ** Actions *)

Record SigAction := mkSa { sa_handler : Z; sa_flags : Z; sa_restorer : Z; sa_mask : Z }.
Record KSigAction := mkKsa { k_sa : SigAction; is_user : bool }.

Definition SA_SIGINFO : Z := 4.
Definition SA_RESTART : Z := 0x10000000.
Definition SA_NODEFER : Z := 0x40000000.
(** Every flag of [SigActionFlag]. *)
Definition SA_ALL : Z :=
  Z.lor 1 (Z.lor 2 (Z.lor 4 (Z.lor 0x08000000 (Z.lor 0x10000000 (Z.lor 0x40000000
    (Z.lor 0x80000000 0x04000000)))))).

Definition SIG_ERR : Z := usize_max.
Definition SIG_DFL : Z := 0.
Definition SIG_IGN : Z := 1.

(** The five default actions, at the addresses of their handlers. *)
Inductive DefaultAction := Term | Ign | Core | Stop | Cont.

Class SigHandlers := {
  handler_addr : DefaultAction -> Z;
}.

(** They are different functions of the kernel. *)
Class SigHandlersLaws (H : SigHandlers) := {
  handler_inj a b : handler_addr a = handler_addr b -> a = b;
}.

Definition default_action (signo : Z) : DefaultAction :=
  if signo =? 1 then Term else if signo =? 2 then Term else if signo =? 3 then Core
  else if signo =? 4 then Core else if signo =? 5 then Core else if signo =? 6 then Core
  else if signo =? 7 then Core else if signo =? 8 then Core else if signo =? SIGKILL then Term
  else if signo =? 10 then Term else if signo =? 11 then Core else if signo =? 12 then Term
  else if signo =? 13 then Term else if signo =? 14 then Term else if signo =? 15 then Term
  else if signo =? 16 then Term else if signo =? SIGCHLD then Ign else if signo =? SIGCONT then Cont
  else if signo =? SIGSTOP then Stop else if signo =? 20 then Stop else if signo =? 21 then Stop
  else if signo =? 22 then Stop else if signo =? 23 then Ign else if signo =? 24 then Core
  else if signo =? 25 then Core else if signo =? 26 then Term else if signo =? 27 then Term
  else if signo =? 28 then Ign else if signo =? 29 then Term else if signo =? 30 then Term
  else if signo =? 31 then Core else Term.

(** ** The queues and the table of one task *)

Record SigManager := mkSig {
  pending_sigs : list SigInfo;
  pending_rt_sigs : gmap Z (list SigInfo);
  bitmap : Z;
  blocked_sigs : Z;
  sig_handler : list KSigAction;
  wake_sigs : Z;
}.

Definition with_queues (m : SigManager) (q : list SigInfo) (rt : gmap Z (list SigInfo)) (b : Z) : SigManager :=
  mkSig q rt b (blocked_sigs m) (sig_handler m) (wake_sigs m).
Definition with_blocked (m : SigManager) (b : Z) : SigManager :=
  mkSig (pending_sigs m) (pending_rt_sigs m) (bitmap m) b (sig_handler m) (wake_sigs m).
Definition with_handlers (m : SigManager) (h : list KSigAction) : SigManager :=
  mkSig (pending_sigs m) (pending_rt_sigs m) (bitmap m) (blocked_sigs m) h (wake_sigs m).
Definition with_wake (m : SigManager) (w : Z) : SigManager :=
  mkSig (pending_sigs m) (pending_rt_sigs m) (bitmap m) (blocked_sigs m) (sig_handler m) w.

Section Manager.
Context {H : SigHandlers}.

Definition get_default_handler (signo : Z) : outcome Z :=
  assert! signo <=? SIGRTMAX in Ret (handler_addr (default_action signo)).

Definition KSigAction_new (signo : Z) (user : bool) : outcome KSigAction :=
  let! h := get_default_handler signo in Ret (mkKsa (mkSa h 0 0 0) user).

(** The table of default actions; none of the entries can panic. *)
Definition default_entry (signo : Z) : KSigAction :=
  mkKsa (mkSa (handler_addr (default_action signo)) 0 0 0) false.

Definition sig_new : SigManager :=
  mkSig [] ∅ 0 0 (map default_entry (seqZ 0 (SIGRTMAX + 1))) 0.

Definition sig_from_another (m : SigManager) : SigManager := mkSig [] ∅ 0 0 (sig_handler m) 0.

(** [receive] *)
Definition sig_receive (m : SigManager) (info : SigInfo) : outcome SigManager :=
  let signo := si_signo info in
  if signo <? SIGRTMIN then
    Ret (if contain_sig (bitmap m) signo then m
         else with_queues m (pending_sigs m ++ [info]) (pending_rt_sigs m) (add_sig (bitmap m) signo))
  else
    assert! signo <=? SIGRTMAX in
    let q := default [] (pending_rt_sigs m !! signo) in
    Ret (with_queues m (pending_sigs m) (<[signo := q ++ [info]]> (pending_rt_sigs m)) (bitmap m)).

(** The first real-time signal of a set with something queued. *)
Definition rt_wanted (expected : Z) (e : Z * list SigInfo) : bool :=
  contain_sig expected e.1 && negb (bool_decide (e.2 = [])).

Definition check_pending (m : SigManager) (expected : Z) : option SigInfo :=
  let x := Z.land (bitmap m) expected in
  if x =? 0 then
    match List.find (rt_wanted expected) (bt_iter (pending_rt_sigs m)) with
    | Some (_, q) => head q
    | None => None
    end
  else List.find (fun s => contain_sig x (si_signo s)) (pending_sigs m).

Definition check_pending_flag (m : SigManager) (expected : Z) : bool :=
  let x := Z.land (bitmap m) expected in
  if x =? 0 then existsb (rt_wanted expected) (bt_iter (pending_rt_sigs m)) else true.

Definition user_define_sets (m : SigManager) : Z :=
  fold_left (fun set e => if is_user (snd e) then add_sig set (fst e) else set)
    (zip (seqZ 0 (Z.of_nat (length (sig_handler m)))) (sig_handler m)) 0.

Definition sig_set_sigaction (m : SigManager) (signo : Z) (a : KSigAction) : SigManager :=
  if (signo =? SIGSTOP) || (signo =? SIGKILL) then m
  else if signo <=? SIGRTMAX then with_handlers m (<[Z.to_nat signo := a]> (sig_handler m))
  else m.

(** [dequeue_one], first stage: the queue is turned until a signal can be taken. *)
Definition deferred (blocked : Z) (s : SigInfo) : bool :=
  negb (si_signo s =? SIGKILL) && negb (si_signo s =? SIGSTOP) && contain_sig blocked (si_signo s).

Fixpoint dequeue_std (cnt : nat) (q : list SigInfo) (blocked : Z) : outcome (option SigInfo * list SigInfo) :=
  match cnt with
  | O => Ret (None, q)
  | S cnt =>
      match q with
      | [] => Panic
      | s :: q => if deferred blocked s then dequeue_std cnt (q ++ [s]) blocked else Ret (Some s, q)
      end
  end.

(** Second stage: the real-time queues in key order. *)
Fixpoint dequeue_rt (l : list (Z * list SigInfo)) (blocked : Z) : outcome (option (Z * SigInfo * list SigInfo)) :=
  match l with
  | [] => Ret None
  | (signo, q) :: l =>
      assert! SIGRTMIN <=? signo in
      assert! signo <=? SIGRTMAX in
      if contain_sig blocked signo then dequeue_rt l blocked
      else match q with
           | s :: q => Ret (Some (signo, s, q))
           | [] => dequeue_rt l blocked
           end
  end.

Definition dequeue_one (m : SigManager) : outcome (option SigInfo * SigManager) :=
  let! r := dequeue_std (length (pending_sigs m)) (pending_sigs m) (blocked_sigs m) in
  match r with
  | (Some s, q) => Ret (Some s, with_queues m q (pending_rt_sigs m) (remove_sig (bitmap m) (si_signo s)))
  | (None, q) =>
      let m := with_queues m q (pending_rt_sigs m) (bitmap m) in
      let! r := dequeue_rt (bt_iter (pending_rt_sigs m)) (blocked_sigs m) in
      match r with
      | Some (signo, s, rest) =>
          Ret (Some s, with_queues m (pending_sigs m) (<[signo := rest]> (pending_rt_sigs m)) (bitmap m))
      | None => Ret (None, m)
      end
  end.

(** [VecDeque::remove] of the first element that satisfies [f]. *)
Fixpoint take_first {X} (f : X -> bool) (l : list X) : option (X * list X) :=
  match l with
  | [] => None
  | x :: l => if f x then Some (x, l)
              else match take_first f l with Some (y, l') => Some (y, x :: l') | None => None end
  end.

Definition dequeue_expected_one (m : SigManager) (expected : Z) : option SigInfo * SigManager :=
  let x := Z.land (bitmap m) expected in
  if x =? 0 then
    match List.find (rt_wanted expected) (bt_iter (pending_rt_sigs m)) with
    | Some (signo, q) =>
        (head q, with_queues m (pending_sigs m) (<[signo := tail q]> (pending_rt_sigs m)) (bitmap m))
    | None => (None, m)
    end
  else
    match take_first (fun s => contain_sig x (si_signo s)) (pending_sigs m) with
    | Some (s, q) => (Some s, with_queues m q (pending_rt_sigs m) (remove_sig (bitmap m) (si_signo s)))
    | None => (None, m)
    end.

(** [reset_on_exec]: one turn of its loop. *)
Definition reset_action (l : list KSigAction) (signo : Z) : outcome (list KSigAction) :=
  let! old := unwrap (l !! Z.to_nat signo) in
  if sa_handler (k_sa old) =? handler_addr Ign then Ret l
  else
    let! a := KSigAction_new signo false in
    Ret (<[Z.to_nat signo := a]> l).

Fixpoint reset_actions (signos : list Z) (l : list KSigAction) : outcome (list KSigAction) :=
  match signos with
  | [] => Ret l
  | signo :: signos => let! l := reset_action l signo in reset_actions signos l
  end.

Definition reset_on_exec (m : SigManager) : outcome SigManager :=
  let! l := reset_actions (seqZ 1 (SIGRTMAX - 1)) (sig_handler m) in
  Ret (with_handlers m l).

End Manager.

(** ** Signal sets *)

Section Sets.

Lemma sig_bit_val s : 1 <= s <= 64 -> sig_bit s = 2 ^ (s - 1).
Proof.
  intros Hs. unfold sig_bit. rewrite wsub_small by (unfold is_usize; lia).
  change 63 with (Z.ones 6). rewrite Z.land_ones, Z.mod_small by lia. unfold wshl.
  rewrite Z.shiftl_mul_pow2, Z.mul_1_l by lia. apply wrap_small. unfold is_usize.
  split; [lia|]. apply Z.pow_lt_mono_r; lia.
Qed.

Lemma contain_sig_bit set s : 1 <= s <= 64 -> contain_sig set s = Z.testbit set (s - 1).
Proof. intros Hs. unfold contain_sig. rewrite sig_bit_val by done. apply contains_pow2. lia. Qed.

Lemma add_sig_bit set s i : 1 <= s <= 64 -> 0 <= i -> Z.testbit (add_sig set s) i = Z.testbit set i || (i =? s - 1).
Proof.
  intros Hs Hi. unfold add_sig, bf_insert. rewrite sig_bit_val by done. rewrite Z.lor_spec, Z.pow2_bits_eqb by lia.
  by rewrite (Z.eqb_sym i).
Qed.

Lemma remove_sig_bit set s i : 1 <= s <= 64 -> 0 <= i -> Z.testbit (remove_sig set s) i = Z.testbit set i && negb (i =? s - 1).
Proof.
  intros Hs Hi. unfold remove_sig, bf_remove. rewrite sig_bit_val by done. rewrite Z.ldiff_spec, Z.pow2_bits_eqb by lia.
  by rewrite (Z.eqb_sym i).
Qed.

End Sets.

(** ** The abstract queues *)

Section Queues.
Implicit Types m : SigManager.

(** The instances of a signal that are pending, oldest first. *)
Definition queue m (s : Z) : list SigInfo :=
  if s <? SIGRTMIN then filter (fun i => si_signo i = s) (pending_sigs m)
  else default [] (pending_rt_sigs m !! s).

(** Standard signals are pending once, the bitmap is the set of them, and the
    real-time queues hold their own signal. *)
Record sig_ok m : Prop := {
  sg_range i : i ∈ pending_sigs m -> 1 <= si_signo i < SIGRTMIN;
  sg_once : NoDup (si_signo <$> pending_sigs m);
  sg_bitmap b : 0 <= b -> Z.testbit (bitmap m) b = bool_decide (b + 1 ∈ si_signo <$> pending_sigs m);
  sg_rt s q : pending_rt_sigs m !! s = Some q -> SIGRTMIN <= s <= SIGRTMAX /\ forall i, i ∈ q -> si_signo i = s;
  sg_table : length (sig_handler m) = 65%nat;
}.

(** What the queues do not hold is not changed. *)
Definition same_rest m m' : Prop :=
  blocked_sigs m' = blocked_sigs m /\ sig_handler m' = sig_handler m /\ wake_sigs m' = wake_sigs m.

Lemma sig_ok_pending m s : sig_ok m -> 1 <= s < SIGRTMIN -> contain_sig (bitmap m) s = bool_decide (queue m s <> []).
Proof.
  intros Hok Hs. unfold SIGRTMIN in Hs. rewrite contain_sig_bit, sg_bitmap by (done || lia).
  replace (s - 1 + 1) with s by lia. unfold queue, SIGRTMIN. destruct (Z.ltb_spec s 32); [|lia].
  apply bool_decide_ext. rewrite list_elem_of_fmap. split.
  - intros (i & -> & Hi) E. assert (Hin : i ∈ filter (fun j => si_signo j = si_signo i) (pending_sigs m)).
    { by apply list_elem_of_filter. }
    rewrite E in Hin. by apply elem_of_nil in Hin.
  - intros Hne. destruct (filter (fun i => si_signo i = s) (pending_sigs m)) as [|i l] eqn:E; [done|].
    assert (Hin : i ∈ filter (fun i => si_signo i = s) (pending_sigs m)) by (rewrite E; left).
    apply list_elem_of_filter in Hin as [Hi Hin]. by exists i.
Qed.

(** A signal is delivered unless it is blocked; SIGKILL and SIGSTOP always are. *)
Definition deliverable m (s : Z) : bool := (s =? SIGKILL) || (s =? SIGSTOP) || negb (contain_sig (blocked_sigs m) s).

Lemma filter_none (P : SigInfo -> Prop) `{forall x, Decision (P x)} l : (forall i, i ∈ l -> ~ P i) -> filter P l = [].
Proof.
  induction l as [|x l IH]; intros Hl; [done|]. rewrite filter_cons, decide_False by (apply Hl; left).
  apply IH. intros i Hi. apply Hl. by right.
Qed.

Lemma filter_once (l : list SigInfo) s :
  NoDup (si_signo <$> l) -> forall i, i ∈ l -> si_signo i = s -> filter (fun j => si_signo j = s) l = [i].
Proof.
  induction l as [|x l IH]; intros Hn i Hi E; [by apply elem_of_nil in Hi|].
  rewrite fmap_cons in Hn. apply NoDup_cons in Hn as [Hx Hn]. rewrite filter_cons.
  apply elem_of_cons in Hi as [->|Hi].
  - rewrite decide_True by done. f_equal. apply filter_none. intros j Hj Ej. apply Hx.
    apply list_elem_of_fmap. exists j. split; [congruence|done].
  - rewrite decide_False; [by apply IH|]. intros Ex. apply Hx. apply list_elem_of_fmap. exists i. split; [congruence|done].
Qed.

(** Turning the queue does not change what is pending of each signal. *)
Lemma filter_perm (l l' : list SigInfo) s :
  NoDup (si_signo <$> l) -> l ≡ₚ l' -> filter (fun j => si_signo j = s) l' = filter (fun j => si_signo j = s) l.
Proof.
  intros Hn Hp. destruct (filter (fun j => si_signo j = s) l) as [|i r] eqn:E.
  - apply filter_none. intros j Hj Ej.
    assert (Hin : j ∈ filter (fun j => si_signo j = s) l) by (apply list_elem_of_filter; by rewrite Hp).
    rewrite E in Hin. by apply elem_of_nil in Hin.
  - assert (Hin : i ∈ filter (fun j => si_signo j = s) l) by (rewrite E; left).
    apply list_elem_of_filter in Hin as [Ei Hi]. rewrite (filter_once l s Hn i Hi Ei) in E. injection E as <-.
    apply filter_once; [by rewrite <- Hp|by rewrite <- Hp|done].
Qed.

(** Replacing the queues by what a permutation leaves. *)
Lemma std_ok m q b :
  sig_ok m -> (forall i, i ∈ q -> 1 <= si_signo i < SIGRTMIN) -> NoDup (si_signo <$> q) ->
  (forall k, 0 <= k -> Z.testbit b k = bool_decide (k + 1 ∈ si_signo <$> q)) ->
  sig_ok (with_queues m q (pending_rt_sigs m) b).
Proof. intros [H1 H2 H3 H4 H5] Hr Hn Hb. by constructor. Qed.

Lemma rt_ok m s q :
  sig_ok m -> SIGRTMIN <= s <= SIGRTMAX -> (forall i, i ∈ q -> si_signo i = s) ->
  sig_ok (with_queues m (pending_sigs m) (<[s := q]> (pending_rt_sigs m)) (bitmap m)).
Proof.
  intros [H1 H2 H3 H4 H5] Hs Hq. constructor; try done. intros s' q'. cbn [pending_rt_sigs with_queues].
  rewrite lookup_insert_Some. intros [[<- <-]|[_ ?]]; [done|by apply H4].
Qed.

Lemma queue_signo m s i : sig_ok m -> i ∈ queue m s -> si_signo i = s.
Proof.
  intros Hok. unfold queue. destruct (s <? SIGRTMIN); [by intros [? _]%list_elem_of_filter|].
  destruct (pending_rt_sigs m !! s) as [q|] eqn:E; [|by intros ?%elem_of_nil]. apply (sg_rt m Hok s q E).
Qed.

(** *** Receiving *)

(** A signal that is accepted joins the queue of its number; a standard signal
    that is already pending is dropped. *)
Lemma receive_ok m info :
  sig_ok m -> 1 <= si_signo info <= SIGRTMAX ->
  exists m', sig_receive m info = Ret m' /\ sig_ok m' /\ same_rest m m' /\
    forall s, queue m' s =
      if (s =? si_signo info) && ((SIGRTMIN <=? s) || bool_decide (queue m s = [])) then queue m s ++ [info] else queue m s.
Proof.
  intros Hok Hs. set (s0 := si_signo info) in *. unfold sig_receive. fold s0.
  destruct (Z.ltb_spec s0 SIGRTMIN) as [Hlt|Hge].
  - rewrite (sig_ok_pending m s0 Hok) by lia. case_bool_decide as Hq.
    + exists m. split; [done|]. split; [done|]. split; [done|]. intros s. destruct (Z.eqb_spec s s0) as [->|]; [|done].
      destruct (Z.leb_spec SIGRTMIN s0); [lia|]. by rewrite bool_decide_false.
    + assert (Hn : s0 ∉ si_signo <$> pending_sigs m).
      { intros (i & Ei & Hi)%list_elem_of_fmap. pose proof Hq as E. unfold queue in E. destruct (Z.ltb_spec s0 SIGRTMIN); [|lia].
        by apply (filter_nil_not_elem_of _ _ i E). }
      eexists. split; [done|]. split; [apply std_ok; try done|split; [done|]].
      * intros i [?| ->%list_elem_of_singleton]%elem_of_app; [by apply (sg_range m Hok)|fold s0; lia].
      * rewrite fmap_app. apply NoDup_app. split; [apply Hok|]. split; [|apply NoDup_singleton].
        cbn. intros x Hx ->%list_elem_of_singleton. done.
      * intros k Hk. rewrite add_sig_bit by (unfold SIGRTMIN, SIGRTMAX in *; lia). rewrite (sg_bitmap m Hok) by done.
        rewrite fmap_app. apply Bool.eq_iff_eq_true. rewrite orb_true_iff, !bool_decide_eq_true, elem_of_app, Z.eqb_eq.
        cbn. rewrite list_elem_of_singleton. fold s0. assert (k + 1 = s0 <-> k = s0 - 1) by lia. tauto.
      * intros s. unfold queue. cbn [pending_sigs with_queues pending_rt_sigs].
        destruct (Z.eqb_spec s s0) as [->|Hne]; cbn [andb].
        -- destruct (Z.ltb_spec s0 SIGRTMIN); [|lia]. rewrite filter_app. cbn. rewrite decide_True by done.
           destruct (Z.leb_spec SIGRTMIN s0); [lia|]. cbn [orb]. rewrite bool_decide_true; [done|].
           revert Hq. unfold queue. destruct (Z.ltb_spec s0 SIGRTMIN); [done|lia].
        -- destruct (s <? SIGRTMIN); [|done]. rewrite filter_app. cbn. rewrite decide_False by (intros E; apply Hne; done). by rewrite app_nil_r.
  - unfold guard_panic. destruct (Z.leb_spec s0 SIGRTMAX); [|lia]. eexists. split; [done|]. split; [|split; [done|]].
    + apply rt_ok; [done|lia|]. intros i [Hi| ->%list_elem_of_singleton]%elem_of_app; [|done].
      destruct (pending_rt_sigs m !! s0) as [q|] eqn:E; [|by apply elem_of_nil in Hi]. by apply (sg_rt m Hok s0 q E).
    + intros s. unfold queue. cbn [pending_sigs with_queues pending_rt_sigs]. destruct (Z.eqb_spec s s0) as [->|Hne]; cbn [andb].
      * destruct (Z.ltb_spec s0 SIGRTMIN), (Z.leb_spec SIGRTMIN s0); try lia. by rewrite lookup_insert_eq.
      * destruct (s <? SIGRTMIN); [done|]. by rewrite lookup_insert_ne.
Qed.

(** *** Taking a signal *)

(** [info] is the oldest pending instance of its signal and is taken. *)
Definition taken m m' (info : SigInfo) : Prop :=
  let s0 := si_signo info in
  1 <= s0 <= SIGRTMAX /\ queue m s0 = info :: queue m' s0 /\ forall s, s <> s0 -> queue m' s = queue m s.

Lemma std_remove m q i :
  sig_ok m -> pending_sigs m ≡ₚ i :: q ->
  let m' := with_queues m q (pending_rt_sigs m) (remove_sig (bitmap m) (si_signo i)) in
  sig_ok m' /\ taken m m' i.
Proof.
  intros Hok Hp m'. assert (Hi : i ∈ pending_sigs m) by (rewrite Hp; left). pose proof (sg_range m Hok i Hi) as Hs.
  pose proof (sg_once m Hok) as Hn. rewrite Hp, fmap_cons in Hn. apply NoDup_cons in Hn as [Hni Hn]. split.
  - apply std_ok; try done.
    + intros j Hj. apply (sg_range m Hok). rewrite Hp. by right.
    + intros k Hk. rewrite remove_sig_bit by (unfold SIGRTMIN in Hs; lia). rewrite (sg_bitmap m Hok) by done.
      apply Bool.eq_iff_eq_true. rewrite andb_true_iff, negb_true_iff, !bool_decide_eq_true, Z.eqb_neq, Hp, fmap_cons, elem_of_cons.
      assert (k + 1 = si_signo i <-> k = si_signo i - 1) by lia. split; [tauto|]. intros Hk'. split; [by right|].
      intros E. apply Hni. by replace (si_signo i) with (k + 1) by lia.
  - split; [unfold SIGRTMIN, SIGRTMAX in *; lia|]. unfold queue. cbn [m' pending_sigs with_queues pending_rt_sigs].
    destruct (Z.ltb_spec (si_signo i) SIGRTMIN); [|lia]. split.
    + rewrite (filter_once (pending_sigs m) (si_signo i) (sg_once m Hok) i Hi eq_refl). f_equal. symmetry. apply filter_none.
      intros j Hj Ej. apply Hni. apply list_elem_of_fmap. by exists j.
    + intros s Hne. destruct (s <? SIGRTMIN); [|done].
      rewrite <- (filter_perm (pending_sigs m) (i :: q) s (sg_once m Hok) Hp).
      rewrite filter_cons, decide_False by (intros E; by apply Hne). done.
Qed.

Lemma rt_remove m s i q :
  sig_ok m -> pending_rt_sigs m !! s = Some (i :: q) ->
  let m' := with_queues m (pending_sigs m) (<[s := q]> (pending_rt_sigs m)) (bitmap m) in
  sig_ok m' /\ taken m m' i /\ si_signo i = s.
Proof.
  intros Hok E m'. destruct (sg_rt m Hok s _ E) as [Hs Hq]. assert (Ei : si_signo i = s) by (apply Hq; left).
  split; [apply rt_ok; [done|done|intros j Hj; apply Hq; by right]|]. split; [|done].
  unfold taken, queue. rewrite Ei. cbn [m' pending_sigs with_queues pending_rt_sigs].
  split; [unfold SIGRTMIN, SIGRTMAX in *; lia|]. destruct (Z.ltb_spec s SIGRTMIN); [lia|]. split.
  - by rewrite E, lookup_insert_eq.
  - intros s' Hne. destruct (s' <? SIGRTMIN); [done|]. by rewrite lookup_insert_ne.
Qed.

Lemma dequeue_std_spec l r blocked :
  (Forall (fun s => deferred blocked s = true) l /\ dequeue_std (length l) (l ++ r) blocked = Ret (None, r ++ l)) \/
  exists a s b, l = a ++ s :: b /\ deferred blocked s = false /\
    dequeue_std (length l) (l ++ r) blocked = Ret (Some s, b ++ r ++ a).
Proof.
  revert r. induction l as [|x l IH]; intros r; [left; by rewrite app_nil_r|]. cbn [length app dequeue_std].
  destruct (deferred blocked x) eqn:Ex.
  - rewrite <- app_assoc. destruct (IH (r ++ [x])) as [[Hf ->]|(a & s & b & -> & Hs & ->)].
    + left. split; [by constructor|]. by rewrite <- app_assoc.
    + right. exists (x :: a), s, b. by rewrite <- app_assoc.
  - right. exists [], x, l. by rewrite app_nil_r.
Qed.

Lemma deferred_deliverable m i : sig_ok m -> i ∈ pending_sigs m -> deferred (blocked_sigs m) i = negb (deliverable m (si_signo i)).
Proof. intros _ _. unfold deferred, deliverable. rewrite !negb_orb, negb_involutive. done. Qed.

Lemma dequeue_rt_spec l blocked :
  (forall s q, (s, q) ∈ l -> SIGRTMIN <= s <= SIGRTMAX) ->
  (dequeue_rt l blocked = Ret None /\ forall s q, (s, q) ∈ l -> contain_sig blocked s = false -> q = []) \/
  (exists l1 s i q l2, l = l1 ++ (s, i :: q) :: l2 /\ contain_sig blocked s = false /\
     dequeue_rt l blocked = Ret (Some (s, i, q)) /\ forall s' q', (s', q') ∈ l1 -> contain_sig blocked s' = false -> q' = []).
Proof.
  induction l as [|[s q] l IH]; intros Hl; [left; split; [done|]; by intros ?? ?%elem_of_nil|].
  cbn [dequeue_rt]. destruct (Hl s q ltac:(left)) as [H1 H2]. unfold guard_panic.
  destruct (Z.leb_spec SIGRTMIN s), (Z.leb_spec s SIGRTMAX); try lia.
  assert (Hskip : (contain_sig blocked s = false -> q = []) ->
    (if contain_sig blocked s then dequeue_rt l blocked
     else match q with i :: q => Ret (Some (s, i, q)) | [] => dequeue_rt l blocked end) = dequeue_rt l blocked).
  { destruct (contain_sig blocked s); [done|]. intros ->; done. }
  destruct (contain_sig blocked s) eqn:Eb; [|destruct q as [|i q]].
  3:{ right. exists [], s, i, q, l. split; [done|]. split; [done|]. split; [done|]. by intros ?? ?%elem_of_nil. }
  all: destruct IH as [[-> Hn]|(l1 & s1 & i1 & q1 & l2 & -> & Hs & -> & Hn)]; [intros s' q' Hin; apply (Hl s' q'); by right| |].
  1,3: left; split; [done|]; intros s' q' [[= -> ->]|Hin]%elem_of_cons; [congruence|by apply (Hn s' q')].
  all: right; eexists (_ :: l1), s1, i1, q1, l2; split; [done|]; split; [done|]; split; [done|];
    intros s' q' [[= -> ->]|Hin]%elem_of_cons; [congruence|by apply (Hn s' q')].
Qed.

(** The signal delivered next: never a blocked one, a standard signal before any
    real-time signal, and of those the lowest number; if there is none, every
    pending signal is blocked. *)
Lemma dequeue_ok m :
  sig_ok m -> exists r m', dequeue_one m = Ret (r, m') /\ sig_ok m' /\ same_rest m m' /\
    match r with
    | Some i => taken m m' i /\ deliverable m (si_signo i) = true /\
        forall s, 1 <= s <= SIGRTMAX -> queue m s <> [] -> deliverable m s = true -> SIGRTMIN <= si_signo i -> si_signo i <= s
    | None => (forall s, queue m' s = queue m s) /\
        forall s, 1 <= s <= SIGRTMAX -> queue m s <> [] -> deliverable m s = false
    end.
Proof.
  intros Hok. unfold dequeue_one. pose proof (dequeue_std_spec (pending_sigs m) [] (blocked_sigs m)) as H.
  rewrite app_nil_r in H. destruct H as [[Hf ->]|(a & i & b & Eq & Hi & ->)]; cbn [obind].
  2:{ assert (Hp : pending_sigs m ≡ₚ i :: b ++ a) by (rewrite Eq; solve_Permutation).
      assert (Hin : i ∈ pending_sigs m) by (rewrite Hp; left). cbn [app].
      destruct (std_remove m (b ++ a) i Hok Hp) as [Hok' Ht]. eexists _, _. split; [done|]. split; [exact Hok'|].
      split; [done|]. split; [exact Ht|]. rewrite deferred_deliverable in Hi by done. apply negb_false_iff in Hi.
      split; [done|]. intros s Hs Hq Hd Hge. pose proof (sg_range m Hok i Hin). lia. }
  cbn [app]. assert (Em : with_queues m (pending_sigs m) (pending_rt_sigs m) (bitmap m) = m) by by destruct m. rewrite Em.
  assert (Hstd : forall s, 1 <= s < SIGRTMIN -> queue m s <> [] -> deliverable m s = false).
  { intros s Hs Hq. unfold queue in Hq. destruct (Z.ltb_spec s SIGRTMIN); [|lia].
    destruct (filter (fun i => si_signo i = s) (pending_sigs m)) as [|i l] eqn:E; [done|].
    assert (Hin : i ∈ filter (fun i => si_signo i = s) (pending_sigs m)) by (rewrite E; left).
    apply list_elem_of_filter in Hin as [Ei Hin]. rewrite Forall_forall in Hf. specialize (Hf i Hin).
    rewrite deferred_deliverable in Hf by done. apply negb_true_iff in Hf. by rewrite <- Ei. }
  assert (Hrt : forall s, SIGRTMIN <= s -> deliverable m s = negb (contain_sig (blocked_sigs m) s)).
  { intros s Hs. unfold deliverable, SIGRTMIN, SIGKILL, SIGSTOP in *. destruct (Z.eqb_spec s 9), (Z.eqb_spec s 19); (lia || done). }
  assert (Hq : forall s, SIGRTMIN <= s -> queue m s <> [] -> exists q, (s, q) ∈ bt_iter (pending_rt_sigs m) /\ q <> []).
  { intros s Hs. unfold queue. destruct (Z.ltb_spec s SIGRTMIN); [lia|]. destruct (pending_rt_sigs m !! s) as [q|] eqn:E; [|done].
    intros Hq. exists q. by rewrite elem_of_bt_iter. }
  destruct (dequeue_rt_spec (bt_iter (pending_rt_sigs m)) (blocked_sigs m)) as
    [[-> Hn]|(l1 & s & i & q & l2 & El & Hb & -> & Hn)]; cbn [obind].
  { intros s q Hin%elem_of_bt_iter. by apply (sg_rt m Hok s q). }
  - exists None, m. split; [done|]. split; [done|]. split; [done|]. split; [done|]. intros s Hs Hne.
    destruct (Z.lt_ge_cases s SIGRTMIN); [apply Hstd; (done || lia)|]. rewrite Hrt by done. apply negb_false_iff.
    destruct (contain_sig (blocked_sigs m) s) eqn:Ec; [done|]. destruct (Hq s) as (q & Hin & Hq'); [done|done|]. by destruct Hq'; apply (Hn s q).
  - assert (Es : pending_rt_sigs m !! s = Some (i :: q)) by (apply elem_of_bt_iter; rewrite El; apply elem_of_app; right; left).
    destruct (rt_remove m s i q Hok Es) as (Hok' & Ht & Ei). eexists _, _. split; [done|]. split; [exact Hok'|]. split; [done|].
    split; [exact Ht|]. destruct (sg_rt m Hok s _ Es) as [Hs _]. rewrite Ei, Hrt, Hb by lia. split; [done|].
    intros s' Hs' Hne Hd _. destruct (Z.lt_ge_cases s' SIGRTMIN) as [Hlt|Hge]; [by rewrite Hstd in Hd by (done || lia)|].
    destruct (Z.lt_ge_cases s' s) as [Hlt|]; [|done]. exfalso. rewrite Hrt in Hd by done. apply negb_true_iff in Hd.
    destruct (Hq s') as (q' & Hin & Hq'); [done|done|]. apply Hq', (Hn s' q'); [|done].
    apply elem_of_bt_iter in Hin. by apply (bt_iter_before (pending_rt_sigs m) l1 s (i :: q) l2).
Qed.

Lemma take_first_spec {X} (f : X -> bool) l :
  match take_first f l with
  | Some (x, l') => f x = true /\ l ≡ₚ x :: l'
  | None => forall x, x ∈ l -> f x = false
  end.
Proof.
  induction l as [|y l IH]; cbn [take_first]; [by intros x ?%elem_of_nil|]. destruct (f y) eqn:Ey; [done|].
  destruct (take_first f l) as [[x l']|].
  - destruct IH as [Hx Hp]. split; [done|]. rewrite Hp. apply Permutation_swap.
  - intros x [->|Hx]%elem_of_cons; auto.
Qed.

Lemma contain_land a b s : 1 <= s <= SIGRTMAX -> contain_sig (Z.land a b) s = contain_sig a s && contain_sig b s.
Proof. intros Hs. unfold SIGRTMAX in Hs. by rewrite !contain_sig_bit, Z.land_spec by lia. Qed.

Lemma no_bits x : (forall b, 0 <= b -> Z.testbit x b = false) -> x = 0.
Proof. intros Hb. apply Z.bits_inj'. intros b Hb'. by rewrite Hb, Z.bits_0. Qed.

(** What is waited for and pending is taken; if nothing is taken, nothing that is
    waited for is pending. *)
Lemma dequeue_expected_ok m expected :
  sig_ok m -> let '(r, m') := dequeue_expected_one m expected in
  sig_ok m' /\ same_rest m m' /\
  match r with
  | Some i => taken m m' i /\ contain_sig expected (si_signo i) = true
  | None => m' = m /\ forall s, 1 <= s <= SIGRTMAX -> contain_sig expected s = true -> queue m s = []
  end.
Proof.
  intros Hok. unfold dequeue_expected_one. set (x := Z.land (bitmap m) expected). destruct (Z.eqb_spec x 0) as [E0|Hx].
  - assert (Hstd : forall s, 1 <= s < SIGRTMIN -> contain_sig expected s = true -> queue m s = []).
    { intros s Hs He. pose proof (sig_ok_pending m s Hok Hs) as Hb. destruct (decide (queue m s = [])); [done|].
      rewrite bool_decide_true in Hb by done. assert (Hxs : contain_sig x s = true).
      { unfold x. rewrite contain_land by (unfold SIGRTMIN, SIGRTMAX in *; lia). by rewrite Hb. }
      rewrite E0, contain_sig_bit, Z.bits_0 in Hxs by (unfold SIGRTMIN in Hs; lia). done. }
    pose proof (bt_find (pending_rt_sigs m) (rt_wanted expected)) as Hf.
    destruct (List.find _ _) as [[s q]|].
    + destruct Hf as (Es & Hw & _). unfold rt_wanted in Hw. cbn [fst snd] in Hw. apply andb_prop in Hw as [He Hq].
      apply negb_true_iff, bool_decide_eq_false in Hq. destruct q as [|i q]; [done|]. cbn [head tail].
      destruct (rt_remove m s i q Hok Es) as (Hok' & Ht & Ei). split; [exact Hok'|]. split; [done|]. split; [exact Ht|]. by rewrite Ei.
    + split; [done|]. split; [done|]. split; [done|]. intros s Hs He. destruct (Z.lt_ge_cases s SIGRTMIN); [apply Hstd; (done || lia)|].
      unfold queue. destruct (Z.ltb_spec s SIGRTMIN); [lia|]. destruct (pending_rt_sigs m !! s) as [q|] eqn:Es; [|done].
      specialize (Hf s q Es). unfold rt_wanted in Hf. cbn [fst snd] in Hf. rewrite He in Hf. cbn in Hf.
      apply negb_false_iff, bool_decide_eq_true in Hf. done.
  - pose proof (take_first_spec (fun i => contain_sig x (si_signo i)) (pending_sigs m)) as Ht.
    destruct (take_first _ _) as [[i q]|].
    + destruct Ht as [Hi Hp]. assert (Hin : i ∈ pending_sigs m) by (rewrite Hp; left). pose proof (sg_range m Hok i Hin) as Hs.
      destruct (std_remove m q i Hok Hp) as [Hok' Htk]. split; [exact Hok'|]. split; [done|]. split; [exact Htk|].
      unfold x in Hi. rewrite contain_land in Hi by (unfold SIGRTMIN, SIGRTMAX in *; lia). apply andb_prop in Hi. tauto.
    + exfalso. apply Hx, no_bits. intros b Hb. unfold x. rewrite Z.land_spec, (sg_bitmap m Hok) by done. case_bool_decide as Hbm; [|done].
      apply list_elem_of_fmap in Hbm as (i & Ei & Hin). specialize (Ht i Hin). cbn beta in Ht. pose proof (sg_range m Hok i Hin) as Hs.
      unfold SIGRTMIN in Hs. unfold x in Ht. rewrite contain_sig_bit, Z.land_spec, (sg_bitmap m Hok) in Ht by lia.
      replace (si_signo i - 1 + 1) with (si_signo i) in Ht by lia. rewrite bool_decide_true in Ht by (apply list_elem_of_fmap; by exists i).
      by replace b with (si_signo i - 1) by lia.
Qed.

Lemma sig_new_ok {H : SigHandlers} : sig_ok sig_new.
Proof.
  constructor; cbn [sig_new pending_sigs bitmap pending_rt_sigs sig_handler].
  - by intros i ?%elem_of_nil.
  - apply NoDup_nil_2.
  - intros b Hb. rewrite Z.bits_0. symmetry. apply bool_decide_eq_false. by intros ?%elem_of_nil.
  - intros s q. by rewrite lookup_empty.
  - done.
Qed.

End Queues.

(** ** Runs of one task's manager *)

Inductive SigOp :=
| OpReceive (info : SigInfo)
| OpDequeue
| OpExpect (expected : Z)
| OpMask (set : Z)
| OpAction (signo : Z) (a : KSigAction)
| OpExec.

Section Runs.
Context {H : SigHandlers}.

(** One operation; what it delivers. *)
Definition sig_step (op : SigOp) (m : SigManager) : outcome (option SigInfo * SigManager) :=
  match op with
  | OpReceive info => let! m := sig_receive m info in Ret (None, m)
  | OpDequeue => dequeue_one m
  | OpExpect expected => Ret (dequeue_expected_one m expected)
  | OpMask set => Ret (None, with_blocked m set)
  | OpAction signo a => Ret (None, sig_set_sigaction m signo a)
  | OpExec => let! m := reset_on_exec m in Ret (None, m)
  end.

Fixpoint sig_run (ops : list SigOp) (m : SigManager) : outcome (list SigInfo * SigManager) :=
  match ops with
  | [] => Ret ([], m)
  | op :: ops =>
      let! r := sig_step op m in
      let! rest := sig_run ops r.2 in
      Ret (option_list r.1 ++ rest.1, rest.2)
  end.

(** What was sent, in order. *)
Definition sent (ops : list SigOp) : list SigInfo :=
  omap (fun op => match op with OpReceive info => Some info | _ => None end) ops.

Definition of_sig (s : Z) (l : list SigInfo) : list SigInfo := filter (fun i => si_signo i = s) l.

Definition op_valid (op : SigOp) : Prop :=
  match op with OpReceive info => 1 <= si_signo info <= SIGRTMAX | _ => True end.

Lemma sig_set_sigaction_ok m signo a : sig_ok m -> sig_ok (sig_set_sigaction m signo a).
Proof.
  intros [H1 H2 H3 H4 H5]. unfold sig_set_sigaction. destruct (_ || _); [done|]. destruct (_ <=? _); [|done].
  constructor; try done. cbn. by rewrite length_insert.
Qed.

(** *** exec *)

Lemma reset_action_ok l s :
  1 <= s <= 64 -> length l = 65%nat ->
  exists l', reset_action l s = Ret l' /\ length l' = 65%nat /\
    (forall a, l !! Z.to_nat s = Some a ->
       l' !! Z.to_nat s = Some (if sa_handler (k_sa a) =? handler_addr Ign then a else default_entry s)) /\
    forall k, k <> Z.to_nat s -> l' !! k = l !! k.
Proof.
  intros Hs Hl. unfold reset_action. destruct (lookup_lt_is_Some_2 l (Z.to_nat s)) as [a Ea]; [lia|]. rewrite Ea. cbn [unwrap obind].
  destruct (sa_handler (k_sa a) =? handler_addr Ign) eqn:Ei.
  - exists l. split; [done|]. split; [done|]. split; [|done]. intros b [= <-]. by rewrite Ea, Ei.
  - unfold KSigAction_new, get_default_handler, guard_panic, SIGRTMAX. destruct (Z.leb_spec s 64); [|lia]. cbn [obind].
    eexists. split; [done|]. split; [by rewrite length_insert|]. split.
    + intros b [= <-]. rewrite Ei. apply list_lookup_insert_eq. lia.
    + intros k Hk. by apply list_lookup_insert_ne.
Qed.

Lemma reset_actions_ok signos l :
  NoDup signos -> (forall s, s ∈ signos -> 1 <= s <= 64) -> length l = 65%nat ->
  exists l', reset_actions signos l = Ret l' /\ length l' = 65%nat /\
    (forall s a, s ∈ signos -> l !! Z.to_nat s = Some a ->
       l' !! Z.to_nat s = Some (if sa_handler (k_sa a) =? handler_addr Ign then a else default_entry s)) /\
    forall k, (forall s, s ∈ signos -> k <> Z.to_nat s) -> l' !! k = l !! k.
Proof.
  revert l. induction signos as [|s signos IH]; intros l Hn Hr Hl.
  { exists l. split; [done|]. split; [done|]. split; [by intros ?? ?%elem_of_nil|done]. }
  apply NoDup_cons in Hn as [Hs Hn]. cbn [reset_actions].
  destruct (reset_action_ok l s) as (l1 & -> & Hl1 & Hat & Hot); [apply Hr; left|done|]. cbn [obind].
  destruct (IH l1 Hn) as (l' & -> & Hl' & Hat' & Hot'); [intros s' Hs'; apply Hr; by right|done|].
  assert (Hne : forall s', s' ∈ signos -> Z.to_nat s' <> Z.to_nat s).
  { intros s' Hs' E. apply Hs. pose proof (Hr s' ltac:(by right)). pose proof (Hr s ltac:(left)). by replace s with s' by lia. }
  exists l'. split; [done|]. split; [done|]. split.
  - intros s' a [->|Hs']%elem_of_cons Ea.
    + rewrite Hot'; [by apply Hat|]. intros s' Hs' E. by apply (Hne s').
    + apply Hat'; [done|]. rewrite Hot; [done|]. by apply Hne.
  - intros k Hk. rewrite Hot', Hot; [done|apply Hk; left|]. intros s' Hs'. apply Hk. by right.
Qed.

Lemma reset_on_exec_ok m :
  sig_ok m -> exists m', reset_on_exec m = Ret m' /\ sig_ok m' /\
    pending_sigs m' = pending_sigs m /\ pending_rt_sigs m' = pending_rt_sigs m /\ bitmap m' = bitmap m /\
    blocked_sigs m' = blocked_sigs m /\ wake_sigs m' = wake_sigs m /\
    (forall s a, 1 <= s < 64 -> sig_handler m !! Z.to_nat s = Some a ->
       sig_handler m' !! Z.to_nat s = Some (if sa_handler (k_sa a) =? handler_addr Ign then a else default_entry s)) /\
    (forall k, k = 0%nat \/ k = 64%nat -> sig_handler m' !! k = sig_handler m !! k).
Proof.
  intros Hok. pose proof Hok as [H1 H2 H3 H4 H5]. unfold reset_on_exec, SIGRTMAX. change (64 - 1) with 63.
  destruct (reset_actions_ok (seqZ 1 63) (sig_handler m)) as (l' & -> & Hl & Hat & Hot); [apply NoDup_seqZ| |done|].
  { intros s Hs%elem_of_seqZ. lia. }
  eexists. split; [done|]. split; [by constructor|]. do 5 (split; [done|]). split.
  - intros s a Hs. apply Hat. apply elem_of_seqZ. lia.
  - intros k Hk. apply Hot. intros s Hs%elem_of_seqZ. lia.
Qed.

(** [reset_on_exec] puts every action of signals 1 to 63 back to the default,
    except the ignored ones, which stay; the pending signals and the mask stay.
    The action of signal 64 is not reset: its loop ends one too early. *)
Theorem exec_resets_actions m :
  sig_ok m -> exists m', reset_on_exec m = Ret m' /\ sig_ok m' /\
    (forall s, queue m' s = queue m s) /\ blocked_sigs m' = blocked_sigs m /\
    (forall s a, 1 <= s < SIGRTMAX -> sig_handler m !! Z.to_nat s = Some a ->
       sig_handler m' !! Z.to_nat s = Some (if sa_handler (k_sa a) =? handler_addr Ign then a else default_entry s)) /\
    sig_handler m' !! Z.to_nat SIGRTMAX = sig_handler m !! Z.to_nat SIGRTMAX.
Proof.
  intros Hok. destruct (reset_on_exec_ok m Hok) as (m' & E & Hok' & Ep & Er & _ & Eb & _ & Hat & Hot).
  exists m'. do 2 (split; [done|]). split; [intros s; unfold queue; by rewrite Ep, Er|]. split; [done|]. split; [done|]. apply Hot. by right.
Qed.

(** *** Delivery *)

Lemma sig_step_ok op m :
  sig_ok m -> op_valid op -> exists r m', sig_step op m = Ret (r, m') /\ sig_ok m' /\
    match r with
    | Some i => taken m m' i /\ sent [op] = []
    | None => forall s, queue m' s = queue m s ++
        (if (SIGRTMIN <=? s) || bool_decide (queue m s = []) then of_sig s (sent [op]) else [])
    end.
Proof.
  intros Hok Hv. destruct op; cbn [sig_step].
  - destruct (receive_ok m info Hok Hv) as (m' & -> & Hok' & _ & Hq). cbn [obind]. exists None, m'. split; [done|]. split; [done|].
    intros s. rewrite Hq. unfold of_sig. cbn. rewrite (Z.eqb_sym s). destruct (Z.eqb_spec (si_signo info) s) as [E|E].
    + rewrite decide_True by done. by destruct (_ || _); rewrite ?app_nil_r.
    + rewrite decide_False by done. by destruct (_ || _); rewrite app_nil_r.
  - destruct (dequeue_ok m Hok) as (r & m' & -> & Hok' & _ & Hr). exists r, m'. split; [done|]. split; [done|].
    destruct r as [i|]; [by destruct Hr|]. intros s. rewrite (proj1 Hr). by destruct (_ || _); rewrite app_nil_r.
  - pose proof (dequeue_expected_ok m expected Hok) as Hd. destruct (dequeue_expected_one m expected) as [r m'].
    destruct Hd as (Hok' & _ & Hr). exists r, m'. split; [done|]. split; [done|].
    destruct r as [i|]; [by destruct Hr|]. destruct Hr as [-> _]. intros s. by destruct (_ || _); rewrite app_nil_r.
  - exists None, (with_blocked m set). split; [done|]. split; [by destruct Hok|].
    intros s. by destruct (_ || _); rewrite app_nil_r.
  - exists None, (sig_set_sigaction m signo a). split; [done|]. split; [by apply sig_set_sigaction_ok|]. intros s.
    assert (E : queue (sig_set_sigaction m signo a) s = queue m s) by (unfold sig_set_sigaction; by repeat case_match).
    rewrite E. by destruct (_ || _); rewrite app_nil_r.
  - destruct (reset_on_exec_ok m Hok) as (m' & -> & Hok' & Ep & Er & _). cbn [obind]. exists None, m'. split; [done|]. split; [done|].
    intros s. unfold queue. rewrite Ep, Er. by destruct (_ || _); rewrite app_nil_r.
Qed.

Lemma of_sig_app s l1 l2 : of_sig s (l1 ++ l2) = of_sig s l1 ++ of_sig s l2.
Proof. apply filter_app. Qed.

Lemma sent_cons op ops : sent (op :: ops) = sent [op] ++ sent ops.
Proof. unfold sent. cbn. by destruct op. Qed.

(** What a step does to the signals of one number, delivered and pending. *)
Lemma step_balance m m' r s op :
  match r with
  | Some i => taken m m' i /\ sent [op] = []
  | None => forall s, queue m' s = queue m s ++
      (if (SIGRTMIN <=? s) || bool_decide (queue m s = []) then of_sig s (sent [op]) else [])
  end ->
  of_sig s (option_list r) ++ queue m' s =
    queue m s ++ (if (SIGRTMIN <=? s) || bool_decide (queue m s = []) then of_sig s (sent [op]) else []).
Proof.
  destruct r as [i|]; [|intros Hq; apply Hq]. intros [(_ & Hq & Ho) ->]. assert (E : (if (SIGRTMIN <=? s) || bool_decide (queue m s = [])
    then of_sig s [] else []) = []) by by destruct (_ || _). rewrite E, app_nil_r. unfold of_sig. change (option_list (Some i)) with [i].
  rewrite filter_cons. case_decide as Hs; cbn [app]; [by rewrite <- Hs, Hq|]. rewrite filter_nil. cbn. apply Ho. by intros ->.
Qed.

Lemma sig_run_balance ops m :
  sig_ok m -> Forall op_valid ops -> exists del m', sig_run ops m = Ret (del, m') /\ sig_ok m' /\
    (forall s, SIGRTMIN <= s -> queue m s ++ of_sig s (sent ops) = of_sig s del ++ queue m' s) /\
    (forall s, of_sig s del ++ queue m' s `sublist_of` queue m s ++ of_sig s (sent ops)) /\
    (forall s, queue m s ++ of_sig s (sent ops) <> [] -> of_sig s del ++ queue m' s <> []).
Proof.
  intros Hok Hv. revert m Hok. induction Hv as [|op ops Hop _ IH]; intros m Hok.
  { exists [], m. split; [done|]. split; [done|]. unfold of_sig. cbn. split; [intros s _; by rewrite app_nil_r|].
    split; intros s; rewrite app_nil_r; done. }
  destruct (sig_step_ok op m Hok Hop) as (r & m1 & E1 & Hok1 & Hr). cbn [sig_run]. rewrite E1. cbn [obind fst snd].
  destruct (IH m1 Hok1) as (del & m' & E & Hok' & Hrt & Hsub & Hne). rewrite E. cbn [obind fst snd].
  exists (option_list r ++ del), m'. split; [done|]. split; [done|]. rewrite sent_cons.
  pose proof (fun s => step_balance m m1 r s op Hr) as Hb. split_and!; intros s.
  - intros Hs. specialize (Hb s). destruct (Z.leb_spec SIGRTMIN s); [|lia]. cbn [orb] in Hb.
    rewrite !of_sig_app, app_assoc, <- Hb, <- !app_assoc. f_equal. by apply Hrt.
  - rewrite !of_sig_app, <- app_assoc. etransitivity; [apply sublist_app; [reflexivity|apply Hsub]|].
    rewrite app_assoc, Hb, <- app_assoc. apply sublist_app; [reflexivity|]. apply sublist_app; [|reflexivity].
    destruct (_ || _); [reflexivity|apply sublist_nil_l].
  - rewrite !of_sig_app. intros Hn E0. rewrite <- app_assoc in E0. apply app_eq_nil in E0 as [Er E0].
    apply (Hne s); [|done]. intros E1'. apply app_eq_nil in E1' as [Eq Es]. specialize (Hb s). rewrite Er, Eq in Hb. cbn in Hb. symmetry in Hb.
    apply app_eq_nil in Hb as [Hq Hb]. apply Hn. rewrite Hq, Es, app_nil_r in *. cbn. rewrite bool_decide_true in Hb by done.
    by rewrite orb_true_r in Hb.
Qed.

(** C31: whatever is sent, masked, waited for, caught or executed, signals are neither
    lost, invented nor repeated.  Real-time signals of one number are delivered
    first in first out: those sent are those delivered followed by those pending.
    Of a standard signal, those delivered and pending are among those sent in
    order, and if one was sent one is delivered or pending. *)
Theorem signal_fifo ops :
  Forall op_valid ops -> exists del m, sig_run ops sig_new = Ret (del, m) /\ sig_ok m /\
    (forall s, SIGRTMIN <= s -> of_sig s (sent ops) = of_sig s del ++ queue m s) /\
    (forall s, of_sig s del ++ queue m s `sublist_of` of_sig s (sent ops)) /\
    (forall s, of_sig s (sent ops) <> [] -> of_sig s del ++ queue m s <> []).
Proof.
  intros Hv. destruct (sig_run_balance ops sig_new sig_new_ok Hv) as (del & m & E & Hok & Hrt & Hsub & Hne).
  assert (Eq : forall s, queue sig_new s = []) by (intros s; unfold queue; by destruct (s <? SIGRTMIN)).
  exists del, m. split; [done|]. split; [done|]. split_and!; intros s; [intros Hs; specialize (Hrt s Hs)|specialize (Hsub s)|specialize (Hne s)];
    rewrite Eq in *; done.
Qed.

(** *** SIGKILL *)

Definition kill_default (m : SigManager) : Prop := sig_handler m !! Z.to_nat SIGKILL = Some (default_entry SIGKILL).

Lemma kill_default_step {HL : SigHandlersLaws H} op m r m' :
  sig_ok m -> kill_default m -> sig_step op m = Ret (r, m') -> kill_default m'.
Proof.
  intros Hok Hk. unfold kill_default in *. destruct op; cbn [sig_step].
  - unfold sig_receive. destruct (_ <? _); cbn [obind]; [by intros [= _ <-]; destruct (contain_sig _ _)|].
    unfold guard_panic. destruct (_ <=? _); [|done]. by intros [= _ <-].
  - destruct (dequeue_ok m Hok) as (r1 & m1 & -> & _ & (_ & Eh & _) & _). intros [= _ <-]. by rewrite Eh.
  - pose proof (dequeue_expected_ok m expected Hok) as Hd. intros [= E]. rewrite E in Hd. destruct Hd as (_ & (_ & Eh & _) & _). by rewrite Eh.
  - by intros [= _ <-].
  - intros [= _ <-]. unfold sig_set_sigaction, SIGKILL, SIGSTOP, SIGRTMAX in *.
    destruct (Z.eqb_spec signo 19); [done|]. destruct (Z.eqb_spec signo 9); [done|]. cbn [orb].
    destruct (Z.leb_spec signo 64); [|done]. cbn [sig_handler with_handlers]. rewrite list_lookup_insert_ne; [done|]. lia.
  - destruct (reset_on_exec_ok m Hok) as (m1 & -> & _ & _ & _ & _ & _ & _ & Hat & _). cbn [obind]. intros [= _ <-].
    rewrite (Hat SIGKILL _ ltac:(by vm_compute) Hk). cbn. destruct (Z.eqb_spec (handler_addr Term) (handler_addr Ign)) as [E|]; [|done].
    by apply handler_inj in E.
Qed.

Lemma sig_run_kill {HL : SigHandlersLaws H} ops m del m' :
  sig_ok m -> Forall op_valid ops -> kill_default m -> sig_run ops m = Ret (del, m') -> sig_ok m' /\ kill_default m'.
Proof.
  intros Hok Hv. revert m Hok del. induction Hv as [|op ops Hop _ IH]; intros m Hok del Hk; cbn [sig_run]; [by intros [= _ <-]|].
  destruct (sig_step_ok op m Hok Hop) as (r & m1 & E1 & Hok1 & _). rewrite E1. cbn [obind fst snd].
  pose proof (kill_default_step op m r m1 Hok Hk E1) as Hk1.
  destruct (sig_run ops m1) as [[d m2]|] eqn:E2; [|done]. cbn [obind fst snd]. intros [= _ <-]. by apply (IH m1 Hok1 d).
Qed.

(** [n] signals taken one after the other. *)
Fixpoint drain (n : nat) (m : SigManager) : outcome (list SigInfo * SigManager) :=
  match n with
  | O => Ret ([], m)
  | S n =>
      let! r := dequeue_one m in
      match r.1 with
      | None => Ret ([], r.2)
      | Some i => let! rest := drain n r.2 in Ret (i :: rest.1, rest.2)
      end
  end.

Lemma drain_kill n m :
  sig_ok m -> queue m SIGKILL <> [] -> (length (pending_sigs m) <= n)%nat ->
  exists k l i m', (k <= n)%nat /\ drain k m = Ret (l ++ [i], m') /\ si_signo i = SIGKILL.
Proof.
  revert m. induction n as [|n IH]; intros m Hok Hq Hn.
  { destruct Hq. unfold queue. cbn. destruct (pending_sigs m); [done|cbn in Hn; lia]. }
  destruct (dequeue_ok m Hok) as (r & m1 & E & Hok1 & _ & Hr). destruct r as [i|].
  2:{ destruct Hr as [_ Hr]. by specialize (Hr SIGKILL ltac:(by vm_compute) Hq). }
  destruct Hr as (Ht & Hd & Hlow). destruct (decide (si_signo i = SIGKILL)) as [Ek|Hne].
  { exists 1%nat, [], i, m1. split; [lia|]. cbn [drain]. rewrite E. done. }
  assert (Hlt : si_signo i < SIGRTMIN).
  { destruct (Z.lt_ge_cases (si_signo i) SIGRTMIN); [done|]. specialize (Hlow SIGKILL ltac:(by vm_compute) Hq eq_refl ltac:(done)).
    unfold SIGKILL, SIGRTMIN in *. lia. }
  destruct Ht as (Hs & Hqi & Hqo). destruct (IH m1 Hok1) as (k & l & j & m' & Hk & E' & Ej).
  - by rewrite Hqo by (intros E'; by apply Hne).
  - assert (Hp : pending_sigs m ≡ₚ i :: pending_sigs m1); [|rewrite Hp in Hn; cbn in Hn; lia].
    unfold dequeue_one in E. pose proof (dequeue_std_spec (pending_sigs m) [] (blocked_sigs m)) as Hst. rewrite app_nil_r in Hst.
    destruct Hst as [[_ Es]|(a & x & b & Eq & _ & Es)]; rewrite Es in E; cbn [obind] in E.
    + exfalso. destruct (dequeue_rt _ _) as [[[[s' i'] rest]|]|] eqn:Ert; cbn [obind] in E; try done. injection E as -> <-.
      assert (Hn1 : queue m (si_signo i) = queue m (si_signo i)) by done. revert Hqi. unfold queue.
      destruct (Z.ltb_spec (si_signo i) SIGRTMIN); [|lia]. cbn [pending_sigs with_queues app].
      intros Hc%(f_equal length). cbn in Hc. lia.
    + injection E as -> <-. cbn [pending_sigs with_queues app]. rewrite Eq. solve_Permutation.
  - exists (S k), (i :: l), j, m'. split; [lia|]. cbn [drain]. rewrite E. cbn [obind fst snd]. by rewrite E'.
Qed.

(** C32: a SIGKILL cannot be blocked, caught or ignored: after any operations, if one is
    pending it is delivered among the next signals taken, at most as many as
    there are standard signals pending, and its action is still to terminate. *)
Theorem sigkill_certain {HL : SigHandlersLaws H} ops :
  Forall op_valid ops -> exists del m, sig_run ops sig_new = Ret (del, m) /\
    sig_handler m !! Z.to_nat SIGKILL = Some (default_entry SIGKILL) /\
    (queue m SIGKILL <> [] -> exists n l i m', (n <= length (pending_sigs m))%nat /\
       drain n m = Ret (l ++ [i], m') /\ si_signo i = SIGKILL).
Proof.
  intros Hv. destruct (sig_run_balance ops sig_new sig_new_ok Hv) as (del & m & E & _).
  destruct (sig_run_kill ops sig_new del m sig_new_ok Hv eq_refl E) as [Hok Hk].
  exists del, m. split; [done|]. split; [done|]. intros Hq. by apply drain_kill.
Qed.

End Runs.

(** ** A concrete run *)

#[export] Instance demo_handlers : SigHandlers := {|
  handler_addr a := match a with Term => 0x80200100 | Ign => 0x80200200 | Core => 0x80200300 | Stop => 0x80200400 | Cont => 0x80200500 end |}.

#[export] Instance demo_handlers_laws : SigHandlersLaws demo_handlers.
Proof. constructor. by intros [] []. Qed.

(** Two instances of signal 34, a blocked SIGINT sent twice, an action for it and a
    SIGKILL behind. *)
Definition demo_ops : list SigOp :=
  [ OpMask (Z.lor (sig_bit 2) (sig_bit 34)); OpReceive (mkInfo 34 0 (Some 5)); OpReceive (mkInfo 2 0 (Some 5));
    OpReceive (mkInfo 2 0 (Some 6)); OpReceive (mkInfo 34 0 (Some 7)); OpDequeue; OpAction 9 (mkKsa (mkSa 0x1000 0 0 0) true);
    OpReceive (mkInfo 9 0 (Some 8)); OpExpect (sig_bit 34) ].

Lemma demo_ops_valid : Forall op_valid demo_ops.
Proof. unfold demo_ops. repeat constructor; by vm_compute. Qed.

Lemma signal_fifo_witness :
  exists del m, sig_run demo_ops sig_new = Ret (del, m) /\ of_sig 34 (sent demo_ops) = of_sig 34 del ++ queue m 34.
Proof.
  destruct (signal_fifo demo_ops demo_ops_valid) as (del & m & E & _ & Hrt & _). exists del, m. split; [exact E|].
  by apply Hrt.
Defined.

Lemma sigkill_certain_witness :
  exists del m, sig_run demo_ops sig_new = Ret (del, m) /\ queue m SIGKILL <> [] /\
    exists n l i m', drain n m = Ret (l ++ [i], m') /\ si_signo i = SIGKILL.
Proof.
  destruct (sigkill_certain demo_ops demo_ops_valid) as (del & m & E & _ & Hd). exists del, m. split; [exact E|].
  assert (Hq : queue m SIGKILL <> []) by (revert E; vm_compute; intros [= _ <-]; done). split; [done|].
  destruct (Hd Hq) as (n & l & i & m' & _ & H1 & H2). by exists n, l, i, m'.
Defined.

Lemma exec_resets_actions_witness :
  let m := sig_set_sigaction (sig_set_sigaction sig_new 2 (mkKsa (mkSa 0x1000 0 0 0) true)) 64 (mkKsa (mkSa 0x1000 0 0 0) true) in
  exists m', reset_on_exec m = Ret m' /\ sig_handler m' !! 2%nat = Some (default_entry 2) /\
    sig_handler m' !! 64%nat = Some (mkKsa (mkSa 0x1000 0 0 0) true).
Proof.
  intros m. destruct (exec_resets_actions m) as (m' & E & _ & _ & _ & Hat & H64).
  { apply sig_set_sigaction_ok, sig_set_sigaction_ok, sig_new_ok. }
  exists m'. split; [exact E|]. split; [apply (Hat 2 (mkKsa (mkSa 0x1000 0 0 0) true)); by vm_compute|]. exact H64.
Defined.
