(* ===== verification/UserMem.v ===== *)
(** User memory as the system calls reach it (os/src/mm/user.rs): an interface, so
    that calls that read and write user structures do not depend on how an
    address space is built.  Every access may fault a page in, so it returns the
    memory it leaves, and may end in a fault the kernel does not survive. *)

From S2P Require Import Prelude Errno.

#[local] Open Scope Z_scope.

Definition ACCESS_READ : Z := 1.
Definition ACCESS_WRITE : Z := 2.

(** [ensure_access] of an address space, the accesses through the pointer it
    guards, and [translate_uva_checked].  The argument after the memory names the
    address space; a load or store is of a little-endian word of that many bytes. *)
Class UserMemory (M : Type) := {
  um_ensure : M -> Z -> Z -> Z -> Z -> outcome (bool * M);
  um_load : M -> Z -> Z -> Z -> outcome (Z * M);
  um_store : M -> Z -> Z -> Z -> Z -> outcome M;
  um_translate : M -> Z -> Z -> Z -> outcome (option Z * M);
}.

Section Pointers.
Context {M : Type} {UM : UserMemory M}.

(** [ensure_read] and [ensure_write] of a pointer to a structure of [size] bytes. *)
Definition ensure_read (m : M) (vm ptr size : Z) : outcome (bool * M) := um_ensure m vm ptr size ACCESS_READ.
Definition ensure_write (m : M) (vm ptr size : Z) : outcome (bool * M) := um_ensure m vm ptr size ACCESS_WRITE.

(** Consecutive 8-byte fields of a structure. *)
Fixpoint load_words (m : M) (vm ptr : Z) (n : nat) : outcome (list Z * M) :=
  match n with
  | O => Ret ([], m)
  | S n =>
      let! r := um_load m vm ptr 8 in
      let! rs := load_words r.2 vm (wadd ptr 8) n in
      Ret (r.1 :: rs.1, rs.2)
  end.

Fixpoint store_words (m : M) (vm ptr : Z) (ws : list Z) : outcome M :=
  match ws with
  | [] => Ret m
  | w :: ws =>
      let! m := um_store m vm ptr 8 w in
      store_words m vm (wadd ptr 8) ws
  end.

End Pointers.

(** A flat memory: the words some addresses hold, everything else unmapped. *)
Definition FlatMem := gmap (Z * Z) Z.

#[export] Instance flat_memory : UserMemory FlatMem := {
  um_ensure m vm a _ _ := Ret (bool_decide (is_Some (m !! (vm, a))), m);
  um_load m vm a _ := let! v := unwrap (m !! (vm, a)) in Ret (v, m);
  um_store m vm a _ v := Ret (<[(vm, a) := v]> m);
  um_translate m vm a _ := Ret (if bool_decide (is_Some (m !! (vm, a))) then Some (2 ^ 40 + a) else None, m);
}.
