(* ===== verification/Time.v ===== *)
(** Time (os/src/timer and os/src/syscall/time.rs): the conversions between the
    kernel's durations and the structures of the system calls, the clock, the
    accounting of a task's time, the queue of timers and the interval timers.
    A duration is the standard library's, whose arithmetic panics on overflow.
    The clock is a sequence of readings, each call taking the next. *)

From S2P Require Import Prelude Errno UserMem.

#[local] Open Scope Z_scope.

Definition TICKS_PER_SEC : Z := 100.
Definition MSEC_PER_SEC : Z := 1000.
Definition USEC_PER_SEC : Z := 1000000.
Definition NSEC_PER_SEC : Z := 1000000000.

(** ** Durations *)

Record Duration := mkDur { as_secs : Z; subsec_nanos : Z }.

#[export] Instance Duration_eq_dec : EqDecision Duration.
Proof. solve_decision. Defined.

Definition dur_zero : Duration := mkDur 0 0.

Definition Duration_new (s n : Z) : outcome Duration :=
  if n <? NSEC_PER_SEC then Ret (mkDur s n)
  else if s + n / NSEC_PER_SEC <? 2 ^ 64 then Ret (mkDur (s + n / NSEC_PER_SEC) (n mod NSEC_PER_SEC))
  else Panic.

Definition as_nanos (d : Duration) : Z := as_secs d * NSEC_PER_SEC + subsec_nanos d.
Definition as_micros (d : Duration) : Z := as_secs d * USEC_PER_SEC + subsec_nanos d / 1000.
Definition subsec_micros (d : Duration) : Z := subsec_nanos d / 1000.

Definition dur_checked_add (a b : Duration) : option Duration :=
  let n := subsec_nanos a + subsec_nanos b in
  let s := as_secs a + as_secs b in
  if s <? 2 ^ 64 then
    if n <? NSEC_PER_SEC then Some (mkDur s n)
    else if s + 1 <? 2 ^ 64 then Some (mkDur (s + 1) (n - NSEC_PER_SEC)) else None
  else None.

Definition dur_checked_sub (a b : Duration) : option Duration :=
  let s := as_secs a - as_secs b in
  if 0 <=? s then
    if subsec_nanos b <=? subsec_nanos a then Some (mkDur s (subsec_nanos a - subsec_nanos b))
    else if 0 <=? s - 1 then Some (mkDur (s - 1) (subsec_nanos a + NSEC_PER_SEC - subsec_nanos b)) else None
  else None.

Definition dur_add (a b : Duration) : outcome Duration := unwrap (dur_checked_add a b).
Definition dur_sub (a b : Duration) : outcome Duration := unwrap (dur_checked_sub a b).
Definition dur_saturating_sub (a b : Duration) : Duration := default dur_zero (dur_checked_sub a b).

Definition dur_le (a b : Duration) : bool :=
  (as_secs a <? as_secs b) || (as_secs a =? as_secs b) && (subsec_nanos a <=? subsec_nanos b).

Definition dur_is_zero (d : Duration) : bool := (as_secs d =? 0) && (subsec_nanos d =? 0).

(** ** The clock *)

(** [get_current_time_ms], [get_current_time_us] and [get_current_time_ns] at a
    reading of the cycle counter. *)
Definition get_current_time_in (unit freq cycles : Z) : Z := wrap (cycles * unit / freq).
Definition get_current_time_ms := get_current_time_in MSEC_PER_SEC.
Definition get_current_time_us := get_current_time_in USEC_PER_SEC.
Definition get_current_time_ns := get_current_time_in NSEC_PER_SEC.

Definition get_current_time_duration (freq cycles : Z) : outcome Duration :=
  let secs := cycles / freq in
  let cycles := cycles mod freq in
  let nanos := (cycles * NSEC_PER_SEC / freq) mod 2 ^ 32 in
  Duration_new secs nanos.

(** ** The structures of the system calls *)

Record TimeVal := mkTv { tv_sec : Z; tv_usec : Z }.
Record TimeSpec := mkTs { ts_sec : Z; ts_nsec : Z }.

Definition isize_of (z : Z) : Z := if z <? 2 ^ 63 then z else z - 2 ^ 64.

Definition TimeVal_from (d : Duration) : TimeVal := mkTv (as_secs d) (subsec_micros d).
Definition TimeVal_into (t : TimeVal) : outcome Duration :=
  Duration_new (tv_sec t) (wmul (tv_usec t) MSEC_PER_SEC mod 2 ^ 32).
Definition TimeVal_from_usec (usec : Z) : TimeVal := mkTv (usec / USEC_PER_SEC) (usec mod USEC_PER_SEC).
Definition TimeVal_into_usec (t : TimeVal) : Z := wadd (wmul (tv_sec t) USEC_PER_SEC) (tv_usec t).
Definition TimeVal_is_zero (t : TimeVal) : bool := (tv_sec t =? 0) && (tv_usec t =? 0).
Definition TimeVal_is_valid (t : TimeVal) : bool :=
  (0 <? isize_of (tv_sec t)) && (0 <=? isize_of (tv_usec t)) && (tv_usec t <? 1000000).

Definition TimeSpec_into_ms (t : TimeSpec) : Z :=
  wadd (wmul (ts_sec t) MSEC_PER_SEC) (ts_nsec t / (NSEC_PER_SEC / MSEC_PER_SEC)).
Definition TimeSpec_from_ms (ms : Z) : TimeSpec :=
  mkTs (ms / MSEC_PER_SEC) ((ms mod MSEC_PER_SEC) * (NSEC_PER_SEC / MSEC_PER_SEC)).
Definition TimeSpec_is_valid (t : TimeSpec) : bool :=
  (0 <=? isize_of (ts_sec t)) && (0 <=? isize_of (ts_nsec t)) && (ts_nsec t <? 1000000000).
Definition TimeSpec_from (d : Duration) : TimeSpec := mkTs (as_secs d) (subsec_nanos d).
Definition TimeSpec_into (t : TimeSpec) : outcome Duration := Duration_new (ts_sec t) (ts_nsec t mod 2 ^ 32).

(** ** The accounting of a task's time *)

Record TimeRecorder := mkRec {
  user_time : Duration; kernel_time : Duration;
  kernel_start : Duration; user_start : Duration;
  child_user_time : Duration; child_kernel_time : Duration;
}.

Definition recorder_new : TimeRecorder := mkRec dur_zero dur_zero dur_zero dur_zero dur_zero dur_zero.

Definition time_pair (r : TimeRecorder) : Duration * Duration := (user_time r, kernel_time r).
Definition child_time_pair (r : TimeRecorder) : Duration * Duration := (child_user_time r, child_kernel_time r).
Definition processor_time (r : TimeRecorder) : outcome Duration := dur_add (kernel_time r) (user_time r).

Definition update_user_start (r : TimeRecorder) (t : Duration) : TimeRecorder :=
  mkRec (user_time r) (kernel_time r) (kernel_start r) t (child_user_time r) (child_kernel_time r).

Definition update_child_time (r : TimeRecorder) (p : Duration * Duration) : outcome TimeRecorder :=
  let! u := dur_add (child_user_time r) p.1 in
  let! k := dur_add (child_kernel_time r) p.2 in
  Ret (mkRec (user_time r) (kernel_time r) (kernel_start r) (user_start r) u k).

Definition record_switch_in (r : TimeRecorder) (now : Duration) : TimeRecorder :=
  mkRec (user_time r) (kernel_time r) now (user_start r) (child_user_time r) (child_kernel_time r).

Definition record_switch_out (r : TimeRecorder) (now : Duration) : outcome TimeRecorder :=
  let! slice := dur_sub now (kernel_start r) in
  let! k := dur_add (kernel_time r) slice in
  Ret (mkRec (user_time r) k (kernel_start r) (user_start r) (child_user_time r) (child_kernel_time r)).

Definition record_trap (r : TimeRecorder) (now : Duration) : outcome TimeRecorder :=
  let! slice := dur_sub now (user_start r) in
  let! u := dur_add (user_time r) slice in
  Ret (mkRec u (kernel_time r) now (user_start r) (child_user_time r) (child_kernel_time r)).

Definition record_trap_return (r : TimeRecorder) (now : Duration) : outcome TimeRecorder :=
  let! slice := dur_sub now (user_start r) in
  let! k := dur_add (kernel_time r) slice in
  Ret (mkRec (user_time r) k (kernel_start r) now (child_user_time r) (child_kernel_time r)).

Record Tms := mkTms { utime : Z; stime : Z; cutime : Z; cstime : Z }.

Definition Tms_from_time_recorder (r : TimeRecorder) : Tms :=
  mkTms (wrap (as_micros (user_time r))) (wrap (as_micros (kernel_time r)))
    (wrap (as_micros (child_time_pair r).1)) (wrap (as_micros (child_time_pair r).2)).

(** ** Timers *)

Inductive TimerEvent :=
| WakerData (tid : Z)
| RealITimer (task id : Z).

Record Timer := mkTimer { expire : Duration; data : TimerEvent }.

Definition Timer_new_waker_timer (e : Duration) (tid : Z) : Timer := mkTimer e (WakerData tid).

(** The queue is a [BinaryHeap] of [Reverse] timers: a bag whose [pop] removes
    some timer no other one expires before. *)
Class MinHeap := { heap_pop : list Timer -> option (Timer * list Timer) }.

Class MinHeapLaws {H : MinHeap} := {
  heap_pop_none l : heap_pop l = None <-> l = [];
  heap_pop_min l t l' : heap_pop l = Some (t, l') ->
    l ≡ₚ t :: l' /\ forall x, x ∈ l -> dur_le (expire t) (expire x) = true;
}.

Record ITimer := mkIT { interval : Duration; next_expire : Duration; it_id : Z }.

Definition ITimer_ZERO : ITimer := mkIT dur_zero dur_zero 0.

Record ITimerVal := mkItv { it_interval : TimeVal; it_value : TimeVal }.

Definition ITimerVal_is_valid (v : ITimerVal) : bool :=
  (tv_usec (it_interval v) <? 1000000) && (tv_usec (it_value v) <? 1000000).

(** What an expired timer does to a task. *)
Inductive Fired := FWake (tid : Z) | FAlarm (task : Z).

(** The timer manager; the interval timers, which the threads of a process share:
    the cell of each living task and what the cells hold; the id allocator, the
    number of clock readings taken, and what the timers have done. *)
Record TimerState := mkTS {
  timers : list Timer;
  itimer_cell : gmap Z Z;
  itimers : gmap Z (list ITimer);
  timer_ids : Z;
  reads : nat;
  fired : list Fired;
}.

Definition with_timers (s : TimerState) (l : list Timer) : TimerState :=
  mkTS l (itimer_cell s) (itimers s) (timer_ids s) (reads s) (fired s).
Definition with_itimers (s : TimerState) (m : gmap Z (list ITimer)) : TimerState :=
  mkTS (timers s) (itimer_cell s) m (timer_ids s) (reads s) (fired s).
Definition fire (s : TimerState) (f : Fired) : TimerState :=
  mkTS (timers s) (itimer_cell s) (itimers s) (timer_ids s) (reads s) (fired s ++ [f]).

Definition add_timer (s : TimerState) (t : Timer) : TimerState := with_timers s (t :: timers s).

Definition alloc_timer_id (s : TimerState) : Z * TimerState :=
  (timer_ids s, mkTS (timers s) (itimer_cell s) (itimers s) (wadd (timer_ids s) 1) (reads s) (fired s)).

Section Timers.
Context {H : MinHeap} (clk : nat -> Duration).

Definition read_clock (s : TimerState) : Duration * TimerState :=
  (clk (reads s), mkTS (timers s) (itimer_cell s) (itimers s) (timer_ids s) (S (reads s)) (fired s)).

(** The callbacks of the two kinds of event. *)
Definition callback (e : TimerEvent) (s : TimerState) : outcome (option Timer * TimerState) :=
  match e with
  | WakerData tid => Ret (None, fire s (FWake tid))
  | RealITimer task id =>
      match itimer_cell s !! task with
      | None => Ret (None, s)
      | Some cell =>
          let! its := unwrap (itimers s !! cell) in
          let! real := unwrap (its !! 0%nat) in
          if negb (it_id real =? id) then Ret (None, s)
          else
            let s := fire s (FAlarm task) in
            if bool_decide (interval real = dur_zero) then Ret (None, s)
            else
              let '(now, s) := read_clock s in
              let! next := dur_add now (interval real) in
              let its := <[0%nat := mkIT (interval real) next (it_id real)]> its in
              Ret (Some (mkTimer next e), with_itimers s (<[cell := its]> (itimers s)))
      end
  end.

(** [TimerManager::check]; [None] when the fuel runs out. *)
Fixpoint check (fuel : nat) (s : TimerState) : option (outcome TimerState) :=
  match fuel with
  | O => None
  | S fuel =>
      match heap_pop (timers s) with
      | None => Some (Ret s)
      | Some (timer, rest) =>
          let '(now, s) := read_clock s in
          if dur_le (expire timer) now then
            match callback (data timer) (with_timers s rest) with
            | Ret (Some t, s) => check fuel (add_timer s t)
            | Ret (None, s) => check fuel s
            | Panic => Some Panic
            end
          else Some (Ret s)
      end
  end.

(** [suspend_timeout]: before the suspension, and what is left of the limit after. *)
Definition suspend_timeout_begin (s : TimerState) (tid : Z) (limit : Duration) : outcome (Duration * TimerState) :=
  let '(now, s) := read_clock s in
  let! e := dur_add now limit in
  Ret (e, add_timer s (Timer_new_waker_timer e tid)).

Definition suspend_timeout_end (s : TimerState) (e : Duration) : outcome (Duration * TimerState) :=
  let '(now, s) := read_clock s in
  if negb (dur_le e now) then let! r := dur_sub e now in Ret (r, s) else Ret (dur_zero, s).

(** ** The system calls *)

Context {M : Type} {UM : UserMemory M}.

(** A call that ended, or one that sleeps until [e] and then resumes. *)
Inductive sleep_call := Finished (r : result Z SysError) | Sleeping (e : Duration) (rem_ptr : Z).

Definition ts_words (t : TimeSpec) : list Z := [ts_sec t; ts_nsec t].
Definition tv_words (t : TimeVal) : list Z := [tv_sec t; tv_usec t].
Definition word (ws : list Z) (i : nat) : Z := default 0 (ws !! i).

Definition sys_gettimeofday (freq cycles vm tv : Z) (m : M) : outcome (result Z SysError * M) :=
  let! r := ensure_write m vm tv 16 in
  let '(ok, m) := r in
  if negb ok then Ret (Err EINVAL, m)
  else
    let current_time := get_current_time_us freq cycles in
    let! m := store_words m vm tv (tv_words (mkTv (current_time / 1000000) (current_time mod 1000000))) in
    Ret (Ok 0, m).

Definition sys_times (rec : TimeRecorder) (vm tms : Z) (m : M) : outcome (result Z SysError * M) :=
  let! r := ensure_write m vm tms 32 in
  let '(ok, m) := r in
  if negb ok then Ret (Err EINVAL, m)
  else
    let t := Tms_from_time_recorder rec in
    let! m := store_words m vm tms [utime t; stime t; cutime t; cstime t] in
    Ret (Ok 0, m).

Definition sys_nanosleep (tid vm time_ptr time_out_ptr : Z) (m : M) (s : TimerState) :
    outcome (sleep_call * M * TimerState) :=
  let! r := ensure_read m vm time_ptr 16 in
  let '(ok, m) := r in
  if negb ok then Ret (Finished (Err EINVAL), m, s)
  else
    let! r := load_words m vm time_ptr 2 in
    let '(ws, m) := r in
    let! r := ensure_write m vm time_out_ptr 16 in
    let '(ok, m) := r in
    if negb ok then Ret (Finished (Err EINVAL), m, s)
    else
      let! dur := TimeSpec_into (mkTs (word ws 0) (word ws 1)) in
      let! r := suspend_timeout_begin s tid dur in
      Ret (Sleeping r.1 time_out_ptr, m, r.2).

(** After the suspension: [sys_nanosleep] stores what is left, [sys_clock_nanosleep]
    only through a pointer that is not null. *)
Definition sleep_resume (vm : Z) (e : Duration) (rem_ptr : Z) (null_skips : bool) (m : M) (s : TimerState) :
    outcome (result Z SysError * M * TimerState) :=
  let! r := suspend_timeout_end s e in
  let '(rem, s) := r in
  if dur_is_zero rem then Ret (Ok 0, m, s)
  else if null_skips && (rem_ptr =? 0) then Ret (Err EINTR, m, s)
  else
    let! m := store_words m vm rem_ptr (ts_words (TimeSpec_from rem)) in
    Ret (Err EINTR, m, s).

Definition CLOCK_REALTIME : Z := 0.
Definition CLOCK_MONOTONIC : Z := 1.
Definition CLOCK_PROCESS_CPUTIME_ID : Z := 2.
Definition CLOCK_THREAD_CPUTIME_ID : Z := 3.
Definition CLOCK_REALTIME_COARSE : Z := 5.
Definition CLOCK_MONOTONIC_COARSE : Z := 6.

(** [dev] is [CLOCK_DEVIATION] and [cpu] the process's processor time. *)
Definition sys_clock_gettime (dev : Z -> Duration) (cpu : Duration) (rec : TimeRecorder) (vm clock_id ts : Z)
    (m : M) (s : TimerState) : outcome (result Z SysError * M * TimerState) :=
  if ts =? 0 then Ret (Ok 0, m, s)
  else
    let put d s := let! m := store_words m vm ts (ts_words (TimeSpec_from d)) in Ret (Ok 0, m, s) in
    let wall i :=
      let '(current, s) := read_clock s in
      let! d := dur_add (dev i) current in put d s in
    if (clock_id =? CLOCK_REALTIME) || (clock_id =? CLOCK_MONOTONIC) then wall clock_id
    else if clock_id =? CLOCK_PROCESS_CPUTIME_ID then put cpu s
    else if clock_id =? CLOCK_THREAD_CPUTIME_ID then
      let! d := dur_add (time_pair rec).1 (time_pair rec).2 in put d s
    else if clock_id =? CLOCK_REALTIME_COARSE then wall CLOCK_REALTIME
    else if clock_id =? CLOCK_MONOTONIC_COARSE then wall CLOCK_MONOTONIC
    else Ret (Err EINVAL, m, s).

Definition sys_clock_getres (vm res_ptr : Z) (m : M) : outcome (result Z SysError * M) :=
  if res_ptr =? 0 then Ret (Ok 0, m)
  else
    let! r := ensure_write m vm res_ptr 16 in
    let '(ok, m) := r in
    if negb ok then Ret (Err EINVAL, m)
    else
      let! m := store_words m vm res_ptr (ts_words (TimeSpec_from (mkDur 0 1))) in
      Ret (Ok 0, m).

(** What is left of an interval timer. *)
Definition itimer_val (it : ITimer) (now : Duration) : ITimerVal :=
  mkItv (TimeVal_from (interval it)) (TimeVal_from (dur_saturating_sub (next_expire it) now)).

Definition itv_words (v : ITimerVal) : list Z := tv_words (it_interval v) ++ tv_words (it_value v).

Definition sys_setitimer (task vm which new_ptr old_ptr : Z) (m : M) (s : TimerState) :
    outcome (result Z SysError * M * TimerState) :=
  if 2 <? which then Ret (Err EINVAL, m, s)
  else
    let! r := load_words m vm new_ptr 4 in
    let '(ws, m) := r in
    let new := mkItv (mkTv (word ws 0) (word ws 1)) (mkTv (word ws 2) (word ws 3)) in
    if negb (ITimerVal_is_valid new) then Ret (Err EINVAL, m, s)
    else
      let '(id, s) := alloc_timer_id s in
      let! cell := unwrap (itimer_cell s !! task) in
      let! its := unwrap (itimers s !! cell) in
      let! it := unwrap (its !! Z.to_nat which) in
      let '(now, s) := read_clock s in
      let prev := itimer_val it now in
      let! intv := TimeVal_into (it_interval new) in
      let! r :=
        (if TimeVal_is_zero (it_value new) then Ret (dur_zero, s)
         else
           let '(now, s) := read_clock s in
           let! v := TimeVal_into (it_value new) in
           let! e := dur_add now v in Ret (e, s)) in
      let '(next, s) := r in
      let s := with_itimers s (<[cell := <[Z.to_nat which := mkIT intv next id]> its]> (itimers s)) in
      let s := if TimeVal_is_zero (it_value new) then s
               else add_timer s (mkTimer next (RealITimer task id)) in
      let! m := (if old_ptr =? 0 then Ret m else store_words m vm old_ptr (itv_words prev)) in
      Ret (Ok 0, m, s).

Definition sys_getitimer (task vm which now_ptr : Z) (m : M) (s : TimerState) :
    outcome (result Z SysError * M * TimerState) :=
  if 2 <? which then Ret (Err EINVAL, m, s)
  else if now_ptr =? 0 then Ret (Ok 0, m, s)
  else
    let! cell := unwrap (itimer_cell s !! task) in
    let! its := unwrap (itimers s !! cell) in
    let! it := unwrap (its !! Z.to_nat which) in
    let '(now, s) := read_clock s in
    let! m := store_words m vm now_ptr (itv_words (itimer_val it now)) in
    Ret (Ok 0, m, s).

Definition sys_clock_nanosleep (tid vm clock_id flags t_ptr rem_ptr : Z) (m : M) (s : TimerState) :
    outcome (sleep_call * M * TimerState) :=
  if (clock_id =? CLOCK_REALTIME) || (clock_id =? CLOCK_MONOTONIC) then
    let! r := load_words m vm t_ptr 2 in
    let '(ws, m) := r in
    let! req := TimeSpec_into (mkTs (word ws 0) (word ws 1)) in
    if flags =? 1 then
      let '(current, s) := read_clock s in
      if dur_le req current then Ret (Finished (Ok 0), m, s)
      else
        let! sleep := dur_sub req current in
        let! r := suspend_timeout_begin s tid sleep in
        Ret (Sleeping r.1 rem_ptr, m, r.2)
    else
      let! r := suspend_timeout_begin s tid req in
      Ret (Sleeping r.1 rem_ptr, m, r.2)
  else Ret (Finished (Err EINVAL), m, s).

End Timers.

(** ** Durations are their nanoseconds *)

Definition dur_ok (d : Duration) : Prop := 0 <= as_secs d < 2 ^ 64 /\ 0 <= subsec_nanos d < NSEC_PER_SEC.

Ltac dur_lia := unfold dur_ok, as_nanos, as_micros, NSEC_PER_SEC, USEC_PER_SEC, MSEC_PER_SEC in *; cbn in *; lia.

Lemma dur_le_spec a b : dur_ok a -> dur_ok b -> dur_le a b = true <-> as_nanos a <= as_nanos b.
Proof. destruct a, b. unfold dur_le. cbn. intros Ha Hb. rewrite orb_true_iff, andb_true_iff. zbool. dur_lia. Qed.

Lemma dur_add_spec a b : dur_ok a -> dur_ok b -> as_nanos a + as_nanos b < 2 ^ 64 * NSEC_PER_SEC ->
  exists c, dur_add a b = Ret c /\ dur_ok c /\ as_nanos c = as_nanos a + as_nanos b.
Proof.
  destruct a as [s n], b as [s' n']. unfold dur_add, dur_checked_add. cbn. intros Ha Hb Hsum.
  destruct (Z.ltb_spec (s + s') (2 ^ 64)); [|dur_lia].
  destruct (Z.ltb_spec (n + n') NSEC_PER_SEC); [|destruct (Z.ltb_spec (s + s' + 1) (2 ^ 64)); [|dur_lia]];
    (eexists; split; [reflexivity|]); dur_lia.
Qed.

Lemma dur_sub_spec a b : dur_ok a -> dur_ok b -> as_nanos b <= as_nanos a ->
  exists c, dur_sub a b = Ret c /\ dur_ok c /\ as_nanos c = as_nanos a - as_nanos b.
Proof.
  destruct a as [s n], b as [s' n']. unfold dur_sub, dur_checked_sub. cbn. intros Ha Hb Hle.
  destruct (Z.leb_spec 0 (s - s')); [|dur_lia].
  destruct (Z.leb_spec n' n); [|destruct (Z.leb_spec 0 (s - s' - 1)); [|dur_lia]];
    (eexists; split; [reflexivity|]); dur_lia.
Qed.

Lemma dur_new_small s n : n < NSEC_PER_SEC -> Duration_new s n = Ret (mkDur s n).
Proof. unfold Duration_new. intros Hn. by rewrite (proj2 (Z.ltb_lt _ _) Hn). Qed.

Section Clock.
Context (freq cycles : Z) (Hfreq : 0 < freq < 2 ^ 64) (Hcycles : 0 <= cycles < 2 ^ 64).

(** The seconds and the rest of the division by the frequency, recombined. *)
Lemma clock_split unit : 0 < unit -> cycles * unit / freq = cycles / freq * unit + cycles mod freq * unit / freq.
Proof.
  intros Hu. rewrite <- Z.div_add_l by lia. f_equal.
  rewrite (Z.div_mod cycles freq) at 1 by lia. ring.
Qed.

Lemma clock_rest : 0 <= cycles mod freq * NSEC_PER_SEC / freq < NSEC_PER_SEC.
Proof.
  pose proof (Z.mod_pos_bound cycles freq ltac:(lia)). unfold NSEC_PER_SEC. split; [apply Z.div_pos; lia|].
  apply Z.div_lt_upper_bound; nia.
Qed.

Lemma clock_duration : get_current_time_duration freq cycles =
  Ret (mkDur (cycles / freq) (cycles mod freq * NSEC_PER_SEC / freq)).
Proof.
  pose proof clock_rest. unfold get_current_time_duration.
  rewrite Z.mod_small by dur_lia. apply dur_new_small. lia.
Qed.

Lemma clock_secs : 0 <= cycles / freq < 2 ^ 64.
Proof. split; [apply Z.div_pos; lia|]. apply Z.div_lt_upper_bound; nia. Qed.

Lemma clock_coarser k unit : 0 < k -> 0 < unit -> cycles * (unit * k) / freq / k = cycles * unit / freq.
Proof.
  intros Hk Hu. rewrite Z.div_div by lia. rewrite (Z.mul_comm freq k), Z.mul_assoc, Z.mul_comm.
  rewrite Z.div_mul_cancel_l by lia. done.
Qed.

End Clock.

Lemma as_micros_nanos d : dur_ok d -> as_micros d = as_nanos d / 1000.
Proof.
  intros Hd. unfold as_micros, as_nanos, NSEC_PER_SEC, USEC_PER_SEC.
  replace (as_secs d * 1000000000) with (as_secs d * 1000000 * 1000) by ring. by rewrite Z.div_add_l by lia.
Qed.

(** C33: The kernel has one clock.  For every frequency and every value of the
    cycle counter, [get_current_time_duration], which divides first and scales the
    rest, does not panic and is exactly the counter scaled to nanoseconds as
    [get_current_time_ns] computes it with 128-bit arithmetic; the microseconds and
    the milliseconds of the other two readings are that duration truncated. *)
Theorem clock_readings_agree freq cycles (Hfreq : 0 < freq < 2 ^ 64) (Hcycles : 0 <= cycles < 2 ^ 64) :
  exists d, get_current_time_duration freq cycles = Ret d /\ dur_ok d /\
    as_nanos d = cycles * NSEC_PER_SEC / freq /\
    get_current_time_ns freq cycles = wrap (as_nanos d) /\
    get_current_time_us freq cycles = wrap (as_micros d) /\
    get_current_time_ms freq cycles = wrap (as_micros d / 1000).
Proof.
  pose proof (clock_rest freq cycles Hfreq) as Hr. pose proof (clock_secs freq cycles Hfreq Hcycles) as Hs.
  eexists. split; [by apply clock_duration|].
  set (d := mkDur _ _). assert (Hd : dur_ok d) by done.
  assert (Hn : as_nanos d = cycles * NSEC_PER_SEC / freq) by (rewrite clock_split by dur_lia; done).
  rewrite as_micros_nanos, Hn by done. do 3 (split; [done|]).
  unfold get_current_time_us, get_current_time_ms, get_current_time_in.
  change NSEC_PER_SEC with (USEC_PER_SEC * 1000). rewrite clock_coarser by done. split; [done|].
  change USEC_PER_SEC with (MSEC_PER_SEC * 1000). by rewrite clock_coarser.
Qed.

Lemma clock_readings_agree_witness : exists d,
  get_current_time_duration 10000000 123456789 = Ret d /\ as_nanos d = 12345678900 /\
  get_current_time_us 10000000 123456789 = wrap (as_micros d).
Proof.
  destruct (clock_readings_agree 10000000 123456789) as (d & Hd & _ & Hn & _ & Hu & _); [lia|lia|].
  exists d. split; [exact Hd|]. split; [rewrite Hn; reflexivity|exact Hu].
Defined.

(** ** Structures and durations *)

Lemma isize_nonneg z : 0 <= z < 2 ^ 64 -> 0 <= isize_of z -> z < 2 ^ 63.
Proof. unfold isize_of. destruct (Z.ltb_spec z (2 ^ 63)); lia. Qed.

(** A valid [TimeSpec] and a [TimeVal] whose microseconds are in range survive
    the trip through the kernel's duration unchanged, so what a task reads back is
    what it passed; and a duration survives the trip through a [TimeSpec]. *)
Theorem time_roundtrip :
  (forall t, 0 <= ts_sec t < 2 ^ 64 -> 0 <= ts_nsec t < 2 ^ 64 -> TimeSpec_is_valid t = true ->
    exists d, TimeSpec_into t = Ret d /\ dur_ok d /\ TimeSpec_from d = t) /\
  (forall t, 0 <= tv_sec t < 2 ^ 64 -> 0 <= tv_usec t < USEC_PER_SEC ->
    exists d, TimeVal_into t = Ret d /\ dur_ok d /\ TimeVal_from d = t) /\
  (forall d, dur_ok d -> TimeSpec_into (TimeSpec_from d) = Ret d).
Proof.
  split; [|split].
  - intros [s n] Hs Hn Hv. unfold TimeSpec_is_valid in Hv. cbn in *. bool_to_prop.
    unfold TimeSpec_into. cbn. rewrite Z.mod_small by lia. rewrite dur_new_small by dur_lia.
    eexists. split; [done|]. split; [dur_lia|done].
  - intros [s u] Hs Hu. unfold TimeVal_into. cbn in *. unfold MSEC_PER_SEC, USEC_PER_SEC in *.
    rewrite wmul_small by (unfold is_usize; lia). rewrite Z.mod_small by lia. rewrite dur_new_small by dur_lia.
    eexists. split; [done|]. split; [dur_lia|]. unfold TimeVal_from, subsec_micros. cbn. by rewrite Z.div_mul by lia.
  - intros [s n] Hd. unfold TimeSpec_into, TimeSpec_from. cbn. rewrite Z.mod_small by dur_lia.
    apply dur_new_small. dur_lia.
Qed.

(** ** The accounting *)

(** A task's trips through the kernel: the times of the trap and of the return. *)
Fixpoint run_traps (r : TimeRecorder) (trips : list (Duration * Duration)) : outcome TimeRecorder :=
  match trips with
  | [] => Ret r
  | (trap, ret) :: trips =>
      let! r := record_trap r trap in
      let! r := record_trap_return r ret in
      run_traps r trips
  end.

(** The times are in order, from [t] on. *)
Fixpoint trips_from (t : Duration) (trips : list (Duration * Duration)) : Prop :=
  match trips with
  | [] => True
  | (trap, ret) :: trips =>
      dur_ok trap /\ dur_ok ret /\ as_nanos t <= as_nanos trap <= as_nanos ret /\ trips_from ret trips
  end.

Fixpoint trips_end (t : Duration) (trips : list (Duration * Duration)) : Duration :=
  match trips with [] => t | (_, ret) :: trips => trips_end ret trips end.

Fixpoint user_nanos (t : Duration) (trips : list (Duration * Duration)) : Z :=
  match trips with
  | [] => 0
  | (trap, ret) :: trips => (as_nanos trap - as_nanos t) + user_nanos ret trips
  end.

Definition recorder_ok (r : TimeRecorder) : Prop :=
  dur_ok (user_time r) /\ dur_ok (kernel_time r) /\ dur_ok (user_start r).

Lemma trips_end_ok t trips : dur_ok t -> trips_from t trips ->
  dur_ok (trips_end t trips) /\ as_nanos t <= as_nanos (trips_end t trips) /\
  0 <= user_nanos t trips <= as_nanos (trips_end t trips) - as_nanos t.
Proof.
  revert t. induction trips as [|[trap ret] trips IH]; intros t Ht Hf; cbn in *; [split; [done|lia]|].
  destruct Hf as (Htrap & Hret & Hle & Hf). destruct (IH ret Hret Hf) as (? & ? & ?). split; [done|]. lia.
Qed.

Lemma run_traps_ok trips r : recorder_ok r -> trips_from (user_start r) trips ->
  let e := as_nanos (trips_end (user_start r) trips) in
  as_nanos (user_time r) + (e - as_nanos (user_start r)) < 2 ^ 64 * NSEC_PER_SEC ->
  as_nanos (kernel_time r) + (e - as_nanos (user_start r)) < 2 ^ 64 * NSEC_PER_SEC ->
  exists r', run_traps r trips = Ret r' /\ recorder_ok r' /\
    as_nanos (user_time r') = as_nanos (user_time r) + user_nanos (user_start r) trips /\
    as_nanos (kernel_time r') = as_nanos (kernel_time r) + (e - as_nanos (user_start r)).
Proof.
  revert r. induction trips as [|[trap ret] trips IH]; intros r (Hu & Hk & Hs) Hf e Hou Hok; cbn in *.
  { exists r. unfold e. repeat split; try apply Hu; try apply Hk; try apply Hs; lia. }
  destruct Hf as (Htrap & Hret & Hle & Hf).
  destruct (trips_end_ok ret trips Hret Hf) as (_ & He & _). fold e in He.
  destruct (dur_sub_spec trap (user_start r) Htrap Hs) as (d1 & E1 & D1 & N1); [lia|].
  destruct (dur_add_spec (user_time r) d1 Hu D1) as (u & E2 & D2 & N2); [lia|].
  destruct (dur_sub_spec ret (user_start r) Hret Hs) as (d2 & E3 & D3 & N3); [lia|].
  destruct (dur_add_spec (kernel_time r) d2 Hk D3) as (k & E4 & D4 & N4); [lia|].
  unfold record_trap, record_trap_return. rewrite E1. cbn. rewrite E2. cbn. rewrite E3. cbn. rewrite E4. cbn.
  destruct (IH (mkRec u k trap ret (child_user_time r) (child_kernel_time r))) as (r' & E & Hr' & Hu' & Hk');
    [done|done|cbn; fold e; lia|cbn; fold e; lia|].
  exists r'. split; [done|]. split; [done|]. cbn in *. fold e in Hk'. lia.
Qed.

(** The time spent in user mode is charged twice.  Over any sequence of traps
    and returns in order, the user time grows by the time spent in user mode, as it
    should, but the kernel time grows by all the time that has passed, because
    [record_trap_return] measures from the last return to user mode instead of from
    the trap.  So the processor time of a task that only runs in these trips exceeds
    the time that has passed by its whole user time. *)
Theorem user_time_charged_twice trips r (Hr : recorder_ok r) (Hf : trips_from (user_start r) trips) :
  let e := as_nanos (trips_end (user_start r) trips) - as_nanos (user_start r) in
  as_nanos (user_time r) + as_nanos (kernel_time r) + 2 * e < 2 ^ 64 * NSEC_PER_SEC ->
  exists r' p p', run_traps r trips = Ret r' /\ processor_time r = Ret p /\ processor_time r' = Ret p' /\
    as_nanos (user_time r') = as_nanos (user_time r) + user_nanos (user_start r) trips /\
    as_nanos (kernel_time r') = as_nanos (kernel_time r) + e /\
    as_nanos p' = as_nanos p + e + user_nanos (user_start r) trips.
Proof.
  intros e Hov. pose proof (trips_end_ok _ _ (proj2 (proj2 Hr)) Hf) as (_ & Hle & Hun). fold e in Hun.
  assert (Hpos : 0 <= as_nanos (user_time r) /\ 0 <= as_nanos (kernel_time r))
    by (unfold recorder_ok in Hr; dur_lia).
  destruct (run_traps_ok trips r Hr Hf) as (r' & E & Hr' & Hu & Hk); [lia|lia|].
  destruct (dur_add_spec (kernel_time r) (user_time r)) as (p & E1 & _ & N1); [apply Hr|apply Hr|lia|].
  destruct (dur_add_spec (kernel_time r') (user_time r')) as (p' & E2 & _ & N2); [apply Hr'|apply Hr'|lia|].
  exists r', p, p'. unfold processor_time. repeat split; try done; lia.
Qed.

Lemma user_time_charged_twice_witness :
  exists r', run_traps recorder_new [(mkDur 3 0, mkDur 4 0); (mkDur 9 0, mkDur 10 0)] = Ret r' /\
    as_nanos (user_time r') = 8 * NSEC_PER_SEC /\ as_nanos (kernel_time r') = 10 * NSEC_PER_SEC.
Proof.
  destruct (user_time_charged_twice [(mkDur 3 0, mkDur 4 0); (mkDur 9 0, mkDur 10 0)] recorder_new)
    as (r' & p & p' & E & _ & _ & Hu & Hk & _).
  - repeat split; vm_compute; congruence.
  - repeat split; vm_compute; congruence.
  - vm_compute; congruence.
  - exists r'. split; [exact E|]. rewrite Hu, Hk. vm_compute. split; reflexivity.
Defined.
