(* ===== verification/TimerProofs.v ===== *)
(** What the queue of timers promises: one call of [check] fires every expired
    timer once and in order, and a sleeping task is woken when its time has come. *)

From S2P Require Import Prelude Errno UserMem Time.

#[local] Open Scope Z_scope.

Section Check.
(** The readings of one check are those from [n0] on and before [n1]. *)
Context {H : MinHeap} {HL : MinHeapLaws} (clk : nat -> Duration) (n0 n1 : nat).

Definition nan (d : Duration) : Z := as_nanos d.

(** The interval timer a real-time event belongs to. *)
Definition real_timer (s : TimerState) (task : Z) : option ITimer :=
  match itimer_cell s !! task with
  | Some cell => match itimers s !! cell with Some its => its !! 0%nat | None => None end
  | None => None
  end.

(** What firing a timer does: a wake-up, or an alarm when the event is still the
    current one of a living task. *)
Definition effect (s : TimerState) (t : Timer) : list Fired :=
  match data t with
  | WakerData tid => [FWake tid]
  | RealITimer task id =>
      match real_timer s task with
      | Some it => if it_id it =? id then [FAlarm task] else []
      | None => []
      end
  end.

Definition fires_before (t u : Timer) : Prop := nan (expire t) <= nan (expire u).

(** A timer no reading of this check reaches. *)
Definition late (t : Timer) : Prop :=
  dur_ok (expire t) /\ forall j, (n0 <= j < n1)%nat -> nan (clk j) < nan (expire t).

(** The clock does not go back. *)
Definition clock_ok : Prop := forall i, dur_ok (clk i) /\ nan (clk i) <= nan (clk (S i)).

(** All living tasks have interval timers, none so short that the clock passes its
    period during the check, or so long that adding it overflows. *)
Definition itimers_ok (s : TimerState) : Prop :=
  forall task cell, itimer_cell s !! task = Some cell ->
    exists its it, itimers s !! cell = Some its /\ its !! 0%nat = Some it /\
      (interval it <> dur_zero -> dur_ok (interval it) /\
        forall i j, (n0 <= i < n1)%nat -> (n0 <= j < n1)%nat ->
          nan (clk j) < nan (clk i) + nan (interval it) < 2 ^ 64 * NSEC_PER_SEC).

(** Two states whose interval timers differ in their next expiry alone. *)
Definition same_itimers (s s' : TimerState) : Prop :=
  itimer_cell s' = itimer_cell s /\
  forall task, real_timer s' task = real_timer s task \/
    exists it it', real_timer s task = Some it /\ real_timer s' task = Some it' /\
      interval it' = interval it /\ it_id it' = it_id it.

Hypothesis Hclk : clock_ok.

Lemma clk_mono i j : (i <= j)%nat -> nan (clk i) <= nan (clk j).
Proof. induction 1 as [|j _ IH]; [lia|]. pose proof (proj2 (Hclk j)). lia. Qed.

Lemma real_timer_ok s task : itimers_ok s ->
  itimer_cell s !! task = None \/
  exists cell its it, itimer_cell s !! task = Some cell /\ itimers s !! cell = Some its /\
    its !! 0%nat = Some it /\ real_timer s task = Some it /\
    (interval it <> dur_zero -> dur_ok (interval it) /\
      forall i j, (n0 <= i < n1)%nat -> (n0 <= j < n1)%nat ->
          nan (clk j) < nan (clk i) + nan (interval it) < 2 ^ 64 * NSEC_PER_SEC).
Proof.
  intros Hs. destruct (itimer_cell s !! task) as [cell|] eqn:Hc; [|by left]. right.
  destruct (Hs task cell Hc) as (its & it & E1 & E2 & Hi). exists cell, its, it.
  unfold real_timer. rewrite Hc, E1. auto.
Qed.

Lemma same_itimers_refl s : same_itimers s s.
Proof. split; [done|]. by left. Qed.

Lemma same_itimers_effect s s' t : same_itimers s s' -> effect s' t = effect s t.
Proof.
  intros (_ & Hs). unfold effect. destruct (data t) as [|task id]; [done|].
  destruct (Hs task) as [->|(it & it' & -> & -> & _ & ->)]; done.
Qed.

Lemma same_itimers_trans s1 s2 s3 : same_itimers s1 s2 -> same_itimers s2 s3 -> same_itimers s1 s3.
Proof.
  intros (C1 & H1) (C2 & H2). split; [congruence|]. intros task.
  destruct (H1 task) as [E1|(a & b & E1 & E1' & ? & ?)], (H2 task) as [E2|(c & d & E2 & E2' & ? & ?)].
  - left. congruence.
  - right. exists c, d. split; [congruence|auto].
  - right. exists a, b. split; [done|]. split; [congruence|auto].
  - right. exists a, d. rewrite E1' in E2. injection E2 as ->. repeat split; congruence.
Qed.

(** One cell's first timer replaced by one with the same interval and id. *)
Lemma rearm_same s s' cell its it next :
  itimer_cell s' = itimer_cell s ->
  itimers s !! cell = Some its -> its !! 0%nat = Some it ->
  itimers s' = <[cell := <[0%nat := mkIT (interval it) next (it_id it)]> its]> (itimers s) ->
  itimers_ok s -> same_itimers s s' /\ itimers_ok s'.
Proof.
  intros Hcell Hits Hit Hs' Hok.
  assert (Hin : <[0%nat := mkIT (interval it) next (it_id it)]> its !! 0%nat =
    Some (mkIT (interval it) next (it_id it))).
  { apply list_lookup_insert_eq. by apply lookup_lt_Some in Hit. }
  split.
  - split; [done|]. intros task. unfold real_timer. rewrite Hcell, Hs'.
    destruct (itimer_cell s !! task) as [c|]; [|by left].
    destruct (decide (c = cell)) as [->|Hne]; [|rewrite lookup_insert_ne by done; by left].
    right. rewrite lookup_insert_eq, Hin, Hits. eauto 10.
  - intros task c Hc. rewrite Hcell in Hc. rewrite Hs'.
    destruct (Hok task c Hc) as (its1 & it1 & E1 & E2 & Hi).
    destruct (decide (c = cell)) as [->|Hne].
    + rewrite lookup_insert_eq. simplify_eq. exists (<[0%nat := mkIT (interval it) next (it_id it)]> its).
      eexists. split; [done|]. split; [exact Hin|]. exact Hi.
    + rewrite lookup_insert_ne by done. eauto.
Qed.

Lemma same_frame s s' : itimer_cell s' = itimer_cell s -> itimers s' = itimers s -> itimers_ok s ->
  same_itimers s s' /\ itimers_ok s'.
Proof.
  intros E1 E2 Hs. unfold same_itimers, itimers_ok, real_timer. rewrite E1, E2. split; [|exact Hs].
  split; [done|]. by left.
Qed.

(** A callback does what [effect] says; a timer it re-arms is late. *)
Lemma callback_ok e s ex : itimers_ok s -> (n0 <= reads s < n1)%nat ->
  exists o s', callback clk e s = Ret (o, s') /\
    fired s' = fired s ++ effect s (mkTimer ex e) /\ timers s' = timers s /\
    same_itimers s s' /\ itimers_ok s' /\ (reads s <= reads s' <= S (reads s))%nat /\
    (forall t, o = Some t -> late t).
Proof.
  intros Hs Hn. destruct e as [tid|task id]; cbn.
  { exists None, (fire s (FWake tid)).
    destruct (same_frame s (fire s (FWake tid))) as (Hsame & Hok); try done.
    repeat (split; [done || (cbn; lia)|]). done. }
  unfold effect. cbn.
  destruct (real_timer_ok s task Hs) as [Hno|(cell & its & it & E1 & E2 & E3 & E4 & Hi)].
  { rewrite Hno. unfold real_timer. rewrite Hno. exists None, s. rewrite app_nil_r.
    destruct (same_frame s s) as (Hsame & Hok); try done.
    repeat (split; [done || (cbn; lia)|]). done. }
  rewrite E1, E2. cbn. rewrite E3, E4. cbn. destruct (Z.eqb_spec (it_id it) id) as [Hid|Hid]; cbn.
  2: { exists None, s. rewrite app_nil_r. destruct (same_frame s s) as (Hsame & Hok); try done.
    repeat (split; [done || (cbn; lia)|]). done. }
  case_bool_decide as Hz.
  { exists None, (fire s (FAlarm task)).
    destruct (same_frame s (fire s (FAlarm task))) as (Hsame & Hok); try done.
    repeat (split; [done || (cbn; lia)|]). done. }
  destruct (Hi Hz) as (Hd & Hb). destruct (Hclk (reads s)) as (Hc & _).
  destruct (dur_add_spec (clk (reads s)) (interval it) Hc Hd) as (next & En & Dn & Nn).
  { pose proof (Hb (reads s) (reads s) Hn Hn). unfold nan in *. lia. }
  rewrite En. cbn. eexists _, _. split; [reflexivity|]. cbn.
  destruct (rearm_same s (with_itimers s (<[cell := <[0%nat := mkIT (interval it) next (it_id it)]> its]> (itimers s)))
    cell its it next) as (Hsame & Hok'); try done.
  split; [done|]. split; [done|]. split; [exact Hsame|]. split; [exact Hok'|]. split; [lia|].
  intros t [= <-]. split; [done|]. intros j Hj. cbn. pose proof (Hb (reads s) j Hn Hj). unfold nan in *. lia.
Qed.

Lemma late_not_due t i : (n0 <= i < n1)%nat -> late t -> dur_le (expire t) (clk i) = false.
Proof.
  intros Hi (Hd & Hl). destruct (dur_le (expire t) (clk i)) eqn:E; [|done].
  apply dur_le_spec in E; [|done|apply Hclk]. pose proof (Hl i Hi). unfold nan in *. lia.
Qed.

Lemma not_due_lt t i : dur_ok (expire t) -> dur_le (expire t) (clk i) = false -> nan (clk i) < nan (expire t).
Proof.
  intros Hd E. destruct (Z.lt_ge_cases (nan (clk i)) (nan (expire t))) as [|Hge]; [done|].
  apply (dur_le_spec (expire t) (clk i)) in Hge; [congruence|done|apply Hclk].
Qed.

(** What the check leaves, started with timers [live] that may fire and others
    that are late: those fired, in order, and those kept. *)
Definition checked (s s' : TimerState) (live done_ kept : list Timer) : Prop :=
  live ≡ₚ done_ ++ kept /\
  (exists lates, timers s' ≡ₚ kept ++ lates /\ Forall late lates) /\
  StronglySorted fires_before done_ /\
  (forall t, t ∈ done_ -> exists i, (reads s <= i < reads s')%nat /\ nan (expire t) <= nan (clk i)) /\
  (forall t, t ∈ kept -> nan (clk (reads s)) < nan (expire t)) /\
  fired s' = fired s ++ concat (effect s <$> done_) /\
  (reads s <= reads s')%nat /\ same_itimers s s' /\ itimers_ok s'.

(** The first due timer of the queue is one of the live ones. *)
Lemma due_is_live live lates t rest i :
  (n0 <= i < n1)%nat -> live ++ lates ≡ₚ t :: rest -> Forall late lates -> dur_le (expire t) (clk i) = true ->
  exists live', live ≡ₚ t :: live' /\ rest ≡ₚ live' ++ lates.
Proof.
  intros Hi Hp Hl Hdue. assert (Hin : t ∈ live ++ lates) by (rewrite Hp; left).
  apply elem_of_app in Hin as [Hin|Hin].
  - apply elem_of_Permutation in Hin as (live' & Hlive). exists live'. split; [done|].
    rewrite Hlive in Hp. cbn in Hp. by apply Permutation_cons_inv in Hp.
  - rewrite Forall_forall in Hl. pose proof (late_not_due t i Hi (Hl t Hin)). congruence.
Qed.

Lemma checked_cons s s2 s' t live live' done_ kept :
  live ≡ₚ t :: live' ->
  nan (expire t) <= nan (clk (reads s)) ->
  (forall x, x ∈ live' -> fires_before t x) ->
  (reads s < reads s2)%nat ->
  fired s2 = fired s ++ effect s t -> same_itimers s s2 ->
  checked s2 s' live' done_ kept -> checked s s' live (t :: done_) kept.
Proof.
  intros Hlive Hdue Hmin Hr2 Hf Hsame (Hp & Hl & Hsort & Hdone & Hkept & Hf' & Hr & Hsame' & Hok).
  split; [by rewrite Hlive, Hp|]. split; [done|]. split.
  { constructor; [done|]. apply Forall_forall. intros x Hx. apply Hmin. rewrite Hp.
    apply elem_of_app. by left. }
  split. { intros x [->|Hx]%elem_of_cons; [exists (reads s); split; [lia|done]|].
    destruct (Hdone x Hx) as (i & ? & ?). exists i. split; [lia|done]. }
  split. { intros x Hx. pose proof (Hkept x Hx). pose proof (clk_mono (reads s) (reads s2)). lia. }
  split. { rewrite Hf', Hf. cbn. rewrite <- app_assoc. do 2 f_equal. f_equal. apply list_fmap_ext.
    intros _ x _. by apply same_itimers_effect. }
  split; [lia|]. split; [by apply (same_itimers_trans _ s2)|done].
Qed.

Lemma checked_stop s s1 live lates :
  timers s ≡ₚ live ++ lates -> Forall late lates -> itimers_ok s ->
  timers s1 = timers s -> itimer_cell s1 = itimer_cell s -> itimers s1 = itimers s ->
  fired s1 = fired s -> (reads s <= reads s1)%nat ->
  (forall x, x ∈ live -> nan (clk (reads s)) < nan (expire x)) ->
  checked s s1 live [] live.
Proof.
  intros Hp Hl Hs Ht Hc Hi Hf Hr Hlive. destruct (same_frame s s1 Hc Hi Hs) as (Hsame & Hok).
  split; [done|]. split; [exists lates; by rewrite Ht|]. split; [constructor|].
  split; [by intros t ?%elem_of_nil|]. split; [done|]. cbn. rewrite app_nil_r. done.
Qed.

(** Firing a due timer: the loop goes on with the others, the re-armed one late. *)
Lemma fire_due t rest s live' lates : itimers_ok s -> (n0 <= reads s)%nat -> (S (reads s) < n1)%nat ->
  rest ≡ₚ live' ++ lates -> Forall late lates ->
  exists s' lates', (forall fuel,
    match callback clk (data t) (with_timers (read_clock clk s).2 rest) with
    | Ret (Some t, s) => check clk fuel (add_timer s t)
    | Ret (None, s) => check clk fuel s
    | Panic => Some Panic
    end = check clk fuel s') /\
    timers s' ≡ₚ live' ++ lates' /\ Forall late lates' /\ itimers_ok s' /\
    (reads s < reads s' <= 2 + reads s)%nat /\ fired s' = fired s ++ effect s t /\ same_itimers s s'.
Proof.
  intros Hs Hn0 Hn1 Hrest Hl. set (s1 := with_timers (read_clock clk s).2 rest).
  destruct (same_frame s s1) as (Hsame1 & Hs1); [done|done|done|].
  destruct (callback_ok (data t) s1 (expire t) Hs1 ltac:(cbn; lia)) as (o & s2 & -> & Hf & Ht & Hsame2 & Hok2 & Hr & Hlate).
  assert (Hsame : same_itimers s s2) by (by apply (same_itimers_trans _ s1)).
  assert (Hf' : fired s2 = fired s ++ effect s t) by (rewrite Hf; by destruct t).
  cbn in Hr. destruct o as [u|].
  - exists (add_timer s2 u), (u :: lates). cbn. rewrite Ht. cbn. rewrite Hrest, Permutation_middle.
    destruct (same_frame s2 (add_timer s2 u)) as (Hsame3 & Hok3); [done|done|done|].
    split; [done|]. split; [done|]. split; [constructor; [by apply Hlate|done]|]. split; [done|].
    split; [lia|]. split; [done|]. by apply (same_itimers_trans _ s2).
  - exists s2, lates. rewrite Ht. cbn. repeat (split; [done || lia|]). done.
Qed.

Lemma check_ok n : forall live lates s, length live = n ->
  timers s ≡ₚ live ++ lates -> Forall late lates -> (forall t, t ∈ live -> dur_ok (expire t)) -> itimers_ok s ->
  (n0 <= reads s)%nat -> (reads s + 2 * n < n1)%nat ->
  exists s' done_ kept, check clk (S n) s = Some (Ret s') /\ checked s s' live done_ kept.
Proof.
  induction n as [n IH] using lt_wf_ind; intros live lates s Hn Hp Hl Hd Hs Hn0 Hn1.
  cbn [check]. destruct (heap_pop (timers s)) as [[t rest]|] eqn:Hpop.
  2: { apply heap_pop_none in Hpop. exists s, [], live. split; [done|].
    apply (checked_stop s s live lates); try done.
    rewrite Hpop in Hp. apply Permutation_nil_l in Hp. symmetry in Hp. apply app_eq_nil in Hp as (-> & _). by intros x ?%elem_of_nil. }
  destruct (heap_pop_min _ _ _ Hpop) as (Hrest & Hmin).
  assert (Hall : forall x, x ∈ timers s -> dur_ok (expire x)).
  { intros x. rewrite Hp. intros [Hx|Hx]%elem_of_app; [by apply Hd|].
    rewrite Forall_forall in Hl. by apply Hl. }
  assert (Hle : forall x, x ∈ timers s -> nan (expire t) <= nan (expire x)).
  { intros x Hx. apply dur_le_spec; [apply Hall; rewrite Hrest; left|by apply Hall|by apply Hmin]. }
  cbn [read_clock]. destruct (dur_le (expire t) (clk (reads s))) eqn:Hdue.
  2: { eexists _, [], live. split; [reflexivity|]. apply (checked_stop s _ live lates); try done; [cbn; lia|].
    apply not_due_lt in Hdue; [|apply Hall; rewrite Hrest; left].
    intros x Hx. specialize (Hle x). rewrite Hp, elem_of_app in Hle. specialize (Hle (or_introl Hx)). lia. }
  destruct (due_is_live live lates t rest (reads s)) as (live' & Hlive & Hrest'); [lia|by rewrite <- Hp|done|done|].
  destruct n as [|n]; [apply length_zero_iff_nil in Hn; subst live; by apply Permutation_nil_cons in Hlive|].
  assert (Hn' : length live' = n) by (apply Permutation_length in Hlive; cbn in Hlive; lia).
  destruct (fire_due t rest s live' lates Hs Hn0 ltac:(lia) Hrest' Hl) as (s1 & lates1 & Eck & Hp1 & Hl1 & Hs1 & Hr1 & Hf1 & Hsame1).
  cbn [read_clock snd] in Eck. rewrite Eck.
  destruct (IH n ltac:(lia) live' lates1 s1 Hn' Hp1 Hl1) as (s' & done_ & kept & E & Hck); [|done|lia|lia|].
  { intros x Hx. apply Hd. rewrite Hlive. by right. }
  exists s', (t :: done_), kept. split; [done|]. apply (checked_cons s s1 s' t live live'); try done || lia.
  - apply dur_le_spec in Hdue; [done|apply Hall; rewrite Hrest; left|apply Hclk].
  - intros x Hx. apply Hle. rewrite Hp, Hlive. apply elem_of_app. left. by right.
Qed.

End Check.


(** ** Sleeping *)

Section Sleep.
Context {H : MinHeap} {HL : MinHeapLaws} (clk : nat -> Duration) {M : Type} {UM : UserMemory M}.
Hypothesis Hclk : clock_ok clk.

(** A call that goes to sleep has queued a timer that wakes it at [e]. *)
Lemma nanosleep_queues tid vm p q m s e ptr m1 s1 :
  sys_nanosleep clk tid vm p q m s = Ret (Sleeping e ptr, m1, s1) ->
  ptr = q /\ timers s1 = Timer_new_waker_timer e tid :: timers s /\ reads s1 = S (reads s) /\
  itimer_cell s1 = itimer_cell s /\ itimers s1 = itimers s.
Proof.
  unfold sys_nanosleep. intros E.
  repeat match type of E with
  | context [obind ?x _] => destruct x as [[]|] eqn:?; cbn in E; [|done]
  | context [if ?b then _ else _] => destruct b; cbn in E; [try done|try done]
  end.
  match goal with B : context [dur_add (clk (reads s)) ?d] |- _ =>
    destruct (dur_add (clk (reads s)) d); cbn in B; [|done] end.
  by simplify_eq.
Qed.

(** After the wake-up time nothing is left to sleep. *)
Lemma resume_done vm e ptr b m s : dur_ok e -> as_nanos e <= as_nanos (clk (reads s)) ->
  exists s', sleep_resume clk vm e ptr b m s = Ret (Ok 0, m, s').
Proof.
  intros He Hle. unfold sleep_resume, suspend_timeout_end. cbn.
  rewrite (proj2 (dur_le_spec e (clk (reads s)) He (proj1 (Hclk _))) Hle). cbn. eauto.
Qed.

(** The check fires the timer of a sleeper whose time has come. *)
Lemma check_wakes tid e rest s :
  itimers_ok clk (reads s) (S (reads s + 2 * length (timers s))) s ->
  (forall t, t ∈ timers s -> dur_ok (expire t)) ->
  timers s = Timer_new_waker_timer e tid :: rest -> as_nanos e <= as_nanos (clk (reads s)) ->
  exists s' l, check clk (S (length (timers s))) s = Some (Ret s') /\ fired s' = fired s ++ l /\ FWake tid ∈ l /\
    (reads s <= reads s')%nat.
Proof.
  intros Hs Hd Ht Hle.
  destruct (check_ok clk (reads s) (S (reads s + 2 * length (timers s))) Hclk (length (timers s))
    (timers s) [] s eq_refl) as (s' & done_ & kept & E & Hp & _ & _ & _ & Hkept & Hf & Hr & _);
    [by rewrite app_nil_r|constructor|done|done|lia|lia|].
  exists s', (concat (effect s <$> done_)). repeat (split; [done|]). split; [|done].
  assert (Hin : Timer_new_waker_timer e tid ∈ done_ ++ kept) by (rewrite <- Hp, Ht; left).
  apply elem_of_app in Hin as [Hin|Hin]; [|pose proof (Hkept _ Hin); cbn in *; unfold nan in *; lia].
  rewrite list_elem_of_In, in_concat. exists (effect s (Timer_new_waker_timer e tid)).
  split; [apply in_map, list_elem_of_In, Hin|by left].
Qed.

End Sleep.


(** A task can stop the kernel with a sleep.  [sys_nanosleep] does not check the
    time it is given, and the standard library's addition panics: whenever both
    pointers are good, the seconds asked for are the largest 64-bit number and the
    clock is past its first second, the call panics. *)
Theorem nanosleep_panics clk {M : Type} {UM : UserMemory M} tid vm time_ptr rem_ptr (m m1 m2 m3 : M) ns s
    (Hread : um_ensure m vm time_ptr 16 ACCESS_READ = Ret (true, m1))
    (Hload : load_words m1 vm time_ptr 2 = Ret ([usize_max; ns], m2))
    (Hns : 0 <= ns < NSEC_PER_SEC)
    (Hwrite : um_ensure m2 vm rem_ptr 16 ACCESS_WRITE = Ret (true, m3))
    (Hclk : 1 <= as_secs (clk (reads s))) :
  sys_nanosleep clk tid vm time_ptr rem_ptr m s = Panic.
Proof.
  unfold sys_nanosleep, ensure_read, ensure_write. rewrite Hread. cbn [obind negb]. rewrite Hload. cbn [obind].
  rewrite Hwrite. cbn. unfold TimeSpec_into. cbn. rewrite Z.mod_small by dur_lia. rewrite dur_new_small by lia.
  cbn. unfold suspend_timeout_begin, dur_add, dur_checked_add. cbn.
  destruct (Z.ltb_spec (as_secs (clk (reads s)) + usize_max) (2 ^ 64)) as [Hlt|]; [unfold usize_max in Hlt; lia|done].
Qed.

(** ** A queue of timers at work *)

(** A queue kept as a list, popped by a search for the first minimum. *)
Fixpoint pop_min (l : list Timer) : option (Timer * list Timer) :=
  match l with
  | [] => None
  | t :: l =>
      match pop_min l with
      | None => Some (t, [])
      | Some (u, r) => if dur_le (expire t) (expire u) then Some (t, l) else Some (u, t :: r)
      end
  end.

#[local] Instance demo_heap : MinHeap := { heap_pop := pop_min }.

Lemma dur_le_total a b : dur_le a b = false -> dur_le b a = true.
Proof. unfold dur_le. rewrite orb_false_iff, orb_true_iff, andb_true_iff, andb_false_iff. zbool. lia. Qed.

Lemma dur_le_trans a b c : dur_le a b = true -> dur_le b c = true -> dur_le a c = true.
Proof. unfold dur_le. rewrite !orb_true_iff, !andb_true_iff. zbool. lia. Qed.

Lemma dur_le_refl a : dur_le a a = true.
Proof. unfold dur_le. rewrite orb_true_iff, andb_true_iff. zbool. lia. Qed.

Lemma pop_min_ok l : match pop_min l with
  | None => l = []
  | Some (t, l') => l ≡ₚ t :: l' /\ forall x, x ∈ l -> dur_le (expire t) (expire x) = true
  end.
Proof.
  induction l as [|t l IH]; cbn; [done|]. destruct (pop_min l) as [[u r]|].
  - destruct IH as (Hp & Hm). destruct (dur_le (expire t) (expire u)) eqn:E; (split; [|intros x [->|Hx]%elem_of_cons]).
    + done.
    + apply dur_le_refl.
    + apply (dur_le_trans _ (expire u)); [done|by apply Hm].
    + rewrite Hp. by constructor.
    + by apply dur_le_total.
    + by apply Hm.
  - subst l. split; [done|]. intros x ->%list_elem_of_singleton. apply dur_le_refl.
Qed.

#[local] Instance demo_heap_laws : MinHeapLaws.
Proof.
  split; cbn.
  - intros l. pose proof (pop_min_ok l). destruct (pop_min l) as [[]|]; [|done].
    split; [done|]. intros ->. destruct H as (Hp%Permutation_nil_cons & _). done.
  - intros l t l' E. pose proof (pop_min_ok l) as P. by rewrite E in P.
Qed.

(** A clock that starts at its tenth second and advances by a millisecond at each of
    its first thousand readings. *)
Definition demo_clk (i : nat) : Duration :=
  let k := Z.min (Z.of_nat i) 1000 in mkDur (10 + k / 1000) (k mod 1000 * 1000000).

Lemma demo_clk_nanos i : as_nanos (demo_clk i) = 10 * NSEC_PER_SEC + Z.min (Z.of_nat i) 1000 * 1000000.
Proof.
  unfold as_nanos, demo_clk, NSEC_PER_SEC. cbn -[Z.min Z.div Z.modulo].
  pose proof (Z.div_mod (Z.min (Z.of_nat i) 1000) 1000). lia.
Qed.

Lemma demo_clk_ok : clock_ok demo_clk.
Proof.
  intros i. split; [|unfold nan; rewrite !demo_clk_nanos; lia].
  unfold dur_ok, demo_clk, NSEC_PER_SEC. cbn -[Z.min Z.div Z.modulo].
  pose proof (Z.mod_pos_bound (Z.min (Z.of_nat i) 1000) 1000).
  pose proof (Z.div_pos (Z.min (Z.of_nat i) 1000) 1000).
  pose proof (Z.div_le_upper_bound (Z.min (Z.of_nat i) 1000) 1000 1). lia.
Qed.

(** Two sleepers, one of them due; a periodic timer of half a second and an event of
    a timer that has been set again since. *)
Definition demo_timers : TimerState :=
  mkTS [mkTimer (mkDur 11 0) (WakerData 5); mkTimer (mkDur 10 0) (RealITimer 7 3);
        mkTimer (mkDur 9 0) (WakerData 4); mkTimer (mkDur 8 0) (RealITimer 7 2)]
    {[ 7 := 70 ]} {[ 70 := [mkIT (mkDur 0 500000000) (mkDur 10 0) 3; ITimer_ZERO; ITimer_ZERO] ]} 4 0 [].

Lemma demo_itimers_ok n0 n1 s : itimer_cell s = itimer_cell demo_timers -> itimers s = itimers demo_timers ->
  (n1 <= 400)%nat -> itimers_ok demo_clk n0 n1 s.
Proof.
  intros Hc Hi Hn task cell. rewrite Hc, Hi. cbn. intros E. apply lookup_singleton_Some in E as (<- & <-).
  eexists _, _. split; [reflexivity|]. split; [reflexivity|]. intros _. split; [vm_compute; repeat split; congruence|].
  intros i j Hni Hnj. unfold nan. rewrite !demo_clk_nanos.
  change (as_nanos (interval _)) with 500000000. unfold NSEC_PER_SEC. lia.
Qed.

Ltac demo_timer_ok :=
  let t := fresh in let Ht := fresh in
  intros t Ht; cbn in Ht; rewrite ?elem_of_cons in Ht;
  repeat (destruct Ht as [->|Ht]; [vm_compute; repeat split; congruence|]); by apply elem_of_nil in Ht.


(** A user page that holds the time asked for. *)
Definition sleep_mem (sec nsec : Z) : FlatMem :=
  {[ (1, 4096) := sec; (1, 4104) := nsec; (1, 8192) := 0; (1, 8200) := 0 ]}.


Lemma nanosleep_panics_witness :
  sys_nanosleep demo_clk 9 1 4096 8192 (sleep_mem usize_max 0) demo_timers = Panic.
Proof.
  apply (nanosleep_panics demo_clk 9 1 4096 8192 _ (sleep_mem usize_max 0) (sleep_mem usize_max 0)
    (sleep_mem usize_max 0) 0 demo_timers); [reflexivity|reflexivity|split; [lia|reflexivity]|reflexivity|vm_compute; congruence].
Defined.
