(* ===== verification/Futex.v ===== *)
(** Futexes (os/src/syscall/futex.rs): the queues of waiters, the system call, and
    what an exiting task does to the futexes it holds (os/src/task/task.rs).  A
    waker is the number of the task it wakes.  The atomic accesses of one operation
    on a word are one step; a wait is cut where the task suspends. *)

From S2P Require Import Prelude HalConst Errno Addr UserMem Signal Time.

#[local] Open Scope Z_scope.

(** ** The queues *)

Inductive FutexHashKey :=
| KeyShared (paddr : Z)
| KeyPrivate (mm vaddr : Z).

#[export] Instance FutexHashKey_eq_dec : EqDecision FutexHashKey.
Proof. solve_decision. Defined.

#[export] Instance FutexHashKey_countable : Countable FutexHashKey.
Proof.
  refine (inj_countable' (fun k => match k with KeyShared p => inl p | KeyPrivate m v => inr (m, v) end)
    (fun x => match x with inl p => KeyShared p | inr (m, v) => KeyPrivate m v end) _).
  by intros [].
Defined.

Record FutexWaiter := mkWaiter { w_tid : Z; w_waker : Z; w_mask : Z }.

Definition FUTEX_BITSET_MATCH_ANY : Z := 0xFFFFFFFF.

Notation "'FutexManager'" := (gmap FutexHashKey (list FutexWaiter)).

Definition fm_new : FutexManager := ∅.

Definition fm_add_waiter (fm : FutexManager) (key : FutexHashKey) (w : FutexWaiter) : FutexManager :=
  match fm !! key with
  | Some ws => <[key := ws ++ [w]]> fm
  | None => <[key := [w]]> fm
  end.

(** The first waiter of the task, and the others. *)
Fixpoint remove_tid (tid : Z) (ws : list FutexWaiter) : option (FutexWaiter * list FutexWaiter) :=
  match ws with
  | [] => None
  | w :: ws => if w_tid w =? tid then Some (w, ws)
               else match remove_tid tid ws with Some (x, ws') => Some (x, w :: ws') | None => None end
  end.

Definition fm_remove_waiter (fm : FutexManager) (key : FutexHashKey) (tid : Z) :
    option FutexWaiter * FutexManager :=
  match fm !! key with
  | Some ws =>
      match remove_tid tid ws with
      | Some (w, ws') => (Some w, <[key := ws']> fm)
      | None => (None, fm)
      end
  | None => (None, fm)
  end.

(** [wake]: the number woken, the tasks woken, in order. *)
Definition fm_wake (fm : FutexManager) (key : FutexHashKey) (n : Z) :
    result Z SysError * list FutexWaiter * FutexManager :=
  match fm !! key with
  | Some ws =>
      let k := Z.min n (Z.of_nat (length ws)) in
      (Ok k, take (Z.to_nat k) ws, <[key := drop (Z.to_nat k) ws]> fm)
  | None => (Err EINVAL, [], fm)
  end.

(** The loop of [wake_bitset]; indexing and [remove] of a missing element panic,
    and [None] is the end of the fuel. *)
Fixpoint bitset_loop (fuel : nat) (len i count max_count mask : Z) (ws woken : list FutexWaiter) :
    option (outcome (Z * list FutexWaiter * list FutexWaiter)) :=
  match fuel with
  | O => None
  | S fuel =>
      if (i <? len) && (count <? max_count) then
        match ws !! Z.to_nat (len - 1 - i) with
        | None => Some Panic
        | Some w =>
            if negb (Z.land (w_mask w) mask =? 0) then
              match ws !! Z.to_nat i with
              | None => Some Panic
              | Some x =>
                  bitset_loop fuel len i (count + 1) max_count mask (delete (Z.to_nat i) ws) (woken ++ [x])
              end
            else bitset_loop fuel len (i + 1) count max_count mask ws woken
        end
      else Some (Ret (count, woken, ws))
  end.

Definition fm_wake_bitset (fm : FutexManager) (key : FutexHashKey) (n mask : Z) :
    outcome (result Z SysError * list FutexWaiter * FutexManager) :=
  match fm !! key with
  | Some ws =>
      let! r := default Panic (bitset_loop (S (2 * length ws)) (Z.of_nat (length ws)) 0 0 n mask ws []) in
      let '(count, woken, ws) := r in
      Ret (Ok count, woken, <[key := ws]> fm)
  | None => Ret (Err EINVAL, [], fm)
  end.

Definition fm_requeue_waiters (fm : FutexManager) (old new : FutexHashKey) (n_req : Z) :
    result Z SysError * FutexManager :=
  match fm !! old with
  | None => (Err EINVAL, fm)
  | Some old_waiters =>
      let fm := delete old fm in
      let n := Z.min n_req (Z.of_nat (length old_waiters)) in
      let moved := take (Z.to_nat n) old_waiters in
      let left := drop (Z.to_nat n) old_waiters in
      let fm := <[new := default [] (fm !! new) ++ moved]> fm in
      let fm := if bool_decide (left = []) then fm else <[old := left]> fm in
      (Ok n, fm)
  end.

(** ** The operations *)

Inductive FutexOp :=
| Wait | Wake | Fd | Requeue | CmpRequeue | WakeOp | LockPi | UnlockPi | TryLockPi
| WaitBitset | WakeBitset | WaitBitsetPi | Undefined.

Definition FutexOp_from (value : Z) : FutexOp :=
  if value =? 0 then Wait else if value =? 1 then Wake else if value =? 2 then Fd
  else if value =? 3 then Requeue else if value =? 4 then CmpRequeue else if value =? 5 then WakeOp
  else if value =? 6 then LockPi else if value =? 7 then UnlockPi else if value =? 8 then TryLockPi
  else if value =? 9 then WaitBitset else if value =? 10 then WakeBitset
  else if value =? 11 then WaitBitsetPi else Undefined.

Definition FUTEX_PRIVATE_FLAG_BITMASK : Z := 0x80.
Definition FUTEX_CLOCK_REALTIME_BITMASK : Z := 0x100.

(** The word an operation of [WakeOp] stores; an unknown one panics. *)
Definition wake_op_value (op oldval oparg : Z) : outcome Z :=
  let op := Z.land op 7 in
  if op =? 0 then Ret oparg
  else if op =? 1 then Ret ((oldval + oparg) mod 2 ^ 32)
  else if op =? 2 then Ret (Z.lor oldval oparg)
  else if op =? 3 then Ret (Z.ldiff oldval oparg)
  else if op =? 4 then Ret (Z.lxor oldval oparg)
  else Panic.

Definition wake_op_check (cmp oldval cmparg : Z) : outcome bool :=
  if cmp =? 0 then Ret (oldval =? cmparg)
  else if cmp =? 1 then Ret (negb (oldval =? cmparg))
  else if cmp =? 5 then Ret (cmparg <=? oldval)
  else if cmp =? 4 then Ret (cmparg <? oldval)
  else if cmp =? 3 then Ret (oldval <=? cmparg)
  else if cmp =? 2 then Ret (oldval <? cmparg)
  else Panic.

Section Calls.
Context {C : ConstantsHal} {M : Type} {UM : UserMemory M}.

(** What the calls change: memory, the queues, the waiters woken so far, and of the
    calling task its signals and whether it is interruptable. *)
Record FutexState := mkFs {
  fs_mem : M; fs_fm : FutexManager; fs_woken : list FutexWaiter;
  fs_sig : SigManager; fs_interruptable : bool;
}.

Definition with_mem (s : FutexState) (m : M) : FutexState :=
  mkFs m (fs_fm s) (fs_woken s) (fs_sig s) (fs_interruptable s).
Definition with_fm (s : FutexState) (fm : FutexManager) : FutexState :=
  mkFs (fs_mem s) fm (fs_woken s) (fs_sig s) (fs_interruptable s).
Definition set_interruptable (s : FutexState) (b : bool) : FutexState :=
  mkFs (fs_mem s) (fs_fm s) (fs_woken s) (fs_sig s) b.
Definition add_woken (s : FutexState) (ws : list FutexWaiter) (fm : FutexManager) : FutexState :=
  mkFs (fs_mem s) fm (fs_woken s ++ ws) (fs_sig s) (fs_interruptable s).

Definition fs_load (s : FutexState) (vm addr size : Z) : outcome (Z * FutexState) :=
  let! r := um_load (fs_mem s) vm addr size in Ret (r.1, with_mem s r.2).
Definition fs_store (s : FutexState) (vm addr size v : Z) : outcome FutexState :=
  let! m := um_store (fs_mem s) vm addr size v in Ret (with_mem s m).
Definition fs_ensure (s : FutexState) (vm addr len access : Z) : outcome (bool * FutexState) :=
  let! r := um_ensure (fs_mem s) vm addr len access in Ret (r.1, with_mem s r.2).
Definition fs_wake (s : FutexState) (key : FutexHashKey) (n : Z) : result Z SysError * FutexState :=
  let '(r, ws, fm) := fm_wake (fs_fm s) key n in (r, add_woken s ws fm).

(** The key of an address, private to the address space or the physical address. *)
Definition futex_key (vm addr : Z) (is_private : bool) (s : FutexState) :
    outcome (option FutexHashKey * FutexState) :=
  if is_private then Ret (Some (KeyPrivate vm (VirtAddr_from addr)), s)
  else
    let! r := um_translate (fs_mem s) vm (VirtAddr_from addr) ACCESS_WRITE in
    Ret (KeyShared <$> r.1, with_mem s r.2).

(** ** Waiting *)

(** [set_wake_up_sigs]; the caller has just become interruptable. *)
Definition set_wake_up_sigs (m : SigManager) (sigs : Z) : SigManager :=
  with_wake m (Z.lor (Z.lor sigs (sig_bit SIGKILL)) (sig_bit SIGSTOP)).

Definition add_awaiter (s : FutexState) (tid : Z) (waker : option Z) (key : FutexHashKey) (mask : Z) :
    outcome FutexState :=
  let sig := set_wake_up_sigs (fs_sig s) (wnot (blocked_sigs (fs_sig s))) in
  let! w := unwrap waker in
  Ret (mkFs (fs_mem s) (fm_add_waiter (fs_fm s) key (mkWaiter tid w mask)) (fs_woken s) sig true).

(** A call that is over, or one that sleeps in a queue, for at most the given time. *)
Inductive futex_call :=
| FDone (r : result Z SysError)
| FSleep (key : FutexHashKey) (limit : option Duration).

(** The end of an interrupted or expired wait: the caller runs again and leaves the
    queue; a waiter that is no longer there has been woken. *)
Definition leave_queue (s : FutexState) (key : FutexHashKey) (tid : Z) (e : SysError) :
    result Z SysError * FutexState :=
  let s := set_interruptable s false in
  match fm_remove_waiter (fs_fm s) key tid with
  | (None, fm) => (Ok 0, with_fm s fm)
  | (Some _, fm) => (Err e, with_fm s fm)
  end.

(** The part of a wait under the lock of the manager: the second look at the word,
    the queue, and, with a timeout, the time to sleep.  [now] is the clock. *)
Definition futex_wait_locked (tid : Z) (waker : option Z) (vm uaddr : Z) (key : FutexHashKey) (mask val timeout : Z)
    (is_realtime : bool) (now : Duration) (s : FutexState) : outcome (futex_call * FutexState) :=
  let! r := fs_load s vm uaddr 4 in
  let '(v, s) := r in
  if negb (v =? val) then Ret (FDone (Err EAGAIN), s)
  else
    let! s := add_awaiter s tid waker key mask in
    if timeout =? 0 then Ret (FSleep key None, s)
    else
      let! r := load_words (fs_mem s) vm timeout 2 in
      let s := with_mem s r.2 in
      let t := mkTs (word r.1 0) (word r.1 1) in
      if negb (TimeSpec_is_valid t) then Ret (FDone (Err EINVAL), s)
      else
        let! d := TimeSpec_into t in
        if is_realtime then
          if dur_le d now then let '(r, s) := leave_queue s key tid ETIMEOUT in Ret (FDone r, s)
          else let! d := dur_sub d now in Ret (FSleep key (Some d), s)
        else Ret (FSleep key (Some d), s).

(** A wait up to its suspension: the mask, the first look at the word, then the lock. *)
Definition futex_wait (tid : Z) (waker : option Z) (vm uaddr : Z) (key : FutexHashKey) (bitset : bool)
    (val timeout val3 : Z) (is_realtime : bool) (now : Duration) (s : FutexState) : outcome (futex_call * FutexState) :=
  if bitset && (val3 =? 0) then Ret (FDone (Err EINVAL), s)
  else
    let mask := if bitset then val3 else FUTEX_BITSET_MATCH_ANY in
    let! r := fs_load s vm uaddr 4 in
    let '(v, s) := r in
    if negb (v =? val) then Ret (FDone (Err EAGAIN), s)
    else futex_wait_locked tid waker vm uaddr key mask val timeout is_realtime now s.

(** After the suspension; [expired] says that a timeout was given and nothing is
    left of it. *)
Definition futex_resume (tid : Z) (key : FutexHashKey) (expired : bool) (s : FutexState) :
    result Z SysError * FutexState :=
  if expired then leave_queue s key tid ETIMEOUT
  else
    let wake_up_sigs := wnot (blocked_sigs (fs_sig s)) in
    if check_pending_flag (fs_sig s) wake_up_sigs then leave_queue s key tid EINTR
    else (Ok 0, set_interruptable s false).

(** ** The system call *)

Definition futex_requeue (vm uaddr2 val n_req : Z) (key : FutexHashKey) (is_private : bool) (s : FutexState) :
    outcome (result Z SysError * FutexState) :=
  match fs_wake s key val with
  | (Err e, s) => Ret (Err e, s)
  | (Ok n_woke, s) =>
      let! r := futex_key vm uaddr2 is_private s in
      match r with
      | (None, s) => Ret (Err EINVAL, s)
      | (Some new_key, s) =>
          match fm_requeue_waiters (fs_fm s) key new_key n_req with
          | (Ok _, fm) => Ret (Ok n_woke, with_fm s fm)
          | (Err e, fm) => Ret (Err e, with_fm s fm)
          end
      end
  end.

Definition futex_wake_op (vm uaddr2 val val2 val3 : Z) (key : FutexHashKey) (is_private : bool) (s : FutexState) :
    outcome (result Z SysError * FutexState) :=
  let op := Z.land (Z.shiftr val3 28) 15 in
  let cmp := Z.land (Z.shiftr val3 24) 15 in
  let oparg := Z.land (Z.shiftr val3 12) 0xFFF in
  let cmparg := Z.land val3 0xFFF in
  let actual_oparg := if negb (Z.land op 8 =? 0) then Z.shiftl 1 (Z.land oparg 31) else oparg in
  let! r := fs_load s vm uaddr2 4 in
  let '(oldval, s) := r in
  let! newval := wake_op_value op oldval actual_oparg in
  let! s := fs_store s vm uaddr2 4 newval in
  match fs_wake s key val with
  | (Err e, s) => Ret (Err e, s)
  | (Ok n_woke1, s) =>
      let! ok := wake_op_check cmp oldval cmparg in
      if ok : bool then
        let! r := futex_key vm uaddr2 is_private s in
        match r with
        | (None, s) => Ret (Err EINVAL, s)
        | (Some _, s) =>
            match fs_wake s key val2 with
            | (Err e, s) => Ret (Err e, s)
            | (Ok n_woke2, s) => Ret (Ok (n_woke1 + n_woke2), s)
            end
        end
      else Ret (Ok n_woke1, s)
  end.

Definition sys_futex (tid : Z) (waker : option Z) (vm uaddr futex_op val timeout uaddr2 val3 : Z) (now : Duration)
    (s : FutexState) : outcome (futex_call * FutexState) :=
  let is_private := negb (Z.land futex_op FUTEX_PRIVATE_FLAG_BITMASK =? 0) in
  let is_realtime := negb (Z.land futex_op FUTEX_CLOCK_REALTIME_BITMASK =? 0) in
  let op := FutexOp_from (Z.ldiff futex_op (Z.lor FUTEX_PRIVATE_FLAG_BITMASK FUTEX_CLOCK_REALTIME_BITMASK)) in
  let finish (r : outcome (result Z SysError * FutexState)) := let! x := r in Ret (FDone x.1, x.2) in
  let! r := futex_key vm uaddr is_private s in
  match r with
  | (None, s) => Ret (FDone (Err EINVAL), s)
  | (Some key, s) =>
      match op with
      | Wait => futex_wait tid waker vm uaddr key false val timeout val3 is_realtime now s
      | WaitBitset => futex_wait tid waker vm uaddr key true val timeout val3 is_realtime now s
      | Wake => let '(r, s) := fs_wake s key val in Ret (FDone r, s)
      | Requeue => finish (futex_requeue vm uaddr2 val timeout key is_private s)
      | CmpRequeue =>
          let! r := fs_load s vm uaddr 4 in
          let '(v, s) := r in
          if negb (v =? val3) then Ret (FDone (Err EAGAIN), s)
          else finish (futex_requeue vm uaddr2 val timeout key is_private s)
      | WakeOp => finish (futex_wake_op vm uaddr2 val (timeout mod 2 ^ 32) val3 key is_private s)
      | WakeBitset =>
          if val3 =? 0 then Ret (FDone (Err EINVAL), s)
          else
            let! r := fm_wake_bitset (fs_fm s) key val val3 in
            let '(r, ws, fm) := r in Ret (FDone r, add_woken s ws fm)
      | _ => Ret (FDone (Err EINVAL), s)
      end
  end.

(** ** The exit of a task *)

(** [futex_wake(addr, shared, vm)]: one waiter of the key, if the key exists. *)
Definition futex_wake (vm addr : Z) (shared : bool) (s : FutexState) : outcome FutexState :=
  let! r := futex_key vm addr (negb shared) s in
  match r with
  | (Some key, s) => Ret (fs_wake s key 1).2
  | (None, s) => Ret s
  end.

Definition FUTEX_WAITERS : Z := 0x80000000.
Definition FUTEX_OWNER_DIED : Z := 0x40000000.
Definition FUTEX_TID_MASK : Z := 0x3fffffff.

(** [handle_futex_death]; the result says whether it succeeded. *)
Definition handle_futex_death (tid vm addr : Z) (pi pending_op : bool) (s : FutexState) :
    outcome (bool * FutexState) :=
  let! r := fs_ensure s vm addr 4 ACCESS_WRITE in
  let '(ok, s) := r in
  if negb ok then Ret (false, s)
  else
    let! r := fs_load s vm addr 4 in
    let '(old_val, s) := r in
    let owner := Z.land old_val FUTEX_TID_MASK in
    if pending_op && negb pi && (owner =? 0) then
      let! s := futex_wake vm addr true s in Ret (true, s)
    else if negb (owner =? tid) then Ret (true, s)
    else
      let new_val := Z.lor (Z.land old_val FUTEX_WAITERS) FUTEX_OWNER_DIED in
      let! s := fs_store s vm addr 4 new_val in
      if negb pi && negb (Z.land old_val FUTEX_WAITERS =? 0) then
        let! s := futex_wake vm addr true s in Ret (true, s)
      else Ret (true, s).

(** [fetch_robust_entry]: a link and its priority-inheritance bit. *)
Definition fetch_robust_entry (vm head : Z) (s : FutexState) : outcome (option (Z * bool) * FutexState) :=
  let! r := fs_ensure s vm head 8 ACCESS_READ in
  let '(ok, s) := r in
  if negb ok then Ret (None, s)
  else
    let! r := fs_load s vm head 8 in
    let '(uentry, s) := r in
    Ret (Some (Z.land uentry (wnot 1), negb (Z.land uentry 1 =? 0)), s).

(** The walk along the list: at most [limit] entries. *)
Fixpoint robust_loop (limit : nat) (tid vm head futex_offset pending entry : Z) (pi : bool) (s : FutexState) :
    outcome (bool * FutexState) :=
  match limit with
  | O => Ret (true, s)
  | S limit =>
      if entry =? head then Ret (true, s)
      else
        let! r := fetch_robust_entry vm entry s in
        match r with
        | (None, s) => Ret (false, s)
        | (Some (next_entry, next_pi), s) =>
            let! r :=
              (if negb (entry =? pending)
               then handle_futex_death tid vm (wadd entry futex_offset) pi false s
               else Ret (true, s)) in
            let '(ok, s) := r in
            if negb ok then Ret (false, s)
            else robust_loop limit tid vm head futex_offset pending next_entry next_pi s
        end
  end.

Definition ROBUST_LIMIT : nat := 2048.

(** [exit_robust_list] from the registered head: what is registered afterwards, and
    whether the walk succeeded. *)
Definition exit_robust_list (tid vm robust : Z) (s : FutexState) : outcome (Z * bool * FutexState) :=
  let! r := fs_ensure s vm robust 24 ACCESS_READ in
  let '(ok, s) := r in
  if negb ok then Ret (robust, false, s)
  else
    let! r := fetch_robust_entry vm robust s in
    match r with
    | (None, s) => Ret (0, false, s)
    | (Some (entry, pi), s) =>
        let! r := fs_load s vm (wadd robust 8) 8 in
        let '(futex_offset, s) := r in
        let! r := fetch_robust_entry vm (wadd robust 16) s in
        match r with
        | (None, s) => Ret (0, false, s)
        | (Some (pending, pip), s) =>
            let! r := robust_loop ROBUST_LIMIT tid vm robust futex_offset pending entry pi s in
            let '(ok, s) := r in
            if negb ok then Ret (0, false, s)
            else if pending =? 0 then Ret (0, true, s)
            else
              let! r := fs_ensure s vm pending 8 ACCESS_READ in
              let '(ok, s) := r in
              if negb ok then Ret (0, false, s)
              else
                let! r := handle_futex_death tid vm (wadd pending futex_offset) pip true s in
                let '(ok, s) := r in Ret (0, ok, s)
        end
    end.

(** [mm_release]: the word other threads join on is cleared and its waiters woken,
    then the robust list; what is left of [clear_child_tid] and [robust]. *)
Definition mm_release (tid vm : Z) (clear_child_tid : option Z) (robust : Z) (s : FutexState) :
    outcome (option Z * Z * FutexState) :=
  let! r :=
    match clear_child_tid with
    | Some addr =>
        if negb (addr =? 0) && (Z.land addr 3 =? 0) then
          let! r := fs_ensure s vm addr 4 ACCESS_WRITE in
          let '(ok, s) := r in
          let! s := (if ok : bool then fs_store s vm addr 4 0 else Ret s) in
          let! s := futex_wake vm addr false s in
          let! s := futex_wake vm addr true s in
          Ret (None, s)
        else Ret (clear_child_tid, s)
    | None => Ret (None, s)
    end in
  let '(cct, s) := r in
  let! r := exit_robust_list tid vm robust s in
  let '(robust, _, s) := r in
  Ret (cct, robust, s).

Definition sys_set_robust_list (head len robust : Z) : result Z SysError * Z :=
  if negb (len =? 24) then (Err EINVAL, robust) else (Ok 0, head).

End Calls.

Arguments FutexState : clear implicits.
