(* ===== verification/FutexProofs.v ===== *)
(** What the futex queues promise: no waiter is lost or woken twice, except by a
    requeue of a queue onto itself; a wake by mask panics; and the wait cannot
    miss a wake-up, whatever the interleaving. *)

From S2P Require Import Prelude HalConst Errno Addr UserMem Signal Time Futex.

#[local] Open Scope Z_scope.

(** ** Waiters are conserved *)

(** All queued waiters. *)
Definition queued (fm : FutexManager) : list FutexWaiter := map_to_list fm ≫= snd.

Lemma queued_insert fm key ws : fm !! key = None -> queued (<[key := ws]> fm) ≡ₚ ws ++ queued fm.
Proof.
  intros E. unfold queued.
  by rewrite (map_to_list_insert fm key ws E).
Qed.

Lemma queued_delete fm key ws : fm !! key = Some ws -> queued fm ≡ₚ ws ++ queued (delete key fm).
Proof.
  intros E. unfold queued.
  by rewrite <- (map_to_list_delete fm key ws E).
Qed.

Lemma queued_replace fm key ws : queued (<[key := ws]> fm) ≡ₚ ws ++ queued (delete key fm).
Proof. rewrite <- insert_delete_eq. apply queued_insert, lookup_delete_eq. Qed.

Lemma queued_missing fm key : fm !! key = None -> queued (delete key fm) = queued fm.
Proof. intros E. by rewrite delete_id. Qed.

Lemma add_conserves fm key w : queued (fm_add_waiter fm key w) ≡ₚ w :: queued fm.
Proof.
  unfold fm_add_waiter. destruct (fm !! key) as [ws|] eqn:E; rewrite queued_replace.
  - rewrite (queued_delete fm key ws E). by rewrite <- app_assoc, Permutation_middle.
  - by rewrite queued_missing.
Qed.

Lemma remove_tid_perm tid ws w ws' : remove_tid tid ws = Some (w, ws') -> ws ≡ₚ w :: ws'.
Proof.
  revert ws'. induction ws as [|x ws IH]; intros ws' E; cbn in E; [done|].
  destruct (w_tid x =? tid); [by simplify_eq|].
  destruct (remove_tid tid ws) as [[y l]|]; [|done]. simplify_eq. rewrite (IH l) by done. apply perm_swap.
Qed.

Lemma remove_conserves fm key tid o fm' : fm_remove_waiter fm key tid = (o, fm') ->
  queued fm ≡ₚ option_list o ++ queued fm'.
Proof.
  unfold fm_remove_waiter. destruct (fm !! key) as [ws|] eqn:E; [|by intros [= <- <-]].
  destruct (remove_tid tid ws) as [[w ws']|] eqn:Er; [|by intros [= <- <-]].
  intros [= <- <-]. rewrite queued_replace, (queued_delete fm key ws E). by rewrite (remove_tid_perm _ _ _ _ Er).
Qed.

Lemma wake_conserves fm key n r ws fm' : fm_wake fm key n = (r, ws, fm') -> queued fm ≡ₚ ws ++ queued fm'.
Proof.
  unfold fm_wake. destruct (fm !! key) as [q|] eqn:E; [|by intros [= <- <- <-]].
  intros [= <- <- <-]. rewrite queued_replace, (queued_delete fm key q E), app_assoc. by rewrite take_drop.
Qed.

Lemma requeue_conserves fm old new n r fm' : old <> new -> fm_requeue_waiters fm old new n = (r, fm') ->
  queued fm' ≡ₚ queued fm.
Proof.
  intros Hne. unfold fm_requeue_waiters. destruct (fm !! old) as [q|] eqn:E; [|by intros [= <- <-]].
  set (k := Z.to_nat _). set (fm1 := <[new := _]> _). intros [= _ <-].
  assert (Hold : fm1 !! old = None) by (unfold fm1; rewrite lookup_insert_ne by done; apply lookup_delete_eq).
  assert (H1 : queued fm1 ≡ₚ take k q ++ queued (delete old fm)).
  { unfold fm1. rewrite queued_replace. destruct (delete old fm !! new) as [q'|] eqn:En; cbn.
    - rewrite (queued_delete _ new q' En). rewrite !app_assoc. by rewrite (Permutation_app_comm q').
    - by rewrite queued_missing. }
  rewrite (queued_delete fm old q E). case_bool_decide as Hd.
  - rewrite H1. rewrite <- (take_drop k q) at 2. by rewrite Hd, app_nil_r.
  - rewrite queued_insert by done. rewrite H1, app_assoc, (Permutation_app_comm (drop k q)). by rewrite take_drop.
Qed.

(** The loop of a wake by mask keeps every waiter, when it ends. *)
Lemma bitset_loop_conserves fuel len i c mx mask : forall ws woken c' woken' ws',
  bitset_loop fuel len i c mx mask ws woken = Some (Ret (c', woken', ws')) -> woken ++ ws ≡ₚ woken' ++ ws'.
Proof.
  revert i c. induction fuel as [|fuel IH]; intros i c ws woken c' woken' ws' E; cbn in E; [done|].
  destruct (_ && _); [|by simplify_eq].
  destruct (ws !! Z.to_nat (len - 1 - i)) as [w|]; [|done].
  destruct (negb _); [|by apply IH in E].
  destruct (ws !! Z.to_nat i) as [x|] eqn:Ex; [|done]. apply IH in E. rewrite <- E, <- app_assoc. cbn.
  by rewrite <- (delete_Permutation ws (Z.to_nat i) x Ex).
Qed.

(** The fuel of [fm_wake_bitset] is enough: it always ends. *)
Lemma bitset_loop_ends fuel len i c mx mask : forall ws woken,
  0 <= i -> (Z.to_nat (len - i) + length ws < fuel)%nat -> bitset_loop fuel len i c mx mask ws woken <> None.
Proof.
  revert i c. induction fuel as [|fuel IH]; intros i c ws woken Hi Hf; cbn; [lia|].
  destruct (Z.ltb_spec i len); cbn; [|done]. destruct (c <? mx); [|done].
  destruct (ws !! Z.to_nat (len - 1 - i)) as [w|]; [|done].
  destruct (negb _); [|apply IH; lia].
  destruct (ws !! Z.to_nat i) as [x|] eqn:Ex; [|done]. apply IH; [lia|].
  pose proof (lookup_lt_Some _ _ _ Ex). rewrite length_delete by eauto. lia.
Qed.

(** ** Runs of the queues *)

Inductive queue_op :=
| QAdd (key : FutexHashKey) (w : FutexWaiter)
| QRemove (key : FutexHashKey) (tid : Z)
| QWake (key : FutexHashKey) (n : Z)
| QWakeBitset (key : FutexHashKey) (n mask : Z)
| QRequeue (old new : FutexHashKey) (n : Z).

(** The queues, the waiters woken and those that left by themselves, so far. *)
Record QueueRun := mkRun { q_fm : FutexManager; q_woken : list FutexWaiter; q_left : list FutexWaiter }.

Definition queue_step (r : QueueRun) (op : queue_op) : outcome QueueRun :=
  match op with
  | QAdd key w => Ret (mkRun (fm_add_waiter (q_fm r) key w) (q_woken r) (q_left r))
  | QRemove key tid =>
      let '(o, fm) := fm_remove_waiter (q_fm r) key tid in Ret (mkRun fm (q_woken r) (q_left r ++ option_list o))
  | QWake key n =>
      let '(_, ws, fm) := fm_wake (q_fm r) key n in Ret (mkRun fm (q_woken r ++ ws) (q_left r))
  | QWakeBitset key n mask =>
      let! x := fm_wake_bitset (q_fm r) key n mask in
      let '(_, ws, fm) := x in Ret (mkRun fm (q_woken r ++ ws) (q_left r))
  | QRequeue old new n =>
      let '(_, fm) := fm_requeue_waiters (q_fm r) old new n in Ret (mkRun fm (q_woken r) (q_left r))
  end.

Fixpoint queue_run (r : QueueRun) (ops : list queue_op) : outcome QueueRun :=
  match ops with
  | [] => Ret r
  | op :: ops => let! r := queue_step r op in queue_run r ops
  end.

Definition added (ops : list queue_op) : list FutexWaiter :=
  omap (fun op => match op with QAdd _ w => Some w | _ => None end) ops.

(** No requeue of a queue onto itself. *)
Definition distinct_requeue (op : queue_op) : bool :=
  match op with QRequeue old new _ => bool_decide (old <> new) | _ => true end.

Definition no_bitset (op : queue_op) : bool := match op with QWakeBitset _ _ _ => false | _ => true end.

Definition accounted (r : QueueRun) : list FutexWaiter := q_woken r ++ q_left r ++ queued (q_fm r).

Lemma queue_step_conserves r op r' : distinct_requeue op = true -> queue_step r op = Ret r' ->
  accounted r' ≡ₚ added [op] ++ accounted r.
Proof.
  intros Hd E. unfold accounted. destruct op as [key w|key tid|key n|key n mask|old new n]; cbn -[bitset_loop] in *.
  - simplify_eq. cbn. rewrite add_conserves. by rewrite !Permutation_middle.
  - destruct (fm_remove_waiter _ _ _) as [o fm] eqn:Er. simplify_eq. cbn.
    rewrite (remove_conserves _ _ _ _ _ Er). by rewrite <- !app_assoc.
  - destruct (fm_wake _ _ _) as [[x ws] fm] eqn:Ew. simplify_eq. cbn. rewrite (wake_conserves _ _ _ _ _ _ Ew).
    rewrite <- !app_assoc. f_equiv. rewrite !app_assoc. by rewrite (Permutation_app_comm ws).
  - unfold fm_wake_bitset in E. destruct (q_fm r !! key) as [q|] eqn:Eq; [|cbn in E; simplify_eq; cbn; by rewrite app_nil_r].
    destruct (bitset_loop _ _ _ _ _ _ _ _) as [[[[c wk] ws]|]|] eqn:Eb; cbn in E; [|done|done]. simplify_eq. cbn.
    apply bitset_loop_conserves in Eb. cbn in Eb. rewrite queued_replace, (queued_delete _ _ _ Eq), Eb.
    rewrite <- !app_assoc. f_equiv. rewrite !app_assoc. do 2 f_equiv. apply Permutation_app_comm.
  - apply bool_decide_eq_true in Hd. destruct (fm_requeue_waiters _ _ _ _) as [x fm] eqn:Er. simplify_eq. cbn.
    by rewrite (requeue_conserves _ _ _ _ _ _ Hd Er).
Qed.

Lemma queue_run_conserves ops : forall r r', forallb distinct_requeue ops = true -> queue_run r ops = Ret r' ->
  accounted r' ≡ₚ added ops ++ accounted r.
Proof.
  induction ops as [|op ops IH]; intros r r' Hd E; cbn in *; [by simplify_eq|].
  apply andb_prop in Hd as (Hd & Hds). destruct (queue_step r op) as [r1|] eqn:E1; cbn in E; [|done].
  rewrite (IH r1 r' Hds E), (queue_step_conserves r op r1 Hd E1). cbn.
  destruct op; cbn; try done. by rewrite Permutation_middle.
Qed.

Lemma queue_run_total ops r : forallb no_bitset ops = true -> exists r', queue_run r ops = Ret r'.
Proof.
  revert r. induction ops as [|op ops IH]; intros r Hn; cbn in *; [eauto|].
  apply andb_prop in Hn as (Hn & Hns). destruct op; cbn in *; try done; auto.
  - destruct (fm_remove_waiter _ _ _). by apply IH.
  - destruct (fm_wake _ _ _) as [[]]. by apply IH.
  - destruct (fm_requeue_waiters _ _ _ _). by apply IH.
Qed.


Definition demo_queue_ops : list queue_op :=
  [QAdd (KeyShared 4096) (mkWaiter 1 1 1); QAdd (KeyShared 4096) (mkWaiter 2 2 1);
   QAdd (KeyShared 4096) (mkWaiter 3 3 1); QWake (KeyShared 4096) 1;
   QRequeue (KeyShared 4096) (KeyPrivate 1 64) 1; QRemove (KeyPrivate 1 64) 2].


(** A requeue of a queue onto itself loses waiters.  The waiters to move are
    put back under the key, and then the rest of the queue is stored over them:
    whenever a futex has more waiters than are to be moved, those moved are in no
    queue afterwards and have not been woken, and the call reports success. *)
Theorem requeue_same_loses fm key ws n (Hws : fm !! key = Some ws) (Hn : 0 < n < Z.of_nat (length ws)) :
  fm_requeue_waiters fm key key n = (Ok n, <[key := drop (Z.to_nat n) ws]> fm) /\
  queued fm ≡ₚ take (Z.to_nat n) ws ++ queued (fm_requeue_waiters fm key key n).2.
Proof.
  assert (E : fm_requeue_waiters fm key key n = (Ok n, <[key := drop (Z.to_nat n) ws]> fm)).
  { unfold fm_requeue_waiters. rewrite Hws, Z.min_l by lia. rewrite bool_decide_eq_false_2.
    - by rewrite insert_insert_eq, insert_delete_eq.
    - intros Hd%(f_equal length). rewrite length_drop in Hd. cbn in Hd. lia. }
  split; [done|]. rewrite E. cbn. rewrite queued_replace, (queued_delete fm key ws Hws), app_assoc. by rewrite take_drop.
Qed.

Lemma requeue_same_loses_witness :
  queued (fm_requeue_waiters {[ KeyShared 64 := [mkWaiter 1 1 1; mkWaiter 2 2 1] ]} (KeyShared 64) (KeyShared 64) 1).2 =
    [mkWaiter 2 2 1].
Proof.
  destruct (requeue_same_loses {[ KeyShared 64 := [mkWaiter 1 1 1; mkWaiter 2 2 1] ]} (KeyShared 64)
    [mkWaiter 1 1 1; mkWaiter 2 2 1] 1) as (E & _); [reflexivity|cbn; lia|].
  rewrite E. reflexivity.
Defined.

(** [FUTEX_WAKE_BITSET] stops the kernel.  The loop reads the queue at the
    length it had before the first removal: whenever more than one waiter may be
    woken and the last waiter of the queue matches the mask, the call panics. *)
Theorem wake_bitset_panics fm key ws w n mask (Hws : fm !! key = Some (ws ++ [w])) (Hn : 2 <= n)
    (Hmask : Z.land (w_mask w) mask <> 0) :
  fm_wake_bitset fm key n mask = Panic.
Proof.
  unfold fm_wake_bitset. rewrite Hws, length_app. cbn [length].
  replace (S (2 * (length ws + 1))) with (S (S (S (2 * length ws)))) by lia.
  set (len := Z.of_nat (length ws + 1)).
  assert (Hlen : Z.to_nat (len - 1 - 0) = length ws) by (unfold len; lia).
  assert (H0 : exists x, (ws ++ [w]) !! 0%nat = Some x) by (destruct ws; cbn; eauto). destruct H0 as (x & Hx).
  assert (Hlt : (0 <? len) = true) by (apply Z.ltb_lt; unfold len; lia).
  cbn [bitset_loop]. rewrite Hlt, Hlen. change (Z.to_nat 0) with 0%nat. rewrite Hx.
  rewrite (proj2 (Z.ltb_lt 0 n)), (proj2 (Z.ltb_lt (0 + 1) n)) by lia. cbn [andb].
  rewrite lookup_app_r, Nat.sub_diag by lia. cbn [lookup list_lookup].
  destruct (Z.eqb_spec (Z.land (w_mask w) mask) 0); [done|]. cbn [negb].
  rewrite lookup_ge_None_2; [done|]. rewrite length_delete by eauto. rewrite length_app. cbn. lia.
Qed.

Lemma wake_bitset_panics_witness :
  fm_wake_bitset {[ KeyShared 64 := [mkWaiter 1 1 0xFFFFFFFF] ]} (KeyShared 64) 0x7FFFFFFF 0xFFFFFFFF = Panic.
Proof. apply (wake_bitset_panics _ _ [] (mkWaiter 1 1 0xFFFFFFFF)); [reflexivity|lia|vm_compute; congruence]. Defined.

(** ** No wake-up is missed *)

(** Where a waiting task is: before its first look at the word, before the lock,
    in the lock before and after the second look, asleep, returned. *)
Inductive wait_pc := WStart | WLooked | WLocked | WMatched | WAsleep | WDone.

(** The task that changes the word and then wakes all waiters. *)
Inductive wake_pc := KStart | KStored | KWoke.

#[export] Instance wait_pc_eq_dec : EqDecision wait_pc.
Proof. solve_decision. Defined.

(** The word, the queues, the holder of the manager's lock, the waiting tasks, the
    waking task. *)
Record Race := mkRace {
  rc_word : Z; rc_fm : FutexManager; rc_lock : option Z; rc_pc : gmap Z wait_pc; rc_waker : wake_pc;
}.

Definition set_pc (s : Race) (t : Z) (pc : wait_pc) (lock : option Z) : Race :=
  mkRace (rc_word s) (rc_fm s) lock (<[t := pc]> (rc_pc s)) (rc_waker s).

(** The tasks woken return. *)
Definition wake_all (ws : list FutexWaiter) (pcs : gmap Z wait_pc) : gmap Z wait_pc :=
  foldr (fun w m => <[w_waker w := WDone]> m) pcs ws.

(** One step of some task.  The waiters run [sys_futex] for a wait of [val] on the
    futex [key], each load, the acquisition of the lock and the critical section's
    end a step of its own; a sleeper may also leave because of a signal.  Others may
    store to the word: anything before the waking task has stored, and after that
    anything but [val]. *)
Inductive race_step (key : FutexHashKey) (val n : Z) : Race -> Race -> Prop :=
| s_look s t : rc_pc s !! t = Some WStart ->
    race_step key val n s (set_pc s t (if rc_word s =? val then WLooked else WDone) (rc_lock s))
| s_lock s t : rc_pc s !! t = Some WLooked -> rc_lock s = None ->
    race_step key val n s (set_pc s t WLocked (Some t))
| s_look_again s t : rc_pc s !! t = Some WLocked ->
    race_step key val n s
      (if rc_word s =? val then set_pc s t WMatched (Some t) else set_pc s t WDone None)
| s_queue s t : rc_pc s !! t = Some WMatched ->
    race_step key val n s
      (mkRace (rc_word s) (fm_add_waiter (rc_fm s) key (mkWaiter t t FUTEX_BITSET_MATCH_ANY)) None
         (<[t := WAsleep]> (rc_pc s)) (rc_waker s))
| s_signal s t : rc_pc s !! t = Some WAsleep -> rc_lock s = None ->
    race_step key val n s
      (mkRace (rc_word s) (fm_remove_waiter (rc_fm s) key t).2 None (<[t := WDone]> (rc_pc s)) (rc_waker s))
| s_other s v : rc_waker s = KStart \/ v <> val ->
    race_step key val n s (mkRace v (rc_fm s) (rc_lock s) (rc_pc s) (rc_waker s))
| s_store s v : rc_waker s = KStart -> v <> val ->
    race_step key val n s (mkRace v (rc_fm s) (rc_lock s) (rc_pc s) KStored)
| s_wake s : rc_waker s = KStored -> rc_lock s = None ->
    race_step key val n s
      (let '(_, ws, fm) := fm_wake (rc_fm s) key n in
       mkRace (rc_word s) fm None (wake_all ws (rc_pc s)) KWoke).

Definition queue_of (s : Race) (key : FutexHashKey) : list FutexWaiter := default [] (rc_fm s !! key).

(** Nobody waits yet. *)
Definition race_init (key : FutexHashKey) (s : Race) : Prop :=
  queue_of s key = [] /\ rc_lock s = None /\ rc_waker s = KStart /\
  forall t pc, rc_pc s !! t = Some pc -> pc = WStart.

Definition race_inv (key : FutexHashKey) (val : Z) (s : Race) : Prop :=
  (forall t, rc_lock s = Some t <-> rc_pc s !! t = Some WLocked \/ rc_pc s !! t = Some WMatched) /\
  NoDup (w_tid <$> queue_of s key) /\
  (forall w, w ∈ queue_of s key -> w_waker w = w_tid w) /\
  (forall t, t ∈ (w_tid <$> queue_of s key) <-> rc_pc s !! t = Some WAsleep) /\
  (rc_waker s <> KStart -> rc_word s <> val) /\
  (rc_waker s = KWoke -> forall t, rc_pc s !! t <> Some WAsleep /\ rc_pc s !! t <> Some WMatched).

Section Race.
Context (key : FutexHashKey) (val n : Z).

Lemma queue_add fm w : default [] (fm_add_waiter fm key w !! key) = default [] (fm !! key) ++ [w].
Proof. unfold fm_add_waiter. destruct (fm !! key); by rewrite lookup_insert_eq. Qed.

Lemma wake_all_lookup ws pcs t : wake_all ws pcs !! t =
  if bool_decide (t ∈ (w_waker <$> ws)) then Some WDone else pcs !! t.
Proof.
  induction ws as [|w ws IH]; [by rewrite bool_decide_eq_false_2 by (by intros ?%elem_of_nil)|].
  change (wake_all (w :: ws) pcs) with (<[w_waker w := WDone]> (wake_all ws pcs)). cbn.
  destruct (decide (t = w_waker w)) as [->|Hne].
  - rewrite lookup_insert_eq, bool_decide_eq_true_2; [done|left].
  - rewrite lookup_insert_ne, IH by done.
    assert (E : t ∈ (w_waker w :: (w_waker <$> ws)) <-> t ∈ (w_waker <$> ws)) by (rewrite elem_of_cons; naive_solver).
    by rewrite (bool_decide_ext _ _ E).
Qed.

(** Where one task alone moves, with the queue and the lock as they were. *)
Lemma inv_move s t pc : race_inv key val s ->
  rc_pc s !! t <> Some WAsleep -> rc_pc s !! t <> Some WLocked -> rc_pc s !! t <> Some WMatched ->
  pc <> WAsleep -> pc <> WLocked -> pc <> WMatched ->
  race_inv key val (set_pc s t pc (rc_lock s)).
Proof.
  intros (Hlock & Hnd & Hw & Hq & Hk & Hdone) H1 H2 H3 P1 P2 P3. unfold race_inv, set_pc, queue_of in *. cbn.
  split; [|split; [done|split; [done|split; [|split; [done|]]]]].
  - intros u. destruct (decide (u = t)) as [->|Hne]; [|by rewrite lookup_insert_ne by done].
    rewrite lookup_insert_eq, Hlock. naive_solver.
  - intros u. destruct (decide (u = t)) as [->|Hne]; [|by rewrite lookup_insert_ne by done].
    rewrite lookup_insert_eq, Hq. naive_solver.
  - intros Hwoke u. destruct (decide (u = t)) as [->|Hne]; [|rewrite lookup_insert_ne by done; by apply Hdone].
    rewrite lookup_insert_eq. naive_solver.
Qed.

(** The task that holds the lock, or takes it, moves. *)
Lemma inv_locked s t pc lock : race_inv key val s ->
  rc_lock s = None \/ rc_lock s = Some t -> rc_pc s !! t <> Some WAsleep -> pc <> WAsleep ->
  (pc = WMatched -> rc_word s = val) ->
  lock = (if bool_decide (pc = WLocked \/ pc = WMatched) then Some t else None) ->
  race_inv key val (set_pc s t pc lock).
Proof.
  intros (Hlock & Hnd & Hw & Hq & Hk & Hdone) Hl H1 P1 Hm ->. unfold race_inv, set_pc, queue_of in *. cbn.
  split; [|split; [done|split; [done|split; [|split; [done|]]]]].
  - intros u. case_bool_decide as Hb; destruct (decide (u = t)) as [->|Hne];
      rewrite ?lookup_insert_eq, ?lookup_insert_ne by done; [naive_solver| |naive_solver|]; rewrite <- Hlock;
      destruct Hl as [->| ->]; naive_solver.
  - intros u. destruct (decide (u = t)) as [->|Hne]; [|by rewrite lookup_insert_ne by done].
    rewrite lookup_insert_eq, Hq. naive_solver.
  - intros Hwoke u. destruct (decide (u = t)) as [->|Hne]; [|rewrite lookup_insert_ne by done; by apply Hdone].
    rewrite lookup_insert_eq. split; [congruence|]. intros [= ->]. apply Hk; [congruence|auto].
Qed.

Lemma inv_queue s t : race_inv key val s -> rc_pc s !! t = Some WMatched ->
  race_inv key val (mkRace (rc_word s) (fm_add_waiter (rc_fm s) key (mkWaiter t t FUTEX_BITSET_MATCH_ANY)) None
         (<[t := WAsleep]> (rc_pc s)) (rc_waker s)).
Proof.
  intros (Hlock & Hnd & Hw & Hq & Hk & Hdone) Hpc.
  assert (Hl : rc_lock s = Some t) by (apply Hlock; by right).
  assert (Hnk : rc_waker s <> KWoke) by (intros E; by apply (Hdone E t)).
  assert (Hnew : t ∉ (w_tid <$> queue_of s key)) by (rewrite Hq; congruence).
  unfold race_inv, queue_of in *. cbn. rewrite queue_add, fmap_app. cbn.
  split; [|split; [|split; [|split; [|split; [done|done]]]]].
  - intros u. destruct (decide (u = t)) as [->|Hne]; [rewrite lookup_insert_eq; naive_solver|].
    rewrite lookup_insert_ne by done. rewrite <- Hlock, Hl. naive_solver.
  - apply NoDup_app. split; [done|]. split; [|apply NoDup_singleton]. by intros u Hu ->%list_elem_of_singleton.
  - intros w [Hin| ->%list_elem_of_singleton]%elem_of_app; [by apply Hw|done].
  - intros u. rewrite elem_of_app, list_elem_of_singleton. destruct (decide (u = t)) as [->|Hne].
    + rewrite lookup_insert_eq. naive_solver.
    + rewrite lookup_insert_ne, Hq by done. naive_solver.
Qed.

Lemma remove_tid_ok t ws w ws' : NoDup (w_tid <$> ws) -> remove_tid t ws = Some (w, ws') ->
  NoDup (w_tid <$> ws') /\ (forall x, x ∈ ws' -> x ∈ ws) /\
  (forall u, u ∈ (w_tid <$> ws') <-> u ∈ (w_tid <$> ws) /\ u <> t).
Proof.
  intros Hnd E. assert (Ht : w_tid w = t).
  { clear Hnd. revert ws' E. induction ws as [|x ws IH]; intros ws' E; cbn in E; [done|].
    destruct (Z.eqb_spec (w_tid x) t); [by simplify_eq|].
    destruct (remove_tid t ws) as [[y l]|]; [|done]. simplify_eq. by apply (IH l). }
  apply remove_tid_perm in E. rewrite E in Hnd. cbn in Hnd. apply NoDup_cons in Hnd as (Hn & Hnd).
  split; [done|]. split; [intros x Hx; rewrite E; by right|].
  intros u. rewrite E. cbn. rewrite elem_of_cons. subst t. split; [|naive_solver].
  intros Hu. split; [by right|]. by intros ->.
Qed.

Lemma remove_tid_found t ws : t ∈ (w_tid <$> ws) -> is_Some (remove_tid t ws).
Proof.
  induction ws as [|x ws IH]; cbn; [by intros ?%elem_of_nil|]. intros Ht.
  destruct (Z.eqb_spec (w_tid x) t); [eauto|]. apply elem_of_cons in Ht as [->|Ht]; [done|].
  destruct (IH Ht) as ([y l] & ->). eauto.
Qed.

Lemma inv_signal s t : race_inv key val s -> rc_pc s !! t = Some WAsleep -> rc_lock s = None ->
  race_inv key val (mkRace (rc_word s) (fm_remove_waiter (rc_fm s) key t).2 None (<[t := WDone]> (rc_pc s)) (rc_waker s)).
Proof.
  intros (Hlock & Hnd & Hw & Hq & Hk & Hdone) Hpc Hl.
  pose proof (proj2 (Hq t) Hpc) as Hin. unfold race_inv, queue_of, fm_remove_waiter in *. cbn.
  destruct (rc_fm s !! key) as [ws|] eqn:E; cbn in *; [|by apply elem_of_nil in Hin].
  destruct (remove_tid_found t ws Hin) as ([w ws'] & Er). rewrite Er. cbn. rewrite lookup_insert_eq. cbn.
  destruct (remove_tid_ok t ws w ws' Hnd Er) as (Hnd' & Hsub & Hq').
  split; [|split; [done|split; [auto|split; [|split; [done|]]]]].
  - intros u. destruct (decide (u = t)) as [->|Hne]; [rewrite lookup_insert_eq; naive_solver|].
    rewrite lookup_insert_ne by done. rewrite <- Hlock, Hl. done.
  - intros u. rewrite Hq'. destruct (decide (u = t)) as [->|Hne]; [rewrite lookup_insert_eq; naive_solver|].
    rewrite lookup_insert_ne, Hq by done. naive_solver.
  - intros Hwoke u. exfalso. by destruct (Hdone Hwoke t).
Qed.

(** The queue is not longer than there are tasks. *)
Lemma queue_bound s : race_inv key val s -> (length (queue_of s key) <= size (rc_pc s))%nat.
Proof.
  intros (_ & Hnd & _ & Hq & _). rewrite <- (length_fmap w_tid), <- (size_list_to_set (C := gset Z)) by done.
  rewrite <- (size_dom (D := gset Z)). apply subseteq_size. intros t. rewrite elem_of_list_to_set, elem_of_dom, Hq. eauto.
Qed.

(** A wake of enough waiters empties the queue. *)
Lemma wake_empties fm : Z.of_nat (length (default [] (fm !! key))) <= n ->
  exists r fm', fm_wake fm key n = (r, default [] (fm !! key), fm') /\ default [] (fm' !! key) = [].
Proof.
  intros Hn. unfold fm_wake. destruct (fm !! key) as [ws|] eqn:E; cbn in *.
  - rewrite Z.min_r, Nat2Z.id by lia. eexists _, _. rewrite firstn_all, skipn_all.
    split; [done|]. by rewrite lookup_insert_eq.
  - eexists _, _. split; [done|]. by rewrite E.
Qed.

Lemma inv_wake s : race_inv key val s -> rc_waker s = KStored -> rc_lock s = None ->
  Z.of_nat (size (rc_pc s)) <= n ->
  race_inv key val (let '(_, ws, fm) := fm_wake (rc_fm s) key n in
       mkRace (rc_word s) fm None (wake_all ws (rc_pc s)) KWoke).
Proof.
  intros Hinv Hk0 Hl Hn. pose proof (queue_bound s Hinv) as Hb. destruct Hinv as (Hlock & Hnd & Hw & Hq & Hk & _).
  destruct (wake_empties (rc_fm s)) as (r & fm' & -> & Hq'); [unfold queue_of in Hb; lia|].
  fold (queue_of s key). set (s1 := mkRace _ _ _ _ _). assert (Hq1 : queue_of s1 key = []) by exact Hq'.
  unfold race_inv. rewrite Hq1. cbn.
  assert (Hpc : forall t, wake_all (queue_of s key) (rc_pc s) !! t =
    if bool_decide (rc_pc s !! t = Some WAsleep) then Some WDone else rc_pc s !! t).
  { intros t. rewrite wake_all_lookup. f_equal.
    assert (E : t ∈ (w_waker <$> queue_of s key) <-> rc_pc s !! t = Some WAsleep); [|by rewrite (bool_decide_ext _ _ E)].
    rewrite <- Hq, !list_elem_of_fmap.
    split; intros (w & -> & Hin); exists w; (split; [rewrite Hw by done; done|done]). }
  assert (Hno : forall t, rc_pc s !! t <> Some WLocked /\ rc_pc s !! t <> Some WMatched).
  { intros t. split; intros E; assert (rc_lock s = Some t) by (apply Hlock; auto); congruence. }
  split; [|split; [constructor|split; [by intros w ?%elem_of_nil|split; [|split]]]].
  - intros t. rewrite Hpc. destruct (Hno t). case_bool_decide; naive_solver.
  - intros t. rewrite Hpc. split; [by intros ?%elem_of_nil|]. case_bool_decide; congruence.
  - intros _. apply Hk. congruence.
  - intros _ t. rewrite Hpc. destruct (Hno t). case_bool_decide; naive_solver.
Qed.

Lemma race_step_inv s s' : race_inv key val s -> Z.of_nat (size (rc_pc s)) <= n ->
  race_step key val n s s' -> race_inv key val s'.
Proof.
  intros Hinv Hn Hstep. destruct Hstep as [s t Hpc|s t Hpc Hl|s t Hpc|s t Hpc|s t Hpc Hl|s v Hv|s v Hk Hv|s Hk Hl].
  - destruct (rc_word s =? val); apply inv_move; congruence.
  - apply inv_locked; try done; [by left|congruence].
  - assert (Hl : rc_lock s = Some t) by (apply Hinv; by left).
    destruct (Z.eqb_spec (rc_word s) val); apply inv_locked; try done; try (by right); congruence.
  - by apply inv_queue.
  - by apply inv_signal.
  - destruct Hinv as (Hlock & Hnd & Hw & Hq & Hk & Hdone). do 4 (split; [done|]). cbn. split; [|done].
    intros Hne. destruct Hv as [Hv|Hv]; [done|exact Hv].
  - destruct Hinv as (Hlock & Hnd & Hw & Hq & Hk' & Hdone). do 4 (split; [done|]). by cbn.
  - by apply inv_wake.
Qed.

(** No step adds or removes a task. *)
Lemma race_step_tasks s s' : race_inv key val s -> race_step key val n s s' ->
  dom (rc_pc s') = dom (rc_pc s).
Proof.
  intros Hinv Hstep.
  assert (Hins : forall t pc pc', rc_pc s !! t = Some pc -> dom (<[t := pc']> (rc_pc s)) = dom (rc_pc s)).
  { intros t pc pc' E. apply dom_insert_lookup_L. eauto. }
  destruct Hstep; cbn; try done; eauto.
  - case_match; cbn; eauto.
  - destruct (fm_wake _ _ _) as [[r ws] fm] eqn:E. cbn. apply set_eq. intros t. rewrite !elem_of_dom, wake_all_lookup.
    case_bool_decide as Hin; [|done]. split; [|eauto]. intros _. destruct Hinv as (_ & _ & Hw & Hq & _).
    apply list_elem_of_fmap in Hin as (w & -> & Hin).
    assert (Hinq : w ∈ queue_of s key).
    { unfold fm_wake in E. unfold queue_of. destruct (rc_fm s !! key); simplify_eq; [|by apply elem_of_nil in Hin].
      cbn. by apply elem_of_take in Hin as (i & Hi & _); apply list_elem_of_lookup_2 in Hi. }
    rewrite (Hw w Hinq). exists WAsleep. apply Hq, list_elem_of_fmap. eauto.
Qed.

Lemma race_inv_init s : race_init key s -> race_inv key val s.
Proof.
  intros (Hq & Hl & Hk & Hpc). unfold race_inv. rewrite Hq, Hl, Hk. cbn.
  assert (Hno : forall t pc, pc <> WStart -> rc_pc s !! t <> Some pc) by (intros t pc Hne E; by apply Hne, (Hpc t)).
  split; [intros t; split; [done|]; intros [E|E]; by apply Hno in E|].
  split; [constructor|]. split; [by intros w ?%elem_of_nil|]. split; [|done].
  intros t. split; [by intros ?%elem_of_nil|]. intros E. by apply Hno in E.
Qed.

End Race.

(** C27: A wait cannot miss a wake-up.  Any number of tasks wait on a futex for the
    value [val] while another task stores a different value and then wakes at least
    as many waiters as there are tasks; other tasks may store to the word too, but
    not [val] again after that store, and a signal may end a wait at any time.  In
    every interleaving of their loads, stores, lock acquisitions and queue
    operations, once the wake has happened no task sleeps on the futex, and none
    ever will: the second look at the word under the lock closes the window between
    the first look and the queue. *)
Theorem no_lost_wakeup key val n s s' (Hinit : race_init key s) (Hn : Z.of_nat (size (rc_pc s)) <= n)
    (Hrun : rtc (race_step key val n) s s') (Hwoke : rc_waker s' = KWoke) :
  queue_of s' key = [] /\ rc_word s' <> val /\ forall t, rc_pc s' !! t <> Some WAsleep.
Proof.
  assert (Hinv : race_inv key val s') .
  { pose proof (race_inv_init key val s Hinit) as Hi. clear Hinit Hwoke. induction Hrun as [s|s s1 s' Hstep _ IH]; [done|].
    apply IH; [|by eapply race_step_inv]. rewrite <- (size_dom (D := gset Z)), (race_step_tasks key val n s s1 Hi Hstep).
    by rewrite size_dom. }
  destruct Hinv as (_ & _ & _ & Hq & Hk & Hdone). split; [|split; [apply Hk; congruence|intros t; by apply Hdone]].
  destruct (queue_of s' key) as [|w q]; [done|]. exfalso. destruct (Hdone Hwoke (w_tid w)) as (Ha & _).
  apply Ha, Hq. left.
Qed.

(** The waiter looks, locks and looks again; the word changes; it queues and sleeps;
    the wake finds it. *)
Lemma no_lost_wakeup_witness : exists s',
  rtc (race_step (KeyShared 64) 5 1) (mkRace 5 ∅ None {[ 7 := WStart ]} KStart) s' /\
  rc_waker s' = KWoke /\ rc_pc s' !! 7 <> Some WAsleep.
Proof.
  assert (Hrun : exists s', rtc (race_step (KeyShared 64) 5 1) (mkRace 5 ∅ None {[ 7 := WStart ]} KStart) s' /\
    rc_waker s' = KWoke).
  { eexists. split.
    - eapply rtc_l; [apply (s_look _ _ _ _ 7); reflexivity|].
      eapply rtc_l; [apply (s_lock _ _ _ _ 7); reflexivity|].
      eapply rtc_l; [apply (s_look_again _ _ _ _ 7); reflexivity|].
      eapply rtc_l; [apply (s_store _ _ _ _ 6); [reflexivity|lia]|].
      eapply rtc_l; [apply (s_queue _ _ _ _ 7); reflexivity|].
      eapply rtc_l; [apply s_wake; reflexivity|]. apply rtc_refl.
    - reflexivity. }
  destruct Hrun as (s' & Hrun & Hk). exists s'. split; [exact Hrun|]. split; [exact Hk|].
  destruct (no_lost_wakeup (KeyShared 64) 5 1 (mkRace 5 ∅ None {[ 7 := WStart ]} KStart) s') as (_ & _ & Hno);
    [|vm_compute; congruence|exact Hrun|exact Hk|apply Hno].
  split; [reflexivity|]. split; [reflexivity|]. split; [reflexivity|].
  intros t pc E. cbn in E. apply lookup_singleton_Some in E as (_ & <-). reflexivity.
Defined.
