(* ===== verification/Task.v ===== *)
(** Tasks and processes (os/src/task and the process and signal calls of
    os/src/syscall).  A task control block is an object named by a number; it exists
    as long as something owns it: the task manager, a process's table of children,
    the future that runs it, or, for the first process, the kernel itself.  A weak
    reference is the number alone.  What the threads of a process share is one cell
    per process; the lock of its thread group is modelled, because some calls take
    it again while they hold it.  The loading of a program, the copy of an address
    space and the frame of a signal handler are parameters. *)

From S2P Require Import Prelude HalConst Errno Addr FdTable UserMem Signal Time Futex.

#[local] Open Scope Z_scope.

Definition INITPROC_PID : Z := 1.

(** ** Thread identifiers *)

Record TidAllocator := mkTids { tids_current : Z; tids_recycled : list Z }.

Definition tids_new : TidAllocator := mkTids INITPROC_PID [].

(** [recycled] is a stack, its top first. *)
Definition tids_alloc (a : TidAllocator) : Z * TidAllocator :=
  match tids_recycled a with
  | t :: r => (t, mkTids (tids_current a) r)
  | [] => (tids_current a, mkTids (tids_current a + 1) [])
  end.

Definition tids_dealloc (a : TidAllocator) (pid : Z) : outcome TidAllocator :=
  assert! pid <? tids_current a in
  assert! negb (bool_decide (pid ∈ tids_recycled a)) in
  Ret (mkTids (tids_current a) (pid :: tids_recycled a)).

(** ** Tasks *)

Inductive TaskStatus := Ready | Running | Zombie | Stopped | Interruptable | UnInterruptable.

#[export] Instance TaskStatus_eq_dec : EqDecision TaskStatus.
Proof. solve_decision. Defined.

(** [t_proc], [t_fd] and [t_vm] name shared cells; [t_future] says that a future runs
    the task, [t_waker] that it has set its waker. *)
Record Task := mkTask {
  t_tid : Z; t_leader : option Z; t_is_leader : bool; t_waker : bool;
  t_clear_child_tid : option Z; t_time : TimeRecorder; t_robust : Z; t_exit_code : Z;
  t_status : TaskStatus; t_vm : Z; t_fd : Z; t_proc : Z; t_sig : SigManager; t_future : bool;
}.

(** The thread group, the parent, the children and the process group of a process. *)
Record Proc := mkProc {
  p_members : gmap Z Z; p_alive : Z; p_group_exiting : bool; p_group_exit_code : Z; p_tg_locked : bool;
  p_parent : option Z; p_children : gmap Z Z; p_pgid : Z;
}.

Definition proc_new (parent : option Z) (pgid : Z) : Proc := mkProc ∅ 0 false 0 false parent ∅ pgid.

Definition set_status (t : Task) (s : TaskStatus) : Task :=
  mkTask (t_tid t) (t_leader t) (t_is_leader t) (t_waker t) (t_clear_child_tid t) (t_time t) (t_robust t)
    (t_exit_code t) s (t_vm t) (t_fd t) (t_proc t) (t_sig t) (t_future t).
Definition set_exit_code (t : Task) (c : Z) : Task :=
  mkTask (t_tid t) (t_leader t) (t_is_leader t) (t_waker t) (t_clear_child_tid t) (t_time t) (t_robust t)
    c (t_status t) (t_vm t) (t_fd t) (t_proc t) (t_sig t) (t_future t).
Definition set_sig (t : Task) (m : SigManager) : Task :=
  mkTask (t_tid t) (t_leader t) (t_is_leader t) (t_waker t) (t_clear_child_tid t) (t_time t) (t_robust t)
    (t_exit_code t) (t_status t) (t_vm t) (t_fd t) (t_proc t) m (t_future t).
Definition set_release (t : Task) (cct : option Z) (robust : Z) : Task :=
  mkTask (t_tid t) (t_leader t) (t_is_leader t) (t_waker t) cct (t_time t) robust
    (t_exit_code t) (t_status t) (t_vm t) (t_fd t) (t_proc t) (t_sig t) (t_future t).
Definition set_future (t : Task) (waker future : bool) : Task :=
  mkTask (t_tid t) (t_leader t) (t_is_leader t) waker (t_clear_child_tid t) (t_time t) (t_robust t)
    (t_exit_code t) (t_status t) (t_vm t) (t_fd t) (t_proc t) (t_sig t) future.
Definition set_time (t : Task) (r : TimeRecorder) : Task :=
  mkTask (t_tid t) (t_leader t) (t_is_leader t) (t_waker t) (t_clear_child_tid t) r (t_robust t)
    (t_exit_code t) (t_status t) (t_vm t) (t_fd t) (t_proc t) (t_sig t) (t_future t).
Definition set_vm (t : Task) (vm : Z) : Task :=
  mkTask (t_tid t) (t_leader t) (t_is_leader t) (t_waker t) (t_clear_child_tid t) (t_time t) (t_robust t)
    (t_exit_code t) (t_status t) vm (t_fd t) (t_proc t) (t_sig t) (t_future t).

Definition set_tg (p : Proc) (members : gmap Z Z) (alive : Z) (exiting : bool) (code : Z) : Proc :=
  mkProc members alive exiting code (p_tg_locked p) (p_parent p) (p_children p) (p_pgid p).
Definition set_locked (p : Proc) (b : bool) : Proc :=
  mkProc (p_members p) (p_alive p) (p_group_exiting p) (p_group_exit_code p) b (p_parent p) (p_children p) (p_pgid p).
Definition set_parent (p : Proc) (o : option Z) : Proc :=
  mkProc (p_members p) (p_alive p) (p_group_exiting p) (p_group_exit_code p) (p_tg_locked p) o (p_children p) (p_pgid p).
Definition set_children (p : Proc) (c : gmap Z Z) : Proc :=
  mkProc (p_members p) (p_alive p) (p_group_exiting p) (p_group_exit_code p) (p_tg_locked p) (p_parent p) c (p_pgid p).
Definition set_pgid (p : Proc) (g : Z) : Proc :=
  mkProc (p_members p) (p_alive p) (p_group_exiting p) (p_group_exit_code p) (p_tg_locked p) (p_parent p) (p_children p) g.

(** ** The kernel *)

Section Kernel.
Context {M : Type}.

(** The objects, the shared cells, the task and process-group managers, the tid
    allocator, the next unused name, the first process, and the tasks whose wakers
    were invoked; then memory and the futexes. *)
Record Kernel := mkKernel {
  k_tasks : gmap Z Task; k_procs : gmap Z Proc; k_fds : gmap Z (FdTable Z);
  k_tm : gmap Z Z; k_groups : gmap Z (list Z); k_tids : TidAllocator;
  k_next : Z; k_init : Z; k_woken : list Z; k_mem : M; k_fm : FutexManager;
}.

Definition upd_tasks (k : Kernel) (m : gmap Z Task) : Kernel :=
  mkKernel m (k_procs k) (k_fds k) (k_tm k) (k_groups k) (k_tids k) (k_next k) (k_init k) (k_woken k) (k_mem k) (k_fm k).
Definition upd_procs (k : Kernel) (m : gmap Z Proc) : Kernel :=
  mkKernel (k_tasks k) m (k_fds k) (k_tm k) (k_groups k) (k_tids k) (k_next k) (k_init k) (k_woken k) (k_mem k) (k_fm k).
Definition upd_fds (k : Kernel) (m : gmap Z (FdTable Z)) : Kernel :=
  mkKernel (k_tasks k) (k_procs k) m (k_tm k) (k_groups k) (k_tids k) (k_next k) (k_init k) (k_woken k) (k_mem k) (k_fm k).
Definition upd_tm (k : Kernel) (m : gmap Z Z) : Kernel :=
  mkKernel (k_tasks k) (k_procs k) (k_fds k) m (k_groups k) (k_tids k) (k_next k) (k_init k) (k_woken k) (k_mem k) (k_fm k).
Definition upd_groups (k : Kernel) (m : gmap Z (list Z)) : Kernel :=
  mkKernel (k_tasks k) (k_procs k) (k_fds k) (k_tm k) m (k_tids k) (k_next k) (k_init k) (k_woken k) (k_mem k) (k_fm k).
Definition upd_tids (k : Kernel) (a : TidAllocator) : Kernel :=
  mkKernel (k_tasks k) (k_procs k) (k_fds k) (k_tm k) (k_groups k) a (k_next k) (k_init k) (k_woken k) (k_mem k) (k_fm k).
Definition upd_next (k : Kernel) : Kernel :=
  mkKernel (k_tasks k) (k_procs k) (k_fds k) (k_tm k) (k_groups k) (k_tids k) (k_next k + 1) (k_init k) (k_woken k) (k_mem k) (k_fm k).
Definition upd_woken (k : Kernel) (l : list Z) : Kernel :=
  mkKernel (k_tasks k) (k_procs k) (k_fds k) (k_tm k) (k_groups k) (k_tids k) (k_next k) (k_init k) l (k_mem k) (k_fm k).
Definition upd_mem (k : Kernel) (m : M) (fm : FutexManager) : Kernel :=
  mkKernel (k_tasks k) (k_procs k) (k_fds k) (k_tm k) (k_groups k) (k_tids k) (k_next k) (k_init k) (k_woken k) m fm.

(** The state monad over it. *)
Definition kern (A : Type) : Type := Kernel -> outcome (A * Kernel).

#[export] Instance kern_ret : MRet kern := fun _ x k => Ret (x, k).
#[export] Instance kern_bind : MBind kern := fun _ _ f m k => let! r := m k in f r.1 r.2.

Definition kget : kern Kernel := fun k => Ret (k, k).
Definition kput (f : Kernel -> Kernel) : kern unit := fun k => Ret (tt, f k).
Definition klift {A} (o : outcome A) : kern A := fun k => let! x := o in Ret (x, k).

Definition fresh : kern Z := fun k => Ret (k_next k, upd_next k).

Fixpoint kiter {A} (f : A -> kern unit) (l : list A) : kern unit :=
  match l with
  | [] => mret tt
  | x :: l => _ ← f x; kiter f l
  end.

(** An owned object, a cell. *)
Definition get_task (o : Z) : kern Task := fun k => let! t := unwrap (k_tasks k !! o) in Ret (t, k).
Definition mod_task (o : Z) (f : Task -> Task) : kern unit := kput (fun k => upd_tasks k (alter f o (k_tasks k))).
Definition get_proc (p : Z) : kern Proc := fun k => let! x := unwrap (k_procs k !! p) in Ret (x, k).
Definition mod_proc (p : Z) (f : Proc -> Proc) : kern unit := kput (fun k => upd_procs k (alter f p (k_procs k))).

(** [Weak::upgrade] *)
Definition upgrade (o : Z) (k : Kernel) : bool := bool_decide (is_Some (k_tasks k !! o)).

(** Whether something still owns the object. *)
Definition owned (k : Kernel) (o : Z) : bool :=
  (o =? k_init k)
  || existsb (fun e => snd e =? o) (map_to_list (k_tm k))
  || existsb (fun e => existsb (fun c => snd c =? o) (map_to_list (p_children (snd e)))) (map_to_list (k_procs k))
  || match k_tasks k !! o with Some t => t_future t | None => false end.

(** A reference to the object goes away: the last one drops it and its tid. *)
Definition release (o : Z) : kern unit := fun k =>
  match k_tasks k !! o with
  | Some t =>
      if owned k o then Ret (tt, k)
      else let! a := tids_dealloc (k_tids k) (t_tid t) in Ret (tt, upd_tids (upd_tasks k (delete o (k_tasks k))) a)
  | None => Ret (tt, k)
  end.

(** ** The managers *)

Definition tm_add_task (o : Z) : kern unit :=
  t ← get_task o; kput (fun k => upd_tm k (<[t_tid t := o]> (k_tm k))).

Definition tm_remove_task (tid : Z) : kern unit :=
  if tid =? INITPROC_PID then klift Panic else kput (fun k => upd_tm k (delete tid (k_tm k))).

Definition tm_get_task (tid : Z) : kern (option Z) := k ← kget; mret (k_tm k !! tid).

Definition pg_add_group (leader : Z) : kern unit :=
  t ← get_task leader;
  _ ← mod_proc (t_proc t) (fun p => set_pgid p (t_tid t));
  kput (fun k => upd_groups k (<[t_tid t := [leader]]> (k_groups k))).

Definition pg_add_task_to_group (pgid task : Z) : kern unit :=
  t ← get_task task;
  _ ← mod_proc (t_proc t) (fun p => set_pgid p pgid);
  k ← kget;
  g ← klift (unwrap (k_groups k !! pgid));
  kput (fun k => upd_groups k (<[pgid := g ++ [task]]> (k_groups k))).

Definition pg_get_group (pgid : Z) : kern (option (list Z)) := k ← kget; mret (k_groups k !! pgid).

(** [retain] keeps the members that are the task. *)
Definition pg_remove (task : Z) : kern unit :=
  t ← get_task task;
  p ← get_proc (t_proc t);
  k ← kget;
  g ← klift (unwrap (k_groups k !! p_pgid p));
  kput (fun k => upd_groups k (<[p_pgid p := filter (fun o => upgrade o k = true /\ o = task) g]> (k_groups k))).

(** ** Thread groups *)

(** [with_thread_group]: the lock is held for the whole of [m]; taking it again
    panics. *)
Definition with_tg {A} (p : Z) (m : kern A) : kern A :=
  x ← get_proc p;
  if p_tg_locked x then klift Panic
  else
    _ ← mod_proc p (fun x => set_locked x true);
    r ← m;
    _ ← mod_proc p (fun x => set_locked x false);
    mret r.

(** [iter]: the members that still exist, in the order of their tids. *)
Definition tg_iter (p : Z) : kern (list Z) :=
  x ← get_proc p; k ← kget;
  mret (filter (fun o => upgrade o k = true) (bt_iter (p_members x)).*2).

Definition tg_push (p task : Z) : kern unit :=
  t ← get_task task;
  mod_proc p (fun x => set_tg x (<[t_tid t := task]> (p_members x))
    (if bool_decide (t_status t = Zombie) then p_alive x else p_alive x + 1) (p_group_exiting x) (p_group_exit_code x)).

Definition tg_sub_alive (p val : Z) : kern unit :=
  x ← get_proc p;
  if p_alive x <? val then klift Panic
  else mod_proc p (fun x => set_tg x (p_members x) (p_alive x - val) (p_group_exiting x) (p_group_exit_code x)).

Definition tg_clear (p : Z) : kern unit :=
  mod_proc p (fun x => set_tg x ∅ 0 (p_group_exiting x) (p_group_exit_code x)).

(** ** Identity *)

Definition get_leader (o : Z) : kern Z :=
  t ← get_task o;
  if t_is_leader t then mret o
  else l ← klift (unwrap (t_leader t)); k ← kget; if upgrade l k then mret l else klift Panic.

Definition task_pid (o : Z) : kern Z :=
  t ← get_task o;
  if t_is_leader t then mret (t_tid t) else l ← get_leader o; lt ← get_task l; mret (t_tid lt).

Definition task_pgid (o : Z) : kern Z := t ← get_task o; p ← get_proc (t_proc t); mret (p_pgid p).

(** ** Signals between tasks *)

Definition wake (o : Z) : kern unit :=
  t ← get_task o;
  if t_waker t then kput (fun k => upd_woken k (k_woken k ++ [o])) else klift Panic.

Definition recv_sigs (o : Z) (sig : SigInfo) : kern unit :=
  t ← get_task o;
  m ← klift (sig_receive (t_sig t) sig);
  _ ← mod_task o (fun t => set_sig t m);
  if contain_sig (wake_sigs m) (si_signo sig) && bool_decide (t_status t = Interruptable) then wake o else mret tt.

(** The first thread that does not block the signal. *)
Fixpoint first_unblocked (l : list Z) (signo : Z) : kern (option Z) :=
  match l with
  | [] => mret None
  | o :: l =>
      t ← get_task o;
      if contain_sig (blocked_sigs (t_sig t)) signo then first_unblocked l signo else mret (Some o)
  end.

Definition recv_sigs_process_level (o : Z) (sig : SigInfo) : kern unit :=
  t ← get_task o;
  with_tg (t_proc t)
    (l ← tg_iter (t_proc t);
     r ← first_unblocked l (si_signo sig);
     match r with
     | Some thread => recv_sigs thread sig
     | None => thread ← klift (unwrap (head l)); recv_sigs thread sig
     end).

Definition notify_parent (o : Z) : kern unit :=
  t ← get_task o;
  p ← get_proc (t_proc t);
  match p_parent p with
  | Some parent =>
      k ← kget;
      if upgrade parent k then
        pid ← task_pid o; recv_sigs_process_level parent (mkInfo SIGCHLD CLD_EXITED (Some pid))
      else mret tt
  | None => mret tt
  end.

Definition task_set_sigaction (o signo : Z) (a : KSigAction) : kern unit :=
  t ← get_task o;
  with_tg (t_proc t)
    (l ← tg_iter (t_proc t);
     kiter (fun thread => mod_task thread (fun t => set_sig t (sig_set_sigaction (t_sig t) signo a))) l).

(** ** Exit *)

Context {C : ConstantsHal} {UM : UserMemory M}.

(** [mm_release] of the futexes; the wakers it invokes are those of the waiters. *)
Definition task_mm_release (o : Z) : kern unit :=
  t ← get_task o;
  k ← kget;
  r ← klift (mm_release (t_tid t) (t_vm t) (t_clear_child_tid t) (t_robust t)
    (mkFs (k_mem k) (k_fm k) [] (t_sig t) (bool_decide (t_status t = Interruptable))));
  let '(cct, robust, s) := r in
  _ ← mod_task o (fun t => set_release t cct robust);
  kput (fun k => upd_woken (upd_mem k (fs_mem s) (fs_fm s)) (k_woken k ++ map w_waker (fs_woken s))).

(** The children of a process that dies go to the first process. *)
Definition reparent (p : Z) : kern unit :=
  x ← get_proc p;
  if bool_decide (p_children x = ∅) then mret tt
  else
    k ← kget;
    it ← get_task (k_init k);
    _ ← kiter (fun child =>
          t ← get_task child;
          _ ← (if bool_decide (t_status t = Zombie)
               then recv_sigs_process_level (k_init k) (mkInfo SIGCHLD CLD_EXITED None) else mret tt);
          mod_proc (t_proc t) (fun x => set_parent x (Some (k_init k))))
        (bt_iter (p_children x)).*2;
    if t_proc it =? p then klift Panic
    else
      _ ← mod_proc (t_proc it) (fun ix => set_children ix (p_children x ∪ p_children ix));
      mod_proc p (fun x => set_children x ∅).

Definition do_exit (o code : Z) : kern unit :=
  t ← get_task o;
  if bool_decide (t_status t = Zombie) then mret tt
  else if t_tid t =? INITPROC_PID then klift Panic
  else
    _ ← mod_task o (fun t => set_exit_code t code);
    is_last ← with_tg (t_proc t)
      (_ ← tg_sub_alive (t_proc t) 1;
       x ← get_proc (t_proc t);
       _ ← (if (p_alive x =? 0) && negb (p_group_exiting x)
            then mod_proc (t_proc t) (fun x => set_tg x (p_members x) (p_alive x) true code) else mret tt);
       mret (p_alive x =? 0));
    _ ← task_mm_release o;
    _ ← mod_task o (fun t => set_status t Zombie);
    if is_last : bool then
      _ ← reparent (t_proc t);
      _ ← kput (fun k => upd_fds k (alter (fun f => mkFT [] (ft_rlimit f)) (t_fd t) (k_fds k)));
      notify_parent o
    else mret tt.

Definition do_group_exit (o code : Z) : kern unit :=
  t ← get_task o;
  code ← with_tg (t_proc t)
    (x ← get_proc (t_proc t);
     if p_group_exiting x then mret (p_group_exit_code x)
     else
       _ ← mod_proc (t_proc t) (fun x => set_tg x (p_members x) (p_alive x) true code);
       l ← tg_iter (t_proc t);
       _ ← kiter (fun thread =>
             u ← get_task thread;
             if (t_tid u =? t_tid t) || bool_decide (t_status u = Zombie) then mret tt
             else pid ← task_pid o; recv_sigs thread (mkInfo SIGKILL SI_KERNEL (Some pid))) l;
       mret code);
  do_exit o code.

(** The end of the future that ran a dead task. *)
Definition future_done (o : Z) : kern unit :=
  _ ← mod_task o (fun t => set_future t (t_waker t) false); release o.

(** ** Creation *)

Definition CLONE_VM : Z := 0x100.
Definition CLONE_FILES : Z := 0x400.
Definition CLONE_SIGHAND : Z := 0x800.
Definition CLONE_THREAD : Z := 0x10000.

(** [UserVmSpace::from_existed], into a space of the given name. *)
Context {H : SigHandlers} (vm_fork : M -> Z -> Z -> outcome M).

Definition fork_vm (vm : Z) (flag : Z) : kern Z :=
  if contains flag CLONE_VM then mret vm
  else
    n ← fresh; k ← kget;
    m ← klift (vm_fork (k_mem k) vm n);
    _ ← kput (fun k => upd_mem k m (k_fm k));
    mret n.

Definition fork_fds (fd : Z) (flag : Z) : kern Z :=
  if contains flag CLONE_FILES then mret fd
  else
    k ← kget;
    f ← klift (unwrap (k_fds k !! fd));
    n ← fresh;
    _ ← kput (fun k => upd_fds k (<[n := f]> (k_fds k)));
    mret n.

(** The process of the new task: the creator's for a thread, a new one otherwise. *)
Definition fork_proc (o : Z) (flag : Z) : kern (option Z * Z) :=
  t ← get_task o;
  if contains flag CLONE_THREAD then l ← get_leader o; mret (Some l, t_proc t)
  else
    p ← get_proc (t_proc t);
    n ← fresh;
    _ ← kput (fun k => upd_procs k (<[n := proc_new (Some o) (p_pgid p)]> (k_procs k)));
    mret (None, n).

Definition fork (o flag : Z) (now : Duration) : kern Z :=
  k ← kget;
  let '(tid, a) := tids_alloc (k_tids k) in
  _ ← kput (fun k => upd_tids k a);
  t ← get_task o;
  let thread := contains flag CLONE_THREAD in
  let sig := if contains flag CLONE_SIGHAND then sig_from_another (t_sig t) else sig_new in
  r ← fork_proc o flag;
  let '(leader, proc) := r in
  vm ← fork_vm (t_vm t) flag;
  fd ← fork_fds (t_fd t) flag;
  n ← fresh;
  let new := mkTask tid leader (negb thread) false None (update_user_start recorder_new now) 0 0
               (t_status t) vm fd proc sig false in
  _ ← kput (fun k => upd_tasks k (<[n := new]> (k_tasks k)));
  _ ← (if thread then mret tt
       else mod_proc (t_proc t) (fun p => set_children p (<[tid := n]> (p_children p))));
  _ ← with_tg proc (tg_push proc n);
  _ ← (if thread then mret tt else g ← task_pgid n; pg_add_task_to_group g n);
  _ ← tm_add_task n;
  mret n.

(** The kernel with its first process: [TaskControlBlock::new] on its program, whose
    address space is named [vm], and [add_initproc]. *)
Definition boot (vm : Z) (mem : M) (tty : Z) : Kernel :=
  let '(tid, a) := tids_alloc tids_new in
  let t := mkTask tid None true false None recorder_new 0 0 Ready vm 3 2 sig_new true in
  let p := mkProc {[ tid := 1 ]} 1 false 0 false None ∅ tid in
  mkKernel {[ 1 := t ]} {[ 2 := p ]} {[ 3 := ft_new tty ]} {[ tid := 1 ]} {[ tid := [1] ]} a (Z.max 4 (vm + 1)) 1 [] mem ∅.

(** [spawn_user_task], and the first poll of the future, which sets the waker. *)
Definition spawn (o : Z) : kern unit := mod_task o (fun t => set_future t (t_waker t) true).
Definition task_start (o : Z) : kern unit := mod_task o (fun t => set_future t true (t_future t)).

(** A 32-bit value written through a user pointer; false when it cannot be. *)
Definition put_u32 (vm ptr v : Z) : kern bool :=
  k ← kget;
  r ← klift (ensure_write (k_mem k) vm ptr 4);
  _ ← kput (fun k => upd_mem k r.2 (k_fm k));
  if negb r.1 then mret false
  else
    k ← kget;
    m ← klift (um_store (k_mem k) vm ptr 4 (v mod 2 ^ 32));
    _ ← kput (fun k => upd_mem k m (k_fm k));
    mret true.

Definition CLONE_PARENT_SETTID : Z := 0x00100000.
Definition CLONE_CHILD_CLEARTID : Z := 0x00200000.
Definition CLONE_CHILD_SETTID : Z := 0x01000000.

(** [sys_clone] but for the registers of the new task: [from_bits] accepts what fits in
    32 bits, and a failed write leaves before the task is spawned. *)
Definition sys_clone (o flags parent_tid child_tid : Z) (now : Duration) : kern (result Z SysError) :=
  let flags := Z.land flags (wnot 0xff) in
  if 2 ^ 32 <=? flags then klift Panic
  else
    n ← fork o flags now;
    new ← get_task n;
    t ← get_task o;
    ok ← (if contains flags CLONE_PARENT_SETTID then put_u32 (t_vm t) parent_tid (t_tid new) else mret true);
    if negb ok then mret (Err EINVAL)
    else
      ok ← (if contains flags CLONE_CHILD_SETTID then put_u32 (t_vm t) child_tid (t_tid new) else mret true);
      if negb ok then mret (Err EINVAL)
      else
        _ ← (if contains flags CLONE_CHILD_CLEARTID
             then mod_task n (fun t => set_release t (Some child_tid) (t_robust t)) else mret tt);
        _ ← spawn n;
        mret (Ok (t_tid new)).

Definition sys_set_tid_address (o tid_ptr : Z) : kern (result Z SysError) :=
  t ← get_task o; _ ← mod_task o (fun t => set_release t (Some tid_ptr) (t_robust t)); mret (Ok (t_tid t)).

(** ** Replacement of the program *)

(** [exec]; [from_elf] is the new address space, or the error of the loader. *)
Definition exec (o : Z) (from_elf : result Z SysError) : kern (result unit SysError) :=
  _ ← task_mm_release o;
  match from_elf with
  | Err e => mret (Err e)
  | Ok vm =>
      t ← get_task o;
      _ ← with_tg (t_proc t)
        (l ← tg_iter (t_proc t);
         kiter (fun thread =>
           u ← get_task thread; if negb (t_tid u =? t_tid t) then do_exit thread 0 else mret tt) l);
      _ ← mod_task o (fun t => set_vm t vm);
      _ ← kput (fun k => upd_fds k (alter do_close_on_exec (t_fd t) (k_fds k)));
      t ← get_task o;
      m ← klift (reset_on_exec (t_sig t));
      _ ← mod_task o (fun t => set_sig t m);
      mret (Ok tt)
  end.

(** ** Waiting for children *)

Definition WNOHANG : Z := 1.

Inductive wait_call := WaitDone (r : result Z SysError) | WaitSleep.

(** A child that can be reaped. *)
Definition reapable (o : Z) : kern bool :=
  t ← get_task o; p ← get_proc (t_proc t);
  mret (bool_decide (t_status t = Zombie) && (p_alive p =? 0)).

Fixpoint find_reapable (l : list Z) : kern (option Z) :=
  match l with
  | [] => mret None
  | c :: l => b ← reapable c; if b : bool then mret (Some c) else find_reapable l
  end.

(** The children asked for: an error, or one that can be reaped. *)
Definition wait_select (o pid : Z) : kern (result (option Z) SysError) :=
  t ← get_task o; p ← get_proc (t_proc t);
  if pid =? -1 then r ← find_reapable (bt_iter (p_children p)).*2; mret (Ok r)
  else if 0 <? pid then
    match p_children p !! pid with
    | Some c => b ← reapable c; mret (Ok (if b : bool then Some c else None))
    | None => mret (Err ECHILD)
    end
  else mret (Err EINVAL).

(** The exit code, if a place for it was given; false when it cannot be written. *)
Definition store_exit_code (vm ptr code : Z) : kern bool :=
  if ptr =? 0 then mret true else put_u32 vm ptr code.

(** The child goes: its threads leave the task manager and its group is emptied. *)
Definition reap (o c exit_code_ptr : Z) : kern (result Z SysError) :=
  ct ← get_task c;
  rec ← klift (update_child_time (t_time ct) (time_pair (t_time ct)));
  _ ← mod_task c (fun t => set_time t rec);
  t ← get_task o;
  ok ← store_exit_code (t_vm t) exit_code_ptr (t_exit_code ct);
  if negb ok then mret (Err EINVAL)
  else
    _ ← with_tg (t_proc ct)
      (l ← tg_iter (t_proc ct);
       _ ← kiter (fun thread =>
             u ← get_task thread; _ ← tm_remove_task (t_tid u);
             if thread =? c then mret tt else release thread) l;
       tg_clear (t_proc ct));
    _ ← mod_proc (t_proc t) (fun p => set_children p (delete (t_tid ct) (p_children p)));
    _ ← pg_remove o;
    _ ← release c;
    mret (Ok (t_tid ct)).

(** [sys_waitpid] up to the place where it would sleep. *)
Definition waitpid_begin (o pid exit_code_ptr option_ : Z) : kern wait_call :=
  t ← get_task o; p ← get_proc (t_proc t);
  if bool_decide (p_children p = ∅) then mret (WaitDone (Err ECHILD))
  else
    r ← wait_select o pid;
    match r with
    | Err e => mret (WaitDone (Err e))
    | Ok (Some c) => x ← reap o c exit_code_ptr; mret (WaitDone x)
    | Ok None => if contains option_ WNOHANG then mret (WaitDone (Ok 0)) else mret WaitSleep
    end.

(** Going to sleep, a separate step: the caller becomes interruptable. *)
Definition waitpid_sleep (o : Z) : kern unit :=
  _ ← mod_task o (fun t => set_status t Interruptable);
  mod_task o (fun t => set_sig t (set_wake_up_sigs (t_sig t) (Z.lor (wnot (blocked_sigs (t_sig t))) (sig_bit SIGCHLD)))).

Definition waitpid_resume (o pid exit_code_ptr : Z) : kern wait_call :=
  _ ← mod_task o (fun t => set_status t Running);
  t ← get_task o;
  let '(si, m) := dequeue_expected_one (t_sig t) (sig_bit SIGCHLD) in
  _ ← mod_task o (fun t => set_sig t m);
  match si with
  | None => mret (WaitDone (Err EINTR))
  | Some _ =>
      r ← wait_select o pid;
      match r with
      | Err e => mret (WaitDone (Err e))
      | Ok (Some c) => x ← reap o c exit_code_ptr; mret (WaitDone x)
      | Ok None => mret WaitSleep
      end
  end.

(** ** Process identifiers and groups *)

Definition sys_getpid (o : Z) : kern (result Z SysError) := p ← task_pid o; mret (Ok p).

Definition sys_getppid (o : Z) : kern (result Z SysError) :=
  t ← get_task o; p ← get_proc (t_proc t); k ← kget;
  match p_parent p with
  | Some parent => if upgrade parent k then x ← task_pid parent; mret (Ok x) else klift Panic
  | None => x ← task_pid (k_init k); mret (Ok x)
  end.

Definition sys_getpgid (o pid : Z) : kern (result Z SysError) :=
  if pid =? 0 then g ← task_pgid o; mret (Ok g)
  else
    r ← tm_get_task pid;
    match r with
    | Some u => g ← task_pgid u; mret (Ok g)
    | None => mret (Err ESRCH)
    end.

Definition sys_setpgid (o pid pgid : Z) : kern (result Z SysError) :=
  task ← (if pid =? 0 then mret o else r ← tm_get_task pid; klift (unwrap r));
  _ ← (if pgid =? 0 then pg_add_group task
       else
         g ← pg_get_group pgid;
         match g with
         | Some _ => pg_add_task_to_group pgid task
         | None => pg_add_group task
         end);
  mret (Ok 0).

Definition sys_exit (o exit_code : Z) : kern (result Z SysError) :=
  _ ← do_exit o (Z.shiftl (Z.land exit_code 0xFF) 8); mret (Ok 0).
Definition sys_exit_group (o exit_code : Z) : kern (result Z SysError) :=
  _ ← do_group_exit o (Z.shiftl (Z.land exit_code 0xFF) 8); mret (Ok 0).

(** ** Sending signals *)

(** Every element must still exist; the members are signalled in order. *)
Definition signal_group (o : Z) (g : list Z) (signo : Z) (pid : kern Z) (wanted : Task -> bool) : kern unit :=
  kiter (fun u =>
    k ← kget;
    if upgrade u k then
      t ← get_task u;
      if wanted t then p ← pid; recv_sigs_process_level u (mkInfo signo SI_USER (Some p)) else mret tt
    else klift Panic) g.

Definition sys_kill (o pid signo : Z) : kern (result Z SysError) :=
  if signo =? 0 then mret (Ok 0)
  else if (signo <? 0) || (SIGRTMAX <=? signo) then mret (Err EINVAL)
  else
    pgid ← task_pgid o;
    if pid =? 0 then
      r ← pg_get_group pgid; g ← klift (unwrap r);
      _ ← signal_group o g signo (task_pid o) t_is_leader; mret (Ok 0)
    else if pid =? -1 then
      k ← kget;
      _ ← kiter (fun u =>
            t ← get_task u;
            if t_tid t =? INITPROC_PID then mret tt
            else if t_is_leader t
            then p ← task_pid o; recv_sigs_process_level u (mkInfo signo SI_USER (Some p)) else mret tt)
          (bt_iter (k_tm k)).*2;
      mret (Ok 0)
    else if pid <? -1 then
      r ← pg_get_group pgid; g ← klift (unwrap r);
      _ ← signal_group o g signo (task_pgid o) (fun t => t_tid t =? - pid); mret (Ok 0)
    else
      r ← tm_get_task pid;
      match r with
      | Some u =>
          t ← get_task u;
          if t_is_leader t
          then p ← task_pid o; _ ← recv_sigs_process_level u (mkInfo signo SI_USER (Some p)); mret (Ok 0)
          else mret (Err ESRCH)
      | None => mret (Err ESRCH)
      end.

Definition sys_tkill (o tid sig : Z) : kern (result Z SysError) :=
  if (sig <? 0) || (SIGRTMAX <=? sig) || (tid <? 0) then mret (Err EINVAL)
  else
    r ← tm_get_task tid;
    match r with
    | Some u => p ← task_pid o; _ ← recv_sigs u (mkInfo sig SI_TKILL (Some p)); mret (Ok 0)
    | None => mret (Err ESRCH)
    end.

(** The thread of a group with the given tid. *)
Fixpoint find_tid (l : list Z) (tid : Z) : kern (option Z) :=
  match l with
  | [] => mret None
  | u :: l => t ← get_task u; if t_tid t =? tid then mret (Some u) else find_tid l tid
  end.

Definition sys_tgkill (o tgid tid signo : Z) : kern (result Z SysError) :=
  if (signo <? 0) || (SIGRTMAX <=? signo) || (tid <? 0) then mret (Err EINVAL)
  else if (tgid <? 0) || (tid <? 0) then mret (Err EINVAL)
  else
    r ← tm_get_task tgid;
    match r with
    | None => mret (Err ESRCH)
    | Some u =>
        t ← get_task u;
        if t_is_leader t then
          with_tg (t_proc t)
            (l ← tg_iter (t_proc t);
             v ← find_tid l tid;
             match v with
             | Some v => p ← task_pid o; _ ← recv_sigs v (mkInfo signo SI_TKILL (Some p)); mret (Ok 0)
             | None => mret (Err ESRCH)
             end)
        else mret (Err ESRCH)
    end.

(** ** The calls on one task's signals *)

Definition kload (vm addr size : Z) : kern Z :=
  k ← kget; r ← klift (um_load (k_mem k) vm addr size); _ ← kput (fun k => upd_mem k r.2 (k_fm k)); mret r.1.
Definition kstore (vm addr size v : Z) : kern unit :=
  k ← kget; m ← klift (um_store (k_mem k) vm addr size v); kput (fun k => upd_mem k m (k_fm k)).
Definition kensure (vm addr size access : Z) : kern bool :=
  k ← kget; r ← klift (um_ensure (k_mem k) vm addr size access); _ ← kput (fun k => upd_mem k r.2 (k_fm k)); mret r.1.

Definition load_sigaction (vm ptr : Z) : kern SigAction :=
  h ← kload vm ptr 8; f ← kload vm (wadd ptr 8) 4; r ← kload vm (wadd ptr 16) 8; m ← kload vm (wadd ptr 24) 8;
  mret (mkSa h f r m).
Definition store_sigaction (vm ptr : Z) (a : SigAction) : kern unit :=
  _ ← kstore vm ptr 8 (sa_handler a); _ ← kstore vm (wadd ptr 8) 4 (sa_flags a);
  _ ← kstore vm (wadd ptr 16) 8 (sa_restorer a); kstore vm (wadd ptr 24) 8 (sa_mask a).

Definition sys_rt_sigaction (o signo action old_action : Z) : kern (result Z SysError) :=
  if (signo <? 0) || (SIGRTMAX <? signo) then mret (Err EINVAL)
  else
    t ← get_task o;
    _ ← (if old_action =? 0 then mret tt
         else
           a ← klift (unwrap (sig_handler (t_sig t) !! Z.to_nat signo));
           store_sigaction (t_vm t) old_action
             (if is_user a then k_sa a
              else mkSa SIG_DFL (sa_flags (k_sa a)) (sa_restorer (k_sa a)) (sa_mask (k_sa a))));
    _ ← (if action =? 0 then mret tt
         else
           a ← load_sigaction (t_vm t) action;
           new ← (if sa_handler a =? SIG_DFL then klift (KSigAction_new signo false)
                  else if sa_handler a =? SIG_IGN
                  then mret (mkKsa (mkSa (handler_addr Ign) (sa_flags a) (sa_restorer a) (sa_mask a)) false)
                  else if sa_handler a =? SIG_ERR then klift Panic
                  else mret (mkKsa a true));
           task_set_sigaction o signo new);
    mret (Ok 0).

Definition SIGBLOCK : Z := 0.
Definition SIGUNBLOCK : Z := 1.
Definition SIGSETMASK : Z := 2.

Definition sys_rt_sigprocmask (o how set_ old_set : Z) : kern (result Z SysError) :=
  t ← get_task o;
  ok ← (if old_set =? 0 then mret true
        else
          b ← kensure (t_vm t) old_set 8 ACCESS_WRITE;
          if b : bool then _ ← kstore (t_vm t) old_set 8 (blocked_sigs (t_sig t)); mret true else mret false);
  if negb ok then mret (Err EINVAL)
  else if set_ =? 0 then mret (Ok 0)
  else
    b ← kensure (t_vm t) set_ 4 ACCESS_READ;
    if negb b then mret (Err EINVAL)
    else
      v ← kload (t_vm t) set_ 4;
      let put f := _ ← mod_task o (fun t => set_sig t (with_blocked (t_sig t) (f (blocked_sigs (t_sig t))))); mret (Ok 0) in
      if how =? SIGBLOCK then put (fun m => bf_insert m v)
      else if how =? SIGUNBLOCK then put (fun m => bf_remove m v)
      else if how =? SIGSETMASK then put (fun _ => v)
      else mret (Err EINVAL).

(** A call that waits for a signal: over, or asleep, for at most the given time. *)
Inductive sig_call := SigDone (r : result Z SysError) | SigSleep (limit : option TimeSpec).

Definition KILL_STOP : Z := Z.lor (sig_bit SIGKILL) (sig_bit SIGSTOP).

Definition sys_rt_sigtimedwait (o set_ptr timeout_ptr : Z) : kern sig_call :=
  t ← get_task o;
  v ← kload (t_vm t) set_ptr 8;
  let set_ := bf_remove v KILL_STOP in
  t ← get_task o;
  match check_pending (t_sig t) set_ with
  | Some si => mret (SigDone (Ok (si_signo si)))
  | None =>
      _ ← mod_task o (fun t => set_sig t (with_wake (t_sig t) (Z.lor set_ KILL_STOP)));
      _ ← mod_task o (fun t => set_status t Interruptable);
      if timeout_ptr =? 0 then mret (SigSleep None)
      else
        s ← kload (t_vm t) timeout_ptr 8; n ← kload (t_vm t) (wadd timeout_ptr 8) 8;
        if negb (TimeSpec_is_valid (mkTs s n)) then mret (SigDone (Err EINVAL))
        else mret (SigSleep (Some (mkTs s n)))
  end.

(** [layout] is the in-memory form of a [SigInfo]. *)
Definition sigtimedwait_resume (layout : SigInfo -> list Z) (o set_ info_ptr : Z) : kern (result Z SysError) :=
  _ ← mod_task o (fun t => set_status t Running);
  t ← get_task o;
  let '(si, m) := dequeue_expected_one (t_sig t) set_ in
  _ ← mod_task o (fun t => set_sig t m);
  match si with
  | Some si =>
      _ ← (if info_ptr =? 0 then mret tt
           else k ← kget; m ← klift (store_words (k_mem k) (t_vm t) info_ptr (layout si)); kput (fun k => upd_mem k m (k_fm k)));
      mret (Ok (si_signo si))
  | None => mret (Err EAGAIN)
  end.

(** [sys_rt_sigsuspend]; a call that sleeps keeps the old mask for its end. *)
Definition sys_rt_sigsuspend (o mask_ptr : Z) : kern (option Z) :=
  t ← get_task o;
  v ← kload (t_vm t) mask_ptr 8;
  let mask := bf_remove v KILL_STOP in
  t ← get_task o;
  let oldmask := blocked_sigs (t_sig t) in
  _ ← mod_task o (fun t => set_sig t (with_blocked (t_sig t) mask));
  t ← get_task o;
  let wanted := Z.lor (wnot mask) (user_define_sets (t_sig t)) in
  if check_pending_flag (t_sig t) wanted then mret None
  else
    _ ← mod_task o (fun t => set_sig t (with_wake (t_sig t) wanted));
    _ ← mod_task o (fun t => set_status t Interruptable);
    mret (Some oldmask).

Definition sigsuspend_resume (o oldmask : Z) : kern (result Z SysError) :=
  _ ← mod_task o (fun t => set_sig t (with_blocked (t_sig t) oldmask));
  _ ← mod_task o (fun t => set_status t Running);
  mret (Err EINTR).

(** ** Delivery *)

Definition all_actions : list DefaultAction := [Term; Ign; Core; Stop; Cont].

(** The default handlers. *)
Definition run_handler (o : Z) (a : DefaultAction) (signo : Z) : kern unit :=
  t ← get_task o;
  match a with
  | Term | Core => do_group_exit o (Z.lor (Z.land (t_exit_code t) 0xff80) (Z.land signo 0x7f))
  | Ign => mret tt
  | Stop =>
      with_tg (t_proc t)
        (l ← tg_iter (t_proc t);
         kiter (fun u =>
           _ ← mod_task u (fun t => set_status t Stopped);
           mod_task u (fun t => set_sig t (set_wake_up_sigs (t_sig t) (sig_bit SIGCONT)))) l)
  | Cont =>
      with_tg (t_proc t)
        (l ← tg_iter (t_proc t);
         kiter (fun u =>
           t ← get_task u;
           if bool_decide (t_status t = Stopped) then _ ← mod_task u (fun t => set_status t Running); wake u
           else mret tt) l)
  end.

(** The registers a handler is entered with. *)
Record Regs := mkRegs { r_sepc : Z; r_sp : Z; r_ra : Z; r_a0 : Z; r_a1 : Z; r_a2 : Z }.

(** The saved context, as the words of the architecture's structure, the words of a
    [LinuxSigInfo], and the address of the return trampoline. *)
Context (ucontext : Z -> Regs -> list Z) (siginfo : SigInfo -> list Z) (trampoline : Z).

Definition push_words (vm sp : Z) (ws : list Z) : kern unit :=
  b ← kensure vm sp (8 * Z.of_nat (length ws)) ACCESS_WRITE;
  if b : bool then k ← kget; m ← klift (store_words (k_mem k) vm sp ws); kput (fun k => upd_mem k m (k_fm k))
  else klift Panic.

(** The frame of a user handler; the mask of the handler is in force from here on. *)
Definition user_handler (o : Z) (sig : SigInfo) (a : SigAction) (r : Regs) : kern Regs :=
  t ← get_task o;
  let old := blocked_sigs (t_sig t) in
  let m1 := if contains (Z.land (sa_flags a) SA_ALL) SA_NODEFER then old else add_sig old (si_signo sig) in
  _ ← mod_task o (fun t => set_sig t (with_blocked (t_sig t) (bf_insert m1 (sa_mask a))));
  let sp1 := wsub (r_sp r) (8 * Z.of_nat (length (ucontext old r))) in
  _ ← push_words (t_vm t) sp1 (ucontext old r);
  if contains (Z.land (sa_flags a) SA_ALL) SA_SIGINFO then
    let sp2 := wsub sp1 (8 * Z.of_nat (length (siginfo sig))) in
    _ ← push_words (t_vm t) sp2 (siginfo sig);
    mret (mkRegs (sa_handler a) sp2 trampoline (si_signo sig) sp2 sp1)
  else mret (mkRegs (sa_handler a) sp1 trampoline (si_signo sig) (r_a1 r) (r_a2 r)).

(** [check_and_handle]; [None] when the fuel runs out. *)
Fixpoint check_and_handle (fuel : nat) (o : Z) (is_intr : bool) (old_a0 : Z) (r : Regs) : kern (option Regs) :=
  match fuel with
  | O => mret None
  | S fuel =>
      t ← get_task o;
      x ← klift (dequeue_one (t_sig t));
      _ ← mod_task o (fun t => set_sig t x.2);
      match x.1 with
      | None => mret (Some r)
      | Some sig =>
          if si_signo sig =? 0 then klift Panic
          else
            a ← klift (unwrap (sig_handler (t_sig t) !! Z.to_nat (si_signo sig)));
            let restart := contains (Z.land (sa_flags (k_sa a)) SA_ALL) SA_RESTART && is_intr in
            let r := if restart then mkRegs (wsub (r_sepc r) 4) (r_sp r) (r_ra r) old_a0 (r_a1 r) (r_a2 r) else r in
            if is_user a then r ← user_handler o sig (k_sa a) r; mret (Some r)
            else
              d ← klift (unwrap (List.find (fun d => handler_addr d =? sa_handler (k_sa a)) all_actions));
              _ ← run_handler o d (si_signo sig);
              check_and_handle fuel o (is_intr && negb restart) old_a0 r
      end
  end.

End Kernel.

Arguments Kernel : clear implicits.
Arguments kern : clear implicits.
