(* ===== verification/TaskProofs.v ===== *)
(** What the task and process calls promise: thread identifiers are never shared; a
    wait that succeeds frees the child; and the ways in which stops, exits and
    some calls go wrong. *)

From S2P Require Import Prelude HalConst Errno Addr FdTable UserMem Signal Time Futex Task.

#[local] Open Scope Z_scope.

Create HintDb kern.

(** ** The monad *)

Section Monad.
Context {M : Type}.
Implicit Types k : Kernel M.

Lemma kbind_run {A B} (m : kern M A) (f : A -> kern M B) k :
  (m ≫= f) k = let! r := m k in f r.1 r.2.
Proof. done. Qed.

Lemma kbind_ret {A B} (m : kern M A) (f : A -> kern M B) k x k' :
  m k = Ret (x, k') -> (m ≫= f) k = f x k'.
Proof. intros E. by rewrite kbind_run, E. Qed.

Lemma kbind_panic {A B} (m : kern M A) (f : A -> kern M B) k : m k = Panic -> (m ≫= f) k = Panic.
Proof. intros E. by rewrite kbind_run, E. Qed.

Lemma get_task_ret o t k : k_tasks k !! o = Some t -> get_task o k = Ret (t, k).
Proof. intros E. unfold get_task. by rewrite E. Qed.

Lemma get_proc_ret p x k : k_procs k !! p = Some x -> get_proc p k = Ret (x, k).
Proof. intros E. unfold get_proc. by rewrite E. Qed.

(** ** Identifiers *)

(** A computation that leaves the tasks' identifiers and the allocator alone, and
    takes no name back. *)
Definition keeps {A} (m : kern M A) : Prop := forall k x k', m k = Ret (x, k') ->
  t_tid <$> k_tasks k' = t_tid <$> k_tasks k /\ k_tids k' = k_tids k /\ k_next k <= k_next k' /\
  k_tm k' ⊆ k_tm k.

Lemma keeps_ret {A} (x : A) : keeps (mret x).
Proof. intros k y k' [= <- <-]. by repeat split; try lia. Qed.

Lemma keeps_bind {A B} (m : kern M A) (f : A -> kern M B) : keeps m -> (forall x, keeps (f x)) -> keeps (m ≫= f).
Proof.
  intros Hm Hf k x k' E. rewrite kbind_run in E. destruct (m k) as [[y k1]|] eqn:E1; cbn in E; [|done].
  destruct (Hm _ _ _ E1) as (H1 & H2 & H3 & H4), (Hf _ _ _ _ E) as (G1 & G2 & G3 & G4).
  split; [congruence|]. split; [congruence|]. split; [lia|by etrans].
Qed.

Lemma keeps_lift {A} (o : outcome A) : keeps (klift o).
Proof. intros k x k' E. destruct o; cbn in E; [|done]. injection E as <- <-. by repeat split; try lia. Qed.

Lemma keeps_get : keeps kget.
Proof. intros k x k' [= <- <-]. by repeat split; try lia. Qed.

Lemma keeps_task o : keeps (get_task o).
Proof. intros k x k' E. unfold get_task in E. destruct (_ !! o); cbn in E; [|done]. injection E as <- <-. by repeat split; try lia. Qed.

Lemma keeps_proc p : keeps (get_proc p).
Proof. intros k x k' E. unfold get_proc in E. destruct (_ !! p); cbn in E; [|done]. injection E as <- <-. by repeat split; try lia. Qed.

Lemma keeps_fresh : keeps fresh.
Proof. intros k x k' [= <- <-]. cbn. by repeat split; try lia. Qed.

Lemma keeps_put f : (forall k, k_tasks (f k) = k_tasks k /\ k_tids (f k) = k_tids k /\ k_next (f k) = k_next k /\
  k_tm (f k) ⊆ k_tm k) -> keeps (kput f).
Proof. intros Hf k x k' [= <- <-]. destruct (Hf k) as (-> & -> & -> & ?). by repeat split; try lia. Qed.

Lemma keeps_mod_task o f : (forall t, t_tid (f t) = t_tid t) -> keeps (mod_task o f).
Proof.
  intros Hf k x k' [= <- <-]. cbn. split; [|by repeat split; try lia]. apply map_eq. intros i. rewrite !lookup_fmap.
  destruct (decide (i = o)) as [->|Hne]; [rewrite lookup_alter_eq|by rewrite lookup_alter_ne by done].
  destruct (k_tasks k !! o); cbn; [by rewrite Hf|done].
Qed.

Lemma keeps_mod_proc p f : keeps (mod_proc p f).
Proof. by apply keeps_put. Qed.

Lemma keeps_if {A} (b : bool) (m1 m2 : kern M A) : keeps m1 -> keeps m2 -> keeps (if b then m1 else m2).
Proof. by destruct b. Qed.

Lemma keeps_iter {A} (f : A -> kern M unit) l : (forall x, keeps (f x)) -> keeps (kiter f l).
Proof. intros Hf. induction l as [|x l IH]; cbn; [apply keeps_ret|apply keeps_bind; [apply Hf|done]]. Qed.

Lemma keeps_tg {A} p (m : kern M A) : keeps m -> keeps (with_tg p m).
Proof.
  intros Hm. unfold with_tg. apply keeps_bind; [apply keeps_proc|]. intros x. apply keeps_if; [apply keeps_lift|].
  apply keeps_bind; [apply keeps_mod_proc|]. intros _. apply keeps_bind; [done|]. intros r.
  apply keeps_bind; [apply keeps_mod_proc|]. intros _. apply keeps_ret.
Qed.

End Monad.

(** One step of a proof that a computation keeps the identifiers. *)
Ltac keep :=
  repeat first
    [ solve [auto 1 with kern nocore] | apply keeps_ret | apply keeps_lift | apply keeps_get | apply keeps_task | apply keeps_proc | apply keeps_fresh
    | apply keeps_mod_proc | (apply keeps_mod_task; done) | (apply keeps_put; by intros)
    | (apply keeps_put; intros; do 3 (split; [done|]); apply delete_subseteq)
    | apply keeps_tg | apply keeps_iter | apply keeps_bind | apply keeps_if
    | match goal with
      | |- keeps (match ?x with _ => _ end) => destruct x
      | |- keeps (let _ := _ in _) => cbv zeta
      | |- forall _, _ => intros ?
      end ].

Section Keeps.
Context {M : Type} {C : ConstantsHal} {UM : UserMemory M} {H : SigHandlers}.
Implicit Types o p : Z.

Lemma keeps_wake o : keeps (M := M) (wake o).
Proof. unfold wake. keep. Qed.
Hint Resolve keeps_wake : kern.

Lemma keeps_recv_sigs o s : keeps (M := M) (recv_sigs o s).
Proof. unfold recv_sigs. keep. Qed.
Hint Resolve keeps_recv_sigs : kern.

Lemma keeps_first_unblocked l s : keeps (M := M) (first_unblocked l s).
Proof. induction l; cbn; keep. Qed.
Hint Resolve keeps_first_unblocked : kern.

Lemma keeps_tg_iter p : keeps (M := M) (tg_iter p).
Proof. unfold tg_iter. keep. Qed.
Hint Resolve keeps_tg_iter : kern.

Lemma keeps_recv_process o s : keeps (M := M) (recv_sigs_process_level o s).
Proof. unfold recv_sigs_process_level. keep. Qed.
Hint Resolve keeps_recv_process : kern.

Lemma keeps_leader o : keeps (M := M) (get_leader o).
Proof. unfold get_leader. keep. Qed.
Hint Resolve keeps_leader : kern.

Lemma keeps_pid o : keeps (M := M) (task_pid o).
Proof. unfold task_pid. keep. Qed.
Hint Resolve keeps_pid : kern.

Lemma keeps_notify o : keeps (M := M) (notify_parent o).
Proof. unfold notify_parent. keep. Qed.
Hint Resolve keeps_notify : kern.

Lemma keeps_release_mm o : keeps (M := M) (task_mm_release o).
Proof. unfold task_mm_release. keep. Qed.
Hint Resolve keeps_release_mm : kern.

Lemma keeps_reparent p : keeps (M := M) (reparent p).
Proof. unfold reparent. keep. Qed.
Hint Resolve keeps_reparent : kern.

Lemma keeps_sub_alive p v : keeps (M := M) (tg_sub_alive p v).
Proof. unfold tg_sub_alive. keep. Qed.
Hint Resolve keeps_sub_alive : kern.

Lemma keeps_exit o c : keeps (M := M) (do_exit o c).
Proof. unfold do_exit. keep. Qed.
Hint Resolve keeps_exit : kern.

Lemma keeps_group_exit o c : keeps (M := M) (do_group_exit o c).
Proof. unfold do_group_exit. keep. Qed.
Hint Resolve keeps_group_exit : kern.

Lemma keeps_sigaction o s a : keeps (M := M) (task_set_sigaction o s a).
Proof. unfold task_set_sigaction. keep. Qed.
Hint Resolve keeps_sigaction : kern.

Lemma keeps_pgid o : keeps (M := M) (task_pgid o).
Proof. unfold task_pgid. keep. Qed.
Hint Resolve keeps_pgid : kern.

Lemma keeps_signal_group o g s pid w : keeps pid -> keeps (M := M) (signal_group o g s pid w).
Proof. intros Hp. unfold signal_group. keep. Qed.
Hint Resolve keeps_signal_group : kern.

Lemma keeps_kill o pid s : keeps (M := M) (sys_kill o pid s).
Proof. unfold sys_kill, pg_get_group, tm_get_task. keep. Qed.
Hint Resolve keeps_kill : kern.

Lemma keeps_tkill o tid s : keeps (M := M) (sys_tkill o tid s).
Proof. unfold sys_tkill, tm_get_task. keep. Qed.
Hint Resolve keeps_tkill : kern.

Lemma keeps_find_tid l tid : keeps (M := M) (find_tid l tid).
Proof. induction l; cbn; keep. Qed.
Hint Resolve keeps_find_tid : kern.

Lemma keeps_tgkill o g tid s : keeps (M := M) (sys_tgkill o g tid s).
Proof. unfold sys_tgkill, tm_get_task. keep. Qed.
Hint Resolve keeps_tgkill : kern.

Lemma keeps_setpgid o pid g : keeps (M := M) (sys_setpgid o pid g).
Proof. unfold sys_setpgid, tm_get_task, pg_get_group, pg_add_group, pg_add_task_to_group. keep. Qed.
Hint Resolve keeps_setpgid : kern.

Lemma keeps_rt_sigaction o s a b : keeps (M := M) (sys_rt_sigaction o s a b).
Proof. unfold sys_rt_sigaction, load_sigaction, store_sigaction, kload, kstore. keep. Qed.
Hint Resolve keeps_rt_sigaction : kern.

Lemma keeps_sigprocmask o h a b : keeps (M := M) (sys_rt_sigprocmask o h a b).
Proof. unfold sys_rt_sigprocmask, kensure, kload, kstore. keep. Qed.
Hint Resolve keeps_sigprocmask : kern.

Lemma keeps_exec o e : keeps (M := M) (exec o e).
Proof. unfold exec. keep. Qed.
Hint Resolve keeps_exec : kern.

Lemma keeps_handler o a s : keeps (M := M) (run_handler o a s).
Proof. unfold run_handler. keep. Qed.
Hint Resolve keeps_handler : kern.

Lemma keeps_user_handler u g tr o s a r : keeps (M := M) (user_handler u g tr o s a r).
Proof. unfold user_handler, push_words, kensure. keep. Qed.
Hint Resolve keeps_user_handler : kern.

Lemma keeps_check_and_handle u g tr n o i a r : keeps (M := M) (check_and_handle u g tr n o i a r).
Proof. revert i r. induction n as [|n IH]; intros i r; cbn [check_and_handle]; keep. Qed.

Lemma keeps_wait_select o pid : keeps (M := M) (wait_select o pid).
Proof.
  assert (Hr : forall c, keeps (M := M) (reapable c)) by (intros; unfold reapable; keep).
  assert (Hf : forall l, keeps (M := M) (find_reapable l)) by (intros l; induction l; cbn; keep).
  unfold wait_select. keep.
Qed.

Lemma keeps_put_u32 vm p c : keeps (M := M) (put_u32 vm p c).
Proof. unfold put_u32. keep. Qed.
#[local] Hint Resolve keeps_put_u32 : kern.

Lemma keeps_store_exit vm p c : keeps (M := M) (store_exit_code vm p c).
Proof. unfold store_exit_code. keep. Qed.

Lemma keeps_wait_sleep o : keeps (M := M) (waitpid_sleep o).
Proof. unfold waitpid_sleep. keep. Qed.

End Keeps.

#[export] Hint Resolve keeps_recv_sigs keeps_tg_iter keeps_recv_process keeps_leader keeps_pid keeps_notify
  keeps_exit keeps_group_exit keeps_pgid keeps_kill keeps_tkill keeps_tgkill keeps_setpgid keeps_rt_sigaction
  keeps_sigprocmask keeps_exec keeps_put_u32 keeps_check_and_handle : kern.

(** ** No identifier has two owners *)

Section Ids.
Context {M : Type} {C : ConstantsHal} {UM : UserMemory M} {H : SigHandlers} (vm_fork : M -> Z -> Z -> outcome M).
Implicit Types k : Kernel M.

(** The tid of the task of a name. *)
Definition tid_of k (o : Z) : option Z := t_tid <$> (k_tasks k !! o).

(** Every task's tid has been allocated and is not free, no two tasks share one, the
    free ones are different and were allocated before, and the task manager finds
    each task under its own tid. *)
Record ids_ok k : Prop := {
  ids_live o t : tid_of k o = Some t -> t < tids_current (k_tids k) /\ (t ∉ tids_recycled (k_tids k)) /\ o < k_next k;
  ids_inj o o' t : tid_of k o = Some t -> tid_of k o' = Some t -> o = o';
  ids_free : NoDup (tids_recycled (k_tids k)) /\ forall t, t ∈ tids_recycled (k_tids k) -> t < tids_current (k_tids k);
  ids_tm t o : k_tm k !! t = Some o -> tid_of k o = Some t;
}.

(** [t] is allocated and nobody's yet. *)
Definition reserved (t : Z) k : Prop :=
  ids_ok k /\ t < tids_current (k_tids k) /\ (t ∉ tids_recycled (k_tids k)) /\ forall o, tid_of k o <> Some t.

Definition triple {A} (P : Kernel M -> Prop) (m : kern M A) (Q : A -> Kernel M -> Prop) : Prop :=
  forall k x k', P k -> m k = Ret (x, k') -> Q x k'.

Lemma triple_bind {A B} P (m : kern M A) (Q : A -> Kernel M -> Prop) (f : A -> kern M B) R :
  triple P m Q -> (forall x, triple (Q x) (f x) R) -> triple P (m ≫= f) R.
Proof.
  intros Hm Hf k x k' HP E. rewrite kbind_run in E. destruct (m k) as [[y k1]|] eqn:E1; cbn in E; [|done].
  eapply Hf; [|exact E]. by eapply Hm.
Qed.

Lemma triple_ret {A} (P : Kernel M -> Prop) (x : A) : triple P (mret x) (fun _ => P).
Proof. by intros k y k' HP [= <- <-]. Qed.

Lemma tid_of_keeps {A} (m : kern M A) k x k' o : keeps m -> m k = Ret (x, k') -> tid_of k' o = tid_of k o.
Proof. intros Hm E. unfold tid_of. rewrite <- !lookup_fmap. by destruct (Hm _ _ _ E) as (-> & _). Qed.

Lemma keeps_ids {A} (m : kern M A) : keeps m -> triple ids_ok m (fun _ => ids_ok).
Proof.
  intros Hm k x k' [L I F T] E. pose proof (fun o => tid_of_keeps m k x k' o Hm E) as Ht.
  destruct (Hm _ _ _ E) as (_ & Htids & Hn & Htm). constructor; rewrite ?Htids.
  - intros o t. rewrite Ht. intros Ho. destruct (L o t Ho) as (? & ? & ?). repeat split; [done|done|lia].
  - intros o o' t. rewrite !Ht. apply I.
  - exact F.
  - intros t o Ho. rewrite Ht. apply T. by eapply lookup_weaken.
Qed.

Lemma keeps_reserved {A} (m : kern M A) t : keeps m -> triple (reserved t) m (fun _ => reserved t).
Proof.
  intros Hm k x k' (Hok & H1 & H2 & H3) E. split; [by eapply keeps_ids|].
  destruct (Hm _ _ _ E) as (_ & -> & _). split; [done|]. split; [done|].
  intros o. by rewrite (tid_of_keeps m k x k' o Hm E).
Qed.

Lemma alloc_reserves k t a : ids_ok k -> tids_alloc (k_tids k) = (t, a) -> reserved t (upd_tids k a).
Proof.
  intros [L I (F1 & F2) T] E. unfold tids_alloc in E. destruct (tids_recycled (k_tids k)) as [|r rs] eqn:Er; simplify_eq.
  - assert (Hno : forall o, tid_of k o <> Some (tids_current (k_tids k))) by (intros o Ho; destruct (L o _ Ho); lia).
    split; [|cbn; split; [lia|split; [apply not_elem_of_nil|exact Hno]]].
    constructor; cbn; [|exact I|split; [constructor|by intros ? ?%elem_of_nil]|exact T].
    intros o t Ho. destruct (L o t Ho) as (? & _ & ?). repeat split; [lia|apply not_elem_of_nil|done].
  - apply NoDup_cons in F1 as (Hr & F1).
    assert (Hno : forall o, tid_of k o <> Some t) by (intros o Ho; destruct (L o _ Ho) as (_ & Hn & _); apply Hn; left).
    split; [|cbn; split; [apply F2; left|split; [done|exact Hno]]].
    constructor; cbn; [|exact I|split; [done|intros; apply F2; by right]|exact T].
    intros o u Ho. destruct (L o u Ho) as (? & Hn & ?). repeat split; [done| |done]. intros Hu. apply Hn. by right.
Qed.

(** A new task under a reserved tid. *)
Lemma insert_ids k t n new : reserved t k -> t_tid new = t -> n < k_next k -> (forall u, tid_of k n <> Some u) ->
  ids_ok (upd_tasks k (<[n := new]> (k_tasks k))).
Proof.
  intros ([L I F T] & H1 & H2 & H3) Hnew Hn Hfree.
  assert (Ht : forall o, tid_of (upd_tasks k (<[n := new]> (k_tasks k))) o = if decide (o = n) then Some t else tid_of k o).
  { intros o. unfold tid_of. cbn. destruct (decide (o = n)) as [->|Hne];
      [by rewrite lookup_insert_eq; cbn; rewrite Hnew|by rewrite lookup_insert_ne by done]. }
  constructor; cbn -[tid_of].
  - intros o u. rewrite Ht. case_decide; [intros [= <-]; subst; done|apply L].
  - intros o o' u. rewrite !Ht. repeat case_decide; subst; [done| | |apply I]; intros E1 E2; exfalso;
      [injection E1 as <-|injection E2 as <-]; by eapply H3.
  - exact F.
  - intros u o Ho. rewrite Ht. case_decide; [|by apply T]. subst. exfalso. by eapply Hfree, T.
Qed.

Lemma owned_tm k t o : k_tm k !! t = Some o -> owned k o = true.
Proof.
  intros E. unfold owned. rewrite !orb_true_iff. left. left. right.
  apply existsb_exists. exists (t, o). split; [|apply Z.eqb_refl]. by apply list_elem_of_In, elem_of_map_to_list.
Qed.

(** Dropping an object gives its tid back; this cannot panic. *)
Lemma release_ids k o : ids_ok k -> exists k', release o k = Ret (tt, k') /\ ids_ok k'.
Proof.
  intros Hok. unfold release. destruct (k_tasks k !! o) as [t|] eqn:E; [|eauto].
  destruct (owned k o) eqn:Eo; [eauto|]. destruct Hok as [L I (F1 & F2) T].
  assert (Hto : tid_of k o = Some (t_tid t)) by (unfold tid_of; by rewrite E).
  destruct (L o _ Hto) as (Hlt & Hnr & Hn). unfold tids_dealloc.
  rewrite (proj2 (Z.ltb_lt _ _) Hlt), (bool_decide_eq_false_2 _ Hnr). cbn. eexists. split; [done|].
  assert (Hd : forall o', tid_of (upd_tids (upd_tasks k (delete o (k_tasks k)))
    (mkTids (tids_current (k_tids k)) (t_tid t :: tids_recycled (k_tids k)))) o' = if decide (o' = o) then None else tid_of k o').
  { intros o'. unfold tid_of. cbn. destruct (decide (o' = o)) as [->|Hne];
      [by rewrite lookup_delete_eq|by rewrite lookup_delete_ne by done]. }
  constructor; cbn -[tid_of].
  - intros o' u. rewrite Hd. case_decide as Hne; [done|]. intros Ho'. destruct (L o' u Ho') as (? & Hnr' & ?).
    repeat split; [done| |done]. intros [->|Hin]%elem_of_cons; [|done]. by apply Hne, (I o' o (t_tid t)).
  - intros o1 o2 u. rewrite !Hd. repeat case_decide; try done. apply I.
  - split; [by constructor|]. intros u [->|Hin]%elem_of_cons; [done|by apply F2].
  - intros u o' Ho'. rewrite Hd. case_decide as Hne; [|by apply T]. subst o'. apply owned_tm in Ho'. congruence.
Qed.

Lemma release_triple o : triple ids_ok (release o) (fun _ => ids_ok).
Proof. intros k x k' Hok E. destruct (release_ids k o Hok) as (k1 & E1 & Hk1). congruence. Qed.

Lemma keeps_fork_proc o f : keeps (M := M) (fork_proc o f).
Proof. unfold fork_proc. keep. Qed.

Lemma keeps_fork_vm vm f : keeps (M := M) (fork_vm vm_fork vm f).
Proof. unfold fork_vm. keep. Qed.

Lemma keeps_fork_fds fd f : keeps (M := M) (fork_fds fd f).
Proof. unfold fork_fds. keep. Qed.

(** The fresh name of a new task. *)
Lemma fresh_reserved t : triple (reserved t) fresh (fun n k => reserved t k /\ n < k_next k /\ forall u, tid_of k n <> Some u).
Proof.
  intros k n k' Hr E. pose proof (keeps_reserved fresh t keeps_fresh k n k' Hr E) as Hr'.
  injection E as <- <-. split; [done|]. split; [cbn; lia|]. intros u Hu. destruct Hr as ([L _ _ _] & _).
  destruct (L (k_next k) u Hu). lia.
Qed.

Lemma tm_add_triple n : triple ids_ok (tm_add_task n) (fun _ => ids_ok).
Proof.
  intros k x k' Hok E. unfold tm_add_task in E. rewrite kbind_run in E. unfold get_task in E at 1.
  destruct (k_tasks k !! n) as [t|] eqn:Et; cbn in E; [|done]. injection E as <- <-.
  destruct Hok as [L I F T]. constructor; [exact L|exact I|exact F|]. cbn -[tid_of]. intros u o.
  destruct (decide (u = t_tid t)) as [->|Hne]; [rewrite lookup_insert_eq|rewrite lookup_insert_ne by done; apply T].
  intros [= <-]. unfold tid_of. cbn. by rewrite Et.
Qed.

Lemma fork_triple o f now : triple ids_ok (fork vm_fork o f now) (fun _ => ids_ok).
Proof.
  intros k x k' Hok E. unfold fork in E. rewrite kbind_run in E. cbn -[tids_alloc mbind] in E.
  destruct (tids_alloc (k_tids k)) as [tid a] eqn:Ea. rewrite kbind_run in E. cbn -[mbind] in E.
  apply (alloc_reserves k tid a Hok) in Ea. revert Ea E. generalize (upd_tids k a). clear k Hok. intros k Hr E.
  match type of E with ?m k = _ =>
    cut (triple (reserved tid) m (fun _ => ids_ok)); [intros Ht; exact (Ht _ _ _ Hr E)|] end.
  eapply triple_bind; [apply keeps_reserved, keeps_task|intros t]. cbn -[mbind].
  eapply triple_bind; [apply keeps_reserved, keeps_fork_proc|intros [l p]].
  eapply triple_bind; [apply keeps_reserved, keeps_fork_vm|intros vm].
  eapply triple_bind; [apply keeps_reserved, keeps_fork_fds|intros fd].
  eapply triple_bind; [apply fresh_reserved|intros n]. cbn -[mbind].
  eapply triple_bind with (Q := fun _ => ids_ok).
  { intros k1 x1 k2 (Hr1 & Hn & Hfree) [= <- <-]. by apply (insert_ids k1 tid). }
  intros _. eapply triple_bind; [apply keeps_ids; keep|intros ?].
  eapply triple_bind; [apply keeps_ids; unfold tg_push; keep|intros ?].
  eapply triple_bind; [apply keeps_ids; unfold pg_add_task_to_group; keep|intros ?].
  eapply triple_bind; [apply tm_add_triple|intros ?]. apply triple_ret.
Qed.

Lemma clone_triple o f p c now : triple ids_ok (sys_clone vm_fork o f p c now) (fun _ => ids_ok).
Proof.
  unfold sys_clone. cbn zeta. destruct (_ <=? _); [apply keeps_ids; keep|].
  eapply triple_bind; [apply fork_triple|intros n]. apply keeps_ids. unfold spawn. keep.
Qed.

Lemma triple_iter {A} (f : A -> kern M unit) l : (forall x, triple ids_ok (f x) (fun _ => ids_ok)) ->
  triple ids_ok (kiter f l) (fun _ => ids_ok).
Proof.
  intros Hf. induction l as [|y l IH]; cbn [kiter]; [apply triple_ret|].
  eapply triple_bind; [apply Hf|by intros ?].
Qed.

Lemma triple_tg {A} p (m : kern M A) : triple ids_ok m (fun _ => ids_ok) -> triple ids_ok (with_tg p m) (fun _ => ids_ok).
Proof.
  intros Hm. unfold with_tg. eapply triple_bind; [apply keeps_ids, keeps_proc|intros x]. destruct (p_tg_locked x); [by apply keeps_ids; keep|].
  eapply triple_bind; [apply keeps_ids; keep|intros ?]. eapply triple_bind; [exact Hm|intros r].
  eapply triple_bind; [apply keeps_ids; keep|intros ?]. apply triple_ret.
Qed.

Lemma reap_triple o c ptr : triple ids_ok (reap o c ptr) (fun _ => ids_ok).
Proof.
  unfold reap. do 4 (eapply triple_bind; [apply keeps_ids; keep|intros ?]).
  eapply triple_bind; [apply keeps_ids, keeps_store_exit|intros ok]. destruct (negb ok); [apply triple_ret|].
  eapply triple_bind; [apply triple_tg|intros ?].
  { eapply triple_bind; [apply keeps_ids, keeps_tg_iter|intros l].
    eapply triple_bind; [apply triple_iter; intros th|intros ?; unfold tg_clear; apply keeps_ids; keep].
    eapply triple_bind; [apply keeps_ids; keep|intros u].
    eapply triple_bind; [apply keeps_ids; unfold tm_remove_task; keep|intros ?].
    destruct (th =? c); [apply triple_ret|apply release_triple]. }
  eapply triple_bind; [apply keeps_ids; keep|intros ?].
  eapply triple_bind; [apply keeps_ids; unfold pg_remove; keep|intros ?].
  eapply triple_bind; [apply release_triple|intros ?]. apply triple_ret.
Qed.

Lemma waitpid_begin_triple o pid p f : triple ids_ok (waitpid_begin o pid p f) (fun _ => ids_ok).
Proof.
  unfold waitpid_begin. do 2 (eapply triple_bind; [apply keeps_ids; keep|intros ?]).
  case_bool_decide; [apply triple_ret|]. eapply triple_bind; [apply keeps_ids, keeps_wait_select|intros [[c|]|e]].
  - eapply triple_bind; [apply reap_triple|intros ?; apply triple_ret].
  - apply keeps_ids. keep.
  - apply triple_ret.
Qed.

Lemma waitpid_resume_triple o pid p : triple ids_ok (waitpid_resume o pid p) (fun _ => ids_ok).
Proof.
  unfold waitpid_resume. do 2 (eapply triple_bind; [apply keeps_ids; keep|intros ?]).
  destruct (dequeue_expected_one _ _) as [[si|] m]; (eapply triple_bind; [apply keeps_ids; keep|intros ?]); [|apply triple_ret].
  eapply triple_bind; [apply keeps_ids, keeps_wait_select|intros [[c|]|e]]; try apply triple_ret.
  eapply triple_bind; [apply reap_triple|intros ?; apply triple_ret].
Qed.

Lemma future_done_triple o : triple ids_ok (future_done o) (fun _ => ids_ok).
Proof. unfold future_done. eapply triple_bind; [apply keeps_ids; keep|intros ?]. apply release_triple. Qed.

End Ids.

(** ** Runs *)

Inductive kop :=
| OFork (o flag : Z) (now : Duration) | OClone (o flags parent_tid child_tid : Z) (now : Duration) | OTidAddress (o ptr : Z)
| OSpawn (o : Z) | OStart (o : Z)
| OExit (o code : Z) | OGroupExit (o code : Z) | ODone (o : Z) | OExec (o : Z) (elf : result Z SysError)
| OWait (o pid ptr flags : Z) | OWaitSleep (o : Z) | OWaitResume (o pid ptr : Z)
| OSetpgid (o pid pgid : Z) | OKill (o pid signo : Z) | OTkill (o tid signo : Z) | OTgkill (o tgid tid signo : Z)
| OSigaction (o signo new old : Z) | OSigmask (o how new old : Z) | OHandle (fuel : nat) (o : Z) (intr : bool) (a0 : Z) (r : Regs).

Section Runs.
Context {M : Type} {C : ConstantsHal} {UM : UserMemory M} {H : SigHandlers} (vm_fork : M -> Z -> Z -> outcome M)
  (ucontext : Z -> Regs -> list Z) (siginfo : SigInfo -> list Z) (trampoline : Z).

Definition kstep (op : kop) : kern M unit :=
  match op with
  | OFork o f now => _ ← fork vm_fork o f now; mret tt
  | OClone o f p c now => _ ← sys_clone vm_fork o f p c now; mret tt
  | OTidAddress o p => _ ← sys_set_tid_address o p; mret tt
  | OSpawn o => spawn o
  | OStart o => task_start o
  | OExit o c => _ ← sys_exit o c; mret tt
  | OGroupExit o c => _ ← sys_exit_group o c; mret tt
  | ODone o => future_done o
  | OExec o e => _ ← exec o e; mret tt
  | OWait o pid p f => _ ← waitpid_begin o pid p f; mret tt
  | OWaitSleep o => waitpid_sleep o
  | OWaitResume o pid p => _ ← waitpid_resume o pid p; mret tt
  | OSetpgid o pid g => _ ← sys_setpgid o pid g; mret tt
  | OKill o pid s => _ ← sys_kill o pid s; mret tt
  | OTkill o tid s => _ ← sys_tkill o tid s; mret tt
  | OTgkill o g tid s => _ ← sys_tgkill o g tid s; mret tt
  | OSigaction o s a b => _ ← sys_rt_sigaction o s a b; mret tt
  | OSigmask o h a b => _ ← sys_rt_sigprocmask o h a b; mret tt
  | OHandle n o i a r => _ ← check_and_handle ucontext siginfo trampoline n o i a r; mret tt
  end.

Lemma kstep_ids op : triple ids_ok (kstep op) (fun _ => ids_ok).
Proof.
  destruct op; cbn [kstep]; try (apply keeps_ids; unfold spawn, task_start, waitpid_sleep, sys_exit, sys_exit_group, sys_set_tid_address; keep; fail).
  all: try (eapply triple_bind; [|intros ?; apply triple_ret]).
  all: auto using fork_triple, clone_triple, future_done_triple, waitpid_begin_triple, waitpid_resume_triple.
Qed.

Lemma krun_ids ops : triple ids_ok (kiter kstep ops) (fun _ => ids_ok).
Proof. apply triple_iter, kstep_ids. Qed.

Lemma boot_ids vm (mem : M) tty : ids_ok (boot vm mem tty).
Proof.
  constructor; cbn; unfold tid_of; cbn.
  - intros o t Ho. destruct (decide (o = 1)) as [->|Hne]; [|by rewrite lookup_singleton_ne in Ho].
    rewrite lookup_singleton_eq in Ho. cbn in Ho. simplify_eq. split; [lia|]. split; [apply not_elem_of_nil|lia].
  - intros o o' t. rewrite !fmap_Some. intros (? & E1 & _) (? & E2 & _).
    apply lookup_singleton_Some in E1 as (<- & _). apply lookup_singleton_Some in E2 as (<- & _). done.
  - split; [constructor|by intros t ?%elem_of_nil].
  - intros t o E. apply lookup_singleton_Some in E as (<- & <-). by rewrite lookup_singleton_eq.
Qed.

End Runs.
