(* ===== verification/TaskClaims.v ===== *)
(** The theorems about tasks and processes, and executions that show them at work. *)

From S2P Require Import Prelude HalConst Errno Addr FdTable UserMem Signal Time Futex Task TaskProofs.

#[local] Open Scope Z_scope.


(** ** Sending a signal to a process *)

Section Receive.
Context {M : Type}.
Implicit Types k : Kernel M.

Lemma receive_ret m info : si_signo info <= SIGRTMAX -> exists m', sig_receive m info = Ret m'.
Proof.
  intros Hs. unfold sig_receive. destruct (_ <? _); [eauto|]. unfold guard_panic.
  rewrite (proj2 (Z.leb_le _ _) Hs). eauto.
Qed.

(** A task that is not interruptable takes the signal and is not woken. *)
Lemma recv_quiet k o t info : k_tasks k !! o = Some t -> t_status t <> Interruptable -> si_signo info <= SIGRTMAX ->
  exists m, recv_sigs o info k = Ret (tt, upd_tasks k (alter (fun t => set_sig t m) o (k_tasks k))).
Proof.
  intros Et Hst Hs. destruct (receive_ret (t_sig t) info Hs) as (m & Em). exists m. unfold recv_sigs.
  rewrite (kbind_ret _ _ _ _ _ (get_task_ret o t k Et)). rewrite kbind_run. unfold klift. rewrite Em. cbn.
  rewrite (bool_decide_eq_false_2 _ Hst), andb_false_r. done.
Qed.

(** A computation under the lock of a thread group that does not touch the cells. *)
Lemma with_tg_run {A} p x (m : kern M A) k r k1 : k_procs k !! p = Some x -> p_tg_locked x = false ->
  let k0 := upd_procs k (alter (fun x => set_locked x true) p (k_procs k)) in
  m k0 = Ret (r, k1) -> k_procs k1 = k_procs k0 -> with_tg p m k = Ret (r, upd_procs k1 (k_procs k)).
Proof.
  intros Ep Hl k0 Em Hp. unfold with_tg. rewrite (kbind_ret _ _ _ _ _ (get_proc_ret p x k Ep)), Hl.
  rewrite kbind_run. cbn -[mbind]. fold k0. rewrite (kbind_ret _ _ _ _ _ Em). rewrite kbind_run. cbn. rewrite Hp.
  assert (Eu : alter (fun x => set_locked x false) p (k_procs k0) = k_procs k); [|by rewrite Eu].
  unfold k0. cbn. apply map_eq. intros j. destruct (decide (j = p)) as [->|Hne]; [|by rewrite !lookup_alter_ne].
  rewrite !lookup_alter_eq, Ep. cbn. destruct x; cbn in *. by subst.
Qed.

(** The members of a process that exist. *)
Definition living k (p : Z) : list Z :=
  match k_procs k !! p with
  | Some x => filter (fun o => upgrade o k = true) (bt_iter (p_members x)).*2
  | None => []
  end.

Lemma tg_iter_run k p x : k_procs k !! p = Some x -> tg_iter p k = Ret (living k p, k).
Proof. intros E. unfold tg_iter, living. rewrite (kbind_ret _ _ _ _ _ (get_proc_ret p x k E)), E. done. Qed.

Lemma living_exists k p o : o ∈ living k p -> is_Some (k_tasks k !! o).
Proof.
  unfold living. destruct (k_procs k !! p); [|by intros ?%elem_of_nil].
  intros (Hu & _)%list_elem_of_filter. unfold upgrade in Hu. by apply bool_decide_eq_true in Hu.
Qed.

(** Locking changes neither who exists nor who is a member. *)
Lemma living_locked k p x b : k_procs k !! p = Some x ->
  living (upd_procs k (alter (fun x => set_locked x b) p (k_procs k))) p = living k p.
Proof. intros E. unfold living. cbn. by rewrite lookup_alter_eq, E. Qed.

Lemma first_unblocked_run l s k : (forall o, o ∈ l -> is_Some (k_tasks k !! o)) ->
  exists r, first_unblocked l s k = Ret (r, k) /\ forall o, r = Some o -> o ∈ l.
Proof.
  induction l as [|o l IH]; intros Hl; cbn; [by exists None|].
  destruct (Hl o) as (t & Et); [left|]. rewrite (kbind_ret _ _ _ _ _ (get_task_ret o t k Et)).
  destruct (contain_sig _ _).
  - destruct IH as (r & -> & Hr); [intros; apply Hl; by right|]. exists r. split; [done|]. intros. right. by apply Hr.
  - exists (Some o). split; [done|]. intros o' [= <-]. left.
Qed.

(** The thread a process-level signal goes to: the first that does not block it, or
    the first of all. *)
Definition chosen k (p signo : Z) (u : Z) : Prop :=
  exists r, first_unblocked (living k p) signo k = Ret (r, k) /\ (r = Some u \/ r = None /\ head (living k p) = Some u).

Lemma first_unblocked_tasks l s k k' : k_tasks k' = k_tasks k ->
  forall r, first_unblocked l s k = Ret (r, k) -> first_unblocked l s k' = Ret (r, k').
Proof.
  intros Et. induction l as [|o l IH]; intros r E; cbn in *; [by injection E as <-|].
  rewrite kbind_run in *. unfold get_task in *. rewrite Et. destruct (k_tasks k !! o); cbn in *; [|done].
  destruct (contain_sig _ _); [by apply IH|by injection E as <-].
Qed.

Lemma chosen_exists k p signo : living k p <> [] -> exists u, u ∈ living k p /\ chosen k p signo u.
Proof.
  intros Hne. destruct (first_unblocked_run (living k p) signo k) as (r & Er & Hr); [apply living_exists|].
  destruct r as [u|]; [exists u; split; [by apply Hr|]; exists (Some u); auto|].
  destruct (living k p) as [|u l] eqn:E; [done|]. exists u. split; [left|]. exists None. rewrite E. auto.
Qed.

(** A process-level signal whose thread cannot be woken is queued there, and nothing
    else changes. *)
Lemma recv_process_run k o t x u v info : k_tasks k !! o = Some t -> k_procs k !! t_proc t = Some x ->
  p_tg_locked x = false -> chosen k (t_proc t) (si_signo info) u ->
  k_tasks k !! u = Some v -> t_status v <> Interruptable -> si_signo info <= SIGRTMAX ->
  exists m, recv_sigs_process_level o info k = Ret (tt, upd_tasks k (alter (fun t => set_sig t m) u (k_tasks k))).
Proof.
  intros Et Ep Hl (r & Er & Hru) Ev Hst Hs. set (p := t_proc t) in *.
  set (k0 := upd_procs k (alter (fun x => set_locked x true) p (k_procs k))).
  assert (Ep0 : k_procs k0 !! p = Some (set_locked x true)) by (unfold k0; cbn; by rewrite lookup_alter_eq, Ep).
  assert (Hliv : living k0 p = living k p) by (by apply (living_locked k p x)).
  destruct (recv_quiet k0 u v info Ev Hst Hs) as (m & Em). exists m.
  unfold recv_sigs_process_level. rewrite (kbind_ret _ _ _ _ _ (get_task_ret o t k Et)). fold p.
  rewrite (with_tg_run p x _ k tt (upd_tasks k0 (alter (fun t => set_sig t m) u (k_tasks k0)))); [|done|done| |done]; [done|].
  fold k0. rewrite (kbind_ret _ _ _ _ _ (tg_iter_run k0 p _ Ep0)), Hliv.
  rewrite (kbind_ret _ _ _ _ _ (first_unblocked_tasks _ _ k k0 eq_refl r Er)).
  destruct Hru as [->|(-> & Hh)]; [exact Em|]. rewrite Hh. exact Em.
Qed.

End Receive.

(** A signal to a process whose first thread has exited is lost.  The thread chosen
    is the first in the group that does not block the signal, and exited threads stay
    in the group until the process is reaped: when that thread is a zombie, any
    signal to the process, SIGKILL included, only lands in the queue of the dead
    thread; no task is woken and no other task changes. *)
Theorem zombie_takes_signal {M : Type} (k : Kernel M) o t x u v rest info
    (Et : k_tasks k !! o = Some t) (Ep : k_procs k !! t_proc t = Some x) (Hl : p_tg_locked x = false)
    (Hfirst : living k (t_proc t) = u :: rest) (Ev : k_tasks k !! u = Some v) (Hz : t_status v = Zombie)
    (Hunb : contain_sig (blocked_sigs (t_sig v)) (si_signo info) = false) (Hs : si_signo info <= SIGRTMAX) :
  exists k', recv_sigs_process_level o info k = Ret (tt, k') /\ k_woken k' = k_woken k /\
    (forall w, w <> u -> k_tasks k' !! w = k_tasks k !! w) /\
    exists v', k_tasks k' !! u = Some v' /\ t_status v' = Zombie.
Proof.
  destruct (recv_process_run k o t x u v info Et Ep Hl) as (m & E); [|done|congruence|done|].
  { exists (Some u). rewrite Hfirst. cbn. rewrite (kbind_ret _ _ _ _ _ (get_task_ret u v k Ev)), Hunb. auto. }
  eexists. split; [exact E|]. split; [done|]. cbn. split.
  - intros w Hw. by rewrite lookup_alter_ne.
  - rewrite lookup_alter_eq, Ev. cbn. eauto.
Qed.

(** ** Stopping *)

Section Stop.
Context {M : Type} {C : ConstantsHal} {UM : UserMemory M}.
Implicit Types k : Kernel M.

Definition stop_task (t : Task) : Task :=
  set_sig (set_status t Stopped) (set_wake_up_sigs (t_sig t) (sig_bit SIGCONT)).

Definition stop_all (l : list Z) (m : gmap Z Task) : gmap Z Task := foldl (fun m u => alter stop_task u m) m l.

Lemma stop_iter l k :
  kiter (fun u => _ ← mod_task u (fun t => set_status t Stopped);
                  mod_task u (fun t => set_sig t (set_wake_up_sigs (t_sig t) (sig_bit SIGCONT)))) l k =
    Ret (tt, upd_tasks k (stop_all l (k_tasks k))).
Proof.
  revert k. induction l as [|u l IH]; intros k; [by destruct k|]. cbn [kiter]. rewrite kbind_run, kbind_run. cbn -[mbind kiter].
  rewrite IH. cbn. do 3 f_equal. unfold stop_all. cbn. f_equal. apply map_eq. intros j.
  destruct (decide (j = u)) as [->|Hne]; [|by rewrite !lookup_alter_ne]. rewrite !lookup_alter_eq.
  by destruct (k_tasks k !! u).
Qed.

Lemma stop_all_lookup l m u : stop_all l m !! u = None <-> m !! u = None.
Proof.
  revert m. induction l as [|w l IH]; intros m; [done|].
  change (stop_all (w :: l) m) with (stop_all l (alter stop_task w m)). rewrite IH.
  destruct (decide (u = w)) as [->|Hne]; [rewrite lookup_alter_eq; by destruct (m !! w)|by rewrite lookup_alter_ne].
Qed.

Lemma stop_all_status l m u v : stop_all l m !! u = Some v ->
  exists w, m !! u = Some w /\ t_proc v = t_proc w /\ t_status v = if bool_decide (u ∈ l) then Stopped else t_status w.
Proof.
  revert m. induction l as [|y l IH]; intros m E; [by exists v|].
  change (stop_all (y :: l) m) with (stop_all l (alter stop_task y m)) in E. apply IH in E as (w & Ew & Hp & Hs).
  destruct (decide (u = y)) as [->|Hne].
  - rewrite lookup_alter_eq in Ew. destruct (m !! y) as [w0|] eqn:E0; [|done]. cbn in Ew. injection Ew as <-. exists w0.
    rewrite (bool_decide_eq_true_2 (y ∈ y :: l)) by left. split; [done|]. split; [done|].
    rewrite Hs. by case_bool_decide.
  - rewrite lookup_alter_ne in Ew by done. exists w. split; [done|]. split; [done|]. rewrite Hs.
    by rewrite (bool_decide_ext (u ∈ y :: l) (u ∈ l)) by (rewrite elem_of_cons; naive_solver).
Qed.

Lemma stop_run k o t x signo : k_tasks k !! o = Some t -> k_procs k !! t_proc t = Some x -> p_tg_locked x = false ->
  run_handler o Stop signo k = Ret (tt, upd_tasks k (stop_all (living k (t_proc t)) (k_tasks k))).
Proof.
  intros Et Ep Hl. unfold run_handler. rewrite (kbind_ret _ _ _ _ _ (get_task_ret o t k Et)).
  set (k0 := upd_procs k (alter (fun x => set_locked x true) (t_proc t) (k_procs k))).
  assert (Ep0 : k_procs k0 !! t_proc t = Some (set_locked x true)) by (unfold k0; cbn; by rewrite lookup_alter_eq, Ep).
  rewrite (with_tg_run (t_proc t) x _ k tt (upd_tasks k0 (stop_all (living k (t_proc t)) (k_tasks k0)))); [|done|done| |done]; [done|].
  assert (Hliv : living k0 (t_proc t) = living k (t_proc t)) by (by apply (living_locked k _ x)).
  fold k0. rewrite (kbind_ret _ _ _ _ _ (tg_iter_run k0 _ _ Ep0)), Hliv. apply stop_iter.
Qed.

Lemma living_tasks k m p : (forall u, m !! u = None <-> k_tasks k !! u = None) -> living (upd_tasks k m) p = living k p.
Proof.
  intros Hm. unfold living. cbn. destruct (k_procs k !! p) as [x|]; [|done]. apply list_filter_iff. intros u.
  unfold upgrade. cbn. rewrite !bool_decide_eq_true, <- !not_eq_None_Some. by rewrite Hm.
Qed.

End Stop.

(** A stop is for ever, and it revives the dead.  The default action of the stop
    signals marks every thread of the group stopped, those that have exited too, so
    that a dead leader is no zombie any more and cannot be reaped.  And a stopped
    thread is not woken by any signal to the process: [recv_sigs] wakes interruptable
    threads alone, so neither SIGCONT nor SIGKILL ends the stop. *)
Theorem stopped_for_ever {M : Type} {C : ConstantsHal} {UM : UserMemory M} (k : Kernel M) o t x signo
    (Et : k_tasks k !! o = Some t) (Ep : k_procs k !! t_proc t = Some x) (Hl : p_tg_locked x = false)
    (Ho : o ∈ living k (t_proc t)) :
  exists k1, run_handler o Stop signo k = Ret (tt, k1) /\
    (forall u v, u ∈ living k (t_proc t) -> k_tasks k1 !! u = Some v -> t_status v = Stopped) /\
    forall info, si_signo info <= SIGRTMAX ->
      exists k2, recv_sigs_process_level o info k1 = Ret (tt, k2) /\ k_woken k2 = k_woken k1 /\
        forall u v, u ∈ living k (t_proc t) -> k_tasks k2 !! u = Some v -> t_status v = Stopped.
Proof.
  set (p := t_proc t) in *. set (k1 := upd_tasks k (stop_all (living k p) (k_tasks k))).
  assert (Hst : forall u v, u ∈ living k p -> k_tasks k1 !! u = Some v -> t_status v = Stopped).
  { intros u v Hu Ev. apply stop_all_status in Ev as (w & _ & _ & Hs). by rewrite bool_decide_eq_true_2 in Hs. }
  assert (Hliv : living k1 p = living k p) by (apply living_tasks; intros u; apply stop_all_lookup).
  exists k1. split; [by apply (stop_run k o t x)|]. split; [exact Hst|]. intros info Hs.
  destruct (k_tasks k1 !! o) as [t1|] eqn:Et1; [|apply stop_all_lookup in Et1; congruence].
  destruct (stop_all_status _ _ _ _ Et1) as (w & Ew & Hp & _). rewrite Et in Ew. injection Ew as <-.
  destruct (chosen_exists k1 p (si_signo info)) as (u & Hu & Hch); [rewrite Hliv; by intros E; rewrite E in Ho; apply elem_of_nil in Ho|].
  destruct (living_exists k1 p u Hu) as (v & Ev). rewrite Hliv in Hu.
  destruct (recv_process_run k1 o t1 x u v info Et1) as (m & E); [by rewrite Hp|done|by rewrite Hp|done|rewrite (Hst u v) by done; done|done|].
  eexists. split; [exact E|]. split; [done|]. intros u' v' Hu' Ev'. cbn in Ev'.
  destruct (decide (u' = u)) as [->|Hne].
  - rewrite lookup_alter_eq in Ev'. apply fmap_Some in Ev' as (w & Ew & ->). cbn. by apply (Hst u w).
  - rewrite lookup_alter_ne in Ev' by done. by apply (Hst u' v').
Qed.

(** ** Calls that stop the kernel *)

Section Panics.
Context {M : Type} {C : ConstantsHal} {UM : UserMemory M} {H : SigHandlers}.
Implicit Types k : Kernel M.

Lemma with_tg_locked {A} p x (m : kern M A) k : k_procs k !! p = Some x -> p_tg_locked x = true -> with_tg p m k = Panic.
Proof. intros Ep Hl. unfold with_tg. by rewrite (kbind_ret _ _ _ _ _ (get_proc_ret p x k Ep)), Hl. Qed.

Lemma with_tg_panic {A} p x (m : kern M A) k : k_procs k !! p = Some x -> p_tg_locked x = false ->
  m (upd_procs k (alter (fun x => set_locked x true) p (k_procs k))) = Panic -> with_tg p m k = Panic.
Proof.
  intros Ep Hl Em. unfold with_tg. rewrite (kbind_ret _ _ _ _ _ (get_proc_ret p x k Ep)), Hl, kbind_run.
  cbn -[mbind]. by rewrite (kbind_panic _ _ _ Em).
Qed.

Lemma kiter_panic {A} (f : A -> kern M unit) l u k : u ∈ l -> f u k = Panic ->
  (forall w, w ∈ l -> f w k = Ret (tt, k) \/ f w k = Panic) -> kiter f l k = Panic.
Proof.
  induction l as [|w l IH]; intros Hu Eu Hall; [by apply elem_of_nil in Hu|]. cbn [kiter].
  destruct (Hall w) as [E|E]; [left| |by apply kbind_panic]. rewrite (kbind_ret _ _ _ _ _ E).
  apply elem_of_cons in Hu as [->|Hu]; [congruence|]. apply IH; [done|done|]. intros y Hy. apply Hall. by right.
Qed.

(** An exit while somebody holds the lock of the group. *)
Lemma do_exit_locked k u v x code : k_tasks k !! u = Some v -> k_procs k !! t_proc v = Some x -> p_tg_locked x = true ->
  do_exit u code k = if bool_decide (t_status v = Zombie) then Ret (tt, k) else Panic.
Proof.
  intros Ev Ex Hl. unfold do_exit. rewrite (kbind_ret _ _ _ _ _ (get_task_ret u v k Ev)).
  case_bool_decide; [done|]. destruct (t_tid v =? INITPROC_PID); [done|].
  rewrite kbind_run. cbn -[mbind with_tg]. apply kbind_panic. by apply (with_tg_locked _ x).
Qed.

(** A group with a member that no longer exists. *)
Lemma signal_dead_panics o g signo pid wanted u k : keeps pid -> k_tasks k !! u = None -> u ∈ g ->
  signal_group o g signo pid wanted k = Panic.
Proof.
  intros Hpid. unfold signal_group. set (f := fun w : Z => _ : kern M unit).
  assert (Hk : forall w, keeps (f w)) by (intros w; unfold f; keep).
  revert k. induction g as [|w g IH]; intros k Hu Hin; [by apply elem_of_nil in Hin|]. cbn [kiter].
  destruct (f w k) as [[[] k']|] eqn:E; [|by apply kbind_panic]. rewrite (kbind_ret _ _ _ _ _ E).
  apply elem_of_cons in Hin as [->|Hin].
  - unfold f in E. rewrite kbind_run in E. cbn -[mbind] in E. unfold upgrade in E. rewrite Hu in E. done.
  - apply IH; [|done]. destruct (Hk w k _ _ E) as (Ht & _). apply (f_equal (fun m => m !! u)) in Ht.
    rewrite !lookup_fmap, Hu in Ht. by destruct (k_tasks k' !! u).
Qed.

Lemma tm_get_run k tid : tm_get_task tid k = Ret (k_tm k !! tid, k).
Proof. done. Qed.

Lemma pg_get_run k pgid : pg_get_group pgid k = Ret (k_groups k !! pgid, k).
Proof. done. Qed.

Lemma task_pid_leader k o t : k_tasks k !! o = Some t -> t_is_leader t = true -> task_pid o k = Ret (t_tid t, k).
Proof. intros Et Hl. unfold task_pid. by rewrite (kbind_ret _ _ _ _ _ (get_task_ret o t k Et)), Hl. Qed.

Lemma task_pgid_run k o t x : k_tasks k !! o = Some t -> k_procs k !! t_proc t = Some x -> task_pgid o k = Ret (p_pgid x, k).
Proof.
  intros Et Ep. unfold task_pgid. rewrite (kbind_ret _ _ _ _ _ (get_task_ret o t k Et)).
  by rewrite (kbind_ret _ _ _ _ _ (get_proc_ret _ x k Ep)).
Qed.

End Panics.

(** A thread that replaces its program stops the kernel when its process has
    another thread.  [exec] ends the other threads while it holds the lock of the
    thread group, and ending a thread takes that lock: whenever the group has a
    living thread besides the caller, the call panics on the lock it holds. *)
Theorem exec_with_threads_panics {M : Type} {C : ConstantsHal} {UM : UserMemory M} {H : SigHandlers} (k k1 : Kernel M) o t x u v vm
    (Hmm : task_mm_release o k = Ret (tt, k1)) (Et : k_tasks k1 !! o = Some t)
    (Ep : k_procs k1 !! t_proc t = Some x) (Hl : p_tg_locked x = false)
    (Hu : u ∈ living k1 (t_proc t)) (Ev : k_tasks k1 !! u = Some v) (Hother : t_tid v <> t_tid t) (Hz : t_status v <> Zombie)
    (Hgroup : forall w y, w ∈ living k1 (t_proc t) -> k_tasks k1 !! w = Some y -> t_proc y = t_proc t) :
  exec o (Ok vm) k = Panic.
Proof.
  unfold exec. rewrite (kbind_ret _ _ _ _ _ Hmm), (kbind_ret _ _ _ _ _ (get_task_ret o t k1 Et)).
  apply kbind_panic. apply (with_tg_panic _ x); [done|done|].
  set (k0 := upd_procs k1 (alter (fun x => set_locked x true) (t_proc t) (k_procs k1))).
  assert (Ep0 : k_procs k0 !! t_proc t = Some (set_locked x true)) by (unfold k0; cbn; by rewrite lookup_alter_eq, Ep).
  assert (Hliv : living k0 (t_proc t) = living k1 (t_proc t)) by (by apply (living_locked k1 _ x)).
  rewrite (kbind_ret _ _ _ _ _ (tg_iter_run k0 _ _ Ep0)), Hliv.
  assert (Hone : forall w y, w ∈ living k1 (t_proc t) -> k_tasks k1 !! w = Some y ->
    do_exit w 0 k0 = if bool_decide (t_status y = Zombie) then Ret (tt, k0) else Panic).
  { intros w y Hw Ew. apply (do_exit_locked k0 w y (set_locked x true)); [done| |done]. by rewrite (Hgroup w y). }
  apply (kiter_panic _ _ u); [done| |].
  - rewrite (kbind_ret _ _ _ _ _ (get_task_ret u v k0 Ev)). destruct (Z.eqb_spec (t_tid v) (t_tid t)); [done|]. cbn.
    rewrite (Hone u v) by done. by rewrite bool_decide_eq_false_2.
  - intros w Hw. destruct (living_exists k1 _ w Hw) as (y & Ew). rewrite (kbind_ret _ _ _ _ _ (get_task_ret w y k0 Ew)).
    destruct (negb _); [|by left]. rewrite (Hone w y) by done. case_bool_decide; auto.
Qed.

(** Three more calls any task can stop the kernel with: setting the group of a
    process that does not exist; installing the error value as a handler; and
    signalling its own process group when a member of the group has been reaped,
    because groups keep references to dropped tasks and the call unwraps them. *)
Theorem process_calls_panic {M : Type} {UM : UserMemory M} {H : SigHandlers} (k : Kernel M) o t x
    (Et : k_tasks k !! o = Some t) (Ep : k_procs k !! t_proc t = Some x) :
  (forall pid pgid, pid <> 0 -> k_tm k !! pid = None -> sys_setpgid o pid pgid k = Panic) /\
  (forall signo action a k1, 0 <= signo <= SIGRTMAX -> action <> 0 ->
    load_sigaction (t_vm t) action k = Ret (a, k1) -> sa_handler a = SIG_ERR -> sys_rt_sigaction o signo action 0 k = Panic) /\
  (forall signo g u, 0 < signo < SIGRTMAX -> k_groups k !! p_pgid x = Some g -> u ∈ g -> k_tasks k !! u = None ->
    sys_kill o 0 signo k = Panic).
Proof.
  split; [|split].
  - intros pid pgid Hp Htm. unfold sys_setpgid. apply kbind_panic. destruct (Z.eqb_spec pid 0); [done|].
    by rewrite (kbind_ret _ _ _ _ _ (tm_get_run k pid)), Htm.
  - intros signo action a k1 Hs Ha Hload Herr. unfold sys_rt_sigaction.
    destruct (Z.ltb_spec signo 0), (Z.ltb_spec SIGRTMAX signo); try lia. cbn [orb].
    rewrite (kbind_ret _ _ _ _ _ (get_task_ret o t k Et)). cbn -[mbind load_sigaction]. rewrite kbind_run. cbn -[mbind load_sigaction].
    apply kbind_panic. destruct (Z.eqb_spec action 0); [done|]. rewrite (kbind_ret _ _ _ _ _ Hload). rewrite Herr. done.
  - intros signo g u Hs Hg Hu Hd. unfold sys_kill. destruct (Z.eqb_spec signo 0); [lia|].
    destruct (Z.ltb_spec signo 0), (Z.leb_spec SIGRTMAX signo); try lia. cbn [orb].
    rewrite (kbind_ret _ _ _ _ _ (task_pgid_run k o t x Et Ep)). cbn -[mbind signal_group pg_get_group].
    rewrite (kbind_ret _ _ _ _ _ (pg_get_run k _)), Hg, kbind_run. cbn -[mbind signal_group]. apply kbind_panic. apply (signal_dead_panics o g signo _ _ u); [keep|done|done].
Qed.

(** A task can stop the kernel by sending signal 0 to a thread.  [sys_tkill] queues
    it like any other signal, and before the thread returns to user mode
    [check_and_handle] takes it from the queue and fails its assertion. *)
Theorem tkill_zero_panics {M : Type} {C : ConstantsHal} {UM : UserMemory M} {H : SigHandlers} ucontext siginfo trampoline
    (k : Kernel M) o t tid u v
    (Et : k_tasks k !! o = Some t) (Hleader : t_is_leader t = true) (Htm : k_tm k !! tid = Some u) (Htid : 0 <= tid)
    (Ev : k_tasks k !! u = Some v) (Hst : t_status v <> Interruptable) (Hempty : pending_sigs (t_sig v) = [])
    (Hbit : contain_sig (bitmap (t_sig v)) 0 = false) (Hunb : contain_sig (blocked_sigs (t_sig v)) 0 = false) :
  exists k1, sys_tkill o tid 0 k = Ret (Ok 0, k1) /\
    forall n intr a0 r, check_and_handle ucontext siginfo trampoline (S n) u intr a0 r k1 = Panic.
Proof.
  set (info := mkInfo 0 SI_TKILL (Some (t_tid t))).
  set (m := with_queues (t_sig v) [info] (pending_rt_sigs (t_sig v)) (add_sig (bitmap (t_sig v)) 0)).
  assert (Em : sig_receive (t_sig v) info = Ret m) by (unfold sig_receive; cbn; by rewrite Hbit, Hempty).
  exists (upd_tasks k (alter (fun t => set_sig t m) u (k_tasks k))). split.
  - unfold sys_tkill. destruct (Z.ltb_spec tid 0); [lia|]. cbn -[mbind recv_sigs tm_get_task].
    rewrite (kbind_ret _ _ _ _ _ (tm_get_run k tid)), Htm, (kbind_ret _ _ _ _ _ (task_pid_leader k o t Et Hleader)), kbind_run. fold info.
    unfold recv_sigs. rewrite (kbind_ret _ _ _ _ _ (get_task_ret u v k Ev)), kbind_run. unfold klift. rewrite Em. cbn.
    by rewrite (bool_decide_eq_false_2 _ Hst), andb_false_r.
  - intros n intr a0 r. cbn [check_and_handle].
    rewrite (kbind_ret _ _ _ (set_sig v m) _) by (apply get_task_ret; cbn; by rewrite lookup_alter_eq, Ev).
    rewrite kbind_run. unfold klift, dequeue_one. cbn -[mbind]. unfold deferred. cbn -[mbind]. rewrite Hunb. done.
Qed.

(** A clone that fails leaves its task behind.  When the tid cannot be written for
    the parent, [sys_clone] returns EINVAL with every effect of the fork still there:
    the new task is in the task manager, among the children and in its group, but it
    was not spawned, so it never runs, never exits and can never be reaped. *)
Theorem clone_error_keeps_task {M : Type} {UM : UserMemory M} {H : SigHandlers} vm_fork (k k1 : Kernel M) o t n new flags p c now m
    (Hfit : Z.land flags (wnot 0xff) < 2 ^ 32) (Hset : contains (Z.land flags (wnot 0xff)) CLONE_PARENT_SETTID = true)
    (Hfork : fork vm_fork o (Z.land flags (wnot 0xff)) now k = Ret (n, k1))
    (En : k_tasks k1 !! n = Some new) (Et : k_tasks k1 !! o = Some t)
    (Hbad : ensure_write (k_mem k1) (t_vm t) p 4 = Ret (false, m)) :
  sys_clone vm_fork o flags p c now k = Ret (Err EINVAL, upd_mem k1 m (k_fm k1)).
Proof.
  unfold sys_clone. rewrite (proj2 (Z.leb_gt _ _) Hfit), (kbind_ret _ _ _ _ _ Hfork).
  rewrite (kbind_ret _ _ _ _ _ (get_task_ret n new k1 En)), (kbind_ret _ _ _ _ _ (get_task_ret o t k1 Et)), Hset.
  rewrite kbind_run. unfold put_u32. rewrite kbind_run. cbn -[mbind ensure_write]. rewrite kbind_run. unfold klift.
  by rewrite Hbad.
Qed.

(** ** Reaping a child *)

Section Reap.
Context {M : Type} {C : ConstantsHal} {UM : UserMemory M}.
Implicit Types k : Kernel M.

Lemma with_tg_ret {A} p x (m : kern M A) k r k1 : k_procs k !! p = Some x -> p_tg_locked x = false ->
  m (upd_procs k (alter (fun x => set_locked x true) p (k_procs k))) = Ret (r, k1) ->
  with_tg p m k = Ret (r, upd_procs k1 (alter (fun x => set_locked x false) p (k_procs k1))).
Proof.
  intros Ep Hl Em. unfold with_tg. rewrite (kbind_ret _ _ _ _ _ (get_proc_ret p x k Ep)), Hl, kbind_run.
  cbn -[mbind]. by rewrite (kbind_ret _ _ _ _ _ Em).
Qed.

(** The threads of a child with one thread leave the task manager. *)
Lemma reap_group k p x c ct : k_procs k !! p = Some x -> p_tg_locked x = false -> living k p = [c] ->
  k_tasks k !! c = Some ct -> t_tid ct <> INITPROC_PID ->
  with_tg p (l ← tg_iter p;
    _ ← kiter (fun thread => u ← get_task thread; _ ← tm_remove_task (t_tid u); if thread =? c then mret tt else release thread) l;
    tg_clear p) k =
  Ret (tt, upd_procs (upd_tm k (delete (t_tid ct) (k_tm k)))
    (<[p := set_tg x ∅ 0 (p_group_exiting x) (p_group_exit_code x)]> (k_procs k))).
Proof.
  intros Ep Hl Hliv Ec Hne. erewrite with_tg_ret; [|exact Ep|exact Hl|].
  2: { set (k0 := upd_procs k _).
       assert (Ep0 : k_procs k0 !! p = Some (set_locked x true)) by (unfold k0; cbn; by rewrite lookup_alter_eq, Ep).
       assert (Hliv0 : living k0 p = [c]) by (rewrite <- Hliv; by apply (living_locked k p x)).
       rewrite (kbind_ret _ _ _ _ _ (tg_iter_run k0 p _ Ep0)), Hliv0. cbn [kiter].
       assert (Ec0 : k_tasks k0 !! c = Some ct) by done.
       rewrite kbind_run, kbind_run, (kbind_ret _ _ _ _ _ (get_task_ret c ct k0 Ec0)). unfold tm_remove_task.
       rewrite (proj2 (Z.eqb_neq _ _) Hne), kbind_run. cbn -[mbind tg_clear]. rewrite Z.eqb_refl. cbn. reflexivity. }
  f_equal. f_equal. unfold upd_procs, upd_tm. cbn. f_equal. apply map_eq. intros j. destruct (decide (j = p)) as [->|Hj].
  - rewrite lookup_insert_eq, !lookup_alter_eq, Ep. cbn. unfold set_locked, set_tg. cbn. by rewrite Hl.
  - by rewrite lookup_insert_ne, !lookup_alter_ne.
Qed.

Lemma existsb_map_false {A} (f : Z * A -> bool) (m : gmap Z A) : (forall i x, m !! i = Some x -> f (i, x) = false) ->
  existsb f (map_to_list m) = false.
Proof.
  intros Hf. destruct (existsb f (map_to_list m)) eqn:E; [|done]. apply existsb_exists in E as ([i x] & Hin & Hx).
  apply list_elem_of_In, elem_of_map_to_list in Hin. by rewrite Hf in Hx.
Qed.

(** What nothing owns. *)
Lemma owned_false k c ct : c <> k_init k -> k_tasks k !! c = Some ct -> t_future ct = false ->
  (forall t, k_tm k !! t <> Some c) -> (forall p x t, k_procs k !! p = Some x -> p_children x !! t <> Some c) -> owned k c = false.
Proof.
  intros Hi Ec Hf Htm Hch. unfold owned. rewrite (proj2 (Z.eqb_neq _ _) Hi), Ec, Hf. cbn. rewrite orb_false_r.
  apply orb_false_iff. split; apply existsb_map_false.
  - intros t u E. cbn. apply Z.eqb_neq. intros ->. by apply (Htm t).
  - intros p x E. cbn. apply existsb_map_false. intros t u Eu. cbn. apply Z.eqb_neq. intros ->. by apply (Hch p x t).
Qed.

Lemma release_last k c ct : k_tasks k !! c = Some ct -> owned k c = false ->
  t_tid ct < tids_current (k_tids k) -> t_tid ct ∉ tids_recycled (k_tids k) ->
  release c k = Ret (tt, upd_tids (upd_tasks k (delete c (k_tasks k)))
    (mkTids (tids_current (k_tids k)) (t_tid ct :: tids_recycled (k_tids k)))).
Proof.
  intros Ec Ho Hlt Hnr. unfold release, tids_dealloc.
  by rewrite Ec, Ho, (proj2 (Z.ltb_lt _ _) Hlt), (bool_decide_eq_false_2 _ Hnr).
Qed.

Lemma pg_remove_run k o t x g : k_tasks k !! o = Some t -> k_procs k !! t_proc t = Some x -> k_groups k !! p_pgid x = Some g ->
  pg_remove o k = Ret (tt, upd_groups k (<[p_pgid x := filter (fun u => upgrade u k = true /\ u = o) g]> (k_groups k))).
Proof.
  intros Et Ex Eg. unfold pg_remove. rewrite (kbind_ret _ _ _ _ _ (get_task_ret o t k Et)).
  rewrite (kbind_ret _ _ _ _ _ (get_proc_ret _ x k Ex)), kbind_run. cbn -[mbind]. rewrite kbind_run. unfold klift. by rewrite Eg.
Qed.

End Reap.

(** A dead child with one thread, whose parent waits for it. *)
Section ReapOne.
Context {M : Type} {C : ConstantsHal} {UM : UserMemory M} (k : Kernel M) (o : Z) (t : Task) (x : Proc)
  (c : Z) (ct : Task) (y : Proc) (rec : TimeRecorder) (g : list Z).
Hypothesis (Hids : ids_ok k) (Et : k_tasks k !! o = Some t) (Ex : k_procs k !! t_proc t = Some x)
  (Ec : k_tasks k !! c = Some ct) (Ey : k_procs k !! t_proc ct = Some y) (Hother : t_proc ct <> t_proc t)
  (Hchild : p_children x !! t_tid ct = Some c) (Htid : INITPROC_PID < t_tid ct) (Hinit : c <> k_init k)
  (Hz : t_status ct = Zombie) (Halive : p_alive y = 0) (Hl : p_tg_locked y = false) (Hone : living k (t_proc ct) = [c])
  (Hfuture : t_future ct = false)
  (Hparent : forall p z u, k_procs k !! p = Some z -> p_children z !! u = Some c -> p = t_proc t /\ u = t_tid ct)
  (Htime : update_child_time (t_time ct) (time_pair (t_time ct)) = Ret rec) (Hg : k_groups k !! p_pgid x = Some g).

Lemma wait_select_one : wait_select o (t_tid ct) k = Ret (Ok (Some c), k).
Proof.
  unfold wait_select. rewrite (kbind_ret _ _ _ _ _ (get_task_ret o t k Et)), (kbind_ret _ _ _ _ _ (get_proc_ret _ x k Ex)).
  unfold INITPROC_PID in Htid. destruct (Z.eqb_spec (t_tid ct) (-1)), (Z.ltb_spec 0 (t_tid ct)); try lia.
  rewrite Hchild. unfold reapable. rewrite kbind_run, (kbind_ret _ _ _ _ _ (get_task_ret c ct k Ec)).
  rewrite (kbind_ret _ _ _ _ _ (get_proc_ret _ y k Ey)). cbn. by rewrite Hz, Halive.
Qed.

(** The states in between: after the time, the thread group, the children, the group. *)
Let k1 := upd_tasks k (alter (fun t => set_time t rec) c (k_tasks k)).
Let k2 := upd_procs (upd_tm k1 (delete (t_tid ct) (k_tm k1)))
  (<[t_proc ct := set_tg y ∅ 0 (p_group_exiting y) (p_group_exit_code y)]> (k_procs k1)).
Let k3 := upd_procs k2 (alter (fun p => set_children p (delete (t_tid ct) (p_children p))) (t_proc t) (k_procs k2)).
Let k4 := upd_groups k3 (<[p_pgid x := filter (fun u => upgrade u k3 = true /\ u = o) g]> (k_groups k3)).

Lemma reap_tasks : k_tasks k1 !! o = Some t /\ k_tasks k1 !! c = Some (set_time ct rec).
Proof.
  assert (Hoc : o <> c) by (intros ->; congruence).
  unfold k1. cbn. by rewrite lookup_alter_ne, lookup_alter_eq, Ec.
Qed.

Lemma reap_parent : k_procs k3 !! t_proc t = Some (set_children x (delete (t_tid ct) (p_children x))).
Proof. unfold k3. cbn. rewrite lookup_alter_eq, lookup_insert_ne by done. by rewrite Ex. Qed.

Lemma reap_living : living k1 (t_proc ct) = [c].
Proof.
  rewrite <- Hone. apply living_tasks. intros u. destruct (decide (u = c)) as [->|].
  - rewrite lookup_alter_eq, Ec. cbn. split; congruence.
  - by rewrite lookup_alter_ne.
Qed.

Lemma reap_unowned : owned k4 c = false.
Proof.
  apply (owned_false k4 c (set_time ct rec)); [done|apply reap_tasks|done| |].
  - intros u. unfold k4, k3, k2. cbn. intros (Hu & E)%lookup_delete_Some. apply (ids_tm k Hids) in E.
    unfold tid_of in E. rewrite Ec in E. cbn in E. congruence.
  - intros p z u E Eu. unfold k4 in E. cbn [k_procs upd_groups] in E. destruct (decide (p = t_proc t)) as [->|Hp].
    + rewrite reap_parent in E. injection E as <-. cbn in Eu. apply lookup_delete_Some in Eu as (Hu & Eu).
      by destruct (Hparent _ _ _ Ex Eu).
    + unfold k3, k2 in E. cbn in E. rewrite lookup_alter_ne in E by done. destruct (decide (p = t_proc ct)) as [->|Hp'].
      * rewrite lookup_insert_eq in E. injection E as <-. by destruct (Hparent _ _ _ Ey Eu).
      * rewrite lookup_insert_ne in E by done. by destruct (Hparent _ _ _ E Eu).
Qed.

Lemma reap_one : reap o c 0 k = Ret (Ok (t_tid ct), upd_tids (upd_tasks k4 (delete c (k_tasks k4)))
  (mkTids (tids_current (k_tids k)) (t_tid ct :: tids_recycled (k_tids k)))).
Proof.
  destruct reap_tasks as [Et1 Ec1]. unfold reap. rewrite (kbind_ret _ _ _ _ _ (get_task_ret c ct k Ec)).
  rewrite kbind_run. unfold klift. rewrite Htime. cbn -[mbind with_tg tg_iter kiter tg_clear store_exit_code pg_remove release].
  rewrite kbind_run. cbn -[mbind with_tg tg_iter kiter tg_clear store_exit_code pg_remove release]. fold k1.
  rewrite (kbind_ret _ _ _ _ _ (get_task_ret o t k1 Et1)), kbind_run. cbn -[mbind with_tg tg_iter kiter tg_clear pg_remove release].
  rewrite (kbind_ret _ _ _ _ _ (reap_group k1 (t_proc ct) y c _ Ey Hl reap_living Ec1 ltac:(cbn; lia))).
  rewrite kbind_run. cbn -[mbind pg_remove release]. fold k1 k2 k3.
  rewrite (kbind_ret _ _ _ _ _ (pg_remove_run k3 o t _ g Et1 reap_parent Hg)). cbn [p_pgid set_children]. fold k4.
  assert (Hto : tid_of k c = Some (t_tid ct)) by (unfold tid_of; by rewrite Ec).
  destruct (ids_live k Hids c _ Hto) as (Hlt & Hnr & _).
  by rewrite (kbind_ret _ _ _ _ _ (release_last k4 c _ Ec1 reap_unowned Hlt Hnr)).
Qed.

Lemma reaped_groups : exists g', k_groups k4 !! p_pgid x = Some g' /\ forall u, u ∈ g' -> u = o.
Proof. unfold k4. cbn. rewrite lookup_insert_eq. eexists. split; [done|]. by intros u ((_ & ->) & _)%list_elem_of_filter. Qed.

End ReapOne.


(** ** Executions *)

(** The first process, whose address space is 4, forks a child (tid 2, task 8, process
    5), which makes a second thread (tid 3, task 9); and what some of them do then. *)
Definition demo_step : kop -> kern FlatMem unit :=
  kstep (C := riscv64) (fun m _ _ => Ret m) (fun _ _ => []) (fun _ => []) 0.

Definition demo_boot : Kernel FlatMem := boot 4 {[ (6, 0x1000) := SIG_ERR; (6, 0x1008) := 0; (6, 0x1010) := 0; (6, 0x1018) := 0 ]} 0.

Definition demo_run (ops : list kop) : Kernel FlatMem :=
  match kiter demo_step ops demo_boot with Ret r => r.2 | Panic => demo_boot end.

Definition demo_family : list kop :=
  [OStart 1; OFork 1 0 dur_zero; OSpawn 8; OStart 8; OFork 8 0x10D00 dur_zero; OSpawn 9; OStart 9].

Definition demo_child : list kop := [OStart 1; OFork 1 0 dur_zero; OSpawn 8; OStart 8].

Definition demo_task (k : Kernel FlatMem) (o : Z) : Task :=
  default (mkTask 0 None false false None recorder_new 0 0 Ready 0 0 0 sig_new false) (k_tasks k !! o).

Definition demo_proc (k : Kernel FlatMem) (p : Z) : Proc := default (proc_new None 0) (k_procs k !! p).

Lemma demo_run_ret ops : match kiter demo_step ops demo_boot with Ret _ => true | Panic => false end = true ->
  kiter demo_step ops demo_boot = Ret (tt, demo_run ops).
Proof. unfold demo_run. by destruct (kiter demo_step ops demo_boot) as [[[] k]|]. Qed.

Ltac demo := vm_compute; reflexivity.

(** The child and its thread exit and are reaped; the next child takes the tid again. *)
Definition demo_reuse : list kop :=
  demo_family ++ [OExit 8 0; OExit 9 0; ODone 8; ODone 9; OWait 1 (-1) 0 0; OFork 1 0 dur_zero].


(** The child's leader exits, its other thread runs on: SIGKILL does nothing. *)
Lemma zombie_takes_signal_witness :
  exists k', recv_sigs_process_level 9 (mkInfo SIGKILL SI_USER (Some 1)) (demo_run (demo_family ++ [OExit 8 0])) = Ret (tt, k') /\
    k_woken k' = [].
Proof.
  set (k := demo_run (demo_family ++ [OExit 8 0])).
  destruct (zombie_takes_signal k 9 (demo_task k 9) (demo_proc k 5) 8 (demo_task k 8) [9] (mkInfo SIGKILL SI_USER (Some 1)))
    as (k' & E & Hw & _); [demo|demo|demo|demo|demo|demo|demo|unfold SIGKILL, SIGRTMAX; cbn; lia|].
  exists k'. split; [exact E|]. rewrite Hw. demo.
Defined.

(** The same process is stopped by its second thread: the dead leader is stopped too. *)
Lemma stopped_for_ever_witness :
  exists k1, run_handler (C := riscv64) 9 Stop SIGSTOP (demo_run (demo_family ++ [OExit 8 0])) = Ret (tt, k1) /\
    (forall v, k_tasks k1 !! 8 = Some v -> t_status v = Stopped) /\
    exists k2, recv_sigs_process_level 9 (mkInfo SIGKILL SI_USER (Some 1)) k1 = Ret (tt, k2) /\
      forall v, k_tasks k2 !! 9 = Some v -> t_status v = Stopped.
Proof.
  set (k := demo_run (demo_family ++ [OExit 8 0])).
  assert (Hl : living k (t_proc (demo_task k 9)) = [8; 9]) by demo.
  destruct (stopped_for_ever (C := riscv64) k 9 (demo_task k 9) (demo_proc k 5) SIGSTOP) as (k1 & E & Hs & Hk);
    [demo|demo|demo|rewrite Hl; clear; set_solver|]. rewrite Hl in Hs, Hk.
  exists k1. split; [exact E|]. split; [intros v; apply Hs; clear; set_solver|].
  destruct (Hk (mkInfo SIGKILL SI_USER (Some 1))) as (k2 & E2 & _ & H2); [unfold SIGKILL, SIGRTMAX; cbn; lia|].
  exists k2. split; [exact E2|]. intros v. apply H2. clear; set_solver.
Defined.

Lemma exec_with_threads_panics_witness : exec (C := riscv64) 8 (Ok 20) (demo_run demo_family) = Panic.
Proof.
  set (k := demo_run demo_family).
  set (k1 := match task_mm_release (C := riscv64) 8 k with Ret r => r.2 | Panic => k end).
  assert (Hl : living k1 (t_proc (demo_task k1 8)) = [8; 9]) by demo.
  assert (H8 : k_tasks k1 !! 8 = Some (demo_task k1 8)) by demo.
  assert (H9 : k_tasks k1 !! 9 = Some (demo_task k1 9)) by demo.
  assert (Hd : t_status (demo_task k1 9) = Ready) by demo.
  assert (Ht : t_tid (demo_task k1 8) = 2 /\ t_tid (demo_task k1 9) = 3) by (split; demo).
  assert (Hp : t_proc (demo_task k1 9) = t_proc (demo_task k1 8)) by demo.
  apply (exec_with_threads_panics (C := riscv64) k k1 8 (demo_task k1 8) (demo_proc k1 5) 9 (demo_task k1 9));
    [demo|exact H8|demo|demo|rewrite Hl; clear; set_solver|exact H9|lia|rewrite Hd; discriminate|].
  intros w y Hw Ey. rewrite Hl in Hw. apply elem_of_cons in Hw as [Hw|Hw%list_elem_of_singleton]; rewrite Hw in Ey.
  - rewrite H8 in Ey. apply (inj Some) in Ey. rewrite <- Ey. reflexivity.
  - rewrite H9 in Ey. apply (inj Some) in Ey. rewrite <- Ey. exact Hp.
Defined.

(** The child installs the error value as the handler of SIGINT; the child moves
    process 77, which does not exist; and the first process joins the group of its
    child, which it has reaped, and signals the group. *)
Lemma process_calls_panic_witness :
  sys_setpgid 8 77 0 (demo_run demo_child) = Panic /\
  sys_rt_sigaction 8 2 0x1000 0 (demo_run demo_child) = Panic /\
  sys_kill 1 0 15 (demo_run (demo_child ++ [OSetpgid 8 0 0; OExit 8 0; ODone 8; OWait 1 2 0 0; OSetpgid 1 0 2])) = Panic.
Proof.
  set (k := demo_run demo_child).
  set (k' := demo_run _).
  destruct (process_calls_panic k 8 (demo_task k 8) (demo_proc k 5)) as (Hset & Hact & _); [demo|demo|].
  destruct (process_calls_panic k' 1 (demo_task k' 1) (demo_proc k' 2)) as (_ & _ & Hkill); [demo|demo|].
  split; [apply Hset; [lia|demo]|]. split.
  - apply (Hact 2 0x1000 (mkSa SIG_ERR 0 0 0) k); [unfold SIGRTMAX; lia|lia|demo|done].
  - apply (Hkill 15 [8; 1] 8); [unfold SIGRTMAX; lia|demo|clear; set_solver|demo].
Defined.

Lemma tkill_zero_panics_witness : exists k1, sys_tkill 1 2 0 (demo_run demo_child) = Ret (Ok 0, k1) /\
  check_and_handle (C := riscv64) (fun _ _ => []) (fun _ => []) 0 1 8 false 0 (mkRegs 0 0 0 0 0 0) k1 = Panic.
Proof.
  set (k := demo_run demo_child). assert (Hs : t_status (demo_task k 8) = Ready) by demo.
  destruct (tkill_zero_panics (C := riscv64) (fun _ _ => []) (fun _ => []) 0 k 1 (demo_task k 1) 2 8 (demo_task k 8))
    as (k1 & E & Hp); [demo|demo|demo|lia|demo|rewrite Hs; discriminate|demo|demo|demo|].
  exists k1. split; [exact E|apply Hp].
Defined.

(** The first process reaps its child, which has exited. *)
Definition demo_dead : list kop := demo_child ++ [OExit 8 0; ODone 8].


Definition after {A} (r : outcome (A * Kernel FlatMem)) : Kernel FlatMem := match r with Ret r => r.2 | Panic => demo_boot end.

Lemma after_ret {A} (x : A) r : match r with Ret r => Some r.1 | Panic => None end = Some x -> r = Ret (x, after r).
Proof. destruct r as [[y k]|]; [|done]. cbn. by intros [= ->]. Qed.

Lemma ret_eq {A} (x y : A) (k : Kernel FlatMem) : x = y -> mret (M := kern FlatMem) x k = Ret (y, k).
Proof. by intros ->. Qed.

(** The two orders of a wait that finds no dead child and of the child's exit. *)
Definition wait_race (late : bool) : outcome (wait_call * Kernel FlatMem) :=
  (r ← waitpid_begin 1 (-1) 0 0;
   _ ← (if late then _ ← waitpid_sleep 1; _ ← sys_exit (C := riscv64) 8 7; mret tt
        else _ ← sys_exit (C := riscv64) 8 7; waitpid_sleep 1);
   mret r) (demo_run demo_child).


(** The first process clones with a parent tid at an unmapped address: the child is
    there and has no future, and a wait for it sleeps. *)
Lemma clone_error_keeps_task_witness : exists k2,
  sys_clone (fun m _ _ => Ret m) 1 CLONE_PARENT_SETTID 0x5000 0 dur_zero (demo_run [OStart 1]) = Ret (Err EINVAL, k2) /\
  k_tm k2 !! 2 = Some 8 /\ t_future (demo_task k2 8) = false /\ p_children (demo_proc k2 2) !! 2 = Some 8 /\
  exists k3, waitpid_begin 1 2 0 0 k2 = Ret (WaitSleep, k3).
Proof.
  set (k := demo_run [OStart 1]).
  set (r := fork (fun m _ _ => Ret m) 1 (Z.land CLONE_PARENT_SETTID (wnot 0xff)) dur_zero k). set (k1 := after r).
  eexists. split.
  { apply (clone_error_keeps_task (fun m _ _ => Ret m) k k1 1 (demo_task k1 1) 8 (demo_task k1 8) CLONE_PARENT_SETTID 0x5000 0 dur_zero (k_mem k1));
      [demo|demo|exact (after_ret 8 r ltac:(demo))|demo|demo|demo]. }
  split; [demo|]. split; [demo|]. split; [demo|]. eexists. refine (after_ret WaitSleep (waitpid_begin 1 2 0 0 (upd_mem k1 (k_mem k1) (k_fm k1))) _). demo.
Defined.
