(* ===== verification/PageCache.v ===== *)
(** The page cache (os/src/fs/page), the cached inodes of tmpfs and of ext4
    (os/src/fs/tmpfs/inode.rs, os/src/fs/ext4/inode.rs) and their open files
    (tmpfs/file.rs, ext4/file.rs, vfs/file.rs).

    Bytes are numbers below 256 and buffers are lists of them.  A page is shared
    between the cache and whoever has it from there, so an update of a page is an
    update of the cache.  The ext4 library behind an inode is a parameter: the size of
    the file on disk, and reads and writes at an offset, each of which may fail. *)

From S2P Require Import Prelude HalConst Errno.

#[local] Open Scope Z_scope.

(** [length] in the integers. *)
Definition zlen {A} (l : list A) : Z := Z.of_nat (length l).
Definition ztake {A} (n : Z) (l : list A) : list A := take (Z.to_nat n) l.
Definition zdrop {A} (n : Z) (l : list A) : list A := drop (Z.to_nat n) l.

Section Cache.
Context {C : ConstantsHal}.

(** ** Pages *)

Record Page := mkPage { pg_dirty : bool; pg_data : list Z }.

Definition page_new : Page := mkPage false (replicate (Z.to_nat PAGE_SIZE) 0).

Definition page_write_at (p : Page) (offset : Z) (buf : list Z) : outcome (Z * Page) :=
  assert! offset <? PAGE_SIZE in
  let n := Z.min (PAGE_SIZE - offset) (zlen buf) in
  Ret (n, mkPage (pg_dirty p) (ztake offset (pg_data p) ++ ztake n buf ++ zdrop (offset + n) (pg_data p))).

(** The bytes copied to a buffer of the given length. *)
Definition page_read_at (p : Page) (offset len : Z) : outcome (list Z) :=
  assert! offset <? PAGE_SIZE in
  Ret (ztake (Z.min (PAGE_SIZE - offset) len) (zdrop offset (pg_data p))).

Definition set_dirty (p : Page) : Page := mkPage true (pg_data p).
Definition set_clean (p : Page) : Page := mkPage false (pg_data p).

(** ** The cache of an inode *)

Record PageCache := mkCache { pc_pages : gmap Z Page; pc_end : Z }.

Definition cache_new : PageCache := mkCache ∅ 0.

Definition get_page (c : PageCache) (offset : Z) : outcome (option Page) :=
  assert! offset mod PAGE_SIZE =? 0 in Ret (pc_pages c !! offset).

Definition insert_page (c : PageCache) (offset : Z) (p : Page) : outcome PageCache :=
  assert! offset mod PAGE_SIZE =? 0 in Ret (mkCache (<[offset := p]> (pc_pages c)) (pc_end c)).

Definition update_end (c : PageCache) (offset : Z) : PageCache := mkCache (pc_pages c) (Z.max (pc_end c) offset).

Definition page_offset (off : Z) : Z := off / PAGE_SIZE * PAGE_SIZE.

(** ** The inode of tmpfs *)

Record TmpInode := mkTmp { ti_size : Z; ti_cache : PageCache }.

Definition tmp_new : TmpInode := mkTmp 0 cache_new.

(** The page at an offset; a hole becomes a page of zeroes. *)
Definition tmp_page (c : PageCache) (offset : Z) : outcome (Page * PageCache) :=
  let! r := get_page c offset in
  match r with
  | Some p => Ret (p, c)
  | None => let! c := insert_page c offset page_new in Ret (page_new, c)
  end.

Definition tmp_read_page_at (i : TmpInode) (offset : Z) : outcome (option Page * TmpInode) :=
  if ti_size i <=? offset then Ret (None, i)
  else
    let! r := get_page (ti_cache i) offset in
    match r with
    | Some p => Ret (Some p, i)
    | None =>
        let! c := insert_page (ti_cache i) offset page_new in
        Ret (Some page_new, mkTmp (ti_size i) (update_end c (wadd offset PAGE_SIZE)))
    end.

(** The loop of [cache_read_at]: [out] are the bytes copied so far, [len] those still
    to fill; [None] when the fuel runs out. *)
Fixpoint tmp_read_loop (fuel : nat) (size : Z) (c : PageCache) (cur len total : Z) (out : list Z) :
    outcome (option (Z * list Z * PageCache)) :=
  match fuel with
  | O => Ret None
  | S fuel =>
      if len <=? 0 then Ret (Some (total, out, c))
      else if pc_end c <? cur then Ret (Some (total, out, c))
      else
        let! r := tmp_page c (page_offset cur) in
        let! bytes := page_read_at r.1 (cur mod PAGE_SIZE) len in
        let n := zlen bytes in
        if size <? wadd cur n then
          assert! cur <=? size in Ret (Some (total + (size - cur), out ++ bytes, r.2))
        else tmp_read_loop fuel size r.2 (wadd cur n) (len - n) (total + n) (out ++ bytes)
  end.

(** The number of bytes read and the bytes copied to the buffer, which may be more. *)
Definition tmp_read_at (i : TmpInode) (offset len : Z) : outcome (option (Z * list Z * TmpInode)) :=
  if ti_size i <=? offset then Ret (Some (0, [], i))
  else
    let! r := tmp_read_loop (S (Z.to_nat len)) (ti_size i) (ti_cache i) offset len 0 [] in
    Ret (match r with Some (n, out, c) => Some (n, out, mkTmp (ti_size i) c) | None => None end).

Fixpoint tmp_write_loop (fuel : nat) (i : TmpInode) (cur : Z) (buf : list Z) (total : Z) : outcome (option (Z * TmpInode)) :=
  match fuel with
  | O => Ret None
  | S fuel =>
      if zlen buf <=? 0 then Ret (Some (total, i))
      else
        let po := page_offset cur in
        let! r := tmp_page (ti_cache i) po in
        let! w := page_write_at r.1 (cur mod PAGE_SIZE) buf in
        let! c := insert_page r.2 po (set_dirty w.2) in
        let c := update_end c (wadd po w.1) in
        tmp_write_loop fuel (mkTmp (pc_end c) c) (wadd cur w.1) (zdrop w.1 buf) (total + w.1)
  end.

Definition tmp_write_at (i : TmpInode) (offset : Z) (buf : list Z) : outcome (option (Z * TmpInode)) :=
  tmp_write_loop (S (length buf)) i offset buf 0.

(** [(start..size).step_by(PAGE_SIZE)] *)
Definition step_by (start size : Z) : list Z :=
  map (fun k => start + k * PAGE_SIZE) (seqZ 0 ((size - start + PAGE_SIZE - 1) / PAGE_SIZE)).

Definition tmp_truncate (i : TmpInode) (size : Z) : outcome (Z * TmpInode) :=
  if ti_size i <? size then
    let! c := foldl (fun m off => let! c := m in insert_page c off page_new) (Ret (ti_cache i))
                    (step_by (page_offset (ti_size i)) size) in
    Ret (size, mkTmp size c)
  else Ret (size, i).

(** ** The inode of ext4 *)

(** What the library gives for the file of an inode: its size once it is open, and a
    seek followed by a read or a write; the errors are its own. *)
Class DiskFile (D : Type) := {
  df_size : D -> result Z Z;
  df_read : D -> Z -> Z -> result (list Z) Z;
  df_write : D -> Z -> list Z -> result D Z;
  df_truncate : D -> Z -> result (Z * D) Z;
}.

Context {D : Type} {DF : DiskFile D}.

Record Ext4Inode := mkExt4 { ei_disk : D; ei_cache : PageCache }.

(** [read_from]: a new page filled from the disk. *)
Definition page_read_from (d : D) (offset : Z) : outcome (Z * Page) :=
  assert! offset mod PAGE_SIZE =? 0 in
  match df_read d offset PAGE_SIZE with
  | Ok bytes => Ret (zlen bytes, mkPage false (bytes ++ zdrop (zlen bytes) (pg_data page_new)))
  | Err _ => Panic
  end.

Fixpoint ext4_read_loop (fuel : nat) (d : D) (file_size : Z) (c : PageCache) (cur len total : Z) (out : list Z) :
    outcome (option (Z * list Z * PageCache)) :=
  match fuel with
  | O => Ret None
  | S fuel =>
      if len <=? 0 then Ret (Some (total, out, c))
      else
        let max_end := Z.max (pc_end c) file_size in
        if max_end <=? cur then Ret (Some (total, out, c))
        else
          let po := page_offset cur in
          let! r := get_page c po in
          let! r := match r with
                    | Some p => Ret (p, c)
                    | None =>
                        let! f := page_read_from d po in
                        let! c := insert_page c po f.2 in
                        Ret (f.2, update_end c (wadd po f.1))
                    end in
          let! bytes := page_read_at r.1 (cur mod PAGE_SIZE) (Z.min (max_end - cur) len) in
          let n := zlen bytes in
          ext4_read_loop fuel d file_size r.2 (wadd cur n) (len - n) (total + n) (out ++ bytes)
  end.

(** An error of the library is returned; [None] when the fuel runs out. *)
Definition ext4_read_at (i : Ext4Inode) (offset len : Z) : outcome (option (result (Z * list Z) Z * Ext4Inode)) :=
  match df_size (ei_disk i) with
  | Err e => Ret (Some (Err e, i))
  | Ok file_size =>
      let! r := ext4_read_loop (S (Z.to_nat len)) (ei_disk i) file_size (ei_cache i) offset len 0 [] in
      Ret (match r with Some (n, out, c) => Some (Ok (n, out), mkExt4 (ei_disk i) c) | None => None end)
  end.

Fixpoint ext4_write_loop (fuel : nat) (d : D) (file_size : Z) (c : PageCache) (cur : Z) (buf : list Z) (total : Z) :
    outcome (option (Z * PageCache)) :=
  match fuel with
  | O => Ret None
  | S fuel =>
      if zlen buf <=? 0 then Ret (Some (total, c))
      else
        let po := page_offset cur in
        let! r := get_page c po in
        let! r := match r with
                  | Some p => Ret (p, c)
                  | None =>
                      let! p := if po <? file_size then let! f := page_read_from d po in Ret f.2 else Ret page_new in
                      let! c := insert_page c po p in
                      Ret (p, c)
                  end in
        let! w := page_write_at r.1 (cur mod PAGE_SIZE) buf in
        let! c := insert_page r.2 po (set_dirty w.2) in
        let c := update_end c (wadd (wadd po w.1) (cur mod PAGE_SIZE)) in
        ext4_write_loop fuel d file_size c (wadd cur w.1) (zdrop w.1 buf) (total + w.1)
  end.

Definition ext4_write_at (i : Ext4Inode) (offset : Z) (buf : list Z) : outcome (option (result Z Z * Ext4Inode)) :=
  match df_size (ei_disk i) with
  | Err e => Ret (Some (Err e, i))
  | Ok file_size =>
      let! r := ext4_write_loop (S (length buf)) (ei_disk i) file_size (ei_cache i) offset buf 0 in
      Ret (match r with Some (n, c) => Some (Ok n, mkExt4 (ei_disk i) c) | None => None end)
  end.

(** The size [getattr] reports for a regular file. *)
Definition ext4_size (i : Ext4Inode) : outcome Z :=
  match df_size (ei_disk i) with Ok s => Ret (Z.max (pc_end (ei_cache i)) s) | Err _ => Panic end.

Definition ext4_read_page_at (i : Ext4Inode) (offset : Z) : outcome (option Page * Ext4Inode) :=
  let! size := ext4_size i in
  if size <=? offset then Ret (None, i)
  else
    let! r := get_page (ei_cache i) offset in
    match r with
    | Some p => Ret (Some p, i)
    | None =>
        let! f := page_read_from (ei_disk i) offset in
        let! c := insert_page (ei_cache i) offset f.2 in
        Ret (Some f.2, mkExt4 (ei_disk i) (update_end c (wadd offset f.1)))
    end.

(** [truncate] works on the file alone; the cache is left as it is. *)
Definition ext4_truncate (i : Ext4Inode) (size : Z) : result Z Z * Ext4Inode :=
  match df_truncate (ei_disk i) size with
  | Ok (t, d) => (Ok t, mkExt4 d (ei_cache i))
  | Err e => (Err e, i)
  end.

Definition ext4_clean_cached (i : Ext4Inode) : Ext4Inode :=
  mkExt4 (ei_disk i) (mkCache (set_clean <$> pc_pages (ei_cache i)) (pc_end (ei_cache i))).

(** [drop]: the dirty pages go to the disk, from low to high offsets. *)
Definition flush_page (cend : Z) (d : D) (e : Z * Page) : outcome D :=
  if pg_dirty e.2 then
    match df_write d e.1 (ztake (Z.min (wsub cend e.1) PAGE_SIZE) (pg_data e.2)) with
    | Ok d => Ret d
    | Err _ => Panic
    end
  else Ret d.

Definition ext4_drop (i : Ext4Inode) : outcome D :=
  foldl (fun m e => let! d := m in flush_page (pc_end (ei_cache i)) d e) (Ret (ei_disk i)) (bt_iter (pc_pages (ei_cache i))).

End Cache.

(** ** Open files *)

Definition O_APPEND : Z := 0x400.

(** The position and the flags of an open file. *)
Record FileInner := mkFile { f_pos : Z; f_flags : Z }.

Definition set_pos (f : FileInner) (pos : Z) : FileInner := mkFile pos (f_flags f).

Inductive SeekFrom := SeekStart (off : Z) | SeekEnd (off : Z) | SeekCurrent (off : Z).

(** 64-bit numbers with a sign. *)
Definition to_i64 (z : Z) : Z := (z + 2 ^ 63) mod 2 ^ 64 - 2 ^ 63.
Definition i64_abs (z : Z) : Z := to_i64 (Z.abs z).

(** [seek] of a file of the given size, which only [SeekEnd] looks at. *)
Definition seek (f : FileInner) (size : Z) (from : SeekFrom) : result Z SysError * FileInner :=
  let go pos := (Ok pos, set_pos f pos) in
  match from with
  | SeekCurrent off =>
      if off <? 0 then
        if to_i64 (to_i64 (f_pos f) - i64_abs off) <? 0 then (Err EINVAL, f)
        else go (wsub (f_pos f) (wrap (i64_abs off)))
      else go (wadd (f_pos f) (wrap off))
  | SeekStart off => go off
  | SeekEnd off => if off <? 0 then go (wsub size (wrap (i64_abs off))) else go (wadd size (wrap off))
  end.

Section Files.
Context {C : ConstantsHal}.

(** [TmpFile::read] and [TmpFile::write]; a write to a file opened for appending moves
    to the end first. *)
Definition tmp_file_read (f : FileInner) (i : TmpInode) (len : Z) : outcome (option (Z * list Z * FileInner * TmpInode)) :=
  let! r := tmp_read_at i (f_pos f) len in
  match r with
  | None => Ret None
  | Some (n, out, i) =>
      match seek f 0 (SeekCurrent n) with
      | (Ok _, f) => Ret (Some (n, out, f, i))
      | (Err _, _) => Panic
      end
  end.

Definition tmp_file_write (f : FileInner) (i : TmpInode) (buf : list Z) : outcome (option (Z * FileInner * TmpInode)) :=
  let f := if contains (f_flags f) O_APPEND then set_pos f (ti_size i) else f in
  let! r := tmp_write_at i (f_pos f) buf in
  Ret (match r with Some (n, i) => Some (n, set_pos f (wadd (f_pos f) n), i) | None => None end).

Context {D : Type} {DF : DiskFile D}.

(** [Ext4File::read] and [Ext4File::write]; an error of the inode panics. *)
Definition ext4_file_read (f : FileInner) (i : Ext4Inode (D := D)) (len : Z) :
    outcome (option (Z * list Z * FileInner * Ext4Inode)) :=
  let! r := ext4_read_at i (f_pos f) len in
  match r with
  | None => Ret None
  | Some (Err _, _) => Panic
  | Some (Ok (n, out), i) =>
      match seek f 0 (SeekCurrent n) with
      | (Ok _, f) => Ret (Some (n, out, f, i))
      | (Err _, _) => Panic
      end
  end.

Definition ext4_file_write (f : FileInner) (i : Ext4Inode (D := D)) (buf : list Z) : outcome (option (Z * FileInner * Ext4Inode)) :=
  let! f := if contains (f_flags f) O_APPEND then let! s := ext4_size i in Ret (set_pos f s) else Ret f in
  let! r := ext4_write_at i (f_pos f) buf in
  match r with
  | None => Ret None
  | Some (Err _, _) => Panic
  | Some (Ok n, i) => Ret (Some (n, set_pos f (wadd (f_pos f) n), i))
  end.

End Files.
