(* ===== verification/PageCacheProofs.v ===== *)
(** The page cache is transparent: through it an ext4 file is the list of bytes a
    plain file would be, and dropping the inode puts that list on the disk; and what
    tmpfs does with the size of a file. *)

From S2P Require Import Prelude HalConst Errno PageCache.

#[local] Open Scope Z_scope.

(** ** Lists indexed by integers *)

Section Lists.
Context {A : Type}.
Implicit Types l : list A.

Definition zget l (i : Z) : option A := if 0 <=? i then l !! Z.to_nat i else None.

Lemma zlen_nonneg l : 0 <= zlen l.
Proof. unfold zlen. lia. Qed.

Lemma zlen_app l1 l2 : zlen (l1 ++ l2) = zlen l1 + zlen l2.
Proof. unfold zlen. rewrite length_app. lia. Qed.

Lemma zlen_ztake n l : 0 <= n -> zlen (ztake n l) = Z.min n (zlen l).
Proof. intros. unfold zlen, ztake. rewrite length_take. lia. Qed.

Lemma zlen_zdrop n l : 0 <= n -> zlen (zdrop n l) = Z.max 0 (zlen l - n).
Proof. intros. unfold zlen, zdrop. rewrite length_drop. lia. Qed.

Lemma zget_some l i : is_Some (zget l i) <-> 0 <= i < zlen l.
Proof.
  unfold zget, zlen. destruct (Z.leb_spec 0 i); [|split; [by intros []|lia]].
  rewrite lookup_lt_is_Some. lia.
Qed.

Lemma zget_in l i : 0 <= i < zlen l -> exists x, zget l i = Some x.
Proof. intros Hi. by apply zget_some in Hi. Qed.

Lemma zget_bounds l i x : zget l i = Some x -> 0 <= i < zlen l.
Proof. intros E. apply zget_some. eauto. Qed.

Lemma zget_none l i : zget l i = None <-> i < 0 \/ zlen l <= i.
Proof. rewrite eq_None_not_Some, zget_some. lia. Qed.

Lemma zget_ztake n l i : 0 <= n -> zget (ztake n l) i = if i <? n then zget l i else None.
Proof.
  intros Hn. unfold zget, ztake. destruct (Z.leb_spec 0 i); [|by case_if].
  destruct (Z.ltb_spec i n); [by rewrite lookup_take_lt by lia|]. rewrite lookup_take_ge; [done|lia].
Qed.

Lemma zget_zdrop n l i : 0 <= n -> 0 <= i -> zget (zdrop n l) i = zget l (n + i).
Proof.
  intros Hn Hi. unfold zget, zdrop. rewrite !(proj2 (Z.leb_le _ _)) by lia. rewrite lookup_drop. f_equal. lia.
Qed.

Lemma zget_app l1 l2 i : zget (l1 ++ l2) i = if i <? zlen l1 then zget l1 i else zget l2 (i - zlen l1).
Proof.
  unfold zget, zlen. destruct (Z.ltb_spec i (Z.of_nat (length l1))).
  - destruct (Z.leb_spec 0 i); [|done]. by rewrite lookup_app_l by lia.
  - rewrite !(proj2 (Z.leb_le _ _)) by lia. rewrite lookup_app_r by lia. f_equal. lia.
Qed.

Lemma zget_ext l1 l2 : (forall i, 0 <= i -> zget l1 i = zget l2 i) -> l1 = l2.
Proof.
  intros H. apply list_eq. intros i. specialize (H (Z.of_nat i) ltac:(lia)). unfold zget in H.
  rewrite (proj2 (Z.leb_le 0 (Z.of_nat i))), Nat2Z.id in H by lia. exact H.
Qed.

(** A piece of a list in two pieces. *)
Lemma ztake_zdrop_app k m off l : 0 <= k -> 0 <= m -> 0 <= off ->
  ztake k (zdrop off l) ++ ztake m (zdrop (off + k) l) = ztake (k + m) (zdrop off l).
Proof.
  intros Hk Hm Ho. unfold ztake, zdrop. rewrite (Z2Nat.inj_add off k), (Z2Nat.inj_add k m), <- drop_drop by lia.
  rewrite <- (take_drop (Z.to_nat k) (drop (Z.to_nat off) l)) at 3.
  destruct (le_lt_dec (Z.to_nat k) (length (drop (Z.to_nat off) l))).
  - rewrite take_app_add'; [done|rewrite length_take; lia].
  - rewrite (drop_ge (drop (Z.to_nat off) l)) by lia. rewrite !app_nil_r, take_nil, app_nil_r.
    rewrite (take_ge (take _ _)); [done|rewrite length_take; lia].
Qed.

Lemma zget_replicate n (x : A) i : zget (replicate n x) i = if (0 <=? i) && (i <? Z.of_nat n) then Some x else None.
Proof.
  unfold zget. destruct (Z.leb_spec 0 i); [cbn|done]. destruct (Z.ltb_spec i (Z.of_nat n)).
  - apply lookup_replicate_2. lia.
  - apply lookup_ge_None. rewrite length_replicate. lia.
Qed.

End Lists.

(** [buf] written over a file at an offset inside it. *)
Definition overlay (file : list Z) (off : Z) (buf : list Z) : list Z :=
  ztake off file ++ buf ++ zdrop (off + zlen buf) file.

Lemma zget_overlay file off buf i : 0 <= off <= zlen file ->
  zget (overlay file off buf) i = if (off <=? i) && (i <? off + zlen buf) then zget buf (i - off) else zget file i.
Proof.
  intros Hoff. pose proof (zlen_nonneg buf). unfold overlay.
  rewrite zget_app, zlen_ztake, Z.min_l by lia.
  destruct (Z.ltb_spec i off) as [Hi|Hi].
  - rewrite zget_ztake by lia. rewrite (proj2 (Z.ltb_lt _ _)) by lia. by rewrite (proj2 (Z.leb_gt _ _)) by lia.
  - rewrite (proj2 (Z.leb_le _ _)) by lia. cbn. rewrite zget_app. destruct (Z.ltb_spec (i - off) (zlen buf)).
    + by rewrite (proj2 (Z.ltb_lt _ _)) by lia.
    + rewrite (proj2 (Z.ltb_ge _ _)) by lia. rewrite zget_zdrop by lia. f_equal. lia.
Qed.

Lemma zlen_overlay file off buf : 0 <= off <= zlen file -> zlen (overlay file off buf) = Z.max (zlen file) (off + zlen buf).
Proof.
  intros Hoff. pose proof (zlen_nonneg buf). unfold overlay. rewrite !zlen_app, zlen_ztake, zlen_zdrop by lia. lia.
Qed.

(** Writing in two pieces. *)
Lemma overlay_app file off b1 b2 : 0 <= off <= zlen file ->
  overlay (overlay file off b1) (off + zlen b1) b2 = overlay file off (b1 ++ b2).
Proof.
  intros Hoff. pose proof (zlen_nonneg b1). pose proof (zlen_nonneg b2). apply zget_ext. intros i Hi.
  rewrite (zget_overlay (overlay _ _ _)) by (rewrite zlen_overlay by lia; lia). rewrite !zget_overlay, zlen_app, zget_app by lia.
  zcmp; cbn; zcmp; try lia; try done; f_equal; lia.
Qed.

Lemma overlay_nil file off : 0 <= off <= zlen file -> overlay file off [] = file.
Proof.
  intros Hoff. apply zget_ext. intros i Hi. rewrite zget_overlay by lia. change (zlen (@nil Z)) with 0. by zcmp.
Qed.

(** ** Pages *)

Section Pages.
Context {C : ConstantsHal} {L : ConstantsLaws C}.

Lemma cache_page_size : PAGE_SIZE = 4096.
Proof. by rewrite page_size_pow, page_size_bits. Qed.

Lemma page_split i : i = page_offset i + i mod PAGE_SIZE /\ 0 <= i mod PAGE_SIZE < PAGE_SIZE.
Proof. unfold page_offset. rewrite cache_page_size. div_lia. Qed.

Lemma file_offset_mod i : page_offset i mod PAGE_SIZE = 0.
Proof. unfold page_offset. apply Z_mod_mult. Qed.

Lemma page_offset_id i : page_offset (page_offset i) = page_offset i.
Proof. unfold page_offset. rewrite cache_page_size. div_lia. Qed.

Lemma page_offset_within o j : page_offset o = o -> o <= j < o + PAGE_SIZE -> page_offset j = o /\ j mod PAGE_SIZE = j - o.
Proof. unfold page_offset. rewrite cache_page_size. intros Ho Hj. div_lia. Qed.

Lemma page_offset_nonneg i : 0 <= i -> 0 <= page_offset i.
Proof. unfold page_offset. rewrite cache_page_size. div_lia. Qed.

Lemma get_page_at c i : get_page c (page_offset i) = Ret (pc_pages c !! page_offset i).
Proof. unfold get_page. by rewrite file_offset_mod. Qed.

Lemma insert_page_at c i p : insert_page c (page_offset i) p = Ret (mkCache (<[page_offset i := p]> (pc_pages c)) (pc_end c)).
Proof. unfold insert_page. by rewrite file_offset_mod. Qed.

Lemma page_new_len : zlen (pg_data page_new) = PAGE_SIZE.
Proof. unfold zlen, page_new. cbn. rewrite length_replicate, cache_page_size. lia. Qed.

Lemma page_new_get j : 0 <= j < PAGE_SIZE -> zget (pg_data page_new) j = Some 0.
Proof. intros Hj. unfold page_new. cbn. rewrite zget_replicate. rewrite cache_page_size in *. by zcmp. Qed.

(** What a write leaves in a page. *)
Lemma page_write_spec p io buf : zlen (pg_data p) = PAGE_SIZE -> 0 <= io < PAGE_SIZE ->
  let n := Z.min (PAGE_SIZE - io) (zlen buf) in
  exists q, page_write_at p io buf = Ret (n, q) /\ pg_dirty q = pg_dirty p /\ zlen (pg_data q) = PAGE_SIZE /\
    forall j, zget (pg_data q) j = if (io <=? j) && (j <? io + n) then zget buf (j - io) else zget (pg_data p) j.
Proof.
  intros Hp Hio n. pose proof (zlen_nonneg buf). unfold page_write_at. rewrite (proj2 (Z.ltb_lt _ _)) by lia. fold n. cbn -[ztake zdrop].
  assert (Hn : zlen (ztake n buf) = n) by (rewrite zlen_ztake; lia).
  assert (E : ztake io (pg_data p) ++ ztake n buf ++ zdrop (io + n) (pg_data p) = overlay (pg_data p) io (ztake n buf))
    by (unfold overlay; by rewrite Hn).
  rewrite E. eexists. split; [done|]. split; [done|]. cbn. split.
  - rewrite zlen_overlay by lia. lia.
  - intros j. rewrite zget_overlay, Hn by lia. destruct (_ && _) eqn:Hj; [|done]. bool_to_prop.
    rewrite zget_ztake by lia. by rewrite (proj2 (Z.ltb_lt _ _)) by lia.
Qed.

Lemma page_read_spec p io len : zlen (pg_data p) = PAGE_SIZE -> 0 <= io < PAGE_SIZE -> 0 <= len ->
  exists bytes, page_read_at p io len = Ret bytes /\ zlen bytes = Z.min (PAGE_SIZE - io) len /\
    forall j, 0 <= j < zlen bytes -> zget bytes j = zget (pg_data p) (io + j).
Proof.
  intros Hp Hio Hlen. unfold page_read_at. rewrite (proj2 (Z.ltb_lt _ _)) by lia. cbn -[ztake zdrop].
  eexists. split; [done|]. rewrite zlen_ztake, zlen_zdrop by lia. split; [lia|].
  intros j Hj. rewrite zget_ztake, zget_zdrop by lia. by rewrite (proj2 (Z.ltb_lt _ _)) by lia.
Qed.

(** ** The bytes a cache holds *)

Definition cached (c : PageCache) (i : Z) : option Z :=
  match pc_pages c !! page_offset i with Some p => zget (pg_data p) (i mod PAGE_SIZE) | None => None end.

Record cache_wf (c : PageCache) : Prop := {
  wf_key o p : pc_pages c !! o = Some p -> 0 <= o /\ page_offset o = o /\ zlen (pg_data p) = PAGE_SIZE;
  wf_end : 0 <= pc_end c;
}.

Lemma cached_page c i p : cache_wf c -> pc_pages c !! page_offset i = Some p -> exists b, cached c i = Some b /\ zget (pg_data p) (i mod PAGE_SIZE) = Some b.
Proof.
  intros Hwf E. unfold cached. rewrite E. destruct (wf_key c Hwf _ _ E) as (_ & _ & Hlen).
  destruct (zget_in (pg_data p) (i mod PAGE_SIZE)) as (b & Hb); [rewrite Hlen; apply page_split|]. by exists b.
Qed.

Lemma insert_wf c i p e : cache_wf c -> 0 <= i -> zlen (pg_data p) = PAGE_SIZE -> 0 <= e ->
  cache_wf (mkCache (<[page_offset i := p]> (pc_pages c)) e).
Proof.
  intros [K E] Hi Hp He. split; [|done]. intros o q. cbn. intros [(<- & <-)|(Hne & Hq)]%lookup_insert_Some; [|by apply K].
  split; [by apply page_offset_nonneg|]. split; [apply page_offset_id|done].
Qed.

Lemma cached_insert c i p e j : cached (mkCache (<[page_offset i := p]> (pc_pages c)) e) j =
  if page_offset j =? page_offset i then zget (pg_data p) (j mod PAGE_SIZE) else cached c j.
Proof.
  unfold cached. cbn. destruct (Z.eqb_spec (page_offset j) (page_offset i)) as [->|Hne]; [by rewrite lookup_insert_eq|].
  by rewrite lookup_insert_ne.
Qed.

(** Writing through a cached page changes the bytes written and no other. *)
Lemma cached_write c cur p q n buf e : pc_pages c !! page_offset cur = Some p -> 0 <= n <= PAGE_SIZE - cur mod PAGE_SIZE ->
  (forall j, zget (pg_data q) j = if (cur mod PAGE_SIZE <=? j) && (j <? cur mod PAGE_SIZE + n)
                                  then zget buf (j - cur mod PAGE_SIZE) else zget (pg_data p) j) ->
  forall j, cached (mkCache (<[page_offset cur := q]> (pc_pages c)) e) j =
    if (cur <=? j) && (j <? cur + n) then zget buf (j - cur) else cached c j.
Proof.
  intros Ep Hn Hq j. rewrite cached_insert. destruct (page_split cur) as [Ec Hc], (page_split j) as [Ej Hj].
  destruct (Z.eqb_spec (page_offset j) (page_offset cur)) as [E|E].
  - rewrite Hq. unfold cached. rewrite E, Ep. zcmp; cbn; try done. f_equal. lia.
  - destruct (Z.leb_spec cur j), (Z.ltb_spec j (cur + n)); try done. cbn. exfalso. apply E.
    apply page_offset_within; [apply page_offset_id|lia].
Qed.

Lemma cached_end c e : cached (mkCache (pc_pages c) e) = cached c.
Proof. done. Qed.

End Pages.

(** ** ext4: the file behind the cache *)

(** What the library's documentation promises of the file of an inode: it is a list of
    bytes that can be read and written up to its end. *)
Class DiskFileLaws (D : Type) {DF : DiskFile D} := {
  df_bytes : D -> list Z;
  df_size_ok d : df_size d = Ok (zlen (df_bytes d));
  df_read_ok d off n : 0 <= off <= zlen (df_bytes d) -> 0 <= n -> df_read d off n = Ok (ztake n (zdrop off (df_bytes d)));
  df_write_ok d off b : 0 <= off <= zlen (df_bytes d) -> exists d', df_write d off b = Ok d' /\ df_bytes d' = overlay (df_bytes d) off b;
}.

Section Ext4.
Context {C : ConstantsHal} {L : ConstantsLaws C} {D : Type} {DF : DiskFile D} {DL : DiskFileLaws D}.

(** The bytes [file] are those of the cache where it has them and of the disk
    elsewhere; what the cache has past the end is zero; what it has not written is as
    on the disk; and only pages below its end are dirty. *)
Record ext4_rep (d : D) (c : PageCache) (file : list Z) : Prop := {
  er_wf : cache_wf c;
  er_len : zlen file = Z.max (pc_end c) (zlen (df_bytes d));
  er_byte j : 0 <= j < zlen file -> zget file j = match cached c j with Some b => Some b | None => zget (df_bytes d) j end;
  er_zero j b : zlen file <= j -> cached c j = Some b -> b = 0;
  er_disk j p : pc_pages c !! page_offset j = Some p -> 0 <= j < zlen file -> pg_dirty p = false \/ pc_end c <= j ->
    zget (df_bytes d) j = cached c j;
  er_dirty o p : pc_pages c !! o = Some p -> pg_dirty p = true -> o < pc_end c;
}.

Lemma ext4_rep_open d : ext4_rep d cache_new (df_bytes d).
Proof.
  pose proof (zlen_nonneg (df_bytes d)). split; cbn; try done; try lia.
Qed.

(** The page [po] as it is read from the disk. *)
Lemma page_read_from_spec d i : 0 <= page_offset i < zlen (df_bytes d) ->
  exists p, page_read_from d (page_offset i) = Ret (Z.min PAGE_SIZE (zlen (df_bytes d) - page_offset i), p) /\
    pg_dirty p = false /\ zlen (pg_data p) = PAGE_SIZE /\
    forall j, page_offset j = page_offset i ->
      zget (pg_data p) (j mod PAGE_SIZE) = Some (default 0 (zget (df_bytes d) j)).
Proof.
  intros Hpo. unfold page_read_from. rewrite file_offset_mod. cbn -[zdrop zlen pg_data page_new].
  rewrite df_read_ok by (rewrite ?cache_page_size; lia). set (bytes := ztake _ _).
  assert (Hb : zlen bytes = Z.min PAGE_SIZE (zlen (df_bytes d) - page_offset i)).
  { unfold bytes. rewrite zlen_ztake, zlen_zdrop by (rewrite ?cache_page_size; lia). lia. }
  pose proof page_new_len as Hnew. pose proof cache_page_size as Hps.
  rewrite Hb. eexists. split; [done|]. split; [done|]. cbn -[zdrop page_new]. split.
  - rewrite zlen_app, zlen_zdrop by lia. lia.
  - intros j Hj. destruct (page_split j) as [Ej Hm]. rewrite zget_app, Hb. destruct (Z.ltb_spec (j mod PAGE_SIZE) (Z.min PAGE_SIZE (zlen (df_bytes d) - page_offset i))).
    + unfold bytes. rewrite zget_ztake, zget_zdrop by lia. rewrite (proj2 (Z.ltb_lt _ _)) by lia.
      replace (page_offset i + j mod PAGE_SIZE) with j by lia.
      destruct (zget_in (df_bytes d) j) as (b & ->); [lia|done].
    + rewrite zget_zdrop by lia. rewrite page_new_get by lia. rewrite (proj2 (zget_none (df_bytes d) j)) by lia. done.
Qed.

(** A page of the disk enters the cache; its end may grow to what was read. *)
Lemma rep_load d c file i p e : ext4_rep d c file -> 0 <= i -> pc_pages c !! page_offset i = None ->
  pg_dirty p = false -> zlen (pg_data p) = PAGE_SIZE ->
  (forall j, page_offset j = page_offset i -> zget (pg_data p) (j mod PAGE_SIZE) = Some (default 0 (zget (df_bytes d) j))) ->
  pc_end c <= e -> e <= Z.max (pc_end c) (zlen (df_bytes d)) ->
  ext4_rep d (mkCache (<[page_offset i := p]> (pc_pages c)) e) file.
Proof.
  intros [W Ln B Zr Dk Dt] Hi Hnone Hcl Hlen Hdata He1 He2. pose proof (wf_end c W).
  assert (Hun : forall j, page_offset j = page_offset i -> cached c j = None).
  { intros j Hj. unfold cached. by rewrite Hj, Hnone. }
  split; cbn.
  - by apply insert_wf; try lia.
  - lia.
  - intros j Hj. rewrite cached_insert. destruct (Z.eqb_spec (page_offset j) (page_offset i)) as [Ej|Ej]; [|by apply B].
    rewrite (Hdata j Ej), (B j Hj), (Hun j Ej).
    assert (Hs : is_Some (zget file j)) by (by apply zget_some). rewrite (B j Hj), (Hun j Ej) in Hs. by destruct Hs as (b & ->).
  - intros j b Hj. rewrite cached_insert. destruct (Z.eqb_spec (page_offset j) (page_offset i)) as [Ej|Ej]; [|by apply Zr].
    rewrite (Hdata j Ej), (proj2 (zget_none (df_bytes d) j)) by lia. cbn. congruence.
  - intros j q Hq Hj Hor. rewrite cached_insert. destruct (Z.eqb_spec (page_offset j) (page_offset i)) as [Ej|Ej].
    + rewrite (Hdata j Ej). assert (Hs : is_Some (zget file j)) by (by apply zget_some).
      rewrite (B j Hj), (Hun j Ej) in Hs. by destruct Hs as (b & ->).
    + rewrite lookup_insert_ne in Hq by done. apply (Dk j q Hq Hj). destruct Hor as [?|?]; [by left|right; lia].
  - intros o q [(<- & <-)|(Hne & Hq)]%lookup_insert_Some Hd; [congruence|]. specialize (Dt o q Hq Hd). lia.
Qed.

(** A new page at the end of the file. *)
Lemma rep_fresh d c file i : ext4_rep d c file -> zlen file <= page_offset i -> zlen (df_bytes d) <= page_offset i ->
  pc_pages c !! page_offset i = None ->
  ext4_rep d (mkCache (<[page_offset i := page_new]> (pc_pages c)) (pc_end c)) file.
Proof.
  intros R Hf Hd Hnone. pose proof (zlen_nonneg file). destruct (page_split i).
  apply rep_load; try done; try lia; [apply page_new_len|]. intros j Hj. destruct (page_split j).
  rewrite page_new_get by lia. by rewrite (proj2 (zget_none (df_bytes d) j)) by lia.
Qed.

Lemma rep_write d c file cur p q n buf : ext4_rep d c file -> 0 <= cur <= zlen file ->
  pc_pages c !! page_offset cur = Some p -> 0 < n <= PAGE_SIZE - cur mod PAGE_SIZE -> n <= zlen buf ->
  zlen (pg_data q) = PAGE_SIZE ->
  (forall j, zget (pg_data q) j = if (cur mod PAGE_SIZE <=? j) && (j <? cur mod PAGE_SIZE + n)
                                  then zget buf (j - cur mod PAGE_SIZE) else zget (pg_data p) j) ->
  ext4_rep d (mkCache (<[page_offset cur := set_dirty q]> (pc_pages c)) (Z.max (pc_end c) (cur + n))) (overlay file cur (ztake n buf)).
Proof.
  intros [W Ln B Zr Dk Dt] Hcur Ep Hn Hbuf Hlen Hq. pose proof (wf_end c W).
  assert (Hz : zlen (ztake n buf) = n) by (rewrite zlen_ztake; lia).
  assert (Hc : forall j e, cached (mkCache (<[page_offset cur := set_dirty q]> (pc_pages c)) e) j =
    if (cur <=? j) && (j <? cur + n) then zget buf (j - cur) else cached c j).
  { intros j e. apply (cached_write c cur p (set_dirty q) n buf e Ep); [lia|exact Hq]. }
  assert (Hl : zlen (overlay file cur (ztake n buf)) = Z.max (zlen file) (cur + n)) by (rewrite zlen_overlay, Hz; lia).
  split.
  - apply insert_wf; [done|lia|done|lia].
  - rewrite Hl. cbn. lia.
  - intros j Hj. rewrite Hl in Hj. rewrite Hc, zget_overlay, Hz by lia. destruct (_ && _) eqn:E; bool_to_prop.
    + rewrite zget_ztake by lia. rewrite (proj2 (Z.ltb_lt _ _)) by lia.
      destruct (zget_in buf (j - cur)) as (b & ->); [lia|done].
    + apply B. apply andb_false_iff in E as [?|?]; bool_to_prop; lia.
  - intros j b Hj. rewrite Hl in Hj. rewrite Hc. zcmp; cbn; apply Zr; lia.
  - intros j r Hr Hj Hor. rewrite Hl in Hj. rewrite Hc. cbn in Hr, Hor.
    destruct (Z.eqb_spec (page_offset j) (page_offset cur)) as [E|E].
    + rewrite E, lookup_insert_eq in Hr. injection Hr as <-. destruct Hor as [Hd|Hd]; [done|].
      rewrite (andb_comm (cur <=? j)), (proj2 (Z.ltb_ge _ _)) by lia. cbn.
      apply (Dk j p); [by rewrite E|lia|right; lia].
    + rewrite lookup_insert_ne in Hr by done.
      destruct (page_split cur) as [Ecur Hm], (page_split j) as [Ej Hmj].
      assert (Ho : (cur <=? j) && (j <? cur + n) = false).
      { apply andb_false_iff. rewrite Z.leb_gt, Z.ltb_ge. destruct (Z.lt_ge_cases j cur); [by left|right].
        destruct (Z.lt_ge_cases j (cur + n)); [|done]. exfalso. apply E. apply page_offset_within; [apply page_offset_id|lia]. }
      rewrite Ho. apply andb_false_iff in Ho. rewrite Z.leb_gt, Z.ltb_ge in Ho. apply (Dk j r Hr); [lia|]. destruct Hor; [by left|right; lia].
  - intros o r. cbn. intros [(<- & <-)|(Hne & Hr)]%lookup_insert_Some Hd.
    + destruct (page_split cur). lia.
    + specialize (Dt o r Hr Hd). lia.
Qed.

(** The bytes of a page are those of the file. *)
Lemma rep_page_bytes d c file cur p bytes len : ext4_rep d c file -> 0 <= cur < zlen file ->
  pc_pages c !! page_offset cur = Some p -> 0 <= len <= zlen file - cur ->
  page_read_at p (cur mod PAGE_SIZE) len = Ret bytes ->
  bytes = ztake (zlen bytes) (zdrop cur file) /\ zlen bytes = Z.min (PAGE_SIZE - cur mod PAGE_SIZE) len.
Proof.
  intros R Hcur Ep Hlen E. destruct (page_split cur) as [Ec Hm]. destruct (wf_key c (er_wf _ _ _ R) _ _ Ep) as (_ & _ & Hp).
  destruct (page_read_spec p (cur mod PAGE_SIZE) len Hp Hm) as (bs & E' & Hbl & Hb); [lia|].
  rewrite E in E'. injection E' as <-. split; [|done]. apply zget_ext. intros j Hj.
  rewrite zget_ztake, zget_zdrop by (lia || apply zlen_nonneg). destruct (Z.ltb_spec j (zlen bytes)); [|by apply zget_none; lia].
  destruct (page_offset_within (page_offset cur) (cur + j)) as [Eo Em]; [apply page_offset_id|lia|].
  rewrite Hb, (er_byte _ _ _ R) by lia. unfold cached. rewrite Eo, Ep, Em.
  replace (cur + j - page_offset cur) with (cur mod PAGE_SIZE + j) by lia.
  destruct (zget_in (pg_data p) (cur mod PAGE_SIZE + j)) as (b & ->); [lia|done].
Qed.

(** The page of an offset inside the file, from the cache or from the disk. *)
Lemma read_page_spec d c file cur : ext4_rep d c file -> 0 <= cur < zlen file -> zlen file < 2 ^ 63 ->
  exists p c', match pc_pages c !! page_offset cur with
     | Some p => Ret (p, c)
     | None => let! f := page_read_from d (page_offset cur) in
               let! c := insert_page c (page_offset cur) f.2 in Ret (f.2, update_end c (wadd (page_offset cur) f.1))
     end = Ret (p, c') /\ ext4_rep d c' file /\ pc_pages c' !! page_offset cur = Some p.
Proof.
  intros R Hcur Hs. destruct (pc_pages c !! page_offset cur) as [p|] eqn:Ep; [by exists p, c|].
  destruct (page_split cur) as [Ec Hm]. assert (Hd : cur < zlen (df_bytes d)).
  { assert (Hx : is_Some (zget file cur)) by (by apply zget_some). rewrite (er_byte _ _ _ R) in Hx by done.
    unfold cached in Hx. rewrite Ep in Hx. apply zget_some in Hx. lia. }
  pose proof (page_offset_nonneg cur ltac:(lia)). destruct (page_read_from_spec d cur) as (p & Ef & Hcl & Hl & Hb); [lia|].
  pose proof (er_len _ _ _ R). pose proof cache_page_size. rewrite Ef. cbn [obind fst snd]. rewrite insert_page_at. cbn [obind]. eexists _, _. split; [done|].
  rewrite wadd_small by (unfold is_usize; lia). split; [|cbn; by rewrite lookup_insert_eq].
  apply rep_load; cbn; try done; lia.
Qed.

Lemma ext4_read_loop_spec d file : zlen file < 2 ^ 63 -> forall fuel c cur len total out, ext4_rep d c file -> 0 <= cur < 2 ^ 63 ->
  0 <= len < Z.of_nat fuel -> let n := Z.max 0 (Z.min len (zlen file - cur)) in
  exists c', ext4_read_loop fuel d (zlen (df_bytes d)) c cur len total out =
      Ret (Some (total + n, out ++ ztake n (zdrop cur file), c')) /\ ext4_rep d c' file.
Proof.
  intros Hs. induction fuel as [|fuel IH]; intros c cur len total out R Hcur Hlen n; [lia|]. cbn [ext4_read_loop].
  assert (Hnil : n = 0 -> (total + n, out ++ ztake n (zdrop cur file), c) = (total, out, c)).
  { intros ->. unfold ztake. cbn. by rewrite app_nil_r, Z.add_0_r. }
  destruct (Z.leb_spec len 0); [exists c; by rewrite Hnil by lia|].
  rewrite <- (er_len _ _ _ R). destruct (Z.leb_spec (zlen file) cur); [exists c; by rewrite Hnil by lia|].
  destruct (read_page_spec d c file cur R) as (p & c' & E & R' & Ep); [lia|done|].
  rewrite get_page_at. cbn [obind]. rewrite E. cbn [obind fst snd].
  destruct (page_read_spec p (cur mod PAGE_SIZE) (Z.min (zlen file - cur) len)) as (bytes & Eb & _ & _);
    [by destruct (wf_key c' (er_wf _ _ _ R') _ _ Ep) as (_ & _ & ?)|apply page_split|lia|].
  rewrite Eb. cbn [obind]. destruct (rep_page_bytes d c' file cur p bytes (Z.min (zlen file - cur) len) R' ltac:(lia) Ep ltac:(lia) Eb) as [Hb Hbl].
  destruct (page_split cur) as [_ Hm]. pose proof cache_page_size. rewrite wadd_small by (unfold is_usize; lia).
  destruct (IH c' (cur + zlen bytes) (len - zlen bytes) (total + zlen bytes) (out ++ bytes) R') as (c'' & -> & R''); [lia|lia|].
  exists c''. split; [|done]. set (m := Z.max 0 _). assert (Hn : n = zlen bytes + m) by lia.
  assert (E2 : bytes ++ ztake m (zdrop (cur + zlen bytes) file) = ztake n (zdrop cur file)).
  { rewrite Hn, Hb at 1. apply ztake_zdrop_app; lia. }
  rewrite <- app_assoc, E2, Hn. do 3 f_equal. f_equal. lia.
Qed.

(** The page a write goes to: cached, from the disk, or new. *)
Lemma write_page_spec d c file cur : ext4_rep d c file -> 0 <= cur -> zlen file < 2 ^ 63 ->
  exists p c', match pc_pages c !! page_offset cur with
     | Some p => Ret (p, c)
     | None => let! p := if page_offset cur <? zlen (df_bytes d)
                         then let! f := page_read_from d (page_offset cur) in Ret f.2 else Ret page_new in
               let! c := insert_page c (page_offset cur) p in Ret (p, c)
     end = Ret (p, c') /\ ext4_rep d c' file /\ pc_pages c' !! page_offset cur = Some p.
Proof.
  intros R Hcur Hs. destruct (pc_pages c !! page_offset cur) as [p|] eqn:Ep; [by exists p, c|].
  pose proof (page_offset_nonneg cur ltac:(lia)). pose proof (er_len _ _ _ R).
  destruct (Z.ltb_spec (page_offset cur) (zlen (df_bytes d))) as [Hd|Hd].
  - destruct (page_read_from_spec d cur) as (p & Ef & Hcl & Hl & Hb); [lia|].
    rewrite Ef. cbn [obind fst snd]. rewrite insert_page_at. cbn [obind]. eexists _, _. split; [done|].
    split; [|cbn; by rewrite lookup_insert_eq]. apply rep_load; cbn; try done; lia.
  - cbn [obind]. rewrite insert_page_at. cbn [obind]. eexists _, _. split; [done|].
    split; [|cbn; by rewrite lookup_insert_eq]. apply rep_fresh; [done| |done|done].
    destruct (Z.le_gt_cases (zlen file) (page_offset cur)) as [|Hf]; [done|].
    assert (Hx : is_Some (zget file (page_offset cur))) by (apply zget_some; lia).
    rewrite (er_byte _ _ _ R) in Hx by lia. unfold cached in Hx. rewrite page_offset_id, Ep in Hx. apply zget_some in Hx. lia.
Qed.

Lemma ext4_write_loop_spec d : forall fuel c file cur buf total, ext4_rep d c file -> zlen file < 2 ^ 63 ->
  0 <= cur <= zlen file -> cur + zlen buf < 2 ^ 63 -> (length buf < fuel)%nat ->
  exists c', ext4_write_loop fuel d (zlen (df_bytes d)) c cur buf total = Ret (Some (total + zlen buf, c')) /\
    ext4_rep d c' (overlay file cur buf).
Proof.
  induction fuel as [|fuel IH]; intros c file cur buf total R Hs Hcur Hbuf Hfuel; [lia|]. cbn [ext4_write_loop].
  pose proof (zlen_nonneg buf) as Hz. destruct (Z.leb_spec (zlen buf) 0) as [H0|H0].
  { assert (buf = []) as -> by (destruct buf; [done|unfold zlen in H0; cbn in H0; lia]).
    exists c. rewrite overlay_nil by lia. split; [|done]. do 3 f_equal. unfold zlen. cbn. lia. }
  destruct (write_page_spec d c file cur R) as (p & c1 & E & R1 & Ep); [lia|done|].
  rewrite get_page_at. cbn [obind]. rewrite E. cbn [obind fst snd].
  destruct (page_split cur) as [Ec Hm]. pose proof cache_page_size.
  destruct (page_write_spec p (cur mod PAGE_SIZE) buf) as (q & Eq & _ & Hql & Hq);
    [by destruct (wf_key c1 (er_wf _ _ _ R1) _ _ Ep) as (_ & _ & ?)|done|].
  set (n := Z.min (PAGE_SIZE - cur mod PAGE_SIZE) (zlen buf)) in *. rewrite Eq. cbn [obind fst snd].
  rewrite insert_page_at. cbn [obind]. pose proof (page_offset_nonneg cur ltac:(lia)).
  rewrite (wadd_small (page_offset cur)), !wadd_small by (unfold is_usize; lia).
  replace (page_offset cur + n + cur mod PAGE_SIZE) with (cur + n) by lia.
  pose proof (rep_write d c1 file cur p q n buf R1 ltac:(lia) Ep ltac:(lia) ltac:(lia) Hql Hq) as R2.
  assert (Hn : zlen (ztake n buf) = n) by (rewrite zlen_ztake; lia).
  assert (Hl : zlen (overlay file cur (ztake n buf)) = Z.max (zlen file) (cur + n)) by (rewrite zlen_overlay, Hn; lia).
  destruct (IH _ _ (cur + n) (zdrop n buf) (total + n) R2) as (c' & E' & R'); [lia|lia|rewrite zlen_zdrop; lia| |].
  { unfold zdrop. rewrite length_drop. unfold zlen in *. lia. }
  exists c'. unfold update_end. cbn [pc_pages pc_end]. rewrite E'. split.
  - do 3 f_equal. rewrite zlen_zdrop by lia. lia.
  - rewrite <- Hn in R' at 2. rewrite overlay_app in R' by lia. unfold ztake, zdrop in R'. by rewrite take_drop in R'.
Qed.

(** What the disk has while the pages of [l] are still to be written: every byte of
    the file but those below the end of the cache in the dirty pages of [l]. *)
Record flushing (c : PageCache) (file : list Z) (l : list (Z * Page)) (d : D) : Prop := {
  fl_len : zlen (df_bytes d) <= zlen file;
  fl_done j : 0 <= j < zlen file -> (forall p, (page_offset j, p) ∈ l -> pg_dirty p = false) ->
    zget (df_bytes d) j = zget file j;
  fl_past j : 0 <= j < zlen file -> pc_end c <= j -> zget (df_bytes d) j = zget file j;
}.

Lemma flushing_start d c file : ext4_rep d c file -> flushing c file (bt_iter (pc_pages c)) d.
Proof.
  intros [W Ln B Zr Dk Dt]. pose proof (wf_end c W).
  assert (Hun : forall j, 0 <= j < zlen file -> pc_pages c !! page_offset j = None -> zget (df_bytes d) j = zget file j).
  { intros j Hj E. rewrite (B j Hj). unfold cached. by rewrite E. }
  assert (Hc : forall j p, 0 <= j < zlen file -> pc_pages c !! page_offset j = Some p -> zget (df_bytes d) j = cached c j ->
    zget (df_bytes d) j = zget file j).
  { intros j p Hj Ep E. rewrite (B j Hj), E. by destruct (cached_page c j p W Ep) as (b & -> & _). }
  split; [lia| |]; intros j Hj Hl; destruct (pc_pages c !! page_offset j) as [p|] eqn:Ep; auto.
  - apply (Hc j p); [done..|]. apply (Dk j p Ep Hj). left. apply Hl. by apply elem_of_bt_iter.
  - apply (Hc j p); [done..|]. apply (Dk j p Ep Hj). by right.
Qed.

Lemma flush_step c file o p l d : cache_wf c -> zlen file < 2 ^ 63 -> pc_end c <= zlen file ->
  pc_pages c !! o = Some p -> (pg_dirty p = true -> o < pc_end c) -> (forall e, e ∈ l -> o < e.1) ->
  (forall j b, 0 <= j < zlen file -> cached c j = Some b -> zget file j = Some b) ->
  flushing c file ((o, p) :: l) d -> exists d', flush_page (pc_end c) d (o, p) = Ret d' /\ flushing c file l d'.
Proof.
  intros W Hs Hend Ep Hdirty Hl Hb [Fl Fd Fp]. unfold flush_page. cbn [fst snd]. destruct (pg_dirty p) eqn:Ed.
  2: { exists d. split; [done|]. split; [done| |done]. intros j Hj Hcl. apply Fd; [done|].
       intros q [[= _ ->]|Hq]%elem_of_cons; [done|by apply Hcl]. }
  specialize (Hdirty eq_refl). destruct (wf_key c W o p Ep) as (Ho & Hoff & Hlen). pose proof cache_page_size.
  rewrite wsub_small by (unfold is_usize; lia). set (n := Z.min (pc_end c - o) PAGE_SIZE).
  assert (Hn : zlen (ztake n (pg_data p)) = n) by (rewrite zlen_ztake; lia).
  assert (Hod : o <= zlen (df_bytes d)).
  { destruct (Z.eq_dec o 0) as [->|]; [apply zlen_nonneg|]. destruct (page_split (o - 1)) as [E1 E2].
    assert (Hx : is_Some (zget (df_bytes d) (o - 1))); [|apply zget_some in Hx; lia].
    rewrite Fd; [apply zget_some; lia|lia|]. intros q [[= Hq _]|Hq]%elem_of_cons; [lia|]. apply Hl in Hq. cbn in Hq. lia. }
  destruct (df_write_ok d o (ztake n (pg_data p))) as (d' & -> & Ed'); [lia|]. exists d'. split; [done|].
  assert (Hg : forall j, zget (df_bytes d') j = if (o <=? j) && (j <? o + n) then zget (pg_data p) (j - o) else zget (df_bytes d) j).
  { intros j. rewrite Ed', zget_overlay, Hn by lia. destruct (_ && _) eqn:E; [|done]. bool_to_prop.
    rewrite zget_ztake by lia. by rewrite (proj2 (Z.ltb_lt _ _)) by lia. }
  split.
  - rewrite Ed', zlen_overlay, Hn by lia. lia.
  - intros j Hj Hcl. rewrite Hg. destruct (_ && _) eqn:E; bool_to_prop.
    + destruct (page_offset_within o j Hoff) as [Eo Em]; [lia|].
      destruct (cached_page c j p W) as (b & Hcj & Hbj); [by rewrite Eo|]. rewrite Em in Hbj. by rewrite Hbj, (Hb j b).
    + apply andb_false_iff in E. rewrite Z.leb_gt, Z.ltb_ge in E.
      destruct (Z.eq_dec (page_offset j) o) as [Eo|Eo]; [|apply Fd; [done|]; intros q [[= Hq _]|Hq]%elem_of_cons; [congruence|by apply Hcl]].
      destruct (page_split j). apply Fp; lia.
  - intros j Hj Hp. rewrite Hg. rewrite (andb_comm (o <=? j)), (proj2 (Z.ltb_ge _ _)) by lia. cbn. by apply Fp.
Qed.

Lemma flush_all c file : cache_wf c -> zlen file < 2 ^ 63 -> pc_end c <= zlen file ->
  (forall o p, pc_pages c !! o = Some p -> pg_dirty p = true -> o < pc_end c) ->
  (forall j b, 0 <= j < zlen file -> cached c j = Some b -> zget file j = Some b) ->
  forall l d, (forall e, e ∈ l -> pc_pages c !! e.1 = Some e.2) -> StronglySorted key_le l -> NoDup l.*1 -> flushing c file l d ->
  exists d', foldl (fun m e => let! d := m in flush_page (pc_end c) d e) (Ret d) l = Ret d' /\ df_bytes d' = file.
Proof.
  intros W Hs Hend Hd Hb. induction l as [|[o p] l IH]; intros d Hin Hsort Hnd F.
  - exists d. split; [done|]. apply zget_ext. intros j Hj. destruct (Z.lt_ge_cases j (zlen file)) as [Hlt|Hge].
    + apply (fl_done _ _ _ _ F); [lia|]. by intros p ?%elem_of_nil.
    + pose proof (fl_len _ _ _ _ F). rewrite !(proj2 (zget_none _ _)) by lia. done.
  - apply StronglySorted_inv in Hsort as [Hsort Hhd]. apply NoDup_cons in Hnd as [Hni Hnd].
    destruct (flush_step c file o p l d W Hs Hend) as (d' & E & F'); [apply (Hin (o, p)); left|apply Hd, (Hin (o, p)); left| |done|done|].
    { intros e He. rewrite Forall_forall in Hhd. specialize (Hhd e He). unfold key_le in Hhd. cbn in Hhd.
      destruct (Z.eq_dec o e.1) as [->|]; [|lia]. exfalso. apply Hni. cbn. by apply (list_elem_of_fmap_2 fst). }
    cbn [foldl obind]. rewrite E. apply (IH d'); [|done..]. intros e He. apply Hin. by right.
Qed.

Lemma ext4_drop_spec i file : ext4_rep (ei_disk i) (ei_cache i) file -> zlen file < 2 ^ 63 ->
  exists d', ext4_drop i = Ret d' /\ df_bytes d' = file.
Proof.
  intros R Hs. pose proof (flushing_start _ _ _ R) as F. destruct R as [W Ln B Zr Dk Dt]. unfold ext4_drop.
  apply (flush_all (ei_cache i) file W Hs); [lia|done| |by intros [o p] ?%elem_of_bt_iter|apply bt_iter_sorted|apply bt_iter_nodup|done].
  intros j b Hj E. by rewrite (B j Hj), E.
Qed.

End Ext4.
