(* ===== verification/FileClaims.v ===== *)
(** Open files: an ext4 file through its page cache is a POSIX file, and what tmpfs
    does to the size of a file that is written in pieces. *)

From S2P Require Import Prelude HalConst Errno PageCache PageCacheProofs.

#[local] Open Scope Z_scope.

(** ** A plain file *)

Inductive file_op := OpRead (len : Z) | OpWrite (buf : list Z) | OpSeek (from : SeekFrom).

(** A file as a list of bytes with a position; [None] for a request a plain file would
    refuse, or one that leaves a gap or leaves the numbers below 2^63. *)
Definition spec_op (append : bool) (s : list Z * Z) (op : file_op) : option (list Z * (list Z * Z)) :=
  let '(file, pos) := s in
  match op with
  | OpRead len =>
      if (0 <=? len) && (len <? 2 ^ 63) then
        let n := Z.max 0 (Z.min len (zlen file - pos)) in Some (ztake n (zdrop pos file), (file, pos + n))
      else None
  | OpWrite buf =>
      let pos := if append then zlen file else pos in
      if (pos <=? zlen file) && (pos + zlen buf <? 2 ^ 63) then Some ([], (overlay file pos buf, pos + zlen buf)) else None
  | OpSeek from =>
      let pos := match from with SeekStart off => off | SeekEnd off => zlen file + off | SeekCurrent off => pos + off end in
      if (0 <=? pos) && (pos <? 2 ^ 63) && (match from with SeekStart _ => true | SeekEnd off | SeekCurrent off => (- 2 ^ 63 <? off) && (off <? 2 ^ 63) end)
      then Some ([], (file, pos)) else None
  end.

Fixpoint spec_run (append : bool) (s : list Z * Z) (ops : list file_op) : option (list (list Z) * (list Z * Z)) :=
  match ops with
  | [] => Some ([], s)
  | op :: ops =>
      match spec_op append s op with
      | None => None
      | Some (out, s) => match spec_run append s ops with Some (outs, s) => Some (out :: outs, s) | None => None end
      end
  end.

(** ** An open ext4 file *)

Section Run.
Context {C : ConstantsHal} {D : Type} {DF : DiskFile D}.

(** The bytes a call gives the caller, and the open file after it. *)
Definition ext4_op (f : FileInner) (i : Ext4Inode (D := D)) (op : file_op) : outcome (option (list Z * FileInner * Ext4Inode)) :=
  match op with
  | OpRead len =>
      let! r := ext4_file_read f i len in
      Ret (match r with Some (n, out, f, i) => Some (ztake n out, f, i) | None => None end)
  | OpWrite buf =>
      let! r := ext4_file_write f i buf in
      Ret (match r with Some (n, f, i) => Some ([], f, i) | None => None end)
  | OpSeek from =>
      let! size := ext4_size i in
      Ret (match seek f size from with (Ok _, f) => Some ([], f, i) | (Err _, _) => None end)
  end.

Fixpoint ext4_run (f : FileInner) (i : Ext4Inode (D := D)) (ops : list file_op) : outcome (option (list (list Z) * FileInner * Ext4Inode)) :=
  match ops with
  | [] => Ret (Some ([], f, i))
  | op :: ops =>
      let! r := ext4_op f i op in
      match r with
      | None => Ret None
      | Some (out, f, i) =>
          let! r := ext4_run f i ops in
          Ret (match r with Some (outs, f, i) => Some (out :: outs, f, i) | None => None end)
      end
  end.

Context {L : ConstantsLaws C} {DL : DiskFileLaws D}.

Lemma ext4_size_spec i file : ext4_rep (ei_disk i) (ei_cache i) file -> ext4_size i = Ret (zlen file).
Proof. intros R. unfold ext4_size. by rewrite df_size_ok, (er_len _ _ _ R). Qed.

Lemma to_i64_small z : - 2 ^ 63 <= z < 2 ^ 63 -> to_i64 z = z.
Proof. intros Hz. unfold to_i64. rewrite Z.mod_small; lia. Qed.

Lemma seek_spec f size from pos : 0 <= f_pos f < 2 ^ 63 -> 0 <= size < 2 ^ 63 ->
  pos = (match from with SeekStart off => off | SeekEnd off => size + off | SeekCurrent off => f_pos f + off end) -> 0 <= pos < 2 ^ 63 ->
  (match from with SeekStart _ => True | SeekEnd off | SeekCurrent off => - 2 ^ 63 < off < 2 ^ 63 end) ->
  seek f size from = (Ok pos, set_pos f pos).
Proof.
  intros Hf Hs -> Hp Hoff. destruct from as [off|off|off]; cbn; [done| |].
  - destruct (Z.ltb_spec off 0).
    + unfold i64_abs. rewrite to_i64_small, wrap_small by (unfold is_usize; lia).
      rewrite wsub_small by (unfold is_usize; lia). replace (size - Z.abs off) with (size + off) by lia. done.
    + rewrite wrap_small, wadd_small by (unfold is_usize; lia). done.
  - destruct (Z.ltb_spec off 0).
    + unfold i64_abs. rewrite !(to_i64_small (Z.abs off)), (to_i64_small (f_pos f)) by lia. rewrite to_i64_small by lia.
      rewrite (proj2 (Z.ltb_ge _ _)) by lia. rewrite wrap_small, wsub_small by (unfold is_usize; lia).
      replace (f_pos f - Z.abs off) with (f_pos f + off) by lia. done.
    + rewrite wrap_small, wadd_small by (unfold is_usize; lia). done.
Qed.

Lemma ztake_all {A} n (l : list A) : zlen l <= n -> ztake n l = l.
Proof. intros H. unfold ztake. apply take_ge. unfold zlen in H. lia. Qed.

(** One call. *)
Lemma ext4_op_spec f i file op out s' : ext4_rep (ei_disk i) (ei_cache i) file -> zlen file < 2 ^ 63 -> 0 <= f_pos f < 2 ^ 63 ->
  spec_op (contains (f_flags f) O_APPEND) (file, f_pos f) op = Some (out, s') ->
  exists f' i', ext4_op f i op = Ret (Some (out, f', i')) /\ f_flags f' = f_flags f /\ f_pos f' = s'.2 /\
    ext4_rep (ei_disk i') (ei_cache i') s'.1 /\ zlen s'.1 < 2 ^ 63 /\ 0 <= s'.2 < 2 ^ 63.
Proof.
  intros R Hs Hf E. destruct op as [len|buf|from]; cbn [spec_op ext4_op] in *.
  - destruct (_ && _) eqn:Hb in E; [|done]. bool_to_prop. injection E as <- <-. cbn [fst snd].
    unfold ext4_file_read, ext4_read_at. rewrite df_size_ok.
    destruct (ext4_read_loop_spec (ei_disk i) file Hs (S (Z.to_nat len)) (ei_cache i) (f_pos f) len 0 []) as (c' & -> & R'); [done|lia|lia|].
    cbn [obind]. set (n := Z.max 0 _). rewrite Z.add_0_l, app_nil_l. pose proof (zlen_nonneg file).
    rewrite (seek_spec f 0 (SeekCurrent n) (f_pos f + n)) by (done || lia). cbn [obind].
    rewrite (ztake_all n (ztake n _)) by (rewrite zlen_ztake; lia). eexists _, _. split; [done|].
    split; [done|]. split; [done|]. split; [done|]. lia.
  - unfold ext4_file_write. set (pos := if contains (f_flags f) O_APPEND then zlen file else f_pos f) in *.
    destruct (_ && _) eqn:Hb in E; [|done]. bool_to_prop. injection E as <- <-. cbn [fst snd].
    assert (Ef : (if contains (f_flags f) O_APPEND then let! s := ext4_size i in Ret (set_pos f s) else Ret f) = Ret (set_pos f pos)).
    { unfold pos. destruct (contains _ _); [by rewrite (ext4_size_spec i file R)|by destruct f]. }
    rewrite Ef. cbn [obind]. unfold ext4_write_at. rewrite df_size_ok. pose proof (zlen_nonneg file). pose proof (zlen_nonneg buf).
    assert (Hpos : 0 <= pos) by (unfold pos; destruct (contains _ _); lia).
    destruct (ext4_write_loop_spec (ei_disk i) (S (length buf)) (ei_cache i) file pos buf 0 R Hs) as (c' & Ew & R'); [lia|done|lia|].
    cbn [f_pos set_pos]. rewrite Ew. cbn [obind]. rewrite Z.add_0_l. eexists _, _. split; [done|]. cbn.
    rewrite wadd_small by (unfold is_usize; lia). rewrite zlen_overlay by lia. split; [done|]. split; [done|]. split; [done|]. lia.
  - set (pos := match from with SeekStart off => off | SeekEnd off => zlen file + off | SeekCurrent off => f_pos f + off end) in *.
    destruct (_ && _) eqn:Hb in E; [|done]. bool_to_prop. injection E as <- <-. cbn [fst snd].
    rewrite (ext4_size_spec i file R). cbn [obind]. pose proof (zlen_nonneg file).
    rewrite (seek_spec f (zlen file) from pos); [|done|done|done|done|destruct from; bool_to_prop; done].
    cbn [obind]. eexists _, _. split; [done|]. done.
Qed.

End Run.

Section Claims.
Context {C : ConstantsHal} {L : ConstantsLaws C} {D : Type} {DF : DiskFile D} {DL : DiskFileLaws D}.

Lemma ext4_run_spec ops : forall f i file outs s', ext4_rep (ei_disk i) (ei_cache i) file -> zlen file < 2 ^ 63 ->
  0 <= f_pos f < 2 ^ 63 -> spec_run (contains (f_flags f) O_APPEND) (file, f_pos f) ops = Some (outs, s') ->
  exists f' i', ext4_run f i ops = Ret (Some (outs, f', i')) /\ f_pos f' = s'.2 /\ ext4_rep (ei_disk i') (ei_cache i') s'.1 /\ zlen s'.1 < 2 ^ 63.
Proof.
  induction ops as [|op ops IH]; intros f i file outs s' R Hs Hf E; cbn [spec_run ext4_run] in *.
  - injection E as <- <-. by exists f, i.
  - destruct (spec_op _ _ op) as [[out [file1 pos1]]|] eqn:Eo; [|done].
    destruct (spec_run _ _ ops) as [[outs1 s1]|] eqn:Er; [|done]. injection E as <- <-.
    destruct (ext4_op_spec f i file op _ _ R Hs Hf Eo) as (f1 & i1 & -> & Hfl & Hp & R1 & Hs1 & Hf1). cbn [obind fst snd] in *.
    rewrite <- Hfl, <- Hp in Er. destruct (IH f1 i1 file1 outs1 s1 R1 Hs1 ltac:(lia) Er) as (f2 & i2 & -> & Hp2 & R2). by exists f2, i2.
Qed.

End Claims.

(** C15: The page cache of ext4 is transparent.  On a file that is opened, read, written
    and repositioned in any order, with or without O_APPEND, every call returns what
    it would on a plain list of bytes, as long as no write starts past the end; and
    when the inode is dropped the disk holds exactly that list: reading pages in,
    caching them, marking them dirty and writing back only those, each cut at the end
    of the cache, loses and invents nothing. *)
Theorem ext4_cache_transparent {C : ConstantsHal} {L : ConstantsLaws C} {D : Type} {DF : DiskFile D} {DL : DiskFileLaws D}
    (d : D) flags ops outs file pos (Hsmall : zlen (df_bytes d) < 2 ^ 63)
    (Hspec : spec_run (contains flags O_APPEND) (df_bytes d, 0) ops = Some (outs, (file, pos))) :
  exists f i d', ext4_run (mkFile 0 flags) (mkExt4 d cache_new) ops = Ret (Some (outs, f, i)) /\ f_pos f = pos /\
    ext4_drop i = Ret d' /\ df_bytes d' = file.
Proof.
  destruct (ext4_run_spec ops (mkFile 0 flags) (mkExt4 d cache_new) (df_bytes d) outs (file, pos)) as (f & i & E & Hp & R & Hs);
    [apply ext4_rep_open|done|done|done|]. cbn [fst snd] in *.
  destruct (ext4_drop_spec i file R Hs) as (d' & Ed & Hd). by exists f, i, d'.
Qed.

(** ** tmpfs *)

Section Tmp.
Context {C : ConstantsHal} {L : ConstantsLaws C}.

(** The byte at an offset; a hole reads as zero. *)
Definition tmp_byte (c : PageCache) (j : Z) : Z := default 0 (cached c j).

Lemma tmp_page_spec c i : cache_wf c -> 0 <= i ->
  exists p c', tmp_page c (page_offset i) = Ret (p, c') /\ cache_wf c' /\ pc_end c' = pc_end c /\
    pc_pages c' !! page_offset i = Some p /\ forall j, tmp_byte c' j = tmp_byte c j.
Proof.
  intros W Hi. unfold tmp_page. rewrite get_page_at. cbn [obind].
  destruct (pc_pages c !! page_offset i) as [p|] eqn:Ep; [by exists p, c|].
  rewrite insert_page_at. cbn [obind]. eexists _, _. split; [done|]. pose proof (wf_end c W).
  split; [apply insert_wf; [done|done|apply page_new_len|done]|]. split; [done|]. split; [cbn; by rewrite lookup_insert_eq|].
  intros j. unfold tmp_byte. rewrite cached_insert. destruct (Z.eqb_spec (page_offset j) (page_offset i)) as [E|]; [|done].
  rewrite page_new_get by apply page_split. unfold cached. by rewrite E, Ep.
Qed.

(** Where the end moves to when [len] bytes are written at [off]. *)
Definition tmp_end (off len : Z) : Z :=
  if len <=? 0 then 0 else if off mod PAGE_SIZE + len <=? PAGE_SIZE then page_offset off + len else off + len.

Lemma tmp_write_loop_spec : forall fuel i cur buf total, cache_wf (ti_cache i) -> ti_size i = pc_end (ti_cache i) ->
  0 <= cur -> cur + zlen buf < 2 ^ 63 -> (length buf < fuel)%nat ->
  exists i', tmp_write_loop fuel i cur buf total = Ret (Some (total + zlen buf, i')) /\ cache_wf (ti_cache i') /\
    ti_size i' = pc_end (ti_cache i') /\ ti_size i' = Z.max (ti_size i) (tmp_end cur (zlen buf)) /\
    forall j, tmp_byte (ti_cache i') j = if (cur <=? j) && (j <? cur + zlen buf) then default 0 (zget buf (j - cur)) else tmp_byte (ti_cache i) j.
Proof.
  induction fuel as [|fuel IH]; intros i cur buf total W Hsz Hcur Hbuf Hfuel; [lia|]. cbn [tmp_write_loop].
  pose proof (zlen_nonneg buf) as Hz. pose proof (wf_end _ W). unfold tmp_end. destruct (Z.leb_spec (zlen buf) 0) as [H0|H0].
  { exists i. assert (E0 : zlen buf = 0) by lia. rewrite E0, Z.add_0_r. split; [done|]. split; [done|]. split; [done|]. split; [lia|].
    intros j. by rewrite (Z.add_0_r cur); zcmp. }
  destruct (tmp_page_spec (ti_cache i) cur W Hcur) as (p & c1 & E & W1 & He1 & Ep & Hb1). rewrite E. cbn [obind fst snd].
  destruct (page_split cur) as [Ec Hm]. pose proof cache_page_size. pose proof (page_offset_nonneg cur Hcur).
  destruct (page_write_spec p (cur mod PAGE_SIZE) buf) as (q & Eq & _ & Hql & Hq);
    [by destruct (wf_key c1 W1 _ _ Ep) as (_ & _ & ?)|done|].
  set (n := Z.min (PAGE_SIZE - cur mod PAGE_SIZE) (zlen buf)) in *. rewrite Eq. cbn [obind fst snd].
  rewrite insert_page_at. cbn [obind]. rewrite !wadd_small by (unfold is_usize; lia). unfold update_end. cbn [pc_pages pc_end].
  set (c2 := mkCache _ _). assert (W2 : cache_wf c2) by (apply insert_wf; [done|done|done|lia]).
  change (pc_end c1 `max` (page_offset cur + n)) with (pc_end c2).
  destruct (IH (mkTmp (pc_end c2) c2) (cur + n) (zdrop n buf) (total + n) W2) as (i' & -> & W' & Hs' & Hmax & Hb'); [done|lia|rewrite zlen_zdrop; lia| |].
  { unfold zdrop. rewrite length_drop. unfold zlen in *. lia. }
  exists i'. cbn [ti_size ti_cache] in *. rewrite zlen_zdrop in * by lia.
  split; [do 3 f_equal; lia|]. split; [done|]. split; [done|]. split.
  - rewrite Hmax. unfold c2, tmp_end. cbn [pc_end]. destruct (Z.leb_spec (Z.max 0 (zlen buf - n)) 0); [rewrite (proj2 (Z.leb_le _ _)) by lia; lia|].
    assert (Hal : (cur + n) mod PAGE_SIZE = 0) by (replace (cur + n) with ((cur / PAGE_SIZE + 1) * PAGE_SIZE) by (unfold page_offset in *; lia); apply Z_mod_mult).
    destruct (page_split (cur + n)) as [Ec' _]. rewrite Hal in *. destruct (Z.leb_spec (0 + Z.max 0 (zlen buf - n)) PAGE_SIZE); zcmp.
  - intros j. rewrite Hb'. assert (Hc2 : tmp_byte c2 j = if (cur <=? j) && (j <? cur + n) then default 0 (zget buf (j - cur)) else tmp_byte (ti_cache i) j).
    { unfold tmp_byte at 1, c2. rewrite (cached_write c1 cur p (set_dirty q) n buf _ Ep); [|lia|exact Hq].
      destruct (_ && _); [done|]. fold (tmp_byte c1 j). apply Hb1. }
    rewrite Hc2. destruct (Z.leb_spec (cur + n) j), (Z.ltb_spec j (cur + n + Z.max 0 (zlen buf - n))), (Z.leb_spec cur j), (Z.ltb_spec j (cur + zlen buf)), (Z.ltb_spec j (cur + n)); try lia; cbn; try done.
    rewrite zget_zdrop by lia. f_equal. f_equal. lia.
Qed.

Lemma tmp_read_loop_spec size : 0 <= size < 2 ^ 63 -> forall fuel c cur len total out, cache_wf c -> size <= pc_end c ->
  0 <= cur <= size -> 0 <= len < Z.of_nat fuel ->
  exists bytes rest c', tmp_read_loop fuel size c cur len total out = Ret (Some (total + zlen bytes, out ++ bytes ++ rest, c')) /\
    zlen bytes = Z.min len (size - cur) /\ (forall j, 0 <= j < zlen bytes -> zget bytes j = Some (tmp_byte c (cur + j))) /\
    cache_wf c' /\ pc_end c' = pc_end c /\ forall j, tmp_byte c' j = tmp_byte c j.
Proof.
  intros Hs. induction fuel as [|fuel IH]; intros c cur len total out W Hend Hcur Hlen; [lia|]. cbn [tmp_read_loop].
  assert (Hz : zlen (@nil Z) = 0) by done.
  destruct (Z.leb_spec len 0).
  { exists [], [], c. rewrite Hz, Z.add_0_r, !app_nil_r.
    split; [done|]. split; [lia|]. split; [intros; lia|]. by split. }
  rewrite (proj2 (Z.ltb_ge (pc_end c) cur)) by lia.
  destruct (tmp_page_spec c cur W ltac:(lia)) as (p & c1 & E & W1 & He1 & Ep & Hb1). rewrite E. cbn [obind fst snd].
  destruct (page_split cur) as [Ec Hm]. pose proof cache_page_size. destruct (wf_key c1 W1 _ _ Ep) as (_ & _ & Hlp).
  destruct (page_read_spec p (cur mod PAGE_SIZE) len Hlp Hm) as (bs & -> & Hbl & Hb); [lia|]. cbn [obind].
  assert (Hbb : forall j, 0 <= j < zlen bs -> zget bs j = Some (tmp_byte c (cur + j))).
  { intros j Hj. destruct (page_offset_within (page_offset cur) (cur + j)) as [Eo Em]; [apply page_offset_id|lia|].
    rewrite Hb, <- Hb1 by done. unfold tmp_byte, cached. rewrite Eo, Ep, Em.
    replace (cur + j - page_offset cur) with (cur mod PAGE_SIZE + j) by lia.
    destruct (zget_in (pg_data p) (cur mod PAGE_SIZE + j)) as (b & ->); [lia|done]. }
  rewrite wadd_small by (unfold is_usize; lia). destruct (Z.ltb_spec size (cur + zlen bs)) as [Hlt|Hge].
  - rewrite (proj2 (Z.leb_le cur size)) by lia. cbn [guard_panic].
    assert (Ht : zlen (ztake (size - cur) bs) = size - cur) by (rewrite zlen_ztake; lia).
    exists (ztake (size - cur) bs), (zdrop (size - cur) bs), c1. rewrite Ht. unfold ztake at 1, zdrop. rewrite take_drop.
    split; [done|]. split; [lia|]. split; [|done]. intros j Hj. rewrite zget_ztake by lia. rewrite (proj2 (Z.ltb_lt _ _)) by lia. apply Hbb. lia.
  - destruct (IH c1 (cur + zlen bs) (len - zlen bs) (total + zlen bs) (out ++ bs) W1) as (bytes & rest & c' & -> & Hl & Hg & W' & He' & Hb'); [lia|lia|lia|].
    exists (bs ++ bytes), rest, c'. rewrite zlen_app, <- !app_assoc, Z.add_assoc. split; [done|]. split; [lia|]. split; [|split; [done|split; [lia|]]].
    + intros j Hj. rewrite zget_app. destruct (Z.ltb_spec j (zlen bs)); [by apply Hbb; lia|]. rewrite Hg, Hb1 by lia. do 2 f_equal. lia.
    + intros j. by rewrite Hb', Hb1.
Qed.

Lemma tmp_write_at_spec i off buf : cache_wf (ti_cache i) -> ti_size i = pc_end (ti_cache i) -> 0 <= off -> off + zlen buf < 2 ^ 63 ->
  exists i', tmp_write_at i off buf = Ret (Some (zlen buf, i')) /\ cache_wf (ti_cache i') /\
    ti_size i' = pc_end (ti_cache i') /\ ti_size i' = Z.max (ti_size i) (tmp_end off (zlen buf)) /\
    forall j, tmp_byte (ti_cache i') j = if (off <=? j) && (j <? off + zlen buf) then default 0 (zget buf (j - off)) else tmp_byte (ti_cache i) j.
Proof. intros W Hs Ho Hb. apply (tmp_write_loop_spec (S (length buf)) i off buf 0); done || lia. Qed.

Lemma tmp_read_at_spec i off len : cache_wf (ti_cache i) -> ti_size i = pc_end (ti_cache i) -> ti_size i < 2 ^ 63 -> 0 <= off -> 0 <= len ->
  exists bytes rest i', tmp_read_at i off len = Ret (Some (zlen bytes, bytes ++ rest, i')) /\
    zlen bytes = Z.max 0 (Z.min len (ti_size i - off)) /\ (forall j, 0 <= j < zlen bytes -> zget bytes j = Some (tmp_byte (ti_cache i) (off + j))).
Proof.
  intros W Hs Hsm Ho Hl. unfold tmp_read_at. pose proof (wf_end _ W). assert (Hz : zlen (@nil Z) = 0) by done. destruct (Z.leb_spec (ti_size i) off).
  - exists [], [], i. rewrite Hz. split; [done|]. split; [lia|]. intros; lia.
  - destruct (tmp_read_loop_spec (ti_size i) ltac:(lia) (S (Z.to_nat len)) (ti_cache i) off len 0 [] W) as (bytes & rest & c' & -> & Hb & Hg & _); [lia|lia|lia|].
    cbn [obind]. exists bytes, rest, (mkTmp (ti_size i) c'). rewrite Z.add_0_l, app_nil_l. split; [done|]. split; [lia|done].
Qed.

End Tmp.

Lemma tmp_end_small {C : ConstantsHal} {L : ConstantsLaws C} off len : 0 <= off -> 0 < len -> off + len < 2 ^ 63 -> 0 <= tmp_end off len < 2 ^ 63.
Proof.
  intros Ho Hl Hs. unfold tmp_end. pose proof (page_offset_nonneg off Ho). destruct (page_split off). zcmp.
Qed.

(** C16: what a tmpfs file holds after a write: the write reports every byte, a read
    anywhere gives the bytes written there and what was there before elsewhere, holes
    as zeroes, and never more than the size; and the size grows to the end of the write
    when the write crosses a page, but only to the start of the page plus the length
    when it stays within one. *)
Theorem tmp_write_read {C : ConstantsHal} {L : ConstantsLaws C} i off buf o n (W : cache_wf (ti_cache i))
    (Hsz : ti_size i = pc_end (ti_cache i)) (Hsm : ti_size i < 2 ^ 63) (Hoff : 0 <= off) (Hbuf : 0 < zlen buf)
    (Hend : off + zlen buf < 2 ^ 63) (Ho : 0 <= o) (Hn : 0 <= n) :
  exists i' bytes rest i'', tmp_write_at i off buf = Ret (Some (zlen buf, i')) /\
    ti_size i' = Z.max (ti_size i) (if off mod PAGE_SIZE + zlen buf <=? PAGE_SIZE then page_offset off + zlen buf else off + zlen buf) /\
    tmp_read_at i' o n = Ret (Some (zlen bytes, bytes ++ rest, i'')) /\ zlen bytes = Z.max 0 (Z.min n (ti_size i' - o)) /\
    forall j, 0 <= j < zlen bytes -> zget bytes j =
      Some (if (off <=? o + j) && (o + j <? off + zlen buf) then default 0 (zget buf (o + j - off)) else tmp_byte (ti_cache i) (o + j)).
Proof.
  destruct (tmp_write_at_spec i off buf W Hsz Hoff Hend) as (i' & E & W' & Hs' & Hm & Hb).
  pose proof (tmp_end_small off (zlen buf) Hoff Hbuf Hend).
  destruct (tmp_read_at_spec i' o n W' Hs' ltac:(lia) Ho Hn) as (bytes & rest & i'' & Er & Hl & Hg).
  exists i', bytes, rest, i''. split; [done|]. split; [|split; [done|split; [done|]]].
  - rewrite Hm. unfold tmp_end. by rewrite (proj2 (Z.leb_gt (zlen buf) 0)).
  - intros j Hj. by rewrite Hg, Hb.
Qed.

(** A file of tmpfs that is written in two pieces within its first page, one after
    the other through the same open file, ends up as long as the longer piece: both
    writes report success and move the position behind what they wrote, and reading the
    file back from the start gives fewer bytes than were written. *)
Theorem tmp_append_lost {C : ConstantsHal} {L : ConstantsLaws C} a b (Ha : 0 < zlen a) (Hb : 0 < zlen b) (Hab : zlen a + zlen b <= PAGE_SIZE) :
  exists i1 i2 bytes rest i3, tmp_file_write (mkFile 0 0) tmp_new a = Ret (Some (zlen a, mkFile (zlen a) 0, i1)) /\
    tmp_file_write (mkFile (zlen a) 0) i1 b = Ret (Some (zlen b, mkFile (zlen a + zlen b) 0, i2)) /\
    ti_size i2 = Z.max (zlen a) (zlen b) /\
    tmp_read_at i2 0 (zlen a + zlen b) = Ret (Some (zlen bytes, bytes ++ rest, i3)) /\ zlen bytes < zlen a + zlen b /\
    bytes = ztake (Z.max (zlen a) (zlen b)) (a ++ b).
Proof.
  pose proof cache_page_size as Hps. assert (Hn : cache_wf cache_new) by (split; cbn; [done|lia]).
  assert (Hp : page_offset (zlen a) = 0) by (unfold page_offset; rewrite Z.div_small; lia).
  assert (Hma : zlen a mod PAGE_SIZE = zlen a) by (apply Z.mod_small; lia).
  destruct (tmp_write_at_spec tmp_new 0 a Hn) as (i1 & E1 & W1 & S1 & M1 & B1); [done|lia|lia|].
  destruct (tmp_write_at_spec i1 (zlen a) b W1 S1) as (i2 & E2 & W2 & S2 & M2 & B2); [lia|lia|].
  assert (Hs1 : ti_size i1 = zlen a) by (rewrite M1; unfold tmp_end, page_offset, tmp_new; cbn [ti_size]; rewrite Z.mod_0_l, Z.div_0_l by lia; zcmp).
  assert (Hs2 : ti_size i2 = Z.max (zlen a) (zlen b)) by (rewrite M2, Hs1; unfold tmp_end; rewrite Hp, Hma; zcmp).
  destruct (tmp_read_at_spec i2 0 (zlen a + zlen b) W2 S2) as (bytes & rest & i3 & E3 & Hl & Hg); [lia|lia|lia|].
  exists i1, i2, bytes, rest, i3. unfold tmp_file_write. cbn [f_pos f_flags]. change (contains 0 O_APPEND) with false. cbn iota. cbn [f_pos f_flags].
  rewrite E1, E2. cbn [obind f_pos set_pos f_flags]. rewrite !wadd_small by (unfold is_usize; lia).
  split; [done|]. split; [done|]. split; [done|]. split; [done|]. split; [lia|].
  apply zget_ext. intros j Hj. rewrite zget_ztake by lia. destruct (Z.ltb_spec j (Z.max (zlen a) (zlen b))); [|apply zget_none; lia].
  rewrite Hg, Z.add_0_l, B2, B1 by lia. rewrite zget_app. destruct (Z.ltb_spec j (zlen a)).
  - replace ((zlen a <=? j) && (j <? zlen a + zlen b)) with false by zcmp. replace ((0 <=? j) && (j <? 0 + zlen a)) with true by zcmp.
    rewrite Z.sub_0_r. by destruct (zget_in a j) as (x & ->); [lia|].
  - replace ((zlen a <=? j) && (j <? zlen a + zlen b)) with true by zcmp. by destruct (zget_in b (j - zlen a)) as (x & ->); [lia|].
Qed.

(** ** Examples *)

#[local] Instance list_disk : DiskFile (list Z) := {
  df_size d := Ok (zlen d);
  df_read d off n := if (0 <=? off) && (off <=? zlen d) then Ok (ztake n (zdrop off d)) else Err 22;
  df_write d off b := if (0 <=? off) && (off <=? zlen d) then Ok (overlay d off b) else Err 22;
  df_truncate d n := Ok (n, ztake n d ++ replicate (Z.to_nat (n - zlen d)) 0);
}.

#[local] Instance list_disk_laws : DiskFileLaws (list Z).
Proof.
  refine {| df_bytes d := d |}.
  - done.
  - intros d off n Ho Hn. cbn. by replace ((0 <=? off) && (off <=? zlen d)) with true by zcmp.
  - intros d off b Ho. cbn. exists (overlay d off b). by replace ((0 <=? off) && (off <=? zlen d)) with true by zcmp.
Defined.

(** A file of three bytes: read two, write over the boundary of a page, go back and read. *)
Definition demo_ops : list file_op :=
  [OpRead 2; OpSeek (SeekEnd 0); OpWrite (replicate 4095 7); OpSeek (SeekStart 1); OpWrite [8; 9]; OpSeek (SeekCurrent 4092); OpRead 10].

Definition demo_outs : list (list Z) := [[1; 2]; []; []; []; []; []; [7; 7; 7]].

Definition demo_file : list Z := [1; 8; 9] ++ replicate 4095 7.

Lemma ext4_cache_transparent_witness : exists f i d',
  ext4_run (C := riscv64) (mkFile 0 0) (mkExt4 (D := list Z) [1; 2; 3] cache_new) demo_ops = Ret (Some (demo_outs, f, i)) /\ f_pos f = 4098 /\
    ext4_drop (C := riscv64) i = Ret d' /\ df_bytes d' = demo_file.
Proof.
  refine (ext4_cache_transparent (C := riscv64) (D := list Z) [1; 2; 3] 0 demo_ops demo_outs demo_file 4098 _ _).
  - vm_compute. reflexivity.
  - vm_compute. reflexivity.
Defined.

Lemma tmp_write_read_witness : exists i' bytes rest i'', tmp_write_at (C := riscv64) tmp_new 4094 [1; 2; 3] = Ret (Some (3, i')) /\
    ti_size i' = 4097 /\ tmp_read_at (C := riscv64) i' 4095 5 = Ret (Some (zlen bytes, bytes ++ rest, i'')) /\ zlen bytes = 2.
Proof.
  destruct (tmp_write_read (C := riscv64) tmp_new 4094 [1; 2; 3] 4095 5) as (i' & bytes & rest & i'' & E & Hs & Er & Hl & _);
    [split; cbn; [done|lia]|done|done|lia|done|done|lia|lia|].
  change (ti_size i' = 4097) in Hs. exists i', bytes, rest, i''. rewrite Hs in Hl. done.
Defined.

Lemma tmp_append_lost_witness : exists i1 i2 bytes rest i3,
  tmp_file_write (C := riscv64) (mkFile 0 0) tmp_new [1; 2; 3] = Ret (Some (3, mkFile 3 0, i1)) /\
  tmp_file_write (C := riscv64) (mkFile 3 0) i1 [4; 5] = Ret (Some (2, mkFile 5 0, i2)) /\ ti_size i2 = 3 /\
  tmp_read_at (C := riscv64) i2 0 5 = Ret (Some (zlen bytes, bytes ++ rest, i3)) /\ zlen bytes < 5 /\ bytes = [1; 2; 3].
Proof. apply (tmp_append_lost (C := riscv64) [1; 2; 3] [4; 5]); vm_compute; congruence. Defined.

(** A write past the end of an ext4 file that leaves a page out stops the kernel
    later, with a library that refuses to seek past the end: reading in the page left
    out does, and so does dropping the inode, which writes the page beyond the gap. *)
Theorem ext4_gap_panics : exists i,
  ext4_write_at (C := riscv64) (mkExt4 (D := list Z) [1; 2; 3] cache_new) 8192 [7] = Ret (Some (Ok 1, i)) /\
  ext4_read_at (C := riscv64) i 4096 1 = Panic /\ ext4_drop (C := riscv64) i = Panic.
Proof.
  assert (H : match ext4_write_at (C := riscv64) (mkExt4 (D := list Z) [1; 2; 3] cache_new) 8192 [7] with
              | Ret (Some (Ok n, i)) => (n =? 1) && match ext4_read_at (C := riscv64) i 4096 1, ext4_drop (C := riscv64) i with Panic, Panic => true | _, _ => false end
              | _ => false
              end = true) by (vm_compute; reflexivity).
  destruct (ext4_write_at _ 8192 [7]) as [[[[n|] i]|]|]; [|done|done|done]. apply andb_true_iff in H as [->%Z.eqb_eq H].
  exists i. split; [done|]. by destruct (ext4_read_at _ _ _), (ext4_drop _).
Qed.
