(* ===== verification/Path.v ===== *)
(** Paths (os/src/utils/path.rs): the name, the parent and the absolute form of a
    path, on byte strings, and what Rust's string functions do to them. *)

From S2P Require Import Prelude.
From Stdlib Require Import Ascii String.
From stdpp Require Import strings.

#[local] Open Scope string_scope.

Definition slash : ascii := "/"%char.

(** ** String functions of the language *)

(** [trim_end_matches('/')] and [trim_start_matches('/')]. *)
Fixpoint trim_end (s : string) : string :=
  match s with
  | EmptyString => EmptyString
  | String a s =>
      match trim_end s with
      | EmptyString => if bool_decide (a = slash) then EmptyString else String a EmptyString
      | t => String a t
      end
  end.

Fixpoint trim_start (s : string) : string :=
  match s with
  | String a t => if bool_decide (a = slash) then trim_start t else s
  | EmptyString => EmptyString
  end.

(** [trim_start_matches("./")] *)
Fixpoint trim_start_here (s : string) : string :=
  match s with
  | String a (String b t) => if bool_decide (a = "."%char) && bool_decide (b = slash) then trim_start_here t else s
  | _ => s
  end.

(** [split('/')] *)
Fixpoint split_slash (s : string) : list string :=
  match s with
  | EmptyString => [""]
  | String a s =>
      match split_slash s with
      | [] => []
      | w :: ws => if bool_decide (a = slash) then "" :: w :: ws else String a w :: ws
      end
  end.

(** [join("/")] *)
Fixpoint join_slash (ws : list string) : string :=
  match ws with
  | [] => ""
  | [w] => w
  | w :: ws => w +:+ "/" +:+ join_slash ws
  end.

(** [rfind('/')], as the text before the last slash. *)
Fixpoint before_last_slash (s : string) : option string :=
  match s with
  | EmptyString => None
  | String a s =>
      match before_last_slash s with
      | Some t => Some (String a t)
      | None => if bool_decide (a = slash) then Some "" else None
      end
  end.

Definition starts_slash (s : string) : bool := match s with String a _ => bool_decide (a = slash) | _ => false end.

Fixpoint ends_slash (s : string) : bool :=
  match s with
  | EmptyString => false
  | String a EmptyString => bool_decide (a = slash)
  | String _ s => ends_slash s
  end.

(** ** The functions on paths *)

Definition abs_path_to_name (path : string) : option string :=
  if bool_decide (path = "") then None else last (split_slash (trim_end path)).

Definition abs_path_to_parent (path : string) : option string :=
  match before_last_slash (trim_end path) with
  | Some "" => Some "/"
  | Some parent => Some parent
  | None => None
  end.

Definition rel_path_to_abs (parent_path rel_path : string) : option string :=
  if starts_slash parent_path then
    let abs_path := if Nat.eqb (String.length parent_path) 1 || ends_slash parent_path then parent_path else parent_path +:+ "/" in
    let rel_path := trim_start_here rel_path in
    if bool_decide (rel_path = "") || bool_decide (rel_path = ".") then Some (trim_end abs_path)
    else Some (abs_path +:+ rel_path)
  else None.

(** ** Lemmas *)

(** A name: not empty and without slashes. *)
Fixpoint no_slash (s : string) : bool :=
  match s with
  | EmptyString => true
  | String a s => negb (bool_decide (a = slash)) && no_slash s
  end.

Definition is_name (s : string) : bool := no_slash s && negb (bool_decide (s = "")).

Lemma app_assoc_str (a b c : string) : (a +:+ b) +:+ c = a +:+ (b +:+ c).
Proof. induction a as [|x a IH]; [done|]. exact (f_equal (String x) IH). Qed.

Lemma app_nil_str (a : string) : a +:+ "" = a.
Proof. induction a as [|x a IH]; [done|]. exact (f_equal (String x) IH). Qed.

Lemma split_slash_cons s : exists w ws, split_slash s = w :: ws.
Proof.
  induction s as [|a s (w & ws & E)]; cbn; [eauto|]. rewrite E. case_bool_decide; eauto.
Qed.

Lemma split_no_slash s : no_slash s = true -> split_slash s = [s].
Proof.
  induction s as [|a s IH]; cbn; [done|]. intros [Ha Hs]%andb_true_iff. rewrite IH by done.
  case_bool_decide; done.
Qed.

(** Splitting the two sides of a slash. *)
Lemma app_cons_str x a b : String x a +:+ b = String x (a +:+ b).
Proof. done. Qed.

Lemma split_app a b : split_slash (a +:+ "/" +:+ b) = (split_slash a ++ split_slash b)%list.
Proof.
  induction a as [|x a IH].
  - change ("" +:+ "/" +:+ b) with (String slash b). cbn. by destruct (split_slash_cons b) as (w & ws & ->).
  - rewrite app_cons_str. cbn [split_slash]. rewrite IH. destruct (split_slash_cons a) as (w & ws & ->). cbn. by case_bool_decide.
Qed.

Lemma split_name_app a n : is_name n = true -> last (split_slash (a +:+ "/" +:+ n)) = Some n.
Proof.
  intros [Hn _]%andb_true_iff. rewrite split_app, (split_no_slash n) by done. apply last_snoc.
Qed.

Lemma before_last_none n : no_slash n = true -> before_last_slash n = None.
Proof.
  induction n as [|a n IH]; cbn; [done|]. intros [Ha Hn]%andb_true_iff. rewrite IH by done. by case_bool_decide.
Qed.

Lemma before_last_app a n : no_slash n = true -> before_last_slash (a +:+ "/" +:+ n) = Some a.
Proof.
  intros Hn. induction a as [|x a IH].
  - change ("" +:+ "/" +:+ n) with (String slash n). cbn. by rewrite before_last_none.
  - rewrite app_cons_str. cbn [before_last_slash]. by rewrite IH.
Qed.

Lemma trim_end_name n : is_name n = true -> trim_end n = n.
Proof.
  unfold is_name. intros [Hn Hne]%andb_true_iff. induction n as [|a n IH]; [done|].
  cbn in Hn. apply andb_true_iff in Hn as [Ha Hn]. cbn [trim_end]. apply negb_true_iff in Ha.
  destruct n as [|b n]; [cbn; by rewrite Ha|]. rewrite IH; done.
Qed.

(** Trimming leaves a text that ends with a name alone. *)
Lemma trim_end_app a n : is_name n = true -> trim_end (a +:+ n) = a +:+ n.
Proof.
  intros Hn. induction a as [|x a IH]; [by apply trim_end_name|]. rewrite app_cons_str. cbn [trim_end]. rewrite IH.
  destruct (a +:+ n) eqn:E; [|done]. exfalso. destruct a; [|done]. change ("" +:+ n) with n in E. by subst n.
Qed.

Lemma trim_start_here_name n : is_name n = true -> trim_start_here n = n.
Proof.
  intros [Hn _]%andb_true_iff. destruct n as [|a [|b n]]; try done. cbn in *.
  apply andb_true_iff in Hn as [_ [Hb _]%andb_true_iff]. apply negb_true_iff in Hb. by rewrite Hb, andb_false_r.
Qed.

(** A directory path: the root, or one that starts but does not end with a slash. *)
Definition is_dir_path (p : string) : bool := bool_decide (p = "/") || (starts_slash p && negb (ends_slash p)).

(** The path of an entry of a directory. *)
Definition child_path (p n : string) : string := if bool_decide (p = "/") then "/" +:+ n else p +:+ "/" +:+ n.

Lemma child_path_name p n : is_name n = true -> abs_path_to_name (child_path p n) = Some n.
Proof.
  intros Hn. unfold child_path. case_bool_decide as Hp; unfold abs_path_to_name.
  - change (bool_decide ("/" +:+ n = "")) with false. rewrite trim_end_app by done. by apply (split_name_app "").
  - replace (bool_decide (p +:+ "/" +:+ n = "")) with false by (symmetry; apply bool_decide_false; by destruct p).
    rewrite <- app_assoc_str, trim_end_app, app_assoc_str by done. by apply split_name_app.
Qed.

Lemma child_path_parent p n : is_name n = true -> is_dir_path p = true -> abs_path_to_parent (child_path p n) = Some p.
Proof.
  intros Hn Hp. unfold abs_path_to_parent, child_path. pose proof (proj1 (andb_prop _ _ Hn)) as Hns. case_bool_decide as Hr.
  - rewrite (trim_end_app "/") by done. assert (E : before_last_slash ("/" +:+ n) = Some "") by by apply (before_last_app ""). rewrite E. by subst.
  - rewrite <- app_assoc_str, trim_end_app, app_assoc_str, before_last_app by done. by destruct p.
Qed.

Lemma rel_path_child p n : is_name n = true -> n <> "." -> is_dir_path p = true -> rel_path_to_abs p n = Some (child_path p n).
Proof.
  intros Hn Hd Hp. unfold rel_path_to_abs, child_path. rewrite trim_start_here_name by done.
  rewrite (bool_decide_false (n = "")) by (intros ->; done). rewrite (bool_decide_false (n = ".")) by done. cbn [orb].
  unfold is_dir_path in Hp. case_bool_decide as Hr; [by subst|]. cbn in Hp. apply andb_true_iff in Hp as [Hs He].
  rewrite Hs. apply negb_true_iff in He. rewrite He. destruct p as [|a [|b p]]; [done| |by cbn; rewrite !app_assoc_str].
  cbn in Hs, He. congruence.
Qed.
