(* ===== verification/Vfs.v ===== *)
(** The name space (os/src/fs/vfs/dentry.rs and the dentries and inodes of ext4, tmpfs
    and the simple file system): dentries that hold their children and point weakly at
    their parent, the cache from paths to dentries, and the lookups that fill it. *)

From S2P Require Import Prelude Errno Path.
From Stdlib Require Import Ascii String.
From stdpp Require Import strings.

#[local] Open Scope Z_scope.

(** ** Calls that fail *)

(** A function on a state that panics or returns a [Result]; [let?] is the operator
    [?] of the language. *)
Definition call (S A : Type) : Type := S -> outcome (result A SysError * S).

Definition cret {S A} (a : A) : call S A := fun s => Ret (Ok a, s).
Definition cerr {S A} (e : SysError) : call S A := fun s => Ret (Err e, s).
Definition cpanic {S A} : call S A := fun _ => Panic.
Definition cget {S} : call S S := fun s => Ret (Ok s, s).
Definition cput {S} (s : S) : call S unit := fun _ => Ret (Ok tt, s).
Definition clift {S A} (o : outcome A) : call S A := fun s => let! a := o in Ret (Ok a, s).
Definition cunwrap {S A} (o : option A) : call S A := match o with Some a => cret a | None => cpanic end.
Definition cok_or {S A} (o : option A) (e : SysError) : call S A := match o with Some a => cret a | None => cerr e end.

Definition cbind {S A B} (m : call S A) (k : A -> call S B) : call S B :=
  fun s => let! r := m s in match r.1 with Ok a => k a r.2 | Err e => Ret (Err e, r.2) end.

Notation "'let?' x ':=' m 'in' k" := (cbind m (fun x => k)) (at level 10, x name, m at level 100, k at level 200).

(** The order of strings, byte by byte. *)
Fixpoint str_le (a b : string) : bool :=
  match a, b with
  | EmptyString, _ => true
  | String _ _, EmptyString => false
  | String x a, String y b =>
      match N.compare (N_of_ascii x) (N_of_ascii y) with Lt => true | Gt => false | Eq => str_le a b end
  end.

(** The entries of a [BTreeMap] with string keys. *)
Definition key_le {A} (a b : string * A) : Prop := str_le a.1 b.1 = true.

#[export] Instance key_le_dec {A} (a b : string * A) : Decision (key_le a b).
Proof. unfold key_le. apply _. Defined.

Definition str_iter {A} (m : gmap string A) : list (string * A) := merge_sort key_le (map_to_list m).

(** ** Modes of inodes *)

Definition TYPE_MASK : Z := 0xf000.
Definition MODE_FIFO : Z := 0x1000.
Definition MODE_CHAR : Z := 0x2000.
Definition MODE_DIR : Z := 0x4000.
Definition MODE_BLOCK : Z := 0x6000.
Definition MODE_FILE : Z := 0x8000.
Definition MODE_LINK : Z := 0xa000.
Definition MODE_SOCKET : Z := 0xc000.

(** The kinds of entries of the ext4 library. *)
Inductive InodeTypes := DE_UNKNOWN | DE_REG_FILE | DE_DIR | DE_CHRDEV | DE_BLKDEV | DE_FIFO | DE_SOCK | DE_SYMLINK.

Definition from_inode_type (t : InodeTypes) : Z :=
  Z.lor (match t with
         | DE_DIR => MODE_DIR
         | DE_REG_FILE => MODE_FILE
         | DE_CHRDEV => MODE_CHAR
         | DE_FIFO => MODE_FIFO
         | DE_BLKDEV => MODE_BLOCK
         | DE_SOCK => MODE_SOCKET
         | DE_SYMLINK => MODE_LINK
         | DE_UNKNOWN => TYPE_MASK
         end) 0x1ff.

Definition get_type (mode : Z) : Z := Z.land mode TYPE_MASK.

Definition InodeTypes_from (mode : Z) : InodeTypes :=
  let t := get_type mode in
  if t =? MODE_DIR then DE_DIR
  else if t =? MODE_FILE then DE_REG_FILE
  else if t =? MODE_LINK then DE_SYMLINK
  else if t =? MODE_CHAR then DE_CHRDEV
  else if t =? MODE_BLOCK then DE_BLKDEV
  else if t =? MODE_FIFO then DE_FIFO
  else if t =? MODE_SOCKET then DE_SOCK
  else DE_UNKNOWN.

(** ** Dentries and inodes *)

Inductive DentryState := USED | UNUSED | NEGATIVE.

#[export] Instance DentryState_eq_dec : EqDecision DentryState.
Proof. solve_decision. Defined.

(** The implementations of the trait: of ext4, of tmpfs, of plain directories, and of
    the devices and the files of procfs, which keep the defaults of the trait. *)
Inductive DentryKind := Ext4Dentry | TmpDentry | SpDentry | DevDentry.

Record Dentry := mkDentry {
  d_kind : DentryKind;
  d_name : string;
  d_inode : option nat;
  d_parent : option nat;
  d_children : gmap string nat;
  d_state : DentryState;
}.

Definition DentryInner_new (kind : DentryKind) (name : string) (parent : option nat) : Dentry :=
  mkDentry kind name None parent ∅ UNUSED.

(** An inode of ext4 is a path in the library; one of tmpfs has its contents elsewhere;
    [IExe] is the link to the program of the task. *)
Inductive InodeKind := IExt4 (path : string) (ty : InodeTypes) | ITmp | ISp | IDev | IExe.

Record Inode := mkInode { i_kind : InodeKind; i_mode : Z }.

(** The ext4 library on its disk; an operation that fails may have changed it. *)
Class Ext4Lib (W : Type) := {
  lib_exists : W -> string -> InodeTypes -> bool;
  lib_entries : W -> string -> result (list string) Z;
  lib_dir_mk : W -> string -> result unit Z * W;
  lib_create : W -> string -> result unit Z * W;
  lib_file_remove : W -> string -> result unit Z * W;
  lib_dir_rm : W -> string -> result unit Z * W;
  lib_file_rename : W -> string -> string -> result unit Z * W;
  lib_dir_mv : W -> string -> string -> result unit Z * W;
  lib_symlink : W -> string -> string -> result unit Z * W;
  lib_link : W -> string -> string -> result unit Z * W;
  lib_readlink : W -> string -> result string Z;
}.

Section Vfs.
Context {W : Type} {LIB : Ext4Lib W}.

(** The objects by number, a number per [Arc]; [v_pins] are the dentries that super
    blocks, open files and working directories hold.  An object that is no longer held
    stays in the map, where only a weak pointer can name it.  [v_exe] is the program of
    the running task, if it has one, and the dentry of its file. *)
Record Vfs := mkVfs {
  v_dentries : gmap nat Dentry;
  v_next : nat;
  v_inodes : gmap nat Inode;
  v_next_ino : nat;
  v_dcache : gmap string nat;
  v_pins : list nat;
  v_disk : W;
  v_exe : option (option nat);
}.

Definition with_dentries (s : Vfs) (d : gmap nat Dentry) : Vfs :=
  mkVfs d (v_next s) (v_inodes s) (v_next_ino s) (v_dcache s) (v_pins s) (v_disk s) (v_exe s).
Definition with_dcache (s : Vfs) (c : gmap string nat) : Vfs :=
  mkVfs (v_dentries s) (v_next s) (v_inodes s) (v_next_ino s) c (v_pins s) (v_disk s) (v_exe s).
Definition with_pins (s : Vfs) (l : list nat) : Vfs :=
  mkVfs (v_dentries s) (v_next s) (v_inodes s) (v_next_ino s) (v_dcache s) l (v_disk s) (v_exe s).
Definition with_disk (s : Vfs) (w : W) : Vfs :=
  mkVfs (v_dentries s) (v_next s) (v_inodes s) (v_next_ino s) (v_dcache s) (v_pins s) w (v_exe s).

#[local] Abbreviation vcall := (call Vfs).

Definition dentry (o : nat) : vcall Dentry := fun s => let! d := unwrap (v_dentries s !! o) in Ret (Ok d, s).
Definition inode (i : nat) : vcall Inode := fun s => let! d := unwrap (v_inodes s !! i) in Ret (Ok d, s).

Definition upd_dentry (o : nat) (f : Dentry -> Dentry) : vcall unit :=
  let? s := cget in
  let? d := dentry o in
  cput (with_dentries s (<[o := f d]> (v_dentries s))).

(** A new dentry object. *)
Definition alloc_dentry (d : Dentry) : vcall nat :=
  fun s => Ret (Ok (v_next s),
                mkVfs (<[v_next s := d]> (v_dentries s)) (S (v_next s)) (v_inodes s) (v_next_ino s) (v_dcache s) (v_pins s) (v_disk s) (v_exe s)).

Definition alloc_inode (i : Inode) : vcall nat :=
  fun s => Ret (Ok (v_next_ino s),
                mkVfs (v_dentries s) (v_next s) (<[v_next_ino s := i]> (v_inodes s)) (S (v_next_ino s)) (v_dcache s) (v_pins s) (v_disk s) (v_exe s)).

(** *** The methods of the trait *)

Definition d_inode_of (o : nat) : vcall (option nat) := let? d := dentry o in cret (d_inode d).

Definition set_inode (o i : nat) : vcall unit :=
  upd_dentry o (fun d => mkDentry (d_kind d) (d_name d) (Some i) (d_parent d) (d_children d) USED).

Definition set_state (o : nat) (st : DentryState) : vcall unit :=
  upd_dentry o (fun d => mkDentry (d_kind d) (d_name d) (d_inode d) (d_parent d) (d_children d) st).

(** tmpfs keeps the inode. *)
Definition clear_inode (o : nat) : vcall unit :=
  upd_dentry o (fun d => mkDentry (d_kind d) (d_name d) (match d_kind d with TmpDentry => d_inode d | _ => None end)
                                  (d_parent d) (d_children d) NEGATIVE).

Definition state (o : nat) : vcall DentryState := let? d := dentry o in cret (d_state d).

Definition is_negative (o : nat) : vcall bool := let? d := dentry o in cret (bool_decide (d_state d = NEGATIVE)).

Definition get_child (o : nat) (name : string) : vcall (option nat) := let? d := dentry o in cret (d_children d !! name).

Definition add_child (o child : nat) : vcall unit :=
  let? c := dentry child in
  upd_dentry o (fun d => mkDentry (d_kind d) (d_name d) (d_inode d) (d_parent d) (<[d_name c := child]> (d_children d)) (d_state d)).

Definition remove_child (o : nat) (name : string) : vcall unit :=
  upd_dentry o (fun d => mkDentry (d_kind d) (d_name d) (d_inode d) (d_parent d) (delete name (d_children d)) (d_state d)).

(** An object is alive while the cache, a pin or the children of a living dentry hold
    it; a holder is older than what it holds. *)
Definition holds {K} `{Countable K} (m : gmap K nat) (o : nat) : bool := existsb (fun e => Nat.eqb e.2 o) (map_to_list m).

Fixpoint alive (fuel : nat) (s : Vfs) (o : nat) : bool :=
  if holds (v_dcache s) o || existsb (Nat.eqb o) (v_pins s) then true
  else
    match fuel with
    | O => false
    | S fuel => existsb (fun e => if holds (d_children e.2) o then alive fuel s e.1 else false) (map_to_list (v_dentries s))
    end.

(** [p.upgrade().unwrap()] *)
Definition parent (o : nat) : vcall (option nat) :=
  let? s := cget in
  let? d := dentry o in
  match d_parent d with
  | None => cret None
  | Some p => if alive p s p then cret (Some p) else cpanic
  end.

(** [path]; a parent is older than its child, so the number of the dentry is enough. *)
Fixpoint path_from (fuel o : nat) : vcall string :=
  match fuel with
  | O => cpanic
  | S fuel =>
      let? d := dentry o in
      let? p := parent o in
      match p with
      | Some p =>
          let? p_path := path_from fuel p in
          cret (if bool_decide (p_path = "/"%string) then (p_path +:+ d_name d)%string else (p_path +:+ "/" +:+ d_name d)%string)
      | None => cret "/"%string
      end
  end.

Definition path (o : nat) : vcall string := path_from (S o) o.

Definition dcache_get (key : string) : vcall (option nat) := let? s := cget in cret (v_dcache s !! key).
Definition dcache_insert (key : string) (o : nat) : vcall unit :=
  let? s := cget in cput (with_dcache s (<[key := o]> (v_dcache s))).

(** *** The methods of inodes *)

(** A library call that changes the disk. *)
Definition lib_do (f : W -> result unit Z * W) : vcall (result unit Z) :=
  fun s => let r := f (v_disk s) in Ret (Ok r.1, with_disk s r.2).

Definition ext4_inode (path : string) (ty : InodeTypes) : vcall nat := alloc_inode (mkInode (IExt4 path ty) (from_inode_type ty)).

Definition ls (i : nat) : vcall (list string) :=
  let? n := inode i in
  let? s := cget in
  match i_kind n with
  | IExt4 path _ => match lib_entries (v_disk s) path with Ok names => cret names | Err _ => cpanic end
  | _ => cpanic
  end.

Definition lookup_inode (i : nat) (name : string) : vcall (option nat) :=
  let? n := inode i in
  let? s := cget in
  match i_kind n with
  | IExt4 path _ =>
      let full_path := (trim_end path +:+ "/" +:+ name)%string in
      let found ty := let? c := ext4_inode full_path ty in cret (Some c) in
      if lib_exists (v_disk s) full_path DE_REG_FILE then found DE_REG_FILE
      else if lib_exists (v_disk s) full_path DE_DIR then found DE_DIR
      else if lib_exists (v_disk s) full_path DE_SYMLINK then found DE_SYMLINK
      else cret None
  | ISp => cret None
  | _ => cpanic
  end.

Definition inode_create (i : nat) (name : string) (mode : Z) : vcall (option nat) :=
  let? n := inode i in
  let? s := cget in
  match i_kind n with
  | IExt4 parent_path _ =>
      let ty := InodeTypes_from mode in
      let? fpath := cunwrap (rel_path_to_abs parent_path name) in
      if bool_decide (fpath = ""%string) then cret None
      else
        let? r := if lib_exists (v_disk s) fpath ty then cret (Ok tt)
                  else match ty with
                       | DE_DIR => lib_do (fun w => lib_dir_mk w fpath)
                       | _ => let? r := lib_do (fun w => lib_create w fpath) in match r with Ok _ => cret r | Err _ => cpanic end
                       end in
        match r with
        | Ok _ => let? c := ext4_inode fpath ty in cret (Some c)
        | Err _ => cret None
        end
  | ITmp => let? c := alloc_inode (mkInode ITmp mode) in cret (Some c)
  | _ => cpanic
  end.

(** The errors of the library are numbers of its own. *)
Definition inode_remove (i : nat) (name : string) (mode : Z) : vcall (result unit Z) :=
  let? n := inode i in
  match i_kind n with
  | IExt4 parent_path _ =>
      let? fpath := cunwrap (rel_path_to_abs parent_path name) in
      if bool_decide (fpath = ""%string) then cpanic
      else
        match InodeTypes_from mode with
        | DE_REG_FILE => lib_do (fun w => lib_file_remove w fpath)
        | DE_DIR => lib_do (fun w => lib_dir_rm w fpath)
        | _ => cpanic
        end
  | ITmp => cret (Ok tt)
  | _ => cpanic
  end.

Definition inode_symlink (i : nat) (target : string) : vcall nat :=
  let? n := inode i in
  match i_kind n with
  | IExt4 path _ =>
      let? r := lib_do (fun w => lib_symlink w path target) in
      match r with Ok _ => ext4_inode target DE_SYMLINK | Err _ => cpanic end
  | _ => cpanic
  end.

Definition inode_link (i : nat) (target : string) : vcall unit :=
  let? n := inode i in
  match i_kind n with
  | IExt4 path _ =>
      let? r := lib_do (fun w => lib_link w path target) in
      match r with Ok _ => cret tt | Err _ => cpanic end
  | _ => cpanic
  end.

Definition inode_readlink (i : nat) : vcall string :=
  let? n := inode i in
  let? s := cget in
  match i_kind n with
  | IExt4 path _ => match lib_readlink (v_disk s) path with Ok t => cret t | Err _ => cpanic end
  | IExe => match v_exe s with None => cerr ENFILE | Some None => cerr ENOENT | Some (Some o) => path o end
  | _ => cpanic
  end.

(** The results of the library are dropped; an inode of another file system refuses. *)
Definition inode_rename (i : nat) (target : string) (new_inode : option nat) : vcall unit :=
  let? n := inode i in
  match i_kind n with
  | IExt4 old_path ty =>
      let old_mode := get_type (from_inode_type ty) in
      let? _ := match new_inode with
                | None => cret tt
                | Some ni =>
                    let? nn := inode ni in
                    let new_mode := i_mode nn in
                    if negb (new_mode =? old_mode) then
                      if (old_mode =? MODE_FILE) && (new_mode =? MODE_DIR) then cerr EISDIR
                      else if (old_mode =? MODE_DIR) && (new_mode =? MODE_FILE) then cerr ENOTDIR
                      else cpanic
                    else if new_mode =? MODE_FILE then let? _ := lib_do (fun w => lib_file_remove w target) in cret tt
                    else if new_mode =? MODE_DIR then let? _ := lib_do (fun w => lib_dir_rm w target) in cret tt
                    else cpanic
                end in
      if old_mode =? MODE_FILE then let? _ := lib_do (fun w => lib_file_rename w old_path target) in cret tt
      else if old_mode =? MODE_DIR then let? _ := lib_do (fun w => lib_dir_mv w old_path target) in cret tt
      else cpanic
  | _ => cerr EINVAL
  end.

(** *** Lookups *)

(** The children that are not negative, in the order of their names. *)
Definition children_list (o : nat) (keep_negative : bool) : vcall (list nat) :=
  let? s := cget in
  let? d := dentry o in
  cret (filter (fun c => keep_negative = true \/ (d_state <$> v_dentries s !! c) <> Some NEGATIVE) (snd <$> str_iter (d_children d))).

(** One name of the directory on the disk. *)
Definition ext4_load_one (o i : nat) (name : string) : vcall (list nat) :=
  if bool_decide (name = "."%string) || bool_decide (name = ".."%string) then cret []
  else
    let? c := get_child o name in
    match c with
    | Some _ => cret []
    | None =>
        let? ci := lookup_inode i name in
        let? ci := cunwrap ci in
        let? d := dentry o in
        let? c := alloc_dentry (DentryInner_new (d_kind d) name (Some o)) in
        let? _ := set_inode c ci in
        let? _ := set_state c USED in
        let? _ := add_child o c in
        let? p := path c in
        let? _ := dcache_insert p c in
        cret [c]
    end.

Fixpoint ext4_load (o i : nat) (names : list string) : vcall (list nat) :=
  match names with
  | [] => cret []
  | name :: names =>
      let? a := ext4_load_one o i name in
      let? b := ext4_load o i names in
      cret (a ++ b)%list
  end.

Definition load_child_dentry (o : nat) : vcall (list nat) :=
  let? d := dentry o in
  match d_kind d with
  | Ext4Dentry =>
      let? i := cunwrap (d_inode d) in
      let? old := children_list o false in
      let? names := ls i in
      let? new := ext4_load o i names in
      cret (old ++ new)%list
  | TmpDentry => children_list o false
  | SpDentry => children_list o true
  | DevDentry => cerr ENOTDIR
  end.

Definition new_neg_dentry (o : nat) (name : string) : vcall nat :=
  let? d := dentry o in
  match d_kind d with
  | DevDentry => cpanic
  | k =>
      let? c := alloc_dentry (DentryInner_new k name (Some o)) in
      let? _ := set_state c NEGATIVE in
      cret c
  end.

Fixpoint walk_names (o : nat) (names : list string) : vcall nat :=
  match names with
  | [] => cret o
  | name :: names =>
      let? c := get_child o name in
      match c with
      | Some c => walk_names c names
      | None =>
          let? _ := load_child_dentry o in
          let? c := get_child o name in
          match c with
          | Some c => walk_names c names
          | None =>
              let? n := new_neg_dentry o name in
              let? p := path n in
              let? _ := dcache_insert p n in
              cret n
          end
      end
  end.

(** The components of a path that [walk] looks at. *)
Definition path_names (p : string) : list string := filter (fun w => w <> ""%string /\ w <> "."%string) (split_slash p).

Definition walk (o : nat) (p : string) : vcall nat := walk_names o (path_names p).

(** The components of [find]: ".." goes to the parent at once, wherever it stands. *)
Fixpoint find_names (current : nat) (ws : list string) : vcall (nat * list string) :=
  match ws with
  | [] => cret (current, [])
  | w :: ws =>
      if bool_decide (w = ""%string) || bool_decide (w = "."%string) then find_names current ws
      else if bool_decide (w = ".."%string) then
        let? p := parent current in
        let? p := cok_or p ENOENT in
        find_names p ws
      else
        let? r := find_names current ws in
        cret (r.1, w :: r.2)
  end.

Definition dentry_find (o : nat) (p : string) : vcall (option nat) :=
  let p := trim_start p in
  if bool_decide (p = ""%string) then cret (Some o)
  else
    let? r := find_names o (split_slash p) in
    let? cp := path r.1 in
    let? hit := dcache_get (cp +:+ join_slash r.2)%string in
    match hit with
    | Some d => let? n := is_negative d in cret (if n then None else Some d)
    | None =>
        let? d := walk r.1 p in
        let? n := is_negative d in
        cret (if n then None else Some d)
    end.

Definition global_find_dentry (p : string) : vcall nat :=
  let? hit := dcache_get p in
  match hit with
  | Some d => cret d
  | None =>
      let? root := dcache_get "/" in
      let? root := cunwrap root in
      walk root p
  end.

Definition MAX_LINK_DEPTH : nat := 40.

Fixpoint follow_from (depth o : nat) : vcall nat :=
  match depth with
  | O => cerr ELOOP
  | S depth =>
      let? n := is_negative o in
      if n then cret o
      else
        let? i := d_inode_of o in
        let? i := cunwrap i in
        let? ino := inode i in
        if Z.land (i_mode ino) MODE_LINK =? MODE_LINK then
          let? p := inode_readlink i in
          let? o := global_find_dentry p in
          follow_from depth o
        else cret o
  end.

Definition follow (o : nat) : vcall nat := follow_from MAX_LINK_DEPTH o.

Definition global_update_dentry (p : string) (i : nat) : vcall unit :=
  let? hit := dcache_get p in
  match hit with Some d => set_inode d i | None => cret tt end.

(** *** Mounting *)

(** A super block holds the root of its file system. *)
Definition pin (o : nat) : vcall unit := let? s := cget in cput (with_pins s (o :: v_pins s)).

(** The root of a file system, in the cache under a key. *)
Definition mount_root (kind : DentryKind) (name : string) (parent : option nat) (i : Inode) (key : option string) : vcall nat :=
  let? ri := alloc_inode i in
  let? r := alloc_dentry (DentryInner_new kind name parent) in
  let? _ := set_inode r ri in
  let? _ := set_state r USED in
  let? _ := pin r in
  let? k := match key with Some k => cret k | None => path r end in
  let? _ := dcache_insert k r in
  cret r.

(** The mount point of the second ext4 is not an absolute path. *)
Definition ext4_mount (name : string) (parent : option nat) : vcall nat :=
  let mp := match parent with None => "/" | Some _ => "sdcard/" end%string in
  mount_root Ext4Dentry name parent (mkInode (IExt4 mp DE_DIR) (from_inode_type DE_DIR)) (Some mp).

Definition tmpfs_mount (name : string) (parent : option nat) : vcall nat :=
  mount_root TmpDentry name parent (mkInode ITmp MODE_DIR) None.

Definition devfs_mount (name : string) (parent : option nat) : vcall nat :=
  mount_root SpDentry name parent (mkInode ISp MODE_DIR) None.

Definition procfs_mount (name : string) (parent : option nat) : vcall nat :=
  mount_root SpDentry name parent (mkInode ISp MODE_DIR) None.

(** A dentry made with one parent and put among the children of another. *)
Definition add_node (parent holder : nat) (kind : DentryKind) (name : string) (i : Inode) : vcall nat :=
  let? o := alloc_dentry (DentryInner_new kind name (Some parent)) in
  let? ni := alloc_inode i in
  let? _ := set_inode o ni in
  let? _ := add_child holder o in
  let? p := path o in
  let? _ := dcache_insert p o in
  cret o.

Definition init_devfs (root : nat) : vcall unit :=
  let? _ := add_node root root DevDentry "tty" (mkInode IDev MODE_CHAR) in
  let? _ := add_node root root DevDentry "null" (mkInode IDev (Z.lor MODE_CHAR 0x1c0)) in
  let? _ := add_node root root DevDentry "rtc" (mkInode IDev MODE_FILE) in
  let? _ := add_node root root DevDentry "urandom" (mkInode IDev MODE_CHAR) in
  let? _ := add_node root root DevDentry "zero" (mkInode IDev MODE_CHAR) in
  let? _ := add_node root root DevDentry "cpu_dma_latency" (mkInode IDev MODE_CHAR) in
  let? _ := add_node root root TmpDentry "shm" (mkInode ITmp MODE_DIR) in
  cret tt.

(** The link to the program is among the children of "self" with the root as parent. *)
Definition init_procfs (root : nat) : vcall unit :=
  let? self := add_node root root SpDentry "self" (mkInode ISp MODE_DIR) in
  let? _ := add_node root self DevDentry "exe" (mkInode IExe MODE_LINK) in
  let? _ := add_node root root DevDentry "meminfo" (mkInode IDev MODE_FILE) in
  let? _ := add_node root root DevDentry "mounts" (mkInode IDev MODE_FILE) in
  cret tt.

(** A mounted root becomes a child of the root of the disk. *)
Definition attach (root o : nat) : vcall unit :=
  let? _ := add_child root o in
  let? p := path o in
  dcache_insert p o.

Definition fs_init : vcall unit :=
  let? root := ext4_mount "/" None in
  let? sdcard := ext4_mount "sdcard" (Some root) in
  let? _ := attach root sdcard in
  let? dev := devfs_mount "dev" (Some root) in
  let? _ := init_devfs dev in
  let? _ := attach root dev in
  let? proc := procfs_mount "proc" (Some root) in
  let? _ := init_procfs proc in
  let? _ := attach root proc in
  let? tmp := tmpfs_mount "tmp" (Some root) in
  attach root tmp.

(** Before [fs_init]. *)
Definition vfs_new (w : W) : Vfs := mkVfs ∅ 0 ∅ 0 ∅ [] w None.

End Vfs.
