(* ===== verification/VfsProofs.v ===== *)
(** The name space keeps its shape: every key of the cache is the path of its dentry,
    children carry their names and know their parents, and lookups give the dentry of
    the path asked for. *)

From S2P Require Import Prelude Errno Path Vfs.
From Stdlib Require Import Ascii String.
From stdpp Require Import strings.

#[local] Open Scope Z_scope.

(** Calls that keep the shape of the name space. *)
Create HintDb stable.

(** ** Postconditions of calls *)

(** Whatever a call returns; a panic stops the kernel. *)
Definition wp {S A} (m : call S A) (Q : result A SysError -> S -> Prop) (s : S) : Prop :=
  match m s with Ret (r, s') => Q r s' | Panic => True end.

Lemma wp_bind {S A B} (m : call S A) (k : A -> call S B) Q s :
  wp m (fun r s' => match r with Ok a => wp (k a) Q s' | Err e => Q (Err e) s' end) s -> wp (cbind m k) Q s.
Proof. unfold wp, cbind. destruct (m s) as [[[a|e] s']|]; done. Qed.

Lemma wp_mono {S A} (m : call S A) (Q R : result A SysError -> S -> Prop) s :
  wp m Q s -> (forall r s', Q r s' -> R r s') -> wp m R s.
Proof. unfold wp. intros H HR. destruct (m s) as [[r s']|]; [by apply HR|done]. Qed.

Lemma wp_ret {S A} (a : A) (Q : result A SysError -> S -> Prop) s : Q (Ok a) s -> wp (cret a) Q s.
Proof. done. Qed.
Lemma wp_err {S A} e (Q : result A SysError -> S -> Prop) s : Q (Err e) s -> wp (cerr e) Q s.
Proof. done. Qed.
Lemma wp_panic {S A} (Q : result A SysError -> S -> Prop) s : wp cpanic Q s.
Proof. done. Qed.
Lemma wp_get {S} (Q : result S SysError -> S -> Prop) s : Q (Ok s) s -> wp cget Q s.
Proof. done. Qed.
Lemma wp_put {S} (s' : S) (Q : result unit SysError -> S -> Prop) s : Q (Ok tt) s' -> wp (cput s') Q s.
Proof. done. Qed.
Lemma wp_unwrap {S A} (o : option A) (Q : result A SysError -> S -> Prop) s :
  (forall a, o = Some a -> Q (Ok a) s) -> wp (cunwrap o) Q s.
Proof. destruct o; [|done]. intros H. by apply H. Qed.
Lemma wp_ok_or {S A} (o : option A) e (Q : result A SysError -> S -> Prop) s :
  (forall a, o = Some a -> Q (Ok a) s) -> (o = None -> Q (Err e) s) -> wp (cok_or o e) Q s.
Proof. destruct o; intros H1 H2; [by apply H1|by apply H2]. Qed.

(** ** The shape *)

Section Shape.
Context {W : Type} {LIB : Ext4Lib W}.
Implicit Types s : Vfs (W := W).

(** The path of a dentry, without asking whether its parents are alive. *)
Fixpoint fp (fuel : nat) (ds : gmap nat Dentry) (o : nat) : string :=
  match fuel with
  | O => ""
  | S fuel =>
      match ds !! o with
      | None => ""
      | Some d => match d_parent d with None => "/" | Some p => child_path (fp fuel ds p) (d_name d) end
      end
  end.

Definition full_path s (o : nat) : string := fp (S o) (v_dentries s) o.

Record vfs_wf s : Prop := {
  wf_next o d : v_dentries s !! o = Some d -> (o < v_next s)%nat;
  wf_parent o d p : v_dentries s !! o = Some d -> d_parent d = Some p -> (p < o)%nat /\ exists dp, v_dentries s !! p = Some dp /\ d_kind dp <> DevDentry;
  wf_child o d n c : v_dentries s !! o = Some d -> d_children d !! n = Some c -> d_kind d <> DevDentry /\
    exists dc, v_dentries s !! c = Some dc /\ d_name dc = n /\ (d_parent dc = Some o \/ d_kind dc = DevDentry);
  wf_dcache k o : v_dcache s !! k = Some o -> is_Some (v_dentries s !! o) /\ (full_path s o = k \/ k = "sdcard/"%string);
}.

(** Dentries stay, with what never changes in them. *)
Definition same (d d' : Dentry) : Prop := d_kind d' = d_kind d /\ d_name d' = d_name d /\ d_parent d' = d_parent d.

Definition grows (ds ds' : gmap nat Dentry) : Prop := forall o d, ds !! o = Some d -> exists d', ds' !! o = Some d' /\ same d d'.

Definition extends s s' : Prop := grows (v_dentries s) (v_dentries s').

#[global] Instance extends_refl : Reflexive extends.
Proof. intros s o d Ho. by exists d. Qed.

#[global] Instance extends_trans : Transitive extends.
Proof.
  intros s1 s2 s3 H1 H2 o d Ho. destruct (H1 o d Ho) as (d1 & Ho1 & K1 & N1 & P1).
  destruct (H2 o d1 Ho1) as (d2 & Ho2 & K2 & N2 & P2). exists d2. split; [done|]. repeat split; congruence.
Qed.

Lemma fp_fuel s : vfs_wf s -> forall n m o, (o < n)%nat -> (o < m)%nat -> fp n (v_dentries s) o = fp m (v_dentries s) o.
Proof.
  intros H n. induction n as [|n IH]; intros m o Hn Hm; [lia|]. destruct m as [|m]; [lia|]. cbn.
  destruct (v_dentries s !! o) as [d|] eqn:E; [|done]. destruct (d_parent d) as [p|] eqn:Ep; [|done].
  destruct (wf_parent s H o d p E Ep) as [Hp _]. by rewrite (IH m p) by lia.
Qed.

Lemma full_path_unfold s o d : vfs_wf s -> v_dentries s !! o = Some d ->
  full_path s o = match d_parent d with None => "/"%string | Some p => child_path (full_path s p) (d_name d) end.
Proof.
  intros H E. unfold full_path at 1. cbn. rewrite E. destruct (d_parent d) as [p|] eqn:Ep; [|done].
  destruct (wf_parent s H o d p E Ep) as [Hp _]. unfold full_path. by rewrite (fp_fuel s H o (S p) p) by lia.
Qed.

Lemma fp_grows ds ds' n o : grows ds ds' -> (forall o d p, ds !! o = Some d -> d_parent d = Some p -> is_Some (ds !! p)) -> is_Some (ds !! o) -> fp n ds' o = fp n ds o.
Proof.
  intros G Hp. revert o. induction n as [|n IH]; intros o [d E]; [done|]. cbn. rewrite E.
  destruct (G o d E) as (d' & -> & _ & -> & ->). destruct (d_parent d) as [p|] eqn:Ep; [|done]. by rewrite IH by eauto.
Qed.

Lemma full_path_extends s s' o : vfs_wf s -> extends s s' -> is_Some (v_dentries s !! o) -> full_path s' o = full_path s o.
Proof.
  intros H G Ho. apply fp_grows; [done| |done]. intros o' d p E Ep. destruct (wf_parent s H o' d p E Ep) as (_ & dp & -> & _). done.
Qed.

(** What a state without its other parts keeps. *)
Lemma wf_same_dentries s s' : v_dentries s' = v_dentries s -> v_next s' = v_next s -> v_dcache s' = v_dcache s -> vfs_wf s -> vfs_wf s'.
Proof.
  intros Ed En Ec [A B C D]. split; rewrite ?Ed, ?En, ?Ec; try done. unfold full_path. rewrite Ed. exact D.
Qed.

(** An update of a dentry that keeps its kind, name and parent, and its children or
    fewer. *)
Lemma wf_update s o d d' : vfs_wf s -> v_dentries s !! o = Some d -> same d d' ->
  (forall n c, d_children d' !! n = Some c -> d_children d !! n = Some c \/
     exists dc, v_dentries s !! c = Some dc /\ d_name dc = n /\ d_parent dc = Some o) ->
  vfs_wf (with_dentries s (<[o := d']> (v_dentries s))) /\ extends s (with_dentries s (<[o := d']> (v_dentries s))).
Proof.
  intros H E (K & N & P) Hc. set (s' := with_dentries _ _).
  assert (G : extends s s').
  { intros x dx Ex. unfold s', with_dentries. cbn. destruct (decide (x = o)) as [->|].
    - rewrite lookup_insert_eq. exists d'. split; [done|]. replace dx with d by congruence. done.
    - rewrite lookup_insert_ne by done. exists dx. done. }
  assert (Hs : forall x dx, v_dentries s' !! x = Some dx -> exists dx0, v_dentries s !! x = Some dx0 /\ same dx0 dx /\ (x = o -> dx = d') /\ (x <> o -> dx = dx0)).
  { intros x dx. unfold s', with_dentries. cbn. intros [(<- & <-)|(Hne & Ex)]%lookup_insert_Some; [by exists d|].
    exists dx. split; [done|]. split; [done|]. split; [by intros ->|done]. }
  split; [|done]. split.
  - intros x dx (dx0 & E0 & _)%Hs. by apply (wf_next s H x dx0).
  - intros x dx p (dx0 & E0 & (_ & _ & Px) & _)%Hs Ep. destruct (wf_parent s H x dx0 p E0) as (Hl & dp & Edp & Hk); [congruence|].
    split; [done|]. destruct (G p dp Edp) as (dp' & -> & Kp & _). exists dp'. split; [done|congruence].
  - intros x dx n c (dx0 & E0 & (Kx & _) & Ho & Hno)%Hs Ec. rewrite Kx.
    assert (Hcase : d_kind dx0 <> DevDentry /\ exists dc, v_dentries s !! c = Some dc /\ d_name dc = n /\ (d_parent dc = Some x \/ d_kind dc = DevDentry)).
    { destruct (decide (x = o)) as [->|Hne].
      - rewrite (Ho eq_refl) in Ec. destruct (Hc n c Ec) as [Hold|(dc & Edc & Hn & Hp)]; [by apply (wf_child s H o dx0); [|congruence]|].
        destruct (wf_parent s H c dc o Edc Hp) as (_ & do & Edo & Hk). split; [congruence|]. exists dc. auto.
      - rewrite (Hno Hne) in Ec. by apply (wf_child s H x dx0). }
    destruct Hcase as (Hk & dc & Edc & Hn & Hp). destruct (G c dc Edc) as (dc' & -> & Kc & Nc & Pc). split; [done|]. exists dc'.
    by rewrite Nc, Pc, Kc.
  - intros k x Ex. destruct (wf_dcache s H k x Ex) as [[dx Edx] Hk]. split; [by destruct (G x dx Edx) as (dx' & E' & _); exists dx'|].
    by rewrite (full_path_extends s s') by (done || by exists dx).
Qed.

(** A new dentry without children. *)
Lemma wf_alloc s d : vfs_wf s -> d_children d = ∅ -> (forall p, d_parent d = Some p -> exists dp, v_dentries s !! p = Some dp /\ d_kind dp <> DevDentry) ->
  let s' := mkVfs (<[v_next s := d]> (v_dentries s)) (S (v_next s)) (v_inodes s) (v_next_ino s) (v_dcache s) (v_pins s) (v_disk s) (v_exe s) in
  vfs_wf s' /\ extends s s'.
Proof.
  intros H Hd Hp s'.
  assert (Hfresh : v_dentries s !! v_next s = None).
  { destruct (v_dentries s !! v_next s) as [x|] eqn:E; [|done]. pose proof (wf_next s H _ _ E). lia. }
  assert (G : extends s s').
  { intros x dx Ex. exists dx. split; [|done]. unfold s'. cbn. rewrite lookup_insert_ne by congruence. done. }
  split; [|done]. split; cbn [s' v_dentries v_next v_dcache].
  - intros x dx [(<- & _)|(_ & Ex)]%lookup_insert_Some; [lia|]. pose proof (wf_next s H x dx Ex). lia.
  - intros x dx p [(<- & <-)|(_ & Ex)]%lookup_insert_Some Ep.
    + destruct (Hp p Ep) as (dp & Edp & Hk). split; [exact (wf_next s H p dp Edp)|]. destruct (G p dp Edp) as (dp' & E' & Kp & _). exists dp'. split; [done|congruence].
    + destruct (wf_parent s H x dx p Ex Ep) as (? & dp & Edp & Hk). split; [done|]. destruct (G p dp Edp) as (dp' & E' & Kp & _). exists dp'. split; [done|congruence].
  - intros x dx n c [(<- & <-)|(_ & Ex)]%lookup_insert_Some Ec; [by rewrite Hd in Ec|].
    destruct (wf_child s H x dx n c Ex Ec) as (Hk & dc & Edc & Hn & Hpc). split; [done|]. exists dc. split; [|done]. rewrite lookup_insert_ne by congruence. done.
  - intros k x Ex. destruct (wf_dcache s H k x Ex) as [[dx Edx] Hk]. split; [by destruct (G x dx Edx) as (dx' & E' & _); exists dx'|].
    by rewrite (full_path_extends s s') by (done || by exists dx).
Qed.

(** ** Calls that keep the shape *)

Definition I s s' : Prop := vfs_wf s' /\ extends s s'.

Lemma I_refl s : vfs_wf s -> I s s.
Proof. by split. Qed.

Lemma I_trans s1 s2 s3 : I s1 s2 -> I s2 s3 -> I s1 s3.
Proof. intros [_ G1] [H G2]. split; [done|by transitivity s2]. Qed.

Definition stable {A} (m : call Vfs A) : Prop := forall s, vfs_wf s -> wp m (fun _ s' => I s s') s.

Lemma stable_bind {A B} (m : call Vfs A) (k : A -> call Vfs B) : stable m -> (forall a, stable (k a)) -> stable (cbind m k).
Proof.
  intros Hm Hk s H. apply wp_bind. eapply wp_mono; [by apply Hm|]. intros [a|e] s1 HI; [|done].
  eapply wp_mono; [apply Hk, HI|]. intros r s2 H2. by apply (I_trans s s1 s2).
Qed.

Lemma stable_ret {A} (a : A) : stable (cret a). Proof. intros s H. by apply I_refl. Qed.
Lemma stable_err {A} e : stable (A := A) (cerr e). Proof. intros s H. by apply I_refl. Qed.
Lemma stable_panic {A} : stable (A := A) cpanic. Proof. done. Qed.
Lemma stable_get : stable cget. Proof. intros s H. by apply I_refl. Qed.
Lemma stable_unwrap {A} (o : option A) : stable (cunwrap o). Proof. destruct o; [apply stable_ret|apply stable_panic]. Qed.
Lemma stable_ok_or {A} (o : option A) e : stable (cok_or o e). Proof. destruct o; [apply stable_ret|apply stable_err]. Qed.

(** A call that reads the dentries only. *)
Lemma stable_dentry o : stable (dentry o).
Proof. intros s H. unfold wp, dentry. destruct (v_dentries s !! o); [by apply I_refl|done]. Qed.
Lemma stable_inode i : stable (inode i).
Proof. intros s H. unfold wp, inode. destruct (v_inodes s !! i); [by apply I_refl|done]. Qed.
Lemma stable_alloc_inode i : stable (alloc_inode i).
Proof. intros s H. cbn. split; [by eapply wf_same_dentries, H|]. intros o d E. by exists d. Qed.
Lemma stable_lib_do f : stable (lib_do f).
Proof. intros s H. cbn. split; [by eapply wf_same_dentries, H|]. intros o d E. by exists d. Qed.

Lemma wp_dentry o Q s : (forall d, v_dentries s !! o = Some d -> Q (Ok d) s) -> wp (dentry o) Q s.
Proof. intros H. unfold wp, dentry. destruct (v_dentries s !! o); [by apply H|done]. Qed.

Lemma wp_upd o f Q s : vfs_wf s ->
  (forall d, v_dentries s !! o = Some d -> same d (f d) /\ forall n c, d_children (f d) !! n = Some c -> d_children d !! n = Some c \/
     exists dc, v_dentries s !! c = Some dc /\ d_name dc = n /\ d_parent dc = Some o) ->
  (forall d s', v_dentries s !! o = Some d -> s' = with_dentries s (<[o := f d]> (v_dentries s)) -> I s s' -> Q (Ok tt) s') ->
  wp (upd_dentry o f) Q s.
Proof.
  intros H Hf HQ. unfold upd_dentry. apply wp_bind, wp_get, wp_bind, wp_dentry. intros d E. apply wp_put.
  destruct (Hf d E) as [Hs Hc]. eapply HQ; [done|done|]. by eapply wf_update.
Qed.

Lemma stable_upd o f : (forall d, same d (f d) /\ forall n c, d_children (f d) !! n = Some c -> d_children d !! n = Some c) -> stable (upd_dentry o f).
Proof.
  intros Hf s H. apply wp_upd; [done| |done]. intros d _. split; [apply Hf|]. intros n c Ec. left. by apply Hf.
Qed.

Lemma stable_set_inode o i : stable (set_inode o i). Proof. apply stable_upd. intros d. by split. Qed.
Lemma stable_set_state o st : stable (set_state o st). Proof. apply stable_upd. intros d. by split. Qed.
Lemma stable_clear_inode o : stable (clear_inode o). Proof. apply stable_upd. intros d. by split. Qed.
Lemma stable_remove_child o n : stable (remove_child o n).
Proof. apply stable_upd. intros d. split; [done|]. cbn. by intros n' c [_ ?]%lookup_delete_Some. Qed.

(** A parent gets a child that was made for it. *)
Lemma wp_add_child o c Q s : vfs_wf s -> (forall dc, v_dentries s !! c = Some dc -> d_parent dc = Some o) ->
  (forall s', I s s' -> (forall dc, v_dentries s !! c = Some dc -> d_children <$> v_dentries s' !! o = (fun d => <[d_name dc := c]> (d_children d)) <$> v_dentries s !! o) -> Q (Ok tt) s') ->
  wp (add_child o c) Q s.
Proof.
  intros H Hp HQ. unfold add_child. apply wp_bind, wp_dentry. intros dc Edc. apply wp_upd; [done| |].
  - intros d E. split; [done|]. cbn. intros n x [(<- & <-)|(_ & ?)]%lookup_insert_Some; [right|by left]. exists dc. auto.
  - intros d s' E -> HI. apply HQ; [done|]. intros dc' E'. replace dc' with dc by congruence. cbn. rewrite lookup_insert_eq, E. done.
Qed.

Lemma wp_alloc_dentry d Q s : vfs_wf s -> d_children d = ∅ -> (forall p, d_parent d = Some p -> exists dp, v_dentries s !! p = Some dp /\ d_kind dp <> DevDentry) ->
  (forall o s', I s s' -> v_dentries s' = <[o := d]> (v_dentries s) -> v_dcache s' = v_dcache s -> v_dentries s !! o = None -> Q (Ok o) s') ->
  wp (alloc_dentry d) Q s.
Proof.
  intros H Hc Hp HQ. unfold alloc_dentry. cbn. apply HQ; [by apply wf_alloc|done|done|].
  destruct (v_dentries s !! v_next s) as [x|] eqn:E; [|done]. pose proof (wf_next s H _ _ E). lia.
Qed.

(** *** Parents and paths *)

Lemma wp_parent o Q s : (forall d, v_dentries s !! o = Some d -> Q (Ok (d_parent d)) s) -> wp (parent o) Q s.
Proof.
  intros H. unfold parent. apply wp_bind, wp_get, wp_bind, wp_dentry. intros d E. specialize (H d E).
  destruct (d_parent d) as [p|]; [|done]. by destruct (alive p s p).
Qed.

Lemma wp_path_from fuel : forall o Q s, vfs_wf s -> (o < fuel)%nat -> (is_Some (v_dentries s !! o) -> Q (Ok (full_path s o)) s) -> wp (path_from fuel o) Q s.
Proof.
  induction fuel as [|fuel IH]; intros o Q s H Hf HQ; [done|]. cbn [path_from]. apply wp_bind, wp_dentry. intros d E.
  apply wp_bind, wp_parent. intros d' E'. replace d' with d by congruence. specialize (HQ ltac:(by exists d)).
  rewrite (full_path_unfold s o d H E) in HQ. destruct (d_parent d) as [p|] eqn:Ep; [|done].
  destruct (wf_parent s H o d p E Ep) as [Hl _]. apply wp_bind, IH; [done|lia|]. intros _. apply wp_ret.
  unfold child_path in HQ. case_bool_decide as Hr; [|done]. by rewrite Hr.
Qed.

Lemma wp_path o Q s : vfs_wf s -> (is_Some (v_dentries s !! o) -> Q (Ok (full_path s o)) s) -> wp (path o) Q s.
Proof. intros H HQ. apply wp_path_from; [done|lia|done]. Qed.

Lemma wp_dcache_insert k o Q s : vfs_wf s -> is_Some (v_dentries s !! o) -> full_path s o = k ->
  (forall s', I s s' -> v_dentries s' = v_dentries s -> v_dcache s' = <[k := o]> (v_dcache s) -> Q (Ok tt) s') -> wp (dcache_insert k o) Q s.
Proof.
  intros H Ho Hk HQ. unfold dcache_insert. apply wp_bind, wp_get, wp_put. apply HQ; [|done|done].
  split; [|intros x d E; by exists d]. destruct H as [A B C D]. split; [done|done|done|]. cbn [v_dcache with_dcache v_dentries].
  intros k' x [(<- & <-)|(_ & Ex)]%lookup_insert_Some; [by split; [|left]|by apply D].
Qed.

Lemma stable_parent o : stable (parent o).
Proof. intros s H. apply wp_parent. intros. by apply I_refl. Qed.
Lemma stable_path o : stable (path o).
Proof. intros s H. apply wp_path; [done|]. intros. by apply I_refl. Qed.

Lemma stable_dcache_get k : stable (dcache_get k).
Proof. apply stable_bind; [apply stable_get|]. intros. apply stable_ret. Qed.

End Shape.

#[export] Hint Resolve stable_ret stable_err stable_panic stable_get stable_unwrap stable_ok_or stable_dentry stable_inode stable_alloc_inode
  stable_lib_do stable_set_inode stable_set_state stable_clear_inode stable_remove_child stable_parent stable_path stable_dcache_get : stable.

(** Goes through the binds, conditionals and matches of a call. *)
Ltac stable_step :=
  match goal with
  | |- stable (cbind _ _) => apply stable_bind; [|intro]
  | |- stable (match ?x with _ => _ end) => destruct x
  | |- stable (let x := _ in _) => intro
  | |- stable (if ?b then _ else _) => destruct b
  | |- _ => solve [auto with stable]
  end.
Ltac stable_tac := repeat (cbv zeta; stable_step).

Section Lookups.
Context {W : Type} {LIB : Ext4Lib W}.
Implicit Types s : Vfs (W := W).

Lemma stable_ls i : stable (ls i). Proof. unfold ls. stable_tac. Qed.
Lemma stable_lookup_inode i n : stable (lookup_inode i n). Proof. unfold lookup_inode, ext4_inode. stable_tac. Qed.
Lemma stable_create i n m : stable (inode_create i n m). Proof. unfold inode_create, ext4_inode. stable_tac. Qed.
Lemma stable_remove i n m : stable (inode_remove i n m). Proof. unfold inode_remove. stable_tac. Qed.
Lemma stable_symlink i t : stable (inode_symlink i t). Proof. unfold inode_symlink, ext4_inode. stable_tac. Qed.
Lemma stable_link i t : stable (inode_link i t). Proof. unfold inode_link. stable_tac. Qed.
Lemma stable_readlink i : stable (inode_readlink i). Proof. unfold inode_readlink. stable_tac. Qed.
Lemma stable_rename i t n : stable (inode_rename i t n). Proof. unfold inode_rename. stable_tac. Qed.
Lemma stable_d_inode o : stable (W := W) (d_inode_of o). Proof. unfold d_inode_of. stable_tac. Qed.
Lemma stable_is_negative o : stable (W := W) (is_negative o). Proof. unfold is_negative. stable_tac. Qed.
Lemma stable_get_child o n : stable (W := W) (get_child o n). Proof. unfold get_child. stable_tac. Qed.
Lemma stable_children_list o b : stable (W := W) (children_list o b). Proof. unfold children_list. stable_tac. Qed.

End Lookups.

#[export] Hint Resolve stable_ls stable_lookup_inode stable_create stable_remove stable_symlink stable_link stable_readlink stable_rename
  stable_d_inode stable_is_negative stable_get_child stable_children_list : stable.

Section Walk.
Context {W : Type} {LIB : Ext4Lib W}.
Implicit Types s : Vfs (W := W).

Lemma extends_some s s' o : extends s s' -> is_Some (v_dentries s !! o) -> is_Some (v_dentries s' !! o).
Proof. intros G [d E]. destruct (G o d E) as (d' & E' & _). by exists d'. Qed.

(** A step of a call that keeps the shape. *)
Lemma wp_stable {A B} (m : call Vfs A) (k : A -> call Vfs B) Q s : stable m -> vfs_wf s ->
  (forall a s', I s s' -> wp (k a) Q s') -> (forall e s', I s s' -> Q (Err e) s') -> wp (cbind m k) Q s.
Proof.
  intros Hm H Hk He. apply wp_bind. eapply wp_mono; [by apply Hm|]. intros [a|e] s' HI; [by apply Hk|by apply He].
Qed.

(** A dentry that can have children. *)
Definition dir_kind s o : Prop := forall d, v_dentries s !! o = Some d -> d_kind d <> DevDentry.

Lemma dir_kind_extends s s' o : extends s s' -> is_Some (v_dentries s !! o) -> dir_kind s o -> dir_kind s' o.
Proof. intros G [d E] Hk d' E'. destruct (G o d E) as (d2 & E2 & K & _). specialize (Hk d E). congruence. Qed.

(** A new dentry below another, its path, and its place in the cache. *)
Lemma wp_new_below {B} o k n Q s (f : nat -> call Vfs unit) (g : nat -> call Vfs B) : vfs_wf s -> is_Some (v_dentries s !! o) -> dir_kind s o ->
  (forall c, stable (f c)) ->
  (forall c s1 s2, I s s1 -> v_dentries s1 !! c = Some (DentryInner_new k n (Some o)) -> I s1 s2 -> wp (g c) Q s2) ->
  (forall e s', I s s' -> Q (Err e) s') ->
  wp (cbind (alloc_dentry (DentryInner_new k n (Some o))) (fun c => cbind (f c) (fun _ => g c))) Q s.
Proof.
  intros H [d E] Hk Hf Hg He. apply wp_bind, wp_alloc_dentry; [done|done| |].
  - cbn. intros p [= <-]. exists d. split; [done|by apply Hk].
  - intros c s1 HI Ed _ _. apply wp_stable; [done|apply HI| |].
    + intros _ s2 H2. eapply (Hg c s1 s2); [done| |done]. by rewrite Ed, lookup_insert_eq.
    + intros e s2 H2. apply He. by eapply I_trans.
Qed.

Lemma parent_of s s' c k n o : v_dentries s !! c = Some (DentryInner_new k n (Some o)) -> extends s s' ->
  forall dc, v_dentries s' !! c = Some dc -> d_parent dc = Some o /\ d_name dc = n.
Proof. intros E G dc Edc. destruct (G c _ E) as (d' & E' & _ & N & P). replace dc with d' by congruence. by rewrite P, N. Qed.

Lemma wp_load_one o i n s : vfs_wf s -> dir_kind s o -> wp (ext4_load_one o i n) (fun _ s' => I s s') s.
Proof.
  intros H Hk. unfold ext4_load_one. destruct (_ || _); [by apply I_refl|].
  apply wp_bind, wp_bind, wp_dentry. intros d E. apply wp_ret. destruct (d_children d !! n); [by apply I_refl|].
  apply wp_stable; [auto with stable|done| |done]. intros ci s1 H1. apply wp_bind, wp_unwrap. intros i' _.
  destruct (proj2 H1 o d E) as (d1 & E1 & K1 & _). apply wp_bind, wp_dentry. intros d1' E1'.
  eapply wp_mono with (Q := fun _ s' => I s1 s'); [|intros r s' HI; by eapply I_trans].
  apply wp_new_below; [apply H1|by exists d1|by eapply dir_kind_extends; [apply H1|exists d|]|auto with stable| |done].
  intros c s2 s3 H2 Ec H3. pose proof (I_trans _ _ _ H2 H3) as H23. apply wp_stable; [auto with stable|apply H3| |intros; by eapply I_trans].
  intros _ s4 H4. pose proof (I_trans _ _ _ H23 H4) as H24. apply wp_bind, wp_add_child; [apply H4| |].
  - intros dc Edc. by eapply parent_of; [exact Ec|etransitivity; [apply H3|apply H4]|].
  - intros s5 H5 _. pose proof (I_trans _ _ _ H24 H5) as H25. apply wp_bind, wp_path; [apply H5|]. intros Hc.
    apply wp_bind, wp_dcache_insert; [apply H5|done|done|]. intros s6 H6 _ _. apply wp_ret. by eapply I_trans.
Qed.

Lemma wp_load o i ns : forall s, vfs_wf s -> is_Some (v_dentries s !! o) -> dir_kind s o -> wp (ext4_load o i ns) (fun _ s' => I s s') s.
Proof.
  induction ns as [|n ns IH]; intros s H Ho Hk; [by apply I_refl|]. cbn. apply wp_bind. eapply wp_mono; [by apply wp_load_one|].
  intros [a|e] s1 H1; [|done]. apply wp_bind. eapply wp_mono; [apply IH; [apply H1|by eapply extends_some; [apply H1|]|by eapply dir_kind_extends; [apply H1| |]]|].
  intros [b|e] s2 H2; by eapply I_trans.
Qed.

Lemma stable_load_child o : stable (load_child_dentry o).
Proof.
  intros s H. unfold load_child_dentry. apply wp_bind, wp_dentry. intros d E. destruct (d_kind d) eqn:K.
  - apply wp_bind, wp_unwrap. intros i _. apply wp_stable; [auto with stable|done| |done]. intros old s1 H1.
    apply wp_stable; [auto with stable|apply H1| |intros; by eapply I_trans]. intros ns s2 H2. pose proof (I_trans _ _ _ H1 H2) as H12.
    apply wp_bind. eapply wp_mono; [apply wp_load; [apply H2|eapply extends_some; [apply H12|by exists d]|]|].
    + eapply dir_kind_extends; [apply H12|by exists d|]. intros d' E'. congruence.
    + intros [b|e] s3 H3; by eapply I_trans.
  - by apply stable_children_list.
  - by apply stable_children_list.
  - by apply I_refl.
Qed.

(** A component that is not there becomes a negative dentry, known to the cache. *)
Lemma wp_new_neg o n Q s : vfs_wf s -> is_Some (v_dentries s !! o) ->
  (forall c s' d, I s s' -> v_dentries s' !! c = Some d -> d_state d = NEGATIVE -> d_parent d = Some o -> d_name d = n -> Q (Ok c) s') ->
  wp (new_neg_dentry o n) Q s.
Proof.
  intros H [d E] HQ. unfold new_neg_dentry. apply wp_bind, wp_dentry. intros d' E'. replace d' with d by congruence. clear d' E'.
  assert (G : forall k, d_kind d <> DevDentry -> wp (let? c := alloc_dentry (DentryInner_new k n (Some o)) in let? _ := set_state c NEGATIVE in cret c) Q s).
  { intros k Hk. apply wp_bind, wp_alloc_dentry; [done|done|cbn; intros p [= <-]; by exists d|].
    intros c s1 H1 Ed _ _. apply wp_bind, wp_upd; [apply H1|by intros x _; split; [|by left]|].
    intros x s2 Ex -> H2. apply wp_ret. rewrite Ed, lookup_insert_eq in Ex. injection Ex as <-.
    eapply HQ; [by eapply I_trans|cbn; by rewrite lookup_insert_eq|done|done|done]. }
  destruct (d_kind d) eqn:K; try (by apply G); done.
Qed.

(** What a walk along [names] from [o] finds: the dentry of the whole path, or of the
    part of it up to the first name that is not there, which is negative. *)
Definition found s s' (o : nat) (names : list string) (o' : nat) : Prop :=
  exists pre suf d, names = pre ++ suf /\ v_dentries s' !! o' = Some d /\
    (d_kind d = DevDentry \/ full_path s' o' = foldl child_path (full_path s o) pre) /\ (suf = [] \/ d_state d = NEGATIVE).

Lemma full_path_child s o d n c dc : vfs_wf s -> v_dentries s !! o = Some d -> v_dentries s !! c = Some dc -> d_parent dc = Some o -> d_name dc = n ->
  full_path s c = child_path (full_path s o) n.
Proof. intros H E Ec Hp <-. by rewrite (full_path_unfold s c dc H Ec), Hp. Qed.

(** Below a device there is nothing. *)
Lemma wp_walk_dev names c d Q s : vfs_wf s -> v_dentries s !! c = Some d -> d_kind d = DevDentry ->
  (names = [] -> Q (Ok c) s) -> (forall e, Q (Err e) s) -> wp (walk_names c names) Q s.
Proof.
  intros H E K HQ He. destruct names as [|n names]; [by apply HQ|]. cbn. apply wp_bind, wp_bind, wp_dentry. intros d' E'. apply wp_ret.
  replace d' with d by congruence. destruct (d_children d !! n) as [x|] eqn:Ex; [by destruct (wf_child s H c d n x E Ex)|].
  apply wp_bind. unfold load_child_dentry. apply wp_bind, wp_dentry. intros d2 E2. replace d2 with d by congruence. rewrite K. by apply wp_err.
Qed.

(** One name: from a child on, the rest of the walk is that of the child. *)
Lemma found_child s s1 s' o n names c d dc o' : vfs_wf s -> I s s1 -> v_dentries s1 !! o = Some d -> v_dentries s1 !! c = Some dc ->
  is_Some (v_dentries s !! o) -> d_parent dc = Some o -> d_name dc = n -> found s1 s' c names o' -> found s s' o (n :: names) o'.
Proof.
  intros H [H1 G1] Eo Ec Hso Hp Hn (pre & suf & d' & -> & Ed' & Hf & Hs). exists (n :: pre), suf, d'. split; [done|]. split; [done|]. split; [|done].
  destruct Hf as [Hf|Hf]; [by left|right]. rewrite Hf, (full_path_child s1 o d n c dc) by done. cbn [foldl]. by rewrite (full_path_extends s s1) by done.
Qed.

Lemma wp_walk names : forall o Q s, vfs_wf s -> is_Some (v_dentries s !! o) ->
  (forall o' s', I s s' -> found s s' o names o' -> Q (Ok o') s') -> (forall e s', I s s' -> Q (Err e) s') -> wp (walk_names o names) Q s.
Proof.
  induction names as [|n names IH]; intros o Q s H Ho HQ He.
  { apply wp_ret, HQ; [by apply I_refl|]. destruct Ho as [d E]. exists [], [], d. auto. }
  assert (Hchild : forall s1 d c, I s s1 -> v_dentries s1 !! o = Some d -> d_children d !! n = Some c -> wp (walk_names c names) Q s1).
  { intros s1 d c H1 E Ec. destruct (wf_child s1 (proj1 H1) o d n c E Ec) as (Hk & dc & Edc & Hn & [Hp|Hdev]).
    - apply IH; [apply H1|by exists dc| |intros; apply He; by eapply I_trans]. intros o' s' H' Hf. apply HQ; [by eapply I_trans|].
      by eapply (found_child s s1 s' o n names c d dc).
    - eapply wp_walk_dev; [apply H1|done|done| |intros; by apply He]. intros ->. apply HQ; [done|]. exists [n], [], dc. auto. }
  cbn [walk_names]. apply wp_bind, wp_bind, wp_dentry. intros d E. apply wp_ret. destruct (d_children d !! n) as [c|] eqn:Ec.
  { by eapply Hchild; [apply I_refl| |]. }
  apply wp_stable; [apply stable_load_child|done| |done]. intros _ s1 H1. apply wp_bind, wp_bind, wp_dentry. intros d1 E1. apply wp_ret.
  destruct (d_children d1 !! n) as [c|] eqn:Ec1; [by eapply Hchild|].
  apply wp_bind, wp_new_neg; [apply H1|by exists d1|]. intros c s2 dc H2 Edc Hst Hp Hn. pose proof (I_trans _ _ _ H1 H2) as H12.
  apply wp_bind, wp_path; [apply H2|]. intros Hc. apply wp_bind, wp_dcache_insert; [apply H2|done|done|]. intros s3 H3 Ed3 _. apply wp_ret, HQ; [by eapply I_trans|].
  destruct (proj2 H2 o d1 E1) as (d2 & E2 & _). exists [n], names, dc. split; [done|]. split; [by rewrite Ed3|]. split; [right|by right].
  rewrite (full_path_extends s2 s3) by (done || apply H2 || apply H3). rewrite (full_path_child s2 o d2 n c dc) by (done || apply H2).
  cbn [foldl]. by rewrite (full_path_extends s s2) by (done || apply H12).
Qed.

Lemma stable_walk o p : stable (walk o p).
Proof.
  intros s H. destruct (v_dentries s !! o) as [d|] eqn:E; [apply wp_walk; [done|by exists d|by intros|done]|].
  unfold walk. destruct (path_names p) as [|n ns]; [by apply I_refl|]. cbn. unfold wp, cbind, get_child, cbind, dentry. by rewrite E.
Qed.

Lemma stable_find_names ws : forall o, stable (W := W) (find_names o ws).
Proof.
  induction ws as [|w ws IH]; intros o; cbn; [auto with stable|]. destruct (_ || _); [done|]. destruct (bool_decide _).
  - do 2 (apply stable_bind; [auto with stable|intro]). done.
  - apply stable_bind; [done|]. auto with stable.
Qed.

Lemma stable_find o p : stable (dentry_find o p).
Proof.
  unfold dentry_find. destruct (bool_decide _); [auto with stable|]. apply stable_bind; [apply stable_find_names|]. intros [c ns].
  do 2 (apply stable_bind; [auto with stable|intro]). destruct a0; [stable_tac|]. apply stable_bind; [apply stable_walk|intro]. stable_tac.
Qed.

(** What a lookup of an absolute path finds: a hit of the cache, or a walk from the root. *)
Lemma wp_global_find p Q s : vfs_wf s ->
  (forall o' s', I s s' -> (s' = s /\ v_dcache s !! p = Some o' \/ v_dcache s !! p = None /\ exists r, v_dcache s !! "/"%string = Some r /\ found s s' r (path_names p) o') -> Q (Ok o') s') ->
  (forall e s', I s s' -> Q (Err e) s') -> wp (global_find_dentry p) Q s.
Proof.
  intros H HQ He. unfold global_find_dentry. apply wp_bind, wp_bind, wp_get, wp_ret. destruct (v_dcache s !! p) as [o|] eqn:E.
  { apply wp_ret, HQ; [by apply I_refl|by left]. }
  apply wp_bind, wp_bind, wp_get, wp_ret, wp_bind, wp_unwrap. intros r Er. destruct (wf_dcache s H _ _ Er) as [Hr _].
  apply wp_walk; [done|done| |done]. intros o' s' HI Hf. apply HQ; [done|right]. split; [done|]. by exists r.
Qed.

Lemma stable_global_find p : stable (global_find_dentry p).
Proof. intros s H. by apply wp_global_find. Qed.

Lemma stable_follow_from n : forall o, stable (follow_from n o).
Proof.
  induction n as [|n IH]; intros o; cbn; [auto with stable|]. apply stable_bind; [auto with stable|]. intros [|]; [auto with stable|].
  do 3 (apply stable_bind; [auto with stable|intro]). destruct (_ =? _); [|auto with stable].
  apply stable_bind; [auto with stable|intro]. apply stable_bind; [apply stable_global_find|done].
Qed.

Lemma stable_update_dentry p i : stable (W := W) (global_update_dentry p i).
Proof. unfold global_update_dentry. stable_tac. Qed.

End Walk.

#[export] Hint Resolve stable_load_child stable_walk stable_find stable_global_find stable_follow_from stable_update_dentry : stable.
