(* ===== verification/FsCalls.v ===== *)
(** The system calls on files (os/src/syscall/fs.rs): those that name a file by a path,
    on the name space, and those on open files, which are objects behind an interface
    as the trait [File] is. *)

From S2P Require Import Prelude Errno FdTable PageCache UserMem Path Vfs.
From Stdlib Require Import Ascii String.
From stdpp Require Import strings.

#[local] Open Scope Z_scope.

(** ** Flags *)

Definition AT_FDCWD : Z := -100.
Definition AT_SYMLINK_NOFOLLOW : Z := 0x100.
Definition AT_EMPTY_PATH : Z := 0x1000.

(** [AtFlags::from_bits_truncate]: the bits of AT_FDCWD are all the known ones. *)
Definition at_truncate (flags : Z) : Z := Z.land flags AT_FDCWD.

Definition O_WRONLY : Z := 1.
Definition O_RDWR : Z := 2.
Definition O_ACCMODE : Z := 3.
Definition O_CREAT : Z := 0x40.
Definition O_EXCL : Z := 0x80.
Definition O_NOCTTY : Z := 0x100.
Definition O_TRUNC : Z := 0x200.
Definition O_DIRECTORY : Z := 0x10000.
Definition O_NOFOLLOW : Z := 0x20000.
Definition O_CLOEXEC : Z := 0x80000.
Definition O_TMPFILE : Z := 0x410000.

(** Every bit that is a flag. *)
Definition OpenFlags_all : Z := 0x7fffc3.

Definition OpenFlags_from_bits (bits : Z) : option Z := if Z.land bits (Z.lnot OpenFlags_all) =? 0 then Some bits else None.
Definition OpenFlags_truncate (bits : Z) : Z := Z.land bits OpenFlags_all.

Definition CREATION_FLAGS : Z :=
  Z.lor O_CLOEXEC (Z.lor O_CREAT (Z.lor O_DIRECTORY (Z.lor O_EXCL (Z.lor O_NOCTTY (Z.lor O_NOFOLLOW (Z.lor O_TMPFILE O_TRUNC)))))).

Definition status (flags : Z) : Z := Z.land (Z.land flags (Z.lnot O_ACCMODE)) (Z.lnot CREATION_FLAGS).

Definition fd_flags_of (flags : Z) : Z := FdFlags_from (contains flags O_CLOEXEC).

Definition RENAME_NOREPLACE : Z := 1.
Definition RENAME_EXCHANGE : Z := 2.
Definition RENAME_WHITEOUT : Z := 4.

Definition RenameFlags_from_bits (bits : Z) : option Z := if Z.land bits (Z.lnot 7) =? 0 then Some bits else None.

(** [as i32] *)
Definition to_i32 (z : Z) : Z := (z + 2 ^ 31) mod 2 ^ 32 - 2 ^ 31.

(** ** Interfaces *)

(** Strings and bytes of user memory: [cstr_slice] with the check that the bytes are
    text, and a slice that was checked. *)
Class UserBytes (M : Type) := {
  ub_cstr : M -> Z -> Z -> outcome (option string * M);
  ub_read : M -> Z -> Z -> Z -> outcome (list Z * M);
  ub_write : M -> Z -> Z -> list Z -> outcome M;
}.

(** The open files, by number: the methods of the trait [File], and a new one for a
    dentry.  A file finds its inode through its dentry each time, so the operations on
    contents are told which inode a dentry has now.  A call that waits is one step.  The attributes
    and times are those of an inode; [fo_pipe] makes the two ends of a pipe. *)
Class FileOps (F : Type) := {
  fo_open : F -> nat -> Z -> nat * F;
  fo_dentry : F -> nat -> option nat;
  fo_read : (nat -> option nat) -> F -> nat -> Z -> outcome (result (Z * list Z) SysError * F);
  fo_write : (nat -> option nat) -> F -> nat -> list Z -> outcome (result Z SysError * F);
  fo_read_at : (nat -> option nat) -> F -> nat -> Z -> Z -> outcome (result (Z * list Z) SysError * F);
  fo_seek : (nat -> option nat) -> F -> nat -> SeekFrom -> outcome (result Z SysError * F);
  fo_truncate : (nat -> option nat) -> F -> nat -> Z -> outcome (result Z SysError * F);
  fo_pos : F -> nat -> Z;
  fo_set_pos : F -> nat -> Z -> F;
  fo_flags : F -> nat -> Z;
  fo_set_flags : F -> nat -> Z -> F;
  fo_ioctl : F -> nat -> Z -> Z -> outcome (result Z SysError * F);
  fo_getattr : F -> nat -> outcome (list Z * F);
  fo_getxattr : F -> nat -> Z -> outcome (list Z * F);
  fo_set_times : F -> nat -> option (Z * Z) -> option (Z * Z) -> Z * Z -> F;
  fo_pipe : F -> nat * nat * F;
}.

Section Calls.
Context {W : Type} {LIB : Ext4Lib W}.
Context {M : Type} {UM : UserMemory M} {UB : UserBytes M}.
Context {F : Type} {FO : FileOps F}.

(** What a call of one task sees: the name space, its descriptors and working directory,
    its memory, and the dentries that others hold. *)
Record Kern := mkKern {
  k_vfs : Vfs (W := W);
  k_fds : FdTable nat;
  k_files : F;
  k_cwd : nat;
  k_held : list nat;
  k_mem : M;
  k_vm : Z;
}.

#[local] Abbreviation kcall := (call Kern).

Definition with_vfs (k : Kern) (v : Vfs) : Kern := mkKern v (k_fds k) (k_files k) (k_cwd k) (k_held k) (k_mem k) (k_vm k).
Definition with_fds (k : Kern) (t : FdTable nat) : Kern := mkKern (k_vfs k) t (k_files k) (k_cwd k) (k_held k) (k_mem k) (k_vm k).
Definition with_files (k : Kern) (f : F) : Kern := mkKern (k_vfs k) (k_fds k) f (k_cwd k) (k_held k) (k_mem k) (k_vm k).
Definition with_cwd (k : Kern) (o : nat) : Kern := mkKern (k_vfs k) (k_fds k) (k_files k) o (k_held k) (k_mem k) (k_vm k).
Definition with_mem (k : Kern) (m : M) : Kern := mkKern (k_vfs k) (k_fds k) (k_files k) (k_cwd k) (k_held k) m (k_vm k).

(** The dentries that the task and the others keep alive. *)
Definition pins (k : Kern) : list nat :=
  k_cwd k :: k_held k ++ omap (fun o => match o with Some i => fo_dentry (k_files k) (fi_file i) | None => None end) (ft_table (k_fds k)).

Definition on_vfs {A} (m : call Vfs A) : kcall A :=
  fun k => let! r := m (with_pins (k_vfs k) (pins k)) in Ret (r.1, with_vfs k r.2).

Definition on_fds {A} (f : FdTable nat -> result A SysError * FdTable nat) : kcall A :=
  fun k => let r := f (k_fds k) in Ret (r.1, with_fds k r.2).

(** The inode a dentry has. *)
Definition inode_at (k : Kern) (o : nat) : option nat := v_dentries (k_vfs k) !! o ≫= d_inode.

Definition on_files {A} (f : (nat -> option nat) -> F -> outcome (result A SysError * F)) : kcall A :=
  fun k => let! r := f (inode_at k) (k_files k) in Ret (r.1, with_files k r.2).

Definition on_mem {A} (f : M -> outcome (A * M)) : kcall A :=
  fun k => let! r := f (k_mem k) in Ret (Ok r.1, with_mem k r.2).

Definition file_of (fd : nat) : kcall nat := let? k := cget in fun k' => Ret (get_file (k_fds k) fd, k').

Definition file_pos (f : nat) : kcall Z := let? k := cget in cret (fo_pos (k_files k) f).
Definition set_file_pos (f : nat) (pos : Z) : kcall unit := let? k := cget in cput (with_files k (fo_set_pos (k_files k) f pos)).

(** [file.dentry().unwrap()] *)
Definition dentry_of_file (f : nat) : kcall nat := let? k := cget in cunwrap (fo_dentry (k_files k) f).

Definition check_user (ptr size access : Z) (e : SysError) : kcall unit :=
  let? k := cget in
  let? b := on_mem (fun m => um_ensure m (k_vm k) ptr size access) in
  if b : bool then cret tt else cerr e.

Definition user_read (ptr len : Z) : kcall (list Z) := let? k := cget in on_mem (fun m => ub_read m (k_vm k) ptr len).
Definition user_write (ptr : Z) (bytes : list Z) : kcall unit :=
  let? k := cget in on_mem (fun m => let! m := ub_write m (k_vm k) ptr bytes in Ret (tt, m)).

Definition user_path_to_string (ptr : Z) : kcall (option string) :=
  if ptr =? 0 then cret None
  else
    let? k := cget in
    let? p := on_mem (fun m => ub_cstr m (k_vm k) ptr) in
    cret (match p with Some p => if bool_decide (p = ""%string) then None else Some p | None => None end).

(** ** Calls that name a file *)

(** The dentry that [dirfd] stands for. *)
Definition dir_of (dirfd : Z) : kcall nat :=
  if to_i32 dirfd =? AT_FDCWD then let? k := cget in cret (k_cwd k)
  else let? f := file_of (Z.to_nat (wrap dirfd)) in dentry_of_file f.

Definition at_helper (dirfd pathname flags : Z) : kcall nat :=
  if (pathname =? 0) && negb (contains flags AT_EMPTY_PATH) then cerr EFAULT
  else
    let? opt_path := user_path_to_string pathname in
    let? d := match opt_path with
              | Some p =>
                  if starts_slash p then on_vfs (global_find_dentry p)
                  else
                    let? dir := dir_of dirfd in
                    let? dp := on_vfs (path dir) in
                    let? fpath := cunwrap (rel_path_to_abs dp p) in
                    on_vfs (global_find_dentry fpath)
              | None =>
                  if negb (contains flags AT_EMPTY_PATH) then cerr ENOENT
                  else dir_of dirfd
              end in
    if contains flags AT_SYMLINK_NOFOLLOW then cret d else on_vfs (follow d).

(** [open] of a dentry, and the file; tmpfs makes an unnamed file when asked. *)
Definition dentry_open (o : nat) (flags : Z) : kcall nat :=
  let? d := on_vfs (dentry o) in
  let? o := match d_kind d with
            | DevDentry => cret o
            | k =>
                if negb (bool_decide (d_state d = USED)) then cpanic
                else match k with
                     | TmpDentry =>
                         if contains flags O_TMPFILE then
                           let? i := on_vfs (alloc_inode (mkInode ITmp MODE_FILE)) in
                           let? n := on_vfs (alloc_dentry (DentryInner_new TmpDentry "unname,shit!" None)) in
                           let? _ := on_vfs (set_inode n i) in
                           let? _ := on_vfs (set_state n NEGATIVE) in
                           cret n
                         else cret o
                     | _ => cret o
                     end
            end in
  let? k := cget in
  let r := fo_open (k_files k) o flags in
  let? _ := cput (with_files k r.2) in
  cret r.1.

Definition sys_openat (dirfd pathname flags : Z) : kcall nat :=
  let? open_flags := cunwrap (OpenFlags_from_bits (to_i32 flags)) in
  let at_flags := at_truncate (to_i32 flags) in
  let? opt_path := user_path_to_string pathname in
  match opt_path with
  | None => cerr ENOENT
  | Some p =>
      let? d := at_helper dirfd pathname at_flags in
      let? _ := if contains open_flags O_CREAT then
                  let? dp := on_vfs (path d) in
                  let? name := cunwrap (abs_path_to_name p) in
                  let? dname := cunwrap (abs_path_to_name dp) in
                  if negb (bool_decide (name = dname)) then cerr ENOENT
                  else
                    let? neg := on_vfs (is_negative d) in
                    if contains open_flags O_EXCL && negb neg then cerr EEXIST
                    else
                      let? pa := on_vfs (parent d) in
                      let? pa := cunwrap pa in
                      let? pi := on_vfs (d_inode_of pa) in
                      let? pi := cunwrap pi in
                      let? i := on_vfs (inode_create pi name MODE_FILE) in
                      let? i := cunwrap i in
                      let? _ := on_vfs (set_inode d i) in
                      on_vfs (add_child pa d)
                else cret tt in
      let? neg := on_vfs (is_negative d) in
      if neg : bool then cerr ENOENT
      else
        let? i := on_vfs (d_inode_of d) in
        let? i := cunwrap i in
        let? n := on_vfs (inode i) in
        if contains open_flags O_DIRECTORY && negb (get_type (i_mode n) =? MODE_DIR) then cerr ENOTDIR
        else
          let? f := dentry_open d open_flags in
          let? _ := (let? k := cget in cput (with_files k (fo_set_flags (k_files k) f open_flags))) in
          let? fd := on_fds alloc_fd in
          let? _ := on_fds (fun t => put_file t fd (mkFdInfo f (fd_flags_of open_flags))) in
          cret fd
  end.

Definition sys_mkdirat (dirfd pathname : Z) : kcall unit :=
  let? opt_path := user_path_to_string pathname in
  match opt_path with
  | None => cerr ENOENT
  | Some p =>
      let? d := at_helper dirfd pathname 0 in
      let? neg := on_vfs (is_negative d) in
      if negb neg then cerr EEXIST
      else
        let? pa := on_vfs (parent d) in
        let? pa := cunwrap pa in
        let? name := cunwrap (abs_path_to_name p) in
        let? pi := on_vfs (d_inode_of pa) in
        let? pi := cunwrap pi in
        let? i := on_vfs (inode_create pi name MODE_DIR) in
        let? i := cunwrap i in
        let? _ := on_vfs (set_inode d i) in
        on_vfs (set_state d USED)
  end.

Definition sys_chdir (pathname : Z) : kcall unit :=
  let? opt_path := user_path_to_string pathname in
  let? p := cok_or opt_path EINVAL in
  let? k := cget in
  let? d := if starts_slash p then on_vfs (global_find_dentry p)
            else
              let? r := on_vfs (dentry_find (k_cwd k) p) in
              cok_or r ENOENT in
  let? neg := on_vfs (is_negative d) in
  if neg : bool then cerr ENOENT
  else
    let? i := on_vfs (d_inode_of d) in
    let? i := cunwrap i in
    let? n := on_vfs (inode i) in
    if negb (contains (i_mode n) MODE_DIR) then cerr ENOTDIR
    else let? k := cget in cput (with_cwd k d).

Definition AT_REMOVEDIR : Z := 0x200.

Definition sys_unlinkat (dirfd pathname flags : Z) : kcall unit :=
  let? opt_path := user_path_to_string pathname in
  let? p := cok_or opt_path EINVAL in
  let? d := at_helper dirfd pathname AT_SYMLINK_NOFOLLOW in
  let? pa := on_vfs (parent d) in
  match pa with
  | None => cerr ENOENT
  | Some _ =>
      let? neg := on_vfs (is_negative d) in
      if neg : bool then cerr ENOENT
      else
        let? i := on_vfs (d_inode_of d) in
        let? i := cunwrap i in
        let? n := on_vfs (inode i) in
        let is_dir := i_mode n =? MODE_DIR in
        if (flags =? AT_REMOVEDIR) && negb is_dir then cerr ENOTDIR
        else if negb (flags =? AT_REMOVEDIR) && is_dir then cerr EPERM
        else
          let? _ := on_vfs (clear_inode d) in
          let? name := cunwrap (abs_path_to_name p) in
          let? pa := on_vfs (parent d) in
          let? pa := cunwrap pa in
          let? pi := on_vfs (d_inode_of pa) in
          let? pi := cunwrap pi in
          let? r := on_vfs (inode_remove pi name (i_mode n)) in
          match r with
          | Ok _ => on_vfs (remove_child pa name)
          | Err _ => cpanic
          end
  end.

Definition sys_symlinkat (old_path_ptr new_dirfd new_path_ptr : Z) : kcall unit :=
  let? old_path := user_path_to_string old_path_ptr in
  let? _ := cunwrap old_path in
  let? new_path := user_path_to_string new_path_ptr in
  let? new_path := cunwrap new_path in
  let? d := at_helper new_dirfd old_path_ptr AT_SYMLINK_NOFOLLOW in
  let? i := on_vfs (d_inode_of d) in
  let? i := cunwrap i in
  let? n := on_vfs (inode_symlink i new_path) in
  on_vfs (global_update_dentry new_path n).

Definition string_bytes (s : string) : list Z := map (fun a => Z.of_N (N_of_ascii a)) (list_ascii_of_string s).

(** A slice with zeroes from [n] on and then the bytes at its start; the index of a
    range past the end panics. *)
Definition put_padded (ptr len : Z) (bytes : list Z) : kcall unit :=
  if len <? zlen bytes then cpanic
  else user_write ptr (bytes ++ replicate (Z.to_nat (len - zlen bytes)) 0).

Definition sys_readlinkat (dirfd pathname buf len : Z) : kcall Z :=
  let? d := at_helper dirfd pathname AT_SYMLINK_NOFOLLOW in
  let? neg := on_vfs (is_negative d) in
  if neg : bool then cerr EBADF
  else
    let? i := on_vfs (d_inode_of d) in
    let? i := cunwrap i in
    let? n := on_vfs (inode i) in
    if negb (i_mode n =? MODE_LINK) then cerr EINVAL
    else
      let? target := on_vfs (inode_readlink i) in
      let? _ := check_user buf len ACCESS_WRITE EINVAL in
      let? _ := put_padded buf len (string_bytes target) in
      cret (zlen (string_bytes target)).

Definition sys_linkat (old_dirfd old_pathname new_dirfd new_pathname flags : Z) : kcall unit :=
  let at_flags := at_truncate flags in
  let? od := at_helper old_dirfd old_pathname at_flags in
  let? nd := at_helper new_dirfd new_pathname at_flags in
  let? i := on_vfs (d_inode_of od) in
  let? i := cunwrap i in
  let? np := on_vfs (path nd) in
  let? _ := on_vfs (inode_link i np) in
  let? _ := on_vfs (set_inode nd i) in
  on_vfs (set_state nd USED).

Definition sys_faccessat (dirfd pathname flags : Z) : kcall unit :=
  let? _ := at_helper dirfd pathname (at_truncate flags) in
  cret tt.

(** Whether [old] is above [o]; every step goes to an older dentry. *)
Fixpoint below_from (fuel old o : nat) : kcall bool :=
  match fuel with
  | O => cpanic
  | S fuel =>
      let? pa := on_vfs (parent o) in
      match pa with
      | None => cret false
      | Some p => if Nat.eqb p old then cret true else below_from fuel old p
      end
  end.

Definition sys_renameat2 (old_dirfd old_path new_dirfd new_path flags : Z) : kcall unit :=
  let? flags := cok_or (RenameFlags_from_bits flags) EINVAL in
  let? od := at_helper old_dirfd old_path AT_SYMLINK_NOFOLLOW in
  let? nd := at_helper new_dirfd new_path AT_SYMLINK_NOFOLLOW in
  if contains flags RENAME_EXCHANGE && (contains flags RENAME_NOREPLACE || contains flags RENAME_WHITEOUT) then cerr EINVAL
  else
    let? below := below_from (S nd) od nd in
    if below : bool then cerr EINVAL
    else
      let? neg := on_vfs (is_negative nd) in
      if neg && contains flags RENAME_EXCHANGE then cerr ENOENT
      else if contains flags RENAME_NOREPLACE then cerr EEXIST
      else
        let? oi := on_vfs (d_inode_of od) in
        let? oi := cunwrap oi in
        let? ni := on_vfs (d_inode_of nd) in
        let? np := on_vfs (path nd) in
        let? _ := on_vfs (inode_rename oi np ni) in
        let? _ := on_vfs (set_inode nd oi) in
        if contains flags RENAME_EXCHANGE then
          let? i := on_vfs (d_inode_of nd) in
          let? i := cunwrap i in
          on_vfs (set_inode od i)
        else on_vfs (clear_inode od).

Definition getattr (i : nat) : kcall (list Z) :=
  fun k => let! r := fo_getattr (k_files k) i in Ret (Ok r.1, with_files k r.2).

(** [flags] of the call say nothing else than whether to follow a link. *)
Definition sys_fstatat (dirfd pathname stat_buf flags : Z) : kcall unit :=
  let? d := at_helper dirfd pathname (at_truncate flags) in
  let? i := on_vfs (d_inode_of d) in
  match i with
  | None => cerr ENOENT
  | Some i =>
      let? stat := getattr i in
      let? _ := check_user stat_buf (zlen stat) ACCESS_WRITE EFAULT in
      user_write stat_buf stat
  end.

Definition sys_getcwd (buf len : Z) : kcall Z :=
  let? k := cget in
  let? p := on_vfs (path (k_cwd k)) in
  let bytes := string_bytes p in
  if len <? zlen bytes + 1 then cerr ERANGE
  else
    let? _ := check_user buf len ACCESS_WRITE EINVAL in
    let? _ := put_padded buf len bytes in
    cret buf.

(** ** Calls on descriptors *)

Definition fdn (fd : Z) : nat := Z.to_nat fd.

Definition sys_write (fd buf len : Z) : kcall Z :=
  let? f := file_of (fdn fd) in
  let? _ := check_user buf len ACCESS_READ EINVAL in
  let? bytes := user_read buf len in
  on_files (fun at_ fs => fo_write at_ fs f bytes).

(** Reading fills the user's slice. *)
Definition read_into (f : nat) (buf len : Z) : kcall Z :=
  let? r := on_files (fun at_ fs => fo_read at_ fs f len) in
  let? _ := user_write buf r.2 in
  cret r.1.

Definition sys_read (fd buf len : Z) : kcall Z :=
  let? f := file_of (fdn fd) in
  let? _ := check_user buf len ACCESS_WRITE EINVAL in
  read_into f buf len.

Definition sys_close (fd : Z) : kcall unit :=
  if to_i64 fd <? 0 then cerr EBADF else on_fds (fun t => ft_remove t (fdn fd)).

Definition sys_lseek (fd offset whence : Z) : kcall Z :=
  let? f := file_of (fdn fd) in
  if whence =? 0 then on_files (fun at_ fs => fo_seek at_ fs f (SeekStart (wrap offset)))
  else if whence =? 1 then on_files (fun at_ fs => fo_seek at_ fs f (SeekCurrent offset))
  else if whence =? 2 then on_files (fun at_ fs => fo_seek at_ fs f (SeekEnd offset))
  else if (whence =? 3) || (whence =? 4) then cpanic
  else cerr EINVAL.

Definition sys_dup (old_fd : Z) : kcall nat := on_fds (fun t => dup_no_flag t (fdn old_fd)).

Definition sys_dup3 (old_fd new_fd flags : Z) : kcall nat :=
  let? flags := cok_or (OpenFlags_from_bits (to_i32 flags)) EINVAL in
  if old_fd =? new_fd then cerr EINVAL
  else on_fds (fun t => dup3 t (fdn old_fd) (fdn new_fd) (fd_flags_of flags)).

Definition dup_bound (fd arg flags : Z) : kcall Z :=
  let? n := (fun k => let! r := dup_with_bound (k_fds k) (fdn fd) (fdn arg) flags in Ret (r.1, with_fds k r.2)) in
  cret (Z.of_nat n).

(** An operation that is not known succeeds. *)
Definition sys_fnctl (fd op arg : Z) : kcall Z :=
  if op =? 0 then dup_bound fd arg (fd_flags_of 0)
  else if op =? 1030 then dup_bound fd arg (fd_flags_of O_CLOEXEC)
  else if op =? 1 then
    let? k := cget in
    (fun k' => Ret (match get_fd_info (k_fds k) (fdn fd) with Ok i => Ok (fi_flags i) | Err e => Err e end, k'))
  else if op =? 2 then
    let? _ := on_fds (fun t => get_mut_fd_info t (fdn fd) (fun i => FdInfo_set_flags i (fd_flags_of (OpenFlags_truncate (to_i32 arg))))) in
    cret 0
  else if op =? 3 then
    let? f := file_of (fdn fd) in
    let? k := cget in
    cret (fo_flags (k_files k) f)
  else if op =? 4 then
    let? f := file_of (fdn fd) in
    let? k := cget in
    let? _ := cput (with_files k (fo_set_flags (k_files k) f (status (OpenFlags_truncate (to_i32 arg))))) in
    cret 0
  else cret 0.

Definition sys_ioctl (fd cmd arg : Z) : kcall Z :=
  let? f := file_of (fdn fd) in
  on_files (fun _ fs => fo_ioctl fs f cmd arg).

Definition sys_ftruncate (fd length : Z) : kcall unit :=
  let? f := file_of (fdn fd) in
  let? _ := on_files (fun at_ fs => fo_truncate at_ fs f length) in
  cret tt.

(** The vectors of [readv] and [writev]: sixteen bytes each. *)
Fixpoint load_iovs (m : M) (vm ptr : Z) (n : nat) : outcome (list (Z * Z) * M) :=
  match n with
  | O => Ret ([], m)
  | S n =>
      let! b := um_load m vm ptr 8 in
      let! l := um_load b.2 vm (wadd ptr 8) 8 in
      let! r := load_iovs l.2 vm (wadd ptr 16) n in
      Ret ((b.1, l.1) :: r.1, r.2)
  end.

Definition user_iovs (iov iovcnt : Z) : kcall (list (Z * Z)) :=
  let? _ := check_user iov (wmul 16 iovcnt) ACCESS_READ EINVAL in
  let? k := cget in
  on_mem (fun m => load_iovs m (k_vm k) iov (Z.to_nat iovcnt)).

Fixpoint readv_loop (f : nat) (iovs : list (Z * Z)) (total : Z) : kcall Z :=
  match iovs with
  | [] => cret total
  | (base, len) :: iovs =>
      if len =? 0 then readv_loop f iovs total
      else
        let? _ := check_user base len ACCESS_WRITE EINVAL in
        let? n := read_into f base len in
        readv_loop f iovs (wadd total n)
  end.

Definition sys_readv (fd iov iovcnt : Z) : kcall Z :=
  let? f := file_of (fdn fd) in
  let? iovs := user_iovs iov iovcnt in
  readv_loop f iovs 0.

Fixpoint writev_loop (f : nat) (iovs : list (Z * Z)) (total : Z) : kcall Z :=
  match iovs with
  | [] => cret total
  | (base, len) :: iovs =>
      if len =? 0 then writev_loop f iovs total
      else
        let? _ := check_user base len ACCESS_READ EINVAL in
        let? bytes := user_read base len in
        let? n := on_files (fun at_ fs => fo_write at_ fs f bytes) in
        writev_loop f iovs (wadd total n)
  end.

Definition sys_writev (fd iov iovcnt : Z) : kcall Z :=
  let? f := file_of (fdn fd) in
  let? iovs := user_iovs iov iovcnt in
  writev_loop f iovs 0.

Definition sys_pread (fd buf count offset : Z) : kcall Z :=
  let? f := file_of (fdn fd) in
  let? old_pos := file_pos f in
  let? _ := on_files (fun at_ fs => fo_seek at_ fs f (SeekStart offset)) in
  let? _ := check_user buf count ACCESS_WRITE EINVAL in
  let? n := read_into f buf count in
  let? _ := set_file_pos f old_pos in
  cret n.

Definition sys_pwrite (fd buf count offset : Z) : kcall Z :=
  let? f := file_of (fdn fd) in
  let? old_pos := file_pos f in
  let? _ := on_files (fun at_ fs => fo_seek at_ fs f (SeekStart offset)) in
  let? _ := check_user buf count ACCESS_READ EINVAL in
  let? bytes := user_read buf count in
  let? n := on_files (fun at_ fs => fo_write at_ fs f bytes) in
  let? _ := set_file_pos f old_pos in
  cret n.

Definition sys_sendfile (out_fd in_fd offset count : Z) : kcall Z :=
  let? fin := file_of (fdn in_fd) in
  let? fout := file_of (fdn out_fd) in
  let? _ := check_user offset 8 ACCESS_WRITE EINVAL in
  let? r := if offset =? 0 then on_files (fun at_ fs => fo_read at_ fs fin count)
            else
              let? k := cget in
              let? off := on_mem (fun m => um_load m (k_vm k) offset 8) in
              let? r := on_files (fun at_ fs => fo_read_at at_ fs fin off count) in
              let? _ := on_mem (fun m => let! m := um_store m (k_vm k) offset 8 (wadd off r.1) in Ret (tt, m)) in
              cret r in
  on_files (fun at_ fs => fo_write at_ fs fout (ztake r.1 r.2)).

(** *** Attributes *)

Definition inode_of_file (f : nat) : kcall nat :=
  let? d := dentry_of_file f in
  let? i := on_vfs (d_inode_of d) in
  cunwrap i.

(** The result goes through the user's pointer unchecked. *)
Definition sys_fstat (fd stat_buf : Z) : kcall unit :=
  let? f := file_of (fdn fd) in
  let? i := inode_of_file f in
  let? stat := getattr i in
  user_write stat_buf stat.

Definition sys_statx (dirfd pathname flags mask statx_buf : Z) : kcall unit :=
  let? _ := cok_or (OpenFlags_from_bits flags) EINVAL in
  let? d := at_helper dirfd pathname (at_truncate flags) in
  let? neg := on_vfs (is_negative d) in
  let? i := on_vfs (d_inode_of d) in
  if neg && bool_decide (i = None) then cerr ENOENT
  else
    let? i := cunwrap i in
    let? stat := (fun k => let! r := fo_getxattr (k_files k) i mask in Ret (Ok r.1, with_files k r.2)) in
    user_write statx_buf stat.

Definition UTIME_NOW : Z := 0x3fffffff.
Definition UTIME_OMIT : Z := 0x3ffffffe.

(** A time of the user: now, left as it is, or given. *)
Definition pick_time (now : Z * Z) (sec nsec : Z) : option (Z * Z) :=
  if nsec =? UTIME_NOW then Some now else if nsec =? UTIME_OMIT then None else Some (sec, nsec).

Definition set_times (i : nat) (atime mtime : option (Z * Z)) (ctime : Z * Z) : kcall unit :=
  let? k := cget in cput (with_files k (fo_set_times (k_files k) i atime mtime ctime)).

Definition sys_utimensat (now : Z * Z) (dirfd pathname times flags : Z) : kcall unit :=
  let at_flags := at_truncate flags in
  if negb (to_i32 dirfd =? AT_FDCWD) && (pathname =? 0) && contains at_flags AT_SYMLINK_NOFOLLOW then cerr EINVAL
  else
    let? i := if pathname =? 0 then
                let? f := file_of (Z.to_nat (wrap dirfd)) in
                inode_of_file f
              else
                let? d := at_helper dirfd pathname at_flags in
                let? neg := on_vfs (is_negative d) in
                if neg : bool then cerr ENOENT
                else
                  let? i := on_vfs (d_inode_of d) in
                  cunwrap i in
    if times =? 0 then set_times i (Some now) (Some now) now
    else
      let? _ := check_user times 32 ACCESS_WRITE EINVAL in
      let? k := cget in
      let? w := on_mem (fun m => load_words m (k_vm k) times 4) in
      match w with
      | [s0; n0; s1; n1] => set_times i (pick_time now s0 n0) (pick_time now s1 n1) now
      | _ => cpanic
      end.

Definition put_fd (f : nat) (flags : Z) : kcall nat :=
  let? fd := on_fds alloc_fd in
  let? _ := on_fds (fun t => put_file t fd (mkFdInfo f flags)) in
  cret fd.

(** The two numbers go to the user's memory unchecked, as 32-bit words. *)
Definition sys_pipe2 (pipe flags : Z) : kcall unit :=
  let? flags := cunwrap (OpenFlags_from_bits (to_i32 flags)) in
  let? k := cget in
  let '(rf, wf, fs) := fo_pipe (k_files k) in
  let? _ := cput (with_files k fs) in
  let? rfd := put_fd rf (fd_flags_of flags) in
  let? wfd := put_fd wf (fd_flags_of flags) in
  let? _ := on_mem (fun m => let! m := um_store m (k_vm k) pipe 4 (Z.of_nat rfd) in Ret (tt, m)) in
  on_mem (fun m => let! m := um_store m (k_vm k) (wadd pipe 4) 4 (Z.of_nat wfd) in Ret (tt, m)).

(** *** Directory entries *)

Fixpoint le_bytes (n : nat) (z : Z) : list Z :=
  match n with
  | O => []
  | S n => z mod 256 :: le_bytes n (z / 256)
  end.

Definition LEN_BEFORE_NAME : Z := 19.

(** The entries that fit; the bytes after the name of an entry are not written. *)
Fixpoint dirents (f : nat) (children : list nat) (buf len writen_len : Z) : kcall Z :=
  match children with
  | [] => cret writen_len
  | c :: children =>
      let? d := on_vfs (dentry c) in
      if bool_decide (d_state d = NEGATIVE) then cpanic
      else
        let name := string_bytes (d_name d) in
        let rec_len := Z.land (LEN_BEFORE_NAME + (zlen name + 1) + 7) (Z.lnot 7) in
        let? i := cunwrap (d_inode d) in
        let? n := on_vfs (inode i) in
        let? pos := file_pos f in
        if len <? writen_len + rec_len then cret writen_len
        else
          let? _ := on_files (fun at_ fs => fo_seek at_ fs f (SeekCurrent 1)) in
          let? _ := user_write (wadd buf writen_len)
                      (le_bytes 8 (Z.of_nat i) ++ le_bytes 8 pos ++ le_bytes 2 rec_len ++ le_bytes 1 (i_mode n) ++ name ++ [0]) in
          dirents f children buf len (writen_len + rec_len)
  end.

Definition sys_getdents64 (fd buf len : Z) : kcall Z :=
  let? _ := check_user buf len ACCESS_WRITE EINVAL in
  let? f := file_of (fdn fd) in
  let? d := dentry_of_file f in
  let? cs := on_vfs (load_child_dentry d) in
  let? pos := file_pos f in
  dirents f (drop (Z.to_nat pos) cs) buf len 0.

End Calls.
