(* ===== verification/FsClaims.v ===== *)
(** What the system calls on names do to the name space: the cache stays true over any
    run of them, a lookup finds what it is asked for, and the ways in which names,
    contents and positions are lost. *)

From S2P Require Import Prelude HalConst Errno FdTable PageCache UserMem Path Vfs VfsProofs FsCalls.
From Stdlib Require Import Ascii String.
From stdpp Require Import strings.

#[local] Open Scope Z_scope.

(** Calls of the kernel that keep the shape of the name space. *)
Create HintDb kstable.

Section Calls.
Context {W : Type} {LIB : Ext4Lib W}.
Context {M : Type} {UM : UserMemory M} {UB : UserBytes M}.
Context {F : Type} {FO : FileOps F}.
#[local] Abbreviation KernT := (Kern (W := W) (M := M) (F := F)).
Implicit Types k : KernT.

Definition KI k k' : Prop := I (k_vfs k) (k_vfs k').

Definition kstable {A} (m : call KernT A) : Prop := forall k, vfs_wf (k_vfs k) -> wp m (fun _ k' => KI k k') k.

Lemma kstable_bind {A B} (m : call KernT A) (f : A -> call KernT B) : kstable m -> (forall a, kstable (f a)) -> kstable (cbind m f).
Proof.
  intros Hm Hf k H. apply wp_bind. eapply wp_mono; [by apply Hm|]. intros [a|e] k1 H1; [|done].
  eapply wp_mono; [apply Hf, H1|]. intros r k2 H2. by eapply I_trans.
Qed.

(** A step of a call that keeps the shape, within one that has kept it so far. *)
Lemma wp_kstable {A B} (m : call KernT A) (f : A -> call KernT B) k0 k : kstable m -> vfs_wf (k_vfs k) -> KI k0 k ->
  (forall a k', KI k0 k' -> wp (f a) (fun _ k2 => KI k0 k2) k') -> wp (cbind m f) (fun _ k2 => KI k0 k2) k.
Proof.
  intros Hm H H0 Hf. apply wp_bind. eapply wp_mono; [by apply Hm|]. intros [a|e] k' H'; [apply Hf|]; by eapply I_trans.
Qed.

(** A call that does not touch the name space. *)
Lemma kstable_same {A} (m : call KernT A) : (forall k r k', m k = Ret (r, k') -> k_vfs k' = k_vfs k) -> kstable m.
Proof. intros Hm k H. unfold wp. destruct (m k) as [[r k']|] eqn:E; [|done]. unfold KI. rewrite (Hm k r k' E). by apply I_refl. Qed.

Lemma wp_on_vfs {A} (m : call Vfs A) Q k :
  wp m (fun r v => Q r (with_vfs k v)) (with_pins (k_vfs k) (pins k)) -> wp (on_vfs m) Q k.
Proof. unfold wp, on_vfs. destruct (m _) as [[r v]|]; done. Qed.

Lemma wf_pins k : vfs_wf (k_vfs k) -> vfs_wf (with_pins (k_vfs k) (pins k)).
Proof. by apply wf_same_dentries. Qed.

Lemma I_pins (s : Vfs (W := W)) l s' : I (with_pins s l) s' -> I s s'.
Proof. by intros [? ?]. Qed.

Lemma kstable_on_vfs {A} (m : call Vfs A) : stable m -> kstable (on_vfs m).
Proof.
  intros Hm k H. apply wp_on_vfs. eapply wp_mono; [by apply Hm, wf_pins|]. intros r v. apply I_pins.
Qed.

Lemma kstable_ret {A} (a : A) : kstable (cret a). Proof. by apply kstable_same; intros k r k' [= _ <-]. Qed.
Lemma kstable_err {A} e : kstable (A := A) (cerr e). Proof. by apply kstable_same; intros k r k' [= _ <-]. Qed.
Lemma kstable_panic {A} : kstable (A := A) cpanic. Proof. done. Qed.
Lemma kstable_get : kstable cget. Proof. by apply kstable_same; intros k r k' [= _ <-]. Qed.
Lemma kstable_unwrap {A} (o : option A) : kstable (cunwrap o). Proof. destruct o; [apply kstable_ret|apply kstable_panic]. Qed.
Lemma kstable_ok_or {A} (o : option A) e : kstable (cok_or o e). Proof. destruct o; [apply kstable_ret|apply kstable_err]. Qed.

Lemma kstable_fds {A} (f : FdTable nat -> result A SysError * FdTable nat) : kstable (on_fds f).
Proof. by apply kstable_same; intros k r k' [= _ <-]. Qed.

Lemma kstable_files {A} (f : (nat -> option nat) -> F -> outcome (result A SysError * F)) : kstable (on_files f).
Proof. apply kstable_same. intros k r k'. unfold on_files. destruct (f _ _) as [[? ?]|]; [|done]. by intros [= _ <-]. Qed.

Lemma kstable_mem {A} (f : M -> outcome (A * M)) : kstable (on_mem f).
Proof. apply kstable_same. intros k r k'. unfold on_mem. destruct (f _) as [[? ?]|]; [|done]. by intros [= _ <-]. Qed.

(** Putting back another component. *)
Lemma kstable_put_files f : kstable (let? k := cget in cput (with_files k (f (k_files k)))).
Proof. by apply kstable_same; intros k r k' [= _ <-]. Qed.

End Calls.

#[export] Hint Resolve kstable_ret kstable_err kstable_panic kstable_get kstable_unwrap kstable_ok_or kstable_fds kstable_files kstable_mem kstable_put_files : kstable.
#[export] Hint Extern 2 (kstable (on_vfs _)) => (apply kstable_on_vfs; solve [auto with stable]) : kstable.

Ltac kstable_step :=
  match goal with
  | |- kstable (cbind _ _) => first [solve [auto with kstable] | apply kstable_bind; [|intro]]
  | |- kstable (match ?x with _ => _ end) => destruct x
  | |- kstable (if ?b then _ else _) => destruct b
  | |- _ => solve [auto with kstable]
  end.
Ltac kstable_tac := repeat (cbv zeta; kstable_step).

Section Names.
Context {W : Type} {LIB : Ext4Lib W}.
Context {M : Type} {UM : UserMemory M} {UB : UserBytes M}.
Context {F : Type} {FO : FileOps F}.
#[local] Abbreviation KernT := (Kern (W := W) (M := M) (F := F)).
Implicit Types k : KernT.
#[local] Abbreviation kst := (kstable (W := W) (M := M) (F := F)).

Lemma kstable_file_of fd : kst (file_of fd).
Proof. by apply kstable_same; intros k r k' [= _ <-]. Qed.
Lemma kstable_user_path p : kst (user_path_to_string p).
Proof. unfold user_path_to_string. kstable_tac. Qed.
Lemma kstable_check p n a e : kst (check_user p n a e).
Proof. unfold check_user. kstable_tac. Qed.
Lemma kstable_user_read p n : kst (user_read p n).
Proof. unfold user_read. kstable_tac. Qed.
Lemma kstable_user_write p l : kst (user_write p l).
Proof. unfold user_write. kstable_tac. Qed.
Lemma kstable_put_padded p n l : kst (put_padded p n l).
Proof. unfold put_padded, user_write. kstable_tac. Qed.
Lemma kstable_dentry_of_file f : kst (dentry_of_file f).
Proof. unfold dentry_of_file. kstable_tac. Qed.
Lemma kstable_file_pos f : kst (file_pos f).
Proof. unfold file_pos. kstable_tac. Qed.
Lemma kstable_getattr i : kst (getattr i).
Proof. apply kstable_same. intros k r k'. unfold getattr. destruct (fo_getattr _ _) as [[? ?]|]; [|done]. by intros [= _ <-]. Qed.

End Names.

#[export] Hint Resolve kstable_file_of kstable_user_path kstable_check kstable_user_read kstable_user_write kstable_put_padded kstable_dentry_of_file
  kstable_file_pos kstable_getattr : kstable.

Section NameCalls.
Context {W : Type} {LIB : Ext4Lib W}.
Context {M : Type} {UM : UserMemory M} {UB : UserBytes M}.
Context {F : Type} {FO : FileOps F}.
#[local] Abbreviation KernT := (Kern (W := W) (M := M) (F := F)).
Implicit Types k : KernT.
#[local] Abbreviation kst := (kstable (W := W) (M := M) (F := F)).

Lemma kstable_follow o : kst (on_vfs (follow o)).
Proof. apply kstable_on_vfs. unfold follow. auto with stable. Qed.
#[local] Hint Resolve kstable_follow : kstable.

Lemma kstable_dir_of fd : kst (dir_of fd).
Proof. unfold dir_of. kstable_tac. Qed.
#[local] Hint Resolve kstable_dir_of : kstable.

Lemma kstable_at_helper fd p fl : kst (at_helper fd p fl).
Proof. unfold at_helper. kstable_tac. Qed.
#[local] Hint Resolve kstable_at_helper : kstable.

Lemma kstable_put_cwd o : kst (let? k := cget in cput (with_cwd k o)).
Proof. by apply kstable_same; intros k r k' [= _ <-]. Qed.
#[local] Hint Resolve kstable_put_cwd : kstable.

Lemma kstable_mkdirat fd p : kst (sys_mkdirat fd p).
Proof. unfold sys_mkdirat. kstable_tac. Qed.
Lemma kstable_chdir p : kst (sys_chdir p).
Proof. unfold sys_chdir. kstable_tac. Qed.
Lemma kstable_unlinkat fd p fl : kst (sys_unlinkat fd p fl).
Proof. unfold sys_unlinkat. kstable_tac. Qed.
Lemma kstable_symlinkat o fd n : kst (sys_symlinkat o fd n).
Proof. unfold sys_symlinkat. kstable_tac. Qed.
Lemma kstable_readlinkat fd p b n : kst (sys_readlinkat fd p b n).
Proof. unfold sys_readlinkat. kstable_tac. Qed.
Lemma kstable_linkat a b c d e : kst (sys_linkat a b c d e).
Proof. unfold sys_linkat. kstable_tac. Qed.
Lemma kstable_faccessat a b c : kst (sys_faccessat a b c).
Proof. unfold sys_faccessat. kstable_tac. Qed.
Lemma kstable_below n : forall o p, kst (below_from n o p).
Proof. induction n as [|n IH]; intros o p; cbn; [auto with kstable|]. kstable_tac. Qed.
#[local] Hint Resolve kstable_below : kstable.
Lemma kstable_renameat a b c d e : kst (sys_renameat2 a b c d e).
Proof. unfold sys_renameat2. kstable_tac. Qed.
Lemma kstable_fstatat a b c d : kst (sys_fstatat a b c d).
Proof. unfold sys_fstatat. kstable_tac. Qed.
Lemma kstable_getcwd b n : kst (sys_getcwd b n).
Proof. unfold sys_getcwd. kstable_tac. Qed.

(** A dentry without a parent. *)
Lemma kstable_alloc_free kd n : kst (on_vfs (alloc_dentry (DentryInner_new kd n None))).
Proof.
  intros k H. apply wp_on_vfs. apply wp_alloc_dentry; [by apply wf_pins|done|done|]. intros o s' HI _ _ _. exact (I_pins _ _ _ HI).
Qed.
#[local] Hint Resolve kstable_alloc_free : kstable.

Lemma kstable_dentry_open o fl : kst (dentry_open o fl).
Proof.
  unfold dentry_open. apply kstable_bind; [auto with kstable|]. intros d. apply kstable_bind; [kstable_tac|]. intros o'.
  by apply kstable_same; intros k r k' [= _ <-].
Qed.
#[local] Hint Resolve kstable_dentry_open : kstable.
(** The part of [openat] that creates: the dentry goes below its own parent. *)
Lemma kstable_create_below d (name : string) :
  kst (let? pa := on_vfs (parent d) in
       let? pa := cunwrap pa in
       let? pi := on_vfs (d_inode_of pa) in
       let? pi := cunwrap pi in
       let? i := on_vfs (inode_create pi name MODE_FILE) in
       let? i := cunwrap i in
       let? _ := on_vfs (set_inode d i) in
       on_vfs (add_child pa d)).
Proof.
  intros k H. apply wp_bind, wp_on_vfs, wp_parent. intros dd Ed. cbn in Ed. apply wp_bind, wp_unwrap. intros pa Hpa.
  set (k1 := with_vfs k _). assert (H1 : vfs_wf (k_vfs k1)) by by apply wf_pins.
  eapply wp_mono with (Q := fun _ k' => KI k1 k'); [|by intros].
  apply wp_kstable; [auto with kstable|done|by apply I_refl|]. intros pi k2 H2.
  apply wp_kstable; [auto with kstable|apply H2|exact H2|]. intros pi' k3 H3.
  apply wp_kstable; [auto with kstable|apply H3|exact H3|]. intros i k4 H4.
  apply wp_kstable; [auto with kstable|apply H4|exact H4|]. intros i' k5 H5.
  apply wp_kstable; [auto with kstable|apply H5|exact H5|]. intros u k6 H6.
  apply wp_on_vfs, wp_add_child; [apply wf_pins, H6| |].
  - cbn. intros dc Edc. destruct (proj2 H6 d dd Ed) as (d2 & E2 & _ & _ & P2). replace dc with d2 by congruence. congruence.
  - intros s' HI _. eapply I_trans; [exact H6|]. exact (I_pins _ _ _ HI).
Qed.
#[local] Hint Resolve kstable_create_below : kstable.

Lemma kstable_set_flags f fl : kst (let? k := cget in cput (with_files k (fo_set_flags (k_files k) f fl))).
Proof. by apply kstable_same; intros k r k' [= _ <-]. Qed.
#[local] Hint Resolve kstable_set_flags : kstable.

Lemma kstable_openat fd p fl : kst (sys_openat fd p fl).
Proof. unfold sys_openat. kstable_tac. Qed.

Lemma kstable_dirents f cs : forall b n w, kst (dirents f cs b n w).
Proof. induction cs as [|c cs IH]; intros b n w; cbn -[Z.add Z.land le_bytes]; kstable_tac. Qed.

Lemma kstable_getdents fd b n : kst (sys_getdents64 fd b n).
Proof. unfold sys_getdents64. pose proof kstable_dirents. kstable_tac. Qed.

Lemma kstable_statx a b c d e : kst (sys_statx a b c d e).
Proof.
  assert (Hx : forall i mask, kst (fun k => let! r := fo_getxattr (k_files k) i mask in Ret (Ok r.1, with_files k r.2))).
  { intros i mask. apply kstable_same. intros k r k'. destruct (fo_getxattr _ _ _) as [[? ?]|]; [|done]. by intros [= _ <-]. }
  unfold sys_statx. kstable_tac.
Qed.

(** ** Any run of the calls that name files *)

Inductive FsOp :=
| FOpen (dirfd pathname flags : Z)
| FMkdir (dirfd pathname : Z)
| FChdir (pathname : Z)
| FUnlink (dirfd pathname flags : Z)
| FSymlink (old new_dirfd new : Z)
| FReadlink (dirfd pathname buf len : Z)
| FLink (old_dirfd old new_dirfd new flags : Z)
| FAccess (dirfd pathname flags : Z)
| FRename (old_dirfd old new_dirfd new flags : Z)
| FStat (dirfd pathname buf flags : Z)
| FStatx (dirfd pathname flags mask buf : Z)
| FGetcwd (buf len : Z)
| FGetdents (fd buf len : Z)
| FClose (fd : Z).

Definition ignore {A} (m : call KernT A) : call KernT unit := fun k => let! r := m k in Ret (Ok tt, r.2).

Definition do_fs (op : FsOp) : call KernT unit :=
  match op with
  | FOpen d p f => ignore (sys_openat d p f)
  | FMkdir d p => ignore (sys_mkdirat d p)
  | FChdir p => ignore (sys_chdir p)
  | FUnlink d p f => ignore (sys_unlinkat d p f)
  | FSymlink o d n => ignore (sys_symlinkat o d n)
  | FReadlink d p b n => ignore (sys_readlinkat d p b n)
  | FLink a b c d f => ignore (sys_linkat a b c d f)
  | FAccess d p f => ignore (sys_faccessat d p f)
  | FRename a b c d f => ignore (sys_renameat2 a b c d f)
  | FStat d p b f => ignore (sys_fstatat d p b f)
  | FStatx d p f m b => ignore (sys_statx d p f m b)
  | FGetcwd b n => ignore (sys_getcwd b n)
  | FGetdents d b n => ignore (sys_getdents64 d b n)
  | FClose d => ignore (sys_close d)
  end.

(** Calls that fail are over and change what they have changed. *)
Fixpoint run_fs (ops : list FsOp) : call KernT unit :=
  match ops with
  | [] => cret tt
  | op :: ops => let? _ := do_fs op in run_fs ops
  end.

Lemma kstable_ignore {A} (m : call KernT A) : kst m -> kst (ignore m).
Proof. intros Hm k H. specialize (Hm k H). unfold wp, ignore in *. destruct (m k) as [[r k']|]; done. Qed.

Lemma kstable_close fd : kst (sys_close fd).
Proof. unfold sys_close. kstable_tac. Qed.

#[local] Hint Resolve kstable_openat kstable_mkdirat kstable_chdir kstable_unlinkat kstable_symlinkat kstable_readlinkat kstable_linkat kstable_faccessat
  kstable_renameat kstable_fstatat kstable_statx kstable_getcwd kstable_getdents kstable_close : kstable.

Lemma kstable_run ops : kst (run_fs ops).
Proof.
  induction ops as [|op ops IH]; [apply kstable_ret|]. apply kstable_bind; [|done]. destruct op; apply kstable_ignore; auto with kstable.
Qed.

End NameCalls.

(** ** The name space at boot *)

Section Boot.
Context {W : Type} {LIB : Ext4Lib W}.
Implicit Types s : Vfs (W := W).

(** Whether a state has the shape, for states that can be computed. *)
Definition is_dev (d : Dentry) : bool := match d_kind d with DevDentry => true | _ => false end.

Definition eq_parent (a : option nat) (o : nat) : bool := match a with Some p => Nat.eqb p o | None => false end.

Definition shape_at s (e : nat * Dentry) : bool :=
  let '(o, d) := e in
  Nat.ltb o (v_next s) &&
  match d_parent d with
  | None => true
  | Some p => Nat.ltb p o && match v_dentries s !! p with Some dp => negb (is_dev dp) | None => false end
  end &&
  forallb (fun e => negb (is_dev d) &&
    match v_dentries s !! e.2 with
    | Some dc => String.eqb (d_name dc) e.1 && (eq_parent (d_parent dc) o || is_dev dc)
    | None => false
    end) (map_to_list (d_children d)).

Definition shape_key s (e : string * nat) : bool :=
  match v_dentries s !! e.2 with Some _ => String.eqb (full_path s e.2) e.1 || String.eqb e.1 "sdcard/" | None => false end.

Definition shape_ok s : bool := forallb (shape_at s) (map_to_list (v_dentries s)) && forallb (shape_key s) (map_to_list (v_dcache s)).

Lemma is_dev_true d : is_dev d = true -> d_kind d = DevDentry.
Proof. unfold is_dev. by destruct (d_kind d). Qed.

Lemma is_dev_false d : negb (is_dev d) = true -> d_kind d <> DevDentry.
Proof. unfold is_dev. by destruct (d_kind d). Qed.

Lemma forallb_map {K A} `{Countable K} (f : K * A -> bool) (m : gmap K A) k a : forallb f (map_to_list m) = true -> m !! k = Some a -> f (k, a) = true.
Proof. intros Hf E. rewrite forallb_forall in Hf. by apply Hf, list_elem_of_In, elem_of_map_to_list. Qed.

Lemma shape_ok_wf s : shape_ok s = true -> vfs_wf s.
Proof.
  intros [H1 H2]%andb_true_iff.
  assert (H1' : forall o d, v_dentries s !! o = Some d -> shape_at s (o, d) = true) by (intros; by eapply forallb_map). split.
  - intros o d [[Hn _]%andb_true_iff _]%H1'%andb_true_iff. by apply Nat.ltb_lt.
  - intros o d p [[_ Hp]%andb_true_iff _]%H1'%andb_true_iff Ep. rewrite Ep in Hp. apply andb_true_iff in Hp as [Hl%Nat.ltb_lt Hp].
    split; [done|]. destruct (v_dentries s !! p) as [dp|]; [|done]. exists dp. split; [done|by apply is_dev_false].
  - intros o d n c [_ Hc]%H1'%andb_true_iff Ec. pose proof (forallb_map _ _ _ _ Hc Ec) as [Hk Hd]%andb_true_iff. cbn in Hd.
    split; [by apply is_dev_false|]. destruct (v_dentries s !! c) as [dc|]; [|done]. exists dc. apply andb_true_iff in Hd as [Hn%String.eqb_eq Hd].
    split; [done|]. split; [done|]. apply orb_true_iff in Hd as [Hp|Hp]; [left|right; by apply is_dev_true].
    unfold eq_parent in Hp. destruct (d_parent dc); [|done]. by apply Nat.eqb_eq in Hp as ->.
  - intros k o E. pose proof (forallb_map _ _ _ _ H2 E) as Hk. unfold shape_key in Hk. cbn [fst snd] in Hk. destruct (v_dentries s !! o) as [d|]; [|done].
    split; [done|]. apply orb_true_iff in Hk as [Hk%String.eqb_eq|Hk%String.eqb_eq]; auto.
Qed.

(** The state after booting. *)
Definition booted (w : W) : Vfs := match fs_init (vfs_new w) with Ret (_, s) => s | Panic => vfs_new w end.

Lemma booted_wf w : vfs_wf (booted w).
Proof. apply shape_ok_wf. vm_compute. reflexivity. Qed.

End Boot.

(** ** Lookups that end *)

Section Lookup.
Context {W : Type} {LIB : Ext4Lib W}.
Implicit Types s : Vfs (W := W).

(** The names lead along the children from one dentry to another. *)
Inductive along s : nat -> list string -> nat -> Prop :=
| along_nil o : along s o [] o
| along_cons o d n c ns o' : v_dentries s !! o = Some d -> d_children d !! n = Some c -> along s c ns o' -> along s o (n :: ns) o'.

Lemma run_bind_ok {S A B} (m : call S A) (f : A -> call S B) (s : S) a (s' : S) : m s = Ret (Ok a, s') -> cbind m f s = f a s'.
Proof. intros E. unfold cbind. by rewrite E. Qed.

Lemma run_dentry o d s : v_dentries s !! o = Some d -> dentry o s = Ret (Ok d, s).
Proof. intros E. unfold dentry. by rewrite E. Qed.

Lemma run_get_child o n d s : v_dentries s !! o = Some d -> get_child o n s = Ret (Ok (d_children d !! n), s).
Proof. intros E. unfold get_child. by rewrite (run_bind_ok _ _ _ _ _ (run_dentry o d s E)). Qed.

(** A walk along children changes nothing. *)
Lemma walk_along s o pre o' names : along s o pre o' -> walk_names o (pre ++ names) s = walk_names o' names s.
Proof.
  induction 1 as [|o d n c ns o' E Ec _ IH]; [done|]. cbn. by rewrite (run_bind_ok _ _ _ _ _ (run_get_child o n d s E)), Ec.
Qed.

(** A state with more dentries, and the same holders. *)
Definition wider s s' : Prop :=
  v_dcache s' = v_dcache s /\ v_pins s' = v_pins s /\
  forall o d, v_dentries s !! o = Some d -> exists d', v_dentries s' !! o = Some d' /\ same d d' /\ d_children d' = d_children d.

Lemma alive_wider s s' f : wider s s' -> forall o, alive f s o = true -> alive f s' o = true.
Proof.
  intros (Hc & Hp & Hd). induction f as [|f IH]; intros o; cbn; rewrite Hc, Hp; destruct (_ || _); try done.
  intros ([x d] & Hx & Hb)%existsb_exists. apply existsb_exists. cbn in *. destruct (holds (d_children d) o) eqn:Hh; [|done].
  destruct (Hd x d) as (d' & Ed' & _ & Hch); [by apply elem_of_map_to_list, list_elem_of_In|].
  exists (x, d'). split; [by apply list_elem_of_In, elem_of_map_to_list|]. cbn. rewrite Hch, Hh. by apply IH.
Qed.

Lemma path_step f o s : path_from (S f) o s =
  match v_dentries s !! o with
  | None => Panic
  | Some d =>
      match d_parent d with
      | None => Ret (Ok "/"%string, s)
      | Some p =>
          if alive p s p then
            let! r := path_from f p s in
            Ret (match r.1 with Ok q => Ok (child_path q (d_name d)) | Err e => Err e end, r.2)
          else Panic
      end
  end.
Proof.
  cbn [path_from]. unfold parent, cbind, cget, dentry, cret, cpanic. cbn [obind fst snd].
  destruct (v_dentries s !! o) as [d|] eqn:E; [|done]. cbn [unwrap obind fst snd]. rewrite E. cbn [unwrap obind fst snd].
  destruct (d_parent d) as [p|]; [|done]. destruct (alive p s p); [|done]. cbn [obind fst snd].
  destruct (path_from f p s) as [[[q|e] s1]|]; [|done|done]. cbn [obind fst snd]. unfold child_path.
  by destruct (decide (q = "/"%string)) as [->|]; case_bool_decide.
Qed.

Lemma path_wider s s' f : wider s s' -> forall o q, path_from f o s = Ret (Ok q, s) -> path_from f o s' = Ret (Ok q, s').
Proof.
  intros Hw. pose proof Hw as (_ & _ & Hd). induction f as [|f IH]; intros o q; [done|]. rewrite !path_step.
  destruct (v_dentries s !! o) as [d|] eqn:E; [|done]. destruct (Hd o d E) as (d' & -> & (K & N & P) & _). rewrite P, N.
  destruct (d_parent d) as [p|]; [|by intros [= <-]]. destruct (alive p s p) eqn:Ha; [|done]. rewrite (alive_wider s s' p Hw p Ha).
  destruct (path_from f p s) as [[[q'|e] s1]|] eqn:Eq; [|done|done]. cbn [obind fst snd]. intros [= <- ->]. by rewrite (IH p q' Eq).
Qed.

Lemma path_fuel s : vfs_wf s -> forall f g o, (o < f)%nat -> (o < g)%nat -> path_from f o s = path_from g o s.
Proof.
  intros H f. induction f as [|f IH]; intros g o Hf Hg; [lia|]. destruct g as [|g]; [lia|]. rewrite !path_step.
  destruct (v_dentries s !! o) as [d|] eqn:E; [|done]. destruct (d_parent d) as [p|] eqn:Ep; [|done].
  destruct (wf_parent s H o d p E Ep) as [Hl _]. by rewrite (IH g p) by lia.
Qed.

(** A name that is not in a directory in memory. *)
Lemma walk_miss s o d n names q : vfs_wf s -> v_dentries s !! o = Some d -> (d_kind d = TmpDentry \/ d_kind d = SpDentry) ->
  d_children d !! n = None -> alive o s o = true -> path o s = Ret (Ok q, s) ->
  exists s', walk_names o (n :: names) s = Ret (Ok (v_next s), s') /\
    v_dentries s' = <[v_next s := mkDentry (d_kind d) n None (Some o) ∅ NEGATIVE]> (v_dentries s) /\
    v_dcache s' = <[child_path q n := v_next s]> (v_dcache s).
Proof.
  intros H E K Hn Ha Hq. cbn [walk_names]. rewrite (run_bind_ok _ _ _ _ _ (run_get_child o n d s E)), Hn.
  assert (El : exists l, load_child_dentry o s = Ret (Ok l, s)).
  { unfold load_child_dentry, children_list. rewrite (run_bind_ok _ _ _ _ _ (run_dentry o d s E)).
    destruct K as [-> | ->]; rewrite (run_bind_ok cget _ s s s) by done; rewrite (run_bind_ok _ _ _ _ _ (run_dentry o d s E)); by eexists. }
  destruct El as [l El]. rewrite (run_bind_ok _ _ _ _ _ El), (run_bind_ok _ _ _ _ _ (run_get_child o n d s E)), Hn.
  set (dn := mkDentry (d_kind d) n None (Some o) ∅ NEGATIVE).
  set (s1 := mkVfs (<[v_next s := dn]> (v_dentries s)) (S (v_next s)) (v_inodes s) (v_next_ino s) (v_dcache s) (v_pins s) (v_disk s) (v_exe s)).
  assert (En : new_neg_dentry o n s = Ret (Ok (v_next s), s1)).
  { unfold new_neg_dentry. rewrite (run_bind_ok _ _ _ _ _ (run_dentry o d s E)). unfold s1, dn.
    destruct K as [-> | ->]; cbn; unfold cbind, alloc_dentry, set_state, upd_dentry, cbind, cget, dentry, cput, cret; cbn;
      rewrite lookup_insert_eq; cbn; unfold with_dentries; cbn; by rewrite insert_insert_eq. }
  rewrite (run_bind_ok _ _ _ _ _ En). assert (Hne : forall x dx, v_dentries s !! x = Some dx -> x <> v_next s).
  { intros x dx Ex ->. pose proof (wf_next s H _ _ Ex). lia. }
  assert (Hw : wider s s1).
  { split; [done|]. split; [done|]. intros x dx Ex. exists dx. split; [|done]. cbn. by rewrite lookup_insert_ne by (intros ?; by eapply Hne). }
  assert (Ep : path (v_next s) s1 = Ret (Ok (child_path q n), s1)).
  { unfold path. rewrite path_step. unfold s1 at 1. cbn [v_dentries]. rewrite lookup_insert_eq. cbn [d_parent dn d_name].
    rewrite (alive_wider s s1 o Hw o Ha). pose proof (wf_next s H o d E) as Hlt.
    rewrite (path_wider s s1 (v_next s) Hw o q); [done|]. rewrite <- Hq. apply path_fuel; [done|lia|lia]. }
  rewrite (run_bind_ok _ _ _ _ _ Ep). eexists. split; [done|]. done.
Qed.

End Lookup.

(** ** The properties *)



(** Changing to a directory by a relative name asks the cache for the path of the
    working directory and the name run together: if a dentry with that path is there,
    the call takes it, and it is not the one of that name in the directory. *)
Theorem find_wrong_key {W : Type} {LIB : Ext4Lib W} (s : Vfs (W := W)) o n q o2 d2 (H : vfs_wf s) (Hn : is_name n = true) (Hd : n <> "."%string) (Hdd : n <> ".."%string)
    (Hq : path o s = Ret (Ok q, s)) (Hkey : v_dcache s !! (q +:+ n)%string = Some o2) (Hmp : (q +:+ n)%string <> "sdcard/"%string)
    (Ed : v_dentries s !! o2 = Some d2) (Hst : d_state d2 <> NEGATIVE) :
  dentry_find o n s = Ret (Ok (Some o2), s) /\ full_path s o2 = (q +:+ n)%string /\ (q <> "/"%string -> full_path s o2 <> child_path q n).
Proof.
  assert (Hp : full_path s o2 = (q +:+ n)%string) by (destruct (wf_dcache s H _ _ Hkey) as [_ [?|?]]; done).
  split; [|split; [done|]].
  - unfold dentry_find. assert (Et : trim_start n = n).
    { destruct n as [|a n]; [done|]. unfold is_name in Hn. cbn in Hn. apply andb_true_iff in Hn as [[Ha _]%andb_true_iff _]. apply negb_true_iff in Ha. cbn. by rewrite Ha. }
    rewrite Et. rewrite (bool_decide_false (n = ""%string)) by (intros ->; done).
    rewrite (split_no_slash n) by by apply andb_true_iff in Hn as [? _]. cbn [find_names].
    rewrite (bool_decide_false (n = ""%string)), (bool_decide_false (n = "."%string)), (bool_decide_false (n = ".."%string)) by (done || by intros ->). cbn [orb].
    rewrite (run_bind_ok _ _ s (o, [n]) s) by done. cbn [fst snd join_slash]. rewrite (run_bind_ok _ _ _ _ _ Hq).
    rewrite (run_bind_ok _ _ s (Some o2) s) by (unfold dcache_get, cbind, cget, cret; cbn; by rewrite Hkey).
    unfold is_negative. rewrite (run_bind_ok _ _ s (bool_decide (d_state d2 = NEGATIVE)) s) by by rewrite (run_bind_ok _ _ _ _ _ (run_dentry o2 d2 s Ed)).
    by rewrite bool_decide_false.
  - intros Hr. rewrite Hp. unfold child_path. rewrite bool_decide_false by done. intros E.
    assert (E' : n = ("/" +:+ n)%string) by by apply (inj (String.app q)).
    change ("/" +:+ n)%string with (String "/"%char n) in E'. apply (f_equal String.length) in E'. cbn in E'. lia.
Qed.

(** Renaming a file of ext4 over one that exists panics, whatever the two are: the
    mode of the old inode is cut to its type, that of the new one is not, so they are
    never equal, and no case of the comparison is left. *)
Theorem rename_over_panics {W : Type} {LIB : Ext4Lib W} (s : Vfs (W := W)) i ni path path' ty ty' target
    (Hi : v_inodes s !! i = Some (mkInode (IExt4 path ty) (from_inode_type ty))) (Hni : v_inodes s !! ni = Some (mkInode (IExt4 path' ty') (from_inode_type ty'))) :
  inode_rename i target (Some ni) s = Panic.
Proof.
  unfold inode_rename, cbind, inode. rewrite Hi. cbn [unwrap obind fst snd i_kind]. rewrite Hni. cbn [unwrap obind fst snd i_mode].
  by destruct ty, ty'.
Qed.

(** *** Positions *)

(** What the trait promises of positions. *)
Class FileLaws (F : Type) {FO : FileOps F} := {
  fl_seek_start at_ (fs : F) f off : fo_seek at_ fs f (SeekStart off) = Ret (Ok off, fo_set_pos fs f off);
  fl_pos_set (fs : F) f pos : fo_pos (fo_set_pos fs f pos) f = pos;
}.

(** C23: [pread] and [pwrite] leave the position where it was when they succeed; when the
    buffer of the user is not accessible they return EINVAL with the position moved to
    the offset of the call. *)
Theorem pread_position {W : Type} {LIB : Ext4Lib W} {M : Type} {UM : UserMemory M} {UB : UserBytes M} {F : Type} {FO : FileOps F} {FL : FileLaws F}
    (k : Kern (W := W) (M := M) (F := F)) fd f buf count offset (Hf : get_file (k_fds k) (fdn fd) = Ok f) :
  (forall n k', sys_pread fd buf count offset k = Ret (Ok n, k') -> fo_pos (k_files k') f = fo_pos (k_files k) f) /\
  (forall n k', sys_pwrite fd buf count offset k = Ret (Ok n, k') -> fo_pos (k_files k') f = fo_pos (k_files k) f) /\
  (forall m, um_ensure (k_mem k) (k_vm k) buf count ACCESS_WRITE = Ret (false, m) ->
     exists k', sys_pread fd buf count offset k = Ret (Err EINVAL, k') /\ fo_pos (k_files k') f = offset) /\
  (forall m, um_ensure (k_mem k) (k_vm k) buf count ACCESS_READ = Ret (false, m) ->
     exists k', sys_pwrite fd buf count offset k = Ret (Err EINVAL, k') /\ fo_pos (k_files k') f = offset).
Proof.
  assert (Ef : file_of (fdn fd) k = Ret (Ok f, k)) by (unfold file_of, cbind, cget; cbn; by rewrite Hf).
  set (k1 := with_files k (fo_set_pos (k_files k) f offset)).
  assert (Es : on_files (fun at_ fs => fo_seek at_ fs f (SeekStart offset)) k = Ret (Ok offset, k1)) by (unfold on_files; by rewrite fl_seek_start).
  assert (Hend : forall A (m : call Kern A) n (k' : Kern), (let? n := m in let? _ := set_file_pos f (fo_pos (k_files k) f) in cret n) k1 = Ret (Ok n, k') -> fo_pos (k_files k') f = fo_pos (k_files k) f).
  { intros A m n k'. unfold cbind. destruct (m k1) as [[[a|e] k2]|]; [|done|done]. cbn. intros [= _ <-]. cbn. apply fl_pos_set. }
  assert (Hck : forall a m, um_ensure (k_mem k) (k_vm k) buf count a = Ret (false, m) -> check_user buf count a EINVAL k1 = Ret (Err EINVAL, with_mem k1 m)).
  { intros a m Em. unfold check_user, cbind, cget, on_mem. cbn. by rewrite Em. }
  assert (Er : sys_pread fd buf count offset k = (let? _ := check_user buf count ACCESS_WRITE EINVAL in let? n := read_into f buf count in
    let? _ := set_file_pos f (fo_pos (k_files k) f) in cret n) k1).
  { unfold sys_pread. rewrite (run_bind_ok _ _ _ _ _ Ef), (run_bind_ok (file_pos f) _ k (fo_pos (k_files k) f) k) by done. by rewrite (run_bind_ok _ _ _ _ _ Es). }
  assert (Ew : sys_pwrite fd buf count offset k = (let? _ := check_user buf count ACCESS_READ EINVAL in let? bytes := user_read buf count in
    let? n := on_files (fun at_ fs => fo_write at_ fs f bytes) in let? _ := set_file_pos f (fo_pos (k_files k) f) in cret n) k1).
  { unfold sys_pwrite. rewrite (run_bind_ok _ _ _ _ _ Ef), (run_bind_ok (file_pos f) _ k (fo_pos (k_files k) f) k) by done. by rewrite (run_bind_ok _ _ _ _ _ Es). }
  rewrite Er, Ew. split; [|split; [|split]].
  - intros n k' E. apply (Hend _ (let? _ := check_user buf count ACCESS_WRITE EINVAL in read_into f buf count) n).
    rewrite <- E. unfold cbind. destruct (check_user buf count ACCESS_WRITE EINVAL k1) as [[[u|e] k2]|]; reflexivity.
  - intros n k' E. apply (Hend _ (let? _ := check_user buf count ACCESS_READ EINVAL in let? bytes := user_read buf count in on_files (fun at_ fs => fo_write at_ fs f bytes)) n).
    rewrite <- E. unfold cbind. destruct (check_user buf count ACCESS_READ EINVAL k1) as [[[u|e] k2]|]; [|reflexivity..]. cbn [obind fst snd].
    destruct (user_read buf count k2) as [[[bytes|e] k3]|]; reflexivity.
  - intros m Em. exists (with_mem k1 m). unfold cbind at 1. rewrite (Hck _ _ Em). split; [done|apply fl_pos_set].
  - intros m Em. exists (with_mem k1 m). unfold cbind at 1. rewrite (Hck _ _ Em). split; [done|apply fl_pos_set].
Qed.

(** ** Examples *)

(** A disk that knows which paths exist. *)
Definition demo_entries (w : gmap string InodeTypes) (p : string) : list string :=
  omap (fun e => if bool_decide (abs_path_to_parent e.1 = Some p) then abs_path_to_name e.1 else None) (map_to_list w).

Definition demo_move (w : gmap string InodeTypes) (a b : string) : result unit Z * gmap string InodeTypes :=
  match w !! a with Some t => (Ok tt, <[b := t]> (delete a w)) | None => (Err 2, w) end.

#[local] Instance demo_disk : Ext4Lib (gmap string InodeTypes) := {
  lib_exists w p t := match w !! p, t with Some DE_REG_FILE, DE_REG_FILE => true | Some DE_DIR, DE_DIR => true | _, _ => false end;
  lib_entries w p := match w !! p with Some DE_DIR => Ok (demo_entries w p) | _ => Err 20 end;
  lib_dir_mk w p := (Ok tt, <[p := DE_DIR]> w);
  lib_create w p := (Ok tt, <[p := DE_REG_FILE]> w);
  lib_file_remove w p := (Ok tt, delete p w);
  lib_dir_rm w p := (Ok tt, delete p w);
  lib_file_rename := demo_move;
  lib_dir_mv := demo_move;
  lib_symlink w _ p := (Ok tt, <[p := DE_SYMLINK]> w);
  lib_link w _ p := (Ok tt, <[p := DE_REG_FILE]> w);
  lib_readlink _ _ := Err 22;
}.

(** A memory with a text at some addresses, whose other addresses are not mapped. *)
Definition demo_mem := gmap Z string.

#[local] Instance demo_user : UserMemory demo_mem := {
  um_ensure m _ a _ _ := Ret (bool_decide (is_Some (m !! a)), m);
  um_load m _ _ _ := Ret (0, m);
  um_store m _ _ _ _ := Ret m;
  um_translate m _ _ _ := Ret (None, m);
}.

#[local] Instance demo_bytes : UserBytes demo_mem := {
  ub_cstr m _ a := Ret (m !! a, m);
  ub_read m _ a n := Ret (ztake n (string_bytes (default ""%string (m !! a))), m);
  ub_write m _ _ _ := Ret m;
}.

(** Files of tmpfs: their dentries, positions and flags, and the contents by inode. *)
Record TmpFiles := mkTmpFiles { tf_dentry : list nat; tf_pos : gmap nat Z; tf_flags : gmap nat Z; tf_data : gmap nat TmpInode }.

Definition tf_file (fs : TmpFiles) (f : nat) : FileInner := mkFile (default 0 (tf_pos fs !! f)) (default 0 (tf_flags fs !! f)).
Definition tf_inode (fs : TmpFiles) (at_ : nat -> option nat) (f : nat) : option nat := tf_dentry fs !! f ≫= at_.
Definition tf_content (fs : TmpFiles) (i : nat) : TmpInode := default tmp_new (tf_data fs !! i).
Definition tf_moved (fs : TmpFiles) (f : nat) (pos : Z) : TmpFiles := mkTmpFiles (tf_dentry fs) (<[f := pos]> (tf_pos fs)) (tf_flags fs) (tf_data fs).
Definition tf_put (fs : TmpFiles) (f : nat) (fi : FileInner) (i : nat) (d : TmpInode) : TmpFiles :=
  mkTmpFiles (tf_dentry fs) (<[f := f_pos fi]> (tf_pos fs)) (tf_flags fs) (<[i := d]> (tf_data fs)).

#[local] Instance tmp_files : FileOps TmpFiles := {
  fo_open fs d _ := (length (tf_dentry fs), mkTmpFiles (tf_dentry fs ++ [d]) (tf_pos fs) (tf_flags fs) (tf_data fs));
  fo_dentry fs f := tf_dentry fs !! f;
  fo_read at_ fs f len :=
    let! i := unwrap (tf_inode fs at_ f) in
    let! r := tmp_file_read (C := riscv64) (tf_file fs f) (tf_content fs i) len in
    match r with Some (n, out, fi, d) => Ret (Ok (n, out), tf_put fs f fi i d) | None => Panic end;
  fo_write at_ fs f buf :=
    let! i := unwrap (tf_inode fs at_ f) in
    let! r := tmp_file_write (C := riscv64) (tf_file fs f) (tf_content fs i) buf in
    match r with Some (n, fi, d) => Ret (Ok n, tf_put fs f fi i d) | None => Panic end;
  fo_read_at _ _ _ _ _ := Panic;
  fo_seek at_ fs f from :=
    match from with
    | SeekStart off => Ret (Ok off, tf_moved fs f off)
    | _ =>
        let! i := unwrap (tf_inode fs at_ f) in
        let r := seek (tf_file fs f) (ti_size (tf_content fs i)) from in
        Ret (r.1, tf_moved fs f (f_pos r.2))
    end;
  fo_truncate at_ fs f n :=
    let! i := unwrap (tf_inode fs at_ f) in
    let! r := tmp_truncate (C := riscv64) (tf_content fs i) n in
    Ret (Ok r.1, mkTmpFiles (tf_dentry fs) (tf_pos fs) (tf_flags fs) (<[i := r.2]> (tf_data fs)));
  fo_pos fs f := default 0 (tf_pos fs !! f);
  fo_set_pos := tf_moved;
  fo_flags fs f := default 0 (tf_flags fs !! f);
  fo_set_flags fs f fl := mkTmpFiles (tf_dentry fs) (tf_pos fs) (<[f := fl]> (tf_flags fs)) (tf_data fs);
  fo_ioctl fs _ _ _ := Ret (Err ENOTTY, fs);
  fo_getattr fs i := Ret ([ti_size (tf_content fs i)], fs);
  fo_getxattr fs i _ := Ret ([ti_size (tf_content fs i)], fs);
  fo_set_times fs _ _ _ _ := fs;
  fo_pipe fs := (0%nat, 0%nat, fs);
}.

#[local] Instance tmp_files_laws : FileLaws TmpFiles.
Proof. split; [done|]. intros fs f pos. cbn. by rewrite lookup_insert_eq. Defined.

(** The task after booting: a disk with a directory and two files, no descriptors. *)
Definition demo_world : gmap string InodeTypes := {["/"%string := DE_DIR; "/dir"%string := DE_DIR; "/a"%string := DE_REG_FILE; "/b"%string := DE_REG_FILE]}.

Definition demo_texts : demo_mem := {[ 1 := "/tmp/d"%string; 2 := "/tmp/d/f"%string; 3 := "/tmp/a"%string; 4 := "hello"%string; 5 := "/dev/null"%string;
  6 := "/a"%string; 7 := "/c"%string; 8 := "/a/x"%string; 9 := "/dir"%string; 10 := "/b"%string; 11 := "/tmp"%string; 12 := "/tmpx"%string ]}.

Definition demo_kern : Kern := mkKern (booted demo_world) (mkFT [] (mkRLimit 16 16)) (mkTmpFiles [] ∅ ∅ ∅) 0 (v_pins (booted demo_world)) demo_texts 0.

(** What a call returns, when it returns. *)
Definition returned {A} (m : call Kern A) (k : Kern (W := gmap string InodeTypes) (M := demo_mem) (F := TmpFiles)) : option (result A SysError) :=
  match m k with Ret (r, _) => Some r | Panic => None end.

(** The result of a call as a value, to go on after a failure. *)
Definition try_call {A} (m : call (Kern (W := gmap string InodeTypes) (M := demo_mem) (F := TmpFiles)) A) : call Kern (result A SysError) :=
  fun k => let! r := m k in Ret (Ok r.1, r.2).

(** Opening a file of tmpfs with O_CREAT when it exists gives its name a new empty
    inode: what was written before is gone, for the descriptor it was written through as
    well. *)
Theorem creat_loses_data :
  returned (let? fd := sys_openat AT_FDCWD 3 (Z.lor O_CREAT O_RDWR) in
            let? n := sys_write (Z.of_nat fd) 4 5 in
            let? _ := sys_lseek (Z.of_nat fd) 0 0 in
            let? a := sys_read (Z.of_nat fd) 4 5 in
            let? fd2 := sys_openat AT_FDCWD 3 (Z.lor O_CREAT O_RDWR) in
            let? b := sys_read (Z.of_nat fd2) 4 5 in
            let? _ := sys_lseek (Z.of_nat fd) 0 0 in
            let? c := sys_read (Z.of_nat fd) 4 5 in
            cret (n, a, b, c)) demo_kern = Some (Ok (5, 5, 0, 0)).
Proof. vm_compute. reflexivity. Qed.

(** A directory made in tmpfs is forgotten when something below it is looked up: the
    file cannot be created, and the directory can be made again. *)
Theorem mkdir_lost :
  returned (let? a := try_call (sys_mkdirat AT_FDCWD 1) in
            let? b := try_call (sys_mkdirat AT_FDCWD 1) in
            let? c := try_call (sys_openat AT_FDCWD 2 O_CREAT) in
            let? d := try_call (sys_mkdirat AT_FDCWD 1) in
            cret (a, b, c, d)) demo_kern = Some (Ok (Ok tt, Err EEXIST, Err ENOENT, Ok tt)).
Proof. vm_compute. reflexivity. Qed.

(** Removing a device panics, and so does looking below a file of ext4, below one that
    was renamed, and renaming over one; a directory of ext4 cannot be removed as one, and
    is removed as a file. *)
Theorem name_calls_panic :
  returned (sys_unlinkat AT_FDCWD 5 0) demo_kern = None /\
  returned (sys_faccessat AT_FDCWD 8 0) demo_kern = None /\
  returned (let? _ := sys_renameat2 AT_FDCWD 6 AT_FDCWD 7 0 in sys_faccessat AT_FDCWD 8 0) demo_kern = None /\
  returned (sys_renameat2 AT_FDCWD 6 AT_FDCWD 10 0) demo_kern = None /\
  returned (sys_unlinkat AT_FDCWD 9 AT_REMOVEDIR) demo_kern = Some (Err ENOTDIR) /\
  returned (sys_unlinkat AT_FDCWD 9 0) demo_kern = Some (Ok tt).
Proof. vm_compute. auto 10. Qed.

(** The state after some calls. *)
Definition after (ops : list FsOp) : Kern := match run_fs ops demo_kern with Ret (_, k) => k | Panic => demo_kern end.

Definition runs (ops : list FsOp) : bool := match run_fs ops demo_kern with Ret (Ok tt, _) => true | _ => false end.

Lemma runs_after ops : runs ops = true -> run_fs ops demo_kern = Ret (Ok tt, after ops).
Proof. unfold runs, after. by destruct (run_fs ops demo_kern) as [[[[]|e] k]|]. Qed.

Definition demo_ops : list FsOp :=
  [FMkdir AT_FDCWD 1; FOpen AT_FDCWD 3 O_CREAT; FChdir 11; FUnlink AT_FDCWD 3 0; FStat AT_FDCWD 2 1 0; FMkdir AT_FDCWD 12].



Definition wrong_state : Vfs := k_vfs (after [FMkdir AT_FDCWD 12]).

Lemma find_wrong_key_witness : dentry_find 15 "x" wrong_state = Ret (Ok (Some 19%nat), wrong_state) /\ full_path wrong_state 19 = "/tmpx"%string /\
  full_path wrong_state 19 <> "/tmp/x"%string.
Proof.
  destruct (find_wrong_key wrong_state 15 "x" "/tmp" 19 (mkDentry Ext4Dentry "tmpx" (Some 19%nat) (Some 0%nat) ∅ USED)) as (E & Ep & Hne).
  - apply shape_ok_wf. vm_compute. reflexivity.
  - vm_compute. reflexivity.
  - intros Hx. discriminate Hx.
  - intros Hx. discriminate Hx.
  - vm_compute. reflexivity.
  - vm_compute. reflexivity.
  - intros Hx. vm_compute in Hx. discriminate Hx.
  - vm_compute. reflexivity.
  - intros Hx. discriminate Hx.
  - split; [exact E|]. split; [exact Ep|]. apply Hne. intros Hx. discriminate Hx.
Defined.

Definition two_files : Vfs :=
  mkVfs ∅ 0 {[ 0%nat := mkInode (IExt4 "/a" DE_REG_FILE) (from_inode_type DE_REG_FILE); 1%nat := mkInode (IExt4 "/b" DE_REG_FILE) (from_inode_type DE_REG_FILE) ]} 2 ∅ [] demo_world None.

Lemma rename_over_panics_witness : inode_rename 0 "/b" (Some 1%nat) two_files = Panic.
Proof. apply (rename_over_panics two_files 0 1 "/a" "/b" DE_REG_FILE DE_REG_FILE "/b"); vm_compute; reflexivity. Defined.

Lemma pread_position_witness : exists k', sys_pread 0 99 5 7 (after [FOpen AT_FDCWD 3 O_CREAT]) = Ret (Err EINVAL, k') /\ fo_pos (k_files k') 0%nat = 7.
Proof.
  refine (proj1 (proj2 (proj2 (pread_position (after [FOpen AT_FDCWD 3 O_CREAT]) 0 0%nat 99 5 7 _))) (k_mem (after [FOpen AT_FDCWD 3 O_CREAT])) _); vm_compute; reflexivity.
Defined.
