(* ===== verification/PipeFs.v ===== *)
(** The pipes that [pipe2] makes (os/src/fs/pipefs.rs): a ring buffer behind a lock, the
    two futures that wait for it, and what readers and writers do in two locked steps,
    interleaved in any order. *)

From S2P Require Import Prelude Errno RingBuffer.

Definition POLL_IN : Z := 1.
Definition POLL_OUT : Z := 4.
Definition POLL_ERR : Z := 8.
Definition POLL_HUP : Z := 16.

(** Wakers are the numbers of the tasks they wake. *)
Record PipeMeta := mkMeta {
  m_write_closed : bool;
  m_read_closed : bool;
  m_ring : RingBuffer;
  m_read_waker : list nat;
  m_write_waker : list nat;
}.

Definition PipeInode_new (len : nat) : PipeMeta := mkMeta false false (rb_new len) [] [].

(** A future is ready with its events, or has parked its waker. *)
Definition write_future_poll (m : PipeMeta) (task : nat) (events : Z) : option Z * PipeMeta :=
  if m_read_closed m then (Some POLL_ERR, m)
  else if contains events POLL_OUT && negb (rb_is_full (m_ring m)) then (Some POLL_OUT, m)
  else (None, mkMeta (m_write_closed m) (m_read_closed m) (m_ring m) (m_read_waker m) (m_write_waker m ++ [task])).

Definition read_future_poll (m : PipeMeta) (task : nat) (events : Z) : option Z * PipeMeta :=
  if contains events POLL_IN && negb (rb_is_empty (m_ring m)) then (Some POLL_IN, m)
  else if m_write_closed m then (Some POLL_HUP, m)
  else (None, mkMeta (m_write_closed m) (m_read_closed m) (m_ring m) (m_read_waker m ++ [task]) (m_write_waker m)).

(** The second half of [read]: the bytes, and the writer that is woken. *)
Definition read_take (m : PipeMeta) (buf : list Z) : outcome (nat * list Z * list nat * PipeMeta) :=
  let! r := rb_read (m_ring m) buf in
  let '(len, buf, rb) := r in
  match m_write_waker m with
  | w :: ws => Ret (len, buf, [w], mkMeta (m_write_closed m) (m_read_closed m) rb (m_read_waker m) ws)
  | [] => Ret (len, buf, [], mkMeta (m_write_closed m) (m_read_closed m) rb (m_read_waker m) [])
  end.

Definition write_put (m : PipeMeta) (buf : list Z) : outcome (nat * list nat * PipeMeta) :=
  let! r := rb_write (m_ring m) buf in
  let '(len, rb) := r in
  match m_read_waker m with
  | w :: ws => Ret (len, [w], mkMeta (m_write_closed m) (m_read_closed m) rb ws (m_write_waker m))
  | [] => Ret (len, [], mkMeta (m_write_closed m) (m_read_closed m) rb [] (m_write_waker m))
  end.

(** [base_poll] leaves the waker of the caller behind when it is not ready. *)
Definition base_poll (m : PipeMeta) (reader : bool) (task : nat) (events : Z) : Z * PipeMeta :=
  if reader then
    let res := if m_write_closed m then POLL_HUP else 0%Z in
    if contains events POLL_IN && negb (rb_is_empty (m_ring m)) then (Z.lor res POLL_IN, m)
    else (res, mkMeta (m_write_closed m) (m_read_closed m) (m_ring m) (m_read_waker m ++ [task]) (m_write_waker m))
  else
    let res := if m_read_closed m then POLL_ERR else 0%Z in
    if contains events POLL_OUT && negb (rb_is_full (m_ring m)) then (Z.lor res POLL_OUT, m)
    else (res, mkMeta (m_write_closed m) (m_read_closed m) (m_ring m) (m_read_waker m) (m_write_waker m ++ [task])).

(** The last owner of an end is gone: everyone who waits for it is woken. *)
Definition end_drop (m : PipeMeta) (reader : bool) : list nat * PipeMeta :=
  if reader then (m_write_waker m, mkMeta (m_write_closed m) true (m_ring m) (m_read_waker m) [])
  else (m_read_waker m, mkMeta true (m_read_closed m) (m_ring m) [] (m_write_waker m)).

(** ** Tasks that share a pipe *)

(** Where a task is in a call: not in one, waiting for its future, or past it. *)
Inductive pipe_pc := PIdle | PReadWait (len : nat) | PReadGo (len : nat) | PWriteWait (buf : list Z) | PWriteGo (buf : list Z).

Record PipeSys := mkPS {
  ps_meta : PipeMeta;
  ps_pc : gmap nat pipe_pc;
  ps_woken : gset nat;
  ps_sent : list Z;
  ps_got : list Z;
  ps_ret : gmap nat (result nat SysError);
}.

Definition pc_of (s : PipeSys) (t : nat) : pipe_pc := default PIdle (ps_pc s !! t).

Definition set_pipe_pc (s : PipeSys) (m : PipeMeta) (t : nat) (pc : pipe_pc) : PipeSys :=
  mkPS m (<[t := pc]> (ps_pc s)) (ps_woken s ∖ {[t]}) (ps_sent s) (ps_got s) (ps_ret s).

Definition returns (s : PipeSys) (m : PipeMeta) (t : nat) (r : result nat SysError) : PipeSys :=
  mkPS m (<[t := PIdle]> (ps_pc s)) (ps_woken s ∖ {[t]}) (ps_sent s) (ps_got s) (<[t := r]> (ps_ret s)).

(** [read] from the poll of its future on, first or after a wake. *)
Definition do_read (s : PipeSys) (t len : nat) : PipeSys :=
  match read_future_poll (ps_meta s) t POLL_IN with
  | (Some ev, m) => if contains ev POLL_HUP then returns s m t (Ok 0) else set_pipe_pc s m t (PReadGo len)
  | (None, m) => set_pipe_pc s m t (PReadWait len)
  end.

Definition do_write (s : PipeSys) (t : nat) (buf : list Z) : PipeSys :=
  match write_future_poll (ps_meta s) t POLL_OUT with
  | (Some ev, m) => if contains ev POLL_ERR then returns s m t (Err EPIPE) else set_pipe_pc s m t (PWriteGo buf)
  | (None, m) => set_pipe_pc s m t (PWriteWait buf)
  end.

Inductive pipe_act :=
| ARead (t len : nat)
| AWrite (t : nat) (buf : list Z)
| AResume (t : nat)
| AFinish (t : nat)
| APoll (t : nat) (reader : bool) (events : Z)
| ADrop (reader : bool).

(** One step of the pipe; [None] when the task is not where the step starts. *)
Definition pipe_do (s : PipeSys) (a : pipe_act) : outcome (option PipeSys) :=
  match a with
  | ARead t len => Ret (match pc_of s t with PIdle => Some (do_read s t len) | _ => None end)
  | AWrite t buf => Ret (match pc_of s t with PIdle => Some (do_write s t buf) | _ => None end)
  | AResume t =>
      Ret (if bool_decide (t ∈ ps_woken s) then
             match pc_of s t with
             | PReadWait len => Some (do_read s t len)
             | PWriteWait buf => Some (do_write s t buf)
             | _ => None
             end
           else None)
  | AFinish t =>
      match pc_of s t with
      | PReadGo len =>
          let! r := read_take (ps_meta s) (replicate len 0%Z) in
          let '(n, buf, ws, m) := r in
          Ret (Some (mkPS m (<[t := PIdle]> (ps_pc s)) (ps_woken s ∪ list_to_set ws) (ps_sent s) (ps_got s ++ take n buf) (<[t := Ok n]> (ps_ret s))))
      | PWriteGo buf =>
          let! r := write_put (ps_meta s) buf in
          let '(n, ws, m) := r in
          Ret (Some (mkPS m (<[t := PIdle]> (ps_pc s)) (ps_woken s ∪ list_to_set ws) (ps_sent s ++ take n buf) (ps_got s) (<[t := Ok n]> (ps_ret s))))
      | _ => Ret None
      end
  | APoll t reader events =>
      Ret (match pc_of s t with
           | PIdle =>
               let r := base_poll (ps_meta s) reader t events in
               Some (mkPS r.2 (ps_pc s) (ps_woken s) (ps_sent s) (ps_got s) (ps_ret s))
           | _ => None
           end)
  | ADrop reader =>
      let r := end_drop (ps_meta s) reader in
      Ret (Some (mkPS r.2 (ps_pc s) (ps_woken s ∪ list_to_set r.1) (ps_sent s) (ps_got s) (ps_ret s)))
  end.

(** A step that is not possible is left out. *)
Fixpoint pipe_exec (s : PipeSys) (acts : list pipe_act) : outcome PipeSys :=
  match acts with
  | [] => Ret s
  | a :: acts => let! r := pipe_do s a in pipe_exec (default s r) acts
  end.

Definition make_pipe_sys (capacity : nat) : PipeSys := mkPS (PipeInode_new capacity) ∅ ∅ [] [] ∅.

(** ** Invariants *)

(** The bytes that were sent are those received and those queued; a task that waits has
    its waker queued or is woken; and nobody waits unwoken for an end that is gone. *)
Record pipe_ok (cap : nat) (s : PipeSys) : Prop := {
  po_ring : rb_wf (m_ring (ps_meta s));
  po_len : rb_len (m_ring (ps_meta s)) = cap;
  po_bytes : ps_sent s = ps_got s ++ rb_data (m_ring (ps_meta s));
  po_read t len : pc_of s t = PReadWait len -> t ∈ ps_woken s \/ t ∈ m_read_waker (ps_meta s) /\ m_write_closed (ps_meta s) = false;
  po_write t buf : pc_of s t = PWriteWait buf -> t ∈ ps_woken s \/ t ∈ m_write_waker (ps_meta s) /\ m_read_closed (ps_meta s) = false;
}.

Lemma pc_of_insert s m p w a b r t t' : pc_of (mkPS m (<[t := p]> (ps_pc s)) w a b r) t' = if decide (t = t') then p else pc_of s t'.
Proof. unfold pc_of. cbn. destruct (decide (t = t')) as [->|]; [by rewrite lookup_insert_eq|by rewrite lookup_insert_ne]. Qed.

(** A task moves to another place, with the queues grown by it at most. *)
Lemma ok_move cap s m t p r : pipe_ok cap s -> m_ring m = m_ring (ps_meta s) ->
  m_write_closed m = m_write_closed (ps_meta s) -> m_read_closed m = m_read_closed (ps_meta s) ->
  m_read_waker (ps_meta s) ⊆ m_read_waker m -> m_write_waker (ps_meta s) ⊆ m_write_waker m ->
  (forall len, p = PReadWait len -> t ∈ m_read_waker m /\ m_write_closed m = false) ->
  (forall buf, p = PWriteWait buf -> t ∈ m_write_waker m /\ m_read_closed m = false) ->
  pipe_ok cap (mkPS m (<[t := p]> (ps_pc s)) (ps_woken s ∖ {[t]}) (ps_sent s) (ps_got s) r).
Proof.
  intros [R L B Hr Hw] Er Ewc Erc Ir Iw Pr Pw. split; cbn; rewrite ?Er; try done.
  - intros t' len. rewrite pc_of_insert. destruct (decide (t = t')) as [<-|Hne]; [intros E; right; by eapply Pr|].
    intros [?|[? ?]]%Hr; [left; set_solver|right]. rewrite Ewc. auto.
  - intros t' buf. rewrite pc_of_insert. destruct (decide (t = t')) as [<-|Hne]; [intros E; right; by eapply Pw|].
    intros [?|[? ?]]%Hw; [left; set_solver|right]. rewrite Erc. auto.
Qed.

Lemma do_read_ok cap s t len : pipe_ok cap s -> pipe_ok cap (do_read s t len).
Proof.
  intros H. unfold do_read, read_future_poll. destruct (_ && _).
  - by apply ok_move.
  - destruct (m_write_closed (ps_meta s)) eqn:E; [by apply ok_move|]. apply ok_move; cbn; try done; set_solver.
Qed.

Lemma do_write_ok cap s t buf : pipe_ok cap s -> pipe_ok cap (do_write s t buf).
Proof.
  intros H. unfold do_write, write_future_poll. destruct (m_read_closed (ps_meta s)) eqn:E; [by apply ok_move|].
  destruct (_ && _); [by apply ok_move|]. apply ok_move; cbn; try done; set_solver.
Qed.

(** A task goes on, with bytes taken and others woken. *)
Lemma ok_finish cap s m t ws sent got r : pipe_ok cap s -> rb_wf (m_ring m) -> rb_len (m_ring m) = cap -> sent = got ++ rb_data (m_ring m) ->
  m_write_closed m = m_write_closed (ps_meta s) -> m_read_closed m = m_read_closed (ps_meta s) ->
  (forall x, x ∈ m_read_waker (ps_meta s) -> x ∈ ws \/ x ∈ m_read_waker m) -> (forall x, x ∈ m_write_waker (ps_meta s) -> x ∈ ws \/ x ∈ m_write_waker m) ->
  pipe_ok cap (mkPS m (<[t := PIdle]> (ps_pc s)) (ps_woken s ∪ list_to_set ws) sent got r).
Proof.
  intros [R L B Hr Hw] R' L' B' Ewc Erc Ir Iw. split; cbn; try done.
  - intros t' len. rewrite pc_of_insert. destruct (decide (t = t')) as [<-|Hne]; [done|].
    intros [?|[Hin ?]]%Hr; [left; set_solver|]. rewrite Ewc. destruct (Ir t' Hin); [left; set_solver|by right].
  - intros t' buf. rewrite pc_of_insert. destruct (decide (t = t')) as [<-|Hne]; [done|].
    intros [?|[Hin ?]]%Hw; [left; set_solver|]. rewrite Erc. destruct (Iw t' Hin); [left; set_solver|by right].
Qed.

Lemma finish_ok cap s t : pipe_ok cap s -> exists r, pipe_do s (AFinish t) = Ret r /\ pipe_ok cap (default s r).
Proof.
  intros H. pose proof H as [R L B Hr Hw]. cbn [pipe_do]. destruct (pc_of s t) as [| |len| |buf]; try (by eexists).
  - destruct (rb_read_spec (m_ring (ps_meta s)) (replicate len 0%Z) R) as (rb & E & R' & L' & D'). set (n := Nat.min _ _) in *.
    unfold read_take. rewrite E. cbn [obind].
    assert (Hb : ps_sent s = (ps_got s ++ take n (take n (rb_data (m_ring (ps_meta s))) ++ drop n (replicate len 0%Z))) ++ rb_data rb).
    { rewrite B, D', take_app_le, take_take, <- app_assoc, Nat.min_id, take_drop by (rewrite length_take, rb_data_length; lia). done. }
    destruct (m_write_waker (ps_meta s)) as [|w ws] eqn:Ew; (eexists; split; [done|]); cbn [default];
      (apply ok_finish; cbn [m_ring m_write_closed m_read_closed m_read_waker m_write_waker]; [done|done|congruence|done|done|done|by right|rewrite Ew; set_solver]).
  - destruct (rb_write_spec (m_ring (ps_meta s)) buf R) as (rb & E & R' & L' & D'). set (n := Nat.min _ _) in *.
    unfold write_put. rewrite E. cbn [obind]. assert (Hb : ps_sent s ++ take n buf = ps_got s ++ rb_data rb) by by rewrite B, D', <- app_assoc.
    destruct (m_read_waker (ps_meta s)) as [|w ws] eqn:Ew; (eexists; split; [done|]); cbn [default];
      (apply ok_finish; cbn [m_ring m_write_closed m_read_closed m_read_waker m_write_waker]; [done|done|congruence|done|done|done|rewrite Ew; set_solver|by right]).
Qed.

Lemma pipe_do_ok cap s a : pipe_ok cap s -> exists r, pipe_do s a = Ret r /\ pipe_ok cap (default s r).
Proof.
  intros H. pose proof H as [R L B Hr Hw]. destruct a as [t len|t buf|t|t|t reader ev|reader]; [| | |by apply finish_ok| |]; cbn [pipe_do]; (eexists; split; [done|]).
  - destruct (pc_of s t); try done. by apply do_read_ok.
  - destruct (pc_of s t); try done. by apply do_write_ok.
  - case_bool_decide; [|done]. destruct (pc_of s t); try done; [by apply do_read_ok|by apply do_write_ok].
  - destruct (pc_of s t); try done. cbn [default]. unfold base_poll. destruct reader, (_ && _); cbn; split; cbn; try done.
    + intros t' n [?|[? ?]]%Hr; [by left|right]. split; [set_solver|done].
    + intros t' n [?|[? ?]]%Hw; [by left|right]. split; [set_solver|done].
  - cbn [default]. unfold end_drop. destruct reader; cbn; split; cbn; try done.
    + intros t' n [?|?]%Hr; [left; set_solver|by right].
    + intros t' n [?|[? ?]]%Hw; left; set_solver.
    + intros t' n [?|[? ?]]%Hr; left; set_solver.
    + intros t' n [?|?]%Hw; [left; set_solver|by right].
Qed.

Lemma pipe_exec_ok cap acts : forall s, pipe_ok cap s -> exists s', pipe_exec s acts = Ret s' /\ pipe_ok cap s'.
Proof.
  induction acts as [|a acts IH]; intros s H; [by exists s|]. cbn. destruct (pipe_do_ok cap s a H) as (r & -> & H'). cbn [obind]. by apply IH.
Qed.

Lemma make_pipe_ok cap : 0 < cap -> pipe_ok cap (make_pipe_sys cap).
Proof.
  intros Hc. destruct (rb_new_wf cap Hc) as (R & D & L). split; cbn; done.
Qed.

(** ** The properties *)

(** C21: whatever readers, writers, pollers and closers do to a pipe in whatever order,
    no step panics, the bytes the readers have received followed by those in the ring
    are the bytes the writers have sent, and no more bytes are queued than the ring
    holds. *)
Theorem pipefs_stream_fifo cap acts (Hcap : 0 < cap) :
  exists s, pipe_exec (make_pipe_sys cap) acts = Ret s /\ ps_sent s = ps_got s ++ rb_data (m_ring (ps_meta s)) /\
    length (rb_data (m_ring (ps_meta s))) <= cap.
Proof.
  destruct (pipe_exec_ok cap acts _ (make_pipe_ok cap Hcap)) as (s & E & [R L B _ _]). exists s. split; [done|]. split; [done|].
  rewrite rb_data_length, <- L. by apply rb_count_spec.
Qed.

(** C22: over the same runs, a task that waits in a read or a write is woken or has its
    waker in the queue that the other side takes from, and once the last writer is gone
    every waiting reader is woken, and the other way round: the check and the parking
    are one locked step. *)
Theorem pipefs_no_orphan cap acts s (Hcap : 0 < cap) (Hrun : pipe_exec (make_pipe_sys cap) acts = Ret s) :
  (forall t len, pc_of s t = PReadWait len -> t ∈ ps_woken s \/ t ∈ m_read_waker (ps_meta s)) /\
  (forall t buf, pc_of s t = PWriteWait buf -> t ∈ ps_woken s \/ t ∈ m_write_waker (ps_meta s)) /\
  (m_write_closed (ps_meta s) = true -> forall t len, pc_of s t = PReadWait len -> t ∈ ps_woken s) /\
  (m_read_closed (ps_meta s) = true -> forall t buf, pc_of s t = PWriteWait buf -> t ∈ ps_woken s).
Proof.
  destruct (pipe_exec_ok cap acts _ (make_pipe_ok cap Hcap)) as (s' & E & [_ _ _ Hr Hw]). replace s' with s in * by congruence.
  split_and!.
  - intros t len [?|[? _]]%Hr; auto.
  - intros t buf [?|[? _]]%Hw; auto.
  - intros Hc t len [?|[_ ?]]%Hr; [done|congruence].
  - intros Hc t buf [?|[_ ?]]%Hw; [done|congruence].
Qed.

(** The size that [pipe2] asks for. *)
Definition PIPE_BUF_LEN : nat := 16 * 4096.

(** What a run of the demonstration ends in. *)
Definition ends_in (acts : list pipe_act) (f : PipeSys -> bool) : bool :=
  match pipe_exec (make_pipe_sys PIPE_BUF_LEN) acts with Ret s => f s | Panic => false end.

Lemma ends_in_true acts f : ends_in acts f = true -> exists s, pipe_exec (make_pipe_sys PIPE_BUF_LEN) acts = Ret s /\ f s = true.
Proof. unfold ends_in. destruct (pipe_exec _ _) as [s|]; [by exists s|done]. Qed.

Definition sleeps (s : PipeSys) (t : nat) : bool :=
  match pc_of s t with PReadWait _ => negb (bool_decide (t ∈ ps_woken s)) | _ => false end.

Definition is_idle (s : PipeSys) (t : nat) : bool := match pc_of s t with PIdle => true | _ => false end.

Definition returned_nothing (s : PipeSys) (t : nat) : bool := match ps_ret s !! t with Some (Ok O) => true | _ => false end.

(** A reader can sleep on a pipe that has data, with nobody left to wake it: a task
    that only polled has left its waker in front of the reader's, and a write wakes one
    waker.  And a reader that has seen data can be told that the file has ended, when
    another takes the data between its two steps. *)
Theorem pipefs_lost_reader (b : Z) :
  (exists s, pipe_exec (make_pipe_sys PIPE_BUF_LEN) [APoll 1 true POLL_IN; ARead 2 1; AWrite 3 [b]; AFinish 3] = Ret s /\
     (negb (rb_is_empty (m_ring (ps_meta s))) && sleeps s 2 && is_idle s 1 && is_idle s 3)%bool = true) /\
  (exists s, pipe_exec (make_pipe_sys PIPE_BUF_LEN) [AWrite 3 [b]; AFinish 3; ARead 1 1; ARead 2 1; AFinish 1; AFinish 2] = Ret s /\
     (returned_nothing s 2 && negb (m_write_closed (ps_meta s)))%bool = true).
Proof. split; apply ends_in_true; vm_compute; reflexivity. Qed.

(** ** Examples *)

Definition demo_acts : list pipe_act := [ARead 1 3; AWrite 2 [5; 6]%Z; AFinish 2; AResume 1; AFinish 1; ARead 1 2; ADrop false].

Lemma pipefs_stream_fifo_witness : exists s, pipe_exec (make_pipe_sys 4) demo_acts = Ret s /\
  ps_sent s = ps_got s ++ rb_data (m_ring (ps_meta s)) /\ length (rb_data (m_ring (ps_meta s))) <= 4.
Proof. apply (pipefs_stream_fifo 4 demo_acts). lia. Defined.

Definition demo_end : PipeSys := match pipe_exec (make_pipe_sys 4) demo_acts with Ret s => s | Panic => make_pipe_sys 4 end.

Lemma pipefs_no_orphan_witness : m_write_closed (ps_meta demo_end) = true /\ pc_of demo_end 1 = PReadWait 2 /\ 1 ∈ ps_woken demo_end.
Proof.
  assert (E : pipe_exec (make_pipe_sys 4) demo_acts = Ret demo_end) by (vm_compute; reflexivity).
  assert (Hc : m_write_closed (ps_meta demo_end) = true) by (vm_compute; reflexivity).
  assert (Hp : pc_of demo_end 1 = PReadWait 2) by (vm_compute; reflexivity).
  split; [exact Hc|]. split; [exact Hp|].
  refine (proj1 (proj2 (proj2 (pipefs_no_orphan 4 demo_acts demo_end _ E))) Hc 1 2 Hp). lia.
Defined.
