(* ===== verification/Disk.v ===== *)
(** The disk under the file systems: the cursors that make a byte-addressed file of a
    block device (os/src/fs/ext4/disk.rs for lwext4, os/src/fs/fat32/disk.rs for fatfs)
    over the block drivers (os/src/drivers/block).

    The virtio library is a class: a device transfers whole sectors, and the bytes of
    the device are the list its laws speak of.  The drivers turn an error of the library
    into a panic. *)

From S2P Require Import Prelude HalConst PageCache PageCacheProofs.

#[local] Open Scope Z_scope.

Definition BLOCK_SIZE : Z := 512.

(** ** The virtio library *)

(** Requests name a first sector; a read gives the length of its buffer. *)
Class VirtIOBlk (V : Type) := {
  capacity : V -> Z;
  read_blocks : V -> Z -> Z -> option (list Z);
  write_blocks : V -> Z -> list Z -> option V }.

(** Whole sectors inside the device are transferred; a request past its end is an
    error. *)
Class VirtIOBlkLaws (V : Type) {B : VirtIOBlk V} := {
  blk_bytes : V -> list Z;
  blk_bytes_len v : zlen (blk_bytes v) = capacity v * 512;
  read_blocks_in v b n : 0 <= b -> 0 < n -> n mod 512 = 0 -> b * 512 + n <= zlen (blk_bytes v) ->
    read_blocks v b n = Some (ztake n (zdrop (b * 512) (blk_bytes v)));
  read_blocks_out v b n : 0 <= b -> 0 < n -> n mod 512 = 0 -> zlen (blk_bytes v) < b * 512 + n -> read_blocks v b n = None;
  write_blocks_in v b buf : 0 <= b -> 0 < zlen buf -> zlen buf mod 512 = 0 -> b * 512 + zlen buf <= zlen (blk_bytes v) ->
    exists v', write_blocks v b buf = Some v' /\ blk_bytes v' = overlay (blk_bytes v) (b * 512) buf;
  write_blocks_out v b buf : 0 <= b -> 0 < zlen buf -> zlen buf mod 512 = 0 -> zlen (blk_bytes v) < b * 512 + zlen buf ->
    write_blocks v b buf = None }.

(** [u64::checked_add_signed]. *)
Definition checked_add_signed (x off : Z) : option Z :=
  if (0 <=? x + off) && (x + off <? 2 ^ 64) then Some (x + off) else None.

Section Dev.
Context {V : Type} {B : VirtIOBlk V}.

(** ** The drivers *)

Definition blk_size (v : V) : Z := wmul (capacity v) BLOCK_SIZE.
Definition read_block (v : V) (block_id len : Z) : outcome (list Z) := unwrap (read_blocks v block_id len).
Definition write_block (v : V) (block_id : Z) (buf : list Z) : outcome V := unwrap (write_blocks v block_id buf).

(** ** The disk of lwext4 *)

Record Disk := mkDisk { dk_block : Z; dk_offset : Z; dk_dev : V }.

Definition disk_new (v : V) : Disk := mkDisk 0 0 v.
Definition disk_position (d : Disk) : Z := wadd (wmul (dk_block d) BLOCK_SIZE) (dk_offset d).
Definition disk_set_position (d : Disk) (pos : Z) : Disk := mkDisk (pos / BLOCK_SIZE) (pos mod BLOCK_SIZE) (dk_dev d).

(** The cursor after a transfer inside a block. *)
Definition disk_advance (d : Disk) (count : Z) : Disk :=
  let offset := wadd (dk_offset d) count in
  if BLOCK_SIZE <=? offset then mkDisk (wadd (dk_block d) 1) (wsub offset BLOCK_SIZE) (dk_dev d)
  else mkDisk (dk_block d) offset (dk_dev d).

(** Fills the front of a buffer of the given length: the bytes, and their number. *)
Definition read_one (d : Disk) (len : Z) : outcome (list Z * Z * Disk) :=
  if (dk_offset d =? 0) && (BLOCK_SIZE <=? len) then
    let! data := read_block (dk_dev d) (dk_block d) BLOCK_SIZE in
    Ret (data, BLOCK_SIZE, mkDisk (wadd (dk_block d) 1) (dk_offset d) (dk_dev d))
  else
    let start := dk_offset d in
    let count := Z.min len (wsub BLOCK_SIZE (dk_offset d)) in
    let! data := read_block (dk_dev d) (dk_block d) BLOCK_SIZE in
    assert! (wadd start count <=? BLOCK_SIZE) && (start <=? wadd start count) in
    Ret (ztake count (zdrop start data), count, disk_advance d count).

Definition write_one (d : Disk) (buf : list Z) : outcome (Z * Disk) :=
  if (dk_offset d =? 0) && (BLOCK_SIZE <=? zlen buf) then
    let! v := write_block (dk_dev d) (dk_block d) (ztake BLOCK_SIZE buf) in
    Ret (BLOCK_SIZE, mkDisk (wadd (dk_block d) 1) (dk_offset d) v)
  else
    let start := dk_offset d in
    let count := Z.min (zlen buf) (wsub BLOCK_SIZE (dk_offset d)) in
    let! data := read_block (dk_dev d) (dk_block d) BLOCK_SIZE in
    assert! (wadd start count <=? BLOCK_SIZE) && (start <=? wadd start count) in
    let! v := write_block (dk_dev d) (dk_block d) (ztake start data ++ ztake count buf ++ zdrop (start + count) data) in
    Ret (count, disk_advance (mkDisk (dk_block d) (dk_offset d) v) count).

(** The loops end when the buffer is empty or nothing was transferred; the fuel is the
    length of the buffer. *)
Fixpoint disk_read_loop (fuel : nat) (d : Disk) (len : Z) (out : list Z) (read_len : Z) : outcome (list Z * Z * Disk) :=
  if len =? 0 then Ret (out, read_len, d) else
  match fuel with
  | O => Ret (out, read_len, d)
  | S fuel =>
      let! (data, n, d) := read_one d len in
      if n =? 0 then Ret (out, read_len, d) else disk_read_loop fuel d (len - n) (out ++ data) (wadd read_len n)
  end.

Definition disk_read (d : Disk) (len : Z) : outcome (list Z * Z * Disk) := disk_read_loop (Z.to_nat len) d len [] 0.

Fixpoint disk_write_loop (fuel : nat) (d : Disk) (buf : list Z) (write_len : Z) : outcome (Z * Disk) :=
  match fuel, buf with
  | _, [] | O, _ => Ret (write_len, d)
  | S fuel, _ =>
      let! (n, d) := write_one d buf in
      if n =? 0 then Ret (write_len, d) else disk_write_loop fuel d (zdrop n buf) (wadd write_len n)
  end.

Definition disk_write (d : Disk) (buf : list Z) : outcome (Z * Disk) := disk_write_loop (length buf) d buf 0.

Definition SEEK_SET : Z := 0.
Definition SEEK_CUR : Z := 1.
Definition SEEK_END : Z := 2.

(** [None] is the error -1. *)
Definition disk_seek (d : Disk) (off whence : Z) : option Z * Disk :=
  let size := blk_size (dk_dev d) in
  let whence := whence mod 2 ^ 32 in
  let new_pos :=
    if whence =? SEEK_SET then Some off
    else if whence =? SEEK_CUR then to_i64 <$> checked_add_signed (disk_position d) off
    else if whence =? SEEK_END then to_i64 <$> checked_add_signed size off
    else Some off in
  match new_pos with
  | Some p => (Some p, disk_set_position d (wrap p))
  | None => (None, d)
  end.

(** ** The cursor of fatfs *)

Record DiskCursor := mkCursor { cu_sector : Z; cu_offset : Z; cu_dev : V }.

Definition cursor_new (v : V) : DiskCursor := mkCursor 0 0 v.
Definition get_position (c : DiskCursor) : Z := wadd (wmul (cu_sector c) 512) (cu_offset c).
Definition set_position (c : DiskCursor) (position : Z) : DiskCursor := mkCursor (position / 512) (position mod 512) (cu_dev c).
Definition move_cursor (c : DiskCursor) (amount : Z) : DiskCursor := set_position c (wadd (get_position c) amount).

(** A part of one sector, or as many whole sectors as fit. *)
Definition cursor_read (c : DiskCursor) (len : Z) : outcome (list Z * Z * DiskCursor) :=
  if negb (cu_offset c =? 0) || (len <? 512) then
    let! data := read_block (cu_dev c) (cu_sector c) 512 in
    let start := cu_offset c in
    let fin := Z.min (wadd (cu_offset c) len) 512 in
    assert! start <=? fin in
    Ret (ztake (fin - start) (zdrop start data), fin - start, move_cursor c (fin - start))
  else
    let rlen := len / 512 * 512 in
    let! data := read_block (cu_dev c) (cu_sector c) rlen in
    Ret (data, rlen, move_cursor c rlen).

(** At most one sector. *)
Definition cursor_write (c : DiskCursor) (buf : list Z) : outcome (Z * DiskCursor) :=
  if negb (cu_offset c =? 0) || (zlen buf <? 512) then
    let! data := read_block (cu_dev c) (cu_sector c) 512 in
    let start := cu_offset c in
    let fin := Z.min (wadd (cu_offset c) (zlen buf)) 512 in
    assert! start <=? fin in
    let! v := write_block (cu_dev c) (cu_sector c) (ztake start data ++ ztake (fin - start) buf ++ zdrop fin data) in
    Ret (fin - start, move_cursor (mkCursor (cu_sector c) (cu_offset c) v) (fin - start))
  else
    let! v := write_block (cu_dev c) (cu_sector c) (ztake 512 buf) in
    Ret (512, move_cursor (mkCursor (cu_sector c) (cu_offset c) v) 512).

Inductive fat_seek := FatStart (i : Z) | FatEnd (i : Z) | FatCurrent (i : Z).

Definition cursor_seek (c : DiskCursor) (pos : fat_seek) : outcome (Z * DiskCursor) :=
  match pos with
  | FatStart i => Ret (i, set_position c i)
  | FatEnd _ => Panic
  | FatCurrent i =>
      let new_pos := to_i64 (to_i64 (get_position c) + i) in
      Ret (wrap new_pos, set_position c (wrap new_pos))
  end.

End Dev.
Arguments Disk V : clear implicits.
Arguments DiskCursor V : clear implicits.

(** ** The specification: a file of bytes with a position *)

Record ByteFile := mkByteFile { bf_bytes : list Z; bf_pos : Z }.

Inductive disk_op := DRead (len : Z) | DWrite (buf : list Z) | DSeek (off whence : Z).
Inductive disk_res := RBytes (out : list Z) (n : Z) | RCount (n : Z) | RSeek (r : option Z).

Definition spec_seek (f : ByteFile) (off whence : Z) : option Z :=
  if whence mod 2 ^ 32 =? SEEK_CUR then checked_add_signed (bf_pos f) off
  else if whence mod 2 ^ 32 =? SEEK_END then checked_add_signed (zlen (bf_bytes f)) off
  else Some (wrap off).

(** [None] when the transfer does not end inside the file. *)
Definition spec_step (f : ByteFile) (op : disk_op) : option (disk_res * ByteFile) :=
  match op with
  | DRead n =>
      if n =? 0 then Some (RBytes [] 0, f)
      else if bf_pos f + n <=? zlen (bf_bytes f)
      then Some (RBytes (ztake n (zdrop (bf_pos f) (bf_bytes f))) n, mkByteFile (bf_bytes f) (bf_pos f + n))
      else None
  | DWrite [] => Some (RCount 0, f)
  | DWrite buf =>
      if bf_pos f + zlen buf <=? zlen (bf_bytes f)
      then Some (RCount (zlen buf), mkByteFile (overlay (bf_bytes f) (bf_pos f) buf) (bf_pos f + zlen buf))
      else None
  | DSeek off whence =>
      Some match spec_seek f off whence with
           | Some p => (RSeek (Some (to_i64 p)), mkByteFile (bf_bytes f) p)
           | None => (RSeek None, f)
           end
  end.

(** Buffers are shorter than half the address space, offsets are [i64]. *)
Definition op_ok (op : disk_op) : bool :=
  match op with
  | DRead n => (0 <=? n) && (n <? 2 ^ 63)
  | DWrite buf => zlen buf <? 2 ^ 63
  | DSeek off whence => (- 2 ^ 63 <=? off) && (off <? 2 ^ 63)
  end.

Fixpoint disk_spec_run (f : ByteFile) (ops : list disk_op) : option (list disk_res * ByteFile) :=
  match ops with
  | [] => Some ([], f)
  | op :: ops =>
      '(r, f) ← spec_step f op;
      '(rs, f) ← disk_spec_run f ops;
      Some (r :: rs, f)
  end.

Section Runs.
Context {V : Type} {B : VirtIOBlk V}.

Definition disk_step (d : Disk V) (op : disk_op) : outcome (disk_res * Disk V) :=
  match op with
  | DRead n => let! (out, n, d) := disk_read d n in Ret (RBytes out n, d)
  | DWrite buf => let! (n, d) := disk_write d buf in Ret (RCount n, d)
  | DSeek off whence => let (r, d) := disk_seek d off whence in Ret (RSeek r, d)
  end.

Fixpoint disk_run (d : Disk V) (ops : list disk_op) : outcome (list disk_res * Disk V) :=
  match ops with
  | [] => Ret ([], d)
  | op :: ops =>
      let! (r, d) := disk_step d op in
      let! (rs, d) := disk_run d ops in
      Ret (r :: rs, d)
  end.

End Runs.

(** ** Refinement *)

Section Refine.
Context {V : Type} {B : VirtIOBlk V} {L : VirtIOBlkLaws V}.
Implicit Types d : Disk V.

(** The disk is the file: the same bytes, the cursor inside its block. *)
Record disk_rel d (f : ByteFile) : Prop := {
  dr_bytes : blk_bytes (dk_dev d) = bf_bytes f;
  dr_block : 0 <= dk_block d;
  dr_offset : 0 <= dk_offset d < 512;
  dr_pos : dk_block d * 512 + dk_offset d = bf_pos f;
  dr_word : bf_pos f < 2 ^ 64 }.

Lemma bytes_sectors (v : V) b o : 0 <= o < 512 -> b * 512 + o < zlen (blk_bytes v) <-> b * 512 + 512 <= zlen (blk_bytes v).
Proof. intros Ho. rewrite blk_bytes_len. lia. Qed.

Lemma position_rel d f : disk_rel d f -> disk_position d = bf_pos f.
Proof.
  intros [_ ?? E ?]. unfold disk_position, BLOCK_SIZE. rewrite wmul_small, wadd_small; unfold is_usize; lia.
Qed.

(** A transfer that ends in the block of the cursor. *)
Lemma advance_rel d f v bytes n : disk_rel d f -> 0 <= n -> dk_offset d + n <= 512 -> bf_pos f + n < 2 ^ 64 ->
  blk_bytes v = bytes -> disk_rel (disk_advance (mkDisk (dk_block d) (dk_offset d) v) n) (mkByteFile bytes (bf_pos f + n)).
Proof.
  intros [_ Hb Ho E Hw] Hn Hon Hlt Hv. unfold disk_advance, BLOCK_SIZE. cbn.
  rewrite (wadd_small (dk_offset d)) by (unfold is_usize; lia).
  destruct (Z.leb_spec 512 (dk_offset d + n)); constructor; cbn; try done; try lia;
    rewrite ?wadd_small, ?wsub_small; unfold is_usize; lia.
Qed.

Lemma advance_read_rel d f n : disk_rel d f -> 0 <= n -> dk_offset d + n <= 512 -> bf_pos f + n < 2 ^ 64 ->
  disk_rel (disk_advance d n) (mkByteFile (bf_bytes f) (bf_pos f + n)).
Proof. intros Hr. pose proof (dr_bytes _ _ Hr). destruct d as [b o v]. intros. by apply (advance_rel _ _ v _ _ Hr). Qed.

Lemma next_block_rel d f v bytes : disk_rel d f -> dk_offset d = 0 -> bf_pos f + 512 < 2 ^ 64 -> blk_bytes v = bytes ->
  disk_rel (mkDisk (wadd (dk_block d) 1) (dk_offset d) v) (mkByteFile bytes (bf_pos f + 512)).
Proof.
  intros [_ Hb Ho E Hw] H0 Hlt Hv. constructor; cbn; try done; try lia; rewrite ?wadd_small; unfold is_usize; lia.
Qed.

(** A sector is in the device or the driver panics. *)
Lemma read_block_in d f : disk_rel d f -> bf_pos f < zlen (bf_bytes f) ->
  read_block (dk_dev d) (dk_block d) 512 = Ret (ztake 512 (zdrop (bf_pos f - dk_offset d) (bf_bytes f))) /\
  bf_pos f - dk_offset d + 512 <= zlen (bf_bytes f).
Proof.
  intros [Hb H0 Ho E Hw] Hlt. rewrite <- Hb, <- E in *. apply bytes_sectors in Hlt; [|done].
  unfold read_block. rewrite read_blocks_in by (done || lia). cbn. split; [|lia]. do 3 f_equal. lia.
Qed.

Lemma read_block_out d f : disk_rel d f -> zlen (bf_bytes f) <= bf_pos f -> read_block (dk_dev d) (dk_block d) 512 = Panic.
Proof.
  intros [Hb H0 Ho E Hw] Hle. rewrite <- Hb, <- E in *. pose proof (bytes_sectors (dk_dev d) (dk_block d) (dk_offset d) Ho).
  unfold read_block. rewrite read_blocks_out by (done || lia). done.
Qed.

(** The part of a block from the cursor on. *)
Lemma sector_part (bytes : list Z) pos o n : 0 <= o <= pos -> 0 <= n -> o + n <= 512 ->
  ztake n (zdrop o (ztake 512 (zdrop (pos - o) bytes))) = ztake n (zdrop pos bytes).
Proof.
  intros Ho Hn Hon. apply zget_ext. intros i Hi. rewrite !zget_ztake by lia. destruct (Z.ltb_spec i n); [|done].
  rewrite !zget_zdrop, zget_ztake by lia. rewrite (proj2 (Z.ltb_lt _ _)) by lia. rewrite zget_zdrop by lia. f_equal. lia.
Qed.

(** A block with a part of it replaced. *)
Lemma sector_overlay (bytes : list Z) pos o buf : 0 <= o <= pos -> o + zlen buf <= 512 -> pos - o + 512 <= zlen bytes ->
  let data := ztake 512 (zdrop (pos - o) bytes) in
  overlay bytes (pos - o) (ztake o data ++ buf ++ zdrop (o + zlen buf) data) = overlay bytes pos buf /\
  zlen (ztake o data ++ buf ++ zdrop (o + zlen buf) data) = 512.
Proof.
  intros Ho Hb Hin data. pose proof (zlen_nonneg buf).
  assert (Hd : zlen data = 512) by (unfold data; rewrite zlen_ztake, zlen_zdrop by lia; lia).
  assert (Hl : zlen (ztake o data ++ buf ++ zdrop (o + zlen buf) data) = 512)
    by (rewrite !zlen_app, zlen_ztake, zlen_zdrop by lia; lia).
  split; [|done]. apply zget_ext. intros i Hi. rewrite !zget_overlay, Hl by lia.
  destruct (Z.leb_spec (pos - o) i), (Z.ltb_spec i (pos - o + 512)); cbn [andb]; zcmp; cbn [andb]; try done; try lia.
  all: rewrite zget_app, zlen_ztake, Hd by lia; zcmp; rewrite ?zget_ztake by lia; zcmp; try lia.
  all: rewrite ?zget_app; zcmp; try lia; try (f_equal; lia).
  all: rewrite ?zget_zdrop by lia; unfold data; rewrite zget_ztake by lia; zcmp; try lia.
  all: rewrite zget_zdrop by lia; f_equal; lia.
Qed.

Lemma read_one_in d f len : disk_rel d f -> zlen (bf_bytes f) < 2 ^ 63 -> 0 < len < 2 ^ 63 -> bf_pos f < zlen (bf_bytes f) ->
  exists n d', read_one d len = Ret (ztake n (zdrop (bf_pos f) (bf_bytes f)), n, d') /\ 0 < n <= len /\
    bf_pos f + n <= zlen (bf_bytes f) /\ disk_rel d' (mkByteFile (bf_bytes f) (bf_pos f + n)).
Proof.
  intros Hr Hsz Hlen Hlt. destruct (read_block_in d f Hr Hlt) as [Erd Hin]. pose proof Hr as [Hb H0 Ho E Hw].
  unfold read_one, BLOCK_SIZE. rewrite Erd. cbn [obind].
  destruct ((dk_offset d =? 0) && (512 <=? len)) eqn:Ew; [apply andb_prop in Ew as [Ez Ew]; apply Z.eqb_eq in Ez; apply Z.leb_le in Ew|apply andb_false_iff in Ew; rewrite Z.eqb_neq, Z.leb_gt in Ew].
  - exists 512, (mkDisk (wadd (dk_block d) 1) (dk_offset d) (dk_dev d)). replace (bf_pos f - dk_offset d) with (bf_pos f) by lia.
    split_and!; [done|lia|lia|lia|]. apply next_block_rel; try done; lia.
  - rewrite (wsub_small 512) by (unfold is_usize; lia). set (n := Z.min len (512 - dk_offset d)).
    exists n, (disk_advance d n). rewrite wadd_small by (unfold is_usize; lia).
    rewrite !(proj2 (Z.leb_le _ _)) by lia. cbn [andb guard_panic]. rewrite sector_part by lia.
    split_and!; [done|lia|lia|lia|]. apply advance_read_rel; try done; lia.
Qed.

Lemma read_one_out d f len : disk_rel d f -> zlen (bf_bytes f) <= bf_pos f -> read_one d len = Panic.
Proof. intros Hr Hle. unfold read_one, BLOCK_SIZE. rewrite (read_block_out d f) by done. by case_match. Qed.

Lemma read_loop_spec f0 : zlen (bf_bytes f0) < 2 ^ 63 -> forall fuel d pos len out total,
  disk_rel d (mkByteFile (bf_bytes f0) pos) -> 0 <= len < 2 ^ 63 -> (Z.to_nat len <= fuel)%nat -> 0 <= total -> total + len < 2 ^ 63 ->
  if (len =? 0) || (pos + len <=? zlen (bf_bytes f0))
  then exists d', disk_read_loop fuel d len out total = Ret (out ++ ztake len (zdrop pos (bf_bytes f0)), total + len, d') /\
         disk_rel d' (mkByteFile (bf_bytes f0) (pos + len))
  else disk_read_loop fuel d len out total = Panic.
Proof.
  intros Hsz. induction fuel as [|fuel IH]; intros d pos len out total Hr Hlen Hf Ht Htl.
  { replace len with 0 by lia. exists d. change (ztake 0 _) with (@nil Z). by rewrite app_nil_r, !Z.add_0_r. }
  cbn [disk_read_loop]. destruct (Z.eqb_spec len 0) as [->|Hz]; cbn [orb].
  { exists d. change (ztake 0 _) with (@nil Z). by rewrite app_nil_r, !Z.add_0_r. }
  destruct (Z.ltb_spec pos (zlen (bf_bytes f0))) as [Hlt|Hge].
  - destruct (read_one_in d _ len Hr) as (n & d1 & -> & Hn & Hin & Hr1); cbn in *; try done; try lia.
    rewrite (proj2 (Z.eqb_neq n 0)) by lia. rewrite wadd_small by (unfold is_usize; lia).
    specialize (IH d1 (pos + n) (len - n) (out ++ ztake n (zdrop pos (bf_bytes f0))) (total + n) Hr1).
    replace (pos + n + (len - n)) with (pos + len) in IH by lia. replace (total + n + (len - n)) with (total + len) in IH by lia.
    pose proof (dr_block _ _ Hr). pose proof (dr_offset _ _ Hr). pose proof (dr_pos _ _ Hr). cbn in *.
    rewrite <- app_assoc, ztake_zdrop_app in IH by lia. replace (n + (len - n)) with len in IH by lia.
    destruct (Z.leb_spec (pos + len) (zlen (bf_bytes f0))).
    + rewrite orb_true_r in IH. apply IH; lia.
    + rewrite (proj2 (Z.eqb_neq (len - n) 0)) in IH by lia. apply IH; lia.
  - rewrite (read_one_out d _ len Hr) by done. rewrite (proj2 (Z.leb_gt _ _)) by lia. done.
Qed.

Lemma write_block_in (v : V) b buf bytes : blk_bytes v = bytes -> 0 <= b -> zlen buf = 512 -> b * 512 + 512 <= zlen bytes ->
  exists v', write_block v b buf = Ret v' /\ blk_bytes v' = overlay bytes (b * 512) buf.
Proof.
  intros <- Hb Hl Hin. destruct (write_blocks_in v b buf) as (v' & E & E'); rewrite ?Hl; try done; try lia.
  exists v'. unfold write_block. by rewrite E.
Qed.

Lemma write_one_in d f buf : disk_rel d f -> zlen (bf_bytes f) < 2 ^ 63 -> 0 < zlen buf < 2 ^ 63 -> bf_pos f < zlen (bf_bytes f) ->
  exists n d', write_one d buf = Ret (n, d') /\ 0 < n <= zlen buf /\
    bf_pos f + n <= zlen (bf_bytes f) /\ disk_rel d' (mkByteFile (overlay (bf_bytes f) (bf_pos f) (ztake n buf)) (bf_pos f + n)).
Proof.
  intros Hr Hsz Hlen Hlt. destruct (read_block_in d f Hr Hlt) as [Erd Hin]. pose proof Hr as [Hb H0 Ho E Hw].
  unfold write_one, BLOCK_SIZE. rewrite Erd. cbn [obind].
  destruct ((dk_offset d =? 0) && (512 <=? zlen buf)) eqn:Ew;
    [apply andb_prop in Ew as [Ez Ew]; apply Z.eqb_eq in Ez; apply Z.leb_le in Ew|apply andb_false_iff in Ew; rewrite Z.eqb_neq, Z.leb_gt in Ew].
  - destruct (write_block_in (dk_dev d) (dk_block d) (ztake 512 buf) _ Hb) as (v' & -> & Ev); try lia.
    { rewrite zlen_ztake; lia. }
    exists 512, (mkDisk (wadd (dk_block d) 1) (dk_offset d) v'). replace (dk_block d * 512) with (bf_pos f) in Ev by lia.
    split_and!; [done|lia|lia|lia|]. apply next_block_rel; try done; lia.
  - rewrite (wsub_small 512) by (unfold is_usize; lia). set (n := Z.min (zlen buf) (512 - dk_offset d)).
    assert (Hn : zlen (ztake n buf) = n) by (rewrite zlen_ztake; lia).
    rewrite wadd_small by (unfold is_usize; lia). rewrite !(proj2 (Z.leb_le _ _)) by lia. cbn [andb guard_panic].
    destruct (sector_overlay (bf_bytes f) (bf_pos f) (dk_offset d) (ztake n buf)) as [Eo El]; rewrite ?Hn in *; try lia.
    destruct (write_block_in (dk_dev d) (dk_block d) _ _ Hb H0 El) as (v' & -> & Ev); try lia.
    exists n, (disk_advance (mkDisk (dk_block d) (dk_offset d) v') n).
    replace (dk_block d * 512) with (bf_pos f - dk_offset d) in Ev by lia. rewrite Eo in Ev.
    split_and!; [done|lia|lia|lia|]. apply advance_rel; try done; lia.
Qed.

Lemma write_one_out d f buf : disk_rel d f -> zlen (bf_bytes f) <= bf_pos f -> 0 < zlen buf -> write_one d buf = Panic.
Proof.
  intros Hr Hle Hl. unfold write_one, BLOCK_SIZE. rewrite (read_block_out d f) by done. case_match eqn:Ew; [|done].
  apply andb_prop in Ew as [Ez Ew]. apply Z.leb_le in Ew. unfold write_block. pose proof Hr as [Hb H0 Ho E Hw].
  pose proof (bytes_sectors (dk_dev d) (dk_block d) (dk_offset d) Ho). rewrite <- Hb, <- E in Hle.
  rewrite write_blocks_out; try done; rewrite ?zlen_ztake by lia; rewrite ?Z.min_l by lia; try done; lia.
Qed.

Lemma write_loop_cons fuel d buf total : 0 < zlen buf ->
  disk_write_loop (S fuel) d buf total = let! (n, d) := write_one d buf in
    if n =? 0 then Ret (total, d) else disk_write_loop fuel d (zdrop n buf) (wadd total n).
Proof. by destruct buf. Qed.

Lemma write_loop_spec : forall fuel d bytes pos buf total,
  disk_rel d (mkByteFile bytes pos) -> zlen bytes < 2 ^ 63 -> pos <= zlen bytes -> (length buf <= fuel)%nat ->
  0 <= total -> total + zlen buf < 2 ^ 63 ->
  if pos + zlen buf <=? zlen bytes
  then exists d', disk_write_loop fuel d buf total = Ret (total + zlen buf, d') /\
         disk_rel d' (mkByteFile (overlay bytes pos buf) (pos + zlen buf))
  else disk_write_loop fuel d buf total = Panic.
Proof.
  intros fuel. induction fuel as [|fuel IH]; intros d bytes pos buf total Hr Hsz Hle Hf Ht Htl.
  all: pose proof (dr_block _ _ Hr); pose proof (dr_offset _ _ Hr); pose proof (dr_pos _ _ Hr); cbn [bf_pos] in *.
  all: destruct (decide (buf = [])) as [->|Hne]; [|try by destruct buf; cbn in Hf; [|lia]].
  1, 2: change (zlen []) with 0; rewrite !Z.add_0_r, overlay_nil, (proj2 (Z.leb_le _ _)) by lia; exists d; done.
  assert (Hl : 0 < zlen buf) by (unfold zlen; destruct buf; [done|cbn; lia]). rewrite write_loop_cons by done.
  destruct (Z.ltb_spec pos (zlen bytes)) as [Hlt|Hge].
  - destruct (write_one_in d _ buf Hr) as (n & d1 & -> & Hn & Hin & Hr1); cbn in *; try done; try lia.
    rewrite (proj2 (Z.eqb_neq n 0)) by lia. rewrite wadd_small by (unfold is_usize; lia).
    assert (Hd : zlen (zdrop n buf) = zlen buf - n) by (rewrite zlen_zdrop; lia).
    assert (Htk : zlen (ztake n buf) = n) by (rewrite zlen_ztake; lia).
    specialize (IH d1 _ _ (zdrop n buf) (total + n) Hr1). rewrite Hd, zlen_overlay, Htk, Z.max_l in IH by lia.
    replace (pos + n + (zlen buf - n)) with (pos + zlen buf) in IH by lia. replace (total + n + (zlen buf - n)) with (total + zlen buf) in IH by lia.
    assert (Ha : overlay (overlay bytes pos (ztake n buf)) (pos + n) (zdrop n buf) = overlay bytes pos buf).
    { rewrite <- Htk at 2. rewrite overlay_app by lia. f_equal. apply take_drop. }
    rewrite Ha in IH. apply IH; try lia. unfold zlen in Hd. lia.
  - rewrite (write_one_out d _ buf Hr) by done. rewrite (proj2 (Z.leb_gt _ _)) by lia. done.
Qed.

Lemma set_position_rel d f p : disk_rel d f -> 0 <= p < 2 ^ 64 -> disk_rel (disk_set_position d p) (mkByteFile (bf_bytes f) p).
Proof.
  intros [Hb H0 Ho E Hw] Hp. unfold disk_set_position, BLOCK_SIZE. constructor; cbn; try done; try lia; div_lia.
Qed.

Lemma wrap_to_i64 p : 0 <= p < 2 ^ 64 -> wrap (to_i64 p) = p.
Proof. intros. unfold wrap, to_i64. div_lia. Qed.

Lemma to_i64_wrap off : - 2 ^ 63 <= off < 2 ^ 63 -> to_i64 (wrap off) = off.
Proof. intros. unfold wrap, to_i64. div_lia. Qed.

Lemma checked_add_range x off p : checked_add_signed x off = Some p -> 0 <= p < 2 ^ 64.
Proof. unfold checked_add_signed. intros E. case_match eqn:Ec; simplify_eq. apply andb_prop in Ec as [?%Z.leb_le ?%Z.ltb_lt]. lia. Qed.

Lemma disk_seek_spec d f off whence : disk_rel d f -> zlen (bf_bytes f) < 2 ^ 63 -> - 2 ^ 63 <= off < 2 ^ 63 ->
  exists d', disk_seek d off whence = (to_i64 <$> spec_seek f off whence, d') /\
    disk_rel d' (default f (mkByteFile (bf_bytes f) <$> spec_seek f off whence)).
Proof.
  intros Hr Hsz Hoff. assert (Hs : blk_size (dk_dev d) = zlen (bf_bytes f)).
  { pose proof (blk_bytes_len (dk_dev d)). rewrite (dr_bytes _ _ Hr) in *. pose proof (zlen_nonneg (bf_bytes f)).
    unfold blk_size, BLOCK_SIZE. rewrite wmul_small; unfold is_usize; lia. }
  assert (Hset : disk_rel (disk_set_position d (wrap off)) (mkByteFile (bf_bytes f) (wrap off))).
  { apply set_position_rel; [done|]. apply wrap_bounds. }
  assert (Hadd : forall x, exists d', match to_i64 <$> checked_add_signed x off with
    | Some p => (Some p, disk_set_position d (wrap p)) | None => (None, d) end = (to_i64 <$> checked_add_signed x off, d') /\
    disk_rel d' (default f (mkByteFile (bf_bytes f) <$> checked_add_signed x off))).
  { intros x. destruct (checked_add_signed x off) as [p|] eqn:Ec; cbn; [|eauto]. apply checked_add_range in Ec.
    rewrite wrap_to_i64 by done. eauto using set_position_rel. }
  unfold disk_seek, spec_seek. rewrite Hs, (position_rel d f Hr).
  destruct (Z.eqb_spec (whence mod 2 ^ 32) SEEK_SET) as [->|]; cbn [Z.eqb SEEK_SET SEEK_CUR SEEK_END].
  { cbn. rewrite to_i64_wrap by done. eauto. }
  destruct (_ =? SEEK_CUR); [done|]. destruct (_ =? SEEK_END); [done|]. cbn. rewrite to_i64_wrap by done. eauto.
Qed.

Lemma disk_read_spec d f n : disk_rel d f -> zlen (bf_bytes f) < 2 ^ 63 -> 0 <= n < 2 ^ 63 ->
  if (n =? 0) || (bf_pos f + n <=? zlen (bf_bytes f))
  then exists d', disk_read d n = Ret (ztake n (zdrop (bf_pos f) (bf_bytes f)), n, d') /\ disk_rel d' (mkByteFile (bf_bytes f) (bf_pos f + n))
  else disk_read d n = Panic.
Proof.
  intros Hr Hsz Hn. destruct f as [bytes pos].
  exact (read_loop_spec (mkByteFile bytes pos) Hsz (Z.to_nat n) d pos n [] 0 Hr Hn ltac:(lia) ltac:(lia) ltac:(lia)).
Qed.

Lemma disk_write_spec d f buf : disk_rel d f -> zlen (bf_bytes f) < 2 ^ 63 -> 0 < zlen buf < 2 ^ 63 ->
  if bf_pos f + zlen buf <=? zlen (bf_bytes f)
  then exists d', disk_write d buf = Ret (zlen buf, d') /\ disk_rel d' (mkByteFile (overlay (bf_bytes f) (bf_pos f) buf) (bf_pos f + zlen buf))
  else disk_write d buf = Panic.
Proof.
  intros Hr Hsz Hl. destruct f as [bytes pos]. cbn [bf_bytes bf_pos] in *. unfold disk_write.
  destruct (Z.leb_spec pos (zlen bytes)); [by apply (write_loop_spec _ d bytes pos buf 0); try lia|].
  rewrite (proj2 (Z.leb_gt _ _)) by lia. destruct buf as [|x buf]; [change (zlen []) with 0 in Hl; lia|]. cbn [length].
  rewrite write_loop_cons, (write_one_out d _ _ Hr) by (cbn; lia). done.
Qed.

(** Each operation of the disk is the operation of the file, or a panic. *)
Lemma disk_step_spec d f op : disk_rel d f -> zlen (bf_bytes f) < 2 ^ 63 -> op_ok op = true ->
  match spec_step f op with
  | Some (r, f') => exists d', disk_step d op = Ret (r, d') /\ disk_rel d' f' /\ zlen (bf_bytes f') = zlen (bf_bytes f)
  | None => disk_step d op = Panic
  end.
Proof.
  intros Hr Hsz Hok. destruct op as [n|buf|off whence]; cbn in Hok.
  - apply andb_prop in Hok as [?%Z.leb_le ?%Z.ltb_lt]. pose proof (disk_read_spec d f n Hr Hsz ltac:(lia)) as Hs. cbn [spec_step disk_step].
    destruct (Z.eqb_spec n 0) as [->|]; [eauto|]. cbn [orb] in Hs. case_match; [|by rewrite Hs]. destruct Hs as (d' & -> & Hr'). cbn. eauto.
  - apply Z.ltb_lt in Hok. destruct buf as [|x buf]; [cbn; eauto|]. pose proof (dr_block _ _ Hr). pose proof (dr_offset _ _ Hr). pose proof (dr_pos _ _ Hr).
    assert (0 < zlen (x :: buf)) by (unfold zlen; cbn; lia). pose proof (disk_write_spec d f (x :: buf) Hr Hsz ltac:(lia)) as H'. cbn [spec_step disk_step].
    destruct (Z.leb_spec (bf_pos f + zlen (x :: buf)) (zlen (bf_bytes f))); [|by rewrite H']. destruct H' as (d' & -> & Hr'). cbn [obind].
    exists d'. split_and!; [done|done|]. cbn [bf_bytes]. rewrite zlen_overlay; lia.
  - apply andb_prop in Hok as [?%Z.leb_le ?%Z.ltb_lt]. destruct (disk_seek_spec d f off whence Hr Hsz ltac:(lia)) as (d' & E & Hr').
    cbn [spec_step disk_step]. rewrite E. destruct (spec_seek f off whence); cbn in *; eauto.
Qed.

(** C20: through the disk a block device is a file of bytes with a position.  Any
    sequence of reads, writes and seeks of lwext4 gives the results of the file and
    leaves the bytes of the file on the device, whatever blocks the transfers start and
    end in; and it panics exactly when a transfer does not end inside the device. *)
Theorem disk_is_byte_file : forall ops d f, disk_rel d f -> zlen (bf_bytes f) < 2 ^ 63 -> forallb op_ok ops = true ->
  match disk_spec_run f ops with
  | Some (rs, f') => exists d', disk_run d ops = Ret (rs, d') /\ disk_rel d' f'
  | None => disk_run d ops = Panic
  end.
Proof.
  intros ops. induction ops as [|op ops IH]; intros d f Hr Hsz Hok; [cbn; eauto|]. cbn in Hok. apply andb_prop in Hok as [Ho Hok].
  pose proof (disk_step_spec d f op Hr Hsz Ho) as H. cbn [disk_spec_run disk_run].
  destruct (spec_step f op) as [[r f1]|]; [|by rewrite H]. destruct H as (d1 & -> & Hr1 & Hz). cbn [mbind option_bind obind].
  specialize (IH d1 f1 Hr1 ltac:(lia) Hok). destruct (disk_spec_run f1 ops) as [[rs f2]|]; [|by cbn; rewrite IH].
  destruct IH as (d2 & -> & Hr2). cbn. eauto.
Qed.

(** *** The cursor of fatfs *)

(** The two cursors have the same fields; [write] of the one is [write_one] of the
    other, and so is [read] when less than two sectors are asked for. *)
Definition as_disk (c : DiskCursor V) : Disk V := mkDisk (cu_sector c) (cu_offset c) (cu_dev c).
Definition of_disk d : DiskCursor V := mkCursor (dk_block d) (dk_offset d) (dk_dev d).

Lemma move_cursor_advance c v f n : disk_rel (as_disk c) f -> 0 <= n -> cu_offset c + n <= 512 -> bf_pos f + n < 2 ^ 64 ->
  move_cursor (mkCursor (cu_sector c) (cu_offset c) v) n = of_disk (disk_advance (mkDisk (cu_sector c) (cu_offset c) v) n).
Proof.
  intros [_ Hb Ho E Hw] Hn Hon Hlt. cbn in *. unfold move_cursor, set_position, get_position, disk_advance, of_disk, BLOCK_SIZE. cbn.
  rewrite wmul_small, !wadd_small by (unfold is_usize; rewrite ?wadd_small; unfold is_usize; lia).
  destruct (Z.leb_spec 512 (cu_offset c + n)); cbn; f_equal; rewrite ?wadd_small, ?wsub_small by (unfold is_usize; lia); div_lia.
Qed.

Lemma move_cursor_next c v f : disk_rel (as_disk c) f -> cu_offset c = 0 -> bf_pos f + 512 < 2 ^ 64 ->
  move_cursor (mkCursor (cu_sector c) (cu_offset c) v) 512 = of_disk (mkDisk (wadd (cu_sector c) 1) (cu_offset c) v).
Proof.
  intros Hr H0 Hlt. rewrite (move_cursor_advance c v f) by (done || lia). unfold disk_advance, BLOCK_SIZE. cbn. rewrite H0.
  rewrite wadd_small by (unfold is_usize; lia). done.
Qed.

Lemma cursor_write_one c f buf : disk_rel (as_disk c) f -> bf_pos f < 2 ^ 63 -> zlen buf < 2 ^ 63 ->
  cursor_write c buf = let! (n, d) := write_one (as_disk c) buf in Ret (n, of_disk d).
Proof.
  intros Hr Hp Hl. pose proof (zlen_nonneg buf). pose proof Hr as [_ Hb Ho E Hw]. cbn in *. unfold cursor_write, write_one, BLOCK_SIZE. cbn.
  rewrite (wadd_small (cu_offset c) (zlen buf)), (wsub_small 512) by (unfold is_usize; lia).
  destruct (Z.eqb_spec (cu_offset c) 0) as [Hz|Hz], (Z.ltb_spec (zlen buf) 512), (Z.leb_spec 512 (zlen buf)); try lia; cbn [negb orb andb].
  2: { destruct (write_block _ _ _) as [v|]; [|done]. cbn. do 2 f_equal. by apply (move_cursor_next c v f); try lia. }
  all: set (n := Z.min (zlen buf) (512 - cu_offset c)); replace (Z.min (cu_offset c + zlen buf) 512) with (cu_offset c + n) by lia.
  all: destruct (read_block _ _ _) as [data|]; [|done]; cbn [obind]; rewrite (wadd_small (cu_offset c) n) by (unfold is_usize; lia).
  all: rewrite !(proj2 (Z.leb_le _ _)) by lia; cbn [andb guard_panic]; replace (cu_offset c + n - cu_offset c) with n by lia.
  all: destruct (write_block _ _ _) as [v|]; [|done]; cbn; do 2 f_equal; by apply (move_cursor_advance c v f); try lia.
Qed.

Lemma cursor_read_one c f len : disk_rel (as_disk c) f -> bf_pos f < 2 ^ 63 -> 0 <= len < 1024 ->
  cursor_read c len = let! (out, n, d) := read_one (as_disk c) len in Ret (out, n, of_disk d).
Proof.
  intros Hr Hp Hl. pose proof Hr as [_ Hb Ho E Hw]. destruct c as [sec off v]. cbn in *. unfold cursor_read, read_one, BLOCK_SIZE. cbn.
  rewrite (wadd_small off len), (wsub_small 512) by (unfold is_usize; lia).
  destruct (Z.eqb_spec off 0) as [Hz|Hz], (Z.ltb_spec len 512), (Z.leb_spec 512 len); try lia; cbn [negb orb andb].
  2: { replace (len / 512 * 512) with 512 by div_lia. destruct (read_block _ _ _) as [data|]; [|done]. cbn. do 2 f_equal.
       by apply (move_cursor_next (mkCursor sec off v) v f); cbn; try lia. }
  all: set (n := Z.min len (512 - off)); replace (Z.min (off + len) 512) with (off + n) by lia.
  all: destruct (read_block _ _ _) as [data|]; [|done]; cbn [obind]; rewrite (wadd_small off n) by (unfold is_usize; lia).
  all: rewrite !(proj2 (Z.leb_le _ _)) by lia; cbn [andb guard_panic]; replace (off + n - off) with n by lia.
  all: cbn; do 2 f_equal; by apply (move_cursor_advance (mkCursor sec off v) v f); cbn; try lia.
Qed.

End Refine.

(** ** A device in memory *)

(** The whole sectors of a list of bytes. *)
Definition sectors (v : list Z) : Z := zlen v / 512 * 512.

#[export] Instance ram_blk : VirtIOBlk (list Z) := {
  capacity v := zlen v / 512;
  read_blocks v b n := if b * 512 + n <=? sectors v then Some (ztake n (zdrop (b * 512) v)) else None;
  write_blocks v b buf := if b * 512 + zlen buf <=? sectors v then Some (overlay v (b * 512) buf) else None }.

Lemma sectors_le v : 0 <= sectors v <= zlen v.
Proof. unfold sectors. pose proof (zlen_nonneg v). div_lia. Qed.

#[export] Instance ram_blk_laws : VirtIOBlkLaws (list Z).
Proof.
  refine {| blk_bytes v := ztake (sectors v) v |}.
  all: intros v; pose proof (sectors_le v).
  - rewrite zlen_ztake by lia. cbn. unfold sectors in *. lia.
  - intros b n ? ? ?. rewrite zlen_ztake by lia. intros. cbn. rewrite (proj2 (Z.leb_le _ _)) by lia. f_equal.
    apply zget_ext. intros i Hi. rewrite !zget_ztake by lia. case_if; [|done]. rewrite !zget_zdrop, zget_ztake by lia. by zcmp.
  - intros b n ? ? ?. rewrite zlen_ztake by lia. intros. cbn. by rewrite (proj2 (Z.leb_gt _ _)) by lia.
  - intros b buf ? ? ?. rewrite zlen_ztake by lia. intros. cbn. rewrite (proj2 (Z.leb_le _ _)) by lia. eexists. split; [done|].
    assert (Es : sectors (overlay v (b * 512) buf) = sectors v).
    { unfold sectors. rewrite zlen_overlay by lia. rewrite Z.max_l by lia. done. }
    apply zget_ext. intros i Hi. rewrite Es, zget_ztake, !zget_overlay, zget_ztake by (rewrite ?zlen_ztake by lia; lia).
    zcmp; cbn; try done; lia.
  - intros b buf ? ? ?. rewrite zlen_ztake by lia. intros. cbn. by rewrite (proj2 (Z.leb_gt _ _)) by lia.
Defined.

(** Three sectors; a write over the border of two of them, read back, then a read past
    the end. *)
Definition ram3 : list Z := replicate 1536 7.
Definition ram_ops : list disk_op := [DSeek 510 0; DWrite [1; 2; 3; 4]; DSeek (-3) 1; DRead 5].

Lemma ram_rel : disk_rel (disk_new ram3) (mkByteFile ram3 0).
Proof. constructor; cbn; try done; lia. Qed.

Lemma disk_is_byte_file_witness : exists d,
  disk_run (disk_new ram3) ram_ops = Ret ([RSeek (Some 510); RCount 4; RSeek (Some 511); RBytes [2; 3; 4; 7; 7] 5], d) /\
  disk_run (disk_new ram3) (ram_ops ++ [DRead 1024]) = Panic.
Proof.
  pose proof (disk_is_byte_file ram_ops _ _ ram_rel ltac:(by vm_compute) eq_refl) as H1.
  pose proof (disk_is_byte_file (ram_ops ++ [DRead 1024]) _ _ ram_rel ltac:(by vm_compute) eq_refl) as H2.
  vm_compute disk_spec_run in H1. vm_compute disk_spec_run in H2. destruct H1 as (d & E & _). eauto.
Defined.
