(* ===== verification/Wait.v ===== *)
(** Calls of the kernel that may wait, as a monad on a state: a call answers, panics, or
    is still waiting when its fuel is over; and the values in the bytes of user memory. *)

From S2P Require Import Prelude Errno.

#[local] Open Scope Z_scope.

(** ** Calls that may wait *)

Inductive reply (A : Type) := Done (r : result A SysError) | Waiting.
Arguments Done {A} r.
Arguments Waiting {A}.

Definition wcall (S A : Type) : Type := S -> outcome (reply A * S).

Definition nret {S A} (a : A) : wcall S A := fun s => Ret (Done (Ok a), s).
Definition nerr {S A} (e : SysError) : wcall S A := fun s => Ret (Done (Err e), s).
Definition npanic {S A} : wcall S A := fun _ => Panic.
Definition nget {S} : wcall S S := fun s => Ret (Done (Ok s), s).
Definition nput {S} (f : S -> S) : wcall S unit := fun s => Ret (Done (Ok tt), f s).
Definition nunwrap {S A} (o : option A) : wcall S A := match o with Some a => nret a | None => npanic end.

Definition nbind {S A B} (m : wcall S A) (k : A -> wcall S B) : wcall S B := fun s =>
  let! r := m s in
  match r.1 with
  | Done (Ok a) => k a r.2
  | Done (Err e) => Ret (Done (Err e), r.2)
  | Waiting => Ret (Waiting, r.2)
  end.

Notation "'let@' x ':=' m 'in' k" := (nbind m (fun x => k)) (at level 10, x name, m at level 100, k at level 200).

(** ** Values in memory *)

(** The value of little-endian bytes, and a field of a structure. *)
Definition le_value (l : list Z) : Z := foldr (fun b v => b + 256 * v) 0 l.
Definition field (b : list Z) (off n : nat) : Z := le_value (take n (drop off b)).

(** Memory as bytes at addresses; what is not mapped faults. *)
Fixpoint bytes_at (m : gmap Z Z) (ptr : Z) (n : nat) : option (list Z) :=
  match n with O => Some [] | S n => b ← m !! ptr; bs ← bytes_at m (ptr + 1) n; Some (b :: bs) end.
Fixpoint bytes_put (m : gmap Z Z) (ptr : Z) (bs : list Z) : option (gmap Z Z) :=
  match bs with [] => Some m | b :: bs => if bool_decide (is_Some (m !! ptr)) then bytes_put (<[ptr := b]> m) (ptr + 1) bs else None end.

(** ** Calls that do not panic *)

(** From [s] the call does not panic, and what it answers and leaves is in [Q]. *)
Definition ends {S A} (m : wcall S A) (s : S) (Q : reply A -> S -> Prop) : Prop :=
  match m s with Ret (r, s') => Q r s' | Panic => False end.

(** [P] for an answer of the first call, [Q] for every other end of it. *)
Definition and_then {S A B} (P : A -> S -> Prop) (Q : reply B -> S -> Prop) (r : reply A) (s : S) : Prop :=
  match r with Done (Ok a) => P a s | Done (Err e) => Q (Done (Err e)) s | Waiting => Q Waiting s end.

Section Ends.
Context {S : Type}.

Lemma ends_bind {A B} (m : wcall S A) (c : A -> wcall S B) s Q :
  ends m s (and_then (fun a s' => ends (c a) s' Q) Q) -> ends (nbind m c) s Q.
Proof. unfold ends, nbind. destruct (m s) as [[r s']|]; [|done]. by destruct r as [[a|e]|]. Qed.

Lemma ends_mono {A} (m : wcall S A) s (P Q : reply A -> S -> Prop) :
  ends m s P -> (forall r s', P r s' -> Q r s') -> ends m s Q.
Proof. unfold ends. destruct (m s) as [[r s']|]; [|done]. auto. Qed.

Lemma ends_ret {A} (a : A) s (Q : reply A -> S -> Prop) : Q (Done (Ok a)) s -> ends (nret a) s Q.
Proof. done. Qed.
Lemma ends_err {A} e s (Q : reply A -> S -> Prop) : Q (Done (Err e)) s -> ends (nerr e) s Q.
Proof. done. Qed.
Lemma ends_get s (Q : reply S -> S -> Prop) : Q (Done (Ok s)) s -> ends nget s Q.
Proof. done. Qed.
Lemma ends_put f s (Q : reply unit -> S -> Prop) : Q (Done (Ok tt)) (f s) -> ends (nput f) s Q.
Proof. done. Qed.

(** A step that is known to answer. *)
Lemma ends_step {A B} (m : wcall S A) (c : A -> wcall S B) s a s' Q :
  m s = Ret (Done (Ok a), s') -> ends (c a) s' Q -> ends (nbind m c) s Q.
Proof. intros E H. apply ends_bind. unfold ends. by rewrite E. Qed.

Lemma panic_step {A B} (m : wcall S A) (c : A -> wcall S B) s a s' :
  m s = Ret (Done (Ok a), s') -> c a s' = Panic -> nbind m c s = Panic.
Proof. intros E H. unfold nbind. by rewrite E. Qed.

Lemma panic_here {A B} (m : wcall S A) (c : A -> wcall S B) s : m s = Panic -> nbind m c s = Panic.
Proof. intros E. unfold nbind. by rewrite E. Qed.

Lemma ends_run {A} (m : wcall S A) s Q : ends m s Q -> exists r s', m s = Ret (r, s') /\ Q r s'.
Proof. unfold ends. destruct (m s) as [[r s']|]; [|done]. eauto. Qed.
End Ends.
