(* ===== verification/NetAddr.v ===== *)
(** Socket addresses (os/src/net/addr.rs): the C structures a program passes, as the
    bytes they are, and the endpoints of the network library. *)

From S2P Require Import Prelude Errno PageCache PageCacheProofs.

#[local] Open Scope Z_scope.

(** ** Endpoints *)

Inductive IpAddress := Ipv4 (octets : list Z) | Ipv6 (octets : list Z).

#[export] Instance IpAddress_eq : EqDecision IpAddress.
Proof. solve_decision. Defined.

Record IpEndpoint := mkEndpoint { ep_addr : IpAddress; ep_port : Z }.
Record IpListenEndpoint := mkListen { le_addr : option IpAddress; le_port : Z }.

#[export] Instance IpEndpoint_eq : EqDecision IpEndpoint.
Proof. solve_decision. Defined.
#[export] Instance IpListenEndpoint_eq : EqDecision IpListenEndpoint.
Proof. solve_decision. Defined.

Definition octets (a : IpAddress) : list Z := match a with Ipv4 o | Ipv6 o => o end.

(** [IpAddress::is_unspecified]: every octet is zero. *)
Definition ip_unspecified (a : IpAddress) : bool := forallb (Z.eqb 0) (octets a).

Definition ZERO_IPV4_ADDR : IpAddress := Ipv4 [0; 0; 0; 0].
Definition ZERO_IPV4_ENDPOINT : IpEndpoint := mkEndpoint ZERO_IPV4_ADDR 0.
Definition UNSPECIFIED_LISTEN_ENDPOINT : IpListenEndpoint := mkListen None 0.
Definition LOCAL_IPV4 : IpAddress := Ipv4 [127; 0; 0; 1].

Definition to_endpoint (l : IpListenEndpoint) : IpEndpoint := mkEndpoint (default ZERO_IPV4_ADDR (le_addr l)) (le_port l).

(** ** Families *)

Inductive SaFamily := AfInet | AfInet6.

Definition SaFamily_code (f : SaFamily) : Z := match f with AfInet => 2 | AfInet6 => 10 end.

Definition SaFamily_try_from (v : Z) : result SaFamily SysError :=
  if v =? 2 then Ok AfInet else if v =? 10 then Ok AfInet6 else Err EINVAL.

(** ** The union *)

(** The bytes of a [sockaddr_in] or a [sockaddr_in6], whose layouts agree on the first
    four: the family and the port, read as the integers of the machine. *)
Definition SockAddr := list Z.

Definition byte_at (s : SockAddr) (i : nat) : Z := nth i s 0.
Definition u16_at (s : SockAddr) (i : nat) : Z := byte_at s i + 256 * byte_at s (S i).

Definition SIZE_IN4 : Z := 16.
Definition SIZE_IN6 : Z := 28.

Definition sa_size (f : SaFamily) : Z := match f with AfInet => SIZE_IN4 | AfInet6 => SIZE_IN6 end.

Definition sa_family (s : SockAddr) : Z := u16_at s 0.
Definition sin_port (s : SockAddr) : Z := u16_at s 2.
Definition sin4_addr (s : SockAddr) : list Z := take 4 (drop 4 s).
Definition sin6_addr (s : SockAddr) : list Z := take 16 (drop 8 s).

(** The constructors of the two structures. *)
Definition u16_bytes (v : Z) : list Z := [v mod 256; v / 256].
Definition SockAddrIn4_bytes (port : Z) (addr : list Z) : SockAddr :=
  u16_bytes (SaFamily_code AfInet) ++ u16_bytes port ++ addr ++ replicate 8 0.
Definition SockAddrIn6_bytes (port : Z) (addr : list Z) : SockAddr :=
  u16_bytes (SaFamily_code AfInet6) ++ u16_bytes port ++ replicate 4 0 ++ addr ++ replicate 4 0.

Definition into_endpoint (s : SockAddr) : outcome IpEndpoint :=
  match SaFamily_try_from (sa_family s) with
  | Ok AfInet => Ret (mkEndpoint (Ipv4 (sin4_addr s)) (sin_port s))
  | Ok AfInet6 => Ret (mkEndpoint (Ipv6 (sin6_addr s)) (sin_port s))
  | Err _ => Panic
  end.

(** An address of zeroes is any address. *)
Definition listen_addr (a : IpAddress) : option IpAddress := if ip_unspecified a then None else Some a.

Definition into_listen_endpoint (s : SockAddr) : outcome IpListenEndpoint :=
  match SaFamily_try_from (sa_family s) with
  | Ok AfInet => Ret (mkListen (listen_addr (Ipv4 (sin4_addr s))) (sin_port s))
  | Ok AfInet6 => Ret (mkListen (listen_addr (Ipv6 (sin6_addr s))) (sin_port s))
  | Err _ => Panic
  end.

Definition from_endpoint (e : IpEndpoint) : SockAddr :=
  match ep_addr e with
  | Ipv4 a => SockAddrIn4_bytes (ep_port e) a
  | Ipv6 a => SockAddrIn6_bytes (ep_port e) a
  end.

(** ** Addresses survive the way to the program and back *)

Definition endpoint_wf (e : IpEndpoint) : bool :=
  (0 <=? ep_port e) && (ep_port e <? 2 ^ 16) &&
  match ep_addr e with Ipv4 a => length a =? 4 | Ipv6 a => length a =? 16 end%nat.

Lemma u16_bytes_at v l : 0 <= v < 2 ^ 16 -> u16_at (u16_bytes v ++ l) 0 = v.
Proof. intros Hv. unfold u16_at, byte_at. cbn. div_lia. Qed.

Lemma from_endpoint_family e : SaFamily_try_from (sa_family (from_endpoint e)) = Ok match ep_addr e with Ipv4 _ => AfInet | Ipv6 _ => AfInet6 end.
Proof. unfold from_endpoint. by destruct (ep_addr e). Qed.

Lemma from_endpoint_port e : 0 <= ep_port e < 2 ^ 16 -> sin_port (from_endpoint e) = ep_port e.
Proof.
  intros Hp. unfold from_endpoint, sin_port. destruct (ep_addr e) as [a|a].
  - exact (u16_bytes_at (ep_port e) (a ++ replicate 8 0) Hp).
  - exact (u16_bytes_at (ep_port e) (replicate 4 0 ++ a ++ replicate 4 0) Hp).
Qed.

Lemma from_endpoint_len e : endpoint_wf e = true ->
  zlen (from_endpoint e) = sa_size match ep_addr e with Ipv4 _ => AfInet | Ipv6 _ => AfInet6 end.
Proof.
  unfold endpoint_wf, from_endpoint, zlen. intros Hw. apply andb_prop in Hw as [_ Hw].
  destruct (ep_addr e) as [a|a]; apply Nat.eqb_eq in Hw; cbn; rewrite length_app, Hw; done.
Qed.

Lemma from_endpoint_addr a port : length a = 4%nat -> sin4_addr (SockAddrIn4_bytes port a) = a.
Proof. intros Ha. change (take 4 (a ++ replicate 8 0) = a). by rewrite <- Ha, take_app_length. Qed.

Lemma from_endpoint_addr6 a port : length a = 16%nat -> sin6_addr (SockAddrIn6_bytes port a) = a.
Proof. intros Ha. change (take 16 (a ++ replicate 4 0) = a). by rewrite <- Ha, take_app_length. Qed.

(** What the kernel writes for an endpoint is read back as that endpoint. *)
Lemma endpoint_roundtrip e : endpoint_wf e = true -> into_endpoint (from_endpoint e) = Ret e.
Proof.
  intros Hw. unfold into_endpoint. rewrite from_endpoint_family. unfold endpoint_wf in Hw.
  apply andb_prop in Hw as [Hp Hw]. apply andb_prop in Hp as [?%Z.leb_le ?%Z.ltb_lt].
  rewrite (from_endpoint_port e) by lia. destruct e as [[a|a] p]; cbn [ep_addr ep_port] in *; apply Nat.eqb_eq in Hw; unfold from_endpoint; cbn [ep_addr ep_port].
  - by rewrite from_endpoint_addr.
  - by rewrite from_endpoint_addr6.
Qed.

(** The bytes a program makes for an address and a port: the port is in the byte order
    of the network. *)
Definition posix_in4 (port : Z) (addr : list Z) : SockAddr := [2; 0; port / 256; port mod 256] ++ addr ++ replicate 8 0.

Lemma posix_port port addr : length addr = 4%nat -> into_endpoint (posix_in4 port addr) = Ret (mkEndpoint (Ipv4 addr) (256 * (port mod 256) + port / 256)).
Proof.
  intros Ha. assert (Et : sin4_addr (posix_in4 port addr) = addr).
  { change (take 4 (addr ++ replicate 8 0) = addr). by rewrite <- Ha, take_app_length. }
  change (into_endpoint (posix_in4 port addr)) with (Ret (mkEndpoint (Ipv4 (sin4_addr (posix_in4 port addr))) (port / 256 + 256 * (port mod 256)))).
  rewrite Et. do 2 f_equal. lia.
Qed.
