(* ===== verification/Net.v ===== *)
(** The network layer of the kernel (os/src/net): the set of library sockets, the table
    of listening ports, the interface that is polled, and the TCP and UDP sockets on top.

    The library (smoltcp) is a class: its TCP and UDP sockets, the set's choice of an
    index, the packets that arrive and what they do to the sockets.  A socket operation
    that suspends is a loop with fuel; out of fuel, it is still waiting. *)

From S2P Require Import Prelude Errno Wait NetAddr.

#[local] Open Scope Z_scope.

(** ** The library *)

Inductive TcpState :=
  StClosed | StListen | StSynSent | StSynReceived | StEstablished | StFinWait1 | StFinWait2
| StCloseWait | StClosing | StLastAck | StTimeWait.

Inductive ConnectError := ConnInvalidState | ConnUnaddressable.
Inductive BindError := BindInvalidState | BindUnaddressable.
Inductive SendError := SendBufferFull | SendUnaddressable.

(** Wakers are the numbers of the tasks they wake. *)
Class SmolTcp (T U E : Type) := {
  t_new : T;
  t_state : T -> TcpState;
  t_local : T -> option IpEndpoint;
  t_remote : T -> option IpEndpoint;
  t_connect : E -> T -> IpEndpoint -> IpListenEndpoint -> result T ConnectError;
  t_listen : T -> IpListenEndpoint -> option T;
  t_close : T -> T;
  t_active : T -> bool;
  t_may_send : T -> bool;
  t_can_send : T -> bool;
  t_may_recv : T -> bool;
  t_can_recv : T -> bool;
  t_recv_queue : T -> Z;
  t_send : T -> list Z -> option (Z * T);
  t_recv : T -> Z -> option (list Z * T);
  t_send_waker : T -> nat -> T;
  t_recv_waker : T -> nat -> T;
  u_new : U;
  u_bind : U -> IpListenEndpoint -> result U BindError;
  u_close : U -> U;
  u_open : U -> bool;
  u_can_send : U -> bool;
  u_can_recv : U -> bool;
  u_send : U -> list Z -> IpEndpoint -> result U SendError;
  u_recv : U -> Z -> option (list Z * IpEndpoint) * U;
  u_send_waker : U -> nat -> U;
  u_recv_waker : U -> nat -> U;
  (** The index the set gives a new socket. *)
  s_index : gset nat -> nat;
  (** The frames that wait at the device; the effect of one, and of sending what the
      sockets have, on the sockets, with the tasks that are woken. *)
  e_frames : E -> list (list Z) * E;
  e_process : E -> list Z -> gmap nat (T + U) -> gmap nat (T + U) * list nat * E;
  e_egress : E -> gmap nat (T + U) -> gmap nat (T + U) * list nat * E;
  (** [None]: not a well-formed packet; then the endpoints, SYN and ACK of TCP. *)
  e_wire : list Z -> option (option (IpEndpoint * IpEndpoint * bool * bool));
  (** Microseconds: until the sockets want to be polled, and the clock. *)
  e_delay : E -> gmap nat (T + U) -> option Z;
  e_now : E -> Z;
  (** A task that suspended runs again; whether it has a signal. *)
  e_resume : E -> bool * E }.

(** ** The state *)

Definition LISTEN_QUEUE_SIZE : nat := 512.
Definition PORT_START : Z := 0xc000.
Definition PORT_END : Z := 0xffff.

Record ListenEntry := mkEntry { li_endpoint : IpListenEndpoint; li_syn : list nat; li_waker : nat }.

Inductive SocketState := Closed | Busy | Connecting | Connected | Listening.

#[export] Instance SocketState_eq : EqDecision SocketState.
Proof. solve_decision. Defined.

Record TcpSocket := mkTcp {
  tc_state : SocketState;
  tc_handle : option nat;
  tc_local : option IpEndpoint;
  tc_remote : option IpEndpoint;
  tc_nonblock : bool;
  tc_shutdown : Z;
}.

Definition tcp_new_without_handle : TcpSocket :=
  mkTcp Closed None (Some ZERO_IPV4_ENDPOINT) (Some ZERO_IPV4_ENDPOINT) false 0.
Definition tcp_new_connected (h : nat) (local remote : IpEndpoint) : TcpSocket :=
  mkTcp Connected (Some h) (Some local) (Some remote) false 0.

Definition tcp_set_state (t : TcpSocket) (s : SocketState) : TcpSocket :=
  mkTcp s (tc_handle t) (tc_local t) (tc_remote t) (tc_nonblock t) (tc_shutdown t).
Definition set_handle (t : TcpSocket) (h : nat) : TcpSocket :=
  mkTcp (tc_state t) (Some h) (tc_local t) (tc_remote t) (tc_nonblock t) (tc_shutdown t).
Definition set_local (t : TcpSocket) (e : IpEndpoint) : TcpSocket :=
  mkTcp (tc_state t) (tc_handle t) (Some e) (tc_remote t) (tc_nonblock t) (tc_shutdown t).
Definition set_remote (t : TcpSocket) (e : IpEndpoint) : TcpSocket :=
  mkTcp (tc_state t) (tc_handle t) (tc_local t) (Some e) (tc_nonblock t) (tc_shutdown t).
Definition set_nonblock (t : TcpSocket) (b : bool) : TcpSocket :=
  mkTcp (tc_state t) (tc_handle t) (tc_local t) (tc_remote t) b (tc_shutdown t).
Definition set_shutdown (t : TcpSocket) (f : Z) : TcpSocket :=
  mkTcp (tc_state t) (tc_handle t) (tc_local t) (tc_remote t) (tc_nonblock t) f.

Record UdpSocket := mkUdp {
  ud_handle : nat;
  ud_local : option IpListenEndpoint;
  ud_peer : option IpEndpoint;
  ud_nonblock : bool;
}.

Inductive Sock := TCP (t : TcpSocket) | UDP (u : UdpSocket).

Record PollState := mkPoll { ps_readable : bool; ps_writable : bool; ps_hangup : bool }.

Section Net.
Context {T U E : Type} {ST : SmolTcp T U E}.

(** The sockets of the kernel have numbers; [n_task] is the task that runs. *)
Record Net := mkNet {
  n_env : E;
  n_set : gmap nat (T + U);
  n_curr : Z;
  n_udp_curr : Z;
  n_listen : gmap Z ListenEntry;
  n_ports : gmap Z (nat * IpListenEndpoint);
  n_socks : gmap nat Sock;
  n_task : nat;
  n_woken : list nat;
  n_timers : list Z;
}.

Definition with_env (n : Net) (e : E) : Net :=
  mkNet e (n_set n) (n_curr n) (n_udp_curr n) (n_listen n) (n_ports n) (n_socks n) (n_task n) (n_woken n) (n_timers n).
Definition with_set (n : Net) (s : gmap nat (T + U)) : Net :=
  mkNet (n_env n) s (n_curr n) (n_udp_curr n) (n_listen n) (n_ports n) (n_socks n) (n_task n) (n_woken n) (n_timers n).
Definition with_curr (n : Net) (p : Z) : Net :=
  mkNet (n_env n) (n_set n) p (n_udp_curr n) (n_listen n) (n_ports n) (n_socks n) (n_task n) (n_woken n) (n_timers n).
Definition with_udp_curr (n : Net) (p : Z) : Net :=
  mkNet (n_env n) (n_set n) (n_curr n) p (n_listen n) (n_ports n) (n_socks n) (n_task n) (n_woken n) (n_timers n).
Definition with_listen (n : Net) (l : gmap Z ListenEntry) : Net :=
  mkNet (n_env n) (n_set n) (n_curr n) (n_udp_curr n) l (n_ports n) (n_socks n) (n_task n) (n_woken n) (n_timers n).
Definition with_ports (n : Net) (p : gmap Z (nat * IpListenEndpoint)) : Net :=
  mkNet (n_env n) (n_set n) (n_curr n) (n_udp_curr n) (n_listen n) p (n_socks n) (n_task n) (n_woken n) (n_timers n).
Definition with_socks (n : Net) (s : gmap nat Sock) : Net :=
  mkNet (n_env n) (n_set n) (n_curr n) (n_udp_curr n) (n_listen n) (n_ports n) s (n_task n) (n_woken n) (n_timers n).
Definition wake_tasks (n : Net) (ws : list nat) : Net :=
  mkNet (n_env n) (n_set n) (n_curr n) (n_udp_curr n) (n_listen n) (n_ports n) (n_socks n) (n_task n) (n_woken n ++ ws) (n_timers n).
Definition net_add_timer (n : Net) (t : Z) : Net :=
  mkNet (n_env n) (n_set n) (n_curr n) (n_udp_curr n) (n_listen n) (n_ports n) (n_socks n) (n_task n) (n_woken n) (n_timers n ++ [t]).

#[local] Abbreviation ncall := (wcall Net).

(** ** The socket set *)

Definition add_socket (s : T + U) : ncall nat := fun n =>
  let h := s_index (dom (n_set n)) in Ret (Done (Ok h), with_set n (<[h := s]> (n_set n))).

(** The library panics on an index that is free or of the other kind. *)
Definition with_tcp {A} (h : nat) (f : T -> result A SysError * T) : ncall A := fun n =>
  match n_set n !! h with
  | Some (inl t) => let r := f t in Ret (Done r.1, with_set n (<[h := inl r.2]> (n_set n)))
  | _ => Panic
  end.

Definition with_udp {A} (h : nat) (f : U -> result A SysError * U) : ncall A := fun n =>
  match n_set n !! h with
  | Some (inr u) => let r := f u in Ret (Done r.1, with_set n (<[h := inr r.2]> (n_set n)))
  | _ => Panic
  end.

Definition set_remove (h : nat) : ncall unit := fun n =>
  match n_set n !! h with Some _ => Ret (Done (Ok tt), with_set n (delete h (n_set n))) | None => Panic end.

Fixpoint remove_all (hs : list nat) : ncall unit :=
  match hs with [] => nret tt | h :: hs => let@ _ := set_remove h in remove_all hs end.

(** ** Ports *)

Definition next_port (curr : Z) : Z := if curr =? PORT_END then PORT_START else curr + 1.

Definition get_ephemeral_port : ncall Z := fun n => Ret (Done (Ok (n_curr n)), with_curr n (next_port (n_curr n))).
Definition udp_ephemeral_port : ncall Z := fun n => Ret (Done (Ok (n_udp_curr n)), with_udp_curr n (next_port (n_udp_curr n))).

(** ** The listen table *)

(** [v6.is_ipv4_mapped()] and the octets of the IPv4 address in it. *)
Definition ipv4_mapped (o : list Z) : bool := bool_decide (take 12 o = [0; 0; 0; 0; 0; 0; 0; 0; 0; 0; 255; 255]).

Definition entry_can_accept (e : ListenEntry) (dst : IpAddress) : bool :=
  match le_addr (li_endpoint e) with
  | Some addr =>
      if bool_decide (addr = dst) then true
      else match addr with
           | Ipv6 o => ip_unspecified addr || ((length (octets dst) =? 4)%nat && ipv4_mapped o && bool_decide (drop 12 o = octets dst))
           | Ipv4 _ => false
           end
  | None => true
  end.

Definition lt_listen (ep : IpListenEndpoint) (waker : nat) : ncall unit := fun n =>
  match n_listen n !! le_port ep with
  | None => Ret (Done (Ok tt), with_listen n (<[le_port ep := mkEntry ep [] waker]> (n_listen n)))
  | Some _ => Ret (Done (Err EADDRINUSE), n)
  end.

(** The entry goes: its task is woken and the connections in its queue are dropped. *)
Definition lt_unlisten (port : Z) : ncall unit := fun n =>
  match n_listen n !! port with
  | None => Ret (Done (Ok tt), n)
  | Some e => remove_all (li_syn e) (wake_tasks (with_listen n (delete port (n_listen n))) [li_waker e])
  end.

Definition is_connected (h : nat) : ncall bool :=
  with_tcp h (fun t => (Ok match t_state t with StListen | StSynReceived => false | _ => true end, t)).

Definition get_addr_tuple (h : nat) : ncall (IpEndpoint * IpEndpoint) := fun n =>
  match n_set n !! h with
  | Some (inl t) => match t_local t, t_remote t with Some l, Some r => Ret (Done (Ok (l, r)), n) | _, _ => Panic end
  | _ => Panic
  end.

(** The first connected socket of a queue: its place, itself, and its endpoints. *)
Fixpoint find_connected (idx : nat) (q : list nat) : ncall (option (nat * nat * (IpEndpoint * IpEndpoint))) :=
  match q with
  | [] => nret None
  | h :: q =>
      let@ c := is_connected h in
      if c then let@ a := get_addr_tuple h in nret (Some (idx, h, a)) else find_connected (S idx) q
  end.

(** [VecDeque::swap_remove_front]: the first element takes the place of the one that
    goes. *)
Definition swap_remove_front (i : nat) (q : list nat) : list nat :=
  match q with [] => [] | x :: _ => drop 1 (<[i := x]> q) end.

Definition lt_accept (port : Z) : ncall (nat * (IpEndpoint * IpEndpoint)) :=
  let@ n := nget in
  match n_listen n !! port with
  | None => nerr EINVAL
  | Some e =>
      let@ r := find_connected 0 (li_syn e) in
      match r with
      | None => nerr EAGAIN
      | Some (idx, h, a) =>
          let@ _ := nput (fun n => with_listen n (<[port := mkEntry (li_endpoint e) (swap_remove_front idx (li_syn e)) (li_waker e)]> (n_listen n))) in
          nret (h, a)
      end
  end.

Fixpoint any_connected (q : list nat) : ncall bool :=
  match q with [] => nret false | h :: q => let@ c := is_connected h in if c then nret true else any_connected q end.

Definition lt_can_accept (port : Z) : ncall bool :=
  let@ n := nget in match n_listen n !! port with None => nret false | Some e => any_connected (li_syn e) end.

(** A SYN: a library socket that listens for it joins the queue. *)
Definition handle_coming_packet (dst : IpEndpoint) (n : Net) : Net :=
  match n_listen n !! ep_port dst with
  | None => n
  | Some e =>
      if negb (entry_can_accept e (ep_addr dst)) then n
      else if (LISTEN_QUEUE_SIZE <=? length (li_syn e))%nat then n
      else
        let n := wake_tasks n [li_waker e] in
        match t_listen t_new (li_endpoint e) with
        | None => n
        | Some t =>
            let h := s_index (dom (n_set n)) in
            let n := with_set n (<[h := inl t]> (n_set n)) in
            with_listen n (<[ep_port dst := mkEntry (li_endpoint e) (li_syn e ++ [h]) (li_waker e)]> (n_listen n))
        end
  end.

(** ** The interface *)

Definition modify_packet (buf : list Z) (n : Net) : Net :=
  match e_wire buf with
  | Some (Some (_, dst, syn, ack)) => if syn && negb ack then handle_coming_packet dst n else n
  | _ => n
  end.

Definition rx_frame (n : Net) (buf : list Z) : Net :=
  let n := modify_packet buf n in
  let '(s, ws, e) := e_process (n_env n) buf (n_set n) in wake_tasks (with_set (with_env n e) s) ws.

(** [iface.poll]: every frame that waits, then what the sockets send. *)
Definition iface_poll (n : Net) : Net :=
  let (frames, e) := e_frames (n_env n) in
  let n := foldl rx_frame (with_env n e) frames in
  let '(s, ws, e) := e_egress (n_env n) (n_set n) in wake_tasks (with_set (with_env n e) s) ws.

Definition poll_interfaces (n : Net) : Z * Net := let t := e_now (n_env n) in (t, iface_poll n).

Definition check_poll (timestamp : Z) (n : Net) : Net :=
  match e_delay (n_env n) (n_set n) with
  | Some delay =>
      if delay =? 0 then iface_poll n
      else if delay + timestamp <? e_now (n_env n) then iface_poll n
      else net_add_timer n (delay + timestamp)
  | None => net_add_timer n (e_now (n_env n) + 2000)
  end.

(** ** TCP sockets *)

Definition tcp_sock (o : nat) : ncall TcpSocket := fun n =>
  match n_socks n !! o with Some (TCP t) => Ret (Done (Ok t), n) | _ => Panic end.
Definition tcp_update (o : nat) (f : TcpSocket -> TcpSocket) : ncall unit := fun n =>
  match n_socks n !! o with
  | Some (TCP t) => Ret (Done (Ok tt), with_socks n (<[o := TCP (f t)]> (n_socks n)))
  | _ => Panic
  end.

(** [update_state]: [f] runs as the socket is busy; another state than the expected one
    is the answer [other]. *)
Definition update_state {A} (o : nat) (expect new : SocketState) (f : ncall A) (other : ncall A) : ncall A :=
  let@ t := tcp_sock o in
  if bool_decide (tc_state t = expect) then
    let@ _ := tcp_update o (fun t => tcp_set_state t Busy) in
    fun n =>
      let! r := f n in
      let s := match r.1 with Done (Ok _) => new | _ => expect end in
      let! u := tcp_update o (fun t => tcp_set_state t s) r.2 in
      Ret (r.1, u.2)
  else other.

(** The port, or a free one for port 0. *)
Definition port_or_free (port : Z) : ncall Z := if port =? 0 then get_ephemeral_port else nret port.

Definition robost_port_endpoint (o : nat) : ncall IpListenEndpoint :=
  let@ t := tcp_sock o in
  let@ local := nunwrap (tc_local t) in
  let@ port := port_or_free (ep_port local) in
  nret (mkListen (if ip_unspecified (ep_addr local) then None else Some (ep_addr local)) port).

(** [block_on]: polls around each try; [EAGAIN] suspends the task until it is woken,
    and a signal ends the wait. *)
Fixpoint block_loop {A} (fuel : nat) (f : ncall A) (n : Net) : outcome (reply A * Net) :=
  match fuel with
  | O => Ret (Waiting, n)
  | S fuel =>
      let (timestamp, n) := poll_interfaces n in
      let! r := f n in
      let n := check_poll timestamp r.2 in
      match r.1 with
      | Done (Err EAGAIN) =>
          let (has_signal, e) := e_resume (n_env n) in
          if has_signal then Ret (Done (Err EINTR), with_env n e) else block_loop fuel f (with_env n e)
      | res => Ret (res, n)
      end
  end.

Definition block_on {A} (fuel : nat) (nonblock : bool) (f : ncall A) : ncall A := if nonblock then f else block_loop fuel f.

(** Whether the connection is decided. *)
Definition poll_connect (o : nat) : ncall bool :=
  let@ t := tcp_sock o in
  let@ h := nunwrap (tc_handle t) in
  let@ n := nget in
  let@ st := with_tcp h (fun s => (Ok (t_state s), match t_state s with StSynSent => t_recv_waker s (n_task n) | _ => s end)) in
  match st with
  | StSynSent => nret false
  | StEstablished => let@ _ := tcp_update o (fun t => tcp_set_state t Connected) in nret true
  | _ =>
      let@ _ := tcp_update o (fun t => tcp_set_state (set_remote (set_local t ZERO_IPV4_ENDPOINT) ZERO_IPV4_ENDPOINT) Closed) in
      nret true
  end.

(** The first part of [connect], up to the state [Connecting]; [connect_inner] is what
    it does while busy. *)
Definition connect_with (o h : nat) (addr : IpEndpoint) : ncall unit :=
  let@ ep := robost_port_endpoint o in
  let@ n := nget in
  let@ es := with_tcp h (fun s =>
    match t_connect (n_env n) s addr ep with
    | Ok s => (Ok (t_local s, t_remote s), s)
    | Err ConnInvalidState => (Err EBADF, s)
    | Err ConnUnaddressable => (Err EADDRNOTAVAIL, s)
    end) in
  let@ local := nunwrap es.1 in
  let@ _ := tcp_update o (fun t => set_local t local) in
  let@ remote := nunwrap es.2 in
  let@ _ := tcp_update o (fun t => set_remote t remote) in
  tcp_update o (fun t => set_handle t h).

Definition connect_inner (o : nat) (addr : IpEndpoint) : ncall unit :=
  let@ t := tcp_sock o in
  match tc_handle t with
  | Some h => connect_with o h addr
  | None => let@ h := add_socket (inl t_new) in connect_with o h addr
  end.

Definition connect_start (o : nat) (addr : IpEndpoint) : ncall unit :=
  update_state o Closed Connecting (connect_inner o addr) (nerr EEXIST).

(** One round of the wait of [connect]. *)
Definition connect_try (o : nat) : ncall unit :=
  let@ decided := poll_connect o in
  if decided then
    let@ t := tcp_sock o in
    if bool_decide (tc_state t = Connected) then nret tt else nerr ECONNREFUSED
  else nerr EAGAIN.

Definition tcp_connect (fuel : nat) (o : nat) (addr : IpEndpoint) : ncall unit :=
  let@ _ := connect_start o addr in
  let@ t := tcp_sock o in
  if tc_nonblock t then nerr EINPROGRESS else block_on fuel (tc_nonblock t) (connect_try o).

Definition bind_inner (o : nat) (ep : IpEndpoint) : ncall unit :=
  let@ port := port_or_free (ep_port ep) in
  let@ t := tcp_sock o in
  let@ old := nunwrap (tc_local t) in
  if bool_decide (old = ZERO_IPV4_ENDPOINT) then
    let addr := match ep_addr ep with Ipv6 _ => if ip_unspecified (ep_addr ep) then ZERO_IPV4_ADDR else ep_addr ep | a => a end in
    tcp_update o (fun t => set_local t (mkEndpoint addr port))
  else nerr EINVAL.

Definition tcp_bind (o : nat) (ep : IpEndpoint) : ncall unit := update_state o Closed Closed (bind_inner o ep) (nerr EINVAL).

Definition listen_inner (o : nat) : ncall unit :=
  let@ ep := robost_port_endpoint o in
  let@ t := tcp_sock o in
  let@ local := nunwrap (tc_local t) in
  let@ _ := tcp_update o (fun t => set_local t (mkEndpoint (ep_addr local) (le_port ep))) in
  let@ n := nget in
  lt_listen ep (n_task n).

Definition tcp_listen (o : nat) : ncall unit := update_state o Closed Listening (listen_inner o) (nret tt).

Definition tcp_peer_addr (o : nat) : ncall IpEndpoint :=
  let@ t := tcp_sock o in
  match tc_state t with Connected | Listening => nunwrap (tc_remote t) | _ => nerr ENOTCONN end.

Definition tcp_local_addr (o : nat) : ncall IpEndpoint :=
  let@ t := tcp_sock o in
  match tc_state t with Connected | Listening | Closed => nunwrap (tc_local t) | _ => nerr ENOTCONN end.

Definition RCV_SHUTDOWN : Z := 1.
Definition SEND_SHUTDOWN : Z := 2.
Definition SHUTDOWN_MASK : Z := 3.

Definition send_try (h : nat) (data : list Z) : ncall Z :=
  let@ n := nget in
  with_tcp h (fun s =>
    if negb (t_active s) || negb (t_may_send s) then (Err ECONNRESET, s)
    else if t_can_send s then
      match t_send s data with Some (len, s) => (Ok len, s) | None => (Err EBADF, s) end
    else (Err EAGAIN, t_send_waker s (n_task n))).

Definition tcp_send (fuel : nat) (o : nat) (data : list Z) : ncall Z :=
  let@ t := tcp_sock o in
  if intersects (tc_shutdown t) SEND_SHUTDOWN then nret 0
  else if bool_decide (tc_state t = Connecting) then nerr EAGAIN
  else if negb (bool_decide (tc_state t = Connected)) && (tc_shutdown t =? 0) then nerr ENOTCONN
  else
    let@ h := nunwrap (tc_handle t) in
    fun n => let! r := block_on fuel (tc_nonblock t) (send_try h data) n in
             match r.1 with Waiting => Ret r | _ => Ret (r.1, (poll_interfaces r.2).2) end.

Definition recv_try (h : nat) (len : Z) (peer : IpEndpoint) : ncall (list Z * IpEndpoint) :=
  let@ n := nget in
  with_tcp h (fun s =>
    if negb (t_active s) then (Err ECONNREFUSED, s)
    else if negb (t_may_recv s) then (Ok ([], peer), s)
    else if 0 <? t_recv_queue s then
      match t_recv s len with Some (data, s) => (Ok (data, peer), s) | None => (Err EBADF, s) end
    else (Err EAGAIN, t_recv_waker s (n_task n))).

(** The bytes received, and from whom. *)
Definition tcp_recv (fuel : nat) (o : nat) (len : Z) : ncall (list Z * IpEndpoint) :=
  let@ t := tcp_sock o in
  if intersects (tc_shutdown t) RCV_SHUTDOWN then let@ peer := tcp_peer_addr o in nret ([], peer)
  else if bool_decide (tc_state t = Connecting) then nerr EAGAIN
  else if negb (bool_decide (tc_state t = Connected)) && (tc_shutdown t =? 0) then nerr ENOTCONN
  else
    let@ peer := tcp_peer_addr o in
    let@ h := nunwrap (tc_handle t) in
    block_on fuel (tc_nonblock t) (recv_try h len peer).

Definition poll_and_check : ncall unit := nput (fun n => let (t, n) := poll_interfaces n in check_poll t n).

Definition SHUTRD : Z := 0.
Definition SHUTWR : Z := 1.
Definition SHUTRDWR : Z := 2.

Definition shutdown_flag (how : Z) : option Z :=
  if how =? SHUTRD then Some RCV_SHUTDOWN else if how =? SHUTWR then Some SEND_SHUTDOWN
  else if how =? SHUTRDWR then Some SHUTDOWN_MASK else None.

Definition close_stream (o : nat) : ncall unit :=
  let@ t := tcp_sock o in
  let@ h := nunwrap (tc_handle t) in
  let@ _ := with_tcp h (fun s => (Ok tt, t_close s)) in
  poll_and_check.

Definition close_listener (o : nat) : ncall unit :=
  let@ t := tcp_sock o in
  let@ local := nunwrap (tc_local t) in
  let@ _ := tcp_update o (fun t => set_local t ZERO_IPV4_ENDPOINT) in
  let@ _ := lt_unlisten (ep_port local) in
  poll_and_check.

Definition tcp_do_shutdown (o : nat) (how : Z) : ncall unit :=
  match shutdown_flag how with
  | None => nerr EINVAL
  | Some f =>
      let@ _ := tcp_update o (fun t => set_shutdown t (Z.lor (tc_shutdown t) f)) in
      let@ _ := update_state o Connected Closed (close_stream o) (nret tt) in
      update_state o Listening Closed (close_listener o) (nret tt)
  end.

Definition accept_try (port : Z) : ncall TcpSocket := let@ r := lt_accept port in nret (tcp_new_connected r.1 r.2.1 r.2.2).

Definition tcp_accept (fuel : nat) (o : nat) : ncall TcpSocket :=
  let@ t := tcp_sock o in
  if bool_decide (tc_state t = Listening) then
    let@ local := nunwrap (tc_local t) in
    block_on fuel (tc_nonblock t) (accept_try (ep_port local))
  else nerr EINVAL.

Definition poll_stream (h : nat) : ncall PollState :=
  let@ n := nget in
  with_tcp h (fun s =>
    let readable := negb (t_may_recv s) || t_can_recv s in
    let writable := negb (t_may_send s) || t_can_send s in
    let s := if readable then s else t_recv_waker s (n_task n) in
    let s := if writable then s else t_send_waker s (n_task n) in
    (Ok (mkPoll readable writable false), s)).

Definition poll_closed (t : TcpSocket) : ncall bool :=
  match tc_handle t with
  | Some h => with_tcp h (fun s => (Ok match t_state s with StCloseWait | StFinWait2 | StTimeWait => true | _ => false end, s))
  | None => nret false
  end.

Definition tcp_poll (o : nat) : ncall PollState :=
  let@ t := tcp_sock o in
  match tc_state t with
  | Connecting => let@ w := poll_connect o in nret (mkPoll false w false)
  | Closed => let@ h := poll_closed t in nret (mkPoll false false h)
  | Busy => nret (mkPoll false false false)
  | Connected => let@ h := nunwrap (tc_handle t) in poll_stream h
  | Listening =>
      let@ local := tcp_local_addr o in
      let@ r := lt_can_accept (ep_port local) in
      nret (mkPoll r false false)
  end.

(** ** UDP sockets *)

Definition udp_sock (o : nat) : ncall UdpSocket := fun n =>
  match n_socks n !! o with Some (UDP u) => Ret (Done (Ok u), n) | _ => Panic end.
Definition udp_update (o : nat) (f : UdpSocket -> UdpSocket) : ncall unit := fun n =>
  match n_socks n !! o with
  | Some (UDP u) => Ret (Done (Ok tt), with_socks n (<[o := UDP (f u)]> (n_socks n)))
  | _ => Panic
  end.

Definition udp_new : ncall UdpSocket :=
  let@ h := add_socket (inr u_new) in nret (mkUdp h None None false).

Definition udp_bind (o : nat) (ep : IpListenEndpoint) : ncall unit :=
  let@ port := if le_port ep =? 0 then udp_ephemeral_port else nret (le_port ep) in
  let ep := mkListen (le_addr ep) port in
  let@ u := udp_sock o in
  match ud_local u with
  | Some _ => nerr EINVAL
  | None =>
      let@ _ := with_udp (ud_handle u) (fun s =>
        match u_bind s ep with
        | Ok s => (Ok tt, s)
        | Err BindInvalidState => (Err EEXIST, s)
        | Err BindUnaddressable => (Err EINVAL, s)
        end) in
      udp_update o (fun u => mkUdp (ud_handle u) (Some ep) (ud_peer u) (ud_nonblock u))
  end.

(** The descriptor to use instead when the port is bound to the same address. *)
Definition bind_check (fd : nat) (ep : IpListenEndpoint) : ncall (option nat) :=
  let@ n := nget in
  let reuse := '(used, prev) ← n_ports n !! le_port ep; if bool_decide (ep = prev) then Some used else None in
  match reuse with
  | Some used => nret (Some used)
  | None =>
      let@ port := if le_port ep =? 0 then udp_ephemeral_port else nret (le_port ep) in
      let@ _ := nput (fun n => with_ports n (<[port := (fd, mkListen (le_addr ep) port)]> (n_ports n))) in
      nret None
  end.

(** Bound to any address and a free port, if not bound yet. *)
Definition udp_bind_any (o : nat) : ncall unit :=
  let@ u := udp_sock o in
  match ud_local u with None => udp_bind o UNSPECIFIED_LISTEN_ENDPOINT | Some _ => nret tt end.

Definition udp_connect (o : nat) (addr : IpEndpoint) : ncall unit :=
  let@ _ := udp_bind_any o in
  udp_update o (fun u => mkUdp (ud_handle u) (ud_local u) (Some addr) (ud_nonblock u)).

Definition udp_peer_addr (o : nat) : ncall IpEndpoint :=
  let@ u := udp_sock o in match ud_peer u with Some e => nret e | None => nerr ENOTCONN end.
Definition udp_local_addr (o : nat) : ncall IpEndpoint :=
  let@ u := udp_sock o in match ud_local u with Some e => nret (to_endpoint e) | None => nerr ENOTCONN end.

Definition udp_send_try (h : nat) (data : list Z) (remote : IpEndpoint) : ncall Z :=
  let@ n := nget in
  with_udp h (fun s =>
    if u_can_send s then
      match u_send s data remote with
      | Ok s => (Ok (Z.of_nat (length data)), s)
      | Err SendBufferFull => (Err EAGAIN, u_send_waker s (n_task n))
      | Err SendUnaddressable => (Err ECONNREFUSED, s)
      end
    else (Err EAGAIN, u_send_waker s (n_task n))).

Definition udp_send (fuel : nat) (o : nat) (data : list Z) : ncall Z :=
  let@ remote := udp_peer_addr o in
  let@ _ := udp_bind_any o in
  let@ u := udp_sock o in
  block_on fuel (ud_nonblock u) (udp_send_try (ud_handle u) data remote).

Definition udp_send_to (fuel : nat) (o : nat) (data : list Z) (remote : IpEndpoint) : ncall Z :=
  if (ep_port remote =? 0) || ip_unspecified (ep_addr remote) then nerr EINVAL
  else
    let@ _ := udp_bind_any o in
    let@ u := udp_sock o in
    block_on fuel (ud_nonblock u) (udp_send_try (ud_handle u) data remote).

Definition udp_recv_try (h : nat) (len : Z) : ncall (list Z * IpEndpoint) :=
  let@ n := nget in
  with_udp h (fun s =>
    if u_can_recv s then
      match u_recv s len with (Some r, s) => (Ok r, s) | (None, s) => (Err EAGAIN, s) end
    else if negb (u_open s) then (Err ENOTCONN, s)
    else (Err EAGAIN, u_recv_waker s (n_task n))).

Definition udp_recv (fuel : nat) (o : nat) (len : Z) : ncall (list Z * IpEndpoint) :=
  let@ u := udp_sock o in
  match ud_local u with
  | None => nerr ENOTCONN
  | Some _ => block_on fuel (ud_nonblock u) (udp_recv_try (ud_handle u) len)
  end.

Definition udp_shutdown (o : nat) : ncall unit :=
  let@ u := udp_sock o in
  let@ _ := with_udp (ud_handle u) (fun s => (Ok tt, u_close s)) in
  poll_and_check.

Definition udp_poll (o : nat) : ncall PollState :=
  let@ u := udp_sock o in
  match ud_local u with
  | None => nret (mkPoll false false false)
  | Some _ =>
      let@ n := nget in
      with_udp (ud_handle u) (fun s =>
        let readable := u_can_recv s in
        let writable := u_can_send s in
        let s := if readable then s else u_recv_waker s (n_task n) in
        let s := if writable then s else u_send_waker s (n_task n) in
        (Ok (mkPoll readable writable false), s))
  end.

(** ** Sockets of either kind *)

Definition sock (o : nat) : ncall Sock := let@ n := nget in nunwrap (n_socks n !! o).

Definition sock_connect (fuel : nat) (o : nat) (addr : IpEndpoint) : ncall unit :=
  let@ s := sock o in match s with TCP _ => tcp_connect fuel o addr | UDP _ => udp_connect o addr end.
Definition sock_listen (o : nat) : ncall unit :=
  let@ s := sock o in match s with TCP _ => tcp_listen o | UDP _ => nerr EOPNOTSUPP end.
Definition sock_set_nonblocking (o : nat) : ncall unit :=
  let@ s := sock o in
  match s with
  | TCP _ => tcp_update o (fun t => set_nonblock t true)
  | UDP _ => udp_update o (fun u => mkUdp (ud_handle u) (ud_local u) (ud_peer u) true)
  end.
Definition sock_peer_addr (o : nat) : ncall SockAddr :=
  let@ s := sock o in let@ e := match s with TCP _ => tcp_peer_addr o | UDP _ => udp_peer_addr o end in nret (from_endpoint e).
Definition sock_local_addr (o : nat) : ncall SockAddr :=
  let@ s := sock o in let@ e := match s with TCP _ => tcp_local_addr o | UDP _ => udp_local_addr o end in nret (from_endpoint e).
Definition sock_send (fuel : nat) (o : nat) (data : list Z) (remote : option IpEndpoint) : ncall Z :=
  let@ s := sock o in
  match s with
  | TCP _ => tcp_send fuel o data
  | UDP _ => match remote with Some a => udp_send_to fuel o data a | None => udp_send fuel o data end
  end.
Definition sock_recv (fuel : nat) (o : nat) (len : Z) : ncall (list Z * IpEndpoint) :=
  let@ s := sock o in match s with TCP _ => tcp_recv fuel o len | UDP _ => udp_recv fuel o len end.
Definition sock_shutdown (o : nat) (how : Z) : ncall unit :=
  let@ s := sock o in match s with TCP _ => tcp_do_shutdown o how | UDP _ => udp_shutdown o end.
Definition sock_poll (o : nat) : ncall PollState :=
  let@ s := sock o in match s with TCP _ => tcp_poll o | UDP _ => udp_poll o end.
Definition sock_accept (fuel : nat) (o : nat) : ncall TcpSocket :=
  let@ s := sock o in match s with TCP _ => tcp_accept fuel o | UDP _ => nerr EOPNOTSUPP end.

(** [Drop]: the result of [shutdown] is not looked at. *)
Definition drop_result {A} (m : ncall A) : ncall unit := fun n => let! r := m n in Ret (Done (Ok tt), r.2).

Definition sock_drop (o : nat) : ncall unit :=
  let@ s := sock o in
  let@ _ := match s with
    | TCP _ =>
        let@ _ := drop_result (tcp_do_shutdown o SHUTRDWR) in
        let@ t := tcp_sock o in
        match tc_handle t with Some h => set_remove h | None => nret tt end
    | UDP u =>
        let@ _ := drop_result (udp_shutdown o) in
        let@ _ := set_remove (ud_handle u) in
        match ud_local u with Some e => nput (fun n => with_ports n (delete (le_port e) (n_ports n))) | None => nret tt end
    end in
  nput (fun n => with_socks n (delete o (n_socks n))).

(** The file operations of a socket. *)
Definition POLLIN : Z := 1.
Definition POLLOUT : Z := 4.
Definition POLLHUP : Z := 16.

Definition socket_base_poll (o : nat) (events : Z) : ncall Z :=
  let@ _ := nput (fun n => (poll_interfaces n).2) in
  let@ p := sock_poll o in
  let res := if contains events POLLIN && ps_readable p then POLLIN else 0 in
  let res := if contains events POLLOUT && ps_writable p then Z.lor res POLLOUT else res in
  nret (if ps_hangup p then Z.lor res POLLHUP else res).

Definition socket_read (fuel : nat) (o : nat) (len : Z) : ncall (list Z) :=
  if len =? 0 then nret [] else let@ r := sock_recv fuel o len in nret r.1.
Definition socket_write (fuel : nat) (o : nat) (buf : list Z) : ncall Z :=
  match buf with [] => nret 0 | _ => sock_send fuel o buf None end.

End Net.
Arguments Net : clear implicits.
