(* ===== verification/NetProofs.v ===== *)
(** Every socket of the kernel, and every connection that waits to be accepted, has a
    library socket of its own that is alive: the invariant, and that the operations keep
    it and panic only where they are said to. *)

From S2P Require Import Prelude Errno Wait NetAddr Net.

#[local] Open Scope Z_scope.

(** Documented behaviour of the library: a new index is a free one, packets neither make
    nor destroy sockets, a socket that connects has both endpoints. *)
Definition kind {T U : Type} (s : gmap nat (T + U)) (h : nat) : option bool :=
  (fun x => match x with inl _ => true | inr _ => false end) <$> s !! h.

Class SmolLaws (T U E : Type) {ST : SmolTcp T U E} := {
  s_index_fresh X : s_index X ∉ X;
  e_process_kind e f s h : kind (e_process e f s).1.1 h = kind s h;
  e_egress_kind e s h : kind (e_egress e s).1.1 h = kind s h;
  t_connect_ends e s a ep s' : t_connect e s a ep = Ok s' -> is_Some (t_local s') /\ is_Some (t_remote s') }.

(** Who has a library socket: a socket of the kernel, or a place in a queue. *)
Inductive owner := OSock (o : nat) | OSyn (p : Z) (i : nat).

#[export] Instance owner_eq : EqDecision owner.
Proof. solve_decision. Defined.

Create HintDb keeps.

Section Proofs.
Context {T U E : Type} {ST : SmolTcp T U E} {SL : SmolLaws T U E}.
Implicit Types n : Net T U E.

(** ** The invariant *)

Definition sock_owned n (w : owner) : option (bool * nat) :=
  match w with
  | OSock o =>
      match n_socks n !! o with
      | Some (TCP t) => pair true <$> tc_handle t
      | Some (UDP u) => Some (false, ud_handle u)
      | None => None
      end
  | OSyn p i => e ← n_listen n !! p; pair true <$> li_syn e !! i
  end.

Definition tcp_ok n (t : TcpSocket) : Prop :=
  is_Some (tc_local t) /\ is_Some (tc_remote t) /\
  (tc_state t = Connecting \/ tc_state t = Connected -> is_Some (tc_handle t)) /\
  (tc_state t = Listening -> exists l, tc_local t = Some l /\ is_Some (n_listen n !! ep_port l)).

Record net_ok n : Prop := {
  ok_alive w k h : sock_owned n w = Some (k, h) -> kind (n_set n) h = Some k;
  ok_unique w1 w2 k1 k2 h : sock_owned n w1 = Some (k1, h) -> sock_owned n w2 = Some (k2, h) -> w1 = w2;
  ok_tcp o t : n_socks n !! o = Some (TCP t) -> tcp_ok n t;
  ok_listeners o1 t1 o2 t2 l1 l2 : n_socks n !! o1 = Some (TCP t1) -> n_socks n !! o2 = Some (TCP t2) ->
    tc_state t1 = Listening -> tc_state t2 = Listening -> tc_local t1 = Some l1 -> tc_local t2 = Some l2 ->
    ep_port l1 = ep_port l2 -> o1 = o2;
  ok_queue p e : n_listen n !! p = Some e -> (length (li_syn e) <= LISTEN_QUEUE_SIZE)%nat /\ le_port (li_endpoint e) = p }.

(** Changes outside of what the invariant speaks of. *)
Lemma ok_same n n' : net_ok n -> (forall h, kind (n_set n') h = kind (n_set n) h) -> n_listen n' = n_listen n -> n_socks n' = n_socks n -> net_ok n'.
Proof.
  intros [Ha Hu Ht Hl Hq] Hk El Es.
  assert (Eo : forall w, sock_owned n' w = sock_owned n w) by (intros []; cbn; by rewrite ?El, ?Es).
  constructor; intros *; rewrite ?Eo, ?Hk, ?Es, ?El; eauto. intros E1. specialize (Ht _ _ E1). unfold tcp_ok in *. by rewrite El.
Qed.

Lemma kind_insert (s : gmap nat (T + U)) h x h' : kind s h = kind (<[h := x]> s) h -> kind (<[h := x]> s) h' = kind s h'.
Proof. intros H. destruct (decide (h = h')) as [->|Hne]; [done|]. unfold kind. by rewrite lookup_insert_ne. Qed.

Lemma kind_insert_ne (s : gmap nat (T + U)) h x h' : h <> h' -> kind (<[h := x]> s) h' = kind s h'.
Proof. intros. unfold kind. by rewrite lookup_insert_ne. Qed.

Lemma kind_index (s : gmap nat (T + U)) : kind s (s_index (dom s)) = None.
Proof. pose proof (s_index_fresh (dom s)) as H. apply not_elem_of_dom in H. unfold kind. by rewrite H. Qed.

(** ** Packets *)

Lemma handle_packet_ok dst n : net_ok n -> net_ok (handle_coming_packet dst n) /\ n_socks (handle_coming_packet dst n) = n_socks n.
Proof.
  intros Hok. unfold handle_coming_packet. destruct (n_listen n !! ep_port dst) as [e|] eqn:Ee; [|done].
  destruct (negb _); [done|]. destruct (Nat.leb_spec LISTEN_QUEUE_SIZE (length (li_syn e))) as [|Hlt]; [done|].
  assert (Hw : net_ok (wake_tasks n [li_waker e])) by by apply (ok_same n).
  destruct (t_listen _ _) as [t|]; [|done]. split; [|done]. cbn.
  set (h := s_index (dom (n_set n))). set (e' := mkEntry (li_endpoint e) (li_syn e ++ [h]) (li_waker e)).
  pose proof (kind_index (n_set n)) as Hf. fold h in Hf. destruct Hok as [Ha Hu Ht Hl Hq].
  set (n' := with_listen _ _).
  assert (Eo : forall w, sock_owned n' w = if decide (w = OSyn (ep_port dst) (length (li_syn e))) then Some (true, h) else sock_owned n w).
  { intros [o|p i]; cbn; [by case_decide|]. destruct (decide (p = ep_port dst)) as [->|Hp].
    - rewrite lookup_insert_eq, Ee. cbn. destruct (decide (i = length (li_syn e))) as [->|Hi].
      + rewrite decide_True by done. by rewrite lookup_app_r, Nat.sub_diag by lia.
      + rewrite decide_False by congruence. destruct (decide (i < length (li_syn e))%nat); [by rewrite lookup_app_l|].
        rewrite !(lookup_ge_None_2) by (rewrite ?length_app; cbn; lia). done.
    - rewrite lookup_insert_ne by done. rewrite decide_False by congruence. done. }
  assert (Hne : forall w k, sock_owned n w = Some (k, h) -> False) by (intros w k E1; apply Ha in E1; congruence).
  constructor; intros *; rewrite ?Eo; cbn.
  - case_decide; intros; simplify_eq; [unfold kind; by rewrite lookup_insert_eq|]. rewrite kind_insert_ne; [eauto|]. intros ->. eauto.
  - repeat case_decide; intros; simplify_eq; try done; [exfalso; eauto|exfalso; eauto|eauto].
  - intros E1. destruct (Ht _ _ E1) as (?&?&?&Hli). split_and!; try done. intros Hs. destruct (Hli Hs) as (l & El & Hx). exists l. split; [done|].
    cbn. destruct (decide (ep_port l = ep_port dst)) as [->|]; [by rewrite lookup_insert_eq|]. by rewrite lookup_insert_ne.
  - apply Hl.
  - destruct (decide (p = ep_port dst)) as [->|]; [|rewrite lookup_insert_ne by done; apply Hq]. rewrite lookup_insert_eq. intros [= <-].
    cbn. rewrite length_app. cbn. destruct (Hq _ _ Ee). split; [lia|done].
Qed.

Lemma rx_frame_ok n buf : net_ok n -> net_ok (rx_frame n buf) /\ n_socks (rx_frame n buf) = n_socks n.
Proof.
  intros Hok. unfold rx_frame.
  assert (Hm : net_ok (modify_packet buf n) /\ n_socks (modify_packet buf n) = n_socks n).
  { unfold modify_packet. repeat case_match; try done. by apply handle_packet_ok. }
  destruct Hm as [Hm Es]. pose proof (e_process_kind (n_env (modify_packet buf n)) buf (n_set (modify_packet buf n))) as Hk.
  destruct (e_process _ _ _) as [[s ws] e]. cbn in Hk. split; [|done]. by apply (ok_same (modify_packet buf n)).
Qed.

Lemma iface_poll_ok n : net_ok n -> net_ok (iface_poll n) /\ n_socks (iface_poll n) = n_socks n.
Proof.
  intros Hok. unfold iface_poll. destruct (e_frames (n_env n)) as [fs e].
  assert (Hf : forall n0, net_ok n0 -> net_ok (foldl rx_frame n0 fs) /\ n_socks (foldl rx_frame n0 fs) = n_socks n0).
  { clear n Hok. induction fs as [|f fs IH]; intros n Hn; [done|]. cbn. destruct (rx_frame_ok n f Hn) as [H1 E1]. destruct (IH _ H1) as [H2 E2].
    split; [done|congruence]. }
  destruct (Hf (with_env n e)) as [H1 E1]; [by apply (ok_same n)|]. set (n1 := foldl _ _ _) in *.
  pose proof (e_egress_kind (n_env n1) (n_set n1)) as Hk. destruct (e_egress _ _) as [[s ws] e1]. cbn in Hk.
  split; [|done]. by apply (ok_same n1).
Qed.

Lemma check_poll_ok t n : net_ok n -> net_ok (check_poll t n) /\ n_socks (check_poll t n) = n_socks n.
Proof.
  intros Hok. unfold check_poll. repeat case_match; try by apply iface_poll_ok.
  all: split; [by apply (ok_same n)|done].
Qed.

(** ** One TCP socket *)

(** What a socket may become with the same library socket: it listens only if it did, on
    the same port. *)
Lemma put_tcp_ok n o t t' : net_ok n -> n_socks n !! o = Some (TCP t) -> tc_handle t' = tc_handle t -> tcp_ok n t' ->
  (tc_state t' = Listening -> tc_state t = Listening /\ tc_local t' = tc_local t) ->
  net_ok (with_socks n (<[o := TCP t']> (n_socks n))).
Proof.
  intros [Ha Hu Ht Hl Hq] Eo Eh Hok Hli. set (n' := with_socks _ _).
  assert (Ew : forall w, sock_owned n' w = sock_owned n w).
  { intros [o'|p i]; cbn; [|done]. destruct (decide (o = o')) as [<-|]; [by rewrite lookup_insert_eq, Eo, Eh|by rewrite lookup_insert_ne]. }
  assert (Hold : forall o1 t1, n_socks n' !! o1 = Some (TCP t1) -> tc_state t1 = Listening ->
    exists t0, n_socks n !! o1 = Some (TCP t0) /\ tc_state t0 = Listening /\ tc_local t0 = tc_local t1).
  { intros o1 t1. cbn. destruct (decide (o = o1)) as [<-|]; [|rewrite lookup_insert_ne by done; eauto].
    rewrite lookup_insert_eq. intros [= <-] Hs. destruct (Hli Hs). eauto. }
  constructor; intros *; rewrite ?Ew; eauto.
  - cbn. destruct (decide (o = o0)) as [<-|]; [rewrite lookup_insert_eq; intros [= <-]; exact Hok|rewrite lookup_insert_ne by done; apply Ht].
  - intros E1 E2 S1 S2 L1 L2 Hp. destruct (Hold _ _ E1 S1) as (t3 & ? & ? & L3), (Hold _ _ E2 S2) as (t4 & ? & ? & L4).
    rewrite <- L3 in L1. rewrite <- L4 in L2. eauto.
Qed.

(** A socket gets a library socket that nobody has. *)
Lemma adopt_ok n o t t' h : net_ok n -> n_socks n !! o = Some (TCP t) -> tc_handle t' = Some h -> kind (n_set n) h = Some true ->
  (forall w k, sock_owned n w = Some (k, h) -> w = OSock o) -> tcp_ok n t' -> tc_state t' <> Listening ->
  net_ok (with_socks n (<[o := TCP t']> (n_socks n))).
Proof.
  intros [Ha Hu Ht Hl Hq] Eo Eh Hk Hown Hok Hli. set (n' := with_socks _ _).
  assert (Ew : forall w, sock_owned n' w = if decide (w = OSock o) then Some (true, h) else sock_owned n w).
  { intros [o'|p i]; cbn; [|by rewrite decide_False]. destruct (decide (o = o')) as [<-|].
    - by rewrite lookup_insert_eq, Eh, decide_True.
    - rewrite lookup_insert_ne by done. by rewrite decide_False by congruence. }
  constructor; intros *; rewrite ?Ew.
  - case_decide; [by intros [= <- <-]|eauto].
  - repeat case_decide; intros; simplify_eq; try done; [symmetry; eauto|eauto|eauto].
  - cbn. destruct (decide (o = o0)) as [<-|]; [rewrite lookup_insert_eq; intros [= <-]; exact Hok|rewrite lookup_insert_ne by done; apply Ht].
  - cbn. destruct (decide (o = o1)) as [<-|]; [rewrite lookup_insert_eq; congruence|rewrite lookup_insert_ne by done].
    destruct (decide (o = o2)) as [<-|]; [rewrite lookup_insert_eq; congruence|rewrite lookup_insert_ne by done]. apply Hl.
  - apply Hq.
Qed.

(** The state of the library socket changes, not its kind. *)
Lemma with_tcp_ok {A} n h (f : T -> result A SysError * T) : net_ok n -> kind (n_set n) h = Some true ->
  exists r s, with_tcp h f n = Ret (Done r, with_set n s) /\ (forall h', kind s h' = kind (n_set n) h') /\ net_ok (with_set n s) /\
    exists t, n_set n !! h = Some (inl t) /\ r = (f t).1.
Proof.
  intros Hok Hk. unfold with_tcp. unfold kind in Hk. destruct (n_set n !! h) as [[t|u]|] eqn:Eh; try done.
  exists (f t).1, (<[h := inl (f t).2]> (n_set n)).
  assert (Hks : forall h', kind (<[h := inl (f t).2]> (n_set n)) h' = kind (n_set n) h').
  { intros h'. apply kind_insert. unfold kind. by rewrite lookup_insert_eq, Eh. }
  split_and!; eauto. by apply (ok_same n).
Qed.

Lemma with_udp_ok {A} n h (f : U -> result A SysError * U) : net_ok n -> kind (n_set n) h = Some false ->
  exists r s, with_udp h f n = Ret (Done r, with_set n s) /\ (forall h', kind s h' = kind (n_set n) h') /\ net_ok (with_set n s).
Proof.
  intros Hok Hk. unfold with_udp. unfold kind in Hk. destruct (n_set n !! h) as [[t|u]|] eqn:Eh; try done.
  exists (f u).1, (<[h := inr (f u).2]> (n_set n)).
  assert (Hks : forall h', kind (<[h := inr (f u).2]> (n_set n)) h' = kind (n_set n) h').
  { intros h'. apply kind_insert. unfold kind. by rewrite lookup_insert_eq, Eh. }
  split_and!; eauto. by apply (ok_same n).
Qed.

(** A new library socket belongs to nobody. *)
Lemma add_socket_ok n s : net_ok n -> exists h, add_socket s n = Ret (Done (Ok h), with_set n (<[h := s]> (n_set n))) /\
  kind (n_set n) h = None /\ net_ok (with_set n (<[h := s]> (n_set n))).
Proof.
  intros [Ha Hu Ht Hl Hq]. exists (s_index (dom (n_set n))). pose proof (kind_index (n_set n)) as Hk.
  split_and!; [done|done|]. constructor; cbn; eauto. intros w k h E1. rewrite kind_insert_ne; [eauto|]. intros <-. apply Ha in E1. congruence.
Qed.

(** The library sockets with this index belong to the socket alone. *)
Definition mine n (o h : nat) : Prop := kind (n_set n) h = Some true /\ forall w k, sock_owned n w = Some (k, h) -> w = OSock o.

Lemma mine_handle n o t h : net_ok n -> n_socks n !! o = Some (TCP t) -> tc_handle t = Some h -> mine n o h.
Proof.
  intros Hok Eo Eh. assert (E1 : sock_owned n (OSock o) = Some (true, h)) by (cbn; by rewrite Eo, Eh).
  split; [by apply (ok_alive _ Hok) in E1|]. intros w k E2. by apply (ok_unique _ Hok _ _ _ _ _ E2 E1).
Qed.

(** ** Waiting *)

(** The calls that keep the invariant and a fact about the sockets, and do not panic. *)
Definition keeps {A} (F : gmap nat Sock -> Prop) (m : wcall (Net T U E) A) : Prop := forall n, net_ok n -> F (n_socks n) ->
  exists r n', m n = Ret (r, n') /\ net_ok n' /\ F (n_socks n').

Lemma env_ok n e : net_ok n -> net_ok (with_env n e).
Proof. intros. by apply (ok_same n). Qed.

Lemma block_on_keeps {A} F fuel nb (f : wcall (Net T U E) A) : keeps F f -> keeps F (block_on fuel nb f).
Proof.
  intros Hf. unfold block_on. destruct nb; [done|]. induction fuel as [|fuel IH]; intros n Hok HF; [cbn; eauto|]. cbn.
  destruct (iface_poll_ok n Hok) as [H1 E1]. rewrite <- E1 in HF. destruct (Hf _ H1 HF) as (r & n2 & Er & H2 & F2). rewrite Er. cbn.
  destruct (check_poll_ok (e_now (n_env n)) n2 H2) as [H3 E3]. rewrite <- E3 in F2. set (n3 := check_poll _ n2) in *.
  destruct r as [[a|e]|]; eauto. destruct e; eauto. destruct (e_resume (n_env n3)) as [b e]. destruct b; eauto 6 using env_ok.
Qed.

Lemma poll_and_check_keeps F : keeps F poll_and_check.
Proof.
  intros n Hok HF. destruct (iface_poll_ok n Hok) as [H1 E1]. destruct (check_poll_ok (e_now (n_env n)) _ H1) as [H2 E2].
  unfold poll_and_check, nput, poll_interfaces. do 2 eexists. split_and!; [done|done|]. rewrite E2, E1. done.
Qed.

Lemma nbind_keeps {A B} F (m : wcall (Net T U E) A) (k : A -> wcall (Net T U E) B) : keeps F m -> (forall a, keeps F (k a)) -> keeps F (nbind m k).
Proof.
  intros Hm Hk n Hok HF. unfold nbind. destruct (Hm n Hok HF) as (r & n1 & -> & H1 & F1). cbn.
  destruct r as [[a|e]|]; cbn; eauto. by apply Hk.
Qed.

Lemma nret_keeps {A} F (a : A) : keeps F (nret a).
Proof. intros n ??. unfold nret. eauto. Qed.
Lemma nerr_keeps {A} F e : keeps F (@nerr _ A e).
Proof. intros n ??. unfold nerr. eauto. Qed.
Lemma nget_keeps F : keeps F nget.
Proof. intros n ??. unfold nget. eauto. Qed.

(** ** Sending and receiving *)

(** The socket of a number is this one. *)
Definition is_tcp (o : nat) (t : TcpSocket) (ss : gmap nat Sock) : Prop := ss !! o = Some (TCP t).
Definition is_udp (o : nat) (u : UdpSocket) (ss : gmap nat Sock) : Prop := ss !! o = Some (UDP u).

Lemma with_tcp_keeps {A} o t h (f : T -> result A SysError * T) : tc_handle t = Some h -> keeps (is_tcp o t) (with_tcp h f).
Proof.
  intros Eh n Hok Ht. destruct (mine_handle n o t h Hok Ht Eh) as [Hk _]. destruct (with_tcp_ok n h f Hok Hk) as (r & s & -> & _ & Hs & _). eauto.
Qed.

Lemma with_udp_keeps {A} o u (f : U -> result A SysError * U) : keeps (is_udp o u) (with_udp (ud_handle u) f).
Proof.
  intros n Hok Hu. assert (Hk : kind (n_set n) (ud_handle u) = Some false).
  { apply (ok_alive _ Hok (OSock o)). cbn. unfold is_udp in Hu. by rewrite Hu. }
  destruct (with_udp_ok n _ f Hok Hk) as (r & s & -> & _ & Hs). eauto.
Qed.

Lemma tcp_sock_keeps o t : keeps (is_tcp o t) (tcp_sock o).
Proof. intros n Hok Ht. unfold tcp_sock. rewrite Ht. eauto. Qed.

Lemma bind_unwrap {A B} F (x : A) (k : A -> wcall (Net T U E) B) : keeps F (k x) -> keeps F (nbind (nunwrap (Some x)) k).
Proof. done. Qed.

(** The continuation gets the socket itself. *)
Lemma bind_tcp_sock {B} o t (k : TcpSocket -> wcall (Net T U E) B) : keeps (is_tcp o t) (k t) -> keeps (is_tcp o t) (nbind (tcp_sock o) k).
Proof. intros Hk n Hok Ht. unfold nbind, tcp_sock. rewrite Ht. by apply Hk. Qed.

Lemma bind_udp_sock {B} o u (k : UdpSocket -> wcall (Net T U E) B) : keeps (is_udp o u) (k u) -> keeps (is_udp o u) (nbind (udp_sock o) k).
Proof. intros Hk n Hok Hu. unfold nbind, udp_sock. rewrite Hu. by apply Hk. Qed.

Lemma peer_addr_keeps o t : keeps (is_tcp o t) (tcp_peer_addr o).
Proof.
  intros n Hok Ht. destruct (ok_tcp _ Hok _ _ Ht) as (_ & [r Er] & _). revert n Hok Ht. apply bind_tcp_sock.
  rewrite Er. destruct (tc_state t); cbn; auto using nret_keeps, nerr_keeps.
Qed.

Lemma local_addr_keeps o t : keeps (is_tcp o t) (tcp_local_addr o).
Proof.
  intros n Hok Ht. destruct (ok_tcp _ Hok _ _ Ht) as ([r Er] & _). revert n Hok Ht. apply bind_tcp_sock.
  rewrite Er. destruct (tc_state t); cbn; auto using nret_keeps, nerr_keeps.
Qed.

End Proofs.

#[export] Hint Resolve nret_keeps nerr_keeps nget_keeps with_tcp_keeps with_udp_keeps tcp_sock_keeps peer_addr_keeps local_addr_keeps poll_and_check_keeps : keeps.

Ltac keep := repeat first [solve [eauto with keeps] | apply nbind_keeps; [|intros ?] | case_match].

(** The conditions on the fields of a socket that is not in use. *)
Ltac tcp_fields := split_and!; cbn; first [done | by intros [] | by eexists | eassumption].

Section Ops.
Context {T U E : Type} {ST : SmolTcp T U E} {SL : SmolLaws T U E}.
Implicit Types n : Net T U E.

Lemma send_try_keeps o t h data : tc_handle t = Some h -> keeps (is_tcp o t) (send_try (T := T) (U := U) (E := E) h data).
Proof. intros. unfold send_try. keep. Qed.

Lemma recv_try_keeps o t h len peer : tc_handle t = Some h -> keeps (is_tcp o t) (recv_try (T := T) (U := U) (E := E) h len peer).
Proof. intros. unfold recv_try. keep. Qed.

(** A socket that was shut down before it ever had a library socket is the exception. *)
Definition has_stream (t : TcpSocket) : Prop := tc_shutdown t = 0 \/ is_Some (tc_handle t).

Lemma stream_handle n o t : net_ok n -> is_tcp o t (n_socks n) -> has_stream t ->
  negb (bool_decide (tc_state t = Connected)) && (tc_shutdown t =? 0) = false -> exists h, tc_handle t = Some h.
Proof.
  intros Hok Ht [Hs|Hs] Ec; [|done]. destruct (ok_tcp _ Hok _ _ Ht) as (_ & _ & Hh & _). rewrite Hs, andb_true_r, negb_false_iff in Ec.
  apply bool_decide_eq_true in Ec. apply Hh. auto.
Qed.

Lemma tcp_recv_keeps fuel o t len : has_stream t -> keeps (is_tcp o t) (tcp_recv (T := T) (U := U) (E := E) fuel o len).
Proof.
  intros Hs. apply bind_tcp_sock. destruct (intersects _ _); [keep|]. case_bool_decide; [keep|]. destruct (negb _ && _) eqn:Ec; [keep|].
  intros n Hok Ht. destruct (stream_handle n o t Hok Ht Hs Ec) as [h Eh]. revert n Hok Ht. rewrite Eh.
  apply nbind_keeps; [apply peer_addr_keeps|]. intros peer. cbn. apply block_on_keeps. by apply recv_try_keeps.
Qed.

Lemma tcp_send_keeps fuel o t data : has_stream t -> keeps (is_tcp o t) (tcp_send (T := T) (U := U) (E := E) fuel o data).
Proof.
  intros Hs. apply bind_tcp_sock. destruct (intersects _ _); [keep|]. case_bool_decide; [keep|]. destruct (negb _ && _) eqn:Ec; [keep|].
  intros n Hok Ht. destruct (stream_handle n o t Hok Ht Hs Ec) as [h Eh]. rewrite Eh. unfold nbind, nunwrap, nret. cbn.
  destruct (block_on_keeps (is_tcp o t) fuel (tc_nonblock t) _ (send_try_keeps o t h data Eh) n Hok Ht) as (r & n1 & -> & H1 & F1). cbn.
  destruct (iface_poll_ok n1 H1) as [H2 E2]. destruct r; do 2 eexists; (split; [done|]); cbn; [|done]. by rewrite E2.
Qed.

(** ** Changing the state of a socket *)

Lemma is_tcp_insert o t (ss : gmap nat Sock) : is_tcp o t (<[o := TCP t]> ss).
Proof. unfold is_tcp. by rewrite lookup_insert_eq. Qed.

(** [update_state] as a step: what [f] has to do on the busy socket. *)
Lemma update_state_step {A} (Q : reply A -> TcpSocket -> Prop) n o t ex nw (f other : wcall (Net T U E) A) :
  net_ok n -> is_tcp o t (n_socks n) ->
  (tc_state t = ex -> forall n1, net_ok n1 -> n1 = with_socks n (<[o := TCP (tcp_set_state t Busy)]> (n_socks n)) ->
    exists r n2 t2, f n1 = Ret (r, n2) /\ is_tcp o t2 (n_socks n2) /\
      let t3 := tcp_set_state t2 match r with Done (Ok _) => nw | _ => ex end in
      net_ok (with_socks n2 (<[o := TCP t3]> (n_socks n2))) /\ Q r t3) ->
  (exists r n' t', other n = Ret (r, n') /\ net_ok n' /\ is_tcp o t' (n_socks n') /\ Q r t') ->
  exists r n' t', update_state o ex nw f other n = Ret (r, n') /\ net_ok n' /\ is_tcp o t' (n_socks n') /\ Q r t'.
Proof.
  intros Hok Ht Hf Ho. unfold update_state, nbind. unfold tcp_sock at 1. rewrite Ht. cbn. case_bool_decide as Hs; [|done].
  unfold tcp_update at 1. rewrite Ht. cbn.
  destruct (Hf Hs (with_socks n (<[o := TCP (tcp_set_state t Busy)]> (n_socks n)))) as (r & n2 & t2 & -> & Ht2 & H2 & HQ); [|done|].
  { destruct (ok_tcp _ Hok _ _ Ht) as (?&?&_&_). apply (put_tcp_ok n o t); try done. split_and!; try done. by intros []. }
  cbn. unfold tcp_update. rewrite Ht2. cbn. do 3 eexists. split_and!; [done|exact H2|apply is_tcp_insert|exact HQ].
Qed.

(** Steps that are good for one TCP socket: they end, and the socket is still there. *)
Definition tcp_step {A} (o : nat) (m : wcall (Net T U E) A) : Prop := forall n t, net_ok n -> is_tcp o t (n_socks n) ->
  exists r n' t', m n = Ret (r, n') /\ net_ok n' /\ is_tcp o t' (n_socks n').

Lemma update_state_tcp_step {A} o ex nw (f : wcall (Net T U E) A) other :
  (forall n t, net_ok n -> is_tcp o t (n_socks n) -> tc_state t = ex ->
    forall n1, net_ok n1 -> n1 = with_socks n (<[o := TCP (tcp_set_state t Busy)]> (n_socks n)) ->
    exists r n2 t2, f n1 = Ret (r, n2) /\ is_tcp o t2 (n_socks n2) /\
      net_ok (with_socks n2 (<[o := TCP (tcp_set_state t2 match r with Done (Ok _) => nw | _ => ex end)]> (n_socks n2)))) ->
  (exists r, other = fun n => Ret (r, n)) -> tcp_step o (update_state o ex nw f other).
Proof.
  intros Hf [r0 ->] n t Hok Ht.
  destruct (update_state_step (fun _ _ => True) n o t ex nw f (fun n => Ret (r0, n)) Hok Ht) as (r & n' & t' & E1 & H1 & T1 & _); eauto 10.
  intros Hs n1 H1 En1. destruct (Hf n t Hok Ht Hs n1 H1 En1) as (r & n2 & t2 & ? & ? & ?). eauto 10.
Qed.

Lemma curr_ok n p : net_ok n -> net_ok (with_curr n p).
Proof. intros. by apply (ok_same n). Qed.

(** Running a call on a socket that is known. *)
Lemma run_sock {B} n o t (k : TcpSocket -> wcall (Net T U E) B) : is_tcp o t (n_socks n) -> nbind (tcp_sock o) k n = k t n.
Proof. intros Ht. unfold nbind, tcp_sock. by rewrite Ht. Qed.

Lemma run_update n o t f : is_tcp o t (n_socks n) -> tcp_update o f n = Ret (Done (Ok tt), with_socks n (<[o := TCP (f t)]> (n_socks n))).
Proof. intros Ht. unfold tcp_update. by rewrite Ht. Qed.

Lemma net_run_bind {A B} n (m : wcall (Net T U E) A) (k : A -> wcall (Net T U E) B) a n1 : m n = Ret (Done (Ok a), n1) -> nbind m k n = k a n1.
Proof. unfold nbind. by intros ->. Qed.

Lemma run_unwrap {A B} n (x : A) (k : A -> wcall (Net T U E) B) : nbind (nunwrap (Some x)) k n = k x n.
Proof. done. Qed.

Lemma run_port n p : exists c q, port_or_free p n = Ret (Done (Ok q), with_curr n c).
Proof.
  unfold port_or_free, get_ephemeral_port, nret. destruct (p =? 0); [by eexists _, _|]. exists (n_curr n), p. by destruct n.
Qed.


Lemma tcp_bind_step o ep : tcp_step o (tcp_bind o ep).
Proof.
  apply update_state_tcp_step; [|by eexists]. intros n t Hok Ht Hs n1 H1 En1.
  assert (Ht1 : is_tcp o (tcp_set_state t Busy) (n_socks n1)) by (subst n1; apply is_tcp_insert). clear En1.
  destruct (ok_tcp _ Hok _ _ Ht) as ([l El] & Hr & Hh & _). unfold bind_inner. destruct (run_port n1 (ep_port ep)) as (c & q & Eq).
  rewrite (net_run_bind _ _ _ _ _ Eq), (run_sock _ o (tcp_set_state t Busy)) by done. cbn [tc_local tcp_set_state]. rewrite El, run_unwrap.
  apply (curr_ok _ c) in H1. case_bool_decide.
  - rewrite (run_update _ o (tcp_set_state t Busy)) by done. do 3 eexists. split_and!; [done|apply is_tcp_insert|]. cbn. rewrite insert_insert_eq.
    apply (put_tcp_ok (with_curr n1 c) o (tcp_set_state t Busy)); try done. split_and!; cbn; try done. by intros [].
  - do 3 eexists. split_and!; [done|exact Ht1|]. apply (put_tcp_ok (with_curr n1 c) o (tcp_set_state t Busy)); try done.
    tcp_fields.
Qed.

(** The socket becomes a listener of a port that was free. *)
Lemma listener_ok n o t ep waker l : net_ok n -> is_tcp o t (n_socks n) -> n_listen n !! le_port ep = None -> tc_local t = Some l -> ep_port l = le_port ep ->
  net_ok (with_socks (with_listen n (<[le_port ep := mkEntry ep [] waker]> (n_listen n))) (<[o := TCP (tcp_set_state t Listening)]> (n_socks n))).
Proof.
  intros [Ha Hu Ht Hl Hq] Eo Hfree El Hport. set (n' := with_socks _ _).
  assert (Ew : forall w, sock_owned n' w = sock_owned n w).
  { intros [o'|p i]; cbn.
    - destruct (decide (o = o')) as [<-|]; [rewrite lookup_insert_eq; unfold is_tcp in Eo; by rewrite Eo|by rewrite lookup_insert_ne].
    - destruct (decide (le_port ep = p)) as [<-|]; [by rewrite lookup_insert_eq, Hfree|by rewrite lookup_insert_ne]. }
  assert (Hlis : forall p, is_Some (n_listen n !! p) -> is_Some (n_listen n' !! p)).
  { intros p [e Ee]. cbn. destruct (decide (le_port ep = p)) as [<-|]; [by rewrite lookup_insert_eq|]. rewrite lookup_insert_ne by done. eauto. }
  assert (Hno : forall o1 t1 l1, o1 <> o -> n_socks n !! o1 = Some (TCP t1) -> tc_state t1 = Listening -> tc_local t1 = Some l1 -> ep_port l1 <> le_port ep).
  { intros o1 t1 l1 _ E1 S1 L1 Hp. destruct (Ht _ _ E1) as (_ & _ & _ & Hx). destruct (Hx S1) as (l2 & E2 & [e Ee]). congruence. }
  destruct (Ht _ _ Eo) as (? & ? & Hh & _). constructor; intros *; rewrite ?Ew; eauto.
  - destruct (decide (o = o0)) as [<-|]; cbn; [rewrite lookup_insert_eq; intros [= <-]|rewrite lookup_insert_ne by done].
    + split_and!; try done; [by intros []|]. intros _. exists l. split; [done|]. cbn. rewrite Hport, lookup_insert_eq. done.
    + intros E1. destruct (Ht _ _ E1) as (?&?&?&Hx). split_and!; try done. intros S1. destruct (Hx S1) as (l1 & ? & ?). eauto.
  - cbn. destruct (decide (o = o1)) as [<-|], (decide (o = o2)) as [<-|]; rewrite ?lookup_insert_eq, ?lookup_insert_ne by done; intros E1 E2 S1 S2 L1 L2 Hp;
      simplify_eq/=; try done; [exfalso; eapply Hno; eauto; congruence|exfalso; eapply Hno; eauto; congruence|eauto].
  - cbn. destruct (decide (le_port ep = p)) as [<-|]; [rewrite lookup_insert_eq; intros [= <-]; cbn; split; [lia|done]|rewrite lookup_insert_ne by done; apply Hq].
Qed.

Lemma run_robost n o t l : is_tcp o t (n_socks n) -> tc_local t = Some l ->
  exists c q, robost_port_endpoint o n = Ret (Done (Ok (mkListen (if ip_unspecified (ep_addr l) then None else Some (ep_addr l)) q)), with_curr n c).
Proof.
  intros Ht El. unfold robost_port_endpoint. rewrite (run_sock _ o t), El, run_unwrap by done. destruct (run_port n (ep_port l)) as (c & q & Eq).
  exists c, q. by rewrite (net_run_bind _ _ _ _ _ Eq).
Qed.

Lemma tcp_listen_step o : tcp_step o (tcp_listen o).
Proof.
  apply update_state_tcp_step; [|by eexists]. intros n t Hok Ht Hs n1 H1 En1.
  assert (Ht1 : is_tcp o (tcp_set_state t Busy) (n_socks n1)) by (subst n1; apply is_tcp_insert). clear En1.
  destruct (ok_tcp _ Hok _ _ Ht) as ([l El] & Hr & Hh & _). unfold listen_inner. destruct (run_robost n1 o _ l Ht1 El) as (c & q & Eq).
  rewrite (net_run_bind _ _ _ _ _ Eq), (run_sock _ o (tcp_set_state t Busy)) by done. cbn [tc_local tcp_set_state]. rewrite El, run_unwrap.
  apply (curr_ok _ c) in H1. rewrite (net_run_bind _ _ _ _ _ (run_update (with_curr n1 c) o (tcp_set_state t Busy) _ Ht1)). unfold nbind, nget. cbn.
  set (tb := set_local _ _). set (n2 := with_socks _ _).
  assert (H2 : net_ok n2). { apply (put_tcp_ok (with_curr n1 c) o (tcp_set_state t Busy)); try done. tcp_fields. }
  assert (Ht2 : is_tcp o tb (n_socks n2)) by apply is_tcp_insert. unfold lt_listen. cbn.
  destruct (n_listen n1 !! q) as [e|] eqn:Ee.
  - do 3 eexists. split_and!; [done|exact Ht2|]. apply (put_tcp_ok n2 o tb); try done. tcp_fields.
  - do 3 eexists. split_and!; [done|exact Ht2|]. eapply (listener_ok n2 o tb (mkListen _ q)); try done.
Qed.

(** ** Connecting *)

Lemma mine_same n n' o h : mine n o h -> (forall h', kind (n_set n') h' = kind (n_set n) h') -> n_listen n' = n_listen n -> n_socks n' = n_socks n -> mine n' o h.
Proof. intros [Hk Ho] Ek El Es. split; [by rewrite Ek|]. intros [o'|p i] k; cbn; rewrite ?El, ?Es; [apply (Ho (OSock o'))|apply (Ho (OSyn p i))]. Qed.

Lemma connect_with_step n o t h addr : net_ok n -> is_tcp o t (n_socks n) -> tc_state t = Busy -> mine n o h ->
  exists r n2 t2, connect_with o h addr n = Ret (r, n2) /\ is_tcp o t2 (n_socks n2) /\ (forall a, r = Done (Ok a) -> tc_handle t2 = Some h) /\
    net_ok (with_socks n2 (<[o := TCP (tcp_set_state t2 match r with Done (Ok _) => Connecting | _ => Closed end)]> (n_socks n2))).
Proof.
  intros Hok Ht Hb Hm. destruct (ok_tcp _ Hok _ _ Ht) as ([l El] & Hr & _). unfold connect_with.
  destruct (run_robost n o _ l Ht El) as (c & q & Eq). rewrite (net_run_bind _ _ _ _ _ Eq). apply (curr_ok _ c) in Hok as H1.
  assert (Hm1 : mine (with_curr n c) o h) by by apply (mine_same n). unfold nbind at 1, nget. cbn [obind fst snd].
  match goal with |- context [with_tcp h ?f] => destruct (with_tcp_ok (with_curr n c) h f) as (r & s & Ew & Hks & H2 & t0 & Et0 & Er); [done|apply Hm1|] end.
  unfold nbind at 1. rewrite Ew. cbn [obind fst snd]. cbn in Er. set (n2 := with_set (with_curr n c) s) in *.
  destruct (t_connect _ t0 addr _) as [s'|e] eqn:Ec; [|].
  - apply t_connect_ends in Ec as [[x Ex] [y Ey]]. cbn in Er. rewrite Ex, Ey in Er. subst r. cbn [fst snd]. rewrite run_unwrap.
    rewrite (net_run_bind _ _ _ _ _ (run_update n2 o t _ Ht)), run_unwrap.
    erewrite net_run_bind; [|apply run_update; cbn; apply is_tcp_insert]. erewrite run_update by (cbn; apply is_tcp_insert).
    do 3 eexists. split_and!; [done|apply is_tcp_insert|done|]. cbn. rewrite !insert_insert_eq.
    assert (Hm2 : mine n2 o h) by by apply (mine_same (with_curr n c)). destruct Hm2 as [Hk2 Ho2].
    apply (adopt_ok n2 o t _ h); try done.
  - assert (exists e', r = Err e') as [e' ->] by (destruct e; eauto). cbn. do 3 eexists. split_and!; [done|exact Ht|done|].
    apply (put_tcp_ok n2 o t); try done. split_and!; cbn; first [done | by intros [] | by eexists].
Qed.

(** A library socket that was just added belongs to whoever takes it. *)
Lemma mine_new n s o h : net_ok n -> kind (n_set n) h = None -> s = inl t_new -> mine (with_set n (<[h := s]> (n_set n))) o h.
Proof.
  intros Hok Hk ->. split; [unfold kind; cbn; by rewrite lookup_insert_eq|]. intros w k E1. apply (ok_alive _ Hok) in E1. congruence.
Qed.

Lemma connect_start_step n o t addr : net_ok n -> is_tcp o t (n_socks n) ->
  exists r n' t', connect_start o addr n = Ret (r, n') /\ net_ok n' /\ is_tcp o t' (n_socks n') /\ (forall a, r = Done (Ok a) -> is_Some (tc_handle t')).
Proof.
  intros Hok Ht. apply (update_state_step (fun r t' => forall a, r = Done (Ok a) -> is_Some (tc_handle t')) n o t); try done; [|by exists (Done (Err EEXIST)), n, t].
  intros Hs n1 H1 En1. assert (Ht1 : is_tcp o (tcp_set_state t Busy) (n_socks n1)) by (subst n1; apply is_tcp_insert).
  assert (Hfin : forall n0 h, net_ok n0 -> is_tcp o (tcp_set_state t Busy) (n_socks n0) -> mine n0 o h ->
    exists r n2 t2, connect_with o h addr n0 = Ret (r, n2) /\ is_tcp o t2 (n_socks n2) /\
      let t3 := tcp_set_state t2 match r with Done (Ok _) => Connecting | _ => Closed end in
      net_ok (with_socks n2 (<[o := TCP t3]> (n_socks n2))) /\ (forall a, r = Done (Ok a) -> is_Some (tc_handle t3))).
  { intros n0 h H0 Ht0 Hm. destruct (connect_with_step n0 o _ h addr H0 Ht0 eq_refl Hm) as (r & n2 & t2 & E2 & T2 & Hh & H2).
    exists r, n2, t2. split; [done|]. split; [done|]. split; [done|]. intros a Ea. exists h. by apply (Hh a). }
  unfold connect_inner. rewrite (run_sock _ o (tcp_set_state t Busy)) by done. cbn [tc_handle tcp_set_state].
  destruct (tc_handle t) as [h|] eqn:Eh.
  - apply Hfin; try done. by apply (mine_handle n1 o (tcp_set_state t Busy)).
  - destruct (add_socket_ok n1 (inl t_new) H1) as (h & Ea & Hk & H2). rewrite (net_run_bind _ _ _ _ _ Ea). apply Hfin; try done. by apply mine_new.
Qed.

(** A socket that has a library socket. *)
Definition has_handle (o : nat) (ss : gmap nat Sock) : Prop := exists t h, is_tcp o t ss /\ tc_handle t = Some h.

Lemma poll_connect_keeps o : keeps (has_handle o) (poll_connect o).
Proof.
  intros n Hok (t & h & Ht & Eh). unfold poll_connect. rewrite (run_sock _ o t), Eh, run_unwrap by done. unfold nbind at 1, nget. cbn [obind fst snd].
  match goal with |- context [with_tcp h ?f] => destruct (with_tcp_ok n h f) as (r & s & Ew & _ & H2 & t0 & Et0 & Er); [done|by apply (mine_handle n o t)|] end.
  unfold nbind at 1. rewrite Ew. cbn [obind fst snd]. cbn in Er. subst r. set (n2 := with_set n s) in *.
  destruct (ok_tcp _ Hok _ _ Ht) as (Hl & Hr & _).
  assert (Hput : forall f, tc_handle (f t) = tc_handle t -> tcp_ok n2 (f t) -> tc_state (f t) <> Listening ->
    exists (r : reply bool) n', nbind (tcp_update o f) (fun _ => nret true) n2 = Ret (r, n') /\ net_ok n' /\ has_handle o (n_socks n')).
  { intros f Ef Hf Hs. rewrite (net_run_bind _ _ _ _ _ (run_update n2 o t f Ht)). do 2 eexists. split_and!; [done| |].
    - by apply (put_tcp_ok n2 o t).
    - exists (f t), h. split; [apply is_tcp_insert|congruence]. }
  destruct (t_state t0); try (apply Hput; [done| |done]; split_and!; cbn; first [done | by intros []]).
  - unfold nret. do 2 eexists. split_and!; [done|done|]. by exists t, h.
Qed.

Lemma connect_try_keeps o : keeps (has_handle o) (connect_try o).
Proof.
  apply nbind_keeps; [apply poll_connect_keeps|]. intros b. destruct b; [|apply nerr_keeps].
  intros n Hok (t & h & Ht & Eh). rewrite (run_sock _ o t) by done. assert (has_handle o (n_socks n)) by by exists t, h.
  case_bool_decide; [by apply nret_keeps|by apply nerr_keeps].
Qed.

Lemma tcp_connect_step fuel o addr : tcp_step o (tcp_connect fuel o addr).
Proof.
  intros n t Hok Ht. unfold tcp_connect. destruct (connect_start_step n o t addr Hok Ht) as (r & n1 & t1 & E1 & H1 & T1 & Hh).
  unfold nbind at 1. rewrite E1. cbn. destruct r as [[a|e]|]; eauto 10. destruct (Hh a eq_refl) as [h Eh].
  rewrite (run_sock _ o t1) by done. destruct (tc_nonblock t1); [unfold nerr; by eauto 10|].
  destruct (block_on_keeps (has_handle o) fuel false (connect_try o) (connect_try_keeps o) n1 H1) as (r & n2 & E2 & H2 & t2 & h2 & T2 & _); eauto 10.
  by exists t1, h.
Qed.

(** ** Closing *)

Definition nobodys n (h : nat) : Prop := is_Some (kind (n_set n) h) /\ forall w k, sock_owned n w <> Some (k, h).

(** A library socket that nobody has can go. *)
Lemma set_remove_ok n h : net_ok n -> nobodys n h -> set_remove h n = Ret (Done (Ok tt), with_set n (delete h (n_set n))) /\ net_ok (with_set n (delete h (n_set n))).
Proof.
  intros [Ha Hu Ht Hl Hq] [[k Hk] Hno]. unfold set_remove. unfold kind in Hk. destruct (n_set n !! h) as [x|] eqn:Ex; [|done]. split; [done|].
  constructor; cbn; eauto. intros w k' h' E1. unfold kind. rewrite lookup_delete_ne; [by apply (Ha w)|]. intros <-. by apply (Hno w k').
Qed.

Lemma remove_all_ok hs : forall n, net_ok n -> NoDup hs -> Forall (nobodys n) hs ->
  exists n', remove_all hs n = Ret (Done (Ok tt), n') /\ net_ok n' /\ n_socks n' = n_socks n.
Proof.
  induction hs as [|h hs IH]; intros n Hok Hd Hf; [cbn; eauto|]. cbn [remove_all].
  apply NoDup_cons in Hd as [Hni Hd]. apply Forall_cons in Hf as [Hh Hf]. destruct (set_remove_ok n h Hok Hh) as [E1 H1].
  rewrite (net_run_bind _ _ _ _ _ E1). destruct (IH _ H1 Hd) as (n' & ? & ? & ?); [|eauto]. rewrite Forall_forall in Hf |- *.
  intros h' Hin. destruct (Hf _ Hin) as [[k Hk] Hno]. split; [|done]. exists k. unfold kind in *. cbn. rewrite lookup_delete_ne by congruence. done.
Qed.

Definition no_listener n (p : Z) : Prop := forall o t l, n_socks n !! o = Some (TCP t) -> tc_state t = Listening -> tc_local t = Some l -> ep_port l <> p.

Lemma unlisten_ok n p : net_ok n -> no_listener n p -> exists n', lt_unlisten p n = Ret (Done (Ok tt), n') /\ net_ok n' /\ n_socks n' = n_socks n.
Proof.
  intros Hok Hno. unfold lt_unlisten. destruct (n_listen n !! p) as [e|] eqn:Ee; [|eauto]. set (n1 := wake_tasks _ _).
  assert (Ew : forall w k h, sock_owned n1 w = Some (k, h) -> sock_owned n w = Some (k, h) /\ forall i, w <> OSyn p i).
  { intros [o|q i] k h; cbn; [done|]. destruct (decide (p = q)) as [<-|]; [by rewrite lookup_delete_eq|rewrite lookup_delete_ne by done].
    intros E1. split; [done|]. intros j [= -> ->]. done. }
  assert (Hq : forall i h, li_syn e !! i = Some h -> sock_owned n (OSyn p i) = Some (true, h)) by (intros i h Ei; cbn; by rewrite Ee; cbn; rewrite Ei).
  destruct (remove_all_ok (li_syn e) n1) as (n' & ? & ? & ?); [| | |by eauto].
  - destruct Hok as [Ha Hu Ht Hl Hqu]. constructor; try done.
    + intros w k h E1. apply Ew in E1 as [E1 _]. by apply (Ha w).
    + intros w1 w2 k1 k2 h E1 E2. apply Ew in E1 as [E1 _]. apply Ew in E2 as [E2 _]. eauto.
    + intros o t E1. destruct (Ht _ _ E1) as (?&?&?&Hx). split_and!; try done. intros S1. destruct (Hx S1) as (l & El & Hs). exists l. split; [done|].
      cbn. rewrite lookup_delete_ne; [done|]. intros Hp. by apply (Hno _ _ _ E1 S1 El).
    + intros q e'. cbn. intros E1. apply lookup_delete_Some in E1 as [_ E1]. by apply Hqu.
  - apply NoDup_alt. intros i j h Hi Hj. apply Hq in Hi, Hj. pose proof (ok_unique _ Hok _ _ _ _ _ Hi Hj). congruence.
  - apply Forall_lookup. intros i h Hi. split; [exists true; by apply (ok_alive _ Hok _ _ _ (Hq _ _ Hi))|].
    intros w k E1. apply Ew in E1 as [E1 Hne]. apply (Hne i). by apply (ok_unique _ Hok _ _ _ _ _ E1 (Hq _ _ Hi)).
Qed.

Lemma closed_after n o t : net_ok n -> is_tcp o t (n_socks n) -> net_ok (with_socks n (<[o := TCP (tcp_set_state t Closed)]> (n_socks n))).
Proof. intros Hok Ht. destruct (ok_tcp _ Hok _ _ Ht) as (?&?&_). apply (put_tcp_ok n o t); try done. tcp_fields. Qed.

Lemma close_stream_step o other : (exists r, other = fun n => Ret (r, n)) -> tcp_step o (update_state o Connected Closed (close_stream o) other).
Proof.
  intros Hot. apply update_state_tcp_step; [|done]. intros n t Hok Ht Hs n1 H1 ->.
  destruct (ok_tcp _ Hok _ _ Ht) as (_ & _ & Hh & _). destruct (Hh (or_intror Hs)) as [h Eh]. set (n1 := with_socks _ _) in *.
  assert (Ht1 : is_tcp o (tcp_set_state t Busy) (n_socks n1)) by apply is_tcp_insert.
  assert (Hk : keeps (is_tcp o (tcp_set_state t Busy)) (close_stream (T := T) (U := U) (E := E) o)).
  { apply bind_tcp_sock. assert (Eb : tc_handle (tcp_set_state t Busy) = Some h) by exact Eh. rewrite Eb. apply bind_unwrap. keep. }
  destruct (Hk n1 H1 Ht1) as (r & n2 & E2 & H2 & T2). exists r, n2, (tcp_set_state t Busy). split_and!; [done|done|].
  apply (put_tcp_ok n2 o (tcp_set_state t Busy)); try done; [|by repeat case_match].
  destruct (ok_tcp _ H2 _ _ T2) as (?&?&_). split_and!; cbn; [done|done|by exists h|by repeat case_match].
Qed.

Lemma close_listener_step o other : (exists r, other = fun n => Ret (r, n)) -> tcp_step o (update_state o Listening Closed (close_listener o) other).
Proof.
  intros Hot. apply update_state_tcp_step; [|done]. intros n t Hok Ht Hs n1 H1 En1.
  destruct (ok_tcp _ Hok _ _ Ht) as ([l El] & Hr & _). assert (Ht1 : is_tcp o (tcp_set_state t Busy) (n_socks n1)) by (subst n1; apply is_tcp_insert).
  unfold close_listener. rewrite (run_sock _ o (tcp_set_state t Busy)) by done. cbn [tc_local tcp_set_state]. rewrite El, run_unwrap.
  rewrite (net_run_bind _ _ _ _ _ (run_update _ o (tcp_set_state t Busy) _ Ht1)). set (tb := set_local _ _). set (n2 := with_socks n1 _).
  assert (H2 : net_ok n2) by (apply (put_tcp_ok n1 o (tcp_set_state t Busy)); try done; tcp_fields).
  destruct (unlisten_ok n2 (ep_port l)) as (n3 & E3 & H3 & S3); [done| |].
  { subst n1. intros o' t' l' E1 S1 L1 Hp. cbn in E1. rewrite insert_insert_eq in E1. destruct (decide (o = o')) as [<-|Hne].
    - rewrite lookup_insert_eq in E1. by simplify_eq.
    - rewrite lookup_insert_ne in E1 by done. apply Hne. by apply (ok_listeners _ Hok o t o' t' l l'). }
  rewrite (net_run_bind _ _ _ _ _ E3). destruct (poll_and_check_keeps (is_tcp o tb) n3 H3) as (r & n4 & E4 & H4 & T4); [rewrite S3; apply is_tcp_insert|].
  exists r, n4, tb. split_and!; [done|done|]. unfold poll_and_check, nput in E4. injection E4 as <- <-. by apply closed_after.
Qed.

Lemma tcp_shutdown_step o how : tcp_step o (tcp_do_shutdown o how).
Proof.
  intros n t Hok Ht. unfold tcp_do_shutdown. destruct (shutdown_flag how) as [f|]; [|unfold nerr; by eauto 10].
  rewrite (net_run_bind _ _ _ _ _ (run_update _ o t _ Ht)). set (t1 := set_shutdown _ _). set (n1 := with_socks _ _).
  assert (H1 : net_ok n1) by (destruct (ok_tcp _ Hok _ _ Ht) as (?&?&?&?); by apply (put_tcp_ok n o t)).
  destruct (close_stream_step o (nret tt) ltac:(by eexists) n1 t1 H1) as (r & n2 & t2 & E2 & H2 & T2); [apply is_tcp_insert|].
  unfold nbind. rewrite E2. cbn. destruct r as [[a|e]|]; eauto 10. apply (close_listener_step o (nret tt) ltac:(by eexists) n2 t2); done.
Qed.

(** ** The end of a socket *)

(** Its library socket is nobody's once the socket is gone. *)
Lemma forget_ok n o : net_ok n -> net_ok (with_socks n (delete o (n_socks n))) /\
  forall k h, sock_owned n (OSock o) = Some (k, h) -> nobodys (with_socks n (delete o (n_socks n))) h.
Proof.
  intros [Ha Hu Ht Hl Hq]. set (n' := with_socks _ _).
  assert (Ew : forall w k h, sock_owned n' w = Some (k, h) -> sock_owned n w = Some (k, h) /\ w <> OSock o).
  { intros [o'|p i] k h; cbn; [|done]. destruct (decide (o = o')) as [<-|]; [by rewrite lookup_delete_eq|]. rewrite lookup_delete_ne by done.
    intros ->. split; [done|congruence]. }
  assert (Hsub : forall o' s, n_socks n' !! o' = Some s -> n_socks n !! o' = Some s) by (intros o' s0 E1; cbn in E1; by apply lookup_delete_Some in E1 as [_ E1]).
  split; [constructor|].
  - intros w k h E1. apply Ew in E1 as [E1 _]. by apply (Ha w).
  - intros w1 w2 k1 k2 h E1 E2. apply Ew in E1 as [E1 _]. apply Ew in E2 as [E2 _]. eauto.
  - intros o' t E1. by apply (Ht o'), Hsub.
  - intros o1 t1 o2 t2 l1 l2 E1 E2. eauto.
  - apply Hq.
  - intros k h E1. split; [exists k; by apply (Ha (OSock o))|]. intros w k' E2. apply Ew in E2 as [E2 Hne]. apply Hne. eauto.
Qed.

(** Removing the library socket and forgetting the socket, in the order of the code. *)
Lemma remove_forget_ok n o k h : net_ok n -> sock_owned n (OSock o) = Some (k, h) ->
  set_remove h n = Ret (Done (Ok tt), with_set n (delete h (n_set n))) /\
  net_ok (with_socks (with_set n (delete h (n_set n))) (delete o (n_socks n))).
Proof.
  intros Hok E1. destruct (forget_ok n o Hok) as [H1 Hno]. destruct (set_remove_ok _ h H1 (Hno _ _ E1)) as [E2 H2]. split; [|exact H2].
  pose proof (ok_alive _ Hok _ _ _ E1) as Hk. unfold set_remove. unfold kind in Hk. by destruct (n_set n !! h).
Qed.

Lemma ports_ok n p : net_ok n -> net_ok (with_ports n p).
Proof. intros. by apply (ok_same n). Qed.

Lemma tcp_drop_ok n o t : net_ok n -> is_tcp o t (n_socks n) -> exists n', sock_drop o n = Ret (Done (Ok tt), n') /\ net_ok n' /\ n_socks n' !! o = None.
Proof.
  intros Hok Ht. unfold sock_drop, sock. destruct (tcp_shutdown_step o SHUTRDWR n t Hok Ht) as (r & n1 & t1 & E1 & H1 & T1).
  assert (Hgone : forall n', n_socks n' = delete o (n_socks n1) -> n_socks n' !! o = None) by (intros n' ->; apply lookup_delete_eq).
  unfold nbind, nget, nunwrap, drop_result. cbn [obind fst snd]. unfold is_tcp in Ht, T1. rewrite Ht. cbn [nret obind fst snd]. rewrite E1. cbn [obind fst snd]. unfold tcp_sock. rewrite T1. cbn [obind fst snd].
  destruct (tc_handle t1) as [h|] eqn:Eh.
  - destruct (remove_forget_ok n1 o true h H1) as [E2 H2]; [cbn; by rewrite T1, Eh|]. rewrite E2. cbn. eauto.
  - cbn. destruct (forget_ok n1 o H1) as [H2 _]. eauto.
Qed.

Lemma udp_drop_ok n o u : net_ok n -> is_udp o u (n_socks n) -> exists n', sock_drop o n = Ret (Done (Ok tt), n') /\ net_ok n' /\ n_socks n' !! o = None.
Proof.
  intros Hok Hu. unfold sock_drop, sock.
  assert (Hs : keeps (is_udp o u) (udp_shutdown o)) by (apply bind_udp_sock; keep).
  destruct (Hs n Hok Hu) as (r & n1 & E1 & H1 & U1). unfold nbind, nget, nunwrap, drop_result. cbn. unfold is_udp in Hu, U1. rewrite Hu. cbn. rewrite E1. cbn.
  destruct (remove_forget_ok n1 o false (ud_handle u) H1) as [E2 H2]; [cbn; by rewrite U1|]. rewrite E2. cbn.
  destruct (ud_local u) as [e|]; cbn; eexists; (split; [done|]); (split; [|apply lookup_delete_eq]); [|done]. by apply (ok_same _ _ H2).
Qed.

(** ** New sockets *)

Lemma new_tcp_ok n o : net_ok n -> n_socks n !! o = None -> net_ok (with_socks n (<[o := TCP tcp_new_without_handle]> (n_socks n))).
Proof.
  intros [Ha Hu Ht Hl Hq] Hnew. set (n' := with_socks _ _).
  assert (Ew : forall w, sock_owned n' w = sock_owned n w).
  { intros [o'|p i]; cbn; [|done]. destruct (decide (o = o')) as [<-|]; [by rewrite lookup_insert_eq, Hnew|by rewrite lookup_insert_ne]. }
  constructor; intros *; rewrite ?Ew; eauto; cbn.
  - destruct (decide (o = o0)) as [<-|]; [rewrite lookup_insert_eq; intros [= <-]; tcp_fields|rewrite lookup_insert_ne by done; apply Ht].
  - destruct (decide (o = o1)) as [<-|]; [rewrite lookup_insert_eq; intros [= <-]; done|rewrite lookup_insert_ne by done].
    destruct (decide (o = o2)) as [<-|]; [rewrite lookup_insert_eq; intros ? [= <-]; done|rewrite lookup_insert_ne by done]. apply Hl.
Qed.

(** A new socket with a library socket that nobody has. *)
Lemma new_owner_ok n o s k h : net_ok n -> n_socks n !! o = None -> kind (n_set n) h = Some k -> (forall w k', sock_owned n w <> Some (k', h)) ->
  match s with TCP t => k = true /\ tc_handle t = Some h /\ tc_state t <> Listening /\ is_Some (tc_local t) /\ is_Some (tc_remote t) | UDP u => k = false /\ ud_handle u = h end ->
  net_ok (with_socks n (<[o := s]> (n_socks n))).
Proof.
  intros [Ha Hu Ht Hl Hq] Hnew Hk Hno Hs. set (n' := with_socks _ _).
  assert (Ew : forall w, sock_owned n' w = if decide (w = OSock o) then Some (k, h) else sock_owned n w).
  { intros [o'|p i]; cbn; [|by rewrite decide_False]. destruct (decide (o = o')) as [<-|].
    - rewrite lookup_insert_eq, decide_True by done. destruct s as [t|u]; [destruct Hs as (-> & -> & _)|destruct Hs as [-> ->]]; done.
    - rewrite lookup_insert_ne, decide_False by congruence. done. }
  constructor; intros *; rewrite ?Ew.
  - case_decide; [by intros [= <- <-]|eauto].
  - repeat case_decide; intros; simplify_eq; try done; [exfalso; by eapply Hno|exfalso; by eapply Hno|eauto].
  - cbn. destruct (decide (o = o0)) as [<-|]; [rewrite lookup_insert_eq; intros [= ->]|rewrite lookup_insert_ne by done; apply Ht].
    destruct Hs as (_ & Eh & Hli & ? & ?). split_and!; try done; by exists h.
  - cbn. destruct (decide (o = o1)) as [<-|]; [rewrite lookup_insert_eq; intros [= ->] _ S1; by destruct Hs as (_ & _ & ? & _)|rewrite lookup_insert_ne by done].
    destruct (decide (o = o2)) as [<-|]; [rewrite lookup_insert_eq; intros _ [= ->] _ S1; by destruct Hs as (_ & _ & ? & _)|rewrite lookup_insert_ne by done]. apply Hl.
  - apply Hq.
Qed.

(** ** Accepting *)

(** Packets take nothing away, and give an owner only new library sockets. *)
Definition grows n n' : Prop :=
  (forall h k, kind (n_set n) h = Some k -> kind (n_set n') h = Some k) /\
  (forall w k h, sock_owned n' w = Some (k, h) -> sock_owned n w = Some (k, h) \/ kind (n_set n) h = None).

#[local] Instance grows_preorder : PreOrder grows.
Proof.
  split; [split; auto|]. intros n1 n2 n3 [K1 O1] [K2 O2]. split; [auto|]. intros w k h E3.
  destruct (O2 _ _ _ E3) as [E2|E2]; [by apply O1|]. right. destruct (kind (n_set n1) h) as [k'|] eqn:Ek; [|done]. apply K1 in Ek. congruence.
Qed.

Lemma grows_same n n' : (forall h, kind (n_set n') h = kind (n_set n) h) -> n_listen n' = n_listen n -> n_socks n' = n_socks n -> grows n n'.
Proof.
  intros Hk El Es. split; [intros h k; by rewrite Hk|]. intros [o|p i] k h; cbn; rewrite ?El, ?Es; auto.
Qed.

Lemma handle_packet_grows dst n : grows n (handle_coming_packet dst n).
Proof.
  unfold handle_coming_packet. destruct (n_listen n !! ep_port dst) as [e|] eqn:Ee; [|done]. destruct (negb _); [done|]. destruct (_ <=? _)%nat; [done|].
  destruct (t_listen _ _) as [t|]; [|by apply grows_same]. cbn. pose proof (kind_index (n_set n)) as Hf. set (h := s_index _) in *. split; cbn.
  - intros h' k Hk. rewrite kind_insert_ne; [done|congruence].
  - intros [o|p i] k h'; cbn; [auto|]. destruct (decide (ep_port dst = p)) as [<-|]; [rewrite lookup_insert_eq|rewrite lookup_insert_ne by done; auto].
    cbn. rewrite Ee. cbn. intros E1. apply fmap_Some in E1 as (x & E1 & [= -> ->]). apply lookup_app_Some in E1 as [->|[_ E1]]; [by left|].
    right. apply list_lookup_singleton_Some in E1 as [_ <-]. done.
Qed.

Lemma iface_poll_grows n : grows n (iface_poll n).
Proof.
  unfold iface_poll. destruct (e_frames (n_env n)) as [fs e].
  assert (Hf : forall n0, grows n0 (foldl rx_frame n0 fs)).
  { clear n. induction fs as [|f fs IH]; intros n; [done|]. cbn. etrans; [|apply IH]. unfold rx_frame.
    assert (Hm : grows n (modify_packet f n)) by (unfold modify_packet; repeat case_match; try done; apply handle_packet_grows).
    etrans; [exact Hm|]. pose proof (e_process_kind (n_env (modify_packet f n)) f (n_set (modify_packet f n))) as Hk.
    destruct (e_process _ _ _) as [[s ws] e1]. by apply grows_same. }
  etrans; [apply (grows_same _ (with_env n e)); done|]. etrans; [apply Hf|]. set (n1 := foldl _ _ _).
  pose proof (e_egress_kind (n_env n1) (n_set n1)) as Hk. destruct (e_egress _ _) as [[s ws] e1]. by apply grows_same.
Qed.

Lemma check_poll_grows t n : grows n (check_poll t n).
Proof. unfold check_poll. repeat case_match; try apply iface_poll_grows; by apply grows_same. Qed.

Lemma nobodys_grows n n' h k : grows n n' -> kind (n_set n) h = Some k -> (forall w k', sock_owned n w <> Some (k', h)) ->
  kind (n_set n') h = Some k /\ forall w k', sock_owned n' w <> Some (k', h).
Proof. intros [K O] Hk Hno. split; [auto|]. intros w k' E1. destruct (O _ _ _ E1) as [E2|E2]; [by eapply Hno|congruence]. Qed.

Lemma swap_remove_front_perm i q h : q !! i = Some h -> h :: swap_remove_front i q ≡ₚ q.
Proof.
  destruct q as [|x q]; [done|]. destruct i as [|i]; cbn; [by intros [= <-]|]. intros Hi. rewrite drop_0.
  pose proof (delete_Permutation q i h Hi) as Hq.
  assert (Hq' : <[i := x]> q ≡ₚ x :: delete i q).
  { assert (Hlt : (i < length q)%nat) by by eapply lookup_lt_Some. rewrite insert_take_drop, delete_take_drop by done. symmetry. apply Permutation_middle. }
  rewrite Hq'. transitivity (x :: h :: delete i q); [constructor|by rewrite <- Hq].
Qed.

Lemma with_set_same n : with_set n (n_set n) = n.
Proof. by destruct n. Qed.

Lemma is_connected_run n h : kind (n_set n) h = Some true -> exists b, is_connected h n = Ret (Done (Ok b), n).
Proof.
  intros Hk. unfold is_connected, with_tcp. unfold kind in Hk. destruct (n_set n !! h) as [[t|u]|] eqn:Eh; try done. cbn.
  rewrite insert_id, with_set_same by done. eauto.
Qed.

(** The search changes nothing; it panics only on a socket that has no endpoints. *)
Lemma find_connected_spec n q : forall idx, (forall h, h ∈ q -> kind (n_set n) h = Some true) ->
  match find_connected idx q n with
  | Ret (Done (Ok (Some (i, h, a))), n') => n' = n /\ (idx <= i)%nat /\ q !! (i - idx)%nat = Some h
  | Ret (Done (Ok None), n') => n' = n
  | Ret _ => False
  | Panic => exists h t, h ∈ q /\ n_set n !! h = Some (inl t) /\ (t_local t = None \/ t_remote t = None)
  end.
Proof.
  induction q as [|h q IH]; intros idx Hk; [done|]. cbn [find_connected].
  destruct (is_connected_run n h) as [b Eb]; [apply Hk; left|]. rewrite (net_run_bind _ _ _ _ _ Eb). destruct b.
  - pose proof (Hk h ltac:(left)) as Hh. unfold kind in Hh. destruct (n_set n !! h) as [[t|u]|] eqn:Eh; try done.
    unfold nbind, get_addr_tuple. rewrite Eh. destruct (t_local t) as [l|] eqn:El, (t_remote t) as [r|] eqn:Er; cbn.
    1: by rewrite Nat.sub_diag. all: exists h, t; split_and!; [left|done|auto].
  - specialize (IH (S idx) ltac:(intros h' Hin; apply Hk; by right)). destruct (find_connected (S idx) q n) as [[[[[[[i h'] a]|]|e]|] n']|]; try done.
    + destruct IH as (-> & Hle & Hi). split_and!; [done|lia|]. by replace (i - idx)%nat with (S (i - S idx)) by lia.
    + destruct IH as (h' & t & Hin & ?). exists h', t. split; [by right|done].
Qed.

(** A connection leaves its queue. *)
Lemma leave_queue_ok n p e i h : net_ok n -> n_listen n !! p = Some e -> li_syn e !! i = Some h ->
  let n' := with_listen n (<[p := mkEntry (li_endpoint e) (swap_remove_front i (li_syn e)) (li_waker e)]> (n_listen n)) in
  net_ok n' /\ forall w k, sock_owned n' w <> Some (k, h).
Proof.
  intros [Ha Hu Ht Hl Hq] Ee Hi n'. pose proof (swap_remove_front_perm i _ h Hi) as Hperm. set (q' := swap_remove_front i (li_syn e)) in *.
  assert (Hown : forall j x, li_syn e !! j = Some x -> sock_owned n (OSyn p j) = Some (true, x)) by (intros j x Ej; cbn; by rewrite Ee; cbn; rewrite Ej).
  assert (Hnd : NoDup (h :: q')).
  { rewrite Hperm. apply NoDup_alt. intros j1 j2 x H1 H2. pose proof (Hu _ _ _ _ _ (Hown _ _ H1) (Hown _ _ H2)). congruence. }
  apply NoDup_cons in Hnd as [Hni Hnd].
  assert (Hin : forall x, x ∈ q' -> exists j, li_syn e !! j = Some x) by (intros x Hx; apply list_elem_of_lookup_1; rewrite <- Hperm; by right).
  assert (Ew : forall w k x, sock_owned n' w = Some (k, x) -> (forall j, w <> OSyn p j) /\ sock_owned n w = Some (k, x) \/ exists j j', w = OSyn p j /\ q' !! j = Some x /\ k = true /\ li_syn e !! j' = Some x).
  { intros [o|q j] k x; cbn; [by left|]. destruct (decide (p = q)) as [<-|]; [rewrite lookup_insert_eq|rewrite lookup_insert_ne by done; left; split; [congruence|done]].
    cbn. intros E1. apply fmap_Some in E1 as (y & E1 & [= -> ->]). right. destruct (Hin y) as [j' Hj']; [by apply list_elem_of_lookup_2 in E1|]. by exists j, j'. }
  assert (Hsplit : forall w k x j', (forall j, w <> OSyn p j) -> sock_owned n w = Some (k, x) -> li_syn e !! j' = Some x -> False)
    by (intros w k x j' Hne E1 Hj; apply (Hne j'); by apply (Hu _ _ _ _ _ E1 (Hown _ _ Hj))).
  split; [constructor|].
  - intros w k x E1. destruct (Ew _ _ _ E1) as [[_ E2]|(j & j' & -> & _ & -> & Hj)]; [by apply (Ha w)|by apply (Ha _ _ _ (Hown _ _ Hj))].
  - intros w1 w2 k1 k2 x E1 E2. destruct (Ew _ _ _ E1) as [[N1 F1]|(j1 & i1 & -> & Q1 & -> & L1)], (Ew _ _ _ E2) as [[N2 F2]|(j2 & i2 & -> & Q2 & -> & L2)]; eauto.
    + exfalso. by eapply (Hsplit w1).
    + exfalso. by eapply (Hsplit w2).
    + f_equal. by eapply NoDup_lookup.
  - intros o t E1. destruct (Ht _ _ E1) as (?&?&?&Hx). split_and!; try done. intros S1. destruct (Hx S1) as (l & ? & Hs). exists l. split; [done|].
    cbn. destruct (decide (p = ep_port l)) as [<-|]; [by rewrite lookup_insert_eq|by rewrite lookup_insert_ne].
  - apply Hl.
  - intros q e'. cbn. destruct (decide (p = q)) as [<-|]; [rewrite lookup_insert_eq|rewrite lookup_insert_ne by done; apply Hq]. intros [= <-]. cbn.
    destruct (Hq _ _ Ee) as [Hlen ?]. split; [|done]. apply Permutation_length in Hperm. cbn in Hperm. lia.
  - intros w k E1. destruct (Ew _ _ _ E1) as [[N1 F1]|(j1 & i1 & -> & Q1 & -> & L1)]; [by eapply Hsplit|]. apply Hni. by apply list_elem_of_lookup_2 in Q1.
Qed.

Lemma lt_accept_spec n p : net_ok n ->
  match lt_accept p n with
  | Ret (Done (Ok (h, _)), n') => net_ok n' /\ n_socks n' = n_socks n /\ kind (n_set n') h = Some true /\ forall w k, sock_owned n' w <> Some (k, h)
  | Ret (Done (Err _), n') => n' = n
  | Ret (Waiting, _) => False
  | Panic => exists h t, n_set n !! h = Some (inl t) /\ (t_local t = None \/ t_remote t = None)
  end.
Proof.
  intros Hok. unfold lt_accept, nbind at 1, nget. cbn. destruct (n_listen n !! p) as [e|] eqn:Ee; [|done].
  assert (Hk : forall h, h ∈ li_syn e -> kind (n_set n) h = Some true).
  { intros h Hin. apply list_elem_of_lookup_1 in Hin as [j Hj]. apply (ok_alive _ Hok (OSyn p j)). cbn. rewrite Ee. cbn. by rewrite Hj. }
  pose proof (find_connected_spec n (li_syn e) 0 Hk) as Hf. unfold nbind at 1.
  destruct (find_connected 0 (li_syn e) n) as [[[[[[[i h] a]|]|er]|] n1]|]; cbn; try done.
  - destruct Hf as (-> & _ & Hi). rewrite Nat.sub_0_r in Hi. destruct (leave_queue_ok n p e i h Hok Ee Hi) as [H1 H2]. split_and!; try done.
    cbn. apply Hk. by apply list_elem_of_lookup_2 in Hi.
  - destruct Hf as (h & t & _ & ?). eauto.
Qed.

(** What a call that accepts leaves: a library socket that is nobody's, for the new
    socket of the kernel. *)
Definition accept_good n (x : outcome (reply TcpSocket * Net T U E)) : Prop :=
  match x with
  | Ret (r, n') => net_ok n' /\ n_socks n' = n_socks n /\
      forall t, r = Done (Ok t) -> exists h l p, t = tcp_new_connected h l p /\ kind (n_set n') h = Some true /\ forall w k, sock_owned n' w <> Some (k, h)
  | Panic => True
  end.

Lemma accept_good_trans n n1 x : n_socks n1 = n_socks n -> accept_good n1 x -> accept_good n x.
Proof. intros Es. unfold accept_good. destruct x as [[r n']|]; [|done]. by rewrite Es. Qed.

Lemma accept_try_good p n : net_ok n -> accept_good n (accept_try p n).
Proof.
  intros Hok. pose proof (lt_accept_spec n p Hok) as Hs. unfold accept_try, nbind. destruct (lt_accept p n) as [[[[[h a]|e]|] n1]|]; cbn; try done.
  - destruct Hs as (? & ? & ? & ?). split_and!; try done. intros t [= <-]. by eauto 10.
  - by subst.
Qed.

Lemma accept_block_good fuel nb p : forall n, net_ok n -> accept_good n (block_on fuel nb (accept_try p) n).
Proof.
  unfold block_on. destruct nb; [apply accept_try_good|]. induction fuel as [|fuel IH]; intros n Hok; [done|]. cbn.
  destruct (iface_poll_ok n Hok) as [H1 S1]. pose proof (accept_try_good p _ H1) as Hs. destruct (accept_try p (iface_poll n)) as [[r n2]|]; [|done]. cbn.
  destruct Hs as (H2 & S2 & Hg). destruct (check_poll_ok (e_now (n_env n)) n2 H2) as [H3 S3]. pose proof (check_poll_grows (e_now (n_env n)) n2) as Hgr.
  set (n3 := check_poll _ n2) in *.
  assert (Hfin : accept_good n (Ret (r, n3))).
  { split_and!; [done|congruence|]. intros t Et. destruct (Hg t Et) as (h & l & q & -> & Hk & Hno). destruct (nobodys_grows _ _ h true Hgr Hk Hno). by eauto 10. }
  destruct r as [[t|e]|]; [exact Hfin| |exact Hfin]. destruct e; try exact Hfin. destruct (e_resume (n_env n3)) as [b e]. destruct b.
  - split_and!; [by apply env_ok|cbn; congruence|done].
  - apply (accept_good_trans _ (with_env n3 e)); [cbn; congruence|]. apply IH. by apply env_ok.
Qed.

Lemma tcp_accept_good fuel n o t : net_ok n -> is_tcp o t (n_socks n) -> accept_good n (tcp_accept fuel o n).
Proof.
  intros Hok Ht. unfold tcp_accept. rewrite (run_sock _ o t) by done. case_bool_decide; [|done]. destruct (ok_tcp _ Hok _ _ Ht) as ([l ->] & _).
  rewrite run_unwrap. by apply accept_block_good.
Qed.

(** ** Polling, and UDP *)

Lemma any_connected_run n q : (forall h, h ∈ q -> kind (n_set n) h = Some true) -> exists b, any_connected q n = Ret (Done (Ok b), n).
Proof.
  induction q as [|h q IH]; intros Hk; [by eexists|]. cbn [any_connected]. destruct (is_connected_run n h) as [b Eb]; [apply Hk; left|].
  rewrite (net_run_bind _ _ _ _ _ Eb). destruct b; [by eexists|]. apply IH. intros h' Hin. apply Hk. by right.
Qed.

Lemma can_accept_keeps F p : keeps F (lt_can_accept p).
Proof.
  intros n Hok HF. unfold lt_can_accept, nbind, nget. cbn. destruct (n_listen n !! p) as [e|] eqn:Ee; [|cbn; eauto].
  destruct (any_connected_run n (li_syn e)) as [b Eb]; [|rewrite Eb; eauto].
  intros h Hin. apply list_elem_of_lookup_1 in Hin as [j Hj]. apply (ok_alive _ Hok (OSyn p j)). cbn. rewrite Ee. cbn. by rewrite Hj.
Qed.

Lemma tcp_poll_step o : tcp_step o (tcp_poll o).
Proof.
  intros n t Hok Ht. destruct (ok_tcp _ Hok _ _ Ht) as (_ & _ & Hh & _).
  assert (Hfix : forall A (m : wcall (Net T U E) A), keeps (is_tcp o t) m -> exists r n' t', m n = Ret (r, n') /\ net_ok n' /\ is_tcp o t' (n_socks n'))
    by (intros A m Hm; destruct (Hm n Hok Ht) as (r & n' & ? & ? & ?); eauto 10).
  unfold tcp_poll. rewrite (run_sock _ o t) by done. destruct (tc_state t) eqn:Es.
  - apply Hfix. unfold poll_closed. destruct (tc_handle t) as [h|] eqn:Eh; keep.
  - apply Hfix. keep.
  - destruct (Hh (or_introl eq_refl)) as [h Eh].
    destruct (nbind_keeps (has_handle o) (poll_connect o) (fun w => nret (mkPoll false w false)) (poll_connect_keeps o)) with (n := n)
      as (r & n' & ? & ? & t' & h' & ? & ?); eauto 10 with keeps. by exists t, h.
  - destruct (Hh (or_intror eq_refl)) as [h Eh]. rewrite Eh. apply Hfix. apply bind_unwrap. unfold poll_stream. keep.
  - apply Hfix. apply nbind_keeps; [keep|]. intros l. apply nbind_keeps; [apply can_accept_keeps|keep].
Qed.

(** A UDP socket keeps its library socket for life. *)
Definition has_udp (o h : nat) (ss : gmap nat Sock) : Prop := exists u, is_udp o u ss /\ ud_handle u = h.

Lemma udp_sock_bind {B} o h (k : UdpSocket -> wcall (Net T U E) B) : (forall u, ud_handle u = h -> keeps (has_udp o h) (k u)) -> keeps (has_udp o h) (nbind (udp_sock o) k).
Proof. intros Hk n Hok (u & Hu & Eh). unfold nbind, udp_sock. rewrite Hu. apply (Hk u Eh); [done|by exists u]. Qed.

Lemma has_udp_with {A} o h (f : U -> result A SysError * U) : keeps (T := T) (E := E) (has_udp o h) (with_udp h f).
Proof.
  intros n Hok (u & Hu & <-). destruct (with_udp_keeps o u f n Hok Hu) as (r & n' & ? & ? & ?). do 2 eexists. split_and!; [done|done|]. by exists u.
Qed.

Lemma has_udp_update o h (f : UdpSocket -> UdpSocket) : (forall u, ud_handle (f u) = ud_handle u) -> keeps (has_udp o h) (udp_update (T := T) (U := U) (E := E) o f).
Proof.
  intros Hf n Hok (u & Hu & Eh). unfold udp_update. rewrite Hu. do 2 eexists. split; [done|]. split; [|exists (f u); split; [unfold is_udp; cbn; by rewrite lookup_insert_eq|by rewrite Hf]].
  destruct Hok as [Ha Hun Ht Hl Hq]. set (n' := with_socks _ _). unfold is_udp in Hu.
  assert (Ew : forall w, sock_owned n' w = sock_owned n w).
  { intros [o'|p i]; cbn; [|done]. destruct (decide (o = o')) as [<-|]; [by rewrite lookup_insert_eq, Hu, Hf|by rewrite lookup_insert_ne]. }
  assert (Hsub : forall o1 t1, n_socks n' !! o1 = Some (TCP t1) -> n_socks n !! o1 = Some (TCP t1)).
  { intros o1 t1. cbn. destruct (decide (o = o1)) as [<-|]; [by rewrite lookup_insert_eq|by rewrite lookup_insert_ne]. }
  constructor; intros *; rewrite ?Ew; eauto.
Qed.

Lemma udp_port_keeps F (b : bool) (p : Z) : keeps (T := T) (U := U) (E := E) F (if b then udp_ephemeral_port else nret p).
Proof. destruct b; [|keep]. intros n Hok HF. do 2 eexists. split_and!; [done| |done]. by apply (ok_same n). Qed.

Lemma set_ports_keeps F g : keeps (T := T) (U := U) (E := E) F (nput (fun n => with_ports n (g n))).
Proof. intros n Hok HF. do 2 eexists. split_and!; [done| |done]. by apply (ok_same n). Qed.

End Ops.

#[export] Hint Resolve has_udp_with has_udp_update udp_port_keeps set_ports_keeps : keeps.
#[export] Hint Extern 1 (keeps _ (nbind (udp_sock _) _)) => (apply udp_sock_bind; intros) : keeps.

Section UdpOps.
Context {T U E : Type} {ST : SmolTcp T U E} {SL : SmolLaws T U E}.
#[local] Abbreviation kept F m := (keeps (T := T) (U := U) (E := E) F m).

Lemma udp_bind_keeps o h ep : kept (has_udp o h) (udp_bind o ep).
Proof.
  unfold udp_bind. apply nbind_keeps; [keep|]. intros port. apply udp_sock_bind. intros u <-. keep.
Qed.

Lemma bind_check_keeps F fd ep : kept F (bind_check fd ep).
Proof. unfold bind_check. keep. Qed.

Lemma udp_bind_any_keeps o h : kept (has_udp o h) (udp_bind_any o).
Proof. unfold udp_bind_any. apply udp_sock_bind. intros u <-. destruct (ud_local u); [keep|apply udp_bind_keeps]. Qed.

#[local] Hint Resolve udp_bind_any_keeps : keeps.

Lemma udp_send_try_keeps o h data remote : kept (has_udp o h) (udp_send_try h data remote).
Proof. unfold udp_send_try. keep. Qed.

Lemma udp_recv_try_keeps o h len : kept (has_udp o h) (udp_recv_try h len).
Proof. unfold udp_recv_try. keep. Qed.

Lemma udp_send_to_keeps fuel o h data remote : kept (has_udp o h) (udp_send_to fuel o data remote).
Proof.
  unfold udp_send_to. case_match; [keep|]. apply nbind_keeps; [keep|]. intros _. apply udp_sock_bind. intros u <-. apply block_on_keeps, udp_send_try_keeps.
Qed.

Lemma udp_send_keeps fuel o h data : kept (has_udp o h) (udp_send fuel o data).
Proof.
  unfold udp_send. apply nbind_keeps; [unfold udp_peer_addr; apply udp_sock_bind; intros u _; keep|]. intros remote.
  apply nbind_keeps; [keep|]. intros _. apply udp_sock_bind. intros u <-. apply block_on_keeps, udp_send_try_keeps.
Qed.

Lemma udp_recv_keeps fuel o h len : kept (has_udp o h) (udp_recv fuel o len).
Proof. unfold udp_recv. apply udp_sock_bind. intros u <-. destruct (ud_local u); [apply block_on_keeps, udp_recv_try_keeps|keep]. Qed.

Lemma udp_connect_keeps o h addr : kept (has_udp o h) (udp_connect o addr).
Proof. unfold udp_connect. keep. Qed.

Lemma udp_shutdown_keeps o h : kept (has_udp o h) (udp_shutdown o).
Proof. unfold udp_shutdown. apply udp_sock_bind. intros u <-. keep. Qed.

Lemma udp_poll_keeps o h : kept (has_udp o h) (udp_poll o).
Proof. unfold udp_poll. apply udp_sock_bind. intros u <-. keep. Qed.

End UdpOps.
