(* ===== verification/NetCalls.v ===== *)
(** The system calls on sockets (os/src/syscall/net.rs) and what they need of a socket
    as a file (os/src/net/socket.rs): on the network, the descriptors of the task and its
    memory. *)

From S2P Require Import Prelude Errno FdTable PageCache UserMem FsCalls Wait NetAddr Net.

#[local] Open Scope Z_scope.

(** ** Constants *)

Inductive SocketType := STREAM | DGRAM | RAW | RDM | SEQPACKET | DCCP | PACKET.

Definition SocketType_try_from (v : Z) : result SocketType SysError :=
  if v =? 1 then Ok STREAM else if v =? 2 then Ok DGRAM else if v =? 3 then Ok RAW else if v =? 4 then Ok RDM
  else if v =? 5 then Ok SEQPACKET else if v =? 6 then Ok DCCP else if v =? 10 then Ok PACKET else Err EINVAL.

Definition SOCK_NONBLOCK : Z := 0x800.
Definition SOCK_CLOEXEC : Z := 0x80000.

Inductive SocketLevel := IpprotoIp | SolSocket | IpprotoTcp | IpprotoIpv6.

Definition SocketLevel_try_from (v : Z) : result SocketLevel SysError :=
  if v =? 0 then Ok IpprotoIp else if v =? 1 then Ok SolSocket else if v =? 6 then Ok IpprotoTcp
  else if v =? 41 then Ok IpprotoIpv6 else Err EINVAL.

(** The options that [getsockopt] knows; an option it does not know is [DEBUG]. *)
Inductive SocketOption := SNDBUF | RCVBUF | ERROR | OtherOption (v : Z).

Definition SocketOption_try_from (v : Z) : SocketOption :=
  if v =? 7 then SNDBUF else if v =? 8 then RCVBUF else if v =? 4 then ERROR
  else if ((1 <=? v) && (v <=? 27)) || (v =? 32) || (v =? 33) then OtherOption v else OtherOption 1.

Inductive TcpSocketOption := NODELAY | MAXSEG | INFO | CONGESTION.

Definition TcpSocketOption_try_from (v : Z) : result TcpSocketOption SysError :=
  if v =? 1 then Ok NODELAY else if v =? 2 then Ok MAXSEG else if v =? 11 then Ok INFO
  else if v =? 13 then Ok CONGESTION else Err EINVAL.

(** ** The state of a call *)

(** The files of the table: sockets, by the number of the socket, and all others. *)
Inductive NFile := NSock (o : nat) (ty : SocketType) | NOther (id : nat).

Section Calls.
Context {T U E : Type} {ST : SmolTcp T U E}.
Context {M : Type} {UB : UserBytes M}.

(** [nk_held] are the sockets that other processes have open, [nk_next] the next free
    number, [nk_intr] the status of the task. *)
Record NKern := mkNKern {
  nk_net : Net T U E;
  nk_fds : FdTable NFile;
  nk_held : list nat;
  nk_next : nat;
  nk_mem : M;
  nk_vm : Z;
  nk_intr : bool;
}.

#[local] Abbreviation kc := (wcall NKern).

Definition nk_with_net (k : NKern) (n : Net T U E) : NKern := mkNKern n (nk_fds k) (nk_held k) (nk_next k) (nk_mem k) (nk_vm k) (nk_intr k).
Definition nk_with_fds (k : NKern) (t : FdTable NFile) : NKern := mkNKern (nk_net k) t (nk_held k) (nk_next k) (nk_mem k) (nk_vm k) (nk_intr k).
Definition nk_with_next (k : NKern) (i : nat) : NKern := mkNKern (nk_net k) (nk_fds k) (nk_held k) i (nk_mem k) (nk_vm k) (nk_intr k).
Definition nk_with_mem (k : NKern) (m : M) : NKern := mkNKern (nk_net k) (nk_fds k) (nk_held k) (nk_next k) m (nk_vm k) (nk_intr k).
Definition nk_with_intr (k : NKern) (b : bool) : NKern := mkNKern (nk_net k) (nk_fds k) (nk_held k) (nk_next k) (nk_mem k) (nk_vm k) b.

Definition on_net {A} (m : wcall (Net T U E) A) : kc A := fun k => let! r := m (nk_net k) in Ret (r.1, nk_with_net k r.2).

Definition fds_call {A} (f : FdTable NFile -> result A SysError * FdTable NFile) : kc A :=
  fun k => let r := f (nk_fds k) in Ret (Done r.1, nk_with_fds k r.2).

Definition mem_read (ptr len : Z) : kc (list Z) := fun k =>
  let! r := ub_read (nk_mem k) (nk_vm k) ptr len in Ret (Done (Ok r.1), nk_with_mem k r.2).
Definition mem_write (ptr : Z) (bytes : list Z) : kc unit := fun k =>
  let! m := ub_write (nk_mem k) (nk_vm k) ptr bytes in Ret (Done (Ok tt), nk_with_mem k m).

Definition lift_result {A} (r : result A SysError) : kc A := match r with Ok a => nret a | Err e => nerr e end.
Definition lift_outcome {A} (o : outcome A) : kc A := match o with Ret a => nret a | Panic => npanic end.

(** ** The life of a socket *)

(** The sockets that some descriptor refers to. *)
Definition nk_refs (k : NKern) : list nat :=
  nk_held k ++ omap (fun i => match i with Some i => match fi_file i with NSock o _ => Some o | NOther _ => None end | None => None end) (ft_table (nk_fds k)).

(** The last reference is gone: the socket is dropped. *)
Fixpoint drop_all (os : list nat) : wcall (Net T U E) unit :=
  match os with [] => nret tt | o :: os => let@ _ := sock_drop o in drop_all os end.

Definition sweep : kc unit := fun k =>
  on_net (drop_all (filter (fun o => o ∉ nk_refs k) (elements (dom (n_socks (nk_net k)))))) k.

(** A call whose temporary references end when it returns. *)
Definition scoped {A} (m : kc A) : kc A := fun k =>
  let! r := m k in
  match r.1 with Waiting => Ret r | _ => let! s := sweep r.2 in Ret (r.1, s.2) end.

(** The socket behind a descriptor; another file is a panic. *)
Definition sock_file (fd : Z) : kc (nat * SocketType) :=
  let@ f := fds_call (fun t => (get_file t (fdn fd), t)) in
  match f with NSock o ty => nret (o, ty) | NOther _ => npanic end.

(** A number for a new object. *)
Definition fresh_id : kc nat := fun k => Ret (Done (Ok (nk_next k)), nk_with_next k (S (nk_next k))).

Definition new_sock (s : Sock) : kc nat :=
  let@ o := fresh_id in
  let@ _ := on_net (nput (fun n => with_socks n (<[o := s]> (n_socks n)))) in
  nret o.

Definition alloc_and_put (f : NFile) (flags : Z) : kc nat :=
  let@ fd := fds_call alloc_fd in
  let@ _ := fds_call (fun t => put_file t fd (mkFdInfo f flags)) in
  nret fd.

(** [Socket::new]; other types than these two are not implemented. *)
Definition Socket_new (ty : SocketType) (nonblock : bool) : kc nat :=
  let@ o := match ty with
    | STREAM => new_sock (TCP tcp_new_without_handle)
    | DGRAM => let@ u := on_net udp_new in new_sock (UDP u)
    | _ => npanic
    end in
  let@ _ := if nonblock then on_net (sock_set_nonblocking o) else nret tt in
  nret o.

Definition sys_socket (domain types : Z) : kc nat :=
  scoped (
    let@ _ := lift_result (SaFamily_try_from (domain mod 2 ^ 16)) in
    let nonblock := intersects types SOCK_NONBLOCK in
    let types := if nonblock then Z.ldiff types SOCK_NONBLOCK else types in
    let cloexec := intersects types SOCK_CLOEXEC in
    let types := if cloexec then Z.ldiff types SOCK_CLOEXEC else types in
    let@ ty := lift_result (SocketType_try_from types) in
    let@ o := Socket_new ty nonblock in
    alloc_and_put (NSock o ty) (FdFlags_from cloexec)).

(** ** Addresses in user memory *)

Definition bad_fd (fd : Z) : bool := to_i64 fd <? 0.

Definition read_sockaddr (addr addr_len : Z) : kc SockAddr :=
  let@ b := mem_read addr 2 in
  let@ family := lift_result (SaFamily_try_from (u16_at b 0)) in
  if addr_len <? sa_size family then nerr EINVAL else mem_read addr (sa_size family).

(** The structure of the family, and its size where the length belongs. *)
Definition write_sockaddr (addr addr_len : Z) (s : SockAddr) : kc unit :=
  match SaFamily_try_from (sa_family s) with
  | Err _ => npanic
  | Ok f =>
      let@ _ := mem_write addr s in
      mem_write addr_len (le_bytes 4 (sa_size f))
  end.

(** ** The calls *)

(** [Sock::bind]: a UDP port that has the same address already makes the descriptor a
    copy of the recorded one. *)
Definition sock_bind (o : nat) (fd : nat) (a : SockAddr) : kc unit :=
  let@ ep := lift_outcome (into_listen_endpoint a) in
  let@ s := on_net (sock o) in
  match s with
  | TCP _ => on_net (tcp_bind o (mkEndpoint (default ZERO_IPV4_ADDR (le_addr ep)) (le_port ep)))
  | UDP _ =>
      let@ used := on_net (bind_check fd ep) in
      match used with
      | Some used => let@ _ := fds_call (fun t => dup3_with_flags t used fd) in nret tt
      | None => on_net (udp_bind o ep)
      end
  end.

Definition sys_bind (fd addr addr_len : Z) : kc unit :=
  scoped (
    if bad_fd fd then nerr EBADF else
    let@ a := read_sockaddr addr addr_len in
    let@ f := sock_file fd in
    sock_bind f.1 (fdn fd) a).

Definition sys_listen (fd : Z) : kc unit :=
  if bad_fd fd then nerr EBADF else let@ f := sock_file fd in on_net (sock_listen f.1).

Definition sys_connect (fuel : nat) (fd addr addr_len : Z) : kc unit :=
  if bad_fd fd then nerr EBADF else
  let@ a := read_sockaddr addr addr_len in
  let@ f := sock_file fd in
  let@ e := lift_outcome (into_endpoint a) in
  on_net (sock_connect fuel f.1 e).

Definition set_intr (b : bool) : kc unit := nput (fun k => nk_with_intr k b).

Definition sys_accept (fuel : nat) (fd addr addr_len : Z) : kc nat :=
  scoped (
    if bad_fd fd then nerr EBADF else
    let@ f := sock_file fd in
    let@ _ := set_intr true in
    let@ t := on_net (sock_accept fuel f.1) in
    let@ _ := set_intr false in
    let@ o := new_sock (TCP t) in
    let@ peer := fun k => let! r := on_net (tcp_peer_addr o) k in match r.1 with Done (Ok _) => Ret r | _ => Panic end in
    let@ _ := write_sockaddr addr addr_len (from_endpoint peer) in
    alloc_and_put (NSock o f.2) 0).

(** The bytes to send are those of the buffer when the socket is asked. *)
Definition sys_sendto (fuel : nat) (fd buf len addr addr_len : Z) : kc Z :=
  if bad_fd fd then nerr EBADF else
  let@ f := sock_file fd in
  let@ _ := set_intr true in
  let@ n := match f.2 with
    | DGRAM =>
        let@ remote := if addr =? 0 then nret None else
          let@ a := read_sockaddr addr addr_len in
          let@ e := lift_outcome (into_endpoint a) in nret (Some e) in
        let@ data := mem_read buf len in
        on_net (sock_send fuel f.1 data remote)
    | STREAM => if addr =? 0 then let@ data := mem_read buf len in on_net (sock_send fuel f.1 data None) else nerr EISCONN
    | _ => npanic
    end in
  let@ _ := set_intr false in
  nret n.

Definition sys_recvfrom (fuel : nat) (fd buf len addr addr_len : Z) : kc Z :=
  if bad_fd fd then nerr EBADF else
  let@ f := sock_file fd in
  let@ _ := set_intr true in
  let@ r := on_net (sock_recv fuel f.1 len) in
  let@ _ := set_intr false in
  let@ _ := mem_write buf r.1 in
  let@ _ := if addr =? 0 then nret tt else write_sockaddr addr addr_len (from_endpoint r.2) in
  nret (zlen r.1).

Definition sys_getsockname (fd addr addr_len : Z) : kc unit :=
  if bad_fd fd then nerr EBADF else
  let@ f := sock_file fd in
  let@ a := on_net (sock_local_addr f.1) in
  write_sockaddr addr addr_len a.

(** An address that is missing is a panic. *)
Definition sys_getpeername (fd addr addr_len : Z) : kc unit :=
  if bad_fd fd then nerr EBADF else
  let@ f := sock_file fd in
  let@ a := fun k => let! r := on_net (sock_peer_addr f.1) k in match r.1 with Done (Ok _) => Ret r | _ => Panic end in
  write_sockaddr addr addr_len a.

Definition sys_setsockopt (fd level option_name option_value option_len : Z) : kc unit := nret tt.

Definition store_u32 (ptr v : Z) : kc unit := mem_write ptr (le_bytes 4 v).

Definition sys_getsockopt (level option_name option_value option_len : Z) : kc unit :=
  let put v := let@ _ := store_u32 option_value v in store_u32 option_len 4 in
  let@ level := lift_result (SocketLevel_try_from level) in
  match level with
  | SolSocket =>
      match SocketOption_try_from option_name with
      | SNDBUF => put (64 * 1024)
      | RCVBUF => put (64 * 1024)
      | ERROR => put 0
      | OtherOption _ => npanic
      end
  | IpprotoTcp | IpprotoIp =>
      let@ opt := lift_result (TcpSocketOption_try_from option_name) in
      match opt with
      | NODELAY => put 0
      | MAXSEG => put 1460
      | INFO => nret tt
      | CONGESTION =>
          (* the bytes of a string, and a zero *)
          let@ _ := mem_write option_value [114; 101; 110; 111; 0] in store_u32 option_len 4
      end
  | IpprotoIpv6 => nret tt
  end.

Definition sys_shutdown (fd how : Z) : kc unit :=
  if bad_fd fd then nerr EBADF else
  let@ f := sock_file fd in
  on_net (sock_shutdown f.1 (how mod 256)).

(** Two ends of one pipe. *)
Definition sys_socketpair (sv : Z) : kc unit :=
  let@ r := fresh_id in
  let@ w := fresh_id in
  let@ rfd := alloc_and_put (NOther r) 0 in
  let@ wfd := alloc_and_put (NOther w) 0 in
  mem_write sv (le_bytes 4 (Z.of_nat rfd) ++ le_bytes 4 (Z.of_nat wfd)).

(** *** Messages *)

Record MsgHdr := mkMsg { msg_name : Z; msg_namelen : Z; msg_iov : Z; msg_iovlen : Z }.

Definition read_msghdr (ptr : Z) : kc MsgHdr :=
  let@ b := mem_read ptr 48 in
  nret (mkMsg (field b 0 8) (field b 8 4) (field b 16 8) (field b 24 4)).

(** The vectors: a base and a length each. *)
Fixpoint iovs_of (n : nat) (b : list Z) : list (Z * Z) :=
  match n with O => [] | S n => (field b 0 8, field b 8 8) :: iovs_of n (drop 16 b) end.

Definition read_iovs (msg : MsgHdr) : kc (list (Z * Z)) :=
  let@ b := mem_read (msg_iov msg) (16 * msg_iovlen msg) in
  nret (iovs_of (Z.to_nat (msg_iovlen msg)) b).

Fixpoint sendmsg_loop (fuel : nat) (o : nat) (e : IpEndpoint) (iovs : list (Z * Z)) (total : Z) : kc Z :=
  match iovs with
  | [] => nret total
  | (base, len) :: iovs =>
      if len =? 0 then sendmsg_loop fuel o e iovs total
      else
        let@ data := mem_read base len in
        let@ n := on_net (sock_send fuel o data (Some e)) in
        sendmsg_loop fuel o e iovs (wadd total n)
  end.

Definition sys_sendmsg (fuel : nat) (fd msg : Z) : kc Z :=
  if bad_fd fd then nerr EBADF else
  let@ f := sock_file fd in
  let@ m := read_msghdr msg in
  let@ a := read_sockaddr (msg_name m) (msg_namelen m) in
  let@ e := lift_outcome (into_endpoint a) in
  let@ iovs := read_iovs m in
  sendmsg_loop fuel f.1 e iovs 0.

(** The data over the vectors, as much as they hold. *)
Fixpoint scatter (data : list Z) (iovs : list (Z * Z)) (copied : Z) : kc Z :=
  match iovs with
  | [] => nret copied
  | (base, len) :: iovs =>
      if zlen data <=? copied then nret copied
      else
        let to_copy := Z.min len (zlen data - copied) in
        let@ _ := mem_write base (ztake to_copy (zdrop copied data)) in
        scatter data iovs (copied + to_copy)
  end.

(** The length of the name is written to the address that is the length. *)
Definition sys_recvmsg (fuel : nat) (fd msg : Z) : kc Z :=
  if bad_fd fd then nerr EBADF else
  let@ f := sock_file fd in
  let@ m := read_msghdr msg in
  let@ iovs := read_iovs m in
  let@ r := on_net (sock_recv fuel f.1 (64 * 1024)) in
  let@ copied := scatter r.1 iovs 0 in
  let@ _ := if msg_name m =? 0 then nret tt else write_sockaddr (msg_name m) (msg_namelen m) (from_endpoint r.2) in
  nret copied.

End Calls.
Arguments NKern : clear implicits.
