(* ===== verification/NetClaims.v ===== *)
(** What holds of the network layer: nobody uses a library socket that is gone or is
    another's, whatever the order of the calls; and what does not: connections cannot be
    half closed, a reset in the queue and a call on a socket that was shut down too early
    panic, a UDP port of another process gives a file of one's own, bytes of a message
    are lost, and the locks are taken in two orders. *)

From S2P Require Import Prelude Errno FdTable PageCache PageCacheProofs UserMem FsCalls Wait NetAddr Net NetProofs NetCalls.

#[local] Open Scope Z_scope.

(** ** Calls in any order *)

(** The operations of sockets, by whichever task; [o'] is the number of the socket that
    an [accept] makes. *)
Inductive net_op :=
| NTcp (o : nat) | NUdp (o : nat) | NBind (o : nat) (ep : IpListenEndpoint) | NBindCheck (fd : nat) (ep : IpListenEndpoint)
| NListen (o : nat) | NConnect (o : nat) (addr : IpEndpoint) | NAccept (o o' : nat)
| NSend (o : nat) (data : list Z) (remote : option IpEndpoint) | NRecv (o : nat) (len : Z)
| NShutdown (o : nat) (how : Z) | NPoll (o : nat) | NDrop (o : nat) | NTimer.

Section Reach.
Context {T U E : Type} {ST : SmolTcp T U E}.
Implicit Types n : Net T U E.

Definition put_sock (o : nat) (s : Sock) : wcall (Net T U E) unit := nput (fun n => with_socks n (<[o := s]> (n_socks n))).

Definition run_op (fuel : nat) (op : net_op) : wcall (Net T U E) unit :=
  match op with
  | NTcp o => put_sock o (TCP tcp_new_without_handle)
  | NUdp o => let@ u := udp_new in put_sock o (UDP u)
  | NBind o ep => let@ s := sock o in match s with TCP _ => tcp_bind o (to_endpoint ep) | UDP _ => udp_bind o ep end
  | NBindCheck fd ep => drop_result (bind_check fd ep)
  | NListen o => sock_listen o
  | NConnect o addr => sock_connect fuel o addr
  | NAccept o o' => let@ t := sock_accept fuel o in put_sock o' (TCP t)
  | NSend o data remote => drop_result (sock_send fuel o data remote)
  | NRecv o len => drop_result (sock_recv fuel o len)
  | NShutdown o how => sock_shutdown o how
  | NPoll o => drop_result (sock_poll o)
  | NDrop o => sock_drop o
  | NTimer => nput (fun n => (poll_interfaces n).2)
  end.

(** The socket is there; a new one has a new number. *)
Definition op_ready n (op : net_op) : Prop :=
  match op with
  | NTcp o | NUdp o => n_socks n !! o = None
  | NAccept o o' => is_Some (n_socks n !! o) /\ n_socks n !! o' = None
  | NBind o _ | NListen o | NConnect o _ | NSend o _ _ | NRecv o _ | NShutdown o _ | NPoll o | NDrop o => is_Some (n_socks n !! o)
  | NBindCheck _ _ | NTimer => True
  end.

(** The panics that there are: an [accept], and a transfer on a socket that was shut
    down before it had a connection. *)
Definition may_panic n (op : net_op) : Prop :=
  match op with
  | NAccept _ _ => True
  | NSend o _ _ | NRecv o _ => exists t, n_socks n !! o = Some (TCP t) /\ tc_shutdown t <> 0 /\ tc_handle t = None
  | _ => False
  end.

Definition net_new (e : E) (task : nat) : Net T U E := mkNet e ∅ PORT_START PORT_START ∅ ∅ ∅ task [] [].

Definition with_task n (task : nat) : Net T U E :=
  mkNet (n_env n) (n_set n) (n_curr n) (n_udp_curr n) (n_listen n) (n_ports n) (n_socks n) task (n_woken n) (n_timers n).

(** Any task runs any operation; the environment may change in between. *)
Inductive net_reach : Net T U E -> Prop :=
| NrNew e task : net_reach (net_new e task)
| NrTask n task : net_reach n -> net_reach (with_task n task)
| NrEnv n e : net_reach n -> net_reach (with_env n e)
| NrOp fuel n op r n' : net_reach n -> op_ready n op -> run_op fuel op n = Ret (r, n') -> net_reach n'.

End Reach.

Section Safe.
Context {T U E : Type} {ST : SmolTcp T U E} {SL : SmolLaws T U E}.
Implicit Types n : Net T U E.

Lemma net_new_ok (e : E) task : net_ok (net_new (T := T) (U := U) e task).
Proof.
  assert (Ho : forall w, sock_owned (net_new (T := T) (U := U) e task) w = None) by (by intros [o|p i]; cbn; rewrite lookup_empty).
  constructor; intros *; rewrite ?Ho; cbn; by rewrite ?lookup_empty.
Qed.

(** What one operation does, with the kind of its socket known. *)
Definition op_good n (op : net_op) (x : outcome (reply unit * Net T U E)) : Prop :=
  match x with Ret (_, n') => net_ok n' | Panic => may_panic n op end.

Lemma good_step {A} n o t (m : wcall (Net T U E) A) : tcp_step o m -> net_ok n -> is_tcp o t (n_socks n) -> exists r n', m n = Ret (r, n') /\ net_ok n'.
Proof. intros Hm Hok Ht. destruct (Hm n t Hok Ht) as (r & n' & t' & ? & ? & ?). eauto. Qed.

Lemma good_keeps {A} n F (m : wcall (Net T U E) A) : keeps F m -> net_ok n -> F (n_socks n) -> exists r n', m n = Ret (r, n') /\ net_ok n'.
Proof. intros Hm Hok HF. destruct (Hm n Hok HF) as (r & n' & ? & ? & ?). eauto. Qed.

Lemma good_done n op (m : wcall (Net T U E) unit) : (exists r n', m n = Ret (r, n') /\ net_ok n') -> op_good n op (m n).
Proof. intros (r & n' & -> & H). exact H. Qed.

Lemma good_ignore {A} n op (m : wcall (Net T U E) A) : (exists r n', m n = Ret (r, n') /\ net_ok n') -> op_good n op (drop_result m n).
Proof. intros (r & n' & E1 & H). unfold drop_result. rewrite E1. exact H. Qed.

Lemma run_kind {B} n o s (k : Sock -> wcall (Net T U E) B) : n_socks n !! o = Some s -> nbind (sock o) k n = k s n.
Proof. intros Es. unfold nbind, sock, nbind, nget, nunwrap. cbn. by rewrite Es. Qed.

Lemma stream_dec t : has_stream t \/ (tc_shutdown t <> 0 /\ tc_handle t = None).
Proof. unfold has_stream. destruct (decide (tc_shutdown t = 0)); [by auto|]. destruct (tc_handle t); eauto. Qed.

(** Sending and receiving on any TCP socket. *)
Definition transfer_good n t {A} (x : outcome (reply A * Net T U E)) : Prop :=
  match x with Ret (_, n') => net_ok n' | Panic => tc_shutdown t <> 0 /\ tc_handle t = None end.

Lemma tcp_send_good fuel n o t data : net_ok n -> is_tcp o t (n_socks n) -> transfer_good n t (tcp_send fuel o data n).
Proof.
  intros Hok Ht. destruct (stream_dec t) as [Hs|Hs]; [destruct (tcp_send_keeps fuel o t data Hs n Hok Ht) as (r & n' & -> & ? & _); done|].
  unfold tcp_send. rewrite (run_sock _ o t), (proj2 Hs) by done. by repeat case_match.
Qed.

Lemma tcp_recv_good fuel n o t len : net_ok n -> is_tcp o t (n_socks n) -> transfer_good n t (tcp_recv fuel o len n).
Proof.
  intros Hok Ht. destruct (stream_dec t) as [Hs|Hs]; [destruct (tcp_recv_keeps fuel o t len Hs n Hok Ht) as (r & n' & -> & ? & _); done|].
  unfold tcp_recv. rewrite (run_sock _ o t), (proj2 Hs) by done. destruct (peer_addr_keeps o t n Hok Ht) as (r & n1 & E1 & H1 & _).
  repeat case_match; try done; unfold nbind; rewrite E1; destruct r as [[a|e]|]; done.
Qed.

Lemma good_transfer {A} n op o t (m : wcall (Net T U E) A) : is_tcp o t (n_socks n) ->
  match op with NSend o' _ _ | NRecv o' _ => o' = o | _ => False end -> transfer_good n t (m n) -> op_good n op (drop_result m n).
Proof. intros Ht Ho Hg. unfold drop_result. destruct (m n) as [[r n']|]; [done|]. destruct op; try done; subst; by exists t. Qed.

Lemma tcp_op_good fuel n op o t : net_ok n -> is_tcp o t (n_socks n) -> op_ready n op ->
  match op with NBind o' _ | NListen o' | NConnect o' _ | NAccept o' _ | NSend o' _ _ | NRecv o' _ | NShutdown o' _ | NPoll o' | NDrop o' => o' = o | _ => False end ->
  op_good n op (run_op fuel op n).
Proof.
  intros Hok Ht Hre Ho. assert (Hk : forall B (k : Sock -> wcall (Net T U E) B), nbind (sock o) k n = k (TCP t) n) by (intros; by apply run_kind).
  destruct op; try done; subst; cbn [run_op].
  - rewrite Hk. eapply good_done, good_step; eauto using tcp_bind_step.
  - unfold sock_listen. rewrite Hk. eapply good_done, good_step; eauto using tcp_listen_step.
  - unfold sock_connect. rewrite Hk. eapply good_done, good_step; eauto using tcp_connect_step.
  - unfold sock_accept. unfold nbind at 1. rewrite Hk. pose proof (tcp_accept_good fuel n o t Hok Ht) as Hg.
    destruct (tcp_accept fuel o n) as [[[[t'|e]|] n1]|]; cbn; try done; [|by destruct Hg|by destruct Hg].
    destruct Hg as (H1 & S1 & Hg). destruct (Hg t' eq_refl) as (h & l & p & -> & Hkind & Hno). cbn.
    apply (new_owner_ok n1 o' (TCP _) true h); try done. rewrite S1. apply Hre.
  - eapply good_transfer; [done|done|]. unfold sock_send. rewrite Hk. by apply tcp_send_good with (o := o).
  - eapply good_transfer; [done|done|]. unfold sock_recv. rewrite Hk. by apply tcp_recv_good with (o := o).
  - unfold sock_shutdown. rewrite Hk. eapply good_done, good_step; eauto using tcp_shutdown_step.
  - apply good_ignore. unfold sock_poll. rewrite Hk. eapply good_step; eauto using tcp_poll_step.
  - destruct (tcp_drop_ok n o t Hok Ht) as (n' & -> & ? & _). done.
Qed.

Lemma udp_op_good fuel n op o u : net_ok n -> is_udp o u (n_socks n) ->
  match op with NBind o' _ | NListen o' | NConnect o' _ | NAccept o' _ | NSend o' _ _ | NRecv o' _ | NShutdown o' _ | NPoll o' | NDrop o' => o' = o | _ => False end ->
  op_good n op (run_op fuel op n).
Proof.
  intros Hok Hu Ho. assert (Hk : forall B (k : Sock -> wcall (Net T U E) B), nbind (sock o) k n = k (UDP u) n) by (intros; by apply run_kind).
  assert (Hh : has_udp o (ud_handle u) (n_socks n)) by by exists u.
  destruct op; try done; subst; cbn [run_op].
  - rewrite Hk. eapply good_done, good_keeps; eauto using udp_bind_keeps.
  - unfold sock_listen. by rewrite Hk.
  - unfold sock_connect. rewrite Hk. eapply good_done, good_keeps; eauto using udp_connect_keeps.
  - unfold sock_accept. unfold nbind at 1. by rewrite Hk.
  - apply good_ignore. unfold sock_send. rewrite Hk. destruct remote; eapply good_keeps; eauto using udp_send_to_keeps, udp_send_keeps.
  - apply good_ignore. unfold sock_recv. rewrite Hk. eapply good_keeps; eauto using udp_recv_keeps.
  - unfold sock_shutdown. rewrite Hk. eapply good_done, good_keeps; eauto using udp_shutdown_keeps.
  - apply good_ignore. unfold sock_poll. rewrite Hk. eapply good_keeps; eauto using udp_poll_keeps.
  - destruct (udp_drop_ok n o u Hok Hu) as (n' & -> & ? & _). done.
Qed.

Lemma op_any_good fuel n op : net_ok n -> op_ready n op -> op_good n op (run_op fuel op n).
Proof.
  intros Hok Hre.
  assert (Hs : forall o, is_Some (n_socks n !! o) -> (exists t, is_tcp o t (n_socks n)) \/ (exists u, is_udp o u (n_socks n))).
  { intros o [[t|u] Eo]; [left; by exists t|right; by exists u]. }
  destruct op; try (destruct (Hs o) as [[t Ht]|[u Hu]]; [by apply Hre|by eapply tcp_op_good|by eapply udp_op_good]); cbn [run_op].
  - by apply new_tcp_ok.
  - unfold udp_new. destruct (add_socket_ok n (inr u_new) Hok) as (h & Ea & Hk & H1). unfold nbind. rewrite Ea. cbn.
    apply (new_owner_ok (with_set n _) o (UDP _) false h); try done; [unfold kind; cbn; by rewrite lookup_insert_eq|].
    intros w k' E1. apply (ok_alive _ Hok w) in E1. congruence.
  - apply good_ignore. eapply good_keeps; [apply (bind_check_keeps (fun _ => True))|done|done].
  - cbn. by apply iface_poll_ok.
Qed.

Lemma reach_ok n : net_reach n -> net_ok n.
Proof.
  induction 1 as [e task|n task _ IH|n e _ IH|fuel n op r n' _ IH Hre E1].
  - apply net_new_ok.
  - by apply (ok_same n).
  - by apply (ok_same n).
  - pose proof (op_any_good fuel n op IH Hre) as Hg. by rewrite E1 in Hg.
Qed.


End Safe.

(** ** A library in memory *)

(** A socket is its state, its endpoints and the bytes it has received; the environment
    is the frames of each poll: 1 and a port for a SYN, 2 for a reset, 3 and bytes for
    data. *)
Record MTcp := mkMT { mt_state : TcpState; mt_local : option IpEndpoint; mt_remote : option IpEndpoint; mt_rx : list Z }.

Definition client : IpEndpoint := mkEndpoint (Ipv4 [10; 0; 0; 2]) 40000.

Definition mini_frame (f : list Z) (s : MTcp + option IpListenEndpoint) : MTcp + option IpListenEndpoint :=
  match f, s with
  | [1; port], inl (mkMT StListen _ _ rx) => inl (mkMT StEstablished (Some (mkEndpoint LOCAL_IPV4 port)) (Some client) rx)
  | [2], inl (mkMT StEstablished _ _ rx) => inl (mkMT StClosed None None rx)
  | 3 :: bytes, inl (mkMT StEstablished l r rx) => inl (mkMT StEstablished l r (rx ++ bytes))
  | _, _ => s
  end.

#[export] Instance mini : SmolTcp MTcp (option IpListenEndpoint) (list (list (list Z))) := {
  t_new := mkMT StClosed None None [];
  t_state := mt_state;
  t_local := mt_local;
  t_remote := mt_remote;
  t_connect _ s a ep := match mt_state s with
    | StClosed => Ok (mkMT StSynSent (Some (to_endpoint ep)) (Some a) [])
    | _ => Err ConnInvalidState end;
  t_listen s ep := match mt_state s with StClosed => Some (mkMT StListen None None []) | _ => None end;
  t_close s := mkMT StFinWait1 (mt_local s) (mt_remote s) (mt_rx s);
  t_active s := match mt_state s with StClosed | StListen => false | _ => true end;
  t_may_send s := match mt_state s with StEstablished => true | _ => false end;
  t_can_send s := match mt_state s with StEstablished => true | _ => false end;
  t_may_recv s := match mt_state s with StEstablished | StFinWait1 => true | _ => false end;
  t_can_recv s := negb (bool_decide (mt_rx s = []));
  t_recv_queue s := zlen (mt_rx s);
  t_send s data := Some (zlen data, s);
  t_recv s len := Some (ztake len (mt_rx s), mkMT (mt_state s) (mt_local s) (mt_remote s) (zdrop len (mt_rx s)));
  t_send_waker s _ := s;
  t_recv_waker s _ := s;
  u_new := None;
  u_bind s ep := match s with None => Ok (Some ep) | Some _ => Err BindInvalidState end;
  u_close _ := None;
  u_open s := bool_decide (is_Some s);
  u_can_send _ := true;
  u_can_recv _ := false;
  u_send s _ _ := Ok s;
  u_recv s _ := (None, s);
  u_send_waker s _ := s;
  u_recv_waker s _ := s;
  s_index X := S (max_list (elements X));
  e_frames e := match e with [] => ([], []) | fs :: e => (fs, e) end;
  e_process e f s := (mini_frame f <$> s, [], e);
  e_egress e s := (s, [], e);
  e_wire f := match f with [1; port] => Some (Some (client, mkEndpoint LOCAL_IPV4 port, true, false)) | _ => Some None end;
  e_delay _ _ := None;
  e_now _ := 0;
  e_resume e := (false, e) }.

#[export] Instance mini_laws : SmolLaws MTcp (option IpListenEndpoint) (list (list (list Z))).
Proof.
  constructor.
  - intros X Hin. apply elem_of_elements, max_list_elem_of_le in Hin. cbn in Hin. lia.
  - intros e f s h. unfold kind. cbn. rewrite lookup_fmap. destruct (s !! h) as [x|]; [|done]. cbn. f_equal.
    unfold mini_frame. repeat case_match; done.
  - done.
  - intros e s a ep s'. cbn. destruct (mt_state s); try done. intros [= <-]. cbn. split; by eexists.
Qed.

(** Operations in a row, from a network with nothing in it. *)
Fixpoint net_run {T U E} {ST : SmolTcp T U E} (n : Net T U E) (ops : list net_op) : outcome (Net T U E) :=
  match ops with [] => Ret n | op :: ops => let! r := run_op 2 op n in net_run r.2 ops end.

(** A server: a socket that is bound, nonblocking and listens on port 80; a client whose
    request arrives, then what the frames say. *)
Definition server_ops : list net_op := [NTcp 0; NBind 0 (mkListen None 80); NListen 0; NTimer].

Definition set_nonblocking_all (n : Net MTcp (option IpListenEndpoint) (list (list (list Z)))) : Net MTcp (option IpListenEndpoint) (list (list (list Z))) :=
  with_socks n ((fun s => match s with TCP t => TCP (set_nonblock t true) | UDP u => UDP u end) <$> n_socks n).

Definition server (frames : list (list (list Z))) : Net MTcp (option IpListenEndpoint) (list (list (list Z))) :=
  match net_run (net_new frames 1) server_ops with Ret n => set_nonblocking_all n | Panic => net_new frames 1 end.

#[local] Instance op_ready_dec {T U E} {ST : SmolTcp T U E} (n : Net T U E) op : Decision (op_ready n op).
Proof. destruct op; cbn; apply _. Defined.

(** Every operation of a run is ready when its turn comes. *)
Fixpoint run_ready {T U E} {ST : SmolTcp T U E} (n : Net T U E) (ops : list net_op) : bool :=
  match ops with
  | [] => true
  | op :: ops => bool_decide (op_ready n op) && match run_op 2 op n with Ret r => run_ready r.2 ops | Panic => true end
  end.

Lemma net_run_reach {T U E} {ST : SmolTcp T U E} ops : forall (n n' : Net T U E), net_reach n -> run_ready n ops = true -> net_run n ops = Ret n' -> net_reach n'.
Proof.
  induction ops as [|op ops IH]; intros n n' Hr Hre Hn; cbn in *; [by simplify_eq|]. apply andb_prop in Hre as [Hop Hre]. apply bool_decide_eq_true in Hop.
  destruct (run_op 2 op n) as [[r n1]|] eqn:E1; [|done]. cbn in *. apply (IH n1); [by eapply NrOp|done|done].
Qed.

Definition accept_ops : list net_op := server_ops ++ [NAccept 0 1].

Definition accepted : Net MTcp (option IpListenEndpoint) (list (list (list Z))) :=
  match net_run (net_new [[[1; 80]]] 1) accept_ops with Ret n => n | Panic => net_new [] 0 end.

Lemma accepted_reach : net_reach accepted.
Proof.
  apply (net_run_reach accept_ops (net_new [[[1; 80]]] 1)); [apply NrNew|by vm_compute|].
  unfold accepted. destruct (net_run _ _) eqn:Er; [done|]. by vm_compute in Er.
Qed.


(** ** Where the code does not do what it means to *)

Section Flaws.
Context {T U E : Type} {ST : SmolTcp T U E} {SL : SmolLaws T U E}.
Implicit Types n : Net T U E.

(** Closing a connection closes it for both directions and always succeeds. *)
Lemma close_stream_run n o t h : net_ok n -> is_tcp o t (n_socks n) -> tc_handle t = Some h ->
  exists n', close_stream o n = Ret (Done (Ok tt), n') /\ net_ok n' /\ is_tcp o t (n_socks n').
Proof.
  intros Hok Ht Eh. unfold close_stream. rewrite (run_sock _ o t), Eh, run_unwrap by done.
  destruct (with_tcp_ok n h (fun s => (Ok tt, t_close s)) Hok) as (r & s & E1 & _ & H1 & t0 & _ & ->); [by apply (mine_handle n o t)|].
  rewrite (net_run_bind _ _ _ _ _ E1). destruct (poll_and_check_keeps (is_tcp o t) _ H1 Ht) as (r & n' & E2 & ? & ?).
  unfold poll_and_check, nput in *. injection E2 as <- <-. eauto.
Qed.

Lemma shutdown_connected n o t how f : net_ok n -> is_tcp o t (n_socks n) -> tc_state t = Connected -> shutdown_flag how = Some f ->
  exists n' t', tcp_do_shutdown o how n = Ret (Done (Ok tt), n') /\ is_tcp o t' (n_socks n') /\ tc_state t' = Closed /\ tc_shutdown t' = Z.lor (tc_shutdown t) f.
Proof.
  intros Hok Ht Hs Hf. unfold tcp_do_shutdown. rewrite Hf, (net_run_bind _ _ _ _ _ (run_update _ o t _ Ht)). set (t1 := set_shutdown _ _). set (n1 := with_socks _ _).
  destruct (ok_tcp _ Hok _ _ Ht) as (Hlo & Hre & Hh & Hli). destruct (Hh (or_intror Hs)) as [h Eh].
  assert (H1 : net_ok n1) by by apply (put_tcp_ok n o t). assert (T1 : is_tcp o t1 (n_socks n1)) by apply is_tcp_insert.
  set (tb := tcp_set_state t1 Busy). set (n2 := with_socks n1 (<[o := TCP tb]> (n_socks n1))).
  assert (H2 : net_ok n2) by (apply (put_tcp_ok n1 o t1); try done; split_and!; try done; by intros []).
  destruct (close_stream_run n2 o tb h H2) as (n3 & E3 & H3 & T3); [apply is_tcp_insert|done|].
  assert (Eu : update_state o Connected Closed (close_stream o) (nret tt) n1 = Ret (Done (Ok tt), with_socks n3 (<[o := TCP (tcp_set_state tb Closed)]> (n_socks n3)))).
  { unfold update_state. rewrite (run_sock _ o t1), bool_decide_true by done. rewrite (net_run_bind _ _ _ _ _ (run_update _ o t1 _ T1)). fold tb n2. rewrite E3. cbn.
    by rewrite (run_update _ o tb). }
  rewrite (net_run_bind _ _ _ _ _ Eu). set (n4 := with_socks n3 _). assert (T4 : is_tcp o (tcp_set_state tb Closed) (n_socks n4)) by apply is_tcp_insert.
  unfold update_state. rewrite (run_sock _ o _ _ T4), bool_decide_false by done. exists n4, (tcp_set_state tb Closed). done.
Qed.

(** A connection cannot be half closed.  After a shutdown of the sending side, a
    receive fails with ENOTCONN whatever the peer has sent and will send, although the
    code means to let it through when one side is shut down. *)
Theorem half_close_deaf n o t fuel len : net_ok n -> is_tcp o t (n_socks n) -> tc_state t = Connected -> tc_shutdown t = 0 ->
  exists n', tcp_do_shutdown o SHUTWR n = Ret (Done (Ok tt), n') /\ tcp_recv fuel o len n' = Ret (Done (Err ENOTCONN), n').
Proof.
  intros Hok Ht Hs Hz. destruct (shutdown_connected n o t SHUTWR SEND_SHUTDOWN Hok Ht Hs eq_refl) as (n' & t' & E1 & T1 & S1 & F1).
  exists n'. split; [done|]. assert (Ep : tcp_peer_addr o n' = Ret (Done (Err ENOTCONN), n')) by (unfold tcp_peer_addr; rewrite (run_sock _ o t') by done; by rewrite S1).
  unfold tcp_recv. rewrite (run_sock _ o t') by done. rewrite F1, Hz, S1. change (nbind (tcp_peer_addr o) (fun peer => let@ h := nunwrap (tc_handle t') in block_on fuel (tc_nonblock t') (recv_try h len peer)) n' = Ret (Done (Err ENOTCONN), n')).
  unfold nbind at 1. by rewrite Ep.
Qed.


(** A program can stop the kernel with a socket of its own: a shutdown of a socket
    that never was connected leaves a flag behind, and the next send takes the flag for a
    connection and unwraps the library socket that is not there. *)
Theorem early_shutdown_panics n o fuel data :
  let n1 := with_socks n (<[o := TCP tcp_new_without_handle]> (n_socks n)) in
  exists n2, tcp_do_shutdown o SHUTRD n1 = Ret (Done (Ok tt), n2) /\ tcp_send fuel o data n2 = Panic.
Proof.
  set (n1 := with_socks n _). assert (T1 : is_tcp o tcp_new_without_handle (n_socks n1)) by apply is_tcp_insert. cbn zeta.
  unfold tcp_do_shutdown. assert (Ef : shutdown_flag SHUTRD = Some RCV_SHUTDOWN) by done. rewrite Ef, (net_run_bind _ _ _ _ _ (run_update _ o _ _ T1)). set (t2 := set_shutdown _ _). set (n2 := with_socks n1 _).
  assert (T2 : is_tcp o t2 (n_socks n2)) by apply is_tcp_insert. exists n2.
  assert (Eu : forall ex nw f, ex <> Closed -> update_state o ex nw f (nret tt) n2 = Ret (Done (Ok tt), n2)).
  { intros ex nw f Hne. unfold update_state. rewrite (run_sock _ o t2), bool_decide_false by (done || cbn; congruence). done. }
  split; [rewrite (net_run_bind _ _ _ _ _ (Eu Connected Closed _ ltac:(done))); by apply Eu|].
  unfold tcp_send. by rewrite (run_sock _ o t2).
Qed.

End Flaws.

(** The connection of the server, with bytes that have arrived. *)
Lemma half_close_deaf_witness : exists n', tcp_do_shutdown 1 SHUTWR accepted = Ret (Done (Ok tt), n') /\
  tcp_recv 1 1 100 n' = Ret (Done (Err ENOTCONN), n').
Proof.
  apply (half_close_deaf accepted 1 (tcp_new_connected 1 (mkEndpoint LOCAL_IPV4 80) client)); [apply reach_ok, accepted_reach|by vm_compute|reflexivity|reflexivity].
Defined.

(** A request, and a reset before the server accepts. *)
Definition reset_net : Net MTcp (option IpListenEndpoint) (list (list (list Z))) :=
  match net_run (server [[[1; 80]]; [[2]]]) [NTimer] with Ret n => n | Panic => net_new [] 0 end.


(** ** The calls *)

Section Calls.
Context {T U E : Type} {ST : SmolTcp T U E} {M : Type} {UB : UserBytes M}.
Implicit Types k : NKern T U E M.

(** A program that binds a UDP port which another process has bound to the same
    address gets a file of its own under the socket's descriptor: the number recorded for
    the port is a descriptor of the other process, and the code copies whatever the
    caller has at that number.  The call succeeds and the socket is not bound. *)
Theorem udp_bind_wrong_file k o u fd a ep used i : n_socks (nk_net k) !! o = Some (UDP u) -> into_listen_endpoint a = Ret ep ->
  n_ports (nk_net k) !! le_port ep = Some (used, ep) -> get_fd_info (nk_fds k) used = Ok i -> (fd < length (ft_table (nk_fds k)))%nat ->
  exists k', sock_bind o fd a k = Ret (Done (Ok tt), k') /\ get_fd_info (nk_fds k') fd = Ok i /\ nk_net k' = nk_net k.
Proof.
  intros Eo Ea Ep Ei Hfd. unfold sock_bind. rewrite Ea. unfold lift_outcome, nbind, nret, on_net, sock, nbind, nget, nunwrap. cbn. rewrite Eo. cbn.
  unfold bind_check, nbind, nget. cbn. rewrite Ep. cbn. rewrite bool_decide_true by done. cbn. unfold fds_call, dup3_with_flags. cbn. rewrite Ei.
  unfold dup3_at. rewrite (proj2 (Nat.leb_gt _ _)) by done. cbn. eexists. split; [done|]. split; [|by destruct k as [[]]].
  unfold get_fd_info. cbn. rewrite length_insert, (proj2 (Nat.leb_gt _ _)) by done. by rewrite list_lookup_insert_eq by done.
Qed.

End Calls.

#[local] Instance byte_memory : UserBytes (gmap Z Z) := {
  ub_cstr m _ _ := Ret (None, m);
  ub_read m _ ptr len := let! b := unwrap (bytes_at m ptr (Z.to_nat len)) in Ret (b, m);
  ub_write m _ ptr bytes := unwrap (bytes_put m ptr bytes) }.

#[local] Abbreviation MKern := (NKern MTcp (option IpListenEndpoint) (list (list (list Z))) (gmap Z Z)).

(** Another process has bound port 53 with its descriptor 3; the descriptor 3 of this one
    is a file, and its descriptor 4 the socket. *)
Definition two_udp : Net MTcp (option IpListenEndpoint) (list (list (list Z))) :=
  match net_run (net_new [] 1) [NUdp 0; NBindCheck 3 (mkListen None 53); NBind 0 (mkListen None 53); NUdp 1] with Ret n => n | Panic => net_new [] 0 end.

Definition file3 : FdInfo NFile := mkFdInfo (NOther 77) 0.
Definition udp_kern : MKern :=
  mkNKern two_udp (mkFT [None; None; None; Some file3; Some (mkFdInfo (NSock 1 DGRAM) 0)] (mkRLimit 10 10)) [0%nat] 100 ∅ 1 false.

Lemma udp_bind_wrong_file_witness : exists k', sock_bind 1 4 (SockAddrIn4_bytes 53 [0; 0; 0; 0]) udp_kern = Ret (Done (Ok tt), k') /\
  get_fd_info (nk_fds k') 4 = Ok file3 /\ nk_net k' = nk_net udp_kern.
Proof.
  apply (udp_bind_wrong_file udp_kern 1 (mkUdp 2 None None false) 4 (SockAddrIn4_bytes 53 [0; 0; 0; 0]) (mkListen None 53) 3 file3);
    [by vm_compute|by vm_compute|by vm_compute|by vm_compute|cbn; lia].
Defined.

(** Eight bytes have arrived; the message has room for three. *)
Definition stream8 : Net MTcp (option IpListenEndpoint) (list (list (list Z))) :=
  match net_run (net_new [[[1; 80]]; []; [[3; 1; 2; 3; 4; 5; 6; 7; 8]]] 1) (accept_ops ++ [NTimer]) with Ret n => n | Panic => net_new [] 0 end.

Definition msg_memory : gmap Z Z :=
  default ∅ (bytes_put (list_to_map (map (fun i => (Z.of_nat i, 0)) (seq 1000 200))) 1000
    (le_bytes 8 0 ++ le_bytes 8 0 ++ le_bytes 8 1100 ++ le_bytes 8 1 ++ replicate 68 0 ++ le_bytes 8 1150 ++ le_bytes 8 3)).

Definition msg_kern : MKern :=
  mkNKern stream8 (mkFT [None; None; None; Some (mkFdInfo (NSock 0 STREAM) 0); Some (mkFdInfo (NSock 1 STREAM) 0)] (mkRLimit 10 10)) [] 100 msg_memory 1 false.

(** A message that is larger than its vectors loses the rest, on a stream too: the call
    gives three bytes, and the socket has none of the other five left. *)
Lemma recvmsg_loses : exists k', sys_recvmsg 2 4 1000 msg_kern = Ret (Done (Ok 3), k') /\ bytes_at (nk_mem k') 1150 4 = Some [1; 2; 3; 0] /\
  (mt_rx <$> (n_set (nk_net k') !! 1%nat ≫= fun s => match s with inl t => Some t | inr _ => None end)) = Some [] /\
  (mt_rx <$> (n_set (nk_net msg_kern) !! 1%nat ≫= fun s => match s with inl t => Some t | inr _ => None end)) = Some [1; 2; 3; 4; 5; 6; 7; 8].
Proof. vm_compute. eexists. split; [reflexivity|]. split; [reflexivity|]. split; reflexivity. Qed.

(** ** The locks *)

(** The locks of the layer: the device, the interface, the set, the entry of a port. *)
Inductive net_lock := LDev | LIface | LSockets | LEntry (port : Z).

#[export] Instance net_lock_eq : EqDecision net_lock.
Proof. solve_decision. Defined.

Inductive net_lock_act := Acq (l : net_lock) | Rel (l : net_lock).

(** What each function does with them, with the SYN that a poll may receive, the second
    poll that a check may do, and the entry of a listener. *)
Definition poll_locks (syn : option Z) : list net_lock_act :=
  [Acq LDev; Acq LIface; Acq LSockets] ++ match syn with Some p => [Acq (LEntry p); Rel (LEntry p)] | None => [] end ++ [Rel LSockets; Rel LIface; Rel LDev].
Definition check_poll_locks (again : bool) : list net_lock_act :=
  [Acq LIface; Acq LSockets] ++ (if again then [Acq LDev; Rel LDev] else []) ++ [Rel LSockets; Rel LIface].
Definition connect_locks : list net_lock_act := [Acq LSockets; Acq LIface; Rel LIface; Rel LSockets].
Definition unlisten_locks (port : Z) : list net_lock_act := [Acq (LEntry port); Acq LSockets; Rel LSockets; Rel (LEntry port)].

(** Harts: what each holds, and what it does next. *)
Definition harts := list (list net_lock * list net_lock_act).

Definition lock_free (l : net_lock) (s : harts) : bool := forallb (fun h => negb (bool_decide (l ∈ h.1))) s.

Definition hart_step (i : nat) (s : harts) : option harts :=
  '(held, rest) ← s !! i;
  match rest with
  | [] => None
  | Acq l :: rest => if lock_free l s then Some (<[i := (l :: held, rest)]> s) else None
  | Rel l :: rest => Some (<[i := (List.remove net_lock_eq l held, rest)]> s)
  end.

Fixpoint harts_run (sched : list nat) (s : harts) : option harts :=
  match sched with [] => Some s | i :: sched => s ← hart_step i s; harts_run sched s end.

(** Nobody can go on, and not everybody is done. *)
Definition deadlocked (s : harts) : Prop := (forall i, hart_step i s = None) /\ exists i held l rest, s !! i = Some (held, l :: rest).

Definition can_deadlock (a b : list net_lock_act) : Prop := exists sched s, harts_run sched [([], a); ([], b)] = Some s /\ deadlocked s.

Lemma deadlocked_two h1 h2 : hart_step 0 [h1; h2] = None -> hart_step 1 [h1; h2] = None -> h1.2 <> [] -> deadlocked [h1; h2].
Proof.
  intros H1 H2 Hn. split; [intros [|[|i]]; [done|done|]; done|]. destruct h1 as [held [|l rest]]; [done|]. by exists 0%nat, held, l, rest.
Qed.

