(* ===== verification/Io.v ===== *)
(** Waiting for several files at once (os/src/syscall/io.rs): [ppoll] and [pselect6], and
    the futures they are made of: two futures of which the first that is ready counts
    (os/src/utils/async_utils.rs), a future with a deadline (os/src/timer/timed_task.rs) and
    the one that is ready when a signal is pending (os/src/task/signal.rs).

    A future is its [poll]: from what it keeps between polls and the state to an answer or
    none.  To await it is to poll it and, as long as there is no answer, to suspend; out
    of fuel, the call is still waiting. *)

From S2P Require Import Prelude Errno UserMem Signal Time Futex FdTable FsCalls Wait.

#[local] Open Scope Z_scope.

(** ** Events *)

Definition POLLIN : Z := 0x001.
Definition POLLOUT : Z := 0x004.
Definition POLLERR : Z := 0x008.
Definition POLLHUP : Z := 0x010.

Definition has_event (ev e : Z) : bool := Z.land ev e =? e.

Record PollFd := mkPollFd { pfd_fd : Z; pfd_events : Z; pfd_revents : Z }.

Definition pollfd_of (b : list Z) : PollFd := mkPollFd (to_i32 (field b 0 4)) (field b 4 2) (field b 6 2).
Definition pollfd_bytes (p : PollFd) : list Z :=
  le_bytes 4 (pfd_fd p mod 2 ^ 32) ++ le_bytes 2 (pfd_events p) ++ le_bytes 2 (pfd_revents p).

Fixpoint pollfds_of (n : nat) (b : list Z) : list PollFd :=
  match n with O => [] | S n => pollfd_of (take 8 b) :: pollfds_of n (drop 8 b) end.

(** ** Sets of descriptors *)

Definition FD_SET_SIZE : Z := 1024.
Definition FD_SET_LEN : nat := 16.

(** The words of [fds_bits]. *)
Abbreviation FdSet := (list Z) (only parsing).

Definition fdset_clear : FdSet := replicate FD_SET_LEN 0.

Definition mark_fd (s : FdSet) (fd : Z) : outcome FdSet :=
  let idx := Z.to_nat (fd / 64) in
  let mask := Z.shiftl 1 (fd mod 64) in
  let! w := unwrap (s !! idx) in
  Ret (<[idx := Z.lor w mask]> s).

Definition is_set (s : FdSet) (fd : Z) : outcome bool :=
  let idx := Z.to_nat (fd / 64) in
  let mask := Z.shiftl 1 (fd mod 64) in
  let! w := unwrap (s !! idx) in
  Ret (negb (Z.land w mask =? 0)).

Fixpoint words_of (n : nat) (b : list Z) : list Z :=
  match n with O => [] | S n => field b 0 8 :: words_of n (drop 8 b) end.
Definition fdset_of (b : list Z) : FdSet := words_of FD_SET_LEN b.
Definition fdset_bytes (s : FdSet) : list Z := s ≫= le_bytes 8.

(** ** The world of a call *)

(** The open files, polled for events ([None] is a poll that does not answer at once),
    the clock, and what the others do to the files, the memory and the signals of the
    task while it is suspended. *)
Class PollWorld (F M : Type) := {
  pw_poll : F -> nat -> Z -> outcome (option Z * F);
  pw_now : F -> Duration;
  pw_suspend : F * M * SigManager -> F * M * SigManager;
}.

Section Io.
Context {F M : Type} {PW : PollWorld F M} {UB : UserBytes M}.

(** [pk_intr]: the task is interruptable; [pk_timers]: the deadlines given to the timers
    to wake it. *)
Record PKern := mkPK {
  pk_files : F;
  pk_fds : FdTable nat;
  pk_mem : M;
  pk_vm : Z;
  pk_sig : SigManager;
  pk_intr : bool;
  pk_timers : list Duration;
}.

Definition pk_with_files (k : PKern) (f : F) : PKern := mkPK f (pk_fds k) (pk_mem k) (pk_vm k) (pk_sig k) (pk_intr k) (pk_timers k).
Definition pk_with_mem (k : PKern) (m : M) : PKern := mkPK (pk_files k) (pk_fds k) m (pk_vm k) (pk_sig k) (pk_intr k) (pk_timers k).
Definition pk_with_sig (k : PKern) (s : SigManager) : PKern := mkPK (pk_files k) (pk_fds k) (pk_mem k) (pk_vm k) s (pk_intr k) (pk_timers k).
Definition pk_with_intr (k : PKern) (b : bool) : PKern := mkPK (pk_files k) (pk_fds k) (pk_mem k) (pk_vm k) (pk_sig k) b (pk_timers k).
Definition pk_add_timer (k : PKern) (d : Duration) : PKern := mkPK (pk_files k) (pk_fds k) (pk_mem k) (pk_vm k) (pk_sig k) (pk_intr k) (pk_timers k ++ [d]).

Definition pk_suspend (k : PKern) : PKern :=
  let '(f, m, s) := pw_suspend (pk_files k, pk_mem k, pk_sig k) in
  pk_with_sig (pk_with_mem (pk_with_files k f) m) s.

#[local] Abbreviation pc := (wcall PKern).

Definition io_read (ptr len : Z) : pc (list Z) := fun k =>
  let! r := ub_read (pk_mem k) (pk_vm k) ptr len in Ret (Done (Ok r.1), pk_with_mem k r.2).
Definition io_write (ptr : Z) (bytes : list Z) : pc unit := fun k =>
  let! m := ub_write (pk_mem k) (pk_vm k) ptr bytes in Ret (Done (Ok tt), pk_with_mem k m).
Definition io_out {A} (o : outcome A) : pc A := fun k => let! a := o in Ret (Done (Ok a), k).
Definition io_file (fd : Z) : pc nat := fun k =>
  Ret (Done (if Z.of_nat (length (ft_table (pk_fds k))) <=? fd then Err EBADF else get_file (pk_fds k) (Z.to_nat fd)), k).

Definition set_mask (mask : Z) (k : PKern) : PKern := pk_with_sig k (with_blocked (pk_sig k) mask).

(** ** Futures *)

Definition future (X A : Type) : Type := X -> PKern -> outcome (option A * X * PKern).

Fixpoint await {X A} (fuel : nat) (f : future X A) (x : X) : pc A :=
  match fuel with
  | O => fun k => Ret (Waiting, k)
  | S fuel => fun k =>
      let! (a, x, k) := f x k in
      match a with
      | Some a => Ret (Done (Ok a), k)
      | None => await fuel f x (pk_suspend k)
      end
  end.

(** [Select2Futures::poll]. *)
Definition select2 {X Y A B} (f : future X A) (g : future Y B) : future (X * Y) (A + B) := fun xy k =>
  let! (a, x, k) := f xy.1 k in
  match a with
  | Some a => Ret (Some (inl a), (x, xy.2), k)
  | None =>
      let! (b, y, k) := g xy.2 k in
      match b with
      | Some b => Ret (Some (inr b), (x, y), k)
      | None => Ret (None, (x, y), k)
      end
  end.

Inductive TimedTaskOutput (A : Type) := TimedOut | TimedOK (a : A).
Arguments TimedOut {A}.
Arguments TimedOK {A} a.

(** [TimedTaskFuture::new] and [poll]; the flag is [in_manager]. *)
Definition timed_new (deadline : Duration) : pc Duration := fun k => io_out (dur_add (pw_now (pk_files k)) deadline) k.

Definition timed_poll {X A} (expire : Duration) (f : future X A) : future (bool * X) (TimedTaskOutput A) := fun st k =>
  let! (a, x, k) := f st.2 k in
  match a with
  | None =>
      if dur_le expire (pw_now (pk_files k)) then Ret (Some TimedOut, (st.1, x), k)
      else if negb st.1 then Ret (None, (true, x), pk_add_timer k expire)
      else Ret (None, (st.1, x), k)
  | Some a => Ret (Some (TimedOK a), (st.1, x), k)
  end.

(** [IntrBySignalFuture::poll]. *)
Definition intr_poll (mask : Z) : future unit unit := fun _ k =>
  Ret (if Z.land (bitmap (pk_sig k)) (wnot mask) =? 0 then None else Some tt, tt, k).

(** The files that have an event, by their keys. *)
Fixpoint poll_each (polls : list (Z * Z * nat)) (f : F) : outcome (list (Z * Z) * F) :=
  match polls with
  | [] => Ret ([], f)
  | (i, events, file) :: polls =>
      let! (res, f) := pw_poll f file events in
      let! res := unwrap res in
      let! (rest, f) := poll_each polls f in
      Ret (if res =? 0 then rest else (i, res) :: rest, f)
  end.

Definition ready_poll (polls : list (Z * Z * nat)) : future unit (list (Z * Z)) := fun _ k =>
  let! (v, f) := poll_each polls (pk_files k) in
  Ret (if (0 <? length v)%nat then Some v else None, tt, pk_with_files k f).

(** [PPollFuture::poll] numbers its files, [PSelectFuture::poll] has their descriptors. *)
Definition PPollFuture_poll (polls : list (Z * nat)) : future unit (list (Z * Z)) :=
  ready_poll (imap (fun i p => (Z.of_nat i, p.1, p.2)) polls).
Definition PSelectFuture_poll (polls : list (Z * Z * nat)) : future unit (list (Z * Z)) := ready_poll polls.

(** ** [ppoll] *)

Definition read_timespec (ptr : Z) : pc TimeSpec :=
  let@ b := io_read ptr 16 in nret (mkTs (field b 0 8) (field b 8 8)).
Definition read_sigset (ptr : Z) : pc Z := let@ b := io_read ptr 8 in nret (le_value b).

Definition if_given {A} (ptr : Z) (m : pc A) : pc (option A) :=
  if ptr =? 0 then nret None else let@ a := m in nret (Some a).

Fixpoint poll_files (fds : list PollFd) : pc (list (Z * nat)) :=
  match fds with
  | [] => nret []
  | p :: fds =>
      let@ file := io_file (wrap (pfd_fd p)) in
      let@ rest := poll_files fds in
      nret ((pfd_events p, file) :: rest)
  end.

Definition add_revents (fds : list PollFd) (r : Z * Z) : list PollFd :=
  alter (fun p => mkPollFd (pfd_fd p) (pfd_events p) (Z.lor (pfd_revents p) r.2)) (Z.to_nat r.1) fds.

(** The files that are ready; none when the time is over. *)
Definition ppoll_wait (fuel : nat) (timeout : option TimeSpec) (polls : list (Z * nat)) (mask : Z) :
    pc (option (list (Z * Z))) :=
  match timeout with
  | Some t =>
      let@ d := io_out (TimeSpec_into t) in
      let@ expire := timed_new d in
      let@ o := await fuel (timed_poll expire (PPollFuture_poll polls)) (false, tt) in
      nret (match o with TimedOK v => Some v | TimedOut => None end)
  | None =>
      let@ o := await fuel (select2 (PPollFuture_poll polls) (intr_poll mask)) (tt, tt) in
      match o with inl v => nret (Some v) | inr _ => nerr EINTR end
  end.

Definition sys_ppoll (fuel : nat) (fds nfds timeout_ts sigmask : Z) : pc Z :=
  let@ raw := io_read fds (8 * nfds) in
  let pfds := pollfds_of (Z.to_nat nfds) raw in
  let@ timeout := if_given timeout_ts (read_timespec timeout_ts) in
  let@ new_mask := if_given sigmask (read_sigset sigmask) in
  let@ polls := poll_files pfds in
  let@ k := nget in
  let old_mask := blocked_sigs (pk_sig k) in
  let current_mask := match new_mask with Some m => Z.lor old_mask m | None => old_mask end in
  let@ _ := nput (match new_mask with Some m => set_mask current_mask | None => id end) in
  let@ _ := nput (fun k => pk_with_intr k true) in
  let@ _ := nput (fun k => pk_with_sig k (set_wake_up_sigs (pk_sig k) (wnot current_mask))) in
  let@ ret_vec := ppoll_wait fuel timeout polls current_mask in
  match ret_vec with
  | None => nret 0
  | Some ret_vec =>
      let@ _ := nput (fun k => pk_with_intr k false) in
      let@ _ := io_write fds (foldl add_revents pfds ret_vec ≫= pollfd_bytes) in
      let@ _ := nput (set_mask old_mask) in
      nret (Z.of_nat (length ret_vec))
  end.

(** ** [pselect6] *)

(** Through the reference that the call keeps, at each use. *)
Definition load_fdset (ptr : Z) : pc FdSet := let@ b := io_read ptr 128 in nret (fdset_of b).
Definition store_fdset (ptr : Z) (s : FdSet) : pc unit := io_write ptr (fdset_bytes s).

Definition set_has (ptr fd : Z) : pc bool :=
  if ptr =? 0 then nret false else let@ s := load_fdset ptr in io_out (is_set s fd).
Definition set_clear (ptr : Z) : pc unit := if ptr =? 0 then nret tt else store_fdset ptr fdset_clear.
Definition set_mark (ptr fd : Z) : pc unit :=
  if ptr =? 0 then nret tt
  else let@ s := load_fdset ptr in let@ s := io_out (mark_fd s fd) in store_fdset ptr s.

Fixpoint select_files (n : nat) (fd readfds writefds : Z) : pc (list (Z * Z * nat)) :=
  match n with
  | O => nret []
  | S n =>
      let@ r := set_has readfds fd in
      let@ w := set_has writefds fd in
      let events := Z.lor (if r then POLLIN else 0) (if w then POLLOUT else 0) in
      if events =? 0 then select_files n (fd + 1) readfds writefds
      else
        let@ file := io_file fd in
        let@ rest := select_files n (fd + 1) readfds writefds in
        nret ((fd, events, file) :: rest)
  end.

Fixpoint select_marks (ret : list (Z * Z)) (readfds writefds res : Z) : pc Z :=
  match ret with
  | [] => nret res
  | (fd, ev) :: ret =>
      let readable := has_event ev POLLIN || has_event ev POLLHUP in
      let@ _ := if readable then set_mark readfds fd else nret tt in
      let res := if readable then res + 1 else res in
      let writable := has_event ev POLLOUT in
      let@ _ := if writable then set_mark writefds fd else nret tt in
      select_marks ret readfds writefds (if writable then res + 1 else res)
  end.

Definition clear_sets (readfds writefds exceptfds : Z) : pc unit :=
  let@ _ := set_clear readfds in
  let@ _ := set_clear writefds in
  set_clear exceptfds.

(** [set_running], and the mask as it was when one was given. *)
Definition end_wait (prev_mask : option Z) : pc unit :=
  let@ _ := nput (fun k => pk_with_intr k false) in
  nput (match prev_mask with Some mask => set_mask mask | None => id end).

Definition pselect_wait (fuel : nat) (timeout : option Duration) (polls : list (Z * Z * nat)) (mask : Z) :
    pc (option (list (Z * Z))) :=
  match timeout with
  | Some d =>
      let@ expire := timed_new d in
      let@ o := await fuel (select2 (timed_poll expire (PSelectFuture_poll polls)) (intr_poll mask)) ((false, tt), tt) in
      match o with
      | inl (TimedOK v) => nret (Some v)
      | inl TimedOut => nret None
      | inr _ => nerr EINTR
      end
  | None =>
      let@ o := await fuel (select2 (PSelectFuture_poll polls) (intr_poll mask)) (tt, tt) in
      match o with inl v => nret (Some v) | inr _ => nerr EINTR end
  end.

Definition sys_pselect6 (fuel : nat) (nfds readfds writefds exceptfds timeout sigmask : Z) : pc Z :=
  if nfds <? 0 then nerr EINVAL
  else
    let@ timeout := if_given timeout (let@ t := read_timespec timeout in io_out (TimeSpec_into t)) in
    let@ new_mask := if_given sigmask (read_sigset sigmask) in
    let@ polls := select_files (Z.to_nat nfds) 0 readfds writefds in
    let@ k := nget in
    let prev_mask := match new_mask with Some _ => Some (blocked_sigs (pk_sig k)) | None => None end in
    let@ _ := nput (match new_mask with Some m => set_mask (Z.lor (blocked_sigs (pk_sig k)) m) | None => id end) in
    let@ _ := nput (fun k => pk_with_intr k true) in
    let@ _ := nput (fun k => pk_with_sig k (set_wake_up_sigs (pk_sig k) (wnot (blocked_sigs (pk_sig k))))) in
    let@ k := nget in
    let@ ret := pselect_wait fuel timeout polls (blocked_sigs (pk_sig k)) in
    let@ _ := clear_sets readfds writefds exceptfds in
    let@ _ := end_wait prev_mask in
    match ret with
    | None => nret 0
    | Some ret => select_marks ret readfds writefds 0
    end.

End Io.
Arguments TimedOut {A}.
Arguments TimedOK {A} a.
Arguments PKern F M : clear implicits.
