(* ===== verification/IoProofs.v ===== *)
(** What [ppoll] and [pselect6] answer: the sets of descriptors as sets, in user memory
    as in the kernel, the files that a wait finds ready, and how a wait ends. *)

From S2P Require Import Prelude Errno UserMem Signal Time Futex FdTable FsCalls Wait Io.

#[local] Open Scope Z_scope.

(** ** Bytes *)

Lemma le_bytes_len n : forall z, length (le_bytes n z) = n.
Proof. induction n as [|n IH]; intros z; cbn; [done|by rewrite IH]. Qed.

Lemma le_value_bytes n : forall z, 0 <= z < 256 ^ Z.of_nat n -> le_value (le_bytes n z) = z.
Proof.
  induction n as [|n IH]; intros z Hz; [cbn in *; lia|]. cbn [le_bytes le_value foldr]. fold (le_value (le_bytes n (z / 256))).
  rewrite IH; [pose proof (Z.div_mod z 256 ltac:(lia)); lia|].
  rewrite Nat2Z.inj_succ, Z.pow_succ_r in Hz by lia. split; [apply Z.div_pos; lia|apply Z.div_lt_upper_bound; lia].
Qed.

Lemma field_app b n c : length b = n -> field (b ++ c) 0 n = le_value b.
Proof. intros <-. unfold field. by rewrite drop_0, take_app_length. Qed.

(** ** Sets of descriptors *)

Definition fdset_ok (s : FdSet) : Prop := length s = FD_SET_LEN /\ Forall is_usize s.

(** The members of a set. *)
Definition fdset_bit (s : FdSet) (fd : Z) : bool :=
  match s !! Z.to_nat (fd / 64) with Some w => Z.testbit w (fd mod 64) | None => false end.

Definition is_fd (fd : Z) : Prop := 0 <= fd < FD_SET_SIZE.

Lemma fd_word s fd : fdset_ok s -> is_fd fd -> exists w, s !! Z.to_nat (fd / 64) = Some w.
Proof.
  intros [Hl _] [H0 H1]. apply lookup_lt_is_Some. rewrite Hl. unfold FD_SET_LEN, FD_SET_SIZE in *.
  pose proof (Z.div_lt_upper_bound fd 64 16). pose proof (Z.div_pos fd 64). lia.
Qed.

Lemma land_bit w i : 0 <= i -> negb (Z.land w (Z.shiftl 1 i) =? 0) = Z.testbit w i.
Proof.
  intros Hi. rewrite Z.shiftl_1_l. destruct (Z.testbit w i) eqn:Eb.
  - apply negb_true_iff, Z.eqb_neq. intros E. apply (f_equal (fun z => Z.testbit z i)) in E.
    rewrite Z.land_spec, Eb, Z.pow2_bits_true, Z.bits_0 in E by done. done.
  - apply negb_false_iff, Z.eqb_eq, Z.bits_inj'. intros j Hj. rewrite Z.land_spec, Z.bits_0.
    destruct (decide (i = j)) as [<-|Hne]; [by rewrite Eb|]. rewrite Z.pow2_bits_false by done. apply andb_false_r.
Qed.

Lemma is_set_bit s fd : fdset_ok s -> is_fd fd -> is_set s fd = Ret (fdset_bit s fd).
Proof.
  intros Hs Hf. destruct (fd_word s fd Hs Hf) as [w Hw]. unfold is_set, fdset_bit. rewrite Hw. cbn [unwrap obind].
  by rewrite land_bit by (apply Z.mod_pos_bound; lia).
Qed.

Lemma fd_eq a b : is_fd a -> is_fd b -> Z.to_nat (a / 64) = Z.to_nat (b / 64) -> a mod 64 = b mod 64 -> a = b.
Proof.
  intros [Ha _] [Hb _] Hd Hm. rewrite (Z.div_mod a 64), (Z.div_mod b 64) by lia.
  pose proof (Z.div_pos a 64). pose proof (Z.div_pos b 64). lia.
Qed.

Lemma mark_fd_spec s a : fdset_ok s -> is_fd a ->
  exists s', mark_fd s a = Ret s' /\ fdset_ok s' /\
    forall b, is_fd b -> fdset_bit s' b = (a =? b) || fdset_bit s b.
Proof.
  intros Hs Ha. destruct (fd_word s a Hs Ha) as [w Hw]. unfold mark_fd. rewrite Hw. cbn [unwrap obind].
  eexists. split; [done|]. pose proof (Z.mod_pos_bound a 64 ltac:(lia)) as Hm. destruct Hs as [Hl Hu].
  assert (is_usize w) as Hwu by (eapply Forall_lookup_1; eauto).
  split; [split; [by rewrite length_insert|]|].
  - apply Forall_insert; [done|]. apply lor_usize; [done|]. rewrite Z.shiftl_1_l. by apply pow2_usize.
  - intros b Hb. unfold fdset_bit. destruct (decide (Z.to_nat (a / 64) = Z.to_nat (b / 64))) as [E|E].
    + rewrite <- E, list_lookup_insert_eq by (eapply lookup_lt_Some, Hw). rewrite Hw, Z.lor_spec, Z.shiftl_1_l, orb_comm.
      f_equal. destruct (Z.eqb_spec a b) as [<-|Hne]; [apply Z.pow2_bits_true; lia|]. apply Z.pow2_bits_false.
      intros Em. by apply Hne, fd_eq.
    + rewrite list_lookup_insert_ne by done. destruct (Z.eqb_spec a b) as [->|Hne]; done.
Qed.

Lemma mark_fd_panics s fd : length s = FD_SET_LEN -> FD_SET_SIZE <= fd -> mark_fd s fd = Panic /\ is_set s fd = Panic.
Proof.
  intros Hl Hf. assert (s !! Z.to_nat (fd / 64) = None) as Hn; [|unfold mark_fd, is_set; by rewrite Hn].
  apply lookup_ge_None. rewrite Hl. unfold FD_SET_LEN, FD_SET_SIZE in *. pose proof (Z.div_le_lower_bound fd 64 16). lia.
Qed.

Lemma fdset_clear_ok : fdset_ok fdset_clear.
Proof. split; [done|]. apply Forall_replicate. unfold is_usize. lia. Qed.

Lemma fdset_clear_bit fd : fdset_bit fdset_clear fd = false.
Proof.
  unfold fdset_bit. destruct (fdset_clear !! _) as [w|] eqn:E; [|done]. apply lookup_replicate in E as [-> _]. apply Z.bits_0.
Qed.

Lemma fdset_bytes_len s : length (fdset_bytes s) = (8 * length s)%nat.
Proof. unfold fdset_bytes. induction s as [|w s IH]; [done|]. cbn [mbind list_bind]. rewrite length_app, le_bytes_len, IH. cbn. lia. Qed.

Lemma words_of_bytes s : Forall is_usize s -> words_of (length s) (fdset_bytes s) = s.
Proof.
  unfold fdset_bytes. induction 1 as [|w s Hw _ IH]; [done|]. cbn [mbind list_bind length words_of].
  rewrite field_app by apply le_bytes_len. rewrite le_value_bytes by (unfold is_usize in Hw; lia).
  f_equal. by rewrite drop_app_length' by (by rewrite le_bytes_len).
Qed.

Lemma fdset_of_bytes s : fdset_ok s -> fdset_of (fdset_bytes s) = s.
Proof. intros [Hl Hu]. unfold fdset_of. rewrite <- Hl. by apply words_of_bytes. Qed.

(** ** User memory *)

(** The bytes at an address of an address space: they are what a read gives, a write
    replaces them, and bytes elsewhere stay. *)
Class UserBytesLaws (M : Type) {UB : UserBytes M} := {
  ub_has : M -> Z -> Z -> list Z -> Prop;
  ub_read_has m vm p bs : ub_has m vm p bs ->
    exists m', ub_read m vm p (Z.of_nat (length bs)) = Ret (bs, m') /\
      forall q cs, ub_has m vm q cs -> ub_has m' vm q cs;
  ub_write_has m vm p bs bs' : ub_has m vm p bs -> length bs' = length bs ->
    exists m', ub_write m vm p bs' = Ret m' /\ ub_has m' vm p bs' /\
      forall q cs, p + Z.of_nat (length bs) <= q \/ q + Z.of_nat (length cs) <= p ->
        ub_has m vm q cs -> ub_has m' vm q cs;
}.

(** A file answers a poll at once, and what happens while a task is suspended leaves the
    bytes the call uses and the mask of the task alone. *)
Class PollLaws (F M : Type) {PW : PollWorld F M} {UB : UserBytes M} {UL : UserBytesLaws M} := {
  pw_poll_ready f file ev : exists res f', pw_poll f file ev = Ret (Some res, f');
  pw_suspend_mem f m s f' m' s' : pw_suspend (f, m, s) = (f', m', s') ->
    forall vm p bs, ub_has m vm p bs -> ub_has m' vm p bs;
  pw_suspend_mask f m s f' m' s' : pw_suspend (f, m, s) = (f', m', s') -> blocked_sigs s' = blocked_sigs s;
}.

Section Proofs.
Context {F M : Type} {PW : PollWorld F M} {UB : UserBytes M} {UL : UserBytesLaws M} {PL : PollLaws F M}.

Implicit Types k : PKern F M.

(** A set that the program gave, or none. *)
Definition set_at k (ptr : Z) (s : FdSet) : Prop :=
  fdset_ok s /\ (ptr <> 0 -> ub_has (pk_mem k) (pk_vm k) ptr (fdset_bytes s)).

Definition sets_apart (p q : Z) : Prop := p = 0 \/ q = 0 \/ p + 128 <= q \/ q + 128 <= p.

(** The bytes that the program sees, the mask and the address space stay. *)
Record calm k k' : Prop := {
  calm_mem p bs : ub_has (pk_mem k) (pk_vm k) p bs -> ub_has (pk_mem k') (pk_vm k') p bs;
  calm_mask : blocked_sigs (pk_sig k') = blocked_sigs (pk_sig k);
  calm_vm : pk_vm k' = pk_vm k;
  calm_fds : pk_fds k' = pk_fds k;
}.

#[local] Instance calm_refl : Reflexive calm.
Proof. intros k. by split. Qed.
#[local] Instance calm_trans : Transitive calm.
Proof. intros a b c [] []. split; [auto|congruence..]. Qed.

Lemma calm_set k k' ptr s : calm k k' -> set_at k ptr s -> set_at k' ptr s.
Proof. intros H [Hs Hb]. split; [done|]. intros Hp. by apply (calm_mem _ _ H), Hb. Qed.

Lemma suspend_calm k : calm k (pk_suspend k).
Proof.
  unfold pk_suspend. destruct (pw_suspend _) as [[f m] s] eqn:E. split; cbn; [|by eapply pw_suspend_mask|done..].
  intros p bs. by eapply pw_suspend_mem.
Qed.

Lemma io_read_calm k p bs : ub_has (pk_mem k) (pk_vm k) p bs ->
  exists k', io_read p (Z.of_nat (length bs)) k = Ret (Done (Ok bs), k') /\ calm k k' /\ pk_files k' = pk_files k.
Proof.
  intros H. destruct (ub_read_has _ _ _ _ H) as (m & E & Hk). unfold io_read. rewrite E. cbn.
  eexists. split; [done|]. split; [|done]. split; cbn; [apply Hk|done..].
Qed.

(** *** The operations on a set of the program *)

Lemma load_fdset_at k ptr s : ptr <> 0 -> set_at k ptr s -> exists k', load_fdset ptr k = Ret (Done (Ok s), k') /\ calm k k' /\ pk_files k' = pk_files k.
Proof.
  intros Hp [Hs H]. pose proof (H Hp) as Hb. destruct (io_read_calm _ _ _ Hb) as (k' & E & Hc).
  rewrite fdset_bytes_len, (proj1 Hs) in E. exists k'. unfold load_fdset, nbind. change 128 with (Z.of_nat (8 * FD_SET_LEN)).
  rewrite E. cbn [obind fst snd]. unfold nret. by rewrite fdset_of_bytes.
Qed.

Definition given (ptr : Z) (b : bool) : bool := negb (ptr =? 0) && b.

Lemma set_has_at k ptr s fd : set_at k ptr s -> is_fd fd ->
  exists k', set_has ptr fd k = Ret (Done (Ok (given ptr (fdset_bit s fd))), k') /\ calm k k' /\ pk_files k' = pk_files k.
Proof.
  intros H Hf. unfold set_has, given. destruct (Z.eqb_spec ptr 0) as [|Hp]; [by exists k|].
  destruct (load_fdset_at _ _ _ Hp H) as (k' & E & Hc). exists k'. unfold nbind. rewrite E. cbn [obind fst snd].
  unfold io_out. rewrite is_set_bit by (done || by apply H). done.
Qed.

(** Nothing but memory changes. *)
Definition same_task k k' : Prop :=
  pk_files k' = pk_files k /\ pk_fds k' = pk_fds k /\ pk_vm k' = pk_vm k /\ pk_sig k' = pk_sig k /\ pk_intr k' = pk_intr k.

Lemma load_same k ptr s r : load_fdset ptr k = Ret (Done (Ok s), r) -> same_task k r.
Proof.
  unfold load_fdset, nbind, io_read. destruct (ub_read _ _ _ _) as [[b m]|]; [|done]. cbn [obind fst snd]. by intros [= _ <-].
Qed.

Lemma store_fdset_at k ptr s s' : ptr <> 0 -> set_at k ptr s -> fdset_ok s' ->
  exists k', store_fdset ptr s' k = Ret (Done (Ok tt), k') /\ set_at k' ptr s' /\ same_task k k' /\
    forall q t, sets_apart ptr q -> set_at k q t -> set_at k' q t.
Proof.
  intros Hp [Hs Hb] Hs'. specialize (Hb Hp).
  destruct (ub_write_has _ _ _ _ (fdset_bytes s') Hb) as (m & E & Hm & Hk).
  { by rewrite !fdset_bytes_len, (proj1 Hs), (proj1 Hs'). }
  unfold store_fdset, io_write. rewrite E. cbn [obind]. eexists. split; [done|]. split; [by split|]. split; [done|].
  intros q t Ha [Ht Hq]. split; [done|]. cbn. intros Hq0. apply Hk; [|by apply Hq].
  rewrite !fdset_bytes_len, (proj1 Hs), (proj1 Ht). unfold sets_apart, FD_SET_LEN in *. lia.
Qed.

Lemma set_clear_at k ptr s : set_at k ptr s ->
  exists k', set_clear ptr k = Ret (Done (Ok tt), k') /\ set_at k' ptr fdset_clear /\ same_task k k' /\
    forall q t, sets_apart ptr q -> set_at k q t -> set_at k' q t.
Proof.
  intros H. unfold set_clear. destruct (Z.eqb_spec ptr 0) as [->|Hp].
  - exists k. split; [done|]. split; [|done]. split; [apply fdset_clear_ok|done].
  - eapply store_fdset_at; eauto using fdset_clear_ok.
Qed.

Lemma set_mark_at k ptr s fd : set_at k ptr s -> is_fd fd ->
  exists k' s', set_mark ptr fd k = Ret (Done (Ok tt), k') /\ set_at k' ptr s' /\ same_task k k' /\
    (forall b, is_fd b -> fdset_bit s' b = (fd =? b) || fdset_bit s b) /\
    forall q t, sets_apart ptr q -> set_at k q t -> set_at k' q t.
Proof.
  intros H Hf. destruct (mark_fd_spec s fd (proj1 H) Hf) as (s' & Em & Hs' & Hbits). unfold set_mark.
  destruct (Z.eqb_spec ptr 0) as [->|Hp]; [by exists k, s'|].
  destruct (load_fdset_at _ _ _ Hp H) as (k1 & E1 & Hc & _). pose proof (load_same _ _ _ _ E1) as Hsame.
  destruct (store_fdset_at k1 ptr s s' Hp (calm_set _ _ _ _ Hc H) Hs') as (k2 & E2 & Ha & Hsame2 & Hoth).
  exists k2, s'. unfold nbind. rewrite E1. cbn [obind fst snd]. unfold io_out. rewrite Em. cbn [obind fst snd]. rewrite E2.
  split; [done|]. split; [done|]. split; [unfold same_task in *; intuition congruence|]. split; [done|].
  intros q t Hq Ht. apply Hoth; [done|]. by eapply calm_set.
Qed.

(** *** What is marked *)

Definition readable (ev : Z) : bool := has_event ev POLLIN || has_event ev POLLHUP.
Definition writable (ev : Z) : bool := has_event ev POLLOUT.

Definition told (p : Z -> bool) (ret : list (Z * Z)) (fd : Z) : bool := existsb (fun r => (r.1 =? fd) && p r.2) ret.
Definition marks (ret : list (Z * Z)) : Z := foldr (fun r n => Z.b2z (readable r.2) + Z.b2z (writable r.2) + n) 0 ret.

Lemma mark_if_at (p : bool) k ptr s fd : set_at k ptr s -> is_fd fd ->
  exists k' s', (if p then set_mark ptr fd else nret tt) k = Ret (Done (Ok tt), k') /\ set_at k' ptr s' /\ same_task k k' /\
    (forall b, is_fd b -> fdset_bit s' b = ((fd =? b) && p) || fdset_bit s b) /\
    forall q t, sets_apart ptr q -> set_at k q t -> set_at k' q t.
Proof.
  intros H Hf. destruct p.
  - destruct (set_mark_at _ _ _ _ H Hf) as (k' & s' & E & ? & ? & Hb & ?). exists k', s'. do 3 (split; [done|]). split; [|done].
    intros b Hbf. by rewrite Hb, andb_true_r.
  - exists k, s. do 3 (split; [done|]). split; [|done]. intros b Hbf. by rewrite andb_false_r.
Qed.

Lemma sets_apart_sym p q : sets_apart p q -> sets_apart q p.
Proof. unfold sets_apart. tauto. Qed.

(** The sets of a call, apart from each other. *)
Record sets k (r w e : Z) (R W X : FdSet) : Prop := {
  sets_r : set_at k r R; sets_w : set_at k w W; sets_e : set_at k e X;
  sets_rw : sets_apart r w; sets_re : sets_apart r e; sets_we : sets_apart w e;
}.

Lemma select_marks_at ret : forall k r w e R W X res, sets k r w e R W X -> Forall (fun p => is_fd p.1) ret ->
  exists k' R' W', select_marks ret r w res k = Ret (Done (Ok (res + marks ret)), k') /\ sets k' r w e R' W' X /\ same_task k k' /\
    forall b, is_fd b -> fdset_bit R' b = told readable ret b || fdset_bit R b /\
                    fdset_bit W' b = told writable ret b || fdset_bit W b.
Proof.
  induction ret as [|[fd ev] ret IH]; intros k r w e R W X res Hs Hf.
  { exists k, R, W. cbn. rewrite Z.add_0_r. done. }
  inversion_clear Hf as [|? ? Hfd Hf']. destruct Hs as [Hr Hw He Arw Are Awe]. cbn [fst] in Hfd.
  destruct (mark_if_at (readable ev) k r R fd Hr Hfd) as (k1 & R1 & E1 & Hr1 & Hs1 & Hb1 & Ho1).
  destruct (mark_if_at (writable ev) k1 w W fd (Ho1 _ _ Arw Hw) Hfd) as (k2 & W2 & E2 & Hw2 & Hs2 & Hb2 & Ho2).
  destruct (IH k2 r w e R1 W2 X (res + Z.b2z (readable ev) + Z.b2z (writable ev))) as (k3 & R3 & W3 & E3 & Hs3 & Hsm3 & Hb3); [|done|].
  { split; auto using sets_apart_sym. }
  exists k3, R3, W3. split; [|split; [done|split; [unfold same_task in *; intuition congruence|]]].
  - cbn [select_marks]. unfold nbind. fold (readable ev) (writable ev). rewrite E1. cbn [obind fst snd]. rewrite E2. cbn [obind fst snd].
    replace (if writable ev then _ else _) with (res + Z.b2z (readable ev) + Z.b2z (writable ev))
      by (destruct (readable ev), (writable ev); cbn; lia).
    rewrite E3. by replace (res + marks ((fd, ev) :: ret)) with (res + Z.b2z (readable ev) + Z.b2z (writable ev) + marks ret)
      by (unfold marks; cbn [foldr snd]; lia).
  - intros b Hb. destruct (Hb3 b Hb) as [-> ->]. rewrite Hb1, Hb2 by done. unfold told. cbn [existsb fst snd].
    split; rewrite !orb_assoc; f_equal; apply orb_comm.
Qed.

(** *** What is polled *)

Definition is_ready (r : Z * Z) : bool := negb (r.2 =? 0).

(** Every file is asked once, for the events that were asked for, and the answer is the
    files that had an event. *)
Definition polled (polls : list (Z * Z * nat)) (v : list (Z * Z)) : Prop :=
  exists rs, Forall2 (fun p res => exists f f', pw_poll f p.2 p.1.2 = Ret (Some res, f')) polls rs /\
    v = List.filter is_ready (zip (polls.*1.*1) rs).

Lemma poll_each_polled polls : forall f, exists v f', poll_each polls f = Ret (v, f') /\ polled polls v.
Proof.
  induction polls as [|[[i ev] file] polls IH]; intros f; cbn [poll_each].
  { exists [], f. split; [done|]. by exists []. }
  destruct (pw_poll_ready f file ev) as (res & f1 & E1). rewrite E1. cbn [obind unwrap].
  destruct (IH f1) as (v & f2 & E2 & rs & Hrs & ->). rewrite E2. cbn [obind]. eexists _, f2. split; [done|].
  exists (res :: rs). split; [constructor; [by exists f, f1|done]|]. cbn. unfold is_ready. cbn [snd]. by destruct (res =? 0).
Qed.

Lemma polled_keys polls v : polled polls v -> forall r, r ∈ v -> r.1 ∈ polls.*1.*1.
Proof.
  intros (rs & _ & ->) r Hr. apply list_elem_of_In, filter_In, proj1, list_elem_of_In in Hr.
  destruct r as [i res]. by apply elem_of_zip_l in Hr.
Qed.

(** *** Waiting *)

(** While it waits: what the program sees of the call stays, and the task is interruptable. *)
Definition waits k k' : Prop := calm k k' /\ pk_intr k' = pk_intr k.

#[local] Instance waits_refl : Reflexive waits.
Proof. by split. Qed.
#[local] Instance waits_trans : Transitive waits.
Proof. intros a b c [] []. split; [by etrans|congruence]. Qed.

Lemma suspend_waits k : waits k (pk_suspend k).
Proof. split; [apply suspend_calm|]. unfold pk_suspend. by destruct (pw_suspend _) as [[? ?] ?]. Qed.

(** A future that answers only with [Q], and a wait for it. *)
Definition answers {X A} (f : future X A) (Q : A -> PKern F M -> Prop) : Prop := forall x k,
  match f x k with
  | Ret (Some a, _, k') => waits k k' /\ Q a k'
  | Ret (None, _, k') => waits k k'
  | Panic => False
  end.

Lemma await_answers {X A} (f : future X A) Q : answers f Q -> forall fuel x k,
  ends (await fuel f x) k (fun r k' => waits k k' /\ match r with Done (Ok a) => Q a k' | Done (Err _) => False | Waiting => True end).
Proof.
  intros Hf. induction fuel as [|fuel IH]; intros x k; [by split|]. unfold ends. cbn [await]. specialize (Hf x k).
  destruct (f x k) as [[[[a|] x'] k']|]; [done| |done]. cbn [obind]. specialize (IH x' (pk_suspend k')). unfold ends in IH.
  destruct (await _ _ _ _) as [[r k2]|]; [|done]. destruct IH as [Hw Hr]. split; [|done].
  etrans; [exact Hf|]. etrans; [apply suspend_waits|done].
Qed.

Lemma ready_answers polls : answers (ready_poll polls) (fun v _ => v <> [] /\ polled polls v).
Proof.
  intros x k. unfold ready_poll. destruct (poll_each_polled polls (pk_files k)) as (v & f' & E & Hp). rewrite E. cbn [obind].
  destruct v as [|r v]; cbn [length Nat.ltb Nat.leb]; by repeat split.
Qed.

Lemma select2_answers {X Y A B} (f : future X A) (g : future Y B) P Q : answers f P -> answers g Q ->
  answers (select2 f g) (fun o k => match o with inl a => P a k | inr b => Q b k end).
Proof.
  intros Hf Hg [x y] k. unfold select2. cbn [fst snd]. specialize (Hf x k).
  destruct (f x k) as [[[[a|] x'] k1]|]; cbn [obind]; [done| |done]. specialize (Hg y k1).
  destruct (g y k1) as [[[[b|] y'] k2]|]; cbn [obind]; [|by etrans|done]. destruct Hg. split; [by etrans|done].
Qed.

Lemma timed_answers {X A} expire (f : future X A) P : answers f P ->
  answers (timed_poll expire f)
    (fun o k => match o with TimedOK a => P a k | TimedOut => dur_le expire (pw_now (pk_files k)) = true end).
Proof.
  intros Hf [b x] k. unfold timed_poll. cbn [fst snd]. specialize (Hf x k).
  destruct (f x k) as [[[[a|] x'] k1]|]; cbn [obind]; [done| |done].
  destruct (dur_le _ _) eqn:E; [done|]. destruct b; cbn [negb]; [done|]. etrans; [exact Hf|]. split; [by split|done].
Qed.

Lemma intr_answers mask : answers (intr_poll mask) (fun _ k => Z.land (bitmap (pk_sig k)) (wnot mask) <> 0).
Proof. intros x k. unfold intr_poll. by destruct (Z.eqb_spec (Z.land (bitmap (pk_sig k)) (wnot mask)) 0). Qed.

(** How a wait of the calls ends: with files that were ready; with nothing, when there is
    a deadline and it is over; or with a signal that is not blocked. *)
Definition wait_ends (polls : list (Z * Z * nat)) (timed signals : bool) (k : PKern F M) (r : reply (option (list (Z * Z)))) (k' : PKern F M) : Prop :=
  waits k k' /\
  match r with
  | Done (Ok (Some v)) => v <> [] /\ polled polls v
  | Done (Ok None) => timed = true
  | Done (Err e) => e = EINTR /\ signals = true
  | Waiting => True
  end.

Lemma pselect_wait_ends fuel timeout polls mask k :
  match timeout with Some d => is_Some (dur_checked_add (pw_now (pk_files k)) d) | None => True end ->
  ends (pselect_wait fuel timeout polls mask) k (wait_ends polls (bool_decide (is_Some timeout)) true k).
Proof.
  intros Ht. destruct timeout as [d|]; cbn [pselect_wait].
  - destruct Ht as [expire Ee]. eapply ends_step; [unfold timed_new, io_out, dur_add; by rewrite Ee|].
    apply ends_bind. eapply ends_mono; [apply await_answers, select2_answers, intr_answers; apply timed_answers, ready_answers|].
    intros [[[[|v]|[]]|e]|] k' [Hw HQ]; cbn; try done; by split.
  - apply ends_bind. eapply ends_mono; [apply await_answers, select2_answers, intr_answers; apply ready_answers|].
    intros [[[v|[]]|e]|] k' [Hw HQ]; cbn; try done; by split.
Qed.

Definition numbered (polls : list (Z * nat)) : list (Z * Z * nat) := imap (fun i p => (Z.of_nat i, p.1, p.2)) polls.

Lemma ppoll_wait_ends fuel timeout polls mask k :
  match timeout with
  | Some t => exists d, TimeSpec_into t = Ret d /\ is_Some (dur_checked_add (pw_now (pk_files k)) d)
  | None => True
  end ->
  ends (ppoll_wait fuel timeout polls mask) k
     (wait_ends (numbered polls) (bool_decide (is_Some timeout)) (bool_decide (timeout = None)) k).
Proof.
  intros Ht. destruct timeout as [t|]; cbn [ppoll_wait].
  - destruct Ht as (d & Ed & expire & Ee). eapply ends_step; [unfold io_out; by rewrite Ed|].
    eapply ends_step; [unfold timed_new, io_out, dur_add; by rewrite Ee|].
    apply ends_bind. eapply ends_mono; [apply await_answers, timed_answers, ready_answers|].
    intros [[[|v]|e]|] k' [Hw HQ]; cbn; try done; by split.
  - apply ends_bind. eapply ends_mono; [apply await_answers, select2_answers, intr_answers; apply ready_answers|].
    intros [[[v|[]]|e]|] k' [Hw HQ]; cbn; try done; by split.
Qed.

(** ** The files of a call *)

Definition wanted (r w : Z) (R W : FdSet) (fd : Z) : Z :=
  Z.lor (if given r (fdset_bit R fd) then POLLIN else 0) (if given w (fdset_bit W fd) then POLLOUT else 0).

(** The descriptors of [lo .. hi) that are in a set, in order, with their files. *)
Definition requested (fds : FdTable nat) (r w : Z) (R W : FdSet) (lo hi : Z) (polls : list (Z * Z * nat)) : Prop :=
  Forall (fun p => lo <= p.1.1 < hi /\ p.1.2 = wanted r w R W p.1.1 /\ get_file fds (Z.to_nat p.1.1) = Ok p.2) polls /\
  forall fd, lo <= fd < hi -> wanted r w R W fd <> 0 -> fd ∈ polls.*1.*1.

Lemma io_file_spec k fd (Q : reply nat -> PKern F M -> Prop) :
  (forall f, get_file (pk_fds k) (Z.to_nat fd) = Ok f -> Q (Done (Ok f)) k) -> Q (Done (Err EBADF)) k -> ends (io_file fd) k Q.
Proof.
  intros HQ HE. unfold ends, io_file. destruct (_ <=? _); [done|]. rewrite get_file_at in *. destruct (ft_at _ _); auto.
Qed.

Lemma select_files_at n : forall lo k r w R W, set_at k r R -> set_at k w W -> 0 <= lo -> lo + Z.of_nat n <= FD_SET_SIZE ->
  ends (select_files n lo r w) k (fun o k' => calm k k' /\ pk_files k' = pk_files k /\
    match o with
    | Done (Ok polls) => requested (pk_fds k) r w R W lo (lo + Z.of_nat n) polls
    | Done (Err e) => e = EBADF
    | Waiting => False
    end).
Proof.
  induction n as [|n IH]; intros lo k r w R W HR HW Hlo Hhi; cbn [select_files].
  { split; [done|]. split; [done|]. split; [constructor|]. lia. }
  assert (is_fd lo) as Hfd by (split; lia).
  destruct (set_has_at k r R lo HR Hfd) as (k1 & E1 & C1 & F1). eapply ends_step; [exact E1|].
  destruct (set_has_at k1 w W lo (calm_set _ _ _ _ C1 HW) Hfd) as (k2 & E2 & C2 & F2). eapply ends_step; [exact E2|].
  fold (wanted r w R W lo). assert (calm k k2) as C by (by etrans). pose proof (calm_fds _ _ C) as Ef.
  specialize (IH (lo + 1) k2 r w R W (calm_set _ _ _ _ C HR) (calm_set _ _ _ _ C HW) ltac:(lia) ltac:(lia)).
  replace (lo + 1 + Z.of_nat n) with (lo + Z.of_nat (S n)) in IH by lia.
  destruct (Z.eqb_spec (wanted r w R W lo) 0) as [E0|E0].
  - eapply ends_mono; [exact IH|]. intros o k' (C' & F' & Ho). split; [by etrans|]. split; [congruence|].
    destruct o as [[polls|]|]; [|done..]. rewrite Ef in Ho. destruct Ho as [HA HB]. split.
    + eapply Forall_impl; [exact HA|]. cbn. intros p (? & ? & ?). repeat split; [lia..|done|done].
    + intros fd Hr Hw. destruct (decide (fd = lo)) as [->|]; [done|]. apply HB; [lia|done].
  - apply ends_bind, io_file_spec; [|by repeat split; [apply C..|congruence]]. intros f Hf. cbn [and_then].
    apply ends_bind. eapply ends_mono; [exact IH|]. intros o k' (C' & F' & Ho).
    destruct o as [[polls|e]|]; cbn [and_then]; [|split; [by etrans|split; [congruence|done]]|done].
    apply ends_ret. split; [by etrans|]. split; [congruence|]. rewrite Ef in Hf, Ho. destruct Ho as [HA HB]. split.
    + constructor; [cbn; split; [lia|done]|]. eapply Forall_impl; [exact HA|]. cbn. intros p (? & ? & ?). repeat split; [lia..|done|done].
    + intros fd Hr Hw. cbn. destruct (decide (fd = lo)) as [->|]; [left|right; apply HB; [lia|done]].
Qed.

(** ** The whole of [pselect6] *)

Lemma sets_calm k k' r w e R W X : calm k k' -> sets k r w e R W X -> sets k' r w e R W X.
Proof. intros C [Hr Hw He Arw Are Awe]. split; [by eapply calm_set..|done|done|done]. Qed.

Lemma sets_mem k k' r w e R W X : pk_mem k' = pk_mem k -> pk_vm k' = pk_vm k -> sets k r w e R W X -> sets k' r w e R W X.
Proof. intros Em Ev [[? ?] [? ?] [? ?] Arw Are Awe]. split; [..|done|done|done]; split; rewrite ?Em, ?Ev; done. Qed.

Lemma clear_sets_at k r w e R W X : sets k r w e R W X ->
  exists k', clear_sets r w e k = Ret (Done (Ok tt), k') /\ sets k' r w e fdset_clear fdset_clear fdset_clear /\ same_task k k'.
Proof.
  intros [Hr Hw He Arw Are Awe].
  destruct (set_clear_at k r R Hr) as (k1 & E1 & H1 & S1 & O1).
  destruct (set_clear_at k1 w W (O1 _ _ Arw Hw)) as (k2 & E2 & H2 & S2 & O2).
  destruct (set_clear_at k2 e X (O2 _ _ Awe (O1 _ _ Are He))) as (k3 & E3 & H3 & S3 & O3).
  exists k3. unfold clear_sets, nbind. rewrite E1. cbn [obind fst snd]. rewrite E2. cbn [obind fst snd]. rewrite E3.
  split; [done|]. split; [|unfold same_task in *; intuition congruence].
  split; auto using sets_apart_sym.
Qed.

(** The deadline and the mask that the program gave can be read, and the deadline is a
    time that the clock can have. *)
Definition timeout_ok k (ptr : Z) : Prop := ptr <> 0 -> exists bs d,
  ub_has (pk_mem k) (pk_vm k) ptr bs /\ length bs = 16%nat /\ TimeSpec_into (mkTs (field bs 0 8) (field bs 8 8)) = Ret d /\
  is_Some (dur_checked_add (pw_now (pk_files k)) d).
Definition mask_ok k (ptr : Z) : Prop := ptr <> 0 -> exists bs, ub_has (pk_mem k) (pk_vm k) ptr bs /\ length bs = 8%nat.

Lemma read_timespec_at k ptr : ptr <> 0 -> timeout_ok k ptr -> exists t d k',
  read_timespec ptr k = Ret (Done (Ok t), k') /\ calm k k' /\ pk_files k' = pk_files k /\
  TimeSpec_into t = Ret d /\ is_Some (dur_checked_add (pw_now (pk_files k)) d).
Proof.
  intros Hp H. destruct (H Hp) as (bs & d & Hb & Hl & Hd & Hs). destruct (io_read_calm _ _ _ Hb) as (k' & E & C & Ef).
  rewrite Hl in E. eexists _, d, k'. unfold read_timespec, nbind. change 16 with (Z.of_nat 16). rewrite E. by cbn [obind fst snd].
Qed.

Lemma read_sigset_at k ptr : mask_ok k ptr -> exists m k',
  if_given ptr (read_sigset ptr) k = Ret (Done (Ok m), k') /\ calm k k' /\ pk_files k' = pk_files k.
Proof.
  intros H. unfold if_given. destruct (Z.eqb_spec ptr 0) as [|Hp]; [by exists None, k|].
  destruct (H Hp) as (bs & Hb & Hl). destruct (io_read_calm _ _ _ Hb) as (k' & E & C & Ef). rewrite Hl in E.
  eexists _, k'. unfold read_sigset, nbind. change 8 with (Z.of_nat 8). rewrite E. by cbn [obind fst snd].
Qed.

Lemma mask_ok_calm k k' ptr : calm k k' -> mask_ok k ptr -> mask_ok k' ptr.
Proof. intros C H Hp. destruct (H Hp) as (bs & ? & ?). exists bs. split; [by apply (calm_mem _ _ C)|done]. Qed.

Lemma read_timeout_at k ptr : timeout_ok k ptr -> exists t k',
  if_given ptr (let@ t := read_timespec ptr in io_out (TimeSpec_into t)) k = Ret (Done (Ok t), k') /\ calm k k' /\ pk_files k' = pk_files k /\
  match t with Some d => ptr <> 0 /\ is_Some (dur_checked_add (pw_now (pk_files k)) d) | None => ptr = 0 end.
Proof.
  intros H. unfold if_given. destruct (Z.eqb_spec ptr 0) as [|Hp]; [by exists None, k|].
  destruct (read_timespec_at k ptr Hp H) as (t & d & k' & E & C & Ef & Ed & Hs). exists (Some d), k'.
  unfold nbind. rewrite E. cbn [obind fst snd]. unfold io_out. rewrite Ed. by cbn [obind fst snd].
Qed.

(** What the program sees after an answer of [pselect6]. *)
Definition select_answer (fds : FdTable nat) (nfds r w e timeout : Z) (R W : FdSet) (res : Z) (k' : PKern F M) : Prop :=
  exists v R' W', sets k' r w e R' W' fdset_clear /\ res = marks v /\
    (forall b, is_fd b -> fdset_bit R' b = told readable v b /\ fdset_bit W' b = told writable v b) /\
    (v = [] /\ timeout <> 0 \/ v <> [] /\ exists polls, requested fds r w R W 0 nfds polls /\ polled polls v).

(** The end of the call: the sets are cleared, the task runs with its old mask, and the
    files that were ready are marked. *)
Lemma select_finish k r w e R W X prev v :
  sets k r w e R W X -> Forall (fun p => is_fd p.1) (default [] v) ->
  ends (let@ _ := clear_sets r w e in let@ _ := end_wait prev in
      match v with None => nret 0 | Some ret => select_marks ret r w 0 end) k
    (fun o k' => exists res, o = Done (Ok res) /\ res = marks (default [] v) /\ pk_intr k' = false /\
      blocked_sigs (pk_sig k') = default (blocked_sigs (pk_sig k)) prev /\
      exists R' W', sets k' r w e R' W' fdset_clear /\
        forall b, is_fd b -> fdset_bit R' b = told readable (default [] v) b /\ fdset_bit W' b = told writable (default [] v) b).
Proof.
  intros Hs Hf. destruct (clear_sets_at _ _ _ _ _ _ _ Hs) as (k1 & E1 & Hs1 & Hm1). eapply ends_step; [exact E1|].
  destruct Hm1 as (_ & _ & _ & Hsig & _).
  set (k2 := (match prev with Some mask => set_mask mask | None => id end) (pk_with_intr k1 false)).
  assert (sets k2 r w e fdset_clear fdset_clear fdset_clear) as Hs2 by (eapply sets_mem, Hs1; by destruct prev).
  assert (blocked_sigs (pk_sig k2) = default (blocked_sigs (pk_sig k)) prev) as Hb2 by (destruct prev; cbn; by rewrite ?Hsig).
  assert (pk_intr k2 = false) as Hi2 by (by destruct prev).
  eapply ends_step; [unfold end_wait, nbind, nput; cbn [obind fst snd]; fold k2; reflexivity|].
  destruct v as [v|]; cbn [default id] in *.
  - destruct (select_marks_at v k2 r w e fdset_clear fdset_clear fdset_clear 0 Hs2 Hf) as (k3 & R3 & W3 & E3 & Hs3 & (_ & _ & _ & Hg & Hi) & Hb3).
    unfold ends. rewrite E3. exists (marks v). do 4 (split; [congruence || done|]). exists R3, W3. split; [done|]. intros b Hb. destruct (Hb3 b Hb) as [-> ->].
    by rewrite fdset_clear_bit, !orb_false_r.
  - exists 0. do 4 (split; [done|]). exists fdset_clear, fdset_clear. split; [done|]. intros b _. by rewrite fdset_clear_bit.
Qed.

Lemma ready_are_fds fds r w R W n polls v : requested fds r w R W 0 n polls -> n <= FD_SET_SIZE -> polled polls v ->
  Forall (fun p => is_fd p.1) v.
Proof.
  intros [Hr _] Hn Hp. apply Forall_forall. intros p Hin. apply (polled_keys _ _ Hp) in Hin.
  apply list_elem_of_fmap in Hin as (q & -> & Hin). apply list_elem_of_fmap in Hin as (q' & -> & Hin).
  rewrite Forall_forall in Hr. destruct (Hr _ Hin) as [? _]. unfold is_fd. lia.
Qed.


(** ** The whole of [ppoll] *)

Lemma pollfds_of_len n : forall b, length (pollfds_of n b) = n.
Proof. induction n as [|n IH]; intros b; cbn; [done|by rewrite IH]. Qed.

Lemma add_revents_len v : forall fds, length (foldl add_revents fds v) = length fds.
Proof. induction v as [|r v IH]; intros fds; cbn; [done|]. rewrite IH. apply length_alter. Qed.

Lemma pollfds_bytes_len fds : length (fds ≫= pollfd_bytes) = (8 * length fds)%nat.
Proof.
  induction fds as [|p fds IH]; [done|]. cbn [mbind list_bind]. rewrite length_app. change (list_bind _ _ pollfd_bytes fds) with (fds ≫= pollfd_bytes). rewrite IH.
  unfold pollfd_bytes. rewrite !length_app, !le_bytes_len. cbn. lia.
Qed.

(** The files of the array, in order, each with the events asked for. *)
Definition poll_entries (fds : FdTable nat) (ps : list PollFd) (polls : list (Z * nat)) : Prop :=
  Forall2 (fun p q => q.1 = pfd_events p /\ get_file fds (Z.to_nat (wrap (pfd_fd p))) = Ok q.2) ps polls.

Lemma poll_files_at ps : forall k, ends (poll_files ps) k (fun o k' => k' = k /\
  match o with Done (Ok polls) => poll_entries (pk_fds k) ps polls | Done (Err e) => e = EBADF | Waiting => False end).
Proof.
  induction ps as [|p ps IH]; intros k; cbn [poll_files]; [split; [done|constructor]|].
  apply ends_bind, io_file_spec; [|done]. intros f Hf. cbn [and_then]. apply ends_bind. eapply ends_mono; [apply IH|].
  intros o k' [-> Ho]. destruct o as [[polls|e]|]; cbn [and_then]; [|done..]. split; [done|]. by constructor.
Qed.

(** The read of the deadline as it is given, for [ppoll] converts it when it waits. *)
Lemma read_deadline_at k ptr : timeout_ok k ptr -> exists t k',
  if_given ptr (read_timespec ptr) k = Ret (Done (Ok t), k') /\ calm k k' /\ pk_files k' = pk_files k /\
  match t with
  | Some t => ptr <> 0 /\ exists d, TimeSpec_into t = Ret d /\ is_Some (dur_checked_add (pw_now (pk_files k)) d)
  | None => ptr = 0
  end.
Proof.
  intros H. unfold if_given. destruct (Z.eqb_spec ptr 0) as [|Hp]; [by exists None, k|].
  destruct (read_timespec_at k ptr Hp H) as (t & d & k' & E & C & Ef & Ed & Hs). exists (Some t), k'.
  unfold nbind. rewrite E. cbn [obind fst snd]. eauto 8.
Qed.

Lemma read_mask_at k ptr mb : ptr <> 0 -> ub_has (pk_mem k) (pk_vm k) ptr mb -> length mb = 8%nat ->
  exists k', if_given ptr (read_sigset ptr) k = Ret (Done (Ok (Some (le_value mb))), k') /\ calm k k' /\ pk_files k' = pk_files k.
Proof.
  intros Hp Hb Hl. unfold if_given. rewrite (proj2 (Z.eqb_neq _ _)) by done. destruct (io_read_calm _ _ _ Hb) as (k' & E & C & Ef).
  rewrite Hl in E. exists k'. unfold read_sigset, nbind. change 8 with (Z.of_nat 8). rewrite E. by cbn [obind fst snd].
Qed.

(** The answer with files that are ready: the array with their events added, the old mask. *)
Definition poll_answer (fds : FdTable nat) (ptr : Z) (ps : list PollFd) (n : Z) (k' : PKern F M) : Prop :=
  exists polls v, poll_entries fds ps polls /\ polled (numbered polls) v /\ v <> [] /\ n = Z.of_nat (length v) /\
    ub_has (pk_mem k') (pk_vm k') ptr (foldl add_revents ps v ≫= pollfd_bytes).

Lemma ppoll_finish k ptr ps v old bs : ub_has (pk_mem k) (pk_vm k) ptr bs -> length bs = (8 * length ps)%nat ->
  ends (let@ _ := nput (fun k => pk_with_intr k false) in
      let@ _ := io_write ptr (foldl add_revents ps v ≫= pollfd_bytes) in
      let@ _ := nput (set_mask old) in nret (Z.of_nat (length v))) k
    (fun o k' => o = Done (Ok (Z.of_nat (length v))) /\ blocked_sigs (pk_sig k') = old /\ pk_intr k' = false /\
       ub_has (pk_mem k') (pk_vm k') ptr (foldl add_revents ps v ≫= pollfd_bytes)).
Proof.
  intros Hb Hl. eapply ends_step; [reflexivity|].
  destruct (ub_write_has _ _ _ _ (foldl add_revents ps v ≫= pollfd_bytes) Hb) as (m & E & Hm & _).
  { by rewrite pollfds_bytes_len, add_revents_len. }
  eapply ends_step; [unfold io_write; cbn [pk_mem pk_vm pk_with_intr]; rewrite E; reflexivity|]. done.
Qed.

(** C38: How [ppoll] ends when it is given a mask.  It does not panic, and it fails only for a descriptor
    that is not open or, when it has no deadline, for a signal.  When files are ready it answers their
    number, adds their events to what the program had in the array, and the old mask is back.  But when
    the deadline passes or a signal ends it, the mask that was meant for the wait stays in the task, added
    to its own, and the task stays interruptable; and a wait with a deadline is never ended by a signal. *)
Theorem ppoll_leaves_mask fuel ptr nfds timeout sigmask k bs mb :
  0 <= nfds -> ub_has (pk_mem k) (pk_vm k) ptr bs -> Z.of_nat (length bs) = 8 * nfds -> timeout_ok k timeout ->
  sigmask <> 0 -> ub_has (pk_mem k) (pk_vm k) sigmask mb -> length mb = 8%nat ->
  exists o k', sys_ppoll fuel ptr nfds timeout sigmask k = Ret (o, k') /\
    let leaked := blocked_sigs (pk_sig k') = Z.lor (blocked_sigs (pk_sig k)) (le_value mb) /\ pk_intr k' = true in
    match o with
    | Waiting => True
    | Done (Err err) => err = EBADF \/ err = EINTR /\ timeout = 0 /\ leaked
    | Done (Ok n) => n = 0 /\ timeout <> 0 /\ leaked \/
        poll_answer (pk_fds k) ptr (pollfds_of (Z.to_nat nfds) bs) n k' /\
        blocked_sigs (pk_sig k') = blocked_sigs (pk_sig k) /\ pk_intr k' = false
    end.
Proof.
  intros Hn Hb Hl Ht Hp Hmb Hml. apply ends_run. unfold sys_ppoll.
  destruct (io_read_calm _ _ _ Hb) as (k1 & E1 & C1 & F1). rewrite Hl in E1. eapply ends_step; [exact E1|].
  destruct (read_deadline_at k1 timeout) as (t & k2 & E2 & C2 & F2 & Ht2).
  { intros Ht0. destruct (Ht Ht0) as (b & d & ? & ? & ? & ?). exists b, d. rewrite F1. split; [by apply (calm_mem _ _ C1)|done]. }
  eapply ends_step; [exact E2|]. assert (calm k k2) as C02 by (by etrans).
  destruct (read_mask_at k2 sigmask mb Hp (calm_mem _ _ C02 _ _ Hmb) Hml) as (k3 & E3 & C3 & F3). eapply ends_step; [exact E3|].
  assert (calm k k3) as C03 by (by etrans). set (ps := pollfds_of (Z.to_nat nfds) bs).
  apply ends_bind. eapply ends_mono; [apply poll_files_at|]. intros o k' [-> Ho].
  destruct o as [[polls|err]|]; cbn [and_then]; [|by left|done]. rewrite (calm_fds _ _ C03) in Ho.
  eapply ends_step; [reflexivity|]. eapply ends_step; [reflexivity|]. eapply ends_step; [reflexivity|]. eapply ends_step; [reflexivity|].
  match goal with |- ends _ ?s _ => set (k4 := s) end.
  pose proof (calm_mask _ _ C03) as H3.
  apply ends_bind. eapply ends_mono; [apply ppoll_wait_ends|].
  { cbn. rewrite F3. rewrite <- F2 in Ht2. destruct t; [by rewrite F2 in *; apply Ht2|done]. }
  intros o k5 [[C5 Hi5] HQ]. pose proof (calm_mask _ _ C5) as H5.
  destruct o as [[[v|]|err]|]; cbn [and_then]; [|..|done].
  - eapply ends_mono; [apply (ppoll_finish _ _ _ _ _ bs)|].
    + apply (calm_mem _ _ C5). cbn. by apply (calm_mem _ _ C03).
    + unfold ps. rewrite pollfds_of_len. lia.
    + intros o k6 (-> & Hmask & Hi & Hm). right. split; [|by rewrite Hmask]. exists polls, v. split; [done|]. by destruct HQ.
  - left. split; [done|]. split; [by destruct t; [apply Ht2|]|]. split; [rewrite H5; cbn; by rewrite H3|done].
  - destruct HQ as [-> Hs]. right. split; [done|]. split; [by destruct t|]. split; [rewrite H5; cbn; by rewrite H3|done].
Qed.

(** ** Calls that panic *)

(** A set of 1024 descriptors is indexed with every number below [nfds]. *)
Lemma select_files_panics n : forall lo k r R, r <> 0 -> set_at k r R -> (forall b, is_fd b -> fdset_bit R b = false) ->
  0 <= lo <= FD_SET_SIZE -> FD_SET_SIZE < lo + Z.of_nat n -> select_files n lo r 0 k = Panic.
Proof.
  induction n as [|n IH]; intros lo k r R Hr HR Hempty Hlo Hn; [lia|]. cbn [select_files]. unfold nbind at 1.
  destruct (decide (lo = FD_SET_SIZE)) as [->|Hne].
  - unfold set_has. rewrite (proj2 (Z.eqb_neq _ _)) by done. destruct (load_fdset_at k r R Hr HR) as (k1 & E1 & _).
    unfold nbind. rewrite E1. cbn [obind fst snd]. unfold io_out.
    destruct (mark_fd_panics R FD_SET_SIZE) as [_ ->]; [apply HR|done|done].
  - assert (is_fd lo) as Hfd by (split; lia). destruct (set_has_at k r R lo HR Hfd) as (k1 & E1 & C1 & _). rewrite E1. cbn [obind fst snd].
    unfold nbind at 1. cbn [set_has Z.eqb nret obind fst snd]. rewrite Hempty by done.
    replace (given r false) with false by (unfold given; by rewrite andb_false_r). cbn [Z.lor Z.eqb].
    eapply IH; [done|by eapply calm_set|done|lia|lia].
Qed.

(** [pselect6] for more than 1024 descriptors, with a set, panics. *)
Theorem select_1025_panics fuel nfds r e k R : FD_SET_SIZE < nfds -> r <> 0 -> set_at k r R ->
  (forall b, is_fd b -> fdset_bit R b = false) -> sys_pselect6 fuel nfds r 0 e 0 0 k = Panic.
Proof.
  intros Hn Hr HR He. unfold sys_pselect6. rewrite (proj2 (Z.ltb_ge _ _)) by (unfold FD_SET_SIZE in *; lia).
  eapply panic_step; [reflexivity|]. eapply panic_step; [reflexivity|]. apply panic_here.
  apply (select_files_panics _ 0 k r R); [done..| |]; unfold FD_SET_SIZE in *; lia.
Qed.

(** A deadline that is over the end of the clock panics. *)
Theorem late_deadline_panics fuel ptr k bs d : ptr <> 0 -> ub_has (pk_mem k) (pk_vm k) ptr bs -> length bs = 16%nat ->
  TimeSpec_into (mkTs (field bs 0 8) (field bs 8 8)) = Ret d -> dur_checked_add (pw_now (pk_files k)) d = None ->
  sys_pselect6 fuel 0 0 0 0 ptr 0 k = Panic.
Proof.
  intros Hp Hb Hl Hd Ha. destruct (io_read_calm _ _ _ Hb) as (k1 & E1 & _ & F1). rewrite Hl in E1.
  assert (if_given ptr (let@ t := read_timespec ptr in io_out (TimeSpec_into t)) k = Ret (Done (Ok (Some d)), k1)) as E.
  { unfold if_given. rewrite (proj2 (Z.eqb_neq _ _)) by done. unfold read_timespec, nbind. change 16 with (Z.of_nat 16).
    rewrite E1. cbn [obind fst snd nret]. unfold io_out. by rewrite Hd. }
  unfold sys_pselect6. cbn [Z.ltb Z.compare]. eapply panic_step; [exact E|]. do 7 (eapply panic_step; [reflexivity|]).
  apply panic_here. unfold pselect_wait. apply panic_here. unfold timed_new, io_out, dur_add. cbn. by rewrite F1, Ha.
Qed.
End Proofs.

(** ** A small world *)

(** Memory as bytes; a file is ready for all that is asked from the tick that is its
    number on, and a suspended task runs again at the next tick. *)
#[local] Instance poll_memory : UserBytes (gmap Z Z) := {
  ub_cstr m _ _ := Ret (None, m);
  ub_read m _ ptr len := let! b := unwrap (bytes_at m ptr (Z.to_nat len)) in Ret (b, m);
  ub_write m _ ptr bytes := unwrap (bytes_put m ptr bytes) }.

Definition bytes_are (m : gmap Z Z) (p : Z) (bs : list Z) : Prop := forall i b, bs !! i = Some b -> m !! (p + Z.of_nat i) = Some b.

Lemma bytes_are_cons m p b bs : bytes_are m p (b :: bs) <-> m !! p = Some b /\ bytes_are m (p + 1) bs.
Proof.
  split.
  - intros H. split; [specialize (H 0%nat b eq_refl); by rewrite Z.add_0_r in H|].
    intros i c Hi. specialize (H (S i) c Hi). by replace (p + 1 + Z.of_nat i) with (p + Z.of_nat (S i)) by lia.
  - intros [H0 H] [|i] c Hi; [injection Hi as <-; by rewrite Z.add_0_r|]. specialize (H i c Hi).
    by replace (p + Z.of_nat (S i)) with (p + 1 + Z.of_nat i) by lia.
Qed.

Lemma bytes_at_are m bs : forall p, bytes_are m p bs -> bytes_at m p (length bs) = Some bs.
Proof.
  induction bs as [|b bs IH]; intros p H; [done|]. apply bytes_are_cons in H as [H0 H]. cbn. rewrite H0. cbn. by rewrite (IH _ H).
Qed.

Lemma bytes_put_are bs' : forall m p bs, bytes_are m p bs -> length bs' = length bs ->
  exists m', bytes_put m p bs' = Some m' /\ bytes_are m' p bs' /\ forall q, q < p \/ p + Z.of_nat (length bs) <= q -> m' !! q = m !! q.
Proof.
  induction bs' as [|b' bs' IH]; intros m p [|b bs] H Hl; [by exists m|done..|]. injection Hl as Hl.
  apply bytes_are_cons in H as [H0 H]. cbn [bytes_put]. rewrite bool_decide_true by (by rewrite H0).
  destruct (IH (<[p:=b']> m) (p + 1) bs) as (m' & E & Hb & Ho); [|done|].
  { intros i c Hi. rewrite lookup_insert_ne by lia. by apply H. }
  exists m'. split; [done|]. split.
  - apply bytes_are_cons. split; [|done]. rewrite Ho by lia. apply lookup_insert_eq.
  - intros q Hq. cbn [length] in Hq. rewrite Ho by lia. apply lookup_insert_ne. lia.
Qed.

#[local] Instance poll_memory_laws : UserBytesLaws (gmap Z Z).
Proof.
  refine {| ub_has m _ := bytes_are m |}.
  - intros m vm p bs H. exists m. cbn. rewrite Nat2Z.id, (bytes_at_are _ _ _ H). done.
  - intros m vm p bs bs' H Hl. cbn. destruct (bytes_put_are bs' m p bs H Hl) as (m' & -> & Hb & Ho).
    exists m'. split; [done|]. split; [done|]. intros q cs Hd Hc i c Hi. rewrite Ho; [by apply Hc|].
    apply lookup_lt_Some in Hi. lia.
Defined.

#[local] Instance tick_world : PollWorld nat (gmap Z Z) := {
  pw_poll t file ev := Ret (Some (if (file <=? t)%nat then ev else 0), t);
  pw_now t := mkDur (Z.of_nat t) 0;
  pw_suspend w := let '(t, m, s) := w in (S t, m, s) }.

#[local] Instance tick_laws : PollLaws nat (gmap Z Z).
Proof.
  split.
  - intros f file ev. eauto.
  - by intros f m s f' m' s' [= <- <- <-].
  - by intros f m s f' m' s' [= <- <- <-].
Qed.

Definition lay (p : Z) (bs : list Z) (m : gmap Z Z) : gmap Z Z := list_to_map (imap (fun i b => (p + Z.of_nat i, b)) bs) ∪ m.

Definition seen {A} (o : outcome (reply A * PKern nat (gmap Z Z))) : option (A + SysError) :=
  match o with Ret (Done (Ok a), _) => Some (inl a) | Ret (Done (Err e), _) => Some (inr e) | _ => None end.

(** Descriptor 0 is ready at the tick 2, descriptor 1 at 9; a read set with both at 1000,
    a write set with 1 at 2000, a deadline of 5 seconds at 3000, a mask at 4000 and an
    array for [ppoll] at 5000. *)
Definition tick_kernel : PKern nat (gmap Z Z) :=
  mkPK 0%nat (mkFT [Some (mkFdInfo 2%nat 0); Some (mkFdInfo 9%nat 0)] (mkRLimit 1024 1024))
    (lay 1000 (fdset_bytes (3 :: replicate 15 0)) (lay 2000 (fdset_bytes (2 :: replicate 15 0))
      (lay 3000 (le_bytes 8 5 ++ le_bytes 8 0) (lay 4000 (le_bytes 8 0x200)
        (lay 5000 (pollfd_bytes (mkPollFd 1 POLLIN 0)) ∅))))) 0
    (mkSig [] ∅ 0 1 [] 0) false [].

Lemma bytes_are_dec m p bs : bytes_at m p (length bs) = Some bs -> bytes_are m p bs.
Proof.
  revert p. induction bs as [|b bs IH]; intros p H; [intros i c; by rewrite lookup_nil|]. cbn in H.
  apply bind_Some in H as (b' & H0 & H). apply bind_Some in H as (bs'' & H1 & [= -> ->]). apply bytes_are_cons. auto.
Qed.

Lemma tick_sets : sets tick_kernel 1000 2000 0 (3 :: replicate 15 0) (2 :: replicate 15 0) fdset_clear.
Proof.
  split; [| | |by right; right; left|by right; left|by right; left]; (split; [split; [done|repeat constructor; done]|]); [..|done];
    intros _; apply bytes_are_dec; by vm_compute.
Qed.

Lemma tick_timeout : timeout_ok tick_kernel 3000.
Proof.
  intros _. exists (le_bytes 8 5 ++ le_bytes 8 0), (mkDur 5 0). split; [apply bytes_are_dec; by vm_compute|].
  split; [done|]. split; [by vm_compute|]. by eexists.
Qed.


Lemma ppoll_leaves_mask_witness : seen (sys_ppoll 9 5000 1 3000 4000 tick_kernel) = Some (inl 0) /\
  exists o k', sys_ppoll 9 5000 1 3000 4000 tick_kernel = Ret (o, k') /\
    let leaked := blocked_sigs (pk_sig k') = Z.lor (blocked_sigs (pk_sig tick_kernel)) (le_value (le_bytes 8 0x200)) /\ pk_intr k' = true in
    match o with
    | Waiting => True
    | Done (Err err) => err = EBADF \/ err = EINTR /\ 3000 = 0 /\ leaked
    | Done (Ok n) => n = 0 /\ 3000 <> 0 /\ leaked \/
        poll_answer (pk_fds tick_kernel) 5000 (pollfds_of (Z.to_nat 1) (pollfd_bytes (mkPollFd 1 POLLIN 0))) n k' /\
        blocked_sigs (pk_sig k') = blocked_sigs (pk_sig tick_kernel) /\ pk_intr k' = false
    end.
Proof.
  split; [by vm_compute|].
  apply (ppoll_leaves_mask 9 5000 1 3000 4000 tick_kernel (pollfd_bytes (mkPollFd 1 POLLIN 0)) (le_bytes 8 0x200));
    [done|apply bytes_are_dec; by vm_compute|done|apply tick_timeout|done|apply bytes_are_dec; by vm_compute|done].
Defined.
